(* ===== verification/_CoqProject ===== *)
-Q . S2P
Prelude.v
Types.v
Environ.v
Instances.v
Ciphers.v
TempFile.v
EncTde.v
KeyringOptions.v
KeyringOptionsThms.v
Guc.v
KeyFile.v
KeyMap.v
KeyMapSpec.v
KeyMigration.v
WalKeys.v
WalKeysSpec.v
WalKeysThms.v
XLogSmgr.v
XLogSmgrSpec.v
XLogSmgrThms.v
ArchiveTools.v
ArchiveThms.v
Keyring.v
KeyringThms.v
OpenBao.v
OpenBaoThms.v
Kmip.v
KmipThms.v
KeyProviders.v
ChangeProvider.v
ProviderSpec.v
PrincipalKey.v
PrincipalKeyThms.v
Startup.v
ProviderSql.v
ProviderThms.v
ChangeProviderThms.v
Network.v
EventCapture.v
EventCaptureThms.v
Smgr.v
SmgrSpec.v
SmgrThms.v
XLogRedo.v
XLogRedoThms.v
FileMap.v
FileMapThms.v
Rewind.v
RewindThms.v
RewindWalThms.v
RewindPlanThms.v
LibpqSource.v
LibpqSourceThms.v
Checksums.v
ChecksumsThms.v
ReceiveWal.v
ReceiveWalThms.v
AStreamer.v
AStreamerThms.v
