(* ===== verification/Prelude.v ===== *)
(** * open_pg_tde: transparent data encryption for PostgreSQL

    This library models the C sources of the extension under src/src, and the
    parts of PostgreSQL's programs under src/fetools that were changed for it, as
    Rocq functions and proves what the parts promise to each other and to the user.

    ** The program

    The extension stores the pages of tables with the access method tde_heap, the
    WAL and temporary files encrypted. A table has a data key of its own, kept in
    the file "<database>_keys"; the WAL has a key per range of locations, kept in
    the file "wal_keys". These keys are encrypted with a principal key, one per
    database and one for the server, which is fetched from a key provider; the
    providers of a database are the records of the file "<database>_providers".
    An event trigger decides, while a command runs, whether the files it creates
    are encrypted; the storage manager asks it, creates keys, and encrypts pages
    on their way to md.c. Changes of keys and providers are logged in the WAL and
    replayed on standbys. Programs outside the server work on the same files: they
    decrypt and encrypt WAL segments on their way to and from an archive, and
    change a provider while the server is down; the versions of pg_rewind,
    pg_checksums and pg_basebackup that come with the extension work on encrypted
    relations and encrypt the WAL that they receive.

    ** Files

    - Prelude: bytes, machine integers, little-endian numbers, slices, lists.
    - Types: the structures of src/src/include and their layout in files.
    - Environ: errors as values, OpenSSL and its laws as classes, the operating
      system as a file system with an oracle for failing calls, the state [World]
      of the process and of shared memory, the state-and-error monad [M] in which
      the C functions are written, and what holds of every run ([always]).
    - Instances: concrete OpenSSL, kernel and server for the examples.
    - Ciphers: encryption/enc_aes.c and encryption/cipher_provider.c.
    - TempFile: open_pg_tde_tempfile.c.
    - EncTde: encryption/enc_tde.c (keys, page encryption, the stream cipher).
    - KeyringOptions, KeyringOptionsThms: catalog/tde_keyring_parse_opts.c.
    - Guc: the settings of open_pg_tde_guc.c that choose ciphers.
    - KeyFile: the functions that open_pg_tde_tdemap.c and
      open_pg_tde_xlog_keys.c both contain, for a kind of key file.
    - KeyMap, KeyMapSpec: access/open_pg_tde_tdemap.c and the finite map from
      relations to keys that a file stands for ([db_rep]).
    - KeyMigration: the migration of old versions, same source.
    - WalKeys, WalKeysSpec, WalKeysThms: access/open_pg_tde_xlog_keys.c and the
      list of ranges that the file stands for ([wal_rep]).
    - XLogSmgr, XLogSmgrSpec, XLogSmgrThms: access/open_pg_tde_xlog_smgr.c and
      the encryption of each WAL byte with the range of its location.
    - ArchiveTools, ArchiveThms: bin/open_pg_tde_archive_decrypt.c,
      bin/open_pg_tde_restore_encrypt.c and the header they share.
    - Keyring, KeyringThms: keyring/keyring_api.c and keyring/keyring_file.c.
    - OpenBao, OpenBaoThms: keyring/keyring_openbao.c and keyring_curl.c.
    - Kmip, KmipThms: keyring/keyring_kmip.c and keyring_kmip_impl.c.
    - KeyProviders, ProviderSpec: catalog/tde_keyring.c, the file of providers,
      and the list of records it stands for ([providers_rep]).
    - ChangeProvider, ChangeProviderThms: bin/open_pg_tde_change_key_provider.c.
    - Network: both network providers as an instance of [NetworkKeyrings].
    - PrincipalKey, PrincipalKeyThms: catalog/tde_principal_key.c.
    - Startup: open_pg_tde.c.
    - ProviderSql, ProviderThms: the SQL functions of catalog/tde_keyring.c and
      the abstract catalogue they implement ([catalog_step]).
    - EventCapture, EventCaptureThms: open_pg_tde_event_capture.c.
    - Smgr, SmgrSpec, SmgrThms: smgr/open_pg_tde_smgr.c.
    - XLogRedo, XLogRedoThms: access/open_pg_tde_xlog.c.
    - FileMap, FileMapThms: datapagemap.c and filemap.c of pg_rewind (all under
      fetools/pg18): the changed pages, the files and what to do with them.
    - Rewind, RewindThms, RewindWalThms, RewindPlanThms: tde_ops.c,
      local_source.c, file_ops.c and the execution of the plan in pg_rewind.c; one
      relation, WAL segments, whole plans.
    - LibpqSource, LibpqSourceThms: libpq_source.c, a running server as the source.
    - Checksums, ChecksumsThms: pg_checksums.c.
    - ReceiveWal, ReceiveWalThms: receivelog.c and the directory method of
      walmethods.c of pg_basebackup.
    - AStreamer, AStreamerThms: astreamer_inject.c of pg_basebackup.

    A definition has the name of the C function or type it translates. A loop is
    a [Fixpoint] with a name of its own. Function pointers are a closed set of
    names with an interpreter.

    ** Interfaces

    Code that is not under src/ is a class, what the extension relies on is a
    second class with the documented laws, and both have instances: [OpenSSL] and
    [OpenSSLSpec], [Kernel] and [NoFaults] (system calls), [PgPort] (string
    functions), [JsonApi] and [JsonApiSpec], [Md] and [MdSpec] (md.c),
    [Catalog] (the server's catalogues and commands), [Server] (the databases,
    mlock), [Curl], [TlsApi], [KmipApi] and [Base64] (the libraries of the network
    providers; what a service answers depends on all requests before), [ToolEnv]
    and [ChangeEnv] (the commands and the control file that the programs use),
    [JsonPlain] (what the parser makes of a flat object of plain strings),
    [RelPath] (the paths of relations), [PageFormat] and [PageFormatSpec] (headers
    and checksums of pages), [RewindEnv] and [RecvEnv] (options and connections).
    [SourceServer] and [TruthfulServer] are the server that is the source of a
    rewind. [RewindSource] is the interface of pg_rewind to the source, which local
    files and a server implement ([local_source], [libpq_source]). Between
    components there are three interfaces: [PrincipalKeys], which the key files use
    and PrincipalKey implements ([backend_keys_spec]); [Providers], which
    PrincipalKey uses and ProviderSql implements; and [NetworkKeyrings] with its
    laws [NetworkKeyringsSpec], which the keyring and the catalogue of providers
    use and Network implements.

    ** What the theorems show

    - Key files. Any sequence of saving and freeing keys implements a finite map;
      what was saved is found; counting, rotation of the principal key and
      migration of old versions keep every key; a rotation that fails, whatever
      system call failed, leaves the file as it was or, if only the sync after the
      replacement failed, as a successful one does; after any number of failures
      before the replacement the next attempt in a working system succeeds.
    - WAL. The range file implements a list of ranges; readers get them as a chain
      in which each range ends where the next one starts; encrypting a buffer
      combines every byte with the key stream of the range of its location,
      whatever the borders are; what one process writes another one reads back.
    - Ciphers. The batched stream cipher computes its position-wise reference, in
      place or not, within the bounds of its 32-bit arithmetic; the cache of
      OpenSSL contexts cannot be observed.
    - Principal keys. Setting a key re-encrypts the keys of relations and loses
      none; a key from a provider is only accepted if it matches the signature in
      the key file; the default key is adopted; keys are not deleted while in use.
    - Providers. The SQL functions implement a catalogue of records; ids are never
      used twice; providers in use are not deleted, and a provider is only changed
      to one that delivers the keys in use; parsing options is assigning fields.
    - Commands and pages. Every CREATE TABLE gets the mode its access method asks
      for; nested commands restore the mode, in subtransactions too as long as no
      command runs in one of them inside another command; the tables it encrypts have only
      encrypted pages on disk; pages are read back, also asynchronously; what a
      process remembers about relations stays right.
    - Replay. A standby's catalogue of providers equals the primary's as long as no
      system call fails, and exactly the relations with a key on the primary have
      one on the standby.
    - Start. A migration that succeeded is not repeated.
    - Network providers. Every request of OpenBao goes to the configured server,
      with the configured authority, without following redirects, and only the
      request that stores a key contains it; every KMIP operation runs in a session
      whose server was verified; a key that was stored is what is fetched; the
      parsers of the answers find the fields they look for wherever they are.
    - Programs. What was archived is restored as it was, byte by byte with the key
      of the range it is in; no decrypted copy stays behind; changing a provider
      writes exactly its record, and only while the cluster is down.
    - pg_rewind. Exactly the changed pages that both clusters have are recorded,
      once each and in order; actions come in an order in which directories exist
      as long as their contents do; after a rewind with local files, over a whole
      plan, each encrypted relation of one segment has, under the keys that the
      target ends up with, the pages of the source where they were fetched and its
      own everywhere else, and the other files are copied, removed or left as
      planned; for a plan of one relation file the queue of requests to a server
      gives the same; a WAL segment that is kept reads with the keys of the source
      as it did with its own.
    - pg_checksums. After checksums were enabled every page of the relations, as
      it is read through its key, is new or has its checksum and is else unchanged.
    - pg_basebackup. WAL that was received in messages within segments is read
      back, byte by byte, with the keys the program made; the two edits of the
      archive are a function on its files and keep the sizes of members right.

    Theorems about errors show the state after them. Some show behaviour that is
    probably not intended: [rotation_read_error_loses_keys],
    [invalidated_range_blocks_rotation], [stream_crypt_wraps],
    [stale_event_executed], [subtransaction_loses_mode],
    [verify_overlooks_default_key],
    [provider_names_case_confused], [server_key_delete_not_replayed],
    [replayed_delete_keeps_cached_key], [kmip_names_confused],
    [kmip_outage_hides_keys], [changed_to_kmip_needs_ca],
    [second_segment_garbled], [crossing_message_garbled].

    ** Fuel and bounds

    Loops over a file take the size of the file plus one as fuel: each round reads
    at least one byte or ends, so the fuel is enough, which the lemmas about the
    loops show ([fuel_enough], [file_fuel_ok], ...); the functions are proved to
    return, not only to be right if they do. The recursion over inheritance takes
    the number of relations. Machine integers are [Z] with the wrap-around written
    out ([u32], [i32], [u64], [i64]) where the code does not exclude it.

    ** Conventions

    The model is the production build of the backend for PostgreSQL 18 on a 64-bit
    little-endian machine (the scalar callbacks of version 16 are included).
    Padding is zero. Uninitialised memory is an arbitrary byte string ([uninit]).
    A file descriptor is the path of its file. Renaming and unlinking of files can
    fail before or after they take effect. OpenSSL accepts every key of the right
    length; that it refuses XTS keys with equal halves is left out. Reading through a NULL pointer and
    acquiring a lock twice are errors of level PANIC.

    ** Not modelled

    - bin/open_pg_tde_upgrade.c, the messages and signal handlers of the other
      programs, the error texts of open_pg_tde_fe.c, and the branches of the
      shared sources for frontend programs.
    - Of src/fetools: pg_waldump, pg_resetwal, pg_createsubscriber,
      pg_receivewal and pg_recvlogical, which are PostgreSQL's own apart from the
      way they read WAL; the reading of WAL (xlogreader.c, parsexlog.c) and its
      descriptions; of pg_rewind the set-up of a connection and the listing of
      files over it, time lines, backup label and control file; of pg_basebackup the protocol, compression and the
      tar method; options, progress and messages of all of them; the copies for
      the versions 16 and 17. Directories and links have no contents in the model
      of pg_rewind.
    - Registration of callbacks and settings, the sizes of shared memory, debug
      output, freeing of memory, heavy-weight locks. Processes interleave only
      between the functions modelled, which hold their locks while they run.

    The order in which the parts were modelled is the order of the list above. *)
From Stdlib Require Export ZArith Lia.
From Stdlib Require Import Strings.Byte.
Export Init.Byte.
From stdpp Require Export base numbers list gmap strings pretty.

Declare Scope tde_scope.
Delimit Scope tde_scope with tde.
Open Scope Z_scope.

(** ** Bytes *)

#[export] Instance byte_eq_dec : EqDecision byte := Byte.byte_eq_dec.

Abbreviation bytes := (list byte).

Definition b2z (b : byte) : Z := Z.of_N (Byte.to_N b).

(** Conversion of an integer to [unsigned char]: the value modulo 256. *)
Definition z2b (z : Z) : byte :=
  default x00 (Byte.of_N (Z.to_N (z mod 256))).

Definition byte_xor (a b : byte) : byte := z2b (Z.lxor (b2z a) (b2z b)).

(** C's [memset (p, 0, n)] on a byte buffer. *)
Definition zeros (n : nat) : bytes := replicate n x00.

Lemma b2z_range b : 0 <= b2z b < 256.
Proof.
  unfold b2z. pose proof (Byte.to_N_bounded b). lia.
Qed.

Lemma z2b_b2z b : z2b (b2z b) = b.
Proof.
  unfold z2b. rewrite Z.mod_small by apply b2z_range.
  unfold b2z. by rewrite N2Z.id, Byte.of_to_N.
Qed.

Lemma b2z_z2b z : b2z (z2b z) = z mod 256.
Proof.
  unfold z2b, b2z. pose proof (Z.mod_pos_bound z 256).
  destruct (Byte.of_N _) as [b|] eqn:E; simpl.
  - apply Byte.to_of_N in E. rewrite E. lia.
  - apply Byte.of_N_None_iff in E. lia.
Qed.

Lemma b2z_inj a b : b2z a = b2z b → a = b.
Proof. intros E. by rewrite <-(z2b_b2z a), E, z2b_b2z. Qed.

Lemma z2b_mod z : z2b (z mod 256) = z2b z.
Proof. apply b2z_inj. by rewrite !b2z_z2b, Z.mod_mod by lia. Qed.

Lemma b2z_zero_iff b : b2z b = 0 ↔ b = x00.
Proof. split; [|by intros ->]. intros E. by apply b2z_inj. Qed.

Lemma b2z_xor a b : b2z (byte_xor a b) = Z.lxor (b2z a) (b2z b).
Proof.
  unfold byte_xor. rewrite b2z_z2b. apply Z.mod_small.
  pose proof (b2z_range a). pose proof (b2z_range b).
  assert (0 <= Z.lxor (b2z a) (b2z b)) by (apply Z.lxor_nonneg; lia).
  split; [done|].
  destruct (decide (Z.lxor (b2z a) (b2z b) = 0)) as [->|]; [lia|].
  apply (Z.log2_lt_pow2 _ 8); [lia|].
  eapply Z.le_lt_trans; [apply Z.log2_lxor; lia|].
  apply Z.max_lub_lt.
  - destruct (decide (b2z a = 0)) as [->|]; [done|].
    apply (Z.log2_lt_pow2 _ 8); lia.
  - destruct (decide (b2z b = 0)) as [->|]; [done|].
    apply (Z.log2_lt_pow2 _ 8); lia.
Qed.

Lemma byte_xor_involutive a b : byte_xor (byte_xor a b) b = a.
Proof.
  apply b2z_inj. rewrite !b2z_xor, Z.lxor_assoc, Z.lxor_nilpotent.
  apply Z.lxor_0_r.
Qed.

Lemma byte_xor_0_r a : byte_xor a x00 = a.
Proof. apply b2z_inj. rewrite b2z_xor. apply Z.lxor_0_r. Qed.

Lemma byte_xor_0_l a : byte_xor x00 a = a.
Proof. apply b2z_inj. rewrite b2z_xor. apply Z.lxor_0_l. Qed.

Lemma byte_xor_comm a b : byte_xor a b = byte_xor b a.
Proof. apply b2z_inj. rewrite !b2z_xor. apply Z.lxor_comm. Qed.

Lemma byte_xor_inj_r a b c : byte_xor a c = byte_xor b c → a = b.
Proof.
  intros E. by rewrite <-(byte_xor_involutive a c), E, byte_xor_involutive.
Qed.

(** Pointwise exclusive or of two byte strings of the same length. *)
Definition bytes_xor : bytes → bytes → bytes := zip_with byte_xor.

Lemma bytes_xor_involutive (a k : bytes) :
  (length a ≤ length k)%nat → bytes_xor (bytes_xor a k) k = a.
Proof.
  revert k. induction a as [|x a IH]; intros [|y k] Hl; simpl in *; try lia; [done..|].
  f_equal; [apply byte_xor_involutive|apply IH; lia].
Qed.

Lemma bytes_xor_length (a k : bytes) :
  length (bytes_xor a k) = min (length a) (length k).
Proof. apply length_zip_with. Qed.

Lemma bytes_xor_comm (a k : bytes) : bytes_xor a k = bytes_xor k a.
Proof.
  unfold bytes_xor. revert k. induction a as [|x a IH]; intros [|y k]; simpl; [done..|].
  by rewrite byte_xor_comm, IH.
Qed.

Lemma bytes_xor_app (a1 a2 k1 k2 : bytes) :
  length a1 = length k1 →
  bytes_xor (a1 ++ a2) (k1 ++ k2) = bytes_xor a1 k1 ++ bytes_xor a2 k2.
Proof. intros H. by apply zip_with_app. Qed.

Lemma bytes_xor_inj (a b k : bytes) :
  length a = length k → length b = length k →
  bytes_xor a k = bytes_xor b k → a = b.
Proof.
  intros Ha Hb E.
  rewrite <-(bytes_xor_involutive a k), E, bytes_xor_involutive by lia. done.
Qed.

Lemma byte_xor_comm3 a b c : byte_xor (byte_xor a b) c = byte_xor (byte_xor b c) a.
Proof. apply b2z_inj. rewrite !b2z_xor. rewrite Z.lxor_assoc, Z.lxor_comm. done. Qed.

(** ** Machine integers *)

Definition u8 (z : Z) : Z := z mod 2 ^ 8.
Definition u32 (z : Z) : Z := z mod 2 ^ 32.
Definition u64 (z : Z) : Z := z mod 2 ^ 64.
Definition u128 (z : Z) : Z := z mod 2 ^ 128.
(** Conversion to the signed 32-bit and 64-bit types (two's complement). *)
Definition i32 (z : Z) : Z := (z + 2 ^ 31) mod 2 ^ 32 - 2 ^ 31.
Definition i64 (z : Z) : Z := (z + 2 ^ 63) mod 2 ^ 64 - 2 ^ 63.

Definition is_u32 (z : Z) : Prop := 0 <= z < 2 ^ 32.
Definition is_u64 (z : Z) : Prop := 0 <= z < 2 ^ 64.

Lemma u32_small z : is_u32 z → u32 z = z.
Proof. intros. by apply Z.mod_small. Qed.

Lemma u64_small z : is_u64 z → u64 z = z.
Proof. intros. by apply Z.mod_small. Qed.

Lemma u32_range z : is_u32 (u32 z).
Proof. by apply Z.mod_pos_bound. Qed.

Lemma u64_range z : is_u64 (u64 z).
Proof. by apply Z.mod_pos_bound. Qed.

Lemma i32_small z : - 2 ^ 31 <= z < 2 ^ 31 → i32 z = z.
Proof. intros. unfold i32. rewrite Z.mod_small; lia. Qed.

Lemma i64_small z : - 2 ^ 63 <= z < 2 ^ 63 → i64 z = z.
Proof. intros. unfold i64. rewrite Z.mod_small; lia. Qed.

Lemma i64_range z : - 2 ^ 63 <= i64 z < 2 ^ 63.
Proof. unfold i64. pose proof (Z.mod_pos_bound (z + 2 ^ 63) (2 ^ 64)). lia. Qed.

(** ** Little-endian integers, the byte order of the machine *)

Fixpoint le_enc (n : nat) (z : Z) : bytes :=
  match n with
  | O => []
  | S n => z2b z :: le_enc n (z / 256)
  end.

Fixpoint le_dec (bs : bytes) : Z :=
  match bs with
  | [] => 0
  | b :: bs => b2z b + 256 * le_dec bs
  end.

Lemma le_enc_length n z : length (le_enc n z) = n.
Proof. revert z. induction n as [|n IH]; intros z; simpl; [done|by rewrite IH]. Qed.

Lemma le_dec_range bs : 0 <= le_dec bs < 256 ^ Z.of_nat (length bs).
Proof.
  induction bs as [|b bs IH]; simpl le_dec; [done|].
  pose proof (b2z_range b). rewrite length_cons, Nat2Z.inj_succ, Z.pow_succ_r by lia. nia.
Qed.

Lemma le_dec_enc n z : le_dec (le_enc n z) = z mod 256 ^ Z.of_nat n.
Proof.
  revert z. induction n as [|n IH]; intros z; [by rewrite Z.mod_1_r|].
  simpl le_enc. simpl le_dec. rewrite IH, b2z_z2b, Nat2Z.inj_succ, Z.pow_succ_r by lia.
  rewrite Z.rem_mul_r by lia. lia.
Qed.

Lemma le_enc_dec n bs : length bs = n → le_enc n (le_dec bs) = bs.
Proof.
  intros <-. induction bs as [|b bs IH]; [done|]. simpl le_enc. simpl le_dec.
  pose proof (b2z_range b). f_equal.
  - rewrite <-(z2b_b2z b) at 2. rewrite <-z2b_mod. f_equal.
    rewrite (Z.mul_comm 256), Z.mod_add, Z.mod_small; lia.
  - rewrite (Z.mul_comm 256), Z.div_add, Z.div_small, Z.add_0_l by lia. done.
Qed.

Lemma le_dec_enc_small n z : 0 <= z < 256 ^ Z.of_nat n → le_dec (le_enc n z) = z.
Proof. intros. by rewrite le_dec_enc, Z.mod_small. Qed.

Lemma le_dec_inj bs1 bs2 :
  length bs1 = length bs2 → le_dec bs1 = le_dec bs2 → bs1 = bs2.
Proof.
  intros Hl E. rewrite <-(le_enc_dec _ bs1 eq_refl), E, Hl. by apply le_enc_dec.
Qed.

Lemma le_enc_mod n z : le_enc n (z mod 256 ^ Z.of_nat n) = le_enc n z.
Proof.
  apply le_dec_inj; [by rewrite !le_enc_length|].
  rewrite !le_dec_enc, Z.mod_mod; [done|].
  apply Z.pow_nonzero; lia.
Qed.

Lemma le_enc_inj n z1 z2 :
  0 <= z1 < 256 ^ Z.of_nat n → 0 <= z2 < 256 ^ Z.of_nat n →
  le_enc n z1 = le_enc n z2 → z1 = z2.
Proof.
  intros H1 H2 E. rewrite <-(le_dec_enc_small n z1), E by done.
  by apply le_dec_enc_small.
Qed.

Lemma le_dec_app a b :
  le_dec (a ++ b) = le_dec a + 256 ^ Z.of_nat (length a) * le_dec b.
Proof.
  induction a as [|x a IH]; [simpl; lia|].
  simpl app. simpl le_dec. rewrite IH, length_cons, Nat2Z.inj_succ, Z.pow_succ_r by lia. lia.
Qed.

Lemma le_dec_zeros n : le_dec (zeros n) = 0.
Proof. induction n as [|n IH]; [done|]. unfold zeros in *. simpl. by rewrite IH. Qed.

Definition enc_u32 (z : Z) : bytes := le_enc 4 z.
Definition enc_u64 (z : Z) : bytes := le_enc 8 z.

Lemma enc_u32_length z : length (enc_u32 z) = 4%nat.
Proof. apply le_enc_length. Qed.
Lemma enc_u64_length z : length (enc_u64 z) = 8%nat.
Proof. apply le_enc_length. Qed.
Lemma dec_enc_u32 z : is_u32 z → le_dec (enc_u32 z) = z.
Proof. intros. by apply le_dec_enc_small. Qed.
Lemma dec_enc_u64 z : is_u64 z → le_dec (enc_u64 z) = z.
Proof. intros. by apply le_dec_enc_small. Qed.
Lemma dec_u32_range bs : (length bs ≤ 4)%nat → is_u32 (le_dec bs).
Proof.
  intros Hl. pose proof (le_dec_range bs).
  assert (256 ^ Z.of_nat (length bs) <= 256 ^ 4) by (apply Z.pow_le_mono_r; lia).
  unfold is_u32. change (2 ^ 32) with (256 ^ 4). lia.
Qed.
Lemma dec_u64_range bs : (length bs ≤ 8)%nat → is_u64 (le_dec bs).
Proof.
  intros Hl. pose proof (le_dec_range bs).
  assert (256 ^ Z.of_nat (length bs) <= 256 ^ 8) by (apply Z.pow_le_mono_r; lia).
  unfold is_u64. change (2 ^ 64) with (256 ^ 8). lia.
Qed.

(** ** Buffers: reading and overwriting parts of a byte string *)

Section buffers.
Context {A : Type}.
Implicit Types l a b c : list A.

(** The [len] elements of [l] from position [off] on (fewer at the end). *)
Definition slice (off len : nat) l : list A := take len (drop off l).

Lemma slice_length off len l :
  length (slice off len l) = min len (length l - off).
Proof. unfold slice. by rewrite length_take, length_drop. Qed.

Lemma slice_length_eq off len l :
  (off + len ≤ length l)%nat → length (slice off len l) = len.
Proof. rewrite slice_length. lia. Qed.

Lemma slice_app_l off len a b :
  (off + len ≤ length a)%nat → slice off len (a ++ b) = slice off len a.
Proof.
  intros H. unfold slice. rewrite drop_app_le by lia.
  rewrite take_app_le; [done|]. rewrite length_drop. lia.
Qed.

Lemma slice_app_r off len a b :
  (length a ≤ off)%nat → slice off len (a ++ b) = slice (off - length a) len b.
Proof. intros H. unfold slice. by rewrite drop_app_ge by lia. Qed.

Lemma slice_here len a b : length a = len → slice 0 len (a ++ b) = a.
Proof. intros <-. unfold slice. rewrite drop_0. apply take_app_length. Qed.

Lemma slice_all len a : length a = len → slice 0 len a = a.
Proof. intros <-. unfold slice. rewrite drop_0. by apply take_ge. Qed.

Lemma slice_slice o1 n1 o2 n2 l :
  (o2 + n2 ≤ n1)%nat → slice o2 n2 (slice o1 n1 l) = slice (o1 + o2) n2 l.
Proof.
  intros H. unfold slice. rewrite take_drop_commute, take_take, Nat.min_l by lia.
  by rewrite <-take_drop_commute, drop_drop.
Qed.

Lemma slice_lookup off len l i :
  (i < len)%nat → slice off len l !! i = l !! (off + i)%nat.
Proof. intros H. unfold slice. by rewrite lookup_take_lt, lookup_drop. Qed.

Lemma slice_split off n m l :
  slice off (n + m) l = slice off n l ++ slice (off + n) m l.
Proof.
  unfold slice. rewrite <-drop_drop. symmetry.
  rewrite <-(take_drop n (take (n + m) (drop off l))).
  rewrite take_take, Nat.min_l by lia. by rewrite (take_drop_commute (drop off l) m n).
Qed.

Lemma slice_past off len l : (length l ≤ off)%nat → slice off len l = [].
Proof. intros H. unfold slice. by rewrite drop_ge, take_nil. Qed.

(** Overwriting [length d] elements of [l] at [off]; a gap after the end of
    [l] is filled with [z]. This is the effect of [pwrite] on a file. *)
Definition overwrite (z : A) (off : nat) (d l : list A) : list A :=
  take off (l ++ replicate (off - length l) z) ++ d ++ drop (off + length d) l.

Lemma overwrite_length z off d l :
  length (overwrite z off d l) = max (length l) (off + length d).
Proof.
  unfold overwrite.
  rewrite !length_app, length_take, length_drop, length_app, length_replicate. lia.
Qed.

Lemma overwrite_prefix_length z off l :
  length (take off (l ++ replicate (off - length l) z)) = off.
Proof. rewrite length_take, length_app, length_replicate. lia. Qed.

Lemma overwrite_middle z a m c d :
  length m = length d → overwrite z (length a) d (a ++ m ++ c) = a ++ d ++ c.
Proof.
  intros H. unfold overwrite.
  replace (length a - _)%nat with 0%nat by (rewrite length_app; lia).
  rewrite app_nil_r, take_app_length. f_equal. f_equal.
  rewrite app_assoc. rewrite drop_app_length'; [done|]. rewrite length_app. lia.
Qed.

Lemma overwrite_end z a t d :
  (length t ≤ length d)%nat → overwrite z (length a) d (a ++ t) = a ++ d.
Proof.
  intros H. unfold overwrite.
  replace (length a - _)%nat with 0%nat by (rewrite length_app; lia).
  rewrite app_nil_r, take_app_length. f_equal.
  rewrite drop_ge; [by rewrite app_nil_r|]. rewrite length_app. lia.
Qed.

Lemma overwrite_app z a t d :
  overwrite z (length a) d (a ++ t) = a ++ d ++ drop (length d) t.
Proof.
  unfold overwrite. f_equal; [|f_equal].
  - rewrite <-app_assoc. by apply take_app_length'.
  - rewrite <-drop_drop. f_equal. by apply drop_app_length'.
Qed.

(** Two writes next to each other. *)
Lemma overwrite_next z o c d l :
  overwrite z (o + length c) d (overwrite z o c l) = overwrite z o (c ++ d) l.
Proof.
  unfold overwrite at 2. rewrite app_assoc.
  rewrite <-(overwrite_prefix_length z o l) at 1. rewrite <-length_app, overwrite_app.
  unfold overwrite. rewrite <-!app_assoc. do 3 f_equal. rewrite drop_drop, length_app. f_equal. lia.
Qed.

Lemma overwrite_take z n o d l :
  (o + length d ≤ n)%nat → (n ≤ length l)%nat → take n (overwrite z o d l) = overwrite z o d (take n l).
Proof.
  intros H1 H2. unfold overwrite.
  rewrite (take_app_le l), (take_app_le (take n l)) by (rewrite ?length_take; lia).
  rewrite take_take, Nat.min_l by lia. rewrite !app_assoc, take_app. f_equal.
  - rewrite take_ge; [done|]. rewrite length_app, length_take. lia.
  - rewrite length_app, length_take. rewrite take_drop_commute. f_equal. f_equal. lia.
Qed.

Lemma slice_overwrite_same z off d l :
  slice off (length d) (overwrite z off d l) = d.
Proof.
  unfold overwrite. rewrite slice_app_r; rewrite overwrite_prefix_length; [|lia].
  rewrite Nat.sub_diag. by apply slice_here.
Qed.

Lemma slice_overwrite_before z off d l o n :
  (o + n ≤ off)%nat → (o + n ≤ length l)%nat →
  slice o n (overwrite z off d l) = slice o n l.
Proof.
  intros H1 H2. unfold overwrite.
  rewrite slice_app_l by (rewrite overwrite_prefix_length; lia).
  unfold slice. rewrite take_drop_commute, take_take, Nat.min_l by lia.
  rewrite <-take_drop_commute, drop_app_le by lia.
  rewrite take_app_le; [done|]. rewrite length_drop. lia.
Qed.

Lemma slice_overwrite_after z off d l o n :
  (off + length d ≤ o)%nat →
  slice o n (overwrite z off d l) = slice o n l.
Proof.
  intros H. unfold overwrite. rewrite app_assoc.
  rewrite slice_app_r; rewrite length_app, overwrite_prefix_length; [|lia].
  unfold slice. rewrite drop_drop. f_equal. f_equal. lia.
Qed.

(** *** Look-up after an update *)

Lemma lookup_insert_iff l i x j y :
  (i < length l)%nat →
  <[i:=x]> l !! j = Some y ↔ (j = i ∧ y = x) ∨ (j ≠ i ∧ l !! j = Some y).
Proof.
  intros H. destruct (decide (j = i)) as [->|].
  - rewrite list_lookup_insert_eq by done. split; [intros [= ->]; by left|by intros [[_ ->]|[? _]]].
  - rewrite list_lookup_insert_ne by done. split; [by right|by intros [[? _]|[_ ?]]].
Qed.

Lemma lookup_snoc_iff l x j y :
  (l ++ [x]) !! j = Some y ↔ (j = length l ∧ y = x) ∨ (j ≠ length l ∧ l !! j = Some y).
Proof.
  rewrite lookup_snoc_Some. split.
  - intros [[? ?]|[-> ->]]; [right; split; [lia|done]|by left].
  - intros [[-> ->]|[_ Hj]]; [by right|left]. split; [by eapply lookup_lt_Some|done].
Qed.

(** *** Fixed-size records *)

Fixpoint chunks_n (n sz : nat) l : list (list A) :=
  match n with
  | O => []
  | S n => take sz l :: chunks_n n sz (drop sz l)
  end.

(** The complete [sz]-element records at the beginning of [l]. *)
Definition chunks (sz : nat) l : list (list A) := chunks_n (length l / sz) sz l.

Lemma chunks_n_length n sz l : length (chunks_n n sz l) = n.
Proof. revert l. induction n as [|n IH]; intros l; simpl; [done|by rewrite IH]. Qed.

Lemma chunks_n_concat n sz l :
  (n * sz ≤ length l)%nat → l = concat (chunks_n n sz l) ++ drop (n * sz) l.
Proof.
  revert l. induction n as [|n IH]; intros l H; simpl; [done|].
  rewrite <-app_assoc, <-drop_drop, <-IH by (rewrite length_drop; lia).
  by rewrite take_drop.
Qed.

Lemma chunks_n_sizes n sz l :
  (n * sz ≤ length l)%nat → Forall (λ c, length c = sz) (chunks_n n sz l).
Proof.
  revert l. induction n as [|n IH]; intros l H; simpl; constructor.
  - rewrite length_take. lia.
  - apply IH. rewrite length_drop. lia.
Qed.

Lemma chunks_n_lookup n sz l i :
  (i < n)%nat → chunks_n n sz l !! i = Some (slice (i * sz) sz l).
Proof.
  revert l i. induction n as [|n IH]; intros l i H; [lia|].
  destruct i as [|i]; simpl; [by unfold slice; rewrite drop_0|].
  rewrite IH by lia. unfold slice. rewrite drop_drop. done.
Qed.

Lemma chunks_n_app n sz (cs : list (list A)) t :
  Forall (λ c, length c = sz) cs → n = length cs → chunks_n n sz (concat cs ++ t) = cs.
Proof.
  intros H ->. induction H as [|c cs Hc _ IH]; simpl; [done|].
  rewrite <-app_assoc. rewrite take_app_length', drop_app_length' by done. by rewrite IH.
Qed.

Lemma concat_sizes_length sz (cs : list (list A)) :
  Forall (λ c, length c = sz) cs → length (concat cs) = (length cs * sz)%nat.
Proof. induction 1 as [|c cs Hc _ IH]; simpl; [done|]. rewrite length_app. lia. Qed.

Lemma concat_sizes_lookup sz (cs : list (list A)) i :
  (0 < sz)%nat → Forall (λ c, length c = sz) cs →
  concat cs !! i = c ← cs !! (i / sz)%nat; c !! (i mod sz)%nat.
Proof.
  intros Hsz H. revert i. induction H as [|c cs Hc _ IH]; intros i; simpl; [done|].
  destruct (decide (i < sz)%nat) as [Hi|Hi].
  - rewrite lookup_app_l by lia. by rewrite Nat.div_small, Nat.mod_small by lia.
  - rewrite lookup_app_r by lia. rewrite IH, Hc.
    assert (∃ j, i = j + 1 * sz)%nat as [j ->] by (exists (i - sz)%nat; lia).
    rewrite Nat.div_add, Nat.Div0.mod_add by lia. rewrite Nat.add_1_r. simpl.
    by replace (j + (sz + 0) - sz)%nat with j by lia.
Qed.

Lemma chunks_length sz l : length (chunks sz l) = (length l / sz)%nat.
Proof. apply chunks_n_length. Qed.

Lemma chunks_concat sz l :
  (0 < sz)%nat → l = concat (chunks sz l) ++ drop (length l / sz * sz) l.
Proof.
  intros H. apply chunks_n_concat.
  rewrite Nat.mul_comm. by apply Nat.Div0.mul_div_le.
Qed.

Lemma chunks_sizes sz l : (0 < sz)%nat → Forall (λ c, length c = sz) (chunks sz l).
Proof.
  intros H. apply chunks_n_sizes. rewrite Nat.mul_comm. by apply Nat.Div0.mul_div_le.
Qed.

Lemma chunks_app sz (cs : list (list A)) t :
  Forall (λ c, length c = sz) cs → (length t < sz)%nat → chunks sz (concat cs ++ t) = cs.
Proof.
  intros H Ht. unfold chunks. apply chunks_n_app; [done|].
  rewrite length_app, (concat_sizes_length sz) by done.
  rewrite Nat.add_comm, Nat.div_add, Nat.div_small by lia. lia.
Qed.

Lemma concat_insert sz (cs : list (list A)) i c z h t :
  Forall (λ c, length c = sz) cs → (i < length cs)%nat → length c = sz →
  overwrite z (length h + i * sz) c (h ++ concat cs ++ t) = h ++ concat (<[i:=c]> cs) ++ t.
Proof.
  intros H Hi Hc. destruct (lookup_lt_is_Some_2 cs i Hi) as [c0 Hc0].
  assert (length c0 = sz) by (by eapply (Forall_lookup_1 _ _ _ _ H Hc0)).
  rewrite insert_take_drop by done.
  rewrite <-(take_drop_middle cs i c0 Hc0) at 1. rewrite !concat_app. simpl.
  replace (length h + i * sz)%nat with (length (h ++ concat (take i cs))).
  2:{ rewrite length_app, (concat_sizes_length sz) by (by apply Forall_take).
      rewrite length_take. lia. }
  rewrite <-!app_assoc, (app_assoc h), overwrite_middle by lia. by rewrite <-app_assoc.
Qed.

Lemma concat_snoc sz (cs : list (list A)) c z h t :
  Forall (λ c, length c = sz) cs → length c = sz → (length t ≤ sz)%nat →
  overwrite z (length h + length cs * sz) c (h ++ concat cs ++ t) = h ++ concat (cs ++ [c]).
Proof.
  intros H Hc Ht. rewrite <-(concat_sizes_length sz) by done.
  rewrite <-length_app, app_assoc, overwrite_end by lia.
  rewrite concat_app. simpl. by rewrite app_nil_r, app_assoc.
Qed.

End buffers.

Abbreviation write_at := (overwrite x00).

Lemma slice_join {A} (o n o' m : nat) (l : list A) :
  o' = (o + n)%nat → slice o n l ++ slice o' m l = slice o (n + m) l.
Proof. intros ->. symmetry. apply slice_split. Qed.

Lemma enc_dec_slice (o n : nat) (bs : bytes) :
  (o + n ≤ length bs)%nat → le_enc n (le_dec (slice o n bs)) = slice o n bs.
Proof. intros H. apply le_enc_dec. by apply slice_length_eq. Qed.

(** ** C strings *)

(** The characters of a [char] array up to the terminating zero. *)
Fixpoint cstr (bs : bytes) : bytes :=
  match bs with
  | [] => []
  | b :: bs => if decide (b = x00) then [] else b :: cstr bs
  end.

Definition strlen (bs : bytes) : Z := Z.of_nat (length (cstr bs)).

(** [strcmp (a, b) == 0] *)
Definition strcmp_eq (a b : bytes) : bool := bool_decide (cstr a = cstr b).

(** How the server folds the case of a character; outside of ASCII this
    depends on the locale. *)
Class PgPort := pg_fold : byte → byte.

(** [pg_strcasecmp (a, b) == 0] *)
Definition pg_strcasecmp_eq `{PgPort} (a b : bytes) : bool :=
  bool_decide (pg_fold <$> cstr a = pg_fold <$> cstr b).

(** [pg_strncasecmp (a, b, n) == 0] *)
Definition pg_strncasecmp_eq `{PgPort} (a b : bytes) (n : nat) : bool :=
  bool_decide (pg_fold <$> cstr (take n a) = pg_fold <$> cstr (take n b)).

(** A file name or a string constant as the bytes of a C string, and back. *)
Definition bytes_of (s : string) : bytes := String.list_byte_of_string s.
Definition string_of (bs : bytes) : string := String.string_of_list_byte (cstr bs).

(** A C string as the contents of a [char[n]] that was zeroed before the
    copy ([memset] followed by [memcpy] of [strlen] bytes). *)
Definition char_array (n : nat) (s : bytes) : bytes :=
  take n (cstr s ++ zeros n).

Lemma zeros_length n : length (zeros n) = n.
Proof. apply length_replicate. Qed.

Lemma char_array_length n s : length (char_array n s) = n.
Proof. unfold char_array. rewrite length_take, length_app, zeros_length. lia. Qed.

(** [snprintf ("%s")] *)
Definition fmt_s (s : option bytes) : bytes :=
  match s with
  | Some s => cstr s
  | None => bytes_of "(null)"
  end.

(** What [snprintf (out, size, ...)] leaves in [out], without the final zero. *)
Definition snprintf (size : nat) (s : bytes) : bytes := take (size - 1) s.

Lemma cstr_zeros s n : cstr (cstr s ++ zeros n) = cstr s.
Proof.
  induction s as [|b s IH]; simpl; [by destruct n|].
  case_decide; simpl; [by destruct n|]. by rewrite decide_False, IH.
Qed.

Lemma cstr_cstr s : cstr (cstr s) = cstr s.
Proof. rewrite <-(app_nil_r (cstr s)) at 1. apply (cstr_zeros s 0). Qed.

Lemma cstr_take n s : cstr (take n s) = take n (cstr s).
Proof.
  revert n. induction s as [|b s IH]; intros [|n]; simpl; try done. case_decide; [done|].
  simpl. by rewrite IH.
Qed.

(** A string that fits, with its terminating zero, is read back. *)
Lemma cstr_char_array n s : (length (cstr s) < n)%nat → cstr (char_array n s) = cstr s.
Proof. intros H. unfold char_array. rewrite cstr_take, cstr_zeros. apply take_ge. lia. Qed.

(** ** Automation

    [lens] rewrites lengths of encoded fields, [bytes_simpl] evaluates a
    [slice] that selects one field of a concatenation. *)

Create Rewrite HintDb lens.
#[export] Hint Rewrite enc_u32_length enc_u64_length le_enc_length zeros_length
  char_array_length @length_app @length_replicate : lens.

Ltac len_simpl :=
  repeat first
    [ progress autorewrite with lens
    | match goal with
      | H : length ?x = _ |- context [length ?x] => rewrite H
      end ].

Ltac slice_simpl :=
  repeat match goal with
    | |- context [slice 0 ?n (?a ++ ?b)] =>
        rewrite (slice_here n a b) by (len_simpl; reflexivity)
    | |- context [slice 0 ?n ?a] =>
        rewrite (slice_all n a) by (len_simpl; reflexivity)
    | |- context [slice ?o ?n (?a ++ ?b)] =>
        rewrite (slice_app_r o n a b) by (len_simpl; lia);
        len_simpl; cbn [Nat.sub]
    end.

(** Puts consecutive slices of one byte string back together. *)
Ltac slice_glue :=
  repeat match goal with
    | |- context [slice ?o ?n ?l ++ slice ?o' ?m ?l] =>
        rewrite (slice_join o n o' m l) by reflexivity; cbn [Nat.add]
    end.

(** Splits conjunctions of the context and of the goal. *)
Ltac split_and_all := destruct_and?; split_and?.
