(* ===== verification/Types.v ===== *)
(** Data types of the headers under src/src/include: keys, principal keys,
    WAL locations and ranges, key providers, WAL records, and the layout of
    the structures that are stored in files.

    Structures are Records. An [enum] or integer that is read back from a file
    is kept as [Z], since any value can be found there. Fixed-size arrays are
    byte lists whose length is part of the well-formedness predicate. The
    layouts are those of a 64-bit little-endian machine; padding bytes, whose
    contents C leaves unspecified, are written as zeros and never read. *)
From S2P Require Import Prelude.

(** ** encryption/enc_tde.h *)

Definition KEY_DATA_SIZE_128 : Z := 16.
Definition KEY_DATA_SIZE_256 : Z := 32.
Definition MAX_KEY_DATA_SIZE : Z := KEY_DATA_SIZE_256.
Definition TDE_KEY_NAME_LEN : nat := 256.
Definition INTERNAL_KEY_MAX_LEN : nat := 64.
Definition INTERNAL_KEY_IV_LEN : nat := 16.

(** [CipherType] *)
Definition CIPHER_AES_128 : Z := 0.
Definition CIPHER_AES_256 : Z := 1.
Definition CIPHER_AES_128_XTS : Z := 2.
Definition CIPHER_AES_256_XTS : Z := 3.

Record InternalKey := mkInternalKey {
  ik_key_len : Z;
  ik_cipher : Z;
  ik_base_iv : bytes;
  ik_key : bytes;
}.

#[export] Instance InternalKey_eq_dec : EqDecision InternalKey.
Proof. solve_decision. Defined.

(** The bytes of the key that the cipher uses. *)
Definition ik_key_bytes (k : InternalKey) : bytes := take (Z.to_nat (ik_key_len k)) (ik_key k).

(** ** storage/relfilelocator.h *)

Record RelFileLocator := mkRelFileLocator {
  spcOid : Z;
  dbOid : Z;
  relNumber : Z;
}.

#[export] Instance RelFileLocator_eq_dec : EqDecision RelFileLocator.
Proof. solve_decision. Defined.

Definition RelFileLocator_wf (r : RelFileLocator) : Prop :=
  is_u32 (spcOid r) ∧ is_u32 (dbOid r) ∧ is_u32 (relNumber r).

#[export] Instance RelFileLocator_countable : Countable RelFileLocator.
Proof.
  refine (inj_countable' (λ r, (spcOid r, dbOid r, relNumber r))
            (λ '(s, d, n), mkRelFileLocator s d n) _). by intros [].
Defined.

(** A relation of a process: [rlb_backend] is [INVALID_PROC_NUMBER] unless the
    relation is temporary. *)
Record RelFileLocatorBackend := mkRelFileLocatorBackend {
  rlb_locator : RelFileLocator;
  rlb_backend : Z;
}.

#[export] Instance RelFileLocatorBackend_eq_dec : EqDecision RelFileLocatorBackend.
Proof. solve_decision. Defined.

#[export] Instance RelFileLocatorBackend_countable : Countable RelFileLocatorBackend.
Proof.
  refine (inj_countable' (λ r, (rlb_locator r, rlb_backend r))
            (λ '(l, b), mkRelFileLocatorBackend l b) _). by intros [].
Defined.

Definition INVALID_PROC_NUMBER : Z := -1.

Definition RelFileLocatorBackendIsTemp (r : RelFileLocatorBackend) : bool :=
  negb (rlb_backend r =? INVALID_PROC_NUMBER).

Definition InvalidOid : Z := 0.

(** ** catalog/tde_global_space.h *)

(** [GLOBALTABLESPACE_OID] and [DEFAULTTABLESPACE_OID] of pg_tablespace_d.h. *)
Definition GLOBAL_DATA_TDE_OID : Z := 1664.
Definition DEFAULT_DATA_TDE_OID : Z := 1663.

(** ** open_pg_tde.h *)

Definition OPEN_PG_TDE_DATA_DIR : string := "open_pg_tde".
Definition OPEN_PG_TDE_WAL_KEY_FILE_NAME : string := "wal_keys".
Definition OPEN_PG_TDE_WAL_KEY_FILE_MAGIC : Z := 0x034B4557.
Definition OPEN_PG_TDE_SMGR_FILE_MAGIC : Z := 0x06454454.

Definition FILEMAGIC_VERSION (fm : Z) : Z := Z.shiftr (Z.land fm 0xF000000) 24.
Definition FILEMAGIC_TYPE (fm : Z) : Z := Z.land fm 0x0FFFFFF.

(** ** catalog/tde_principal_key.h *)

Record timeval := mkTimeval { tv_sec : Z; tv_usec : Z }.

Record TDEPrincipalKeyInfo := mkPKInfo {
  pki_databaseId : Z;
  pki_keyringId : Z;
  pki_creationTime : timeval;
  pki_name : bytes;
}.

Record TDEPrincipalKey := mkPrincipalKey {
  pk_keyInfo : TDEPrincipalKeyInfo;
  pk_keyData : bytes;
  pk_keyLength : Z;
}.

Record XLogPrincipalKeyRotate := mkXLogPrincipalKeyRotate {
  xlr_databaseId : Z;
  xlr_keyringId : Z;
  xlr_keyName : bytes;
}.

(** The part of the key buffer that is the key. *)
Definition pk_key_bytes (pk : TDEPrincipalKey) : bytes :=
  take (Z.to_nat (pk_keyLength pk)) (pk_keyData pk).

(** ** access/open_pg_tde_keys_common.h *)

Definition MAP_ENTRY_IV_SIZE : nat := 16.
Definition MAP_ENTRY_AEAD_TAG_SIZE : nat := 16.

Record TDESignedPrincipalKeyInfo := mkSignedPKInfo {
  spki_data : TDEPrincipalKeyInfo;
  spki_sign_iv : bytes;
  spki_aead_tag : bytes;
}.

#[export] Instance timeval_eq_dec : EqDecision timeval.
Proof. solve_decision. Defined.
#[export] Instance TDEPrincipalKeyInfo_eq_dec : EqDecision TDEPrincipalKeyInfo.
Proof. solve_decision. Defined.
#[export] Instance TDEPrincipalKey_eq_dec : EqDecision TDEPrincipalKey.
Proof. solve_decision. Defined.
#[export] Instance TDESignedPrincipalKeyInfo_eq_dec : EqDecision TDESignedPrincipalKeyInfo.
Proof. solve_decision. Defined.

(** ** keyring/keyring_api.h *)

Definition MAX_PROVIDER_NAME_LEN : nat := 128.
Definition MAX_KEYRING_OPTION_LEN : nat := 1024.

(** [ProviderType] *)
Definition UNKNOWN_KEY_PROVIDER : Z := 0.
Definition FILE_KEY_PROVIDER : Z := 1.
Definition KMIP_KEY_PROVIDER : Z := 2.
Definition OPENBAO_KEY_PROVIDER : Z := 3.

Record KeyData := mkKeyData { kd_data : bytes; kd_len : Z }.
Record KeyInfo := mkKeyInfo { ki_name : bytes; ki_data : KeyData }.

Inductive KeyringReturnCode :=
| KEYRING_CODE_SUCCESS
| KEYRING_CODE_INVALID_PROVIDER
| KEYRING_CODE_RESOURCE_NOT_AVAILABLE
| KEYRING_CODE_INVALID_RESPONSE
| KEYRING_CODE_INVALID_KEY
| KEYRING_CODE_DATA_CORRUPTED.

(** [GenericKeyring] is the first field of [FileKeyring], [KmipKeyring] and
    [OpenBaoKeyring], and pointers are cast between them; the fields that follow
    are [kr_specific]. *)
Inductive KeyringSpecific :=
| FileKeyring (file_name : option string)
| KmipKeyring (kmip_host kmip_port kmip_ca_path kmip_cert_path kmip_key_path : option bytes)
| OpenBaoKeyring (openbao_token openbao_token_path openbao_url openbao_ca_path openbao_mount_path
                  openbao_namespace : option bytes).

Record GenericKeyring := mkGenericKeyring {
  kr_type : Z;
  kr_keyring_id : Z;
  kr_provider_name : bytes;
  kr_options : bytes;
  kr_specific : KeyringSpecific;
}.

#[export] Instance KeyringReturnCode_eq_dec : EqDecision KeyringReturnCode.
Proof. solve_decision. Defined.

(** ** Requests to key management services *)

(** Options of a transfer, as [curl_easy_setopt] sets them. *)
Inductive CurlOption :=
| CURLOPT_CAINFO (file : bytes)
| CURLOPT_FOLLOWLOCATION (follow : Z)
| CURLOPT_CONNECTTIMEOUT (seconds : Z)
| CURLOPT_TIMEOUT (seconds : Z)
| CURLOPT_HTTP_VERSION_1_1
| CURLOPT_WRITE_TO_STRING
| CURLOPT_URL (url : bytes)
| CURLOPT_POSTFIELDS (data : bytes)
| CURLOPT_HTTPHEADER (headers : list bytes).

#[export] Instance CurlOption_eq_dec : EqDecision CurlOption.
Proof. solve_decision. Defined.

(** A TLS connection as it was set up: what is asked of the certificate of the
    server, and which certificate and key the client uses. *)
Inductive PeerName := PeerIp (host : option bytes) | PeerHost (host : option bytes).

Record SslConnection := mkSslConnection {
  ssl_min_proto_1_2 : bool;
  ssl_verify_peer : bool;
  ssl_cert_file : option bytes;
  ssl_key_file : option bytes;
  ssl_ca_file : option bytes;
  ssl_peer_name : PeerName;
  ssl_host : option bytes;
  ssl_port : option bytes;
}.

(** Attributes of the objects of a KMIP server, as libkmip's [Attribute]. *)
Inductive KmipAttribute :=
| KMIP_ATTR_CRYPTOGRAPHIC_ALGORITHM_AES
| KMIP_ATTR_CRYPTOGRAPHIC_LENGTH (bits : Z)
| KMIP_ATTR_CRYPTOGRAPHIC_USAGE_ENCRYPT_DECRYPT
| KMIP_ATTR_NAME (name : bytes)
| KMIP_ATTR_OBJECT_TYPE_SYMMETRIC_KEY.

Inductive KmipOperation :=
| KmipRegister (attributes : list KmipAttribute) (key : bytes)
| KmipLocate (attributes : list KmipAttribute) (maximum_items offset : Z)
| KmipGet (id : bytes).

#[export] Instance PeerName_eq_dec : EqDecision PeerName.
Proof. solve_decision. Defined.
#[export] Instance SslConnection_eq_dec : EqDecision SslConnection.
Proof. solve_decision. Defined.
#[export] Instance KmipAttribute_eq_dec : EqDecision KmipAttribute.
Proof. solve_decision. Defined.
#[export] Instance KmipOperation_eq_dec : EqDecision KmipOperation.
Proof. solve_decision. Defined.

(** A transfer with its options, the opening of a connection, or an operation
    on one. *)
Inductive NetRequest :=
| HttpTransfer (options : list CurlOption)
| SslConnect (conn : SslConnection)
| KmipCall (conn : SslConnection) (op : KmipOperation).

#[export] Instance NetRequest_eq_dec : EqDecision NetRequest.
Proof. solve_decision. Defined.

(** ** catalog/tde_keyring.h *)

Record KeyringProviderRecord := mkProviderRecord {
  kpr_provider_id : Z;
  kpr_provider_name : bytes;
  kpr_options : bytes;
  kpr_provider_type : Z;
}.

Record KeyringProviderRecordInFile := mkProviderRecordInFile {
  kprf_database_id : Z;
  kprf_offset_in_file : Z;
  kprf_provider : KeyringProviderRecord;
}.

(** ** access/open_pg_tde_xlog_keys.h *)

Definition InvalidXLogRecPtr : Z := 0.
Definition MaxXLogRecPtr : Z := 2 ^ 64 - 1.
Definition MaxTimeLineID : Z := 2 ^ 32 - 1.

(** [WalEncryptionRangeType] *)
Definition WAL_ENCRYPTION_RANGE_INVALID : Z := 0.
Definition WAL_ENCRYPTION_RANGE_UNENCRYPTED : Z := 1.
Definition WAL_ENCRYPTION_RANGE_ENCRYPTED : Z := 2.

Record WalLocation := mkWalLocation { wl_lsn : Z; wl_tli : Z }.

#[export] Instance WalLocation_eq_dec : EqDecision WalLocation.
Proof. solve_decision. Defined.

Definition wal_location_cmp (l1 l2 : WalLocation) : Z :=
  if wl_tli l1 <? wl_tli l2 then -1
  else if wl_tli l2 <? wl_tli l1 then 1
  else if wl_lsn l1 <? wl_lsn l2 then -1
  else if wl_lsn l2 <? wl_lsn l1 then 1
  else 0.

Definition wal_location_valid (loc : WalLocation) : bool :=
  negb (wl_tli loc =? 0) && negb (wl_lsn loc =? InvalidXLogRecPtr).

Record WalEncryptionRange := mkWalRange {
  wr_type : Z;
  wr_key : InternalKey;
  wr_start : WalLocation;
  wr_end : WalLocation;
}.

(** ** access/open_pg_tde_xlog.h: the records the extension writes to the WAL *)

Inductive XLogRecord :=
| XLOG_TDE_CREATE_RELATION_KEY (rlocator : RelFileLocator)
| XLOG_TDE_ADD_PRINCIPAL_KEY (info : TDESignedPrincipalKeyInfo)
| XLOG_TDE_ROTATE_PRINCIPAL_KEY (rec : XLogPrincipalKeyRotate)
| XLOG_TDE_WRITE_KEY_PROVIDER (rec : KeyringProviderRecordInFile)
| XLOG_TDE_INSTALL_EXTENSION (database_id : Z)
| XLOG_TDE_DELETE_RELATION_KEY (rlocator : RelFileLocator)
| XLOG_TDE_DELETE_PRINCIPAL_KEY (dbOid : Z).

(** ** smgr/open_pg_tde_smgr.c *)

Inductive TDEMgrRelationEncryptionStatus :=
| RELATION_NOT_ENCRYPTED
| RELATION_ENCRYPTED
| RELATION_ENCRYPTION_UNKNOWN.

#[export] Instance TDEMgrRelationEncryptionStatus_eq_dec : EqDecision TDEMgrRelationEncryptionStatus.
Proof. solve_decision. Defined.

(** The fields of [TDESMgrRelation] that md.c does not know. *)
Record TDESMgrRelation := mkTDESMgrRelation {
  encryption_status : TDEMgrRelationEncryptionStatus;
  relKey : InternalKey;
}.

(** ** open_pg_tde_event_capture.h and .c *)

Inductive TDEEncryptMode :=
| TDE_ENCRYPT_MODE_RETAIN
| TDE_ENCRYPT_MODE_ENCRYPT
| TDE_ENCRYPT_MODE_PLAIN.

#[export] Instance TDEEncryptMode_eq_dec : EqDecision TDEEncryptMode.
Proof. solve_decision. Defined.

(** [parsetree] is a pointer. *)
Record TdeDdlEvent := mkTdeDdlEvent {
  ev_parsetree : Z;
  ev_encryptMode : TDEEncryptMode;
  ev_rebuildSequencesFor : Z;
  ev_rebuildSequence : Z;
}.

(** ** Order of WAL locations *)

(** Timeline first, then LSN. *)
Definition wl_lt (l1 l2 : WalLocation) : Prop :=
  wl_tli l1 < wl_tli l2 ∨ (wl_tli l1 = wl_tli l2 ∧ wl_lsn l1 < wl_lsn l2).
Definition wl_le (l1 l2 : WalLocation) : Prop := wl_lt l1 l2 ∨ l1 = l2.

#[export] Instance wl_lt_dec l1 l2 : Decision (wl_lt l1 l2).
Proof. unfold wl_lt. apply _. Defined.

#[export] Instance wl_lt_trans : Transitive wl_lt.
Proof. intros x y z. unfold wl_lt. lia. Qed.

#[export] Instance wl_lt_irrefl : Irreflexive wl_lt.
Proof. intros x. red. unfold wl_lt. lia. Qed.

Lemma wal_location_cmp_lt l1 l2 : wal_location_cmp l1 l2 < 0 ↔ wl_lt l1 l2.
Proof. unfold wal_location_cmp, wl_lt. repeat case_match; lia. Qed.

Lemma wal_location_cmp_gt l1 l2 : wal_location_cmp l1 l2 > 0 ↔ wl_lt l2 l1.
Proof. unfold wal_location_cmp, wl_lt. repeat case_match; lia. Qed.

Lemma wal_location_cmp_eq l1 l2 : wal_location_cmp l1 l2 = 0 ↔ l1 = l2.
Proof.
  unfold wal_location_cmp. destruct l1, l2; simpl.
  repeat case_match; split; intros; simplify_eq; try lia. f_equal; lia.
Qed.

Lemma wl_trichotomy l1 l2 : wl_lt l1 l2 ∨ l1 = l2 ∨ wl_lt l2 l1.
Proof.
  rewrite <-wal_location_cmp_lt, <-wal_location_cmp_gt, <-wal_location_cmp_eq. lia.
Qed.

(** ** Layout of the stored structures *)

Definition timeval_encode (t : timeval) : bytes := enc_u64 (tv_sec t) ++ enc_u64 (tv_usec t).

(** [TDEPrincipalKeyInfo]: 4 + 4 + 16 + 256 bytes, no padding. *)
Definition PKInfo_encode (i : TDEPrincipalKeyInfo) : bytes :=
  enc_u32 (pki_databaseId i) ++ enc_u32 (pki_keyringId i) ++
  timeval_encode (pki_creationTime i) ++ pki_name i.

Definition sizeof_PKInfo : nat := 280.

Definition PKInfo_decode (bs : bytes) : TDEPrincipalKeyInfo :=
  {| pki_databaseId := le_dec (slice 0 4 bs);
     pki_keyringId := le_dec (slice 4 4 bs);
     pki_creationTime := {| tv_sec := i64 (le_dec (slice 8 8 bs));
                            tv_usec := i64 (le_dec (slice 16 8 bs)) |};
     pki_name := slice 24 256 bs |}.

Definition PKInfo_wf (i : TDEPrincipalKeyInfo) : Prop :=
  is_u32 (pki_databaseId i) ∧ is_u32 (pki_keyringId i) ∧
  - 2 ^ 63 <= tv_sec (pki_creationTime i) < 2 ^ 63 ∧
  - 2 ^ 63 <= tv_usec (pki_creationTime i) < 2 ^ 63 ∧
  length (pki_name i) = 256%nat.

Definition sizeof_SignedPKInfo : nat := 312.

Definition SignedPKInfo_encode (s : TDESignedPrincipalKeyInfo) : bytes :=
  PKInfo_encode (spki_data s) ++ spki_sign_iv s ++ spki_aead_tag s.

Definition SignedPKInfo_decode (bs : bytes) : TDESignedPrincipalKeyInfo :=
  {| spki_data := PKInfo_decode (slice 0 280 bs);
     spki_sign_iv := slice 280 16 bs;
     spki_aead_tag := slice 296 16 bs |}.

Definition SignedPKInfo_wf (s : TDESignedPrincipalKeyInfo) : Prop :=
  PKInfo_wf (spki_data s) ∧ length (spki_sign_iv s) = 16%nat ∧
  length (spki_aead_tag s) = 16%nat.

(** Header of a key file ([TDEFileHeader] of open_pg_tde_tdemap.c and
    [WalKeyFileHeader] of open_pg_tde_xlog_keys.c have the same fields): an
    [int32], four bytes of padding, and the signed principal key info. *)
Record KeyFileHeader := mkKeyFileHeader {
  fh_file_version : Z;
  fh_signed_key_info : TDESignedPrincipalKeyInfo;
}.

Definition sizeof_KeyFileHeader : nat := 320.

Definition KeyFileHeader_encode (h : KeyFileHeader) : bytes :=
  enc_u32 (fh_file_version h) ++ zeros 4 ++ SignedPKInfo_encode (fh_signed_key_info h).

Definition KeyFileHeader_decode (bs : bytes) : KeyFileHeader :=
  {| fh_file_version := i32 (le_dec (slice 0 4 bs));
     fh_signed_key_info := SignedPKInfo_decode (slice 8 312 bs) |}.

(** [WalLocation]: an LSN, a timeline, four bytes of padding. *)
Definition WalLocation_encode (l : WalLocation) : bytes :=
  enc_u64 (wl_lsn l) ++ enc_u32 (wl_tli l) ++ zeros 4.

Definition WalLocation_decode (bs : bytes) : WalLocation :=
  {| wl_lsn := le_dec (slice 0 8 bs); wl_tli := le_dec (slice 8 4 bs) |}.

Definition WalLocation_wf (l : WalLocation) : Prop := is_u64 (wl_lsn l) ∧ is_u32 (wl_tli l).

(** ** Round trips of the layouts *)

Lemma dec_enc_i64 z : - 2 ^ 63 <= z < 2 ^ 63 → i64 (le_dec (enc_u64 z)) = z.
Proof.
  intros H. unfold enc_u64. rewrite le_dec_enc. change (256 ^ Z.of_nat 8) with (2 ^ 64).
  unfold i64. rewrite Z.add_mod_idemp_l by lia. rewrite Z.mod_small by lia. lia.
Qed.

Lemma dec_enc_i32 z : - 2 ^ 31 <= z < 2 ^ 31 → i32 (le_dec (enc_u32 z)) = z.
Proof.
  intros H. unfold enc_u32. rewrite le_dec_enc. change (256 ^ Z.of_nat 4) with (2 ^ 32).
  unfold i32. rewrite Z.add_mod_idemp_l by lia. rewrite Z.mod_small by lia. lia.
Qed.

Lemma timeval_encode_length t : length (timeval_encode t) = 16%nat.
Proof. unfold timeval_encode. by len_simpl. Qed.

Lemma PKInfo_encode_length i :
  length (pki_name i) = 256%nat → length (PKInfo_encode i) = 280%nat.
Proof. intros H. unfold PKInfo_encode. rewrite !length_app, timeval_encode_length. by len_simpl. Qed.

Lemma PKInfo_decode_encode i : PKInfo_wf i → PKInfo_decode (PKInfo_encode i) = i.
Proof.
  intros (H1 & H2 & H3 & H4 & H5). unfold PKInfo_decode, PKInfo_encode, timeval_encode.
  rewrite <-!app_assoc. slice_simpl.
  rewrite !dec_enc_u32, !dec_enc_i64 by done. by destruct i as [? ? [] ?].
Qed.

Lemma PKInfo_decode_wf bs : length bs = 280%nat → PKInfo_wf (PKInfo_decode bs).
Proof.
  intros H. split_and!; simpl; try apply i64_range; try apply dec_u32_range.
  all: rewrite ?slice_length; lia.
Qed.

Lemma SignedPKInfo_encode_length s :
  SignedPKInfo_wf s → length (SignedPKInfo_encode s) = 312%nat.
Proof.
  intros ((_&_&_&_&H) & H1 & H2). unfold SignedPKInfo_encode.
  rewrite !length_app, PKInfo_encode_length by done. by len_simpl.
Qed.

Lemma SignedPKInfo_decode_encode s :
  SignedPKInfo_wf s → SignedPKInfo_decode (SignedPKInfo_encode s) = s.
Proof.
  intros (Hd & H1 & H2). unfold SignedPKInfo_decode, SignedPKInfo_encode.
  pose proof (PKInfo_encode_length (spki_data s) ltac:(by apply Hd)) as Hl.
  slice_simpl. rewrite PKInfo_decode_encode by done. by destruct s.
Qed.

Lemma SignedPKInfo_decode_wf bs : length bs = 312%nat → SignedPKInfo_wf (SignedPKInfo_decode bs).
Proof.
  intros H. split_and!; simpl.
  - apply PKInfo_decode_wf. by rewrite slice_length, H.
  - by rewrite slice_length, H.
  - by rewrite slice_length, H.
Qed.

Lemma KeyFileHeader_encode_length h :
  SignedPKInfo_wf (fh_signed_key_info h) → length (KeyFileHeader_encode h) = 320%nat.
Proof.
  intros H. unfold KeyFileHeader_encode.
  rewrite !length_app, SignedPKInfo_encode_length by done. by len_simpl.
Qed.

Lemma KeyFileHeader_decode_encode h :
  - 2 ^ 31 <= fh_file_version h < 2 ^ 31 → SignedPKInfo_wf (fh_signed_key_info h) →
  KeyFileHeader_decode (KeyFileHeader_encode h) = h.
Proof.
  intros Hv H. unfold KeyFileHeader_decode, KeyFileHeader_encode.
  pose proof (SignedPKInfo_encode_length _ H). slice_simpl.
  rewrite SignedPKInfo_decode_encode, dec_enc_i32 by done. by destruct h.
Qed.

Lemma WalLocation_encode_length l : length (WalLocation_encode l) = 16%nat.
Proof. unfold WalLocation_encode. by len_simpl. Qed.

Lemma WalLocation_decode_encode l :
  WalLocation_wf l → WalLocation_decode (WalLocation_encode l) = l.
Proof.
  intros [H1 H2]. unfold WalLocation_decode, WalLocation_encode. slice_simpl.
  rewrite dec_enc_u64, dec_enc_u32 by done. by destruct l.
Qed.

Lemma WalLocation_decode_wf bs : WalLocation_wf (WalLocation_decode bs).
Proof.
  split; simpl; [apply dec_u64_range|apply dec_u32_range]; rewrite slice_length; lia.
Qed.

#[export] Hint Rewrite WalLocation_encode_length timeval_encode_length : lens.
#[global] Arguments PKInfo_encode : simpl never.
#[global] Arguments SignedPKInfo_encode : simpl never.
#[global] Arguments KeyFileHeader_encode : simpl never.
#[global] Arguments KeyFileHeader_decode : simpl never.
#[global] Arguments WalLocation_encode : simpl never.
