(* ===== verification/Environ.v ===== *)
(** The environment the extension runs in, as the code sees it.

    - errors: [ereport] and [elog] at level ERROR or above, as values;
    - OpenSSL (not under src/): a class of operations, and a class with what
      the code relies on, in the words of EVP_EncryptInit(3) and RAND_bytes(3);
    - the operating system: a file system of named byte strings, and an oracle
      that decides which system calls fail or transfer fewer bytes;
    - the state of the process and of the shared memory ([World]), and a
      state-and-error monad [M] in which the functions of the code are written.

    An error keeps the state in which it was raised: whatever was written to
    a file before stays written. *)
From S2P Require Import Prelude Types.

(** ** Errors *)

Inductive elevel := ERROR | FATAL | PANIC.

Record error := mkError { err_level : elevel; err_msg : string }.

(** ** OpenSSL *)

Inductive EVP_CIPHER :=
| EVP_aes_128_ecb | EVP_aes_256_ecb
| EVP_aes_128_cbc | EVP_aes_256_cbc
| EVP_aes_128_xts | EVP_aes_256_xts
| EVP_aes_128_gcm | EVP_aes_256_gcm
| EVP_aes_128_ctr.

#[export] Instance EVP_CIPHER_eq_dec : EqDecision EVP_CIPHER.
Proof. solve_decision. Defined.

(** Operations on a context return the context they leave behind, also when
    they fail. [EVP_EncryptInit_ex] and [EVP_DecryptInit_ex] are
    [EVP_CipherInit_ex] with direction 1 and 0; an [Update] call with a NULL
    output buffer passes additional authenticated data. [RAND_bytes n len] is
    the result of the [n]-th call of the process. *)
Class OpenSSL := {
  EVP_CIPHER_CTX : Type;
  EVP_CIPHER_CTX_new : EVP_CIPHER_CTX;
  EVP_CipherInit_ex : EVP_CIPHER_CTX → option EVP_CIPHER → option bytes → option bytes → Z →
                      EVP_CIPHER_CTX * bool;
  EVP_CIPHER_CTX_set_padding : EVP_CIPHER_CTX → Z → EVP_CIPHER_CTX * bool;
  EVP_CTRL_GCM_SET_IVLEN : EVP_CIPHER_CTX → Z → EVP_CIPHER_CTX * bool;
  EVP_CTRL_GCM_SET_TAG : EVP_CIPHER_CTX → bytes → EVP_CIPHER_CTX * bool;
  EVP_CTRL_GCM_GET_TAG : EVP_CIPHER_CTX → Z → option bytes;
  EVP_UpdateAAD : EVP_CIPHER_CTX → bytes → EVP_CIPHER_CTX * bool;
  EVP_CipherUpdate : EVP_CIPHER_CTX → bytes → EVP_CIPHER_CTX * option bytes;
  EVP_CipherFinal_ex : EVP_CIPHER_CTX → EVP_CIPHER_CTX * option bytes;
  RAND_bytes : nat → Z → option bytes;
}.

(** What a context holds, as far as the manual describes it. *)
Record CtxView := mkCtxView {
  cv_cipher : option EVP_CIPHER;
  cv_padding : bool;
  cv_ivlen : Z;
  cv_enc : bool;
  cv_key : option bytes;
  cv_iv : option bytes;      (* set since the last Final *)
  cv_tag : option bytes;     (* expected tag, decryption *)
  cv_aad : bytes;
  cv_data : bytes;           (* input since the last Init *)
}.

Definition evp_key_length (c : EVP_CIPHER) : nat :=
  match c with
  | EVP_aes_128_ecb | EVP_aes_128_cbc | EVP_aes_128_gcm | EVP_aes_128_ctr => 16
  | EVP_aes_256_ecb | EVP_aes_256_cbc | EVP_aes_256_gcm | EVP_aes_128_xts => 32
  | EVP_aes_256_xts => 64
  end.

Inductive evp_mode := ModeEcb | ModeCbc | ModeXts | ModeGcm | ModeCtr.

Definition mode_of (c : EVP_CIPHER) : evp_mode :=
  match c with
  | EVP_aes_128_ecb | EVP_aes_256_ecb => ModeEcb
  | EVP_aes_128_cbc | EVP_aes_256_cbc => ModeCbc
  | EVP_aes_128_xts | EVP_aes_256_xts => ModeXts
  | EVP_aes_128_gcm | EVP_aes_256_gcm => ModeGcm
  | EVP_aes_128_ctr => ModeCtr
  end.

(** What the code relies on. [aes_block] is the AES permutation on one block,
    [page_crypt] the CBC and XTS transformations of a whole buffer, [gcm_seal]
    and [gcm_open] authenticated encryption. *)
Class OpenSSLSpec (SSL : OpenSSL) := {
  view : EVP_CIPHER_CTX → CtxView;
  aes_block : bytes → bytes → bytes;
  page_crypt : EVP_CIPHER → bool → bytes → bytes → bytes → bytes;
  gcm_seal : bytes → bytes → bytes → bytes → bytes * bytes;
  gcm_open : bytes → bytes → bytes → bytes → bytes → option bytes;
  ctr_crypt : bytes → bytes → bytes → bytes;

  (** choosing a cipher in a new context *)
  init_cipher c e :
    e = 0 ∨ e = 1 →
    snd (EVP_CipherInit_ex EVP_CIPHER_CTX_new (Some c) None None e) = true ∧
    view (fst (EVP_CipherInit_ex EVP_CIPHER_CTX_new (Some c) None None e)) =
      mkCtxView (Some c) true 12 (negb (e =? 0)) None None None [] [];
  (** choosing a cipher and loading a key that needs no IV *)
  init_cipher_key c key :
    mode_of c = ModeEcb → length key = evp_key_length c →
    snd (EVP_CipherInit_ex EVP_CIPHER_CTX_new (Some c) (Some key) None 1) = true ∧
    view (fst (EVP_CipherInit_ex EVP_CIPHER_CTX_new (Some c) (Some key) None 1)) =
      mkCtxView (Some c) true 12 true (Some key) None None [] [];
  (** choosing a cipher and loading key, IV and direction at once *)
  init_all c key iv e :
    mode_of c ≠ ModeGcm → length key = evp_key_length c → length iv = 16%nat → e = 0 ∨ e = 1 →
    snd (EVP_CipherInit_ex EVP_CIPHER_CTX_new (Some c) (Some key) (Some iv) e) = true ∧
    view (fst (EVP_CipherInit_ex EVP_CIPHER_CTX_new (Some c) (Some key) (Some iv) e)) =
      mkCtxView (Some c) true 12 (e =? 1) (Some key) (Some iv) None [] [];
  (** loading key, IV and direction into a context that has a cipher *)
  init_key ctx c key iv e :
    cv_cipher (view ctx) = Some c → length key = evp_key_length c →
    (mode_of c = ModeGcm → Z.of_nat (length iv) = cv_ivlen (view ctx)) →
    (mode_of c ≠ ModeGcm → length iv = 16%nat) → (e = 0 ∨ e = 1) →
    snd (EVP_CipherInit_ex ctx None (Some key) (Some iv) e) = true ∧
    view (fst (EVP_CipherInit_ex ctx None (Some key) (Some iv) e)) =
      mkCtxView (Some c) (cv_padding (view ctx)) (cv_ivlen (view ctx)) (e =? 1)
        (Some key) (Some iv) (cv_tag (view ctx)) [] [];
  (** changing only the IV keeps the key and the direction *)
  init_iv ctx c key iv :
    cv_cipher (view ctx) = Some c → cv_key (view ctx) = Some key →
    mode_of c ≠ ModeGcm → length iv = 16%nat →
    snd (EVP_CipherInit_ex ctx None None (Some iv) (-1)) = true ∧
    view (fst (EVP_CipherInit_ex ctx None None (Some iv) (-1))) =
      mkCtxView (Some c) (cv_padding (view ctx)) (cv_ivlen (view ctx)) (cv_enc (view ctx))
        (Some key) (Some iv) (cv_tag (view ctx)) [] [];
  set_padding_off ctx :
    snd (EVP_CIPHER_CTX_set_padding ctx 0) = true ∧
    view (fst (EVP_CIPHER_CTX_set_padding ctx 0)) =
      let v := view ctx in
      mkCtxView (cv_cipher v) false (cv_ivlen v) (cv_enc v) (cv_key v) (cv_iv v) (cv_tag v)
        (cv_aad v) (cv_data v);
  set_ivlen ctx c n :
    cv_cipher (view ctx) = Some c → mode_of c = ModeGcm → 0 < n ≤ 16 →
    snd (EVP_CTRL_GCM_SET_IVLEN ctx n) = true ∧
    view (fst (EVP_CTRL_GCM_SET_IVLEN ctx n)) =
      let v := view ctx in
      mkCtxView (cv_cipher v) (cv_padding v) n (cv_enc v) (cv_key v) (cv_iv v) (cv_tag v)
        (cv_aad v) (cv_data v);
  set_tag ctx c t :
    cv_cipher (view ctx) = Some c → mode_of c = ModeGcm → cv_enc (view ctx) = false →
    length t = 16%nat →
    snd (EVP_CTRL_GCM_SET_TAG ctx t) = true ∧
    view (fst (EVP_CTRL_GCM_SET_TAG ctx t)) =
      let v := view ctx in
      mkCtxView (cv_cipher v) (cv_padding v) (cv_ivlen v) (cv_enc v) (cv_key v) (cv_iv v)
        (Some t) (cv_aad v) (cv_data v);
  update_aad ctx c key iv aad :
    cv_cipher (view ctx) = Some c → mode_of c = ModeGcm →
    cv_key (view ctx) = Some key → cv_iv (view ctx) = Some iv → cv_data (view ctx) = [] →
    snd (EVP_UpdateAAD ctx aad) = true ∧
    view (fst (EVP_UpdateAAD ctx aad)) =
      let v := view ctx in
      mkCtxView (cv_cipher v) (cv_padding v) (cv_ivlen v) (cv_enc v) (cv_key v) (cv_iv v)
        (cv_tag v) (cv_aad v ++ aad) (cv_data v);

  (** whole-buffer CBC and XTS: the output of [Update] and [Final] together *)
  page_update ctx c key iv d :
    cv_cipher (view ctx) = Some c → (mode_of c = ModeCbc ∨ mode_of c = ModeXts) →
    cv_padding (view ctx) = false → cv_key (view ctx) = Some key →
    cv_iv (view ctx) = Some iv → cv_data (view ctx) = [] →
    (16 ≤ length d)%nat → (mode_of c = ModeCbc → (length d mod 16 = 0)%nat) →
    ∃ ctx1 out1 ctx2 out2,
      EVP_CipherUpdate ctx d = (ctx1, Some out1) ∧
      EVP_CipherFinal_ex ctx1 = (ctx2, Some out2) ∧
      out1 ++ out2 = page_crypt c (cv_enc (view ctx)) key iv d ∧
      view ctx2 = mkCtxView (Some c) false (cv_ivlen (view ctx)) (cv_enc (view ctx)) (Some key)
                    None (cv_tag (view ctx)) [] [];
  page_crypt_length c e key iv d :
    length (page_crypt c e key iv d) = length d;
  page_crypt_inv c key iv d :
    length key = evp_key_length c → length iv = 16%nat → (16 ≤ length d)%nat →
    (mode_of c = ModeCbc → (length d mod 16 = 0)%nat) →
    page_crypt c false key iv (page_crypt c true key iv d) = d;

  (** CTR: any length; encrypting twice gives the data back *)
  ctr_update ctx c key iv d :
    cv_cipher (view ctx) = Some c → mode_of c = ModeCtr → cv_enc (view ctx) = true →
    cv_key (view ctx) = Some key → cv_iv (view ctx) = Some iv → cv_data (view ctx) = [] →
    ∃ ctx1 out1 ctx2 out2,
      EVP_CipherUpdate ctx d = (ctx1, Some out1) ∧
      EVP_CipherFinal_ex ctx1 = (ctx2, Some out2) ∧
      out1 ++ out2 = ctr_crypt key iv d;
  ctr_crypt_length key iv d : length (ctr_crypt key iv d) = length d;
  ctr_crypt_inv key iv d : ctr_crypt key iv (ctr_crypt key iv d) = d;

  (** ECB without padding on whole blocks; the context can be used again *)
  ecb_update ctx c key d :
    cv_cipher (view ctx) = Some c → mode_of c = ModeEcb → cv_padding (view ctx) = false →
    cv_enc (view ctx) = true → cv_key (view ctx) = Some key → (length d mod 16 = 0)%nat →
    snd (EVP_CipherUpdate ctx d) = Some (concat (aes_block key <$> chunks 16 d)) ∧
    let v := view (fst (EVP_CipherUpdate ctx d)) in
    cv_cipher v = Some c ∧ cv_padding v = false ∧ cv_enc v = true ∧ cv_key v = Some key;
  aes_block_length key b :
    length b = 16%nat → length (aes_block key b) = 16%nat;

  (** GCM *)
  gcm_enc_update ctx c key iv d :
    cv_cipher (view ctx) = Some c → mode_of c = ModeGcm → cv_enc (view ctx) = true →
    cv_key (view ctx) = Some key → cv_iv (view ctx) = Some iv → cv_data (view ctx) = [] →
    ∃ ctx1 ctx2,
      EVP_CipherUpdate ctx d = (ctx1, Some (fst (gcm_seal key iv (cv_aad (view ctx)) d))) ∧
      EVP_CipherFinal_ex ctx1 = (ctx2, Some []) ∧
      EVP_CTRL_GCM_GET_TAG ctx2 16 = Some (snd (gcm_seal key iv (cv_aad (view ctx)) d));
  gcm_dec_update ctx c key iv d t :
    cv_cipher (view ctx) = Some c → mode_of c = ModeGcm → cv_enc (view ctx) = false →
    cv_key (view ctx) = Some key → cv_iv (view ctx) = Some iv → cv_data (view ctx) = [] →
    cv_tag (view ctx) = Some t →
    match gcm_open key iv (cv_aad (view ctx)) d t with
    | Some out => ∃ ctx1 ctx2, EVP_CipherUpdate ctx d = (ctx1, Some out) ∧
                               EVP_CipherFinal_ex ctx1 = (ctx2, Some [])
    | None => ∃ ctx1 out ctx2, EVP_CipherUpdate ctx d = (ctx1, Some out) ∧
                               length out = length d ∧
                               EVP_CipherFinal_ex ctx1 = (ctx2, None)
    end;
  gcm_seal_length key iv aad d :
    length (fst (gcm_seal key iv aad d)) = length d ∧
    length (snd (gcm_seal key iv aad d)) = 16%nat;
  gcm_open_length key iv aad d t out :
    gcm_open key iv aad d t = Some out → length out = length d;
  gcm_open_seal key iv aad d :
    gcm_open key iv aad (fst (gcm_seal key iv aad d)) (snd (gcm_seal key iv aad d)) = Some d;

  RAND_bytes_length n len bs :
    RAND_bytes n len = Some bs → Z.of_nat (length bs) = len;
}.

(** ** The operating system *)

Inductive Syscall :=
| SysOpen (path : string)
| SysPread (path : string) (count off : Z)
| SysPwrite (path : string) (off : Z) (data : bytes)
| SysFsync (path : string)
| SysRename (src dst : string)
| SysUnlink (path : string).

(** [sys_fault c fs] decides, for the call [c] made when the files are [fs],
    whether it works ([None]) or fails: for a read or a write, [Some n] is the
    value it returns (fewer bytes than asked, or -1). [SysRename] and [SysUnlink]
    stand for all that [durable_rename] and [durable_unlink] of the server do:
    they sync files and directories before and after the call itself, so that
    they can fail before it has taken effect ([Some n] with [n] negative) and
    after it ([Some n], otherwise). *)
Class Kernel := {
  sys_fault : Syscall → gmap string bytes → option Z;
  (** the setting [data_sync_retry] of the server *)
  data_sync_retry : bool;
  (** what uninitialised memory of a given size happens to contain, for the
      [n]-th random number of the process and the current files *)
  junk : nat → gmap string bytes → nat → bytes;
}.

(** No call fails. *)
Class NoFaults (K : Kernel) := no_fault : ∀ c fs, sys_fault c fs = None.

(** The random number generator delivers. *)
Class RandWorks (SSL : OpenSSL) := rand_works : ∀ n len, 0 <= len → is_Some (RAND_bytes n len).

Inductive Errno := ENOENT | EIO.

(** A file descriptor or the [errno] of a failed open. *)
Inductive open_result :=
| Fd (path : string)
| OpenFailed (e : Errno).

(** ** State *)

Inductive LWLockMode := LW_SHARED | LW_EXCLUSIVE.

#[export] Instance LWLockMode_eq_dec : EqDecision LWLockMode.
Proof. solve_decision. Defined.

Section state.
Context {SSL : OpenSSL}.

(** [AesCtxCache] of enc_aes.c: a context and the key and direction last
    loaded into it. *)
Record AesCtxCache := mkAesCtxCache {
  cc_ctx : EVP_CIPHER_CTX;
  cc_key : bytes;
  cc_key_len : Z;
  cc_enc : Z;
}.

(** [WALKeyCacheRec] of open_pg_tde_xlog_keys.h. The records form a linked
    list in the code; here they are the elements of a list, and a pointer to a
    record is its position. *)
Record WALKeyCacheRec := mkWALKeyCacheRec {
  rec_range : WalEncryptionRange;
  rec_crypt_ctx : option EVP_CIPHER_CTX;
}.

(** Static variables of open_pg_tde_xlog_keys.c: the cached records (head and
    last pointer are the ends of the list), and whether a record and a range
    are preallocated. *)
Record WalCacheState := mkWalCacheState {
  wal_key_cache : list WALKeyCacheRec;
  wal_prealloc_record : bool;
  wal_prealloc_range : bool;
}.

(** Static and shared variables of open_pg_tde_xlog_smgr.c. *)
Record XLogSmgrState := mkXLogSmgrState {
  CurrentWalEncryptionRange : WalEncryptionRange;
  EncryptionCryptCtx : option EVP_CIPHER_CTX;
  enc_key_tli : Z;
  enc_key_lsn : Z;
}.

(** Settings and facts about the server process that the code reads. *)
Record Session := mkSession {
  KeyLength : Z;
  Cipher : Z;
  DataCipher : Z;
  AllowInheritGlobalProviders : bool;
  is_superuser : bool;
  MyDatabaseId : Z;
  IsUnderPostmaster : bool;
  InCrashRecovery : bool;
  IsBinaryUpgrade : bool;
  EnforceEncryption : bool;
  default_table_access_method : string;
}.

(** State of smgr/open_pg_tde_smgr.c: the open relations of the process (a
    relation pointer is the locator it was opened with), the keys of its
    temporary tables ([None] before the hash table is created), the keys staged
    for asynchronous reads, one per IO handle, and the IO handles on which the
    decrypting callback is registered. [md_pages] are the pages in the files of
    the relations, by relation, fork and block number, which the functions of
    md.c read and write. *)
Record SmgrState := mkSmgrState {
  smgr_relations : gmap RelFileLocatorBackend TDESMgrRelation;
  TempRelKeys : option (gmap RelFileLocator InternalKey);
  tde_io_handle_keys : gmap Z InternalKey;
  tde_io_callbacks : list Z;
  md_pages : gmap (RelFileLocatorBackend * Z * Z) bytes;
}.

(** Static variables of open_pg_tde_event_capture.c; the full transaction id of
    the current transaction or subtransaction of the process (0 when it has none),
    the next one that is free, and the ids of the transactions around the current
    one, innermost first. *)
Record DdlState := mkDdlState {
  ddlEventStackTid : Z;
  ddlEventStack : list TdeDdlEvent;
  CurrentFullTransactionId : Z;
  NextFullTransactionId : Z;
  ParentFullTransactionIds : list Z;
}.

(** Static variables of open_pg_tde_tempfile.c. *)
Record TempFileState := mkTempFileState {
  tempfile_key_ready : bool;
  tempfile_xts_key : bytes;
  tempfile_ctr_key : bytes;
  tempfile_base_iv : bytes;
}.

(** The variable [keyringCurl] of keyring_curl.c, the options set in it, and the
    requests that were sent to services. *)
Record NetState := mkNetState {
  keyringCurl : option (list CurlOption);
  net_requests : list NetRequest;
}.

Record World := mkWorld {
  w_fs : gmap string bytes;             (* the files *)
  w_rand : nat;                         (* RAND_bytes calls so far *)
  w_enc_lock : option LWLockMode;       (* tde_lwlock_enc_keys, held by this process *)
  w_pi_lock : option LWLockMode;        (* tde_provider_info_lock *)
  w_xlog : list XLogRecord;             (* WAL records inserted *)
  w_ctx_cbc_128 : AesCtxCache;
  w_ctx_cbc_256 : AesCtxCache;
  w_ctx_xts_128 : AesCtxCache;
  w_ctx_xts_256 : AesCtxCache;
  w_pk_cache : gmap Z TDEPrincipalKey;  (* shared hash of principal keys *)
  w_wal : WalCacheState;
  w_xsmgr : XLogSmgrState;
  w_session : Session;
  w_smgr : SmgrState;
  w_ddl : DdlState;
  w_tempfile : TempFileState;
  w_net : NetState;
}.

Definition set_fs x w := mkWorld x (w_rand w) (w_enc_lock w) (w_pi_lock w) (w_xlog w)
  (w_ctx_cbc_128 w) (w_ctx_cbc_256 w) (w_ctx_xts_128 w) (w_ctx_xts_256 w) (w_pk_cache w) (w_wal w)
  (w_xsmgr w) (w_session w) (w_smgr w) (w_ddl w) (w_tempfile w) (w_net w).
Definition set_rand x w := mkWorld (w_fs w) x (w_enc_lock w) (w_pi_lock w) (w_xlog w)
  (w_ctx_cbc_128 w) (w_ctx_cbc_256 w) (w_ctx_xts_128 w) (w_ctx_xts_256 w) (w_pk_cache w) (w_wal w)
  (w_xsmgr w) (w_session w) (w_smgr w) (w_ddl w) (w_tempfile w) (w_net w).
Definition set_enc_lock x w := mkWorld (w_fs w) (w_rand w) x (w_pi_lock w) (w_xlog w)
  (w_ctx_cbc_128 w) (w_ctx_cbc_256 w) (w_ctx_xts_128 w) (w_ctx_xts_256 w) (w_pk_cache w) (w_wal w)
  (w_xsmgr w) (w_session w) (w_smgr w) (w_ddl w) (w_tempfile w) (w_net w).
Definition set_pi_lock x w := mkWorld (w_fs w) (w_rand w) (w_enc_lock w) x (w_xlog w)
  (w_ctx_cbc_128 w) (w_ctx_cbc_256 w) (w_ctx_xts_128 w) (w_ctx_xts_256 w) (w_pk_cache w) (w_wal w)
  (w_xsmgr w) (w_session w) (w_smgr w) (w_ddl w) (w_tempfile w) (w_net w).
Definition set_xlog x w := mkWorld (w_fs w) (w_rand w) (w_enc_lock w) (w_pi_lock w) x
  (w_ctx_cbc_128 w) (w_ctx_cbc_256 w) (w_ctx_xts_128 w) (w_ctx_xts_256 w) (w_pk_cache w) (w_wal w)
  (w_xsmgr w) (w_session w) (w_smgr w) (w_ddl w) (w_tempfile w) (w_net w).
Definition set_ctx_cbc_128 x w := mkWorld (w_fs w) (w_rand w) (w_enc_lock w) (w_pi_lock w)
  (w_xlog w) x (w_ctx_cbc_256 w) (w_ctx_xts_128 w) (w_ctx_xts_256 w) (w_pk_cache w) (w_wal w)
  (w_xsmgr w) (w_session w) (w_smgr w) (w_ddl w) (w_tempfile w) (w_net w).
Definition set_ctx_cbc_256 x w := mkWorld (w_fs w) (w_rand w) (w_enc_lock w) (w_pi_lock w)
  (w_xlog w) (w_ctx_cbc_128 w) x (w_ctx_xts_128 w) (w_ctx_xts_256 w) (w_pk_cache w) (w_wal w)
  (w_xsmgr w) (w_session w) (w_smgr w) (w_ddl w) (w_tempfile w) (w_net w).
Definition set_ctx_xts_128 x w := mkWorld (w_fs w) (w_rand w) (w_enc_lock w) (w_pi_lock w)
  (w_xlog w) (w_ctx_cbc_128 w) (w_ctx_cbc_256 w) x (w_ctx_xts_256 w) (w_pk_cache w) (w_wal w)
  (w_xsmgr w) (w_session w) (w_smgr w) (w_ddl w) (w_tempfile w) (w_net w).
Definition set_ctx_xts_256 x w := mkWorld (w_fs w) (w_rand w) (w_enc_lock w) (w_pi_lock w)
  (w_xlog w) (w_ctx_cbc_128 w) (w_ctx_cbc_256 w) (w_ctx_xts_128 w) x (w_pk_cache w) (w_wal w)
  (w_xsmgr w) (w_session w) (w_smgr w) (w_ddl w) (w_tempfile w) (w_net w).
Definition set_pk_cache x w := mkWorld (w_fs w) (w_rand w) (w_enc_lock w) (w_pi_lock w) (w_xlog w)
  (w_ctx_cbc_128 w) (w_ctx_cbc_256 w) (w_ctx_xts_128 w) (w_ctx_xts_256 w) x (w_wal w) (w_xsmgr w)
  (w_session w) (w_smgr w) (w_ddl w) (w_tempfile w) (w_net w).
Definition set_wal x w := mkWorld (w_fs w) (w_rand w) (w_enc_lock w) (w_pi_lock w) (w_xlog w)
  (w_ctx_cbc_128 w) (w_ctx_cbc_256 w) (w_ctx_xts_128 w) (w_ctx_xts_256 w) (w_pk_cache w) x
  (w_xsmgr w) (w_session w) (w_smgr w) (w_ddl w) (w_tempfile w) (w_net w).
Definition set_xsmgr x w := mkWorld (w_fs w) (w_rand w) (w_enc_lock w) (w_pi_lock w) (w_xlog w)
  (w_ctx_cbc_128 w) (w_ctx_cbc_256 w) (w_ctx_xts_128 w) (w_ctx_xts_256 w) (w_pk_cache w) (w_wal w)
  x (w_session w) (w_smgr w) (w_ddl w) (w_tempfile w) (w_net w).
Definition set_session x w := mkWorld (w_fs w) (w_rand w) (w_enc_lock w) (w_pi_lock w) (w_xlog w)
  (w_ctx_cbc_128 w) (w_ctx_cbc_256 w) (w_ctx_xts_128 w) (w_ctx_xts_256 w) (w_pk_cache w) (w_wal w)
  (w_xsmgr w) x (w_smgr w) (w_ddl w) (w_tempfile w) (w_net w).
Definition set_smgr x w := mkWorld (w_fs w) (w_rand w) (w_enc_lock w) (w_pi_lock w) (w_xlog w)
  (w_ctx_cbc_128 w) (w_ctx_cbc_256 w) (w_ctx_xts_128 w) (w_ctx_xts_256 w) (w_pk_cache w) (w_wal w)
  (w_xsmgr w) (w_session w) x (w_ddl w) (w_tempfile w) (w_net w).
Definition set_ddl x w := mkWorld (w_fs w) (w_rand w) (w_enc_lock w) (w_pi_lock w) (w_xlog w)
  (w_ctx_cbc_128 w) (w_ctx_cbc_256 w) (w_ctx_xts_128 w) (w_ctx_xts_256 w) (w_pk_cache w) (w_wal w)
  (w_xsmgr w) (w_session w) (w_smgr w) x (w_tempfile w) (w_net w).
Definition set_tempfile x w := mkWorld (w_fs w) (w_rand w) (w_enc_lock w) (w_pi_lock w) (w_xlog w)
  (w_ctx_cbc_128 w) (w_ctx_cbc_256 w) (w_ctx_xts_128 w) (w_ctx_xts_256 w) (w_pk_cache w) (w_wal w)
  (w_xsmgr w) (w_session w) (w_smgr w) (w_ddl w) x (w_net w).
Definition set_net x w := mkWorld (w_fs w) (w_rand w) (w_enc_lock w) (w_pi_lock w) (w_xlog w)
  (w_ctx_cbc_128 w) (w_ctx_cbc_256 w) (w_ctx_xts_128 w) (w_ctx_xts_256 w) (w_pk_cache w) (w_wal w)
  (w_xsmgr w) (w_session w) (w_smgr w) (w_ddl w) (w_tempfile w) x.

(** ** The monad *)

Inductive Res (A : Type) :=
| Ok (a : A) (w : World)
| Err (e : error) (w : World).
Arguments Ok {A}.
Arguments Err {A}.

Definition M (A : Type) : Type := World → Res A.

#[export] Instance M_ret : MRet M := λ A a w, Ok a w.
#[export] Instance M_bind : MBind M := λ A B f m w,
  match m w with
  | Ok a w' => f a w'
  | Err e w' => Err e w'
  end.

Definition ereport {A} (lvl : elevel) (msg : string) : M A := λ w, Err (mkError lvl msg) w.

Definition gets {A} (f : World → A) : M A := λ w, Ok (f w) w.
Definition modify (f : World → World) : M unit := λ w, Ok tt (f w).

(** ** Locks *)

(** Acquiring a lock the process already holds would wait for itself. *)
Definition LWLockAcquire_enc (m : LWLockMode) : M unit := λ w,
  match w_enc_lock w with
  | Some _ => Err (mkError PANIC "self-deadlock on tde_lwlock_enc_keys") w
  | None => Ok tt (set_enc_lock (Some m) w)
  end.

Definition LWLockRelease_enc : M unit := λ w,
  match w_enc_lock w with
  | Some _ => Ok tt (set_enc_lock None w)
  | None => Err (mkError ERROR "lock tde_lwlock_enc_keys is not held") w
  end.

Definition LWLockAcquire_pi (m : LWLockMode) : M unit := λ w,
  match w_pi_lock w with
  | Some _ => Err (mkError PANIC "self-deadlock on tde_provider_info_lock") w
  | None => Ok tt (set_pi_lock (Some m) w)
  end.

Definition LWLockRelease_pi : M unit := λ w,
  match w_pi_lock w with
  | Some _ => Ok tt (set_pi_lock None w)
  | None => Err (mkError ERROR "lock tde_provider_info_lock is not held") w
  end.

(** ** WAL insertion and randomness *)

Definition XLogInsert (r : XLogRecord) : M unit := modify (λ w, set_xlog (w_xlog w ++ [r]) w).

Definition rand_bytes (len : Z) : M (option bytes) := λ w,
  Ok (RAND_bytes (w_rand w) len) (set_rand (S (w_rand w)) w).

(** ** File operations *)

Context {K : Kernel}.

Definition OpenTransientFile (path : string) (o_creat o_trunc : bool) : M open_result := λ w,
  match sys_fault (SysOpen path) (w_fs w) with
  | Some _ => Ok (OpenFailed EIO) w
  | None =>
      match w_fs w !! path with
      | Some _ =>
          if o_trunc then Ok (Fd path) (set_fs (<[path := []]> (w_fs w)) w) else Ok (Fd path) w
      | None =>
          if o_creat then Ok (Fd path) (set_fs (<[path := []]> (w_fs w)) w)
          else Ok (OpenFailed ENOENT) w
      end
  end.

(** The bytes read, or [None] when the call returns -1. *)
Definition pg_pread (fd : string) (count off : Z) : M (option bytes) := λ w,
  match sys_fault (SysPread fd count off) (w_fs w) with
  | Some n =>
      if n <? 0 then Ok None w
      else Ok (take (Z.to_nat n) ∘ slice (Z.to_nat off) (Z.to_nat count) <$> w_fs w !! fd) w
  | None =>
      if off <? 0 then Ok None w
      else Ok (slice (Z.to_nat off) (Z.to_nat count) <$> w_fs w !! fd) w
  end.

(** The number of bytes written, or -1. *)
Definition pg_pwrite (fd : string) (data : bytes) (off : Z) : M Z := λ w,
  match w_fs w !! fd with
  | None => Ok (-1) w
  | Some bs =>
      match sys_fault (SysPwrite fd off data) (w_fs w) with
      | Some n =>
          if n <? 0 then Ok (-1) w
          else let d := take (Z.to_nat n) data in
               Ok (Z.of_nat (length d)) (set_fs (<[fd := write_at (Z.to_nat off) d bs]> (w_fs w)) w)
      | None =>
          if off <? 0 then Ok (-1) w
          else Ok (Z.of_nat (length data))
                 (set_fs (<[fd := write_at (Z.to_nat off) data bs]> (w_fs w)) w)
      end
  end.

(** [data_sync_elevel (ERROR)] of storage/fd.h *)
Definition data_sync_elevel_ERROR : elevel := if data_sync_retry then ERROR else PANIC.

(** [n] bytes of uninitialised memory. *)
Definition uninit (n : nat) : M bytes := λ w,
  Ok (take n (junk (w_rand w) (w_fs w) n ++ zeros n)) w.

(** 0 on success *)
Definition pg_fsync (fd : string) : M Z := λ w,
  match sys_fault (SysFsync fd) (w_fs w) with
  | Some _ => Ok (-1) w
  | None => Ok 0 w
  end.

(** [lseek (fd, 0, SEEK_END)]: the size of the file *)
Definition lseek_end (fd : string) : M Z := λ w,
  match w_fs w !! fd with
  | Some bs => Ok (Z.of_nat (length bs)) w
  | None => Ok (-1) w
  end.

(** [access (path, F_OK) == 0] *)
Definition access_F_OK (path : string) : M bool := gets (λ w, bool_decide (is_Some (w_fs w !! path))).

Definition CloseTransientFile (fd : string) : M unit := mret tt.

(** The effect of a rename on the files. *)
Definition renamed (src dst : string) (bs : bytes) (w : World) : World := set_fs (<[dst := bs]> (delete src (w_fs w))) w.

(** Renames and syncs, or raises an error at the given level, with or without
    having renamed the file. *)
Definition durable_rename (src dst : string) (lvl : elevel) : M unit := λ w,
  match sys_fault (SysRename src dst) (w_fs w), w_fs w !! src with
  | None, Some bs => Ok tt (renamed src dst bs w)
  | Some n, Some bs => Err (mkError lvl "could not rename file") (if n <? 0 then w else renamed src dst bs w)
  | _, None => Err (mkError lvl "could not rename file") w
  end.

(** Removes a file and syncs the directory; [missing_is_error] is false when the
    level is WARNING. *)
Definition durable_unlink (path : string) (missing_is_error : bool) : M unit := λ w,
  let removed := set_fs (delete path (w_fs w)) w in
  let fails w' := if missing_is_error then Err (mkError ERROR "could not remove file") w' else Ok tt w' in
  match sys_fault (SysUnlink path) (w_fs w), w_fs w !! path with
  | None, Some _ => Ok tt removed
  | Some n, Some _ => fails (if n <? 0 then w else removed)
  | _, None => fails w
  end.

(** [PathNameDeleteTemporaryFile (path, false)]: no error when it is missing. *)
Definition PathNameDeleteTemporaryFile (path : string) : M unit := durable_unlink path false.

End state.

Arguments Ok {SSL A} _ _.
Arguments Err {SSL A} _ _.

(** ** Reasoning about the monad *)

Section monad.
Context {SSL : OpenSSL}.

Lemma bind_ok {A B} (m : M A) (f : A → M B) w a w' :
  m w = Ok a w' → (m ≫= f) w = f a w'.
Proof. intros E. unfold mbind, M_bind. by rewrite E. Qed.

Lemma bind_err {A B} (m : M A) (f : A → M B) w e w' :
  m w = Err e w' → (m ≫= f) w = Err e w'.
Proof. intros E. unfold mbind, M_bind. by rewrite E. Qed.

Lemma bind_inv {A B} (m : M A) (f : A → M B) w b w' :
  (m ≫= f) w = Ok b w' → ∃ a w1, m w = Ok a w1 ∧ f a w1 = Ok b w'.
Proof. unfold mbind, M_bind. destruct (m w) as [a w1|e w1]; [eauto|done]. Qed.

Lemma bind_err_inv {A B} (m : M A) (f : A → M B) w e w' :
  (m ≫= f) w = Err e w' →
  m w = Err e w' ∨ ∃ a w1, m w = Ok a w1 ∧ f a w1 = Err e w'.
Proof.
  unfold mbind, M_bind. destruct (m w) as [a w1|e1 w1]; intros; simplify_eq; eauto.
Qed.

Lemma bind_assoc {A B C} (m : M A) (f : A → M B) (g : B → M C) w :
  ((m ≫= f) ≫= g) w = (m ≫= (λ a, f a ≫= g)) w.
Proof. unfold mbind, M_bind. by destruct (m w). Qed.

Lemma ret_ok {A} (a : A) w : (mret a : M A) w = Ok a w.
Proof. done. Qed.

(** The state a call leaves behind, and whether it returned. *)
Definition world_after {A} (r : Res A) : World := match r with Ok _ w => w | Err _ w => w end.
Definition is_ok {A} (r : Res A) : bool := match r with Ok _ _ => true | Err _ _ => false end.

Lemma is_ok_run (m : M unit) w : is_ok (m w) = true → m w = Ok tt (world_after (m w)).
Proof. by destruct (m w) as [[] ?|? ?]. Qed.

End monad.

(** Runs one monadic step whose result is known from the context or by
    computation, or follows from the given lemma. *)
Ltac mstep := first
  [ erewrite bind_ok by eassumption
  | erewrite bind_ok by reflexivity ].
Tactic Notation "mrun" uconstr(lem) :=
  erewrite bind_ok by (eapply lem; first [eassumption | done | lia | eauto]).

(** Decomposes a successful run. *)
Ltac minv H :=
  let a := fresh "r" in let w1 := fresh "w" in let E := fresh "E" in
  apply bind_inv in H as (a & w1 & E & H).

(** ** What a computation does in every case, errors included *)

Section always.
Context {SSL : OpenSSL}.

(** Every run of [m], whether it returns or raises an error, relates the state
    before and the state after by [R]. *)
Definition always (R : relation World) {A} (m : M A) : Prop :=
  ∀ w, match m w with Ok _ w' => R w w' | Err _ w' => R w w' end.

Context (R : relation World) `{!PreOrder R}.

Lemma always_ret {A} (a : A) : always R (mret a).
Proof. intros w. simpl. reflexivity. Qed.

Lemma always_ereport {A} lvl msg : always R (ereport (A := A) lvl msg).
Proof. intros w. simpl. reflexivity. Qed.

Lemma always_gets {A} (f : World → A) : always R (gets f).
Proof. intros w. simpl. reflexivity. Qed.

Lemma always_bind {A B} (m : M A) (f : A → M B) :
  always R m → (∀ a, always R (f a)) → always R (m ≫= f).
Proof.
  intros Hm Hf w. specialize (Hm w). unfold mbind, M_bind.
  destruct (m w) as [a w1|e w1]; [|done]. specialize (Hf a w1).
  destruct (f a w1); by etrans.
Qed.

(** The same when what follows depends on the value returned. *)
Lemma always_bind_dep {A B} (m : M A) (f : A → M B) :
  always R m → (∀ w a w', m w = Ok a w' → always R (f a)) → always R (m ≫= f).
Proof.
  intros Hm Hf w. specialize (Hm w). unfold mbind, M_bind.
  destruct (m w) as [a w1|e w1] eqn:E; [|done]. specialize (Hf w a w1 E w1).
  destruct (f a w1); by etrans.
Qed.

Lemma always_modify (f : World → World) : (∀ w, R w (f w)) → always R (modify f).
Proof. intros H w. apply H. Qed.

Lemma always_ok {A} (m : M A) w a w' : always R m → m w = Ok a w' → R w w'.
Proof. intros H E. specialize (H w). by rewrite E in H. Qed.

Lemma always_err {A} (m : M A) w e w' : always R m → m w = Err e w' → R w w'.
Proof. intros H E. specialize (H w). by rewrite E in H. Qed.

End always.

Create HintDb always.
#[export] Hint Resolve always_ret always_ereport always_gets : always.

(** Proves [always] by going through the computation. *)
Ltac always_step :=
  match goal with
  | |- always _ (@mbind _ _ _ _ _ _) => apply (always_bind _); [|intros ?]
  | |- always _ (match ?x with _ => _ end) => destruct x
  | |- always _ (let '_ := ?x in _) => destruct x
  | |- always _ _ => solve [eauto with always]
  end.
Ltac always_solve := repeat always_step; eauto with always.

(** ** What leaves the server *)

Section sends.
Context {SSL : OpenSSL} {K : Kernel}.

(** Nothing but the state of the network code changes, and the requests that
    were sent are of the given kind. *)
Definition sends (P : NetRequest → Prop) (w w' : World) : Prop :=
  set_net (w_net w) w' = w ∧ ∃ rs, net_requests (w_net w') = net_requests (w_net w) ++ rs ∧ Forall P rs.

#[export] Instance sends_preorder P : PreOrder (sends P).
Proof.
  split.
  - intros w. split; [by destruct w|]. exists []. by rewrite app_nil_r.
  - intros w1 w2 w3 [E1 (rs1 & H1 & F1)] [E2 (rs2 & H2 & F2)]. split.
    + rewrite <-E1, <-E2. by destruct w3.
    + exists (rs1 ++ rs2). rewrite H2, H1, app_assoc. split; [done|]. by apply Forall_app.
Qed.

Lemma always_uninit_sends P n : always (sends P) (uninit n).
Proof. intros w. change (sends P w w). reflexivity. Qed.

End sends.

#[export] Hint Resolve always_uninit_sends : always.

(** ** Which files a computation can change, whatever calls fail *)

Section touches.
Context {SSL : OpenSSL} {K : Kernel}.

(** No file but [p] changes. *)
Definition touches (p : string) (w w' : World) : Prop := ∀ q, q ≠ p → w_fs w' !! q = w_fs w !! q.

#[export] Instance touches_preorder p : PreOrder (touches p).
Proof. split; [by intros w q|]. intros w1 w2 w3 H1 H2 q Hq. by rewrite H2, H1. Qed.

(** No file changes. *)
Definition same_files (w w' : World) : Prop := w_fs w' = w_fs w.

#[export] Instance same_files_preorder : PreOrder same_files.
Proof. split; [done|]. unfold same_files. intros ??? H1 H2. by rewrite H2, H1. Qed.

Lemma same_files_touches {A} p (m : M A) : always same_files m → always (touches p) m.
Proof. intros H w. specialize (H w). destruct (m w); intros q _; by rewrite H. Qed.

Lemma always_open_read p : always same_files (OpenTransientFile p false false).
Proof. intros w. unfold OpenTransientFile. repeat case_match; simplify_eq; reflexivity. Qed.

Lemma always_open p cr tr : always (touches p) (OpenTransientFile p cr tr).
Proof.
  intros w. unfold OpenTransientFile. repeat case_match; simplify_eq; try reflexivity;
    intros q Hq; simpl; by rewrite lookup_insert_ne.
Qed.

Lemma always_pread p n off : always same_files (pg_pread p n off).
Proof. intros w. unfold pg_pread. repeat case_match; simplify_eq; reflexivity. Qed.

Lemma always_pwrite p d off : always (touches p) (pg_pwrite p d off).
Proof.
  intros w. unfold pg_pwrite. repeat case_match; simplify_eq; try reflexivity;
    intros q Hq; simpl; by rewrite lookup_insert_ne.
Qed.

Lemma always_fsync p : always same_files (pg_fsync p).
Proof. intros w. unfold pg_fsync. repeat case_match; simplify_eq; reflexivity. Qed.

Lemma always_lseek p : always same_files (lseek_end p).
Proof. intros w. unfold lseek_end. repeat case_match; simplify_eq; reflexivity. Qed.

Lemma always_access p : always same_files (access_F_OK p).
Proof. done. Qed.

Lemma always_close p : always same_files (CloseTransientFile p).
Proof. done. Qed.

Lemma always_rand n : always same_files (rand_bytes n).
Proof. done. Qed.

Lemma always_uninit n : always same_files (uninit n).
Proof. done. Qed.

Lemma always_xlog r : always same_files (XLogInsert r).
Proof. done. Qed.

Lemma always_acquire_enc m : always same_files (LWLockAcquire_enc m).
Proof. intros w. unfold LWLockAcquire_enc. repeat case_match; simplify_eq; reflexivity. Qed.

Lemma always_release_enc : always same_files LWLockRelease_enc.
Proof. intros w. unfold LWLockRelease_enc. repeat case_match; simplify_eq; reflexivity. Qed.

Lemma always_acquire_pi m : always same_files (LWLockAcquire_pi m).
Proof. intros w. unfold LWLockAcquire_pi. repeat case_match; simplify_eq; reflexivity. Qed.

Lemma always_release_pi : always same_files LWLockRelease_pi.
Proof. intros w. unfold LWLockRelease_pi. repeat case_match; simplify_eq; reflexivity. Qed.

Lemma acquire_pi_ok m w : w_pi_lock w = None → LWLockAcquire_pi m w = Ok tt (set_pi_lock (Some m) w).
Proof. intros E. unfold LWLockAcquire_pi. by rewrite E. Qed.

Lemma release_pi_ok m w : w_pi_lock w = Some m → LWLockRelease_pi w = Ok tt (set_pi_lock None w).
Proof. intros E. unfold LWLockRelease_pi. by rewrite E. Qed.

Lemma always_unlink p b : always (touches p) (durable_unlink p b).
Proof.
  intros w. unfold durable_unlink. repeat case_match; simplify_eq; try reflexivity;
    intros q Hq; simpl; by rewrite lookup_delete_ne.
Qed.

(** A new file [tmp] is written and replaces the file [p]: if this ends with an
    error, [p] is as it was, unless the error was raised after the replacement. *)
Lemma replace_error {A} (prep : M unit) tmp p lvl (log : M A) w e w' :
  always (touches tmp) prep → p ≠ tmp → (∀ w, ∃ a w', log w = Ok a w') →
  (prep;; durable_rename tmp p lvl;; log) w = Err e w' →
  w_fs w' !! p = w_fs w !! p ∨
  ∃ w1 bs n, prep w = Ok tt w1 ∧ w_fs w1 !! tmp = Some bs ∧ w' = renamed tmp p bs w1 ∧
    sys_fault (SysRename tmp p) (w_fs w1) = Some n ∧ 0 <= n.
Proof.
  intros Ht Hp Hlog E. specialize (Ht w). unfold mbind, M_bind in E. destruct (prep w) as [[] w1|e1 w1].
  2: { left. injection E as <- <-. by apply Ht. }
  destruct (durable_rename tmp p lvl w1) as [[] w2|e2 w2] eqn:E2; [destruct (Hlog w2) as (a & w3 & El); congruence|].
  injection E as <- <-. unfold durable_rename in E2.
  destruct (sys_fault _ _) as [n|] eqn:En, (w_fs w1 !! tmp) as [bs|] eqn:Eb; try done;
    injection E2 as _ <-; try (left; by apply Ht).
  destruct (Z.ltb_spec n 0); [left; by apply Ht|]. right. exists w1, bs, n. by split_and!.
Qed.

End touches.

#[export] Hint Resolve always_open_read always_open always_pread always_pwrite always_fsync
  always_lseek always_access always_close always_rand always_uninit always_xlog
  always_acquire_enc always_release_enc always_acquire_pi always_release_pi always_unlink : always.
#[export] Hint Extern 2 (always (touches _) _) =>
  apply same_files_touches; solve [eauto 1 with always nocore] : always.
#[export] Hint Extern 1 (PreOrder _) => typeclasses eauto : always.

(** ** File operations when no call fails *)

Section nofaults.
Context {SSL : OpenSSL} {K : Kernel} {NF : NoFaults K}.

Lemma open_existing p cr w bs :
  w_fs w !! p = Some bs → OpenTransientFile p cr false w = Ok (Fd p) w.
Proof. intros E. unfold OpenTransientFile. by rewrite no_fault, E. Qed.

Lemma open_missing p tr w :
  w_fs w !! p = None → OpenTransientFile p false tr w = Ok (OpenFailed ENOENT) w.
Proof. intros E. unfold OpenTransientFile. by rewrite no_fault, E. Qed.

Lemma open_create p tr w :
  w_fs w !! p = None →
  OpenTransientFile p true tr w = Ok (Fd p) (set_fs (<[p := []]> (w_fs w)) w).
Proof. intros E. unfold OpenTransientFile. by rewrite no_fault, E. Qed.

Lemma open_trunc p w :
  OpenTransientFile p true true w = Ok (Fd p) (set_fs (<[p := []]> (w_fs w)) w).
Proof. unfold OpenTransientFile. rewrite no_fault. by destruct (w_fs w !! p). Qed.

Lemma pread_ok p n off w bs :
  w_fs w !! p = Some bs → 0 <= off →
  pg_pread p n off w = Ok (Some (slice (Z.to_nat off) (Z.to_nat n) bs)) w.
Proof.
  intros E Ho. unfold pg_pread. rewrite no_fault, E. by rewrite (proj2 (Z.ltb_ge _ _)).
Qed.

Lemma pwrite_ok p d off w bs :
  w_fs w !! p = Some bs → 0 <= off →
  pg_pwrite p d off w =
    Ok (Z.of_nat (length d)) (set_fs (<[p := write_at (Z.to_nat off) d bs]> (w_fs w)) w).
Proof.
  intros E Ho. unfold pg_pwrite. rewrite E, no_fault. by rewrite (proj2 (Z.ltb_ge _ _)).
Qed.

Lemma fsync_ok p w : pg_fsync p w = Ok 0 w.
Proof. unfold pg_fsync. by rewrite no_fault. Qed.

Lemma lseek_ok p w bs :
  w_fs w !! p = Some bs → lseek_end p w = Ok (Z.of_nat (length bs)) w.
Proof. intros E. unfold lseek_end. by rewrite E. Qed.

Lemma rename_ok src dst lvl w bs :
  w_fs w !! src = Some bs →
  durable_rename src dst lvl w = Ok tt (set_fs (<[dst := bs]> (delete src (w_fs w))) w).
Proof. intros E. unfold durable_rename. by rewrite no_fault, E. Qed.

Lemma unlink_ok p b w bs :
  w_fs w !! p = Some bs → durable_unlink p b w = Ok tt (set_fs (delete p (w_fs w)) w).
Proof. intros E. unfold durable_unlink. by rewrite no_fault, E. Qed.

End nofaults.
