(* ===== verification/Instances.v ===== *)
(** Concrete instances of the interfaces to OpenSSL and to the operating
    system, on which the functions of the development can be run.

    The "cipher" combines data with one byte derived from key and IV and the
    authentication tag is a polynomial checksum: no security, but all laws of
    [OpenSSLSpec], so that theorems stated for every implementation can be
    applied to a particular one. *)
From S2P Require Import Prelude Types Environ.

(** ** A toy cipher *)

Definition toy_hash (bs : bytes) : Z :=
  fold_left (λ h b, (h * 257 + b2z b + 1) mod 2 ^ 128) bs 0.

(** Combines every byte with the same one. *)
Definition toy_xor (k : byte) (d : bytes) : bytes := (λ b, byte_xor b k) <$> d.

Definition toy_pad (key iv : bytes) : byte := z2b (toy_hash (key ++ iv)).

Definition toy_tag (key iv aad d : bytes) : bytes :=
  le_enc 16 (toy_hash (key ++ iv ++ enc_u64 (Z.of_nat (length aad)) ++ aad ++ d)).

Definition toy_seal (key iv aad d : bytes) : bytes * bytes :=
  (toy_xor (toy_pad key iv) d, toy_tag key iv aad d).

Definition toy_open (key iv aad c t : bytes) : option bytes :=
  let d := toy_xor (toy_pad key iv) c in
  if bool_decide (t = toy_tag key iv aad d) then Some d else None.

Definition toy_page (c : EVP_CIPHER) (e : bool) (key iv d : bytes) : bytes :=
  toy_xor (toy_pad key iv) d.

Definition toy_block (key b : bytes) : bytes := le_enc 16 (toy_hash (key ++ b) * (2 ^ 61 - 1)).

Lemma toy_xor_involutive k d : toy_xor k (toy_xor k d) = d.
Proof.
  unfold toy_xor. rewrite <-list_fmap_compose. rewrite <-(list_fmap_id d) at 2.
  apply list_fmap_ext. intros i b _. simpl. apply byte_xor_involutive.
Qed.

Lemma toy_xor_length k d : length (toy_xor k d) = length d.
Proof. apply length_fmap. Qed.

(** ** Contexts are what the manual says they hold *)

Definition toy_init (ctx : CtxView) (c : option EVP_CIPHER) (key iv : option bytes) (e : Z) : CtxView :=
  let v := match c with
           | Some c => mkCtxView (Some c) true 12 (cv_enc ctx) None None None [] []
           | None => ctx
           end in
  let enc := if e =? -1 then cv_enc v else negb (e =? 0) in
  let key := match key with Some k => Some k | None => cv_key v end in
  let iv := match iv with Some i => Some i | None => cv_iv v end in
  mkCtxView (cv_cipher v) (cv_padding v) (cv_ivlen v) enc key iv (cv_tag v) [] [].

Definition toy_update (v : CtxView) (d : bytes) : CtxView * option bytes :=
  let key := default [] (cv_key v) in
  let iv := default [] (cv_iv v) in
  let v' := mkCtxView (cv_cipher v) (cv_padding v) (cv_ivlen v) (cv_enc v) (cv_key v) (cv_iv v)
              (cv_tag v) (cv_aad v) d in
  match mode_of <$> cv_cipher v with
  | None => (v, None)
  | Some ModeEcb => (v, Some (concat (toy_block key <$> chunks 16 d)))
  | Some ModeGcm =>
      (v', Some (if cv_enc v then fst (toy_seal key iv (cv_aad v) d) else toy_xor (toy_pad key iv) d))
  | Some _ => (v', Some (toy_page EVP_aes_128_cbc (cv_enc v) key iv d))
  end.

Definition toy_final (v : CtxView) : CtxView * option bytes :=
  let key := default [] (cv_key v) in
  let iv := default [] (cv_iv v) in
  match mode_of <$> cv_cipher v with
  | Some ModeGcm =>
      if cv_enc v then (v, Some [])
      else match toy_open key iv (cv_aad v) (cv_data v) (default [] (cv_tag v)) with
           | Some _ => (v, Some [])
           | None => (v, None)
           end
  | _ => (mkCtxView (cv_cipher v) (cv_padding v) (cv_ivlen v) (cv_enc v) (cv_key v) None
            (cv_tag v) [] [], Some [])
  end.

#[global] Instance ToySSL : OpenSSL := {
  EVP_CIPHER_CTX := CtxView;
  EVP_CIPHER_CTX_new := mkCtxView None true 0 false None None None [] [];
  EVP_CipherInit_ex ctx c key iv e := (toy_init ctx c key iv e, true);
  EVP_CIPHER_CTX_set_padding v p :=
    (mkCtxView (cv_cipher v) (negb (p =? 0)) (cv_ivlen v) (cv_enc v) (cv_key v) (cv_iv v) (cv_tag v)
       (cv_aad v) (cv_data v), true);
  EVP_CTRL_GCM_SET_IVLEN v n :=
    (mkCtxView (cv_cipher v) (cv_padding v) n (cv_enc v) (cv_key v) (cv_iv v) (cv_tag v)
       (cv_aad v) (cv_data v), true);
  EVP_CTRL_GCM_SET_TAG v t :=
    (mkCtxView (cv_cipher v) (cv_padding v) (cv_ivlen v) (cv_enc v) (cv_key v) (cv_iv v) (Some t)
       (cv_aad v) (cv_data v), true);
  EVP_CTRL_GCM_GET_TAG v n :=
    Some (snd (toy_seal (default [] (cv_key v)) (default [] (cv_iv v)) (cv_aad v) (cv_data v)));
  EVP_UpdateAAD v aad :=
    (mkCtxView (cv_cipher v) (cv_padding v) (cv_ivlen v) (cv_enc v) (cv_key v) (cv_iv v) (cv_tag v)
       (cv_aad v ++ aad) (cv_data v), true);
  EVP_CipherUpdate := toy_update;
  EVP_CipherFinal_ex := toy_final;
  RAND_bytes n len :=
    if len <? 0 then None else Some (le_enc (Z.to_nat len) ((Z.of_nat n + 3) * 104729 ^ 9));
}.

Lemma toy_open_seal key iv aad d :
  toy_open key iv aad (fst (toy_seal key iv aad d)) (snd (toy_seal key iv aad d)) = Some d.
Proof.
  unfold toy_open, toy_seal. simpl. rewrite toy_xor_involutive. by rewrite bool_decide_true.
Qed.

#[global] Instance ToySpec : OpenSSLSpec ToySSL.
Proof.
  refine {| view := λ v : @EVP_CIPHER_CTX ToySSL, v; aes_block := toy_block; page_crypt := toy_page;
            gcm_seal := toy_seal; gcm_open := toy_open;
            ctr_crypt := λ key iv, toy_page EVP_aes_128_cbc true key iv |}; simpl.
  - by intros c e [->| ->].
  - done.
  - by intros c key iv e _ _ _ [->| ->].
  - intros ctx c key iv e Hc _ _ _ [->| ->]; unfold toy_init; simpl; by rewrite Hc.
  - intros ctx c key iv Hc Hk _ _. unfold toy_init. simpl. by rewrite Hc, Hk.
  - done.
  - done.
  - done.
  - done.
  - intros ctx c key iv d Hc Hm Hp Hk Hi Hd _ _. unfold toy_update. rewrite Hc, Hk, Hi. simpl.
    destruct Hm as [Hm|Hm]; rewrite Hm; eexists _, _, _, _; (split; [done|]);
      unfold toy_final; simpl; rewrite ?Hc; simpl; rewrite Hm;
      (split; [done|]); rewrite app_nil_r; (split; [done|]); by rewrite Hp.
  - intros. apply toy_xor_length.
  - intros. apply toy_xor_involutive.
  - intros ctx c key iv d Hc Hm He Hk Hi _. unfold toy_update. rewrite Hc, Hk, Hi. simpl. rewrite Hm.
    eexists _, _, _, _. split; [done|]. unfold toy_final. simpl. rewrite ?Hc. simpl. rewrite Hm.
    split; [done|]. rewrite app_nil_r. by rewrite He.
  - intros. apply toy_xor_length.
  - intros. apply toy_xor_involutive.
  - intros ctx c key d Hc Hm Hp He Hk _. unfold toy_update. rewrite Hc, Hk. simpl. rewrite Hm. by simpl.
  - done.
  - intros ctx c key iv d Hc Hm He Hk Hi _. unfold toy_update. rewrite Hc, Hk, Hi. simpl. rewrite Hm, He.
    eexists _, _. split; [done|]. unfold toy_final. simpl. rewrite Hm. done.
  - intros ctx c key iv d t Hc Hm He Hk Hi _ Ht. unfold toy_update. rewrite Hc, Hk, Hi. simpl.
    rewrite Hm, He.
    destruct (toy_open key iv (cv_aad ctx) d t) as [out|] eqn:Eo.
    + assert (out = toy_xor (toy_pad key iv) d) as ->.
      { unfold toy_open in Eo. case_bool_decide; by simplify_eq. }
      eexists _, _. split; [done|]. unfold toy_final. simpl. rewrite Hm, Ht. simpl. by rewrite Eo.
    + eexists _, _, _. split; [done|]. split; [apply toy_xor_length|].
      unfold toy_final. simpl. rewrite Hm, Ht. simpl. by rewrite Eo.
  - intros key iv aad d. split; [apply toy_xor_length|done].
  - intros key iv aad d t out. unfold toy_open. case_bool_decide; intros; simplify_eq.
    apply toy_xor_length.
  - apply toy_open_seal.
  - intros n len bs. destruct (Z.ltb_spec len 0); [done|]. intros [= <-].
    rewrite le_enc_length. lia.
Defined.

#[global] Instance ToyRand : RandWorks ToySSL.
Proof. intros n len Hl. simpl. rewrite (proj2 (Z.ltb_ge _ _)) by done. eauto. Defined.

(** ** A machine on which everything works *)

#[global] Instance ToyKernel : Kernel := {
  sys_fault _ _ := None;
  data_sync_retry := false;
  junk _ _ n := replicate n x55;
}.

#[global] Instance ToyNoFaults : NoFaults ToyKernel.
Proof. done. Defined.

(** ** An empty server *)

Definition ctx0 : AesCtxCache := mkAesCtxCache EVP_CIPHER_CTX_new (zeros 64) 0 (-1).

Definition range0 : WalEncryptionRange :=
  mkWalRange WAL_ENCRYPTION_RANGE_INVALID (mkInternalKey 0 0 (zeros 16) (zeros 64))
    (mkWalLocation 0 0) (mkWalLocation 0 0).

Definition session0 : Session := mkSession 16 CIPHER_AES_128 CIPHER_AES_128_XTS true true 5 true false
  false false "heap".

Definition world0 : World := {|
  w_fs := ∅; w_rand := 0; w_enc_lock := None; w_pi_lock := None; w_xlog := [];
  w_ctx_cbc_128 := ctx0; w_ctx_cbc_256 := ctx0; w_ctx_xts_128 := ctx0; w_ctx_xts_256 := ctx0;
  w_pk_cache := ∅; w_wal := mkWalCacheState [] false false;
  w_xsmgr := mkXLogSmgrState range0 None 0 0; w_session := session0;
  w_smgr := mkSmgrState ∅ None ∅ [] ∅; w_ddl := mkDdlState 0 [] 0 700 [];
  w_tempfile := mkTempFileState false (zeros 32) (zeros 16) (zeros 16);
  w_net := mkNetState None [];
|}.

(** A principal key for a database. *)
Definition pk_example (db : Z) (fill : byte) : TDEPrincipalKey :=
  mkPrincipalKey (mkPKInfo db 1 (mkTimeval 1700000000 5) (char_array 256 [x6b; x31]))
    (replicate 32 fill) 16.
