(* ===== verification/Ciphers.v ===== *)
(** AES primitives and the cipher registry.

    Models encryption/enc_aes.c (the OpenSSL contexts shared by all relations,
    the key cache of [aes_ctx_prepare], CBC and XTS pages, GCM, and the
    CTR key stream built from ECB) and encryption/cipher_provider.c (the table
    of cipher suites and its three look-ups). *)
From S2P Require Import Prelude Types Environ Instances.

Definition EVP_MAX_KEY_LENGTH : Z := 64.

(** The four static contexts [ctx_cbc_128], [ctx_cbc_256], [ctx_xts_128] and
    [ctx_xts_256]. *)
Inductive CtxName := ctx_cbc_128 | ctx_cbc_256 | ctx_xts_128 | ctx_xts_256.

#[export] Instance CtxName_eq_dec : EqDecision CtxName.
Proof. solve_decision. Defined.

Section ciphers.
Context {SSL : OpenSSL}.

(** ** enc_aes.c: contexts *)

Definition ctx_cipher (n : CtxName) : EVP_CIPHER :=
  match n with
  | ctx_cbc_128 => EVP_aes_128_cbc
  | ctx_cbc_256 => EVP_aes_256_cbc
  | ctx_xts_128 => EVP_aes_128_xts
  | ctx_xts_256 => EVP_aes_256_xts
  end.

Definition get_cc (n : CtxName) (w : World) : AesCtxCache :=
  match n with
  | ctx_cbc_128 => w_ctx_cbc_128 w
  | ctx_cbc_256 => w_ctx_cbc_256 w
  | ctx_xts_128 => w_ctx_xts_128 w
  | ctx_xts_256 => w_ctx_xts_256 w
  end.

Definition put_cc (n : CtxName) (c : AesCtxCache) : World → World :=
  match n with
  | ctx_cbc_128 => set_ctx_cbc_128 c
  | ctx_cbc_256 => set_ctx_cbc_256 c
  | ctx_xts_128 => set_ctx_xts_128 c
  | ctx_xts_256 => set_ctx_xts_256 c
  end.

Definition AesCbcInitCtx (cipher : EVP_CIPHER) : M EVP_CIPHER_CTX :=
  let '(ctx, ok) := EVP_CipherInit_ex EVP_CIPHER_CTX_new (Some cipher) None None 1 in
  if ok then mret (fst (EVP_CIPHER_CTX_set_padding ctx 0))
  else ereport ERROR "EVP_CipherInit_ex failed".

(** [ctx_<n>.ctx = AesCbcInitCtx (...); ctx_<n>.enc = -1]: the key buffer and
    its length, zero in the static structures, are not assigned. *)
Definition init_cc (n : CtxName) : M unit :=
  ctx ← AesCbcInitCtx (ctx_cipher n);
  modify (λ w, put_cc n (mkAesCtxCache ctx (cc_key (get_cc n w)) (cc_key_len (get_cc n w)) (-1)) w).

Definition AesInit : M unit :=
  init_cc ctx_cbc_128;; init_cc ctx_cbc_256;; init_cc ctx_xts_128;; init_cc ctx_xts_256.

(** [memcmp (a, b, n) == 0] *)
Definition memcmp_eq (a b : bytes) (n : Z) : bool :=
  bool_decide (take (Z.to_nat n) a = take (Z.to_nat n) b).

(** OpenSSL reads as many bytes from the key pointer as the cipher's keys
    have. *)
Definition evp_key (c : EVP_CIPHER) (key : bytes) : bytes := take (evp_key_length c) key.

Definition aes_ctx_prepare (n : CtxName) (enc : Z) (key : bytes) (key_len : Z) (iv : bytes)
  : M unit :=
  cc ← gets (get_cc n);
  if (key_len <? 0) || (EVP_MAX_KEY_LENGTH <? key_len) then
    ereport ERROR "unsupported key length for cached cipher context"
  else if (cc_key_len cc =? key_len) && (cc_enc cc =? enc) && memcmp_eq (cc_key cc) key key_len then
    let '(ctx, ok) := EVP_CipherInit_ex (cc_ctx cc) None None (Some iv) (-1) in
    modify (put_cc n (mkAesCtxCache ctx (cc_key cc) (cc_key_len cc) (cc_enc cc)));;
    if ok : bool then mret tt else ereport ERROR "EVP_CipherInit_ex failed"
  else
    let '(ctx, ok) :=
      EVP_CipherInit_ex (cc_ctx cc) None (Some (evp_key (ctx_cipher n) key)) (Some iv) enc in
    if ok : bool then
      modify (put_cc n
        (mkAesCtxCache ctx (take (Z.to_nat key_len) key ++ drop (Z.to_nat key_len) (cc_key cc))
           key_len enc))
    else
      modify (put_cc n (mkAesCtxCache ctx (cc_key cc) (cc_key_len cc) (cc_enc cc)));;
      ereport ERROR "EVP_CipherInit_ex failed".

(** [EVP_CipherUpdate] and [EVP_CipherFinal_ex] on a static context. *)
Definition run_ctx (n : CtxName) (d : bytes) : M bytes :=
  cc ← gets (get_cc n);
  let '(ctx1, out1) := EVP_CipherUpdate (cc_ctx cc) d in
  modify (put_cc n (mkAesCtxCache ctx1 (cc_key cc) (cc_key_len cc) (cc_enc cc)));;
  match out1 with
  | None => ereport ERROR "EVP_CipherUpdate failed"
  | Some o1 =>
      let '(ctx2, out2) := EVP_CipherFinal_ex ctx1 in
      modify (put_cc n (mkAesCtxCache ctx2 (cc_key cc) (cc_key_len cc) (cc_enc cc)));;
      match out2 with
      | None => ereport ERROR "EVP_CipherFinal_ex failed"
      | Some o2 => mret (o1 ++ o2)
      end
  end.

Definition AesRunCbc (enc : Z) (key : bytes) (key_len : Z) (iv d : bytes) : M bytes :=
  let n := if key_len =? 32 then ctx_cbc_256 else ctx_cbc_128 in
  aes_ctx_prepare n enc key key_len iv;; run_ctx n d.

Definition AesRunXts (enc : Z) (key : bytes) (key_len : Z) (iv d : bytes) : M bytes :=
  let n := if key_len =? 64 then ctx_xts_256 else ctx_xts_128 in
  aes_ctx_prepare n enc key key_len iv;; run_ctx n d.

Definition AesXtsEncrypt := AesRunXts 1.
Definition AesXtsDecrypt := AesRunXts 0.
Definition AesEncrypt := AesRunCbc 1.
Definition AesDecrypt := AesRunCbc 0.

(** ** enc_aes.c: GCM *)

(** Raises an error when an OpenSSL call returned 0. *)
Definition check_ssl {A} (msg : string) (r : A * bool) : M A :=
  if snd r then mret (fst r) else ereport ERROR msg.

Definition gcm_cipher (key_len : Z) : EVP_CIPHER :=
  if key_len =? 32 then EVP_aes_256_gcm else EVP_aes_128_gcm.

(** Returns the ciphertext and the tag. *)
Definition AesGcmEncrypt (key : bytes) (key_len : Z) (iv : bytes) (iv_len : Z) (aad inp : bytes)
  (tag_len : Z) : M (bytes * bytes) :=
  let cipher := gcm_cipher key_len in
  ctx ← check_ssl "EVP_EncryptInit_ex failed"
          (EVP_CipherInit_ex EVP_CIPHER_CTX_new (Some cipher) None None 1);
  ctx ← check_ssl "EVP_CIPHER_CTX_set_padding failed" (EVP_CIPHER_CTX_set_padding ctx 0);
  ctx ← check_ssl "EVP_CTRL_GCM_SET_IVLEN failed" (EVP_CTRL_GCM_SET_IVLEN ctx iv_len);
  ctx ← check_ssl "EVP_EncryptInit_ex failed"
          (EVP_CipherInit_ex ctx None (Some (evp_key cipher key)) (Some iv) 1);
  ctx ← check_ssl "EVP_CipherUpdate failed" (EVP_UpdateAAD ctx aad);
  let '(ctx, out1) := EVP_CipherUpdate ctx inp in
  match out1 with
  | None => ereport ERROR "EVP_CipherUpdate failed"
  | Some o1 =>
      let '(ctx, out2) := EVP_CipherFinal_ex ctx in
      match out2 with
      | None => ereport ERROR "EVP_CipherFinal_ex failed"
      | Some o2 =>
          match EVP_CTRL_GCM_GET_TAG ctx tag_len with
          | None => ereport ERROR "EVP_CTRL_GCM_GET_TAG failed"
          | Some tag => mret (o1 ++ o2, tag)
          end
      end
  end.

(** [None] is the [false] the code returns when the tag does not match. *)
Definition AesGcmDecrypt (key : bytes) (key_len : Z) (iv : bytes) (iv_len : Z) (aad inp tag : bytes)
  : M (option bytes) :=
  let cipher := gcm_cipher key_len in
  ctx ← check_ssl "EVP_EncryptInit_ex failed"
          (EVP_CipherInit_ex EVP_CIPHER_CTX_new (Some cipher) None None 0);
  ctx ← check_ssl "EVP_CIPHER_CTX_set_padding failed" (EVP_CIPHER_CTX_set_padding ctx 0);
  ctx ← check_ssl "EVP_CTRL_GCM_SET_IVLEN failed" (EVP_CTRL_GCM_SET_IVLEN ctx iv_len);
  ctx ← check_ssl "EVP_EncryptInit_ex failed"
          (EVP_CipherInit_ex ctx None (Some (evp_key cipher key)) (Some iv) 0);
  ctx ← check_ssl "EVP_CTRL_GCM_SET_TAG failed" (EVP_CTRL_GCM_SET_TAG ctx tag);
  ctx ← check_ssl "EVP_CipherUpdate failed" (EVP_UpdateAAD ctx aad);
  let '(ctx, out1) := EVP_CipherUpdate ctx inp in
  match out1 with
  | None => ereport ERROR "EVP_CipherUpdate failed"
  | Some o1 =>
      let '(ctx, out2) := EVP_CipherFinal_ex ctx in
      match out2 with
      | None => mret None
      | Some o2 => mret (Some (o1 ++ o2))
      end
  end.

(** ** enc_aes.c: the CTR key stream *)

(** The context is created with the key when the caller's pointer is NULL;
    later calls use the context as it is and do not look at the key again.
    Returns the output and the caller's pointer. *)
Definition AesEcbEncrypt (ctxPtr : option EVP_CIPHER_CTX) (key : bytes) (key_len : Z) (inp : bytes)
  : M (bytes * option EVP_CIPHER_CTX) :=
  let cipher := if key_len =? 32 then EVP_aes_256_ecb else EVP_aes_128_ecb in
  ctx ← match ctxPtr with
        | None =>
            ctx ← check_ssl "EVP_CipherInit_ex failed"
                    (EVP_CipherInit_ex EVP_CIPHER_CTX_new (Some cipher)
                       (Some (evp_key cipher key)) None 1);
            mret (fst (EVP_CIPHER_CTX_set_padding ctx 0))
        | Some ctx => mret ctx
        end;
  let '(ctx', out) := EVP_CipherUpdate ctx inp in
  match out with
  | None => ereport ERROR "EVP_CipherUpdate failed"
  | Some o => mret (o, Some ctx')
  end.

(** The counter blocks from [j] up to [blockNumber2]: the first 12 bytes of
    the prefix and the 4-byte counter, in the byte order of the machine. The
    counter is an [int32], compared with the [uint64] bound after conversion. *)
Fixpoint ctr_blocks (fuel : nat) (iv_prefix : bytes) (j blockNumber2 : Z) : bytes :=
  match fuel with
  | O => []
  | S fuel =>
      if u64 j <? blockNumber2 then
        (take 12 iv_prefix ++ enc_u32 j) ++ ctr_blocks fuel iv_prefix (i32 (j + 1)) blockNumber2
      else []
  end.

Definition AesCtrEncryptedZeroBlocks (ctxPtr : option EVP_CIPHER_CTX) (key : bytes) (key_len : Z)
  (iv_prefix : bytes) (blockNumber1 blockNumber2 : Z) : M (bytes * option EVP_CIPHER_CTX) :=
  AesEcbEncrypt ctxPtr key key_len
    (ctr_blocks (Z.to_nat (blockNumber2 - blockNumber1)) iv_prefix (i32 blockNumber1) blockNumber2).

(** ** cipher_provider.c *)

(** Function pointers of a suite, by name. *)
Inductive TdeBlockCryptFn := fn_AesEncrypt | fn_AesDecrypt | fn_AesXtsEncrypt | fn_AesXtsDecrypt.
Inductive TdeKeystreamFn := fn_AesCtrEncryptedZeroBlocks.

Definition call_block_crypt (f : TdeBlockCryptFn) : bytes → Z → bytes → bytes → M bytes :=
  match f with
  | fn_AesEncrypt => AesEncrypt
  | fn_AesDecrypt => AesDecrypt
  | fn_AesXtsEncrypt => AesXtsEncrypt
  | fn_AesXtsDecrypt => AesXtsDecrypt
  end.

Definition call_keystream (f : TdeKeystreamFn) :=
  match f with
  | fn_AesCtrEncryptedZeroBlocks => AesCtrEncryptedZeroBlocks
  end.

Record TdeCipher := mkTdeCipher {
  tc_id : Z;
  tc_name : string;
  tc_key_len : Z;
  tc_encrypt_block : TdeBlockCryptFn;
  tc_decrypt_block : TdeBlockCryptFn;
  tc_keystream : option TdeKeystreamFn;
}.

(** The static table and its [initialized] flag. *)
Record CipherRegistry := mkCipherRegistry {
  tde_ciphers : list TdeCipher;
  tde_cipher_registry_initialized : bool;
}.

Definition register_cipher (c : TdeCipher) (r : CipherRegistry) : CipherRegistry :=
  mkCipherRegistry (tde_ciphers r ++ [c]) (tde_cipher_registry_initialized r).

Definition TdeCipherRegistryInit (r : CipherRegistry) : CipherRegistry :=
  if tde_cipher_registry_initialized r then r
  else
    let r := register_cipher (mkTdeCipher CIPHER_AES_128 "aes-128" 16 fn_AesEncrypt fn_AesDecrypt
               (Some fn_AesCtrEncryptedZeroBlocks)) r in
    let r := register_cipher (mkTdeCipher CIPHER_AES_256 "aes-256" 32 fn_AesEncrypt fn_AesDecrypt
               (Some fn_AesCtrEncryptedZeroBlocks)) r in
    let r := register_cipher (mkTdeCipher CIPHER_AES_128_XTS "aes-128-xts" 32 fn_AesXtsEncrypt
               fn_AesXtsDecrypt None) r in
    let r := register_cipher (mkTdeCipher CIPHER_AES_256_XTS "aes-256-xts" 64 fn_AesXtsEncrypt
               fn_AesXtsDecrypt None) r in
    mkCipherRegistry (tde_ciphers r) true.

(** The table as [AesInit] leaves it when the library is loaded. *)
Definition tde_registry : CipherRegistry := TdeCipherRegistryInit (mkCipherRegistry [] false).

Definition TdeCipherByName (r : CipherRegistry) (name : string) : option TdeCipher :=
  find (λ c, String.eqb (tc_name c) name) (tde_ciphers r).

Definition TdeCipherByKeyLen (r : CipherRegistry) (key_len : Z) : M TdeCipher :=
  match find (λ c, (tc_key_len c =? u32 key_len) && bool_decide (is_Some (tc_keystream c)))
          (tde_ciphers r) with
  | Some c => mret c
  | None => ereport ERROR "no open_pg_tde keystream cipher registered for key length"
  end.

Definition TdeCipherById (r : CipherRegistry) (id : Z) : M TdeCipher :=
  match find (λ c, tc_id c =? id) (tde_ciphers r) with
  | Some c => mret c
  | None => ereport ERROR "no open_pg_tde cipher registered for id"
  end.

End ciphers.

(** ** The context cache: same output as loading the key every time *)

Section ctx_cache.
Context {SSL : OpenSSL} {Spec : OpenSSLSpec SSL}.

Definition ctx_key_len (n : CtxName) : Z := Z.of_nat (evp_key_length (ctx_cipher n)).

(** The context has its cipher and no padding, and when a key of the cipher's
    length was loaded, it is the recorded key in the recorded direction. *)
Definition cc_ok (n : CtxName) (cc : AesCtxCache) : Prop :=
  cv_cipher (view (cc_ctx cc)) = Some (ctx_cipher n) ∧
  cv_padding (view (cc_ctx cc)) = false ∧
  length (cc_key cc) = 64%nat ∧
  (cc_enc cc = 0 ∨ cc_enc cc = 1 → cc_key_len cc = ctx_key_len n →
   cv_key (view (cc_ctx cc)) = Some (evp_key (ctx_cipher n) (cc_key cc)) ∧
   cv_enc (view (cc_ctx cc)) = (cc_enc cc =? 1)).

Definition ctxs_ok (w : World) : Prop := ∀ n, cc_ok n (get_cc n w).

Lemma get_put_cc n n' c w :
  get_cc n' (put_cc n c w) = if decide (n = n') then c else get_cc n' w.
Proof. by destruct n, n'. Qed.

Lemma put_put_cc n c c' w : put_cc n c' (put_cc n c w) = put_cc n c' w.
Proof. by destruct n. Qed.

Lemma ctxs_ok_put n c w : ctxs_ok w → cc_ok n c → ctxs_ok (put_cc n c w).
Proof. intros H Hc n'. rewrite get_put_cc. by case_decide; subst. Qed.

Lemma ctx_mode n : mode_of (ctx_cipher n) = ModeCbc ∨ mode_of (ctx_cipher n) = ModeXts.
Proof. destruct n; auto. Qed.

Lemma ctx_mode_not_gcm n : mode_of (ctx_cipher n) ≠ ModeGcm.
Proof. by destruct n. Qed.

Lemma ctx_key_len_range n : 16 <= ctx_key_len n <= 64.
Proof. destruct n; unfold ctx_key_len; simpl; lia. Qed.

Lemma evp_key_length_ok n key :
  ctx_key_len n <= Z.of_nat (length key) →
  length (evp_key (ctx_cipher n) key) = evp_key_length (ctx_cipher n).
Proof. unfold ctx_key_len, evp_key. intros H. rewrite length_take. lia. Qed.

(** The view a context must have before a page is passed through it. *)
Definition ctx_ready (n : CtxName) (enc : Z) (key iv : bytes) (ctx : EVP_CIPHER_CTX) : Prop :=
  cv_cipher (view ctx) = Some (ctx_cipher n) ∧ cv_padding (view ctx) = false ∧
  cv_enc (view ctx) = (enc =? 1) ∧ cv_key (view ctx) = Some (evp_key (ctx_cipher n) key) ∧
  cv_iv (view ctx) = Some iv ∧ cv_data (view ctx) = [].

Lemma aes_ctx_prepare_ready n enc key iv w :
  ctxs_ok w → (enc = 0 ∨ enc = 1) → ctx_key_len n <= Z.of_nat (length key) →
  length iv = 16%nat →
  ∃ cc, aes_ctx_prepare n enc key (ctx_key_len n) iv w = Ok tt (put_cc n cc w) ∧
        ctx_ready n enc key iv (cc_ctx cc) ∧ length (cc_key cc) = 64%nat ∧
        cc_key_len cc = ctx_key_len n ∧ cc_enc cc = enc ∧
        evp_key (ctx_cipher n) (cc_key cc) = evp_key (ctx_cipher n) key.
Proof.
  intros Hok He Hkl Hiv. destruct (Hok n) as (Hc & Hp & Hl & Hk).
  pose proof (ctx_key_len_range n) as Hr. unfold aes_ctx_prepare.
  mstep. rewrite (proj2 (Z.ltb_ge _ _)), (proj2 (Z.ltb_ge EVP_MAX_KEY_LENGTH _))
    by (unfold EVP_MAX_KEY_LENGTH; lia). simpl orb. cbv iota.
  set (cc := get_cc n w) in *.
  destruct (_ && _ && _) eqn:Ehit.
  - apply andb_true_iff in Ehit as [[E1%Z.eqb_eq E2%Z.eqb_eq]%andb_true_iff E3].
    apply bool_decide_eq_true in E3. unfold ctx_key_len in E3. rewrite Nat2Z.id in E3.
    destruct Hk as [Hk1 Hk2]; [by rewrite E2|done|].
    destruct (init_iv (cc_ctx cc) _ _ iv Hc Hk1 (ctx_mode_not_gcm n) Hiv) as [I1 I2].
    destruct (EVP_CipherInit_ex _ _ _ _ _) as [ctx ok] eqn:EI. simpl in I1, I2. subst ok.
    eexists. split; [done|]. unfold ctx_ready. simpl. rewrite I2. simpl.
    unfold evp_key in *. rewrite E3 in *. rewrite Hk2, E2. split_and!; done.
  - edestruct (init_key (cc_ctx cc) (ctx_cipher n) (evp_key (ctx_cipher n) key) iv enc)
      as [I1 I2]; [done|by apply evp_key_length_ok|intros Hg; by destruct (ctx_mode_not_gcm n)
                  |done|done|].
    destruct (EVP_CipherInit_ex _ _ _ _ _) as [ctx ok] eqn:EI. simpl in I1, I2. subst ok.
    eexists. split; [done|]. unfold ctx_ready. simpl. rewrite I2. simpl.
    unfold ctx_key_len in *. rewrite Nat2Z.id. split_and!; try done.
    + rewrite length_app, length_take, length_drop, Hl. lia.
    + unfold evp_key. rewrite take_app_le, take_take, Nat.min_id; [done|].
      rewrite length_take. lia.
Qed.

Lemma run_ctx_spec n enc key iv d w :
  ctx_ready n enc key iv (cc_ctx (get_cc n w)) →
  (16 ≤ length d)%nat → (length d mod 16 = 0)%nat →
  ∃ ctx, run_ctx n d w =
           Ok (page_crypt (ctx_cipher n) (enc =? 1) (evp_key (ctx_cipher n) key) iv d)
              (put_cc n (mkAesCtxCache ctx (cc_key (get_cc n w)) (cc_key_len (get_cc n w))
                           (cc_enc (get_cc n w))) w) ∧
         cv_cipher (view ctx) = Some (ctx_cipher n) ∧ cv_padding (view ctx) = false ∧
         cv_enc (view ctx) = (enc =? 1) ∧ cv_key (view ctx) = Some (evp_key (ctx_cipher n) key).
Proof.
  intros (Hc & Hp & He & Hk & Hi & Hd) Hl Hm.
  edestruct (page_update _ _ _ _ d Hc (ctx_mode n) Hp Hk Hi Hd Hl) as
    (ctx1 & out1 & ctx2 & out2 & E1 & E2 & Eout & Ev); [done|].
  exists ctx2. rewrite Ev. simpl. split; [|by rewrite He].
  unfold run_ctx. mstep. rewrite E1. mstep. rewrite E2. mstep.
  unfold mret, M_ret. rewrite put_put_cc. by rewrite Eout, He.
Qed.

(** One page through a cached context: the result is the cipher of the page
    under the given key, whatever was in the context before. *)
Lemma prepare_run_spec n enc key iv d w :
  ctxs_ok w → (enc = 0 ∨ enc = 1) → ctx_key_len n <= Z.of_nat (length key) →
  length iv = 16%nat → (16 ≤ length d)%nat → (length d mod 16 = 0)%nat →
  ∃ cc, (aes_ctx_prepare n enc key (ctx_key_len n) iv;; run_ctx n d) w =
          Ok (page_crypt (ctx_cipher n) (enc =? 1) (evp_key (ctx_cipher n) key) iv d)
             (put_cc n cc w) ∧
        ctxs_ok (put_cc n cc w).
Proof.
  intros Hok He Hkl Hiv Hl Hm.
  destruct (aes_ctx_prepare_ready n enc key iv w) as (cc & E & Hr & Hlk & Hkk & Hen & Hkey);
    [done..|].
  erewrite bind_ok by exact E.
  destruct (run_ctx_spec n enc key iv d (put_cc n cc w)) as (ctx & E2 & H1 & H2 & H3 & H4).
  { by rewrite get_put_cc, decide_True. }
  { done. } { done. }
  rewrite E2, put_put_cc. rewrite get_put_cc, decide_True by done.
  eexists. split; [done|]. apply ctxs_ok_put; [done|].
  split_and!; simpl; try done. intros _ _. by rewrite Hkey, H4, H3, Hen.
Qed.

(** The key buffers have their size. *)
Definition bufs_ok (w : World) : Prop := ∀ n, length (cc_key (get_cc n w)) = 64%nat.

Lemma ctxs_bufs_ok w : ctxs_ok w → bufs_ok w.
Proof. intros H n. by destruct (H n) as (_ & _ & ? & _). Qed.

Lemma init_cc_ok n w :
  bufs_ok w → ∃ cc, init_cc n w = Ok tt (put_cc n cc w) ∧ cc_ok n cc ∧ bufs_ok (put_cc n cc w).
Proof.
  intros Hb. unfold init_cc, AesCbcInitCtx.
  destruct (init_cipher (ctx_cipher n) 1 ltac:(by right)) as [I1 I2].
  destruct (EVP_CipherInit_ex _ _ _ _ _) as [ctx ok]. simpl in *. subst ok.
  destruct (set_padding_off ctx) as [_ P2].
  eexists. split; [done|]. unfold cc_ok. simpl. rewrite P2, I2. simpl.
  split; [split_and!; try done; intros []; lia|].
  intros n'. rewrite get_put_cc. case_decide; [apply Hb|done].
Qed.

Lemma AesInit_ok w : bufs_ok w → ∃ w', AesInit w = Ok tt w' ∧ ctxs_ok w'.
Proof.
  intros B0. unfold AesInit.
  destruct (init_cc_ok ctx_cbc_128 w B0) as (c1 & E1 & H1 & B1). erewrite bind_ok by exact E1.
  destruct (init_cc_ok ctx_cbc_256 _ B1) as (c2 & E2 & H2 & B2). erewrite bind_ok by exact E2.
  destruct (init_cc_ok ctx_xts_128 _ B2) as (c3 & E3 & H3 & B3). erewrite bind_ok by exact E3.
  destruct (init_cc_ok ctx_xts_256 _ B3) as (c4 & E4 & H4 & B4).
  eexists. split; [exact E4|]. intros []; done.
Qed.

(** ** GCM *)

Definition gcm_key_len_ok (key : bytes) (key_len : Z) : Prop :=
  (key_len = 16 ∨ key_len = 32) ∧ key_len <= Z.of_nat (length key).

Lemma gcm_evp_key key key_len :
  gcm_key_len_ok key key_len →
  evp_key (gcm_cipher key_len) key = take (Z.to_nat key_len) key ∧
  length (take (Z.to_nat key_len) key) = evp_key_length (gcm_cipher key_len).
Proof.
  unfold gcm_key_len_ok, gcm_cipher, evp_key.
  intros [[->| ->] H]; simpl; rewrite length_take; split; try done; lia.
Qed.

Lemma gcm_cipher_mode key_len : mode_of (gcm_cipher key_len) = ModeGcm.
Proof. unfold gcm_cipher. by case_match. Qed.

Lemma check_ssl_ok {A} msg (r : A * bool) w : snd r = true → check_ssl msg r w = Ok (fst r) w.
Proof. intros E. unfold check_ssl. by rewrite E. Qed.

Lemma AesGcmEncrypt_ok key key_len iv aad inp w :
  gcm_key_len_ok key key_len → length iv = 16%nat →
  AesGcmEncrypt key key_len iv 16 aad inp 16 w =
    Ok (gcm_seal (take (Z.to_nat key_len) key) iv aad inp) w.
Proof.
  intros Hk Hiv. destruct (gcm_evp_key _ _ Hk) as [Ek Elen].
  pose proof (gcm_cipher_mode key_len) as Hm. unfold AesGcmEncrypt.
  destruct (init_cipher (gcm_cipher key_len) 1 ltac:(by right)) as [I1 V1].
  rewrite (bind_ok _ _ _ _ _ (check_ssl_ok _ _ w I1)).
  set (c1 := fst (EVP_CipherInit_ex _ _ _ _ _)) in *.
  destruct (set_padding_off c1) as [I2 V2]. rewrite V1 in V2. simpl in V2.
  rewrite (bind_ok _ _ _ _ _ (check_ssl_ok _ _ w I2)).
  set (c2 := fst (EVP_CIPHER_CTX_set_padding _ _)) in *.
  destruct (set_ivlen c2 (gcm_cipher key_len) 16) as [I3 V3]; [by rewrite V2|done|lia|].
  rewrite V2 in V3. simpl in V3.
  rewrite (bind_ok _ _ _ _ _ (check_ssl_ok _ _ w I3)).
  set (c3 := fst (EVP_CTRL_GCM_SET_IVLEN _ _)) in *.
  rewrite Ek.
  destruct (init_key c3 (gcm_cipher key_len) (take (Z.to_nat key_len) key) iv 1) as [I4 V4];
    [by rewrite V3|done|by rewrite V3; simpl; intros; lia|done|by right|].
  rewrite V3 in V4. simpl in V4.
  rewrite (bind_ok _ _ _ _ _ (check_ssl_ok _ _ w I4)).
  set (c4 := fst (EVP_CipherInit_ex c3 _ _ _ _)) in *.
  destruct (update_aad c4 (gcm_cipher key_len) (take (Z.to_nat key_len) key) iv aad) as [I5 V5];
    try (by rewrite V4); [done|].
  rewrite V4 in V5. simpl in V5.
  rewrite (bind_ok _ _ _ _ _ (check_ssl_ok _ _ w I5)).
  set (c5 := fst (EVP_UpdateAAD _ _)) in *.
  edestruct (gcm_enc_update c5 (gcm_cipher key_len) (take (Z.to_nat key_len) key) iv inp)
    as (c6 & c7 & E6 & E7 & E8); try (by rewrite V5); [done|].
  rewrite V5 in E6, E8. simpl in E6, E8. rewrite E6, E7, E8.
  rewrite app_nil_r. unfold mret, M_ret. f_equal. by destruct (gcm_seal _ _ _ _).
Qed.

Lemma AesGcmDecrypt_ok key key_len iv aad inp tag w :
  gcm_key_len_ok key key_len → length iv = 16%nat → length tag = 16%nat →
  AesGcmDecrypt key key_len iv 16 aad inp tag w =
    Ok (gcm_open (take (Z.to_nat key_len) key) iv aad inp tag) w.
Proof.
  intros Hk Hiv Ht. destruct (gcm_evp_key _ _ Hk) as [Ek Elen].
  pose proof (gcm_cipher_mode key_len) as Hm. unfold AesGcmDecrypt.
  destruct (init_cipher (gcm_cipher key_len) 0 ltac:(by left)) as [I1 V1].
  rewrite (bind_ok _ _ _ _ _ (check_ssl_ok _ _ w I1)).
  set (c1 := fst (EVP_CipherInit_ex _ _ _ _ _)) in *.
  destruct (set_padding_off c1) as [I2 V2]. rewrite V1 in V2. simpl in V2.
  rewrite (bind_ok _ _ _ _ _ (check_ssl_ok _ _ w I2)).
  set (c2 := fst (EVP_CIPHER_CTX_set_padding _ _)) in *.
  destruct (set_ivlen c2 (gcm_cipher key_len) 16) as [I3 V3]; [by rewrite V2|done|lia|].
  rewrite V2 in V3. simpl in V3.
  rewrite (bind_ok _ _ _ _ _ (check_ssl_ok _ _ w I3)).
  set (c3 := fst (EVP_CTRL_GCM_SET_IVLEN _ _)) in *.
  rewrite Ek.
  destruct (init_key c3 (gcm_cipher key_len) (take (Z.to_nat key_len) key) iv 0) as [I4 V4];
    [by rewrite V3|done|by rewrite V3; simpl; intros; lia|done|by left|].
  rewrite V3 in V4. simpl in V4.
  rewrite (bind_ok _ _ _ _ _ (check_ssl_ok _ _ w I4)).
  set (c4 := fst (EVP_CipherInit_ex c3 _ _ _ _)) in *.
  destruct (set_tag c4 (gcm_cipher key_len) tag) as [I5 V5]; try (by rewrite V4); [done..|].
  rewrite V4 in V5. simpl in V5.
  rewrite (bind_ok _ _ _ _ _ (check_ssl_ok _ _ w I5)).
  set (c5 := fst (EVP_CTRL_GCM_SET_TAG _ _)) in *.
  destruct (update_aad c5 (gcm_cipher key_len) (take (Z.to_nat key_len) key) iv aad) as [I6 V6];
    try (by rewrite V5); [done|].
  rewrite V5 in V6. simpl in V6.
  rewrite (bind_ok _ _ _ _ _ (check_ssl_ok _ _ w I6)).
  set (c6 := fst (EVP_UpdateAAD _ _)) in *.
  pose proof (gcm_dec_update c6 (gcm_cipher key_len) (take (Z.to_nat key_len) key) iv inp tag) as L.
  rewrite V6 in L. simpl in L.
  specialize (L eq_refl Hm eq_refl eq_refl eq_refl eq_refl eq_refl).
  destruct (gcm_open _ _ _ _ _) as [out|].
  - destruct L as (c7 & c8 & E7 & E8). rewrite E7, E8. by rewrite app_nil_r.
  - destruct L as (c7 & out & c8 & E7 & _ & E8). by rewrite E7, E8.
Qed.

(** ** The registered suites *)

(** The static context a suite's functions run on. *)
Definition suite_ctx (c : TdeCipher) : CtxName :=
  match tc_encrypt_block c with
  | fn_AesEncrypt | fn_AesDecrypt => if tc_key_len c =? 32 then ctx_cbc_256 else ctx_cbc_128
  | fn_AesXtsEncrypt | fn_AesXtsDecrypt => if tc_key_len c =? 64 then ctx_xts_256 else ctx_xts_128
  end.

Lemma registry_cases c :
  c ∈ tde_ciphers tde_registry →
  c = mkTdeCipher CIPHER_AES_128 "aes-128" 16 fn_AesEncrypt fn_AesDecrypt
        (Some fn_AesCtrEncryptedZeroBlocks) ∨
  c = mkTdeCipher CIPHER_AES_256 "aes-256" 32 fn_AesEncrypt fn_AesDecrypt
        (Some fn_AesCtrEncryptedZeroBlocks) ∨
  c = mkTdeCipher CIPHER_AES_128_XTS "aes-128-xts" 32 fn_AesXtsEncrypt fn_AesXtsDecrypt None ∨
  c = mkTdeCipher CIPHER_AES_256_XTS "aes-256-xts" 64 fn_AesXtsEncrypt fn_AesXtsDecrypt None.
Proof.
  unfold tde_registry. simpl. intros H.
  repeat (apply elem_of_cons in H as [->|H]; [tauto|]). by apply not_elem_of_nil in H.
Qed.

Lemma suite_run c enc key iv d w :
  c ∈ tde_ciphers tde_registry → ctxs_ok w → tc_key_len c <= Z.of_nat (length key) →
  length iv = 16%nat → (16 ≤ length d)%nat → (length d mod 16 = 0)%nat →
  ∃ w', call_block_crypt (if enc : bool then tc_encrypt_block c else tc_decrypt_block c)
          key (tc_key_len c) iv d w =
        Ok (page_crypt (ctx_cipher (suite_ctx c)) enc (take (Z.to_nat (tc_key_len c)) key) iv d) w' ∧
        ctxs_ok w' ∧ ∃ cc, w' = put_cc (suite_ctx c) cc w.
Proof.
  intros Hc Hok Hk Hiv H16 Hm.
  assert (ctx_key_len (suite_ctx c) = tc_key_len c) as Hkl
    by (apply registry_cases in Hc as [->|[->|[->| ->]]]; done).
  destruct (prepare_run_spec (suite_ctx c) (if enc then 1 else 0) key iv d w) as (cc & E & Hok');
    [done|by destruct enc; auto|lia|done..|].
  exists (put_cc (suite_ctx c) cc w). split_and!; [|done|eauto]. rewrite Hkl in E.
  assert (evp_key (ctx_cipher (suite_ctx c)) key = take (Z.to_nat (tc_key_len c)) key) as <-.
  { unfold evp_key. f_equal. unfold ctx_key_len in Hkl. lia. }
  replace enc with ((if enc then 1 else 0) =? 1) at 2 by (by destruct enc).
  rewrite <-E. apply registry_cases in Hc as [->|[->|[->| ->]]]; by destruct enc.
Qed.

(** ** The CTR key stream *)

(** The counter block [j]. *)
Definition ctr_block (iv_prefix : bytes) (j : Z) : bytes := take 12 iv_prefix ++ enc_u32 j.

Lemma ctr_blocks_eq fuel iv_prefix j e :
  0 <= j → e < 2 ^ 31 → Z.to_nat (e - j) = fuel →
  ctr_blocks fuel iv_prefix j e = concat (ctr_block iv_prefix <$> seqZ j (e - j)).
Proof.
  revert j. induction fuel as [|fuel IH]; intros j Hj He Hf; simpl.
  - by rewrite seqZ_nil by lia.
  - rewrite u64_small by (unfold is_u64; lia).
    rewrite (proj2 (Z.ltb_lt j e)) by lia. rewrite seqZ_cons by lia. simpl.
    unfold ctr_block at 1. f_equal. rewrite i32_small by lia.
    rewrite IH by lia. do 3 f_equal; lia.
Qed.

(** The caller's context of a key stream: not created yet, or holding the key. *)
Definition ecb_cipher (key_len : Z) : EVP_CIPHER :=
  if key_len =? 32 then EVP_aes_256_ecb else EVP_aes_128_ecb.

Definition ecb_ctx_ok (key : bytes) (key_len : Z) (p : option EVP_CIPHER_CTX) : Prop :=
  match p with
  | None => True
  | Some ctx =>
      cv_cipher (view ctx) = Some (ecb_cipher key_len) ∧ cv_padding (view ctx) = false ∧
      cv_enc (view ctx) = true ∧ cv_key (view ctx) = Some (evp_key (ecb_cipher key_len) key)
  end.

Lemma AesEcbEncrypt_ok p key key_len d w :
  gcm_key_len_ok key key_len → ecb_ctx_ok key key_len p → (length d mod 16 = 0)%nat →
  ∃ ctx, AesEcbEncrypt p key key_len d w =
           Ok (concat (aes_block (take (Z.to_nat key_len) key) <$> chunks 16 d), Some ctx) w ∧
         ecb_ctx_ok key key_len (Some ctx).
Proof.
  intros [Hkl Hk] Hp Hd. unfold AesEcbEncrypt. fold (ecb_cipher key_len).
  assert (evp_key (ecb_cipher key_len) key = take (Z.to_nat key_len) key) as Ek.
  { unfold evp_key, ecb_cipher. by destruct Hkl as [->| ->]. }
  assert (length (evp_key (ecb_cipher key_len) key) = evp_key_length (ecb_cipher key_len)) as El.
  { rewrite Ek. unfold ecb_cipher. destruct Hkl as [->| ->]; simpl; rewrite length_take; lia. }
  assert (mode_of (ecb_cipher key_len) = ModeEcb) as Hm by (unfold ecb_cipher; by case_match).
  assert (∃ ctx, (match p with
      | None => ctx ← check_ssl "EVP_CipherInit_ex failed" (EVP_CipherInit_ex EVP_CIPHER_CTX_new
           (Some (ecb_cipher key_len)) (Some (evp_key (ecb_cipher key_len) key)) None 1);
                mret (fst (EVP_CIPHER_CTX_set_padding ctx 0))
      | Some ctx => mret ctx end : M _) w = Ok ctx w ∧ ecb_ctx_ok key key_len (Some ctx))
    as (ctx & Ectx & Hctx).
  { destruct p as [ctx|]; [by exists ctx|].
    destruct (init_cipher_key (ecb_cipher key_len) _ Hm El) as [I1 V1].
    rewrite (bind_ok _ _ _ _ _ (check_ssl_ok _ _ w I1)).
    eexists. split; [done|].
    destruct (set_padding_off (fst (EVP_CipherInit_ex EVP_CIPHER_CTX_new (Some (ecb_cipher key_len))
      (Some (evp_key (ecb_cipher key_len) key)) None 1))) as [_ V2].
    unfold ecb_ctx_ok. by rewrite V2, V1. }
  rewrite (bind_ok _ _ _ _ _ Ectx). destruct Hctx as (C1 & C2 & C3 & C4).
  destruct (ecb_update ctx _ _ d C1 Hm C2 C3 C4 Hd) as [U1 U2].
  destruct (EVP_CipherUpdate ctx d) as [ctx' out]. simpl in U1, U2. subst out.
  exists ctx'. rewrite <-Ek. done.
Qed.

Lemma ctr_block_length iv_prefix j : (12 ≤ length iv_prefix)%nat → length (ctr_block iv_prefix j) = 16%nat.
Proof. intros. unfold ctr_block.
  rewrite length_app, length_take. pose proof (enc_u32_length j). lia. Qed.

(** The key stream blocks from [b1] up to [b2]. *)
Definition keystream_blocks (key iv_prefix : bytes) (b1 b2 : Z) : bytes :=
  concat ((λ j, aes_block key (ctr_block iv_prefix j)) <$> seqZ b1 (b2 - b1)).

Lemma AesCtrEncryptedZeroBlocks_ok p key key_len iv_prefix b1 b2 w :
  gcm_key_len_ok key key_len → ecb_ctx_ok key key_len p → (12 ≤ length iv_prefix)%nat →
  0 <= b1 <= b2 → b2 < 2 ^ 31 →
  ∃ ctx, AesCtrEncryptedZeroBlocks p key key_len iv_prefix b1 b2 w =
           Ok (keystream_blocks (take (Z.to_nat key_len) key) iv_prefix b1 b2, Some ctx) w ∧
         ecb_ctx_ok key key_len (Some ctx).
Proof.
  intros Hk Hp Hiv Hb Hb2. unfold AesCtrEncryptedZeroBlocks.
  rewrite i32_small by lia. rewrite ctr_blocks_eq by lia.
  set (cs := ctr_block iv_prefix <$> seqZ b1 (b2 - b1)).
  assert (Forall (λ c, length c = 16%nat) cs) as Hcs.
  { unfold cs. rewrite Forall_fmap. apply Forall_true. intros j. by apply ctr_block_length. }
  destruct (AesEcbEncrypt_ok p key key_len (concat cs) w) as (ctx & E & Hctx); [done..| |].
  { rewrite (concat_sizes_length 16) by done. by rewrite Nat.Div0.mod_mul. }
  exists ctx. split; [|done]. rewrite E. do 2 f_equal. unfold keystream_blocks. f_equal. f_equal.
  rewrite <-(app_nil_r (concat cs)), chunks_app by (done || simpl; lia).
  unfold cs. by rewrite <-list_fmap_compose.
Qed.

End ctx_cache.

(** ** Properties *)

Section properties.
Context {SSL : OpenSSL} {Spec : OpenSSLSpec SSL}.

(** For every registered cipher suite, decrypting what was encrypted with
    the same key and IV gives the page back, for any coherent state of the
    cached OpenSSL contexts before either call, and coherence is kept. *)
Theorem suite_roundtrip c key iv d w w2 :
  c ∈ tde_ciphers tde_registry → ctxs_ok w → ctxs_ok w2 →
  tc_key_len c <= Z.of_nat (length key) → length iv = 16%nat →
  (16 ≤ length d)%nat → (length d mod 16 = 0)%nat →
  ∃ ct w1 w3,
    call_block_crypt (tc_encrypt_block c) key (tc_key_len c) iv d w = Ok ct w1 ∧
    length ct = length d ∧ ctxs_ok w1 ∧
    call_block_crypt (tc_decrypt_block c) key (tc_key_len c) iv ct w2 = Ok d w3 ∧ ctxs_ok w3.
Proof.
  intros Hc Hw Hw2 Hk Hiv H16 Hm.
  destruct (suite_run c true key iv d w) as (w1 & E1 & H1 & _); [done..|].
  set (ct := page_crypt _ _ _ _ _) in E1.
  assert (length ct = length d) as Hl by apply page_crypt_length.
  destruct (suite_run c false key iv ct w2) as (w3 & E3 & H3 & _); [done..|by rewrite Hl|by rewrite Hl|].
  exists ct, w1, w3. split_and!; try done. rewrite E3. f_equal.
  assert (evp_key_length (ctx_cipher (suite_ctx c)) = Z.to_nat (tc_key_len c)) as Hkl
    by (by apply registry_cases in Hc as [->|[->|[->| ->]]]).
  apply page_crypt_inv; try done. rewrite length_take, Hkl. lia.
Qed.

(** C23: the contexts set up by AesInit are coherent, and a page run gives the
    same bytes on cached contexts as on freshly initialised ones: skipping the
    key schedule when key and direction are unchanged is not observable. *)
Theorem context_cache_transparent c enc key iv d w :
  c ∈ tde_ciphers tde_registry → ctxs_ok w →
  tc_key_len c <= Z.of_nat (length key) → length iv = 16%nat →
  (16 ≤ length d)%nat → (length d mod 16 = 0)%nat →
  let f := if enc : bool then tc_encrypt_block c else tc_decrypt_block c in
  ∃ out wc wi wf, call_block_crypt f key (tc_key_len c) iv d w = Ok out wc ∧
    AesInit w = Ok tt wi ∧ ctxs_ok wi ∧ call_block_crypt f key (tc_key_len c) iv d wi = Ok out wf.
Proof.
  intros Hc Hw Hk Hiv H16 Hm f. destruct (AesInit_ok w) as (wi & Ei & Hi); [by apply ctxs_bufs_ok|].
  destruct (suite_run c enc key iv d w) as (wc & Ec & _); [done..|].
  destruct (suite_run c enc key iv d wi) as (wf & Ef & _); [done..|].
  eexists _, wc, wi, wf. split_and!; done.
Qed.

(** AES-GCM as the code calls it: a key of 16 or 32 bytes, a 16-byte IV and
    tag; decryption with the same inputs returns the plaintext. *)
Theorem gcm_roundtrip key key_len iv aad inp w :
  gcm_key_len_ok key key_len → length iv = 16%nat →
  ∃ ct tag, AesGcmEncrypt key key_len iv 16 aad inp 16 w = Ok (ct, tag) w ∧
    length ct = length inp ∧ length tag = 16%nat ∧
    AesGcmDecrypt key key_len iv 16 aad ct tag w = Ok (Some inp) w.
Proof.
  intros Hk Hiv. rewrite AesGcmEncrypt_ok by done.
  destruct (gcm_seal_length (take (Z.to_nat key_len) key) iv aad inp) as [H1 H2].
  pose proof (gcm_open_seal (take (Z.to_nat key_len) key) iv aad inp) as H3.
  destruct (gcm_seal _ _ _ _) as [ct tag]. simpl in *. exists ct, tag. split_and!; try done.
  rewrite AesGcmDecrypt_ok by done. by rewrite H3.
Qed.

End properties.

(** The toy server after the contexts were set up. *)
Definition world1 : World := match AesInit world0 with Ok _ w | Err _ w => w end.

Lemma world1_ok : ctxs_ok world1.
Proof.
  destruct (AesInit_ok world0) as (w & E & H); [by intros []|]. unfold world1. by rewrite E. Qed.

Definition key_example : bytes := replicate 64 x2a.
Definition iv_example : bytes := replicate 16 x01.
Definition xts_256 : TdeCipher :=
  mkTdeCipher CIPHER_AES_256_XTS "aes-256-xts" 64 fn_AesXtsEncrypt fn_AesXtsDecrypt None.

Lemma suite_roundtrip_witness :
  ∃ ct w1 w3,
    call_block_crypt fn_AesXtsEncrypt key_example 64 iv_example (zeros 32) world1 = Ok ct w1 ∧
    length ct = 32%nat ∧ ctxs_ok w1 ∧
    call_block_crypt fn_AesXtsDecrypt key_example 64 iv_example ct world1 = Ok (zeros 32) w3 ∧ ctxs_ok w3.
Proof.
  apply (suite_roundtrip xts_256 key_example iv_example (zeros 32) world1 world1);
    try apply world1_ok; try done; [|simpl; lia..].
  unfold tde_registry. simpl. set_solver.
Defined.

Lemma context_cache_transparent_witness :
  ∃ out wc wi wf, call_block_crypt fn_AesXtsEncrypt key_example 64 iv_example (zeros 32) world1 = Ok out wc ∧
    AesInit world1 = Ok tt wi ∧ ctxs_ok wi ∧
    call_block_crypt fn_AesXtsEncrypt key_example 64 iv_example (zeros 32) wi = Ok out wf.
Proof.
  apply (context_cache_transparent xts_256 true key_example iv_example (zeros 32) world1);
    try apply world1_ok; try done; [|simpl; lia..].
  unfold tde_registry. simpl. set_solver.
Defined.

Lemma gcm_roundtrip_witness :
  ∃ ct tag, AesGcmEncrypt key_example 32 iv_example 16 [x05] [x07; x08] 16 world0 = Ok (ct, tag) world0 ∧
    length ct = 2%nat ∧ length tag = 16%nat ∧
    AesGcmDecrypt key_example 32 iv_example 16 [x05] ct tag world0 = Ok (Some [x07; x08]) world0.
Proof.
  apply (gcm_roundtrip key_example 32 iv_example [x05] [x07; x08] world0); [|done].
  split; [by right|simpl; lia].
Defined.
