(* ===== verification/TempFile.v ===== *)
(** open_pg_tde_tempfile.c: encryption of temporary files with keys that live
    as long as the server.

    The static variables are [w_tempfile]. The server calls the two hooks with
    the buffer, the position of the block in the file and the salt of the file;
    the buffer is the argument and the result. *)
From S2P Require Import Prelude Types Environ Instances.

Definition TEMPFILE_XTS_KEY_LEN : Z := 32.
Definition TEMPFILE_CTR_KEY_LEN : Z := 16.
Definition TEMPFILE_IV_LEN : nat := 16.
Definition AES_BLOCK_LEN : nat := 16.

(** [for (i = 0; i < 8; i++) iv[15 - i] ^= (unsigned char) (blocknum >> (8 * i))] *)
Definition xor_blocknum (iv : bytes) (blocknum : Z) : bytes :=
  foldl (λ iv i, let j := (TEMPFILE_IV_LEN - 1 - i)%nat in
           <[j := byte_xor (default x00 (iv !! j)) (z2b (Z.shiftr blocknum (8 * Z.of_nat i)))]> iv) iv (seq 0 8).

(** [for (i = 0; i < 16; i++) iv[i] ^= salt[i]] *)
Definition xor_salt (iv salt : bytes) : bytes :=
  foldl (λ iv i, <[i := byte_xor (default x00 (iv !! i)) (default x00 (salt !! i))]> iv) iv (seq 0 TEMPFILE_IV_LEN).

Definition block_iv (base_iv file_iv_salt : bytes) (blocknum : Z) : bytes :=
  xor_blocknum (xor_salt base_iv file_iv_salt) blocknum.

Section tempfile.
Context {SSL : OpenSSL}.

Definition tempfile_ssl_error {A} : M A := ereport FATAL "open_pg_tde: temporary file encryption failed".

(** The three calls of [pg_strong_random] stop at the first that fails; what
    was generated before stays. *)
Definition tempfile_init_key : M unit :=
  ready ← gets (λ w, tempfile_key_ready (w_tempfile w));
  if ready : bool then mret tt
  else
    let fail := ereport FATAL "open_pg_tde: could not generate temporary file key" in
    r ← rand_bytes TEMPFILE_XTS_KEY_LEN;
    match r with
    | None => fail
    | Some xts =>
        modify (λ w, let t := w_tempfile w in set_tempfile
          (mkTempFileState (tempfile_key_ready t) xts (tempfile_ctr_key t) (tempfile_base_iv t)) w);;
        r ← rand_bytes TEMPFILE_CTR_KEY_LEN;
        match r with
        | None => fail
        | Some ctr =>
            modify (λ w, let t := w_tempfile w in set_tempfile
              (mkTempFileState (tempfile_key_ready t) (tempfile_xts_key t) ctr (tempfile_base_iv t)) w);;
            r ← rand_bytes (Z.of_nat TEMPFILE_IV_LEN);
            match r with
            | None => fail
            | Some iv =>
                modify (λ w, let t := w_tempfile w in set_tempfile
                  (mkTempFileState true (tempfile_xts_key t) (tempfile_ctr_key t) iv) w)
            end
        end
    end.

Definition tempfile_block_iv (file_iv_salt : bytes) (blocknum : Z) : M bytes :=
  base_iv ← gets (λ w, tempfile_base_iv (w_tempfile w));
  mret (block_iv base_iv file_iv_salt blocknum).

(** Runs a new context over the buffer. *)
Definition run_cipher (c : EVP_CIPHER) (key iv : bytes) (enc : Z) (buf : bytes) : M bytes :=
  let '(ctx, ok) := EVP_CipherInit_ex EVP_CIPHER_CTX_new (Some c) (Some key) (Some iv) enc in
  if negb ok then tempfile_ssl_error
  else
    let '(ctx, ok) := EVP_CIPHER_CTX_set_padding ctx 0 in
    if negb ok then tempfile_ssl_error
    else
      let '(ctx, out) := EVP_CipherUpdate ctx buf in
      match out with
      | None => tempfile_ssl_error
      | Some out =>
          match EVP_CipherFinal_ex ctx with
          | (_, None) => tempfile_ssl_error
          | (_, Some final) => mret (out ++ final)
          end
      end.

Definition tempfile_run_xts (enc : Z) (iv buf : bytes) : M bytes :=
  key ← gets (λ w, tempfile_xts_key (w_tempfile w));
  run_cipher EVP_aes_128_xts key iv enc buf.

Definition tempfile_run_ctr (iv buf : bytes) : M bytes :=
  key ← gets (λ w, tempfile_ctr_key (w_tempfile w));
  run_cipher EVP_aes_128_ctr key iv 1 buf.

Definition tempfile_crypt_buffer (enc : Z) (data : bytes) (blocknum : Z) (file_iv_salt : bytes) : M bytes :=
  if Nat.eqb (length data) 0 then mret data
  else
    ready ← gets (λ w, tempfile_key_ready (w_tempfile w));
    (if negb ready then tempfile_init_key else mret tt);;
    iv ← tempfile_block_iv file_iv_salt blocknum;
    if Nat.leb AES_BLOCK_LEN (length data) then tempfile_run_xts enc iv data
    else tempfile_run_ctr iv data.

Definition tempfile_encrypt (data : bytes) (blocknum : Z) (file_iv_salt : bytes) : M bytes :=
  tempfile_crypt_buffer 1 data blocknum file_iv_salt.

Definition tempfile_decrypt (data : bytes) (blocknum : Z) (file_iv_salt : bytes) : M bytes :=
  tempfile_crypt_buffer 0 data blocknum file_iv_salt.

(** The hooks it installs are the two functions above. *)
Definition TdeTempFileInit : M unit := tempfile_init_key.

End tempfile.

(** ** IVs *)

(** The position as eight bytes, the most significant first. *)
Definition be64 (n : Z) : bytes := reverse (le_enc 8 n).

(** The IV is the exclusive or of the base IV, the salt, and the position in
    the last eight bytes. *)
Lemma block_iv_xor base salt n :
  length base = 16%nat → length salt = 16%nat →
  block_iv base salt n = bytes_xor (bytes_xor base salt) (zeros 8 ++ be64 n).
Proof.
  intros Hb Hs. do 16 (destruct base as [|? base]; [done|]). destruct base; [|done].
  do 16 (destruct salt as [|? salt]; [done|]). destruct salt; [|done].
  unfold block_iv, xor_salt, xor_blocknum, be64. cbn -[byte_xor z2b Z.shiftr Z.div Z.mul].
  rewrite !Z.div_div, !Z.shiftr_div_pow2 by lia. rewrite !byte_xor_0_r.
  change (2 ^ (8 * Z.of_nat 0)) with 1. by rewrite Z.div_1_r.
Qed.

Lemma be64_length n : length (be64 n) = 8%nat.
Proof. unfold be64. by rewrite length_reverse, le_enc_length. Qed.

Lemma be64_inj n1 n2 : be64 n1 = be64 n2 → u64 n1 = u64 n2.
Proof.
  intros E%(f_equal reverse). unfold be64 in E. rewrite !reverse_involutive in E. apply (f_equal le_dec) in E. by rewrite !le_dec_enc in E.
Qed.

(** Equal IVs: the salts differ by the positions. *)
Lemma block_iv_eq base s1 s2 n1 n2 :
  length base = 16%nat → length s1 = 16%nat → length s2 = 16%nat →
  block_iv base s1 n1 = block_iv base s2 n2 → bytes_xor s1 (zeros 8 ++ be64 n1) = bytes_xor s2 (zeros 8 ++ be64 n2).
Proof.
  intros Hb H1 H2 E. rewrite !block_iv_xor in E by done.
  assert (∀ s n, length s = 16%nat → bytes_xor (bytes_xor base s) (zeros 8 ++ be64 n) =
            bytes_xor (bytes_xor s (zeros 8 ++ be64 n)) base) as Hc.
  { intros s n Hl. apply list_eq. intros i. unfold bytes_xor. rewrite !lookup_zip_with.
    destruct (base !! i), (s !! i), ((zeros 8 ++ be64 n) !! i); simpl; try done. f_equal. by rewrite byte_xor_comm3. }
  rewrite !Hc in E by done. eapply bytes_xor_inj; [| |exact E];
    rewrite bytes_xor_length, length_app, be64_length, zeros_length; lia.
Qed.


(** The blocks of one temporary file have different IVs, and so have blocks
    of files whose salts differ in their first half, whatever their
    positions. *)
Theorem tempfile_iv_unique base s1 s2 n1 n2 :
  length base = 16%nat → length s1 = 16%nat → length s2 = 16%nat →
  - 2 ^ 63 <= n1 < 2 ^ 63 → - 2 ^ 63 <= n2 < 2 ^ 63 →
  (s1 = s2 ∧ n1 ≠ n2) ∨ take 8 s1 ≠ take 8 s2 → block_iv base s1 n1 ≠ block_iv base s2 n2.
Proof.
  intros Hb H1 H2 R1 R2 Hdiff E. apply block_iv_eq in E; [|done..].
  rewrite <-(take_drop 8 s1), <-(take_drop 8 s2) in E. rewrite !bytes_xor_app in E by (rewrite length_take, zeros_length; lia).
  apply app_inj_1 in E as [E1 E2]; [|rewrite !bytes_xor_length, !length_take; lia].
  destruct Hdiff as [[-> Hn]|Hs].
  - apply Hn. assert (be64 n1 = be64 n2) as E%be64_inj.
    { eapply (bytes_xor_inj _ _ (drop 8 s2)); rewrite ?be64_length, ?length_drop; [lia|lia|].
      by rewrite !(bytes_xor_comm (be64 _)). }
    apply (f_equal i64) in E. unfold i64, u64 in E.
    rewrite !Z.add_mod_idemp_l, !Z.mod_small in E by lia. lia.
  - apply Hs. eapply (bytes_xor_inj _ _ (zeros 8)); [..|exact E1]; rewrite length_take, zeros_length; lia.
Qed.

(** Salts that differ in their second half only can give the same IV. *)
Theorem tempfile_iv_collision :
  let s1 := zeros 16 in
  let s2 := zeros 15 ++ [x01] in
  s1 ≠ s2 ∧ ∀ base, length base = 16%nat → block_iv base s1 1 = block_iv base s2 0.
Proof.
  split; [done|]. intros base Hb. rewrite !block_iv_xor by done.
  do 16 (destruct base as [|? base]; [done|]). destruct base; [|done].
  unfold bytes_xor. simpl. rewrite !byte_xor_0_r. done.
Qed.

(** ** Encryption *)

Section crypt.
Context {SSL : OpenSSL} {Spec : OpenSSLSpec SSL} {RW : RandWorks SSL}.

(** The keys have their lengths. *)
Definition tempfile_keys_ok (w : World) : Prop :=
  let t := w_tempfile w in
  length (tempfile_xts_key t) = 32%nat ∧ length (tempfile_ctr_key t) = 16%nat ∧ length (tempfile_base_iv t) = 16%nat.

Definition tempfile_ready (w : World) : Prop :=
  tempfile_key_ready (w_tempfile w) = true ∧ tempfile_keys_ok w.

Lemma block_iv_length base salt n :
  length base = 16%nat → length salt = 16%nat → length (block_iv base salt n) = 16%nat.
Proof.
  intros Hb Hs. rewrite block_iv_xor, !bytes_xor_length, length_app, zeros_length, be64_length by done. lia.
Qed.

Lemma rand_some n w : 0 <= n → ∃ d, rand_bytes n w = Ok (Some d) (set_rand (S (w_rand w)) w) ∧ Z.of_nat (length d) = n.
Proof.
  intros Hn. destruct (rand_works (w_rand w) n Hn) as [d Hd]. exists d. unfold rand_bytes. rewrite Hd.
  split; [done|]. by eapply RAND_bytes_length.
Qed.

(** Keys are generated once. *)
Lemma tempfile_init_key_ok w :
  (tempfile_key_ready (w_tempfile w) = true → tempfile_keys_ok w) →
  ∃ w', tempfile_init_key w = Ok tt w' ∧ tempfile_ready w' ∧
        (tempfile_key_ready (w_tempfile w) = true → w' = w).
Proof.
  intros Hr. unfold tempfile_init_key. mstep. destruct (tempfile_key_ready (w_tempfile w)) eqn:E.
  { exists w. split; [done|]. split; [split; [done|by apply Hr]|done]. }
  destruct (rand_some TEMPFILE_XTS_KEY_LEN w ltac:(done)) as (xts & Ex & Hx). rewrite (bind_ok _ _ _ _ _ Ex). mstep.
  set (w1 := set_tempfile _ _).
  destruct (rand_some TEMPFILE_CTR_KEY_LEN w1 ltac:(done)) as (ctr & Ec & Hc). rewrite (bind_ok _ _ _ _ _ Ec). mstep.
  set (w2 := set_tempfile _ _).
  destruct (rand_some (Z.of_nat TEMPFILE_IV_LEN) w2 ltac:(done)) as (iv & Ei & Hi). rewrite (bind_ok _ _ _ _ _ Ei).
  eexists. split; [done|]. split; [|done]. split; [done|].
  unfold TEMPFILE_XTS_KEY_LEN, TEMPFILE_CTR_KEY_LEN, TEMPFILE_IV_LEN in *. split_and!; simpl; lia.
Qed.

Lemma run_xts_ok key iv enc buf w :
  length key = 32%nat → length iv = 16%nat → (16 ≤ length buf)%nat → enc = 0 ∨ enc = 1 →
  run_cipher EVP_aes_128_xts key iv enc buf w = Ok (page_crypt EVP_aes_128_xts (enc =? 1) key iv buf) w.
Proof.
  intros Hk Hi Hl He. unfold run_cipher.
  destruct (init_all EVP_aes_128_xts key iv enc ltac:(done) Hk Hi He) as [I V].
  destruct (EVP_CipherInit_ex _ _ _ _ _) as [ctx ok]. simpl in I, V. subst ok. simpl.
  pose proof (set_padding_off ctx) as [P V1]. destruct (EVP_CIPHER_CTX_set_padding ctx 0) as [ctx1 ok]. simpl in P, V1.
  subst ok. rewrite V in V1. simpl in V1. simpl.
  destruct (page_update ctx1 EVP_aes_128_xts key iv buf) as (c1 & o1 & c2 & o2 & E1 & E2 & E3 & _);
    try (by rewrite ?V1); [by right|]. rewrite V1 in E3. simpl in E3. rewrite E1, E2. by rewrite <-E3.
Qed.

Lemma run_ctr_ok key iv buf w :
  length key = 16%nat → length iv = 16%nat → run_cipher EVP_aes_128_ctr key iv 1 buf w = Ok (ctr_crypt key iv buf) w.
Proof.
  intros Hk Hi. unfold run_cipher. destruct (init_all EVP_aes_128_ctr key iv 1 ltac:(done) Hk Hi ltac:(by right)) as [I V].
  destruct (EVP_CipherInit_ex _ _ _ _ _) as [ctx ok]. simpl in I, V. subst ok. simpl.
  pose proof (set_padding_off ctx) as [P V1]. destruct (EVP_CIPHER_CTX_set_padding ctx 0) as [ctx1 ok]. simpl in P, V1.
  subst ok. rewrite V in V1. simpl in V1. simpl.
  destruct (ctr_update ctx1 EVP_aes_128_ctr key iv buf) as (c1 & o1 & c2 & o2 & E1 & E2 & E3);
    try (by rewrite ?V1). rewrite E1, E2. by rewrite <-E3.
Qed.

(** What a buffer becomes. *)
Definition tempfile_cipher (w : World) (enc : bool) (data : bytes) (blocknum : Z) (salt : bytes) : bytes :=
  let t := w_tempfile w in
  let iv := block_iv (tempfile_base_iv t) salt blocknum in
  if Nat.leb 16 (length data) then page_crypt EVP_aes_128_xts enc (tempfile_xts_key t) iv data
  else ctr_crypt (tempfile_ctr_key t) iv data.

Lemma crypt_buffer_ready enc data n salt w :
  tempfile_ready w → length salt = 16%nat → enc = 0 ∨ enc = 1 → data ≠ [] →
  tempfile_crypt_buffer enc data n salt w = Ok (tempfile_cipher w (enc =? 1) data n salt) w.
Proof.
  intros [Hr (Hx & Hc & Hb)] Hs He Hne. unfold tempfile_crypt_buffer.
  rewrite (proj2 (Nat.eqb_neq _ _)) by (by destruct data). mstep. rewrite Hr. simpl negb. cbv iota. mstep.
  unfold tempfile_block_iv. rewrite bind_assoc. mstep. mstep.
  pose proof (block_iv_length (tempfile_base_iv (w_tempfile w)) salt n Hb Hs) as Hiv. unfold tempfile_cipher.
  change AES_BLOCK_LEN with 16%nat. destruct (Nat.leb_spec 16 (length data)) as [Hl|Hl].
  - unfold tempfile_run_xts. mstep. by apply run_xts_ok.
  - unfold tempfile_run_ctr. mstep. by apply run_ctr_ok.
Qed.

(** The first call generates the keys. *)
Lemma crypt_buffer_first enc data n salt w w' :
  tempfile_key_ready (w_tempfile w) = false → tempfile_init_key w = Ok tt w' →
  tempfile_key_ready (w_tempfile w') = true → data ≠ [] →
  tempfile_crypt_buffer enc data n salt w = tempfile_crypt_buffer enc data n salt w'.
Proof.
  intros E Ei E' Hne. unfold tempfile_crypt_buffer. rewrite (proj2 (Nat.eqb_neq _ _)) by (by destruct data).
  unfold gets, mbind, M_bind. rewrite E, E'. cbn [negb]. by rewrite Ei.
Qed.

(** C31: what is written to a temporary file is read back: decrypting an encrypted
    buffer of any length at the same position of the same file gives the
    buffer, also when the keys are generated by the first call; the length
    stays the same. *)
Theorem tempfile_roundtrip data n salt w :
  (tempfile_key_ready (w_tempfile w) = true → tempfile_keys_ok w) → length salt = 16%nat →
  ∃ c w', tempfile_encrypt data n salt w = Ok c w' ∧ tempfile_decrypt c n salt w' = Ok data w' ∧
          length c = length data.
Proof.
  intros Hw Hs. unfold tempfile_encrypt, tempfile_decrypt.
  destruct (decide (data = [])) as [->|Hne]; [by exists [], w|].
  destruct (tempfile_init_key_ok w Hw) as (w' & Ei & Hr & Hsame).
  exists (tempfile_cipher w' true data n salt), w'.
  assert (length (tempfile_cipher w' true data n salt) = length data) as Hl.
  { unfold tempfile_cipher. case_match; [apply page_crypt_length|apply ctr_crypt_length]. }
  split_and!; [| |done].
  - destruct (tempfile_key_ready (w_tempfile w)) eqn:E.
    + rewrite (Hsame eq_refl) in *. rewrite crypt_buffer_ready; [done|done|done|by right|done].
    + rewrite (crypt_buffer_first 1 data n salt w w') by (try done; apply Hr).
      rewrite crypt_buffer_ready; [done|done|done|by right|done].
  - rewrite crypt_buffer_ready; [|done|done|by left|by intros E; rewrite E in Hl; destruct data].
    unfold tempfile_cipher at 1. rewrite Hl. unfold tempfile_cipher. destruct Hr as [_ (Hx & Hc & Hb)].
    destruct (Nat.leb_spec 16 (length data)); [|by rewrite ctr_crypt_inv].
    rewrite page_crypt_inv; [done|done|by apply block_iv_length|done|done].
Qed.

End crypt.

Lemma tempfile_iv_unique_witness :
  block_iv (zeros 16) (zeros 16) 1 ≠ block_iv (zeros 16) (zeros 16) 2 ∧
  block_iv (zeros 16) (zeros 16) 1 ≠ block_iv (zeros 16) (x01 :: zeros 15) 0.
Proof.
  split.
  - apply (tempfile_iv_unique (zeros 16) (zeros 16) (zeros 16) 1 2); try reflexivity; try lia. left. split; [reflexivity|lia].
  - apply (tempfile_iv_unique (zeros 16) (zeros 16) (x01 :: zeros 15) 1 0); try reflexivity; try lia. right. discriminate.
Defined.

Lemma tempfile_roundtrip_witness : ∃ c w',
  tempfile_encrypt (replicate 20 x41) 3 (zeros 16) world0 = Ok c w' ∧
  tempfile_decrypt c 3 (zeros 16) w' = Ok (replicate 20 x41) w'.
Proof.
  destruct (tempfile_roundtrip (replicate 20 x41) 3 (zeros 16) world0) as (c & w' & E1 & E2 & _);
    [discriminate|reflexivity|]. exists c, w'. split; [exact E1|exact E2].
Defined.
