(* ===== verification/EncTde.v ===== *)
(** Encryption of pages and of byte streams, encryption/enc_tde.c.

    Pages are encrypted with the relation's key and an IV built from the fork
    and the block number. Streams (WAL, temporary files) are combined with a
    key stream that depends only on the position in the file. The theorems show
    that the batched loop computes the position-wise reference, in place or
    not, how the IVs can coincide, and that pages come back. *)
From S2P Require Import Prelude Types Environ Instances Ciphers.

Definition AES_BLOCK_SIZE : Z := 16.
Definition NUM_AES_BLOCKS_IN_BATCH : Z := 200.
Definition BLCKSZ : Z := 8192.

(** [ForkNumber] of common/relpath.h *)
Definition MAIN_FORKNUM : Z := 0.
Definition FSM_FORKNUM : Z := 1.
Definition VISIBILITYMAP_FORKNUM : Z := 2.
Definition INIT_FORKNUM : Z := 3.

(** An element of a C buffer. *)
Definition byte_at (i : nat) (b : bytes) : byte := nth i b x00.

Section enc_tde.
Context {SSL : OpenSSL}.

Definition open_pg_tde_cipher_key_length (cipher : Z) : M Z :=
  if cipher =? CIPHER_AES_128 then mret KEY_DATA_SIZE_128
  else if cipher =? CIPHER_AES_256 then mret KEY_DATA_SIZE_256
  else if cipher =? CIPHER_AES_128_XTS then mret KEY_DATA_SIZE_256
  else if cipher =? CIPHER_AES_256_XTS then mret (2 * KEY_DATA_SIZE_256)
  else ereport ERROR "failed to get key size from the unknown cipher".

Definition open_pg_tde_generate_internal_key (cipher : Z) : M InternalKey :=
  key_len ← open_pg_tde_cipher_key_length cipher;
  let key := zeros INTERNAL_KEY_MAX_LEN in
  r ← rand_bytes key_len;
  match r with
  | None => ereport ERROR "could not generate internal key"
  | Some kb =>
      let key := write_at 0 kb key in
      r ← rand_bytes (Z.of_nat INTERNAL_KEY_IV_LEN);
      match r with
      | None => ereport ERROR "could not generate IV"
      | Some iv => mret (mkInternalKey key_len cipher iv key)
      end
  end.

(** ** Streams *)

(** [out[i] = data[i] ^ keystream[i]] for [i < n], where [out] and [data] are
    the same buffer from position [pos] on and the key stream starts at
    [koff]. *)
Fixpoint tde_xor_stream (n : nat) (buf : bytes) (pos : nat) (keystream : bytes) (koff : nat) : bytes :=
  match n with
  | O => buf
  | S n =>
      tde_xor_stream n (<[pos := byte_xor (byte_at pos buf) (byte_at koff keystream)]> buf)
        (S pos) keystream (S koff)
  end.

(** The same with two buffers. *)
Fixpoint tde_xor_stream_distinct (n : nat) (out data : bytes) (pos : nat) (keystream : bytes)
  (koff : nat) : bytes :=
  match n with
  | O => out
  | S n =>
      tde_xor_stream_distinct n
        (<[pos := byte_xor (byte_at pos data) (byte_at koff keystream)]> out)
        data (S pos) keystream (S koff)
  end.

(** The batch loop. [data] is [None] for in-place operation. [first] is
    [batch_no == 0]. *)
Fixpoint stream_crypt_loop (fuel : nat) (cipher : TdeKeystreamFn) (iv_prefix : bytes)
  (batch_start_block aes_end_block aes_block_no : Z) (first : bool) (data_index data_len : Z)
  (data : option bytes) (out : bytes) (key : bytes) (key_len : Z) (ctxPtr : option EVP_CIPHER_CTX)
  : M (bytes * option EVP_CIPHER_CTX) :=
  if batch_start_block <? aes_end_block then
    match fuel with
    | O => ereport PANIC "out of fuel"
    | S fuel =>
        let batch_end_block :=
          Z.min (u64 (batch_start_block + NUM_AES_BLOCKS_IN_BATCH)) aes_end_block in
        '(enc_key, ctxPtr) ←
          call_keystream cipher ctxPtr key key_len iv_prefix batch_start_block batch_end_block;
        let current_batch_bytes :=
          u32 ((batch_end_block - batch_start_block) * AES_BLOCK_SIZE
               - (if first then aes_block_no else 0)) in
        let current_batch_bytes :=
          if data_len <? u32 (data_index + current_batch_bytes)
          then u32 (data_len - data_index) else current_batch_bytes in
        let key_offset := if first then aes_block_no else 0 in
        let out :=
          match data with
          | None => tde_xor_stream (Z.to_nat current_batch_bytes) out (Z.to_nat data_index)
                      enc_key (Z.to_nat key_offset)
          | Some data => tde_xor_stream_distinct (Z.to_nat current_batch_bytes) out data
                           (Z.to_nat data_index) enc_key (Z.to_nat key_offset)
          end in
        stream_crypt_loop fuel cipher iv_prefix (u64 (batch_start_block + NUM_AES_BLOCKS_IN_BATCH))
          aes_end_block aes_block_no false (u32 (data_index + current_batch_bytes)) data_len
          data out key key_len ctxPtr
    end
  else mret (out, ctxPtr).

(** Returns the output buffer and the caller's context pointer. The fuel is
    the number of batches. *)
Definition open_pg_tde_stream_crypt (iv_prefix : bytes) (start_offset : Z) (data : option bytes)
  (data_len : Z) (out : bytes) (key : bytes) (key_len : Z) (ctxPtr : option EVP_CIPHER_CTX)
  : M (bytes * option EVP_CIPHER_CTX) :=
  let aes_start_block := start_offset / AES_BLOCK_SIZE in
  let aes_end_block := u32 (start_offset + data_len + (AES_BLOCK_SIZE - 1)) / AES_BLOCK_SIZE in
  let aes_block_no := start_offset mod AES_BLOCK_SIZE in
  cipher ← TdeCipherByKeyLen tde_registry key_len;
  match tc_keystream cipher with
  | None => ereport PANIC "call of a NULL function pointer"
  | Some ks =>
      stream_crypt_loop (S (Z.to_nat ((aes_end_block - aes_start_block) / NUM_AES_BLOCKS_IN_BATCH)))
        ks iv_prefix aes_start_block aes_end_block aes_block_no true 0 data_len data out
        key key_len ctxPtr
  end.

(** ** Pages *)

Definition CalcBlockIv (forknum bn : Z) (base_iv : bytes) : bytes :=
  let iv := zeros 16 in
  let iv := <[7%nat := z2b (if forknum =? INIT_FORKNUM then MAIN_FORKNUM else forknum)]> iv in
  let iv := <[12%nat := z2b (Z.shiftr bn 24)]> iv in
  let iv := <[13%nat := z2b (Z.shiftr bn 16)]> iv in
  let iv := <[14%nat := z2b (Z.shiftr bn 8)]> iv in
  let iv := <[15%nat := z2b bn]> iv in
  bytes_xor iv base_iv.

(** The loop over the first 32 bytes. *)
Definition all_zero32 (inp : bytes) : bool := forallb (λ b, bool_decide (b = x00)) (take 32 inp).

(** [out] is the contents of the output buffer before the call. *)
Definition tde_decrypt_smgr_block (rel_key : InternalKey) (forknum blocknum : Z) (inp out : bytes)
  : M bytes :=
  if all_zero32 inp then mret out
  else
    let iv := CalcBlockIv forknum blocknum (ik_base_iv rel_key) in
    c ← TdeCipherById tde_registry (ik_cipher rel_key);
    call_block_crypt (tc_decrypt_block c) (ik_key rel_key) (ik_key_len rel_key) iv inp.

Definition tde_encrypt_smgr_block (rel_key : InternalKey) (forknum blocknum : Z) (inp : bytes)
  : M bytes :=
  let iv := CalcBlockIv forknum blocknum (ik_base_iv rel_key) in
  c ← TdeCipherById tde_registry (ik_cipher rel_key);
  call_block_crypt (tc_encrypt_block c) (ik_key rel_key) (ik_key_len rel_key) iv inp.

End enc_tde.

(** ** The IV of a page *)

(** The fork whose IVs a fork uses. *)
Definition iv_fork (f : Z) : Z := if f =? INIT_FORKNUM then MAIN_FORKNUM else f.

Definition valid_fork (f : Z) : Prop := MAIN_FORKNUM <= f <= INIT_FORKNUM.

Lemma iv_fork_range f : valid_fork f → 0 <= iv_fork f < 256.
Proof.
  unfold valid_fork, iv_fork, MAIN_FORKNUM, INIT_FORKNUM.
  intros. destruct (f =? 3); lia.
Qed.

(** The page IV before it is combined with the base IV, written as one byte
    string: the fork in byte 7 and the big-endian block number in 12 to 15. *)
Lemma CalcBlockIv_eq f bn iv :
  CalcBlockIv f bn iv =
    bytes_xor (zeros 7 ++ [z2b (iv_fork f)] ++ zeros 4 ++ reverse (enc_u32 bn)) iv.
Proof.
  unfold CalcBlockIv, iv_fork. f_equal. unfold enc_u32. simpl.
  rewrite !Z.div_div by lia. rewrite !Z.shiftr_div_pow2 by lia. done.
Qed.

Lemma CalcBlockIv_length f bn iv : length iv = 16%nat → length (CalcBlockIv f bn iv) = 16%nat.
Proof.
  intros H. rewrite CalcBlockIv_eq, bytes_xor_length, H. len_simpl.
  rewrite length_reverse. by len_simpl.
Qed.

Lemma CalcBlockIv_inj f1 b1 f2 b2 iv :
  valid_fork f1 → valid_fork f2 → is_u32 b1 → is_u32 b2 → length iv = 16%nat →
  CalcBlockIv f1 b1 iv = CalcBlockIv f2 b2 iv ↔ iv_fork f1 = iv_fork f2 ∧ b1 = b2.
Proof.
  intros Hf1 Hf2 Hb1 Hb2 Hiv. split; [|by intros [E ->]; rewrite !CalcBlockIv_eq, E].
  rewrite !CalcBlockIv_eq. intros E.
  apply bytes_xor_inj in E; [|rewrite !length_app, length_reverse; by len_simpl..].
  apply app_inv_head in E. apply app_inj_1 in E as [E1 E2]; [|done].
  apply app_inv_head in E2. apply (inj reverse) in E2. split.
  - injection E1 as E1. apply (f_equal b2z) in E1. rewrite !b2z_z2b in E1.
    by rewrite !Z.mod_small in E1 by (by apply iv_fork_range).
  - rewrite <-(dec_enc_u32 b1), <-(dec_enc_u32 b2) by done. by rewrite E2.
Qed.

(** ** Pages *)

Section pages.
Context {SSL : OpenSSL} {Spec : OpenSSLSpec SSL}.

Definition page_ok (p : bytes) : Prop := Z.of_nat (length p) = BLCKSZ.

Lemma page_ok_blocks p : page_ok p → (16 ≤ length p)%nat ∧ (length p mod 16 = 0)%nat.
Proof.
  unfold page_ok, BLCKSZ. intros H. replace (length p) with (512 * 16)%nat by lia.
  split; [lia|]. apply Nat.Div0.mod_mul.
Qed.

(** The keys of a relation: what [open_pg_tde_generate_internal_key] makes. *)
Definition cipher_len (cipher : Z) : option Z :=
  if cipher =? CIPHER_AES_128 then Some 16
  else if cipher =? CIPHER_AES_256 then Some 32
  else if cipher =? CIPHER_AES_128_XTS then Some 32
  else if cipher =? CIPHER_AES_256_XTS then Some 64
  else None.

Definition InternalKey_wf (k : InternalKey) : Prop :=
  cipher_len (ik_cipher k) = Some (ik_key_len k) ∧
  length (ik_base_iv k) = 16%nat ∧ length (ik_key k) = 64%nat.

Lemma cipher_len_cases c n :
  cipher_len c = Some n → (c = 0 ∧ n = 16) ∨ (c = 1 ∧ n = 32) ∨ (c = 2 ∧ n = 32) ∨ (c = 3 ∧ n = 64).
Proof.
  unfold cipher_len, CIPHER_AES_128, CIPHER_AES_256, CIPHER_AES_128_XTS, CIPHER_AES_256_XTS.
  destruct (c =? 0) eqn:?; [intros; simplify_eq; lia|].
  destruct (c =? 1) eqn:?; [intros; simplify_eq; lia|].
  destruct (c =? 2) eqn:?; [intros; simplify_eq; lia|].
  destruct (c =? 3) eqn:?; intros; simplify_eq; lia.
Qed.

(** A well-formed key's cipher is registered, with the key's length. *)
Lemma wf_key_suite k w :
  InternalKey_wf k →
  ∃ c, TdeCipherById tde_registry (ik_cipher k) w = Ok c w ∧
       c ∈ tde_ciphers tde_registry ∧ tc_key_len c = ik_key_len k.
Proof.
  intros (Hc & _ & _). destruct k as [len c iv key]; simpl in *.
  apply cipher_len_cases in Hc as [[-> ->]|[[-> ->]|[[-> ->]|[-> ->]]]];
    (eexists; split; [reflexivity|]; split; [|reflexivity]); simpl; set_solver.
Qed.

Definition page_ivec (k : InternalKey) (f bn : Z) : bytes := CalcBlockIv f bn (ik_base_iv k).

(** The page function of a key: cipher, key bytes and IV determine it. *)
Definition page_fn (k : InternalKey) (enc : bool) (f bn : Z) (p : bytes) : option bytes :=
  match find (λ c, tc_id c =? ik_cipher k) (tde_ciphers tde_registry) with
  | Some c => Some (page_crypt (ctx_cipher (suite_ctx c)) enc (ik_key_bytes k) (page_ivec k f bn) p)
  | None => None
  end.

Lemma smgr_block_run_ctx k enc f bn p w :
  InternalKey_wf k → page_ok p → ctxs_ok w →
  ∃ w' out, (c ← TdeCipherById tde_registry (ik_cipher k);
         call_block_crypt (if enc : bool then tc_encrypt_block c else tc_decrypt_block c)
           (ik_key k) (ik_key_len k) (page_ivec k f bn) p) w = Ok out w' ∧
        page_fn k enc f bn p = Some out ∧ length out = length p ∧ ctxs_ok w' ∧
        ∃ n cc, w' = put_cc n cc w.
Proof.
  intros Hk Hp Hok. destruct (wf_key_suite k w Hk) as (c & E & Hc & Hl).
  destruct Hk as (Hk & Hiv & Hkey). apply page_ok_blocks in Hp as [Hp1 Hp2].
  rewrite (bind_ok _ _ _ _ _ E), <-Hl.
  destruct (suite_run c enc (ik_key k) (page_ivec k f bn) p w) as (w' & E' & Hok' & cc & Ew); try done.
  { rewrite Hl, Hkey. apply cipher_len_cases in Hk. lia. }
  { by apply CalcBlockIv_length. }
  exists w'. rewrite E'. eexists. split; [done|]. split_and!; [|by rewrite page_crypt_length|done|by eauto].
  unfold page_fn. unfold TdeCipherById in E.
  destruct (find _ _) as [c'|] eqn:?; [|done]. injection E as ->.
  unfold ik_key_bytes. by rewrite <-Hl.
Qed.

Lemma smgr_block_run k enc f bn p w :
  InternalKey_wf k → page_ok p → ctxs_ok w →
  ∃ w' out, (c ← TdeCipherById tde_registry (ik_cipher k);
         call_block_crypt (if enc : bool then tc_encrypt_block c else tc_decrypt_block c)
           (ik_key k) (ik_key_len k) (page_ivec k f bn) p) w = Ok out w' ∧
        page_fn k enc f bn p = Some out ∧ length out = length p ∧ ctxs_ok w'.
Proof.
  intros Hk Hp Hok. destruct (smgr_block_run_ctx k enc f bn p w Hk Hp Hok) as (w' & out & H1 & H2 & H3 & H4 & _).
  by exists w', out.
Qed.

Lemma page_fn_inv k f f' bn p ct :
  InternalKey_wf k → page_ok p → iv_fork f = iv_fork f' →
  page_fn k true f bn p = Some ct → page_fn k false f' bn ct = Some p.
Proof.
  intros Hk Hp Hf. unfold page_fn.
  destruct (find _ _) as [c|] eqn:Ec; [|done]. intros [= <-]. f_equal.
  unfold page_ivec. rewrite (CalcBlockIv_eq f'), <-Hf, <-CalcBlockIv_eq.
  destruct Hk as (Hk & Hiv & Hkey). apply page_ok_blocks in Hp as [Hp1 Hp2].
  apply page_crypt_inv; [|by apply CalcBlockIv_length|done|done].
  unfold ik_key_bytes. rewrite length_take, Hkey.
  apply find_some in Ec as [Hin Hid%Z.eqb_eq]. apply list_elem_of_In, registry_cases in Hin.
  destruct k as [len cph iv key]; simpl in *.
  apply cipher_len_cases in Hk.
  destruct Hin as [->|[->|[->| ->]]]; simpl in Hid; subst cph;
    destruct Hk as [[? ->]|[[? ->]|[[? ->]|[? ->]]]]; done.
Qed.

Lemma all_zero32_zeros p : all_zero32 p = true ↔ ∀ i b, (i < 32)%nat → p !! i = Some b → b = x00.
Proof.
  unfold all_zero32. rewrite forallb_forall.
  split.
  - intros H i b Hi Hb. specialize (H b). rewrite bool_decide_eq_true in H. apply H.
    apply list_elem_of_In, list_elem_of_lookup. exists i. by rewrite lookup_take_lt.
  - intros H b Hb. rewrite bool_decide_eq_true.
    apply list_elem_of_In, list_elem_of_lookup in Hb as [i Hi].
    apply lookup_take_Some in Hi as [Hi ?]. by eapply H.
Qed.

(** Reading a page back: the page that was written, unless its ciphertext
    begins with 32 zero bytes, which is left as it is. *)
Lemma smgr_block_readback k f f' bn p w ct w1 :
  InternalKey_wf k → page_ok p → ctxs_ok w → iv_fork f = iv_fork f' →
  tde_encrypt_smgr_block k f bn p w = Ok ct w1 →
  ∀ w2, ctxs_ok w2 →
  ∃ w3, tde_decrypt_smgr_block k f' bn ct ct w2 = Ok (if all_zero32 ct then ct else p) w3 ∧
        ctxs_ok w3.
Proof.
  intros Hk Hp Hok Hf E w2 Hw2.
  destruct (smgr_block_run k true f bn p w Hk Hp Hok) as (w1' & ct' & E' & Hfn & Hl & Hw1).
  assert (ct' = ct) as ->. { unfold tde_encrypt_smgr_block in E. fold (page_ivec k f bn) in E. congruence. }
  unfold tde_decrypt_smgr_block. destruct (all_zero32 ct); [by eexists|].
  fold (page_ivec k f' bn).
  assert (page_ok ct) as Hct by (unfold page_ok in *; by rewrite Hl).
  destruct (smgr_block_run k false f' bn ct w2 Hk Hct Hw2) as (w3 & out & E3 & Hfn3 & _ & Hw3).
  exists w3. split; [|done]. rewrite E3. f_equal.
  rewrite (page_fn_inv k f f' bn p ct) in Hfn3 by done. by injection Hfn3.
Qed.

Lemma encrypt_total k f bn p w :
  InternalKey_wf k → page_ok p → ctxs_ok w →
  ∃ ct w1, tde_encrypt_smgr_block k f bn p w = Ok ct w1 ∧ length ct = length p ∧ ctxs_ok w1.
Proof.
  intros Hk Hp Hok.
  destruct (smgr_block_run k true f bn p w Hk Hp Hok) as (w1 & ct & E & _ & Hl & Hw1).
  by exists ct, w1.
Qed.

Lemma generate_internal_key_wf c k w w' :
  open_pg_tde_generate_internal_key c w = Ok k w' →
  InternalKey_wf k ∧ ik_cipher k = c ∧
  drop (Z.to_nat (ik_key_len k)) (ik_key k) = zeros (64 - Z.to_nat (ik_key_len k)).
Proof.
  unfold open_pg_tde_generate_internal_key. intros H. minv H.
  assert (cipher_len c = Some r) as Hr.
  { unfold open_pg_tde_cipher_key_length, ereport, mret, M_ret in E. unfold cipher_len.
    repeat (case_match; [by simplify_eq|]). by simplify_eq. }
  minv H. destruct r0 as [kb|]; [|done]. minv H. destruct r0 as [iv|]; [|done].
  injection H as <- <-. simpl. unfold rand_bytes in *. simplify_eq.
  match goal with H : RAND_bytes _ r = _ |- _ => apply RAND_bytes_length in H; rename H into L1 end.
  match goal with H : RAND_bytes _ _ = _ |- _ => apply RAND_bytes_length in H; rename H into L2 end.
  pose proof (cipher_len_cases _ _ Hr) as Hcases. unfold INTERNAL_KEY_IV_LEN in L2.
  split_and!; simpl; [|done|].
  - split_and!; simpl; [done|lia|]. rewrite overwrite_length, zeros_length.
    unfold INTERNAL_KEY_MAX_LEN. lia.
  - unfold overwrite. simpl. rewrite drop_app_length' by lia.
    unfold zeros. rewrite drop_replicate. f_equal. unfold INTERNAL_KEY_MAX_LEN. lia.
Qed.

End pages.

(** ** Streams *)

Section streams.
Context {SSL : OpenSSL} {Spec : OpenSSLSpec SSL}.

(** The key stream byte for the position [p] of the file. *)
Definition keystream_byte (key iv_prefix : bytes) (p : Z) : byte :=
  byte_at (Z.to_nat (p mod 16)) (aes_block key (ctr_block iv_prefix (p / 16))).

(** What encrypting a stream means, byte by byte. *)
Definition stream_ref (key iv_prefix : bytes) (start : Z) (data : bytes) : bytes :=
  imap (λ i b, byte_xor b (keystream_byte key iv_prefix (start + Z.of_nat i))) data.

Lemma byte_at_lookup i (l : bytes) : (i < length l)%nat → l !! i = Some (byte_at i l).
Proof.
  intros H. destruct (lookup_lt_is_Some_2 l i H) as [b Hb].
  rewrite Hb. f_equal. symmetry. by apply nth_lookup_Some.
Qed.

Lemma byte_at_Some i (l : bytes) b : l !! i = Some b → byte_at i l = b.
Proof. apply nth_lookup_Some. Qed.

Lemma xor_distinct_lookup n out data pos ks koff i :
  (pos + n ≤ length out)%nat →
  length (tde_xor_stream_distinct n out data pos ks koff) = length out ∧
  tde_xor_stream_distinct n out data pos ks koff !! i =
    if decide (pos ≤ i < pos + n)%nat
    then Some (byte_xor (byte_at i data) (byte_at (koff + (i - pos)) ks)) else out !! i.
Proof.
  revert out pos koff. induction n as [|n IH]; intros out pos koff H; simpl.
  - rewrite decide_False by lia. done.
  - destruct (IH (<[pos:=byte_xor (byte_at pos data) (byte_at koff ks)]> out) (S pos) (S koff))
      as [IH1 IH2]; [rewrite length_insert; lia|].
    rewrite IH1, IH2, length_insert. split; [done|].
    destruct (decide (i = pos)) as [->|Hne].
    + rewrite decide_False, decide_True by lia. rewrite list_lookup_insert_eq by lia.
      by rewrite Nat.sub_diag, Nat.add_0_r.
    + destruct (decide (pos ≤ i < pos + S n)%nat).
      * rewrite decide_True by lia. by replace (S koff + (i - S pos))%nat with (koff + (i - pos))%nat by lia.
      * rewrite decide_False by lia. by rewrite list_lookup_insert_ne.
Qed.

Lemma byte_at_insert_ne i j b (l : bytes) : i ≠ j → byte_at i (<[j:=b]> l) = byte_at i l.
Proof.
  intros H. unfold byte_at. rewrite !nth_lookup. by rewrite list_lookup_insert_ne.
Qed.

(** In place, the bytes still to be read are not changed by the bytes
    already written. *)
Lemma xor_in_place_distinct n buf data pos ks koff :
  (∀ i, (pos ≤ i)%nat → byte_at i buf = byte_at i data) →
  tde_xor_stream n buf pos ks koff = tde_xor_stream_distinct n buf data pos ks koff.
Proof.
  revert buf pos koff. induction n as [|n IH]; intros buf pos koff H; simpl; [done|].
  rewrite H by lia. apply IH. intros i Hi. rewrite byte_at_insert_ne by lia. apply H. lia.
Qed.

Lemma keystream_blocks_lookup key iv_prefix b1 b2 q :
  (12 ≤ length iv_prefix)%nat → 0 <= b1 → (q < 16 * Z.to_nat (b2 - b1))%nat →
  byte_at q (keystream_blocks key iv_prefix b1 b2) =
    keystream_byte key iv_prefix (16 * b1 + Z.of_nat q).
Proof.
  intros Hiv Hb Hq. apply byte_at_Some. unfold keystream_blocks.
  assert (∀ j, length (aes_block key (ctr_block iv_prefix j)) = 16%nat) as Hl
    by (intros; apply aes_block_length; by apply ctr_block_length).
  rewrite (concat_sizes_lookup 16) by (lia || (rewrite Forall_fmap; by apply Forall_true)).
  assert (q / 16 < Z.to_nat (b2 - b1))%nat by (apply Nat.Div0.div_lt_upper_bound; lia).
  rewrite list_lookup_fmap, lookup_seqZ_lt by lia. cbn [fmap option_fmap option_map mbind option_bind].
  rewrite byte_at_lookup by (rewrite Hl; apply Nat.mod_upper_bound; lia).
  unfold keystream_byte. f_equal.
  replace (16 * b1 + Z.of_nat q) with (Z.of_nat q + b1 * 16) by lia.
  rewrite Z.mod_add, Z.div_add by lia. f_equal.
  - rewrite <-(Nat2Z.id (q mod 16)), Nat2Z.inj_mod. done.
  - f_equal. f_equal. rewrite Nat2Z.inj_div. lia.
Qed.

(** One batch loop: from a state in which the bytes before [di] are done to
    one in which all are. *)
Lemma stream_crypt_loop_ok fuel key key_len iv_prefix start len data src out0 b di first out p w :
  let k := take (Z.to_nat key_len) key in
  let e := (start + len + 15) / 16 in
  let off := if first : bool then start mod 16 else 0 in
  gcm_key_len_ok key key_len → (12 ≤ length iv_prefix)%nat →
  0 <= start → 0 <= len → start + len + 15 < 2 ^ 32 →
  len <= Z.of_nat (length out0) → len <= Z.of_nat (length src) →
  (data = Some src ∨ data = None ∧ src = out0) →
  ecb_ctx_ok key key_len p →
  0 <= b → 0 <= di <= len → (b < e → 16 * b + off = start + di) → (e <= b → di = len) →
  e - b <= 200 * Z.of_nat fuel →
  length out = length out0 →
  (∀ i, out !! i = if decide (i < Z.to_nat di)%nat
                   then Some (byte_xor (byte_at i src) (keystream_byte k iv_prefix (start + Z.of_nat i)))
                   else out0 !! i) →
  ∃ out' p', stream_crypt_loop fuel fn_AesCtrEncryptedZeroBlocks iv_prefix b e (start mod 16) first
               di len data out key key_len p w = Ok (out', p') w ∧
    ecb_ctx_ok key key_len p' ∧ length out' = length out0 ∧
    (∀ i, out' !! i = if decide (i < Z.to_nat len)%nat
                   then Some (byte_xor (byte_at i src) (keystream_byte k iv_prefix (start + Z.of_nat i)))
                   else out0 !! i).
Proof.
  intros k e off Hk Hiv Hs Hlen Hmax Hl1 Hl2 Hdata.
  assert (start + len <= 16 * e <= start + len + 15) as He
    by (unfold e; pose proof (Z.div_mod (start + len + 15) 16); pose proof (Z.mod_pos_bound (start + len + 15) 16); lia).
  clearbody e. revert b di first off out p.
  induction fuel as [|fuel IH]; intros b di first off out p Hp Hb Hdi Hpos Hend Hfuel Hlo Hout; simpl.
  { rewrite (proj2 (Z.ltb_ge b e)) by lia. exists out, p. rewrite Hend in Hout by lia. done. }
  destruct (Z.ltb_spec b e) as [Hbe|Hbe].
  2:{ exists out, p. rewrite Hend in Hout by lia. done. }
  specialize (Hpos Hbe). clear Hend. unfold NUM_AES_BLOCKS_IN_BATCH, AES_BLOCK_SIZE.
  rewrite u64_small by (unfold is_u64; lia).
  set (be := Z.min (b + 200) e).
  assert (0 <= off < 16) as Hoff
    by (unfold off; destruct first; [apply Z.mod_pos_bound|]; lia).
  destruct (AesCtrEncryptedZeroBlocks_ok p key key_len iv_prefix b be w) as (ctx & E & Hctx);
    [done..|lia|lia|].
  rewrite (bind_ok _ _ _ _ _ E). fold k.
  fold off. rewrite (u32_small (_ - off)) by (unfold is_u32; lia).
  rewrite (u32_small (di + ((be - b) * 16 - off))) by (unfold is_u32; lia).
  set (cur := if len <? di + ((be - b) * 16 - off) then u32 (len - di) else (be - b) * 16 - off).
  assert (cur = Z.min (len - di) ((be - b) * 16 - off)) as Hcur.
  { unfold cur. destruct (Z.ltb_spec len (di + ((be - b) * 16 - off))); [rewrite u32_small|];
      unfold is_u32; lia. }
  clearbody cur. rewrite (u32_small (di + cur)) by (unfold is_u32; lia).
  set (out1 := match data with Some _ => _ | None => _ end).
  assert (out1 = tde_xor_stream_distinct (Z.to_nat cur) out src (Z.to_nat di)
            (keystream_blocks k iv_prefix b be) (Z.to_nat off)) as Hout1.
  { unfold out1. destruct Hdata as [->|[-> ->]]; [done|]. apply xor_in_place_distinct.
    intros i Hi. unfold byte_at. rewrite !nth_lookup, Hout. by rewrite decide_False by lia. }
  clearbody out1. subst out1.
  pose proof (λ i, xor_distinct_lookup (Z.to_nat cur) out src (Z.to_nat di)
            (keystream_blocks k iv_prefix b be) (Z.to_nat off) i ltac:(lia)) as Hx.
  apply (IH (b + 200) (di + cur) false); try done; try lia.
  { rewrite (proj1 (Hx 0%nat)). done. }
  intros i. rewrite (proj2 (Hx i)), Hout.
  destruct (decide (Z.to_nat di ≤ i < Z.to_nat di + Z.to_nat cur)%nat).
  - rewrite decide_True by lia. do 2 f_equal.
    rewrite keystream_blocks_lookup by lia. f_equal. lia.
  - destruct (decide (i < Z.to_nat di)%nat); [rewrite decide_True by lia|rewrite decide_False by lia]; done.
Qed.

Lemma stream_ref_lookup key iv_prefix start data i :
  stream_ref key iv_prefix start data !! i =
    (λ b, byte_xor b (keystream_byte key iv_prefix (start + Z.of_nat i))) <$> data !! i.
Proof. unfold stream_ref. apply list_lookup_imap. Qed.

Lemma stream_ref_length key iv_prefix start data :
  length (stream_ref key iv_prefix start data) = length data.
Proof. apply length_imap. Qed.

Lemma stream_keystream_cipher key key_len w :
  gcm_key_len_ok key key_len →
  ∃ c, TdeCipherByKeyLen tde_registry key_len w = Ok c w ∧
       tc_keystream c = Some fn_AesCtrEncryptedZeroBlocks.
Proof. intros [[->| ->] _]; by eexists. Qed.

(** The batched loop computes the reference, in place and into another
    buffer, and leaves the rest of the buffer alone. *)
Lemma stream_crypt_ref iv_prefix start src in_place len out key key_len p w :
  gcm_key_len_ok key key_len → (12 ≤ length iv_prefix)%nat → ecb_ctx_ok key key_len p →
  0 <= start → 0 <= len → start + len + 15 < 2 ^ 32 →
  len <= Z.of_nat (length out) → len <= Z.of_nat (length src) →
  (in_place = true → src = out) →
  ∃ p', open_pg_tde_stream_crypt iv_prefix start (if in_place : bool then None else Some src) len
          out key key_len p w =
        Ok (stream_ref (take (Z.to_nat key_len) key) iv_prefix start (take (Z.to_nat len) src)
              ++ drop (Z.to_nat len) out, p') w ∧
        ecb_ctx_ok key key_len p'.
Proof.
  intros Hk Hiv Hp Hs Hl Hmax Ho Hsrc Hin. unfold open_pg_tde_stream_crypt, AES_BLOCK_SIZE.
  destruct (stream_keystream_cipher key key_len w Hk) as (c & E & Ec).
  rewrite (bind_ok _ _ _ _ _ E), Ec. rewrite u32_small by (unfold is_u32; lia).
  replace (start + len + (16 - 1)) with (start + len + 15) by lia.
  set (fuel := S _).
  destruct (stream_crypt_loop_ok fuel key key_len iv_prefix start len
    (if in_place then None else Some src) src out (start / 16) 0 true out p w)
    as (out' & p' & Eq & Hp' & Hlo & Hlook); try done; try lia.
  - destruct in_place; auto.
  - apply Z.div_pos; lia.
  - intros _. pose proof (Z.div_mod start 16). lia.
  - intros He. pose proof (Z.div_mod start 16). pose proof (Z.div_mod (start + len + 15) 16).
    pose proof (Z.mod_pos_bound start 16). pose proof (Z.mod_pos_bound (start + len + 15) 16). lia.
  - unfold fuel, NUM_AES_BLOCKS_IN_BATCH.
    set (n := (start + len + 15) / 16 - start / 16).
    assert (0 <= n) by (unfold n; apply Zle_minus_le_0, Z.div_le_mono; lia).
    pose proof (Z.div_mod n 200). pose proof (Z.mod_pos_bound n 200).
    pose proof (Z.div_pos n 200). lia.
  - exists p'. rewrite Eq. split; [|done]. do 2 f_equal. apply list_eq. intros i. rewrite Hlook.
    assert (length (stream_ref (take (Z.to_nat key_len) key) iv_prefix start (take (Z.to_nat len) src))
            = Z.to_nat len) as Hlr by (rewrite stream_ref_length, length_take; lia).
    destruct (decide (i < Z.to_nat len)%nat).
    + rewrite lookup_app_l, stream_ref_lookup, lookup_take_lt by lia.
      by rewrite (byte_at_lookup i src) by lia.
    + rewrite lookup_app_r, lookup_drop, Hlr by lia. f_equal. lia.
Qed.

(** The key stream cancels. *)
Lemma stream_ref_involutive key iv_prefix start data :
  stream_ref key iv_prefix start (stream_ref key iv_prefix start data) = data.
Proof.
  apply list_eq. intros i. rewrite !stream_ref_lookup.
  destruct (data !! i); simpl; [by rewrite byte_xor_involutive|done].
Qed.

(** Two adjacent pieces are encrypted like the whole. *)
Lemma stream_ref_app key iv_prefix start a b :
  stream_ref key iv_prefix start (a ++ b) =
    stream_ref key iv_prefix start a ++ stream_ref key iv_prefix (start + Z.of_nat (length a)) b.
Proof.
  unfold stream_ref. rewrite imap_app. f_equal. apply imap_ext. intros i x _. simpl.
  do 2 f_equal. lia.
Qed.

End streams.

(** ** Properties *)

Section properties.
Context {SSL : OpenSSL} {Spec : OpenSSLSpec SSL}.

(** A page written with a relation's key, fork and block number is read
    back as it was, for every cipher suite and state of the contexts; the one
    exception the code makes is a ciphertext that starts with 32 zero bytes,
    which is taken for an unencrypted zero page and returned as it is. *)
Theorem smgr_page_roundtrip k f bn p w w2 :
  InternalKey_wf k → page_ok p → ctxs_ok w → ctxs_ok w2 →
  ∃ ct w1 w3, tde_encrypt_smgr_block k f bn p w = Ok ct w1 ∧ page_ok ct ∧ ctxs_ok w1 ∧
    tde_decrypt_smgr_block k f bn ct ct w2 = Ok (if all_zero32 ct then ct else p) w3 ∧ ctxs_ok w3.
Proof.
  intros Hk Hp Hw Hw2. destruct (encrypt_total k f bn p w) as (ct & w1 & E & Hl & H1); [done..|].
  destruct (smgr_block_readback k f f bn p w ct w1 Hk Hp Hw eq_refl E w2 Hw2) as (w3 & E3 & H3).
  exists ct, w1, w3. split_and!; try done. unfold page_ok in *. by rewrite Hl.
Qed.

(** A page of the init fork, copied byte for byte to the main fork,
    decrypts there to the page that was written. *)
Theorem init_fork_copies k bn p w ct w1 w2 :
  InternalKey_wf k → page_ok p → ctxs_ok w → ctxs_ok w2 →
  tde_encrypt_smgr_block k INIT_FORKNUM bn p w = Ok ct w1 → all_zero32 ct = false →
  ∃ w3, tde_decrypt_smgr_block k MAIN_FORKNUM bn ct ct w2 = Ok p w3.
Proof.
  intros Hk Hp Hw Hw2 E Hz.
  destruct (smgr_block_readback k INIT_FORKNUM MAIN_FORKNUM bn p w ct w1 Hk Hp Hw eq_refl E w2 Hw2)
    as (w3 & E3 & _). exists w3. by rewrite Hz in E3.
Qed.

(** A zero page, as [smgrzeroextend] writes it, is returned unchanged by
    decryption, without a key being looked at. *)
Theorem zero_page_passes k f bn w :
  tde_decrypt_smgr_block k f bn (zeros (Z.to_nat BLCKSZ)) (zeros (Z.to_nat BLCKSZ)) w =
    Ok (zeros (Z.to_nat BLCKSZ)) w.
Proof.
  unfold tde_decrypt_smgr_block.
  assert (all_zero32 (zeros (Z.to_nat BLCKSZ)) = true) as ->; [|done].
  apply all_zero32_zeros. intros i b _ Hb. unfold zeros in Hb.
  by apply lookup_replicate in Hb as [-> _].
Qed.

(** Within one relation two pages have the same IV only if they have the
    same block number and the same fork, the init fork counting as the main
    fork. *)
Theorem block_iv_unique f1 b1 f2 b2 base_iv :
  valid_fork f1 → valid_fork f2 → is_u32 b1 → is_u32 b2 → length base_iv = 16%nat →
  CalcBlockIv f1 b1 base_iv = CalcBlockIv f2 b2 base_iv ↔ iv_fork f1 = iv_fork f2 ∧ b1 = b2.
Proof. apply CalcBlockIv_inj. Qed.

(** A generated relation key has the length its cipher needs, fits its
    buffers, and the unused part of the buffer is zero. *)
Theorem generated_key_wf c k w w' :
  open_pg_tde_generate_internal_key c w = Ok k w' →
  InternalKey_wf k ∧ ik_cipher k = c ∧
  drop (Z.to_nat (ik_key_len k)) (ik_key k) = zeros (64 - Z.to_nat (ik_key_len k)).
Proof. apply generate_internal_key_wf. Qed.

(** The cipher table: each suite is found by its id and by its name, ids
    are distinct, and the key length of the suite is the one
    open_pg_tde_cipher_key_length gives for its id. *)
Theorem cipher_registry_consistent w :
  Forall (λ c, TdeCipherById tde_registry (tc_id c) w = Ok c w ∧
               TdeCipherByName tde_registry (tc_name c) = Some c ∧
               open_pg_tde_cipher_key_length (tc_id c) w = Ok (tc_key_len c) w)
    (tde_ciphers tde_registry) ∧
  NoDup (tc_id <$> tde_ciphers tde_registry).
Proof. split; [by repeat constructor|]. by apply (bool_decide_unpack _). Qed.

(** C15: the batched stream encryption equals the byte-by-byte definition in
    which the key stream depends only on the position in the file, both in
    place and between two buffers; the rest of the buffer is untouched. *)
Theorem stream_crypt_positionwise iv_prefix start src in_place len out key key_len p w :
  gcm_key_len_ok key key_len → (12 ≤ length iv_prefix)%nat → ecb_ctx_ok key key_len p →
  0 <= start → 0 <= len → start + len + 15 < 2 ^ 32 →
  len <= Z.of_nat (length out) → len <= Z.of_nat (length src) →
  (in_place = true → src = out) →
  ∃ p', open_pg_tde_stream_crypt iv_prefix start (if in_place : bool then None else Some src) len
          out key key_len p w =
        Ok (stream_ref (take (Z.to_nat key_len) key) iv_prefix start (take (Z.to_nat len) src)
              ++ drop (Z.to_nat len) out, p') w ∧
        ecb_ctx_ok key key_len p'.
Proof. apply stream_crypt_ref. Qed.

(** Data written in two adjacent pieces, each with a context of its own,
    is decrypted as one piece. *)
Theorem stream_crypt_split_roundtrip iv_prefix start a b key key_len w :
  gcm_key_len_ok key key_len → (12 ≤ length iv_prefix)%nat → 0 <= start →
  start + Z.of_nat (length a + length b) + 15 < 2 ^ 32 →
  let la := Z.of_nat (length a) in let lb := Z.of_nat (length b) in
  ∃ ca p1 cb p2 p3,
    open_pg_tde_stream_crypt iv_prefix start None la a key key_len None w = Ok (ca, p1) w ∧
    open_pg_tde_stream_crypt iv_prefix (start + la) None lb b key key_len None w = Ok (cb, p2) w ∧
    open_pg_tde_stream_crypt iv_prefix start None (la + lb) (ca ++ cb) key key_len None w =
      Ok (a ++ b, p3) w.
Proof.
  intros Hk Hiv Hs Hmax la lb.
  assert (∀ st d, 0 <= st → st + Z.of_nat (length d) + 15 < 2 ^ 32 →
    ∃ p, open_pg_tde_stream_crypt iv_prefix st None (Z.of_nat (length d)) d key key_len None w =
         Ok (stream_ref (take (Z.to_nat key_len) key) iv_prefix st d, p) w) as Hrun.
  { intros st d Hst Hd.
    destruct (stream_crypt_ref iv_prefix st d true (Z.of_nat (length d)) d key key_len None w)
      as (p & E & _); try done; try lia.
    exists p. rewrite E. rewrite Nat2Z.id, drop_ge, app_nil_r, (take_ge d) by lia. done. }
  destruct (Hrun start a) as (p1 & E1); [lia..|]. destruct (Hrun (start + la) b) as (p2 & E2); [unfold la; lia..|].
  set (ca := stream_ref _ _ _ a) in *. set (cb := stream_ref _ _ _ b) in *.
  destruct (Hrun start (ca ++ cb)) as (p3 & E3).
  { done. } { unfold ca, cb. rewrite length_app, !stream_ref_length. lia. }
  exists ca, p1, cb, p2, p3. split_and!; [done|done|].
  unfold ca, cb in E3. rewrite length_app, !stream_ref_length, Nat2Z.inj_add in E3.
  unfold la, lb, ca, cb. rewrite E3. do 2 f_equal.
  rewrite <-stream_ref_app. apply stream_ref_involutive.
Qed.

(** C27: the offset and the length are 32-bit: past 4 GB the number of blocks
    wraps around, the loop does not run, and the data stays as it is. *)
Theorem stream_crypt_wraps iv_prefix start len out key key_len p w :
  gcm_key_len_ok key key_len → is_u32 start → 0 <= len <= 2 ^ 32 - 16 →
  2 ^ 32 <= start + len + 15 →
  open_pg_tde_stream_crypt iv_prefix start None len out key key_len p w = Ok (out, p) w.
Proof.
  intros Hk [Hs1 Hs2] Hl Hmax. unfold open_pg_tde_stream_crypt, AES_BLOCK_SIZE.
  destruct (stream_keystream_cipher key key_len w Hk) as (c & E & Ec).
  rewrite (bind_ok _ _ _ _ _ E), Ec. simpl.
  assert (u32 (start + len + (16 - 1)) = start + len + 15 - 2 ^ 32) as ->.
  { unfold u32. symmetry. apply (Z.mod_unique _ _ 1); lia. }
  rewrite (proj2 (Z.ltb_ge _ _)); [done|]. apply Z.div_le_mono; lia.
Qed.

End properties.

Definition rel_key_example : InternalKey := mkInternalKey 64 CIPHER_AES_256_XTS iv_example key_example.
Definition page_example : bytes := replicate (Z.to_nat BLCKSZ) x41.

Lemma page_example_ok : page_ok page_example.
Proof. unfold page_ok, page_example. rewrite length_replicate. done. Defined.

Lemma rel_key_example_wf : InternalKey_wf rel_key_example.
Proof. by split_and!. Defined.

Lemma smgr_page_roundtrip_witness :
  ∃ ct w1 w3, tde_encrypt_smgr_block rel_key_example 0 7 page_example world1 = Ok ct w1 ∧ page_ok ct ∧
    ctxs_ok w1 ∧
    tde_decrypt_smgr_block rel_key_example 0 7 ct ct world1 = Ok (if all_zero32 ct then ct else page_example) w3 ∧
    ctxs_ok w3.
Proof.
  apply (smgr_page_roundtrip rel_key_example 0 7 page_example world1 world1); try apply world1_ok; [done|].
  apply page_example_ok.
Defined.

(** The example page encrypted as block 7 of the init fork. *)
Definition init_page : bytes :=
  match tde_encrypt_smgr_block rel_key_example INIT_FORKNUM 7 page_example world1 with
  | Ok ct _ => ct | Err _ _ => [] end.

Lemma init_fork_copies_witness :
  ∃ w3, tde_decrypt_smgr_block rel_key_example MAIN_FORKNUM 7 init_page init_page world1 =
          Ok page_example w3.
Proof.
  destruct (encrypt_total rel_key_example INIT_FORKNUM 7 page_example world1) as (ct & w1 & E & _ & _);
    [done|apply page_example_ok|apply world1_ok|].
  assert (init_page = ct) as Hct by (unfold init_page; by rewrite E).
  assert (all_zero32 init_page = false) as Hz by (vm_compute; reflexivity).
  rewrite <-Hct in E.
  refine (init_fork_copies rel_key_example 7 page_example world1 init_page w1 world1
            rel_key_example_wf page_example_ok world1_ok world1_ok E Hz).
Defined.

Lemma block_iv_unique_witness :
  CalcBlockIv 0 1 iv_example = CalcBlockIv 3 1 iv_example ↔ iv_fork 0 = iv_fork 3 ∧ 1 = 1.
Proof. apply block_iv_unique; unfold valid_fork, MAIN_FORKNUM, INIT_FORKNUM, is_u32; (lia || done). Defined.

Lemma generated_key_wf_witness :
  let k := mkInternalKey 32 CIPHER_AES_256 (le_enc 16 (4 * 104729 ^ 9))
             (write_at 0 (le_enc 32 (3 * 104729 ^ 9)) (zeros 64)) in
  InternalKey_wf k ∧ ik_cipher k = CIPHER_AES_256 ∧ drop 32 (ik_key k) = zeros 32.
Proof.
  intros k. apply (generated_key_wf CIPHER_AES_256 k world0 (set_rand 2 world0)). reflexivity.
Defined.

Lemma stream_crypt_positionwise_witness :
  ∃ p', open_pg_tde_stream_crypt iv_example 5 None 3 [x61; x62; x63; x64] key_example 32 None world0 =
        Ok (stream_ref (take 32 key_example) iv_example 5 [x61; x62; x63] ++ [x64], p') world0 ∧
        ecb_ctx_ok key_example 32 p'.
Proof.
  apply (stream_crypt_positionwise iv_example 5 [x61; x62; x63; x64] true 3 [x61; x62; x63; x64]
           key_example 32 None world0); try done; try (simpl; lia).
  split; [by right|simpl; lia].
Defined.

Lemma stream_crypt_split_roundtrip_witness :
  ∃ ca p1 cb p2 p3,
    open_pg_tde_stream_crypt iv_example 30 None 2 [x61; x62] key_example 16 None world0 = Ok (ca, p1) world0 ∧
    open_pg_tde_stream_crypt iv_example 32 None 1 [x63] key_example 16 None world0 = Ok (cb, p2) world0 ∧
    open_pg_tde_stream_crypt iv_example 30 None 3 (ca ++ cb) key_example 16 None world0 =
      Ok ([x61; x62; x63], p3) world0.
Proof.
  apply (stream_crypt_split_roundtrip iv_example 30 [x61; x62] [x63] key_example 16 world0);
    try done; try (simpl; lia). split; [by left|simpl; lia].
Defined.

Lemma stream_crypt_wraps_witness :
  open_pg_tde_stream_crypt iv_example (2 ^ 32 - 16) None 16 (replicate 16 x61) key_example 16 None world0 =
    Ok (replicate 16 x61, None) world0.
Proof.
  apply (stream_crypt_wraps iv_example (2 ^ 32 - 16) 16 (replicate 16 x61) key_example 16 None world0);
    unfold is_u32; try lia. split; [by left|simpl; lia].
Defined.
