(* ===== verification/KeyringOptions.v ===== *)
(** catalog/tde_keyring_parse_opts.c: the JSON options of a key provider.

    The parser of the server is a parameter: it turns a text into the sequence
    of calls of semantic actions it makes, and says whether it accepts the text
    in the end. The actions of the extension are functions on the parser
    state. *)
From S2P Require Import Prelude Types Environ.

(** ** The JSON parser of the server (common/jsonapi.h) *)

Inductive JsonTokenType := JSON_TOKEN_STRING | JSON_TOKEN_NUMBER | JSON_TOKEN_TRUE | JSON_TOKEN_FALSE | JSON_TOKEN_NULL.

#[export] Instance JsonTokenType_eq_dec : EqDecision JsonTokenType.
Proof. solve_decision. Defined.

(** The calls of semantic actions; where [JsonSemAction] has NULL nothing is
    called. *)
Inductive JsonEvent :=
| JsonObjectStart
| JsonObjectEnd
| JsonArrayStart
| JsonFieldStart (fname : bytes) (isnull : bool)
| JsonScalar (token : bytes) (tokentype : JsonTokenType).

(** The calls made for a text, up to its end or to the first syntax error, and
    whether the text is valid. *)
Class JsonApi := pg_parse_json : bytes → list JsonEvent * bool.

(** A string of ASCII characters without zeros. *)
Definition ascii_string (bs : bytes) : bool := forallb (λ b, (0 <? b2z b) && (b2z b <? 128)) bs.

Definition ascii_fields (fields : list (bytes * option bytes)) : bool :=
  forallb (λ '(fname, value), ascii_string fname && from_option ascii_string true value) fields.

(** The calls made for the fields of an object whose values are strings or
    null, and for the object. *)
Definition field_events (fields : list (bytes * option bytes)) : list JsonEvent :=
  mjoin ((λ '(fname, value),
    match value with
    | Some token => [JsonFieldStart fname false; JsonScalar token JSON_TOKEN_STRING]
    | None => [JsonFieldStart fname true; JsonScalar (bytes_of "null") JSON_TOKEN_NULL]
    end) <$> fields).

Definition object_events (fields : list (bytes * option bytes)) : list JsonEvent :=
  JsonObjectStart :: field_events fields ++ [JsonObjectEnd].

(** What can be relied on: every such object can be written as a text that the
    parser accepts, making these calls. *)
Class JsonApiSpec (J : JsonApi) := {
  render : list (bytes * option bytes) → bytes;
  render_cstr fields : ascii_fields fields = true → cstr (render fields) = render fields;
  parse_render fields :
    ascii_fields fields = true → pg_parse_json (render fields) = (object_events fields, true);
}.

(** ** Parser state *)

Inductive JsonKeyringSemState := JK_EXPECT_TOP_LEVEL_OBJECT | JK_EXPECT_FIELD.

Inductive JsonKeyringField :=
| JK_FIELD_UNKNOWN
| JK_FILE_PATH
| JK_OPENBAO_TOKEN_PATH
| JK_OPENBAO_URL
| JK_OPENBAO_MOUNT_PATH
| JK_OPENBAO_CA_PATH
| JK_OPENBAO_NAMESPACE
| JK_KMIP_HOST
| JK_KMIP_PORT
| JK_KMIP_CA_PATH
| JK_KMIP_CERT_PATH
| JK_KMIP_KEY_PATH.

#[export] Instance JsonKeyringField_eq_dec : EqDecision JsonKeyringField.
Proof. solve_decision. Defined.

Definition JK_FIELD_NAMES (f : JsonKeyringField) : string :=
  match f with
  | JK_FIELD_UNKNOWN => "unknownField"
  | JK_FILE_PATH => "path"
  | JK_OPENBAO_TOKEN_PATH => "tokenPath"
  | JK_OPENBAO_URL => "url"
  | JK_OPENBAO_MOUNT_PATH => "mountPath"
  | JK_OPENBAO_CA_PATH => "caPath"
  | JK_OPENBAO_NAMESPACE => "namespace"
  | JK_KMIP_HOST => "host"
  | JK_KMIP_PORT => "port"
  | JK_KMIP_CA_PATH => "caPath"
  | JK_KMIP_CERT_PATH => "certPath"
  | JK_KMIP_KEY_PATH => "keyPath"
  end.

Record JsonKeyringState := mkJsonKeyringState {
  jk_provider_type : Z;
  jk_provider_opts : KeyringSpecific;
  jk_current_field : JsonKeyringField;
  jk_state : JsonKeyringSemState;
}.

Inductive JsonParseErrorType := JSON_SUCCESS | JSON_INVALID_TOKEN.

Definition set_opts (o : KeyringSpecific) (p : JsonKeyringState) : JsonKeyringState :=
  mkJsonKeyringState (jk_provider_type p) o (jk_current_field p) (jk_state p).
Definition set_field (f : JsonKeyringField) (p : JsonKeyringState) : JsonKeyringState :=
  mkJsonKeyringState (jk_provider_type p) (jk_provider_opts p) f (jk_state p).
Definition set_state (s : JsonKeyringSemState) (p : JsonKeyringState) : JsonKeyringState :=
  mkJsonKeyringState (jk_provider_type p) (jk_provider_opts p) (jk_current_field p) s.

Section options.
Context {SSL : OpenSSL}.

(** ** Semantic actions *)

Definition json_kring_array_start (parse : JsonKeyringState) : M (JsonKeyringState * JsonParseErrorType) :=
  match jk_state parse with
  | JK_EXPECT_TOP_LEVEL_OBJECT => ereport ERROR "key provider options must be an object"
  | JK_EXPECT_FIELD => ereport ERROR "unexpected array in field"
  end.

Definition json_kring_object_start (parse : JsonKeyringState) : M (JsonKeyringState * JsonParseErrorType) :=
  match jk_state parse with
  | JK_EXPECT_TOP_LEVEL_OBJECT => mret (set_state JK_EXPECT_FIELD parse, JSON_SUCCESS)
  | JK_EXPECT_FIELD => ereport ERROR "key provider value cannot be an object"
  end.

(** [strcmp (fname, JK_FIELD_NAMES[f]) == 0] *)
Definition is_field (fname : bytes) (f : JsonKeyringField) : bool :=
  strcmp_eq fname (bytes_of (JK_FIELD_NAMES f)).

Definition json_kring_object_field_start (parse : JsonKeyringState) (fname : bytes)
  : M (JsonKeyringState * JsonParseErrorType) :=
  match jk_state parse with
  | JK_EXPECT_TOP_LEVEL_OBJECT => ereport ERROR "invalid semantic state"
  | JK_EXPECT_FIELD =>
      let found f := mret (set_field f parse, JSON_SUCCESS) in
      if jk_provider_type parse =? FILE_KEY_PROVIDER then
        if is_field fname JK_FILE_PATH then found JK_FILE_PATH
        else ereport ERROR "unexpected field for file provider"
      else if jk_provider_type parse =? OPENBAO_KEY_PROVIDER then
        if is_field fname JK_OPENBAO_TOKEN_PATH then found JK_OPENBAO_TOKEN_PATH
        else if is_field fname JK_OPENBAO_URL then found JK_OPENBAO_URL
        else if is_field fname JK_OPENBAO_MOUNT_PATH then found JK_OPENBAO_MOUNT_PATH
        else if is_field fname JK_OPENBAO_CA_PATH then found JK_OPENBAO_CA_PATH
        else if is_field fname JK_OPENBAO_NAMESPACE then found JK_OPENBAO_NAMESPACE
        else ereport ERROR "unexpected field for openbao provider"
      else if jk_provider_type parse =? KMIP_KEY_PROVIDER then
        if is_field fname JK_KMIP_HOST then found JK_KMIP_HOST
        else if is_field fname JK_KMIP_PORT then found JK_KMIP_PORT
        else if is_field fname JK_KMIP_CA_PATH then found JK_KMIP_CA_PATH
        else if is_field fname JK_KMIP_CERT_PATH then found JK_KMIP_CERT_PATH
        else if is_field fname JK_KMIP_KEY_PATH then found JK_KMIP_KEY_PATH
        else ereport ERROR "unexpected field for kmip provider"
      else if jk_provider_type parse =? UNKNOWN_KEY_PROVIDER then mret (parse, JSON_INVALID_TOKEN)
      else mret (parse, JSON_SUCCESS)
  end.

(** The assignment [((FileKeyring * ) opts)->file_name = value] and the like;
    [None] when the field is not one of the structure. *)
Definition assign_field (opts : KeyringSpecific) (field : JsonKeyringField) (value : option bytes)
  : option KeyringSpecific :=
  match opts, field with
  | FileKeyring _, JK_FILE_PATH => Some (FileKeyring (string_of <$> value))
  | OpenBaoKeyring tk _ url ca mp ns, JK_OPENBAO_TOKEN_PATH => Some (OpenBaoKeyring tk value url ca mp ns)
  | OpenBaoKeyring tk tp _ ca mp ns, JK_OPENBAO_URL => Some (OpenBaoKeyring tk tp value ca mp ns)
  | OpenBaoKeyring tk tp url ca _ ns, JK_OPENBAO_MOUNT_PATH => Some (OpenBaoKeyring tk tp url ca value ns)
  | OpenBaoKeyring tk tp url _ mp ns, JK_OPENBAO_CA_PATH => Some (OpenBaoKeyring tk tp url value mp ns)
  | OpenBaoKeyring tk tp url ca mp _, JK_OPENBAO_NAMESPACE => Some (OpenBaoKeyring tk tp url ca mp value)
  | KmipKeyring _ port ca cert key, JK_KMIP_HOST => Some (KmipKeyring value port ca cert key)
  | KmipKeyring host _ ca cert key, JK_KMIP_PORT => Some (KmipKeyring host value ca cert key)
  | KmipKeyring host port _ cert key, JK_KMIP_CA_PATH => Some (KmipKeyring host port value cert key)
  | KmipKeyring host port ca _ key, JK_KMIP_CERT_PATH => Some (KmipKeyring host port ca value key)
  | KmipKeyring host port ca cert _, JK_KMIP_KEY_PATH => Some (KmipKeyring host port ca cert value)
  | _, _ => None
  end.

Definition json_kring_assign_scalar (parse : JsonKeyringState) (field : JsonKeyringField) (value : option bytes)
  : M JsonKeyringState :=
  if bool_decide (field = JK_FIELD_UNKNOWN) then ereport ERROR "json keyring: unexpected scalar field"
  else
    match assign_field (jk_provider_opts parse) field value with
    | Some o => mret (set_opts o parse)
    | None => ereport PANIC "field outside of the structure"
    end.

Definition json_kring_scalar (parse : JsonKeyringState) (token : bytes) (tokentype : JsonTokenType)
  : M (JsonKeyringState * JsonParseErrorType) :=
  match jk_state parse with
  | JK_EXPECT_TOP_LEVEL_OBJECT => ereport ERROR "key provider options must be an object"
  | JK_EXPECT_FIELD =>
      value ← match tokentype with
              | JSON_TOKEN_STRING | JSON_TOKEN_NUMBER => mret (Some token)
              | JSON_TOKEN_TRUE | JSON_TOKEN_FALSE => ereport ERROR "unexpected boolean in field"
              | JSON_TOKEN_NULL => mret None
              end;
      parse ← json_kring_assign_scalar parse (jk_current_field parse) value;
      mret (parse, JSON_SUCCESS)
  end.

(** ** The parser runs the actions *)

Definition json_action (parse : JsonKeyringState) (e : JsonEvent) : M (JsonKeyringState * JsonParseErrorType) :=
  match e with
  | JsonObjectStart => json_kring_object_start parse
  | JsonObjectEnd => mret (parse, JSON_SUCCESS)
  | JsonArrayStart => json_kring_array_start parse
  | JsonFieldStart fname _ => json_kring_object_field_start parse fname
  | JsonScalar token tokentype => json_kring_scalar parse token tokentype
  end.

(** Stops at the first action that does not succeed. *)
Fixpoint json_run (parse : JsonKeyringState) (es : list JsonEvent) : M (JsonKeyringState * JsonParseErrorType) :=
  match es with
  | [] => mret (parse, JSON_SUCCESS)
  | e :: es =>
      '(parse, r) ← json_action parse e;
      match r with
      | JSON_SUCCESS => json_run parse es
      | JSON_INVALID_TOKEN => mret (parse, r)
      end
  end.

Context {J : JsonApi}.

(** Returns the options the caller's structure holds afterwards. *)
Definition ParseKeyringJSONOptions (provider_type : Z) (out_opts : KeyringSpecific) (in_buf : bytes)
  : M KeyringSpecific :=
  let '(es, valid) := pg_parse_json in_buf in
  '(parse, r) ← json_run (mkJsonKeyringState provider_type out_opts JK_FIELD_UNKNOWN JK_EXPECT_TOP_LEVEL_OBJECT) es;
  match r with
  | JSON_INVALID_TOKEN => ereport ERROR "invalid input syntax for type json"
  | JSON_SUCCESS =>
      if valid : bool then mret (jk_provider_opts parse) else ereport ERROR "invalid input syntax for type json"
  end.

End options.
