(* ===== verification/KeyringOptionsThms.v ===== *)
(** The options of key providers: parsing an object is the same as assigning
    its fields one after the other, and an object with a foreign field is
    refused. *)
From S2P Require Import Prelude Types Environ Instances KeyringOptions.

(** ** Reference definition *)

(** The fields of the structure of a provider type. *)
Definition type_fields (t : Z) : list JsonKeyringField :=
  if t =? FILE_KEY_PROVIDER then [JK_FILE_PATH]
  else if t =? OPENBAO_KEY_PROVIDER then
    [JK_OPENBAO_TOKEN_PATH; JK_OPENBAO_URL; JK_OPENBAO_MOUNT_PATH; JK_OPENBAO_CA_PATH; JK_OPENBAO_NAMESPACE]
  else if t =? KMIP_KEY_PROVIDER then
    [JK_KMIP_HOST; JK_KMIP_PORT; JK_KMIP_CA_PATH; JK_KMIP_CERT_PATH; JK_KMIP_KEY_PATH]
  else [].

Definition field_of (t : Z) (fname : bytes) : option JsonKeyringField :=
  snd <$> list_find (λ f, is_field fname f = true) (type_fields t).

(** The structure belongs to the type. *)
Definition opts_of_type (t : Z) (o : KeyringSpecific) : bool :=
  match o with
  | FileKeyring _ => t =? FILE_KEY_PROVIDER
  | KmipKeyring _ _ _ _ _ => t =? KMIP_KEY_PROVIDER
  | OpenBaoKeyring _ _ _ _ _ _ => t =? OPENBAO_KEY_PROVIDER
  end.

(** Assigns the fields from left to right; the last value of a field counts. *)
Fixpoint assign_fields (t : Z) (fields : list (bytes * option bytes)) (o : KeyringSpecific) : option KeyringSpecific :=
  match fields with
  | [] => Some o
  | (fname, value) :: fields => f ← field_of t fname; o ← assign_field o f value; assign_fields t fields o
  end.

Section parse.
Context {SSL : OpenSSL}.

Lemma type_fields_cases t :
  is_Some (head (type_fields t)) → t = FILE_KEY_PROVIDER ∨ t = OPENBAO_KEY_PROVIDER ∨ t = KMIP_KEY_PROVIDER.
Proof.
  unfold type_fields. destruct (Z.eqb_spec t FILE_KEY_PROVIDER); [by left|].
  destruct (Z.eqb_spec t OPENBAO_KEY_PROVIDER); [by right; left|].
  destruct (Z.eqb_spec t KMIP_KEY_PROVIDER); [by right; right|]. by intros [].
Qed.

Lemma opts_of_type_cases t o :
  opts_of_type t o = true → t = FILE_KEY_PROVIDER ∨ t = OPENBAO_KEY_PROVIDER ∨ t = KMIP_KEY_PROVIDER.
Proof. destruct o; simpl; intros H%Z.eqb_eq; auto. Qed.

(** A field name is looked up among the fields of the type. *)
Lemma field_start_ok p fname w :
  jk_state p = JK_EXPECT_FIELD → opts_of_type (jk_provider_type p) (jk_provider_opts p) = true →
  match field_of (jk_provider_type p) fname with
  | Some f => json_kring_object_field_start p fname w = Ok (set_field f p, JSON_SUCCESS) w
  | None => ∃ msg, json_kring_object_field_start p fname w = Err (mkError ERROR msg) w
  end.
Proof.
  intros Hs Ho. unfold json_kring_object_field_start, field_of. rewrite !Hs.
  destruct (opts_of_type_cases _ _ Ho) as [->|[->| ->]];
    unfold type_fields; simpl;
    repeat match goal with
      | |- context [is_field fname ?f] => destruct (is_field fname f); simpl; [done|]
      end; by eexists.
Qed.

Lemma assign_in_type t o f v :
  opts_of_type t o = true → f ∈ type_fields t →
  f ≠ JK_FIELD_UNKNOWN ∧ ∃ o', assign_field o f v = Some o' ∧ opts_of_type t o' = true.
Proof.
  intros Ho Hf. pose proof Ho as Ho'. destruct o; simpl in Ho; apply Z.eqb_eq in Ho as ->; simpl in Hf;
    repeat (apply elem_of_cons in Hf as [->|Hf]; [split; [done|by eexists]|]); by apply elem_of_nil in Hf.
Qed.

Lemma field_of_in t fname f : field_of t fname = Some f → f ∈ type_fields t.
Proof.
  unfold field_of. intros ((i & f') & (Hi & _)%list_find_Some & ->)%fmap_Some. by eapply list_elem_of_lookup_2.
Qed.

Lemma field_events_cons fname value fields :
  field_events ((fname, value) :: fields) =
    match value with
    | Some token => [JsonFieldStart fname false; JsonScalar token JSON_TOKEN_STRING]
    | None => [JsonFieldStart fname true; JsonScalar (bytes_of "null") JSON_TOKEN_NULL]
    end ++ field_events fields.
Proof. done. Qed.

Lemma json_run_fields fields p w :
  jk_state p = JK_EXPECT_FIELD → opts_of_type (jk_provider_type p) (jk_provider_opts p) = true →
  match assign_fields (jk_provider_type p) fields (jk_provider_opts p) with
  | Some o => ∃ f, json_run p (field_events fields) w =
                Ok (mkJsonKeyringState (jk_provider_type p) o f JK_EXPECT_FIELD, JSON_SUCCESS) w
  | None => ∃ msg, json_run p (field_events fields) w = Err (mkError ERROR msg) w
  end.
Proof.
  revert p. induction fields as [|[fname value] fields IH]; intros p Hs Ho.
  { exists (jk_current_field p). simpl. by rewrite <-Hs; destruct p. }
  simpl assign_fields. rewrite field_events_cons. pose proof (field_start_ok p fname w Hs Ho) as Hstart.
  destruct (field_of _ fname) as [f|] eqn:Ef; simpl.
  - destruct (assign_in_type _ _ f value Ho (field_of_in _ _ _ Ef)) as (Hf & o' & Ea & Ho'). rewrite Ea. simpl.
    assert (∀ tk ty, (value = Some tk ∧ ty = JSON_TOKEN_STRING ∨ value = None ∧ ty = JSON_TOKEN_NULL) →
      json_kring_scalar (set_field f p) tk ty w = Ok (set_opts o' (set_field f p), JSON_SUCCESS) w) as Hscalar.
    { intros tk ty Hv. unfold json_kring_scalar, json_kring_assign_scalar. simpl. rewrite Hs.
      rewrite bool_decide_false by done. destruct Hv as [[-> ->]|[-> ->]]; mstep; simpl; by rewrite Ea. }
    specialize (IH (set_opts o' (set_field f p)) Hs Ho'). simpl in IH.
    assert (∀ tk ty b, (value = Some tk ∧ ty = JSON_TOKEN_STRING ∨ value = None ∧ ty = JSON_TOKEN_NULL) →
      json_run p ([JsonFieldStart fname b; JsonScalar tk ty] ++ field_events fields) w =
      json_run (set_opts o' (set_field f p)) (field_events fields) w) as Hrun.
    { intros tk ty b Hv. simpl. rewrite (bind_ok _ _ _ _ _ Hstart). cbv beta iota.
      by rewrite (bind_ok _ _ _ _ _ (Hscalar tk ty Hv)). }
    destruct value as [token|]; rewrite Hrun by auto; exact IH.
  - destruct Hstart as [msg Hstart]. exists msg. destruct value; simpl; by rewrite (bind_err _ _ _ _ _ Hstart).
Qed.

Context {J : JsonApi} {JS : JsonApiSpec J}.

Lemma json_run_end es p w :
  json_run p (es ++ [JsonObjectEnd]) w = json_run p es w.
Proof.
  revert p w. induction es as [|e es IH]; intros p w; [done|]. cbn [app json_run]. unfold mbind, M_bind.
  destruct (json_action p e w) as [[p' []] w'|]; [apply IH|done|done].
Qed.

(** The parser hands the fields of an object to the actions. *)
Lemma parse_object t fields o w :
  ascii_fields fields = true →
  ParseKeyringJSONOptions t o (render fields) w =
    match json_run (mkJsonKeyringState t o JK_FIELD_UNKNOWN JK_EXPECT_FIELD) (field_events fields) w with
    | Ok (p, JSON_SUCCESS) w' => Ok (jk_provider_opts p) w'
    | Ok (_, JSON_INVALID_TOKEN) w' => Err (mkError ERROR "invalid input syntax for type json") w'
    | Err e w' => Err e w'
    end.
Proof.
  intros Hf. unfold ParseKeyringJSONOptions. rewrite parse_render by done.
  change (object_events fields) with (JsonObjectStart :: field_events fields ++ [JsonObjectEnd]).
  cbn [json_run json_action json_kring_object_start jk_state]. rewrite bind_assoc. mstep. cbv beta iota.
  unfold mbind, M_bind. rewrite json_run_end. change (set_state _ _) with (mkJsonKeyringState t o JK_FIELD_UNKNOWN JK_EXPECT_FIELD).
  by destruct (json_run _ _ w) as [[p []] w'|e w'].
Qed.

Lemma parse_options_ok t fields o o' w :
  opts_of_type t o = true → ascii_fields fields = true → assign_fields t fields o = Some o' →
  ParseKeyringJSONOptions t o (render fields) w = Ok o' w.
Proof.
  intros Ho Hf E. rewrite parse_object by done.
  pose proof (json_run_fields fields (mkJsonKeyringState t o JK_FIELD_UNKNOWN JK_EXPECT_FIELD) w eq_refl Ho) as H.
  simpl in H. rewrite E in H. by destruct H as [f ->].
Qed.

(** The options of a provider given as an object of strings and nulls are
    the assignments of its fields from left to right, for the structure of the
    provider's type; an object with a field the type does not have is refused.
    Nothing else happens. *)
Theorem parse_options_assigns t fields o w :
  opts_of_type t o = true → ascii_fields fields = true →
  match assign_fields t fields o with
  | Some o' => ParseKeyringJSONOptions t o (render fields) w = Ok o' w
  | None => ∃ msg, ParseKeyringJSONOptions t o (render fields) w = Err (mkError ERROR msg) w
  end.
Proof.
  intros Ho Hf. rewrite parse_object by done.
  pose proof (json_run_fields fields (mkJsonKeyringState t o JK_FIELD_UNKNOWN JK_EXPECT_FIELD) w eq_refl Ho) as H.
  simpl in H. destruct (assign_fields t fields o) as [o'|]; destruct H as [x ->]; [done|by exists x].
Qed.

End parse.

(** ** A parser for objects of strings *)

Fixpoint json_escape (s : bytes) : bytes :=
  match s with
  | [] => []
  | b :: s => if bool_decide (b = x22) || bool_decide (b = x5c) then x5c :: b :: json_escape s else b :: json_escape s
  end.

(** After the opening quote: the string and what follows its closing quote. *)
Fixpoint lex_string (bs : bytes) : option (bytes * bytes) :=
  match bs with
  | [] => None
  | b :: r =>
      if bool_decide (b = x22) then Some ([], r)
      else if bool_decide (b = x5c) then
        match r with
        | c :: r => '(s, r) ← lex_string r; Some (c :: s, r)
        | [] => None
        end
      else '(s, r) ← lex_string r; Some (b :: s, r)
  end.

Lemma lex_escape s r : lex_string (json_escape s ++ x22 :: r) = Some (s, r).
Proof.
  induction s as [|b s IH]; [done|]. cbn [json_escape].
  destruct (bool_decide_reflect (b = x22)) as [->|H1]; [cbn; by rewrite IH|].
  destruct (bool_decide_reflect (b = x5c)) as [->|H2]; [cbn; by rewrite IH|].
  cbn. rewrite !bool_decide_false by done. by rewrite IH.
Qed.

Fixpoint render_members (fields : list (bytes * option bytes)) : bytes :=
  match fields with
  | [] => [x7d]
  | (fname, value) :: fields =>
      x22 :: json_escape fname ++ x22 :: x3a ::
      match value with Some v => x22 :: json_escape v ++ [x22] | None => bytes_of "null" end ++
      match fields with [] => [x7d] | _ => x2c :: render_members fields end
  end.

Definition parse_value (fname bs : bytes) : list JsonEvent * option bytes :=
  match bs with
  | x22 :: bs =>
      match lex_string bs with
      | Some (token, bs) => ([JsonFieldStart fname false; JsonScalar token JSON_TOKEN_STRING], Some bs)
      | None => ([JsonFieldStart fname false], None)
      end
  | x6e :: x75 :: x6c :: x6c :: bs =>
      ([JsonFieldStart fname true; JsonScalar (bytes_of "null") JSON_TOKEN_NULL], Some bs)
  | _ => ([JsonFieldStart fname false], None)
  end.

Fixpoint parse_members (fuel : nat) (bs : bytes) : list JsonEvent * bool :=
  match fuel, bs with
  | S fuel, x22 :: bs =>
      match lex_string bs with
      | Some (fname, x3a :: bs) =>
          let '(es, rest) := parse_value fname bs in
          match rest with
          | Some [x7d] => (es ++ [JsonObjectEnd], true)
          | Some (x2c :: bs) => let '(es', ok) := parse_members fuel bs in (es ++ es', ok)
          | _ => (es, false)
          end
      | _ => ([], false)
      end
  | _, _ => ([], false)
  end.

#[global] Instance ToyJson : JsonApi := λ bs,
  match bs with
  | [x7b; x7d] => ([JsonObjectStart; JsonObjectEnd], true)
  | x7b :: bs => let '(es, ok) := parse_members (length bs) bs in (JsonObjectStart :: es, ok)
  | _ => ([], false)
  end.

Definition toy_render (fields : list (bytes * option bytes)) : bytes := x7b :: render_members fields.

Lemma parse_value_ok fname value r :
  parse_value fname (match value with Some v => x22 :: json_escape v ++ [x22] | None => bytes_of "null" end ++ r) =
    (match value with
     | Some token => [JsonFieldStart fname false; JsonScalar token JSON_TOKEN_STRING]
     | None => [JsonFieldStart fname true; JsonScalar (bytes_of "null") JSON_TOKEN_NULL]
     end, Some r).
Proof.
  destruct value as [v|]; [|done]. simpl. rewrite <-app_assoc. simpl. by rewrite lex_escape.
Qed.

Lemma parse_members_ok fuel fields :
  fields ≠ [] → (length fields ≤ fuel)%nat →
  parse_members fuel (render_members fields) = (field_events fields ++ [JsonObjectEnd], true).
Proof.
  revert fields. induction fuel as [|fuel IH]; intros [|[fname value] fields] Hne Hl; [done|simpl in Hl; lia|done|].
  cbn [render_members parse_members]. rewrite lex_escape, parse_value_ok, field_events_cons.
  destruct fields as [|f fields]; [by rewrite app_nil_r|]. rewrite IH; [by rewrite app_assoc|done|simpl in *; lia].
Qed.

Lemma render_members_length fields : (length fields ≤ length (render_members fields))%nat.
Proof.
  induction fields as [|[fname value] fields IH]; simpl; [lia|].
  rewrite !length_app. simpl. rewrite length_app. destruct fields; simpl in *; lia.
Qed.

Lemma cstr_nonzero bs : Forall (λ b, b ≠ x00) bs → cstr bs = bs.
Proof. induction 1 as [|b bs Hb _ IH]; [done|]. simpl. by rewrite decide_False, IH. Qed.

Lemma escape_nonzero s : ascii_string s = true → Forall (λ b, b ≠ x00) (json_escape s).
Proof.
  unfold ascii_string. induction s as [|b s IH]; [done|]. simpl. intros [Hb Hs]%andb_prop.
  assert (b ≠ x00) by (intros ->; done). destruct (_ || _); repeat constructor; auto.
Qed.

Lemma members_nonzero fields : ascii_fields fields = true → Forall (λ b, b ≠ x00) (render_members fields).
Proof.
  unfold ascii_fields. induction fields as [|[fname value] fields IH]; [by repeat constructor|].
  simpl. intros [[Hn Hv]%andb_prop Hf]%andb_prop.
  assert (Forall (λ b, b ≠ x00) match value with Some v => x22 :: json_escape v ++ [x22] | None => bytes_of "null" end).
  { destruct value; simpl in *; [|by repeat constructor]. constructor; [done|]. apply Forall_app.
    split; [by apply escape_nonzero|by repeat constructor]. }
  constructor; [done|]. apply Forall_app. split; [by apply escape_nonzero|]. do 2 (constructor; [done|]).
  apply Forall_app. split; [done|]. destruct fields; [by repeat constructor|]. constructor; [done|by apply IH].
Qed.

#[global] Instance ToyJsonSpec : JsonApiSpec ToyJson.
Proof.
  refine {| render := toy_render |}.
  - intros fields H. apply cstr_nonzero. constructor; [done|by apply members_nonzero].
  - intros fields _. destruct fields as [|[n v] fields]; [done|]. set (f := (n, v)).
    change (pg_parse_json (toy_render (f :: fields))) with
      (let '(es, ok) := parse_members (length (render_members (f :: fields))) (render_members (f :: fields)) in
       (JsonObjectStart :: es, ok)).
    rewrite parse_members_ok; [done|done|apply render_members_length].
Defined.

Lemma parse_options_assigns_witness :
  ParseKeyringJSONOptions FILE_KEY_PROVIDER (FileKeyring None)
    (render [(bytes_of "path", None); (bytes_of "path", Some (bytes_of "/keys"))]) world0 =
    Ok (FileKeyring (Some "/keys")) world0 ∧
  ∃ msg, ParseKeyringJSONOptions FILE_KEY_PROVIDER (FileKeyring None) (render [(bytes_of "url", None)]) world0 =
    Err (mkError ERROR msg) world0.
Proof.
  split.
  - exact (parse_options_assigns FILE_KEY_PROVIDER
      [(bytes_of "path", None); (bytes_of "path", Some (bytes_of "/keys"))] (FileKeyring None) world0 eq_refl eq_refl).
  - exact (parse_options_assigns FILE_KEY_PROVIDER [(bytes_of "url", None)] (FileKeyring None) world0 eq_refl eq_refl).
Defined.
