(* ===== verification/Guc.v ===== *)
(** open_pg_tde_guc.c: the settings that decide which keys are generated.

    The server keeps the list of allowed names of an enum setting, looks a name
    up without regard to case, stores the value and calls the assign hook; that
    part of guc.c is [set_enum]. *)
From S2P Require Import Prelude Types Environ Instances Ciphers EncTde.

(** [struct config_enum_entry], less the [hidden] flag *)
Definition config_enum_entry : Type := string * Z.

Definition DATA_CIPHER_INHERIT : Z := -1.

Definition cipher_options : list config_enum_entry :=
  [("aes_128", CIPHER_AES_128); ("aes_256", CIPHER_AES_256)].

Definition data_cipher_options : list config_enum_entry :=
  [("inherit", DATA_CIPHER_INHERIT); ("aes_xts", CIPHER_AES_128_XTS); ("aes_256_xts", CIPHER_AES_256_XTS)].

Section guc.
Context {SSL : OpenSSL} {PP : PgPort}.

Definition set_session_cipher (c : Z) (s : Session) : Session :=
  mkSession (KeyLength s) c (DataCipher s) (AllowInheritGlobalProviders s) (is_superuser s) (MyDatabaseId s)
    (IsUnderPostmaster s) (InCrashRecovery s) (IsBinaryUpgrade s) (EnforceEncryption s)
    (default_table_access_method s).
Definition set_session_data_cipher (c : Z) (s : Session) : Session :=
  mkSession (KeyLength s) (Cipher s) c (AllowInheritGlobalProviders s) (is_superuser s) (MyDatabaseId s)
    (IsUnderPostmaster s) (InCrashRecovery s) (IsBinaryUpgrade s) (EnforceEncryption s)
    (default_table_access_method s).
Definition set_session_key_length (n : Z) (s : Session) : Session :=
  mkSession n (Cipher s) (DataCipher s) (AllowInheritGlobalProviders s) (is_superuser s) (MyDatabaseId s)
    (IsUnderPostmaster s) (InCrashRecovery s) (IsBinaryUpgrade s) (EnforceEncryption s)
    (default_table_access_method s).

Definition modify_session (f : Session → Session) : M unit :=
  modify (λ w, set_session (f (w_session w)) w).

Definition assign_keys_size (newval : Z) : M unit :=
  n ← open_pg_tde_cipher_key_length newval;
  modify_session (set_session_key_length n).

(** [SET name = value] for an enum setting. *)
Definition set_enum (options : list config_enum_entry) (assign : Z → M unit) (value : string) : M unit :=
  match list_find (λ o, pg_strcasecmp_eq (String.list_byte_of_string value) (String.list_byte_of_string o.1))
          options with
  | Some (_, (_, v)) => assign v
  | None => ereport ERROR "invalid value for parameter"
  end.

(** The settings open_pg_tde.cipher and open_pg_tde.data_cipher. *)
Definition set_cipher (value : string) : M unit :=
  set_enum cipher_options (λ v, assign_keys_size v;; modify_session (set_session_cipher v)) value.

Definition set_data_cipher (value : string) : M unit :=
  set_enum data_cipher_options (λ v, modify_session (set_session_data_cipher v)) value.

(** What the settings can be: the boot values satisfy it. *)
Definition settings_ok (s : Session) : Prop :=
  (Cipher s ∈ cipher_options.*2) ∧ (DataCipher s ∈ data_cipher_options.*2) ∧
  KeyLength s = (if Cipher s =? CIPHER_AES_128 then 16 else 32).

Lemma set_enum_in options assign value w r w' :
  set_enum options assign value w = Ok r w' → ∃ v, v ∈ options.*2 ∧ assign v w = Ok r w'.
Proof.
  unfold set_enum. case_match eqn:E; [|done]. destruct p as [i [n v]].
  apply list_find_Some in E as (E & _). intros H. exists v. split; [|done].
  apply list_elem_of_fmap. exists (n, v). split; [done|]. by eapply list_elem_of_lookup_2.
Qed.

Lemma cipher_values v : v ∈ cipher_options.*2 ↔ v = CIPHER_AES_128 ∨ v = CIPHER_AES_256.
Proof. unfold cipher_options. simpl. set_solver. Qed.

Lemma data_cipher_values v :
  v ∈ data_cipher_options.*2 ↔ v = DATA_CIPHER_INHERIT ∨ v = CIPHER_AES_128_XTS ∨ v = CIPHER_AES_256_XTS.
Proof. unfold data_cipher_options. simpl. set_solver. Qed.

(** Setting either cipher keeps the settings consistent: the length of new
    principal keys is the one of the cipher. *)
Lemma set_cipher_ok value w w' :
  settings_ok (w_session w) → set_cipher value w = Ok tt w' → settings_ok (w_session w').
Proof.
  intros (_ & H2 & _) (v & Hv & E)%set_enum_in. unfold assign_keys_size in E.
  pose proof Hv as Hv'. apply cipher_values in Hv' as [-> | ->].
  all: injection E as <-; split_and!; [exact Hv|exact H2|done].
Qed.

Lemma set_data_cipher_ok value w w' :
  settings_ok (w_session w) → set_data_cipher value w = Ok tt w' → settings_ok (w_session w').
Proof. intros (H1 & _ & H3) (v & Hv & E)%set_enum_in. by injection E as <-. Qed.

End guc.
