(* ===== verification/KeyFile.v ===== *)
(** Key files in general: a header with the signed description of a principal
    key, followed by fixed-size entries.

    access/open_pg_tde_tdemap.c and access/open_pg_tde_xlog_keys.c contain the
    same functions for their two kinds of files, with other names, another
    magic number and other messages. They are written once here, for a
    [KeyFileKind]; KeyMap and WalKeys give them their names. The second half
    relates the bytes of such files to lists of entries. *)
From S2P Require Import Prelude Types Environ Instances Ciphers EncTde.

Record KeyFileKind := mkKeyFileKind {
  kf_magic : Z;
  kf_entry_size : Z;
  kf_could_not_open : string;
  kf_corrupted : string;
  kf_wrong_version_read : string;
  kf_wrong_version_write : string;
  kf_could_not_write_header : string;
  kf_could_not_write : string;
}.

Section functions.
Context {SSL : OpenSSL} {K : Kernel}.

(** [None] is a negative descriptor. *)
Definition key_file_open_basic (kf : KeyFileKind) (filename : string)
  (o_creat o_trunc ignore_missing : bool) : M (option string) :=
  r ← OpenTransientFile filename o_creat o_trunc;
  match r with
  | Fd fd => mret (Some fd)
  | OpenFailed ENOENT =>
      if ignore_missing then mret None else ereport ERROR (kf_could_not_open kf)
  | OpenFailed EIO => ereport ERROR (kf_could_not_open kf)
  end.

(** [None] when the file is empty. *)
Definition key_file_header_read (kf : KeyFileKind) (fd : string) : M (option KeyFileHeader) :=
  r ← pg_pread fd (Z.of_nat sizeof_KeyFileHeader) 0;
  match r with
  | Some [] => mret None
  | Some bs =>
      if Z.of_nat (length bs) =? Z.of_nat sizeof_KeyFileHeader
      then mret (Some (KeyFileHeader_decode bs))
      else ereport FATAL (kf_corrupted kf)
  | None => ereport FATAL (kf_corrupted kf)
  end.

(** Returns the number of bytes written. *)
Definition key_file_header_write (kf : KeyFileKind) (fd : string)
  (signed_key_info : TDESignedPrincipalKeyInfo) : M Z :=
  let fheader := mkKeyFileHeader (kf_magic kf) signed_key_info in
  bytes_written ← pg_pwrite fd (KeyFileHeader_encode fheader) 0;
  if negb (bytes_written =? Z.of_nat sizeof_KeyFileHeader)
  then ereport ERROR (kf_could_not_write_header kf)
  else
    r ← pg_fsync fd;
    if negb (r =? 0) then ereport data_sync_elevel_ERROR "could not fsync file"
    else mret bytes_written.

(** Checks the version and returns the number of bytes read. *)
Definition key_file_check_version (kf : KeyFileKind) (msg : string) (h : option KeyFileHeader) : M Z :=
  match h with
  | None => mret 0
  | Some fheader =>
      if fh_file_version fheader =? kf_magic kf
      then mret (Z.of_nat sizeof_KeyFileHeader)
      else ereport FATAL msg
  end.

(** Descriptor and position after the header; [None] is a negative
    descriptor. *)
Definition key_file_open_read (kf : KeyFileKind) (filename : string) (ignore_missing : bool)
  : M (option (string * Z)) :=
  r ← key_file_open_basic kf filename false false ignore_missing;
  match r with
  | None => mret None
  | Some fd =>
      h ← key_file_header_read kf fd;
      bytes_read ← key_file_check_version kf (kf_wrong_version_read kf) h;
      mret (Some (fd, bytes_read))
  end.

Definition key_file_open_write (kf : KeyFileKind) (filename : string)
  (signed_key_info : option TDESignedPrincipalKeyInfo) (truncate : bool) : M (string * Z) :=
  r ← key_file_open_basic kf filename true truncate false;
  match r with
  | None => ereport PANIC "unreachable: missing files are not ignored"
  | Some fd =>
      h ← key_file_header_read kf fd;
      bytes_read ← key_file_check_version kf (kf_wrong_version_write kf) h;
      bytes_written ← match signed_key_info with
                      | Some ski => if bytes_read =? 0 then key_file_header_write kf fd ski
                                    else mret 0
                      | None => mret 0
                      end;
      mret (fd, bytes_read + bytes_written)
  end.

(** The bytes of the entry at an offset and the next offset, [None] when they
    cannot be read. *)
Definition key_file_read_entry (kf : KeyFileKind) (fd : string) (offset : Z) : M (option (bytes * Z)) :=
  r ← pg_pread fd (kf_entry_size kf) offset;
  match r with
  | Some bs =>
      if Z.of_nat (length bs) =? kf_entry_size kf
      then mret (Some (bs, offset + Z.of_nat (length bs)))
      else mret None
  | None => mret None
  end.

(** Writes and syncs an entry; returns the next offset. *)
Definition key_file_write_entry (kf : KeyFileKind) (fd : string) (entry : bytes) (offset : Z) : M Z :=
  bytes_written ← pg_pwrite fd entry offset;
  if negb (bytes_written =? kf_entry_size kf) then ereport ERROR (kf_could_not_write kf)
  else
    r ← pg_fsync fd;
    if negb (r =? 0) then ereport data_sync_elevel_ERROR "could not fsync file"
    else mret (offset + bytes_written).

(** More than the number of entries of a file. *)
Definition file_fuel (fd : string) : M nat := gets (λ w, S (length (default [] (w_fs w !! fd)))).

Definition out_of_fuel {A} : M A := ereport PANIC "out of fuel".

End functions.

(** [snprintf ("%s.r", path)] *)
Definition tmp_path (path : string) : string := path +:+ ".r".

Lemma string_app_length s1 s2 : String.length (s1 +:+ s2) = (String.length s1 + String.length s2)%nat.
Proof. induction s1 as [|c s1 IH]; simpl; [done|by rewrite IH]. Qed.

Lemma tmp_path_ne p : tmp_path p ≠ p.
Proof.
  intros E. apply (f_equal String.length) in E. unfold tmp_path in E.
  rewrite string_app_length in E. simpl in E. lia.
Qed.

(** ** Files as lists of entries *)

Section layout.
Context {E : Type} (enc : E → bytes) (sz : nat) (wf : E → Prop).
Context (enc_length : ∀ e, wf e → length (enc e) = sz).

(** A header, entries, and a rest too short to be an entry. *)
Definition kfile (h : bytes) (es : list E) (t : bytes) : bytes := h ++ concat (enc <$> es) ++ t.

Definition kpos (i : nat) : Z := 320 + Z.of_nat sz * Z.of_nat i.

Lemma kpos_nonneg i : 0 <= kpos i.
Proof. unfold kpos. lia. Qed.

Lemma enc_sizes es : Forall wf es → Forall (λ c, length c = sz) (enc <$> es).
Proof. intros H. rewrite Forall_fmap. eapply Forall_impl; [exact H|done]. Qed.

Lemma concat_enc_length es : Forall wf es → length (concat (enc <$> es)) = (length es * sz)%nat.
Proof. intros H. rewrite (concat_sizes_length sz) by (by apply enc_sizes). by rewrite length_fmap. Qed.

Lemma kfile_length h es t :
  length h = 320%nat → Forall wf es →
  length (kfile h es t) = (320 + length es * sz + length t)%nat.
Proof. intros Hh Hes. unfold kfile. rewrite !length_app, concat_enc_length by done. lia. Qed.

(** The bytes at the position of an entry. *)
Lemma kfile_entry h es t i e :
  length h = 320%nat → Forall wf es → es !! i = Some e →
  slice (Z.to_nat (kpos i)) sz (kfile h es t) = enc e.
Proof.
  intros Hh Hes He. unfold kfile, kpos.
  rewrite <-(take_drop_middle es i e He), fmap_app, concat_app, fmap_cons, concat_cons.
  assert (length (concat (enc <$> take i es)) = i * sz)%nat as Hl.
  { rewrite concat_enc_length by (by apply Forall_take).
    rewrite length_take. apply lookup_lt_Some in He. f_equal. lia. }
  rewrite <-(app_assoc (concat _)), <-(app_assoc (enc e)).
  rewrite slice_app_r by lia. rewrite slice_app_r by lia.
  replace (_ - _ - _)%nat with 0%nat by lia. apply slice_here.
  apply enc_length. by eapply Forall_lookup_1.
Qed.

Lemma kfile_past h es t n :
  length h = 320%nat → Forall wf es →
  slice (Z.to_nat (kpos (length es))) n (kfile h es t) = slice 0 n t.
Proof.
  intros Hh Hes. unfold kfile, kpos.
  pose proof (concat_enc_length es Hes) as Hl.
  rewrite slice_app_r by lia. rewrite slice_app_r by lia. f_equal. lia.
Qed.

Lemma kfile_insert h es t i e :
  length h = 320%nat → Forall wf es → wf e → (i < length es)%nat →
  write_at (Z.to_nat (kpos i)) (enc e) (kfile h es t) = kfile h (<[i:=e]> es) t.
Proof.
  intros Hh Hes He Hi. unfold kfile, kpos.
  replace (Z.to_nat _) with (length h + i * sz)%nat by lia.
  rewrite concat_insert by (try (by apply enc_sizes); try (rewrite length_fmap; lia); by apply enc_length).
  by rewrite list_fmap_insert.
Qed.

Lemma kfile_snoc h es t e :
  length h = 320%nat → Forall wf es → wf e → (length t ≤ sz)%nat →
  write_at (Z.to_nat (kpos (length es))) (enc e) (kfile h es t) = kfile h (es ++ [e]) [].
Proof.
  intros Hh Hes He Ht. unfold kfile, kpos. rewrite app_nil_r.
  replace (Z.to_nat _) with (length h + length (enc <$> es) * sz)%nat by (rewrite length_fmap; lia).
  rewrite (concat_snoc sz) by (try (by apply enc_sizes); try lia; by apply enc_length).
  by rewrite fmap_app.
Qed.

End layout.

(** ** Files of records without a header *)

Section records.
Context {E : Type} (enc : E → bytes) (sz : nat) (wf : E → Prop).
Context (enc_length : ∀ e, wf e → length (enc e) = sz).

Definition rfile (es : list E) : bytes := concat (enc <$> es).

Lemma rfile_length es : Forall wf es → length (rfile es) = (length es * sz)%nat.
Proof. intros H. by apply (concat_enc_length enc sz wf). Qed.

Lemma rfile_slice es i :
  Forall wf es → slice (i * sz) sz (rfile es) = match es !! i with Some e => enc e | None => [] end.
Proof.
  intros H. destruct (es !! i) as [e|] eqn:Ei.
  - rewrite <-(take_drop_middle es i e Ei). unfold rfile. rewrite fmap_app, concat_app, fmap_cons.
    pose proof (rfile_length _ (Forall_take _ i _ H)) as Hl. unfold rfile in Hl.
    apply lookup_lt_Some in Ei as Hi. rewrite length_take, Nat.min_l in Hl by lia.
    rewrite slice_app_r, Hl, Nat.sub_diag by (by rewrite Hl). simpl. apply slice_here, enc_length.
    exact (Forall_lookup_1 _ _ _ _ H Ei).
  - apply lookup_ge_None in Ei. apply slice_past. rewrite rfile_length by done. nia.
Qed.

Lemma rfile_snoc es e :
  Forall wf es → wf e → write_at (length es * sz) (enc e) (rfile es) = rfile (es ++ [e]).
Proof.
  intros H He. unfold rfile. rewrite fmap_app.
  pose proof (concat_snoc sz (enc <$> es) (enc e) x00 [] []) as Hs.
  rewrite app_nil_r, length_fmap in Hs. simpl in Hs.
  apply Hs; [by apply (enc_sizes enc sz wf)|by apply enc_length|lia].
Qed.

Lemma rfile_insert es i e :
  Forall wf es → wf e → (i < length es)%nat →
  write_at (i * sz) (enc e) (rfile es) = rfile (<[i := e]> es).
Proof.
  intros H He Hi. unfold rfile. rewrite list_fmap_insert.
  pose proof (concat_insert sz (enc <$> es) i (enc e) x00 [] []) as Hs. simpl in Hs.
  rewrite !app_nil_r in Hs. apply Hs; [by apply (enc_sizes enc sz wf)|by rewrite length_fmap|by apply enc_length].
Qed.

End records.

(** ** The functions when no call fails *)

(** A valid header: the version of the kind. *)
Definition kf_header_ok (kf : KeyFileKind) (h : bytes) : Prop :=
  length h = 320%nat ∧ fh_file_version (KeyFileHeader_decode h) = kf_magic kf.

(** The header that is written for a principal key. *)
Definition kf_new_header (kf : KeyFileKind) (ski : TDESignedPrincipalKeyInfo) : bytes :=
  KeyFileHeader_encode (mkKeyFileHeader (kf_magic kf) ski).

Section nofaults.
Context {SSL : OpenSSL} {K : Kernel} {NF : NoFaults K} (kf : KeyFileKind).

Lemma kf_read_ok fd bs off w :
  w_fs w !! fd = Some bs → 0 <= off → 0 <= kf_entry_size kf →
  let c := slice (Z.to_nat off) (Z.to_nat (kf_entry_size kf)) bs in
  key_file_read_entry kf fd off w =
    Ok (if Z.of_nat (length c) =? kf_entry_size kf then Some (c, off + kf_entry_size kf) else None) w.
Proof.
  intros Hf Ho Hs c. unfold key_file_read_entry. mrun pread_ok. fold c.
  destruct (decide (Z.of_nat (length c) = kf_entry_size kf)) as [E|E].
  - by rewrite !E, !Z.eqb_refl.
  - apply Z.eqb_neq in E. by rewrite !E.
Qed.

Lemma kf_write_ok fd c off bs w :
  w_fs w !! fd = Some bs → Z.of_nat (length c) = kf_entry_size kf → 0 <= off →
  key_file_write_entry kf fd c off w =
    Ok (off + kf_entry_size kf) (set_fs (<[fd := write_at (Z.to_nat off) c bs]> (w_fs w)) w).
Proof.
  intros Hf Hc Ho. unfold key_file_write_entry. mrun pwrite_ok.
  rewrite Hc, Z.eqb_refl. cbn [negb]. cbv iota.
  by rewrite (bind_ok _ _ _ _ _ (fsync_ok _ _)).
Qed.

Lemma kf_header_read_ok fd h r w :
  w_fs w !! fd = Some (h ++ r) → length h = 320%nat →
  key_file_header_read kf fd w = Ok (Some (KeyFileHeader_decode h)) w.
Proof.
  intros Hf Hh. unfold key_file_header_read. mrun pread_ok.
  rewrite slice_here by (by rewrite Hh).
  destruct h as [|b h]; [done|]. rewrite Hh. done.
Qed.

Lemma kf_header_read_empty fd w :
  w_fs w !! fd = Some [] → key_file_header_read kf fd w = Ok None w.
Proof. intros Hf. unfold key_file_header_read. by mrun pread_ok. Qed.

Lemma kf_check_version_ok msg h w :
  kf_header_ok kf h → key_file_check_version kf msg (Some (KeyFileHeader_decode h)) w = Ok 320 w.
Proof. intros [_ Hv]. unfold key_file_check_version. by rewrite Hv, Z.eqb_refl. Qed.

Lemma kf_open_read_ok p h r im w :
  w_fs w !! p = Some (h ++ r) → kf_header_ok kf h →
  key_file_open_read kf p im w = Ok (Some (p, 320)) w.
Proof.
  intros Hf Hh. unfold key_file_open_read, key_file_open_basic.
  rewrite bind_assoc. rewrite (bind_ok _ _ _ _ _ (open_existing _ _ _ _ Hf)).
  rewrite (bind_ok _ _ _ _ _ (ret_ok _ _)).
  rewrite (bind_ok _ _ _ _ _ (kf_header_read_ok _ _ _ _ Hf (proj1 Hh))).
  by rewrite (bind_ok _ _ _ _ _ (kf_check_version_ok _ _ _ Hh)).
Qed.

Lemma kf_open_read_empty p im w :
  w_fs w !! p = Some [] → key_file_open_read kf p im w = Ok (Some (p, 0)) w.
Proof.
  intros Hf. unfold key_file_open_read, key_file_open_basic.
  rewrite bind_assoc. rewrite (bind_ok _ _ _ _ _ (open_existing _ _ _ _ Hf)).
  rewrite (bind_ok _ _ _ _ _ (ret_ok _ _)).
  by rewrite (bind_ok _ _ _ _ _ (kf_header_read_empty _ _ Hf)).
Qed.

Lemma kf_open_read_missing p w :
  w_fs w !! p = None → key_file_open_read kf p true w = Ok None w.
Proof.
  intros Hf. unfold key_file_open_read, key_file_open_basic.
  rewrite bind_assoc. by rewrite (bind_ok _ _ _ _ _ (open_missing _ _ _ Hf)).
Qed.

Lemma kf_open_write_ok p h r ski w :
  w_fs w !! p = Some (h ++ r) → kf_header_ok kf h →
  key_file_open_write kf p ski false w = Ok (p, 320) w.
Proof.
  intros Hf Hh. unfold key_file_open_write, key_file_open_basic.
  rewrite bind_assoc. rewrite (bind_ok _ _ _ _ _ (open_existing _ _ _ _ Hf)).
  rewrite (bind_ok _ _ _ _ _ (ret_ok _ _)).
  rewrite (bind_ok _ _ _ _ _ (kf_header_read_ok _ _ _ _ Hf (proj1 Hh))).
  rewrite (bind_ok _ _ _ _ _ (kf_check_version_ok _ _ _ Hh)). by destruct ski.
Qed.

Lemma kf_new_header_ok ski :
  - 2 ^ 31 <= kf_magic kf < 2 ^ 31 → SignedPKInfo_wf ski → kf_header_ok kf (kf_new_header kf ski).
Proof.
  intros Hm H. split; [by apply KeyFileHeader_encode_length|].
  unfold kf_new_header. by rewrite KeyFileHeader_decode_encode.
Qed.

Lemma kf_header_write_ok fd ski w :
  w_fs w !! fd = Some [] → SignedPKInfo_wf ski →
  key_file_header_write kf fd ski w = Ok 320 (set_fs (<[fd := kf_new_header kf ski]> (w_fs w)) w).
Proof.
  intros Hf Hs. unfold key_file_header_write. mrun pwrite_ok.
  rewrite KeyFileHeader_encode_length by done. simpl.
  rewrite (bind_ok _ _ _ _ _ (fsync_ok _ _)). simpl.
  unfold overwrite. simpl. by rewrite app_nil_r.
Qed.

(** Opening with truncation, or a file that is missing or empty, starts a
    file with the given header. *)
Lemma kf_open_write_new p ski trunc w :
  (trunc = true ∨ w_fs w !! p = None ∨ w_fs w !! p = Some []) → SignedPKInfo_wf ski →
  key_file_open_write kf p (Some ski) trunc w =
    Ok (p, 320) (set_fs (<[p := kf_new_header kf ski]> (w_fs w)) w).
Proof.
  intros Hf Hs. unfold key_file_open_write, key_file_open_basic.
  rewrite bind_assoc.
  assert (∃ w1, OpenTransientFile p true trunc w = Ok (Fd p) w1 ∧ w_fs w1 !! p = Some [] ∧
                set_fs (<[p:=kf_new_header kf ski]> (w_fs w1)) w1 =
                set_fs (<[p:=kf_new_header kf ski]> (w_fs w)) w) as (w1 & E & Hf1 & Hw1).
  { destruct (decide (trunc = true)) as [->|Htr].
    { rewrite open_trunc. eexists. split; [done|]. simpl. by rewrite lookup_insert_eq, insert_insert_eq. }
    destruct Hf as [?|[Hf|Hf]]; [done| |].
    - rewrite open_create by done. eexists. split; [done|]. simpl.
      by rewrite lookup_insert_eq, insert_insert_eq.
    - destruct trunc; [done|]. exists w. by rewrite (open_existing _ _ _ _ Hf). }
  rewrite (bind_ok _ _ _ _ _ E). rewrite (bind_ok _ _ _ _ _ (ret_ok _ _)).
  rewrite (bind_ok _ _ _ _ _ (kf_header_read_empty _ _ Hf1)).
  rewrite (bind_ok _ _ _ _ _ (ret_ok _ _ : key_file_check_version kf _ None w1 = _)).
  rewrite (bind_ok _ _ _ _ _ (kf_header_write_ok _ _ _ Hf1 Hs)). by rewrite Hw1.
Qed.

(** Opening for writing without a description does not add a header. *)
Lemma kf_open_write_empty p w :
  (w_fs w !! p = None ∨ w_fs w !! p = Some []) →
  ∃ f, key_file_open_write kf p None false w = Ok (p, 0) (set_fs f w) ∧
       f !! p = Some [] ∧ ∀ q, q ≠ p → f !! q = w_fs w !! q.
Proof.
  intros Hf. unfold key_file_open_write, key_file_open_basic. rewrite bind_assoc.
  destruct Hf as [Hf|Hf].
  - rewrite (bind_ok _ _ _ _ _ (open_create p false w Hf)).
    rewrite (bind_ok _ _ _ _ _ (ret_ok _ _)).
    rewrite (bind_ok _ _ _ _ _ (kf_header_read_empty p (set_fs (<[p:=[]]> (w_fs w)) w)
      (lookup_insert_eq _ _ _))).
    exists (<[p:=[]]> (w_fs w)). split; [done|].
    split; [apply lookup_insert_eq|]. intros q Hq. by rewrite lookup_insert_ne.
  - rewrite (bind_ok _ _ _ _ _ (open_existing p true w _ Hf)).
    rewrite (bind_ok _ _ _ _ _ (ret_ok _ _)).
    rewrite (bind_ok _ _ _ _ _ (kf_header_read_empty p w Hf)).
    exists (w_fs w). split; [by destruct w|done].
Qed.

End nofaults.

(** ** Which files the functions can change, whatever calls fail *)

Section frames.
Context {SSL : OpenSSL} {K : Kernel} (kf : KeyFileKind).

Lemma always_kf_read fd off : always same_files (key_file_read_entry kf fd off).
Proof. unfold key_file_read_entry. always_solve. Qed.

Lemma always_kf_write fd e off : always (touches fd) (key_file_write_entry kf fd e off).
Proof. unfold key_file_write_entry. always_solve. Qed.

Lemma always_kf_header_read fd : always same_files (key_file_header_read kf fd).
Proof. unfold key_file_header_read. always_solve. Qed.

Lemma always_kf_header_write fd s : always (touches fd) (key_file_header_write kf fd s).
Proof. unfold key_file_header_write. always_solve. Qed.

#[local] Hint Resolve always_kf_read always_kf_write always_kf_header_read always_kf_header_write : always.

Lemma always_kf_open_read p im : always same_files (key_file_open_read kf p im).
Proof. unfold key_file_open_read, key_file_open_basic, key_file_check_version. always_solve. Qed.

(** The descriptor is the path that was opened. *)
Lemma kf_open_basic_fd p cr tr im w fd w' :
  key_file_open_basic kf p cr tr im w = Ok (Some fd) w' → fd = p.
Proof.
  unfold key_file_open_basic. intros H. minv H. unfold OpenTransientFile in E.
  assert (r = Fd p ∨ ∃ e, r = OpenFailed e) as [->|[e ->]]
    by (repeat case_match; simplify_eq; eauto).
  - by injection H as <- <-.
  - destruct e, im; by simplify_eq.
Qed.

Lemma always_kf_open_basic p cr tr im : always (touches p) (key_file_open_basic kf p cr tr im).
Proof. unfold key_file_open_basic. always_solve. Qed.

Lemma always_kf_open_write p s tr : always (touches p) (key_file_open_write kf p s tr).
Proof.
  unfold key_file_open_write. apply (always_bind_dep _); [apply always_kf_open_basic|].
  intros w [fd|] w' E; [|always_solve]. apply kf_open_basic_fd in E as ->.
  unfold key_file_check_version. always_solve.
Qed.

Lemma kf_open_write_fd p s tr w r w' :
  key_file_open_write kf p s tr w = Ok r w' → fst r = p.
Proof.
  unfold key_file_open_write. intros H. minv H. destruct r0 as [fd|]; [|done].
  apply kf_open_basic_fd in E as ->. minv H. minv H. minv H. by injection H as <- <-.
Qed.

End frames.

#[export] Hint Resolve always_kf_read always_kf_write always_kf_header_read always_kf_header_write
  always_kf_open_read always_kf_open_basic always_kf_open_write : always.
