(* ===== verification/KeyMap.v ===== *)
(** The key files of databases, access/open_pg_tde_tdemap.c.

    A file "<dir>/<database>_keys" holds a header with the signed description
    of the principal key and fixed-size entries, each with the data key of one
    relation encrypted with the principal key. Functions are in the order of
    the source; the layouts come first. *)
From S2P Require Import Prelude Types Environ Ciphers EncTde KeyFile.

Definition MAP_ENTRY_TYPE_EMPTY : Z := 0.
Definition MAP_ENTRY_TYPE_KEY : Z := 1.

(** ** Layouts *)

Record TDEMapEntry := mkMapEntry {
  me_cipher : Z;
  me_spcOid : Z;
  me_relNumber : Z;
  me_type : Z;
  me_key_base_iv : bytes;
  me_entry_iv : bytes;
  me_aead_tag : bytes;
  me_encrypted_key_data : bytes;
}.

Definition sizeof_TDEMapEntry : Z := 128.
(** [offsetof (TDEMapEntry, entry_iv)] *)
Definition offsetof_entry_iv : nat := 32.

Definition TDEMapEntry_encode (e : TDEMapEntry) : bytes :=
  enc_u32 (me_cipher e) ++ enc_u32 (me_spcOid e) ++ enc_u32 (me_relNumber e) ++
  enc_u32 (me_type e) ++ me_key_base_iv e ++ me_entry_iv e ++ me_aead_tag e ++
  me_encrypted_key_data e.

(** The additional authenticated data of an entry: its first bytes. *)
Definition map_entry_aad (e : TDEMapEntry) : bytes := take offsetof_entry_iv (TDEMapEntry_encode e).
#[global] Arguments map_entry_aad : simpl never.
#[global] Arguments TDEMapEntry_encode : simpl never.

Definition TDEMapEntry_decode (bs : bytes) : TDEMapEntry :=
  {| me_cipher := le_dec (slice 0 4 bs);
     me_spcOid := le_dec (slice 4 4 bs);
     me_relNumber := le_dec (slice 8 4 bs);
     me_type := le_dec (slice 12 4 bs);
     me_key_base_iv := slice 16 16 bs;
     me_entry_iv := slice 32 16 bs;
     me_aead_tag := slice 48 16 bs;
     me_encrypted_key_data := slice 64 64 bs |}.

(** [TDEMapEntry e = {0}] *)
Definition TDEMapEntry_zero : TDEMapEntry := mkMapEntry 0 0 0 0 (zeros 16) (zeros 16) (zeros 16) (zeros 64).

(** Versions 4 and 5 have the same fields in another order; the key buffer
    has 32 bytes in version 4 and 64 in version 5. *)
Definition TDEMapEntryV45_decode (key_size : nat) (bs : bytes) : TDEMapEntry :=
  {| me_cipher := le_dec (slice 0 4 bs);
     me_spcOid := le_dec (slice 4 4 bs);
     me_relNumber := le_dec (slice 8 4 bs);
     me_type := le_dec (slice 12 4 bs);
     me_entry_iv := slice 16 16 bs;
     me_aead_tag := slice 32 16 bs;
     me_key_base_iv := slice 48 16 bs;
     me_encrypted_key_data := slice 64 key_size bs |}.

Definition TDEMapEntryV4_decode := TDEMapEntryV45_decode 32.
Definition TDEMapEntryV5_decode := TDEMapEntryV45_decode 64.

Definition sizeof_TDEMapEntryV3 : Z := 96.
Definition sizeof_TDEMapEntryV4 : Z := 96.
Definition sizeof_TDEMapEntryV5 : Z := 128.

Record TDEMapEntryV3 := mkMapEntryV3 {
  v3_spcOid : Z;
  v3_relNumber : Z;
  v3_type : Z;
  v3__unused1 : Z;
  v3_encrypted_key_data : bytes;
  v3_key_base_iv : bytes;
  v3_entry_iv : bytes;
  v3_aead_tag : bytes;
}.

Definition TDEMapEntryV3_decode (bs : bytes) : TDEMapEntryV3 :=
  {| v3_spcOid := le_dec (slice 0 4 bs);
     v3_relNumber := le_dec (slice 4 4 bs);
     v3_type := le_dec (slice 8 4 bs);
     v3__unused1 := le_dec (slice 12 4 bs);
     v3_encrypted_key_data := slice 16 16 bs;
     v3_key_base_iv := slice 32 16 bs;
     v3_entry_iv := slice 64 16 bs;
     v3_aead_tag := slice 80 16 bs |}.

(** ** What the principal key component promises *)

Section interface.
Context {SSL : OpenSSL}.

(** [GetPrincipalKey] of catalog/tde_principal_key.c. It calls functions of
    this file, and functions of this file call it. *)
Class PrincipalKeys := {
  GetPrincipalKey : Z → LWLockMode → M (option TDEPrincipalKey);
}.

(** A cached principal key is returned and nothing else happens. *)
Class PrincipalKeysSpec (P : PrincipalKeys) := {
  GetPrincipalKey_cached db m pk w :
    w_pk_cache w !! db = Some pk → GetPrincipalKey db m w = Ok (Some pk) w;
}.

End interface.

(** ** Paths *)

(** [snprintf ("%d", oid)] of an unsigned 32-bit value. *)
Definition fmt_d (oid : Z) : string := pretty (i32 oid).

Definition open_pg_tde_set_db_file_path (dbOid : Z) : string :=
  OPEN_PG_TDE_DATA_DIR +:+ "/" +:+ fmt_d dbOid +:+ "_keys".

Section keymap.
Context {SSL : OpenSSL} {K : Kernel}.

(** ** Encryption of entries *)

Definition open_pg_tde_sign_principal_key_info (principal_key : TDEPrincipalKey)
  : M TDESignedPrincipalKeyInfo :=
  r ← rand_bytes (Z.of_nat MAP_ENTRY_IV_SIZE);
  match r with
  | None => ereport ERROR "could not generate iv for key map"
  | Some sign_iv =>
      '(_, tag) ← AesGcmEncrypt (pk_keyData principal_key) (pk_keyLength principal_key)
                    sign_iv (Z.of_nat MAP_ENTRY_IV_SIZE)
                    (PKInfo_encode (pk_keyInfo principal_key)) []
                    (Z.of_nat MAP_ENTRY_AEAD_TAG_SIZE);
      mret (mkSignedPKInfo (pk_keyInfo principal_key) sign_iv tag)
  end.

(** [old] is what the structure contained before; the bytes of the key buffer
    after the key keep their value. *)
Definition open_pg_tde_initialize_map_entry (old : TDEMapEntry) (principal_key : TDEPrincipalKey)
  (rlocator : RelFileLocator) (rel_key_data : InternalKey) : M TDEMapEntry :=
  r ← rand_bytes (Z.of_nat MAP_ENTRY_IV_SIZE);
  match r with
  | None => ereport ERROR "could not generate iv for key map"
  | Some entry_iv =>
      let e := mkMapEntry (ik_cipher rel_key_data) (spcOid rlocator) (relNumber rlocator)
                 MAP_ENTRY_TYPE_KEY (ik_base_iv rel_key_data) entry_iv (me_aead_tag old)
                 (me_encrypted_key_data old) in
      '(ct, tag) ← AesGcmEncrypt (pk_keyData principal_key) (pk_keyLength principal_key)
                     entry_iv (Z.of_nat MAP_ENTRY_IV_SIZE)
                     (map_entry_aad e)
                     (take (Z.to_nat (ik_key_len rel_key_data)) (ik_key rel_key_data))
                     (Z.of_nat MAP_ENTRY_AEAD_TAG_SIZE);
      mret (mkMapEntry (me_cipher e) (me_spcOid e) (me_relNumber e) (me_type e)
              (me_key_base_iv e) entry_iv tag (write_at 0 ct (me_encrypted_key_data e)))
  end.

Definition uninit_entry : M TDEMapEntry :=
  b ← uninit (Z.to_nat sizeof_TDEMapEntry); mret (TDEMapEntry_decode b).

(** The key structure is allocated without being cleared. *)
Definition tde_decrypt_rel_key (principal_key : TDEPrincipalKey) (map_entry : TDEMapEntry)
  : M InternalKey :=
  key ← uninit INTERNAL_KEY_MAX_LEN;
  key_len ← open_pg_tde_cipher_key_length (me_cipher map_entry);
  r ← AesGcmDecrypt (pk_keyData principal_key) (pk_keyLength principal_key)
        (me_entry_iv map_entry) (Z.of_nat MAP_ENTRY_IV_SIZE)
        (map_entry_aad map_entry)
        (take (Z.to_nat key_len) (me_encrypted_key_data map_entry)) (me_aead_tag map_entry);
  match r with
  | None => ereport ERROR "Failed to decrypt key, incorrect principal key or corrupted key file"
  | Some kb =>
      mret (mkInternalKey key_len (me_cipher map_entry) (me_key_base_iv map_entry) (write_at 0 kb key))
  end.

Definition open_pg_tde_verify_principal_key_info (signed_key_info : TDESignedPrincipalKeyInfo)
  (principal_key_data : KeyData) : M bool :=
  r ← AesGcmDecrypt (kd_data principal_key_data) (kd_len principal_key_data)
        (spki_sign_iv signed_key_info) (Z.of_nat MAP_ENTRY_IV_SIZE)
        (PKInfo_encode (spki_data signed_key_info)) [] (spki_aead_tag signed_key_info);
  mret (bool_decide (is_Some r)).

(** ** Files *)

Definition smgr_kind : KeyFileKind :=
  mkKeyFileKind OPEN_PG_TDE_SMGR_FILE_MAGIC sizeof_TDEMapEntry "could not open tde file"
    "TDE map file is corrupted" "key file has wrong version" "key file has wrong version"
    "could not write tde file" "could not write tde map file".

Definition open_pg_tde_write_one_map_entry (fd : string) (map_entry : TDEMapEntry) (offset : Z)
  : M Z := key_file_write_entry smgr_kind fd (TDEMapEntry_encode map_entry) offset.

(** [None] at the end of the file, or the entry and the next offset. *)
Definition open_pg_tde_read_one_map_entry (map_file : string) (offset : Z)
  : M (option (TDEMapEntry * Z)) :=
  r ← key_file_read_entry smgr_kind map_file offset;
  mret (match r with Some (bs, offset) => Some (TDEMapEntry_decode bs, offset) | None => None end).

Definition open_pg_tde_open_file_basic := key_file_open_basic smgr_kind.
Definition open_pg_tde_file_header_read := key_file_header_read smgr_kind.
Definition open_pg_tde_file_header_write := key_file_header_write smgr_kind.
Definition open_pg_tde_open_file_read := key_file_open_read smgr_kind.
Definition open_pg_tde_open_file_write := key_file_open_write smgr_kind.

(** ** Operations on one database's file *)

Definition entry_matches (e : TDEMapEntry) (rel : RelFileLocator) : bool :=
  (me_spcOid e =? spcOid rel) && (me_relNumber e =? relNumber rel).

(** The search of [open_pg_tde_save_smgr_key]: whether there is an entry for
    the relation, and the offset to write at. *)
Fixpoint save_scan_loop (fuel : nat) (fd : string) (rel : RelFileLocator)
  (scan_offset write_offset : Z) : M (bool * Z) :=
  match fuel with
  | O => out_of_fuel
  | S fuel =>
      let entry_offset := scan_offset in
      r ← open_pg_tde_read_one_map_entry fd scan_offset;
      match r with
      | None => mret (false, if write_offset =? 0 then entry_offset else write_offset)
      | Some (entry, scan_offset) =>
          if entry_matches entry rel then mret (true, entry_offset)
          else
            let write_offset :=
              if (write_offset =? 0) && (me_type entry =? MAP_ENTRY_TYPE_EMPTY)
              then entry_offset else write_offset in
            save_scan_loop fuel fd rel scan_offset write_offset
      end
  end.

Context {PKS : PrincipalKeys}.

Definition open_pg_tde_save_smgr_key (rel : RelFileLocator) (rel_key_data : InternalKey)
  (replace_existing : bool) : M unit :=
  LWLockAcquire_enc LW_EXCLUSIVE;;
  pk ← GetPrincipalKey (dbOid rel) LW_EXCLUSIVE;
  match pk with
  | None => ereport ERROR "principal key not configured"
  | Some principal_key =>
      let file_path := open_pg_tde_set_db_file_path (dbOid rel) in
      signed_key_info ← open_pg_tde_sign_principal_key_info principal_key;
      '(fd, scan_offset) ← open_pg_tde_open_file_write file_path (Some signed_key_info) false;
      fuel ← file_fuel fd;
      '(entry_already_exists, write_offset) ← save_scan_loop fuel fd rel scan_offset 0;
      (if negb entry_already_exists || replace_existing then
         old ← uninit_entry;
         write_entry ← open_pg_tde_initialize_map_entry old principal_key rel rel_key_data;
         open_pg_tde_write_one_map_entry fd write_entry write_offset;;
         mret tt
       else mret tt);;
      CloseTransientFile fd;;
      LWLockRelease_enc
  end.

Definition open_pg_tde_delete_tde_files (dbOid : Z) : M unit :=
  PathNameDeleteTemporaryFile (open_pg_tde_set_db_file_path dbOid).

Definition open_pg_tde_save_principal_key_redo (signed_key_info : TDESignedPrincipalKeyInfo)
  : M unit :=
  let db_map_path := open_pg_tde_set_db_file_path (pki_databaseId (spki_data signed_key_info)) in
  LWLockAcquire_enc LW_EXCLUSIVE;;
  '(map_fd, _) ← open_pg_tde_open_file_write db_map_path (Some signed_key_info) false;
  CloseTransientFile map_fd;;
  LWLockRelease_enc.

Definition open_pg_tde_save_principal_key (principal_key : TDEPrincipalKey) (write_xlog : bool)
  : M unit :=
  let db_map_path := open_pg_tde_set_db_file_path (pki_databaseId (pk_keyInfo principal_key)) in
  signed_key_Info ← open_pg_tde_sign_principal_key_info principal_key;
  (if write_xlog then XLogInsert (XLOG_TDE_ADD_PRINCIPAL_KEY signed_key_Info) else mret tt);;
  '(map_fd, _) ← open_pg_tde_open_file_write db_map_path (Some signed_key_Info) true;
  CloseTransientFile map_fd.

Definition is_key_of (e : TDEMapEntry) (rel : RelFileLocator) : bool :=
  (me_type e =? MAP_ENTRY_TYPE_KEY) && (me_spcOid e =? spcOid rel) && (me_relNumber e =? relNumber rel).

Fixpoint free_loop (fuel : nat) (map_fd : string) (rlocator : RelFileLocator) (curr_pos : Z) : M unit :=
  match fuel with
  | O => out_of_fuel
  | S fuel =>
      let prev_pos := curr_pos in
      r ← open_pg_tde_read_one_map_entry map_fd curr_pos;
      match r with
      | None => mret tt
      | Some (map_entry, curr_pos) =>
          if is_key_of map_entry rlocator then
            open_pg_tde_write_one_map_entry map_fd TDEMapEntry_zero prev_pos;; mret tt
          else free_loop fuel map_fd rlocator curr_pos
      end
  end.

Definition open_pg_tde_free_key_map_entry (rlocator : RelFileLocator) : M unit :=
  let db_map_path := open_pg_tde_set_db_file_path (dbOid rlocator) in
  LWLockAcquire_enc LW_EXCLUSIVE;;
  '(map_fd, curr_pos) ← open_pg_tde_open_file_write db_map_path None false;
  fuel ← file_fuel map_fd;
  free_loop fuel map_fd rlocator curr_pos;;
  CloseTransientFile map_fd;;
  LWLockRelease_enc.

Fixpoint rotate_loop (fuel : nat) (old_fd new_fd : string)
  (principal_key new_principal_key : TDEPrincipalKey) (old_curr_pos new_curr_pos : Z) : M unit :=
  match fuel with
  | O => out_of_fuel
  | S fuel =>
      r ← open_pg_tde_read_one_map_entry old_fd old_curr_pos;
      match r with
      | None => mret tt
      | Some (read_map_entry, old_curr_pos) =>
          if me_type read_map_entry =? MAP_ENTRY_TYPE_EMPTY then
            rotate_loop fuel old_fd new_fd principal_key new_principal_key old_curr_pos new_curr_pos
          else
            let rloc := mkRelFileLocator (me_spcOid read_map_entry)
                          (pki_databaseId (pk_keyInfo principal_key)) (me_relNumber read_map_entry) in
            rel_key_data ← tde_decrypt_rel_key principal_key read_map_entry;
            old ← uninit_entry;
            write_map_entry ← open_pg_tde_initialize_map_entry old new_principal_key rloc rel_key_data;
            new_curr_pos ← open_pg_tde_write_one_map_entry new_fd write_map_entry new_curr_pos;
            rotate_loop fuel old_fd new_fd principal_key new_principal_key old_curr_pos new_curr_pos
      end
  end.

Definition rotate_record (pk : TDEPrincipalKey) : XLogPrincipalKeyRotate :=
  mkXLogPrincipalKeyRotate (pki_databaseId (pk_keyInfo pk)) (pki_keyringId (pk_keyInfo pk))
    (pki_name (pk_keyInfo pk)).

Definition open_pg_tde_perform_rotate_key (principal_key new_principal_key : TDEPrincipalKey)
  (write_xlog : bool) : M unit :=
  new_signed_key_info ← open_pg_tde_sign_principal_key_info new_principal_key;
  let old_path := open_pg_tde_set_db_file_path (pki_databaseId (pk_keyInfo principal_key)) in
  let new_path := tmp_path old_path in
  o ← open_pg_tde_open_file_read old_path false;
  match o with
  | None => ereport PANIC "unreachable: missing files are not ignored"
  | Some (old_fd, old_curr_pos) =>
      '(new_fd, new_curr_pos) ← open_pg_tde_open_file_write new_path (Some new_signed_key_info) true;
      fuel ← file_fuel old_fd;
      rotate_loop fuel old_fd new_fd principal_key new_principal_key old_curr_pos new_curr_pos;;
      CloseTransientFile old_fd;;
      CloseTransientFile new_fd;;
      durable_rename new_path old_path ERROR;;
      if write_xlog then XLogInsert (XLOG_TDE_ROTATE_PRINCIPAL_KEY (rotate_record new_principal_key))
      else mret tt
  end.

Definition open_pg_tde_delete_principal_key_redo (dbOid : Z) : M unit :=
  LWLockAcquire_enc LW_EXCLUSIVE;;
  durable_unlink (open_pg_tde_set_db_file_path dbOid) false;;
  LWLockRelease_enc.

Definition open_pg_tde_delete_principal_key (dbOid : Z) : M unit :=
  XLogInsert (XLOG_TDE_DELETE_PRINCIPAL_KEY dbOid);;
  durable_unlink (open_pg_tde_set_db_file_path dbOid) true.

(** ** Reading *)

(** The matching entry, or [None] when the code returns false. *)
Fixpoint find_loop (fuel : nat) (map_fd : string) (rlocator : RelFileLocator) (curr_pos : Z)
  : M (option TDEMapEntry) :=
  match fuel with
  | O => out_of_fuel
  | S fuel =>
      r ← open_pg_tde_read_one_map_entry map_fd curr_pos;
      match r with
      | None => mret None
      | Some (map_entry, curr_pos) =>
          if is_key_of map_entry rlocator then mret (Some map_entry)
          else find_loop fuel map_fd rlocator curr_pos
      end
  end.

Definition open_pg_tde_find_map_entry (rlocator : RelFileLocator) (db_map_path : string)
  : M (option TDEMapEntry) :=
  o ← open_pg_tde_open_file_read db_map_path false;
  match o with
  | None => ereport PANIC "unreachable: missing files are not ignored"
  | Some (map_fd, curr_pos) =>
      fuel ← file_fuel map_fd;
      found ← find_loop fuel map_fd rlocator curr_pos;
      CloseTransientFile map_fd;;
      mret found
  end.

Fixpoint count_loop (fuel : nat) (map_fd : string) (spc : Z) (curr_pos count : Z) : M Z :=
  match fuel with
  | O => out_of_fuel
  | S fuel =>
      r ← open_pg_tde_read_one_map_entry map_fd curr_pos;
      match r with
      | None => mret count
      | Some (map_entry, curr_pos) =>
          count_loop fuel map_fd spc curr_pos
            (if (me_type map_entry =? MAP_ENTRY_TYPE_KEY) &&
                ((spc =? InvalidOid) || (me_spcOid map_entry =? spc))
             then count + 1 else count)
      end
  end.

Definition open_pg_tde_count_encryption_keys (dbOid spcOid : Z) : M Z :=
  let db_map_path := open_pg_tde_set_db_file_path dbOid in
  o ← open_pg_tde_open_file_read db_map_path true;
  match o with
  | None => mret 0
  | Some (map_fd, curr_pos) =>
      fuel ← file_fuel map_fd;
      count ← count_loop fuel map_fd spcOid curr_pos 0;
      CloseTransientFile map_fd;;
      mret count
  end.

Definition open_pg_tde_get_principal_key_info (dbOid : Z) : M (option TDESignedPrincipalKeyInfo) :=
  let db_map_path := open_pg_tde_set_db_file_path dbOid in
  o ← open_pg_tde_open_file_basic db_map_path false false true;
  match o with
  | None => mret None
  | Some fd =>
      h ← open_pg_tde_file_header_read fd;
      match h with
      | None => CloseTransientFile fd;; mret None
      | Some fheader =>
          if negb (FILEMAGIC_TYPE (fh_file_version fheader) =? FILEMAGIC_TYPE OPEN_PG_TDE_SMGR_FILE_MAGIC)
          then ereport FATAL "key file is corrupted or has wrong version"
          else CloseTransientFile fd;; mret (Some (fh_signed_key_info fheader))
      end
  end.

Definition open_pg_tde_has_smgr_key (rel : RelFileLocator) : M bool :=
  let db_map_path := open_pg_tde_set_db_file_path (dbOid rel) in
  exists_ ← access_F_OK db_map_path;
  if negb exists_ then mret false
  else
    LWLockAcquire_enc LW_SHARED;;
    result ← open_pg_tde_find_map_entry rel db_map_path;
    LWLockRelease_enc;;
    mret (bool_decide (is_Some result)).

Definition open_pg_tde_get_smgr_key (rel : RelFileLocator) : M (option InternalKey) :=
  let db_map_path := open_pg_tde_set_db_file_path (dbOid rel) in
  exists_ ← access_F_OK db_map_path;
  if negb exists_ then mret None
  else
    LWLockAcquire_enc LW_SHARED;;
    found ← open_pg_tde_find_map_entry rel db_map_path;
    match found with
    | None => LWLockRelease_enc;; mret None
    | Some map_entry =>
        pk ← GetPrincipalKey (dbOid rel) LW_SHARED;
        match pk with
        | None => ereport ERROR "principal key not configured"
        | Some principal_key =>
            rel_key ← tde_decrypt_rel_key principal_key map_entry;
            LWLockRelease_enc;;
            mret (Some rel_key)
        end
    end.

End keymap.

(** ** Layout of an entry *)

Definition TDEMapEntry_wf (e : TDEMapEntry) : Prop :=
  is_u32 (me_cipher e) ∧ is_u32 (me_spcOid e) ∧ is_u32 (me_relNumber e) ∧ is_u32 (me_type e) ∧
  length (me_key_base_iv e) = 16%nat ∧ length (me_entry_iv e) = 16%nat ∧
  length (me_aead_tag e) = 16%nat ∧ length (me_encrypted_key_data e) = 64%nat.

Lemma TDEMapEntry_encode_length e : TDEMapEntry_wf e → length (TDEMapEntry_encode e) = 128%nat.
Proof. intros (?&?&?&?&?&?&?&?). unfold TDEMapEntry_encode. by len_simpl. Qed.

Lemma TDEMapEntry_decode_encode e :
  TDEMapEntry_wf e → TDEMapEntry_decode (TDEMapEntry_encode e) = e.
Proof.
  intros (?&?&?&?&?&?&?&?). unfold TDEMapEntry_decode, TDEMapEntry_encode. slice_simpl.
  rewrite !dec_enc_u32 by done. by destruct e.
Qed.

Lemma TDEMapEntry_encode_decode bs :
  length bs = 128%nat → TDEMapEntry_encode (TDEMapEntry_decode bs) = bs.
Proof.
  intros H. unfold TDEMapEntry_encode, TDEMapEntry_decode, enc_u32.
  cbn [me_cipher me_spcOid me_relNumber me_type me_key_base_iv me_entry_iv me_aead_tag
       me_encrypted_key_data].
  rewrite !enc_dec_slice by lia. slice_glue. by apply slice_all.
Qed.

Lemma TDEMapEntry_decode_wf bs : length bs = 128%nat → TDEMapEntry_wf (TDEMapEntry_decode bs).
Proof.
  intros H. split_and!; simpl; try (apply dec_u32_range; rewrite slice_length; lia);
    rewrite slice_length; lia.
Qed.

Lemma TDEMapEntry_zero_wf : TDEMapEntry_wf TDEMapEntry_zero.
Proof. split_and!; try done; unfold is_u32; simpl; lia. Qed.

(** The authenticated part of an entry. *)
Lemma entry_aad e :
  length (me_key_base_iv e) = 16%nat →
  map_entry_aad e =
    enc_u32 (me_cipher e) ++ enc_u32 (me_spcOid e) ++ enc_u32 (me_relNumber e) ++
    enc_u32 (me_type e) ++ me_key_base_iv e.
Proof.
  intros H. unfold map_entry_aad, TDEMapEntry_encode. rewrite !app_assoc, <-(app_assoc _ (me_entry_iv e)),
    <-(app_assoc _ (_ ++ _)).
  apply take_app_length'. by len_simpl.
Qed.
