(* ===== verification/KeyMapSpec.v ===== *)
(** What the key files mean, and that the functions of KeyMap implement it.

    The keys of a database are a finite map from relations to keys. [db_rep]
    relates the bytes of a key file to such a map; saving, freeing, looking up
    and counting keys, and rotating the principal key are the corresponding
    operations on the map. *)
From S2P Require Import Prelude Types Environ Instances Ciphers EncTde KeyFile KeyMap.

(** ** Keys *)

(** What a key is used for: cipher, base IV and the bytes of the key. *)
Record LKey := mkLKey { lk_cipher : Z; lk_base_iv : bytes; lk_key : bytes }.

#[export] Instance LKey_eq_dec : EqDecision LKey.
Proof. solve_decision. Defined.

Definition lkey (k : InternalKey) : LKey := mkLKey (ik_cipher k) (ik_base_iv k) (ik_key_bytes k).

(** Keys that encrypt the same way: the unused bytes of the buffer differ. *)
Definition key_equiv (k1 k2 : InternalKey) : Prop := lkey k1 = lkey k2 ∧ ik_key_len k1 = ik_key_len k2.

#[export] Instance key_equiv_equivalence : Equivalence key_equiv.
Proof. split; [done|by intros ?? []|]. intros ??? [] []. split; congruence. Qed.

Section crypto.
Context {SSL : OpenSSL} {Spec : OpenSSLSpec SSL} {K : Kernel}.

#[export] Instance page_fn_proper : Proper (key_equiv ==> eq ==> eq ==> eq ==> eq ==> eq) page_fn.
Proof.
  intros k1 k2 [E _] ? ? -> ? ? -> ? ? -> ? ? ->. injection E as E1 E2 E3.
  unfold page_fn, page_ivec. by rewrite E1, E2, E3.
Qed.

Definition pk_ok (pk : TDEPrincipalKey) : Prop :=
  gcm_key_len_ok (pk_keyData pk) (pk_keyLength pk) ∧ PKInfo_wf (pk_keyInfo pk).

(** The key an entry holds, if the principal key opens it. *)
Definition entry_lkey (pk : TDEPrincipalKey) (e : TDEMapEntry) : option LKey :=
  n ← cipher_len (me_cipher e);
  kb ← gcm_open (pk_key_bytes pk) (me_entry_iv e) (map_entry_aad e)
         (take (Z.to_nat n) (me_encrypted_key_data e)) (me_aead_tag e);
  Some (mkLKey (me_cipher e) (me_key_base_iv e) kb).

Lemma uninit_ok n w : ∃ b, uninit n w = Ok b w ∧ length b = n.
Proof.
  eexists. split; [done|]. rewrite length_take, length_app, zeros_length. lia.
Qed.

Lemma uninit_entry_ok w : ∃ e, uninit_entry w = Ok e w ∧ TDEMapEntry_wf e.
Proof.
  unfold uninit_entry. destruct (uninit_ok (Z.to_nat sizeof_TDEMapEntry) w) as (b & E & Hb).
  rewrite (bind_ok _ _ _ _ _ E). eexists. split; [done|]. by apply TDEMapEntry_decode_wf.
Qed.

Lemma cipher_key_length_ok c n w :
  cipher_len c = Some n → open_pg_tde_cipher_key_length c w = Ok n w.
Proof. intros H%cipher_len_cases. by destruct H as [[-> ->]|[[-> ->]|[[-> ->]|[-> ->]]]]. Qed.

Lemma cipher_key_length_inv c n w w' :
  open_pg_tde_cipher_key_length c w = Ok n w' → cipher_len c = Some n ∧ w' = w.
Proof.
  unfold open_pg_tde_cipher_key_length, cipher_len, ereport, mret, M_ret. intros E.
  repeat (case_match; [by simplify_eq|]). by simplify_eq.
Qed.

(** Decrypting an entry gives the key it holds, or an error if the principal
    key does not open it. *)
Lemma tde_decrypt_rel_key_spec pk e w :
  pk_ok pk → TDEMapEntry_wf e →
  match entry_lkey pk e with
  | Some lk => ∃ k, tde_decrypt_rel_key pk e w = Ok k w ∧ lkey k = lk ∧ InternalKey_wf k
  | None => ∃ msg, tde_decrypt_rel_key pk e w = Err (mkError ERROR msg) w
  end.
Proof.
  intros [Hpk _] (?&?&?&?&Hiv&Hei&Htag&Hkd). unfold tde_decrypt_rel_key.
  destruct (uninit_ok INTERNAL_KEY_MAX_LEN w) as (b & E & Hb). rewrite (bind_ok _ _ _ _ _ E).
  unfold entry_lkey. destruct (cipher_len (me_cipher e)) as [n|] eqn:Ec; simpl.
  - rewrite (bind_ok _ _ _ _ _ (cipher_key_length_ok _ _ w Ec)).
    rewrite (bind_ok _ _ _ _ _ (AesGcmDecrypt_ok _ _ _ _ _ _ w Hpk Hei Htag)).
    fold (pk_key_bytes pk).
    destruct (gcm_open _ _ _ _ _) as [kb|] eqn:Eg; simpl; [|by eexists].
    eexists. split; [done|]. apply gcm_open_length in Eg.
    pose proof (cipher_len_cases _ _ Ec) as Hn.
    rewrite length_take, Hkd in Eg. unfold INTERNAL_KEY_MAX_LEN in Hb.
    unfold lkey, ik_key_bytes, InternalKey_wf. simpl. split_and!; try done.
    + f_equal. unfold overwrite. simpl. rewrite take_app_length'; [done|]. lia.
    + rewrite overwrite_length. lia.
  - unfold open_pg_tde_cipher_key_length, mret, M_ret. unfold cipher_len in Ec.
    repeat (case_match; [done|]). unfold mbind, M_bind, ereport. by eexists.
Qed.

Context {RW : RandWorks SSL}.

Lemma rand_ok n w :
  0 <= n → ∃ b, rand_bytes n w = Ok (Some b) (set_rand (S (w_rand w)) w) ∧ Z.of_nat (length b) = n.
Proof.
  intros Hn. destruct (rand_works (w_rand w) n Hn) as [b Hb]. exists b.
  unfold rand_bytes. rewrite Hb. split; [done|]. by apply RAND_bytes_length in Hb.
Qed.

(** A new entry holds the key it was made for. *)
Lemma initialize_map_entry_spec old pk rel k w :
  pk_ok pk → TDEMapEntry_wf old → InternalKey_wf k → RelFileLocator_wf rel →
  ∃ e, open_pg_tde_initialize_map_entry old pk rel k w = Ok e (set_rand (S (w_rand w)) w) ∧
       TDEMapEntry_wf e ∧ me_type e = MAP_ENTRY_TYPE_KEY ∧ me_spcOid e = spcOid rel ∧
       me_relNumber e = relNumber rel ∧ entry_lkey pk e = Some (lkey k).
Proof.
  intros [Hpk _] (?&?&?&?&?&?&Ht&Hkd) (Hc & Hiv & Hkey) (Hr1 & Hr2 & Hr3).
  unfold open_pg_tde_initialize_map_entry.
  destruct (rand_ok (Z.of_nat MAP_ENTRY_IV_SIZE) w) as (iv & E & Hl); [by unfold MAP_ENTRY_IV_SIZE; lia|].
  unfold MAP_ENTRY_IV_SIZE in Hl.
  rewrite (bind_ok _ _ _ _ _ E). simpl.
  rewrite (bind_ok _ _ _ _ _ (AesGcmEncrypt_ok _ _ iv _ _ (set_rand (S (w_rand w)) w) Hpk ltac:(lia))).
  fold (pk_key_bytes pk).
  match goal with |- context [gcm_seal _ iv ?a ?p] => set (aad := a); set (pt := p) end.
  destruct (gcm_seal_length (pk_key_bytes pk) iv aad pt) as [Hl1 Hl2].
  pose proof (gcm_open_seal (pk_key_bytes pk) iv aad pt) as Hopen.
  destruct (gcm_seal (pk_key_bytes pk) iv aad pt) as [ct tag]. simpl in *.
  pose proof (cipher_len_cases _ _ Hc) as Hn.
  assert (length pt = Z.to_nat (ik_key_len k)) as Hpt by (unfold pt; rewrite length_take; lia).
  eexists. split; [done|]. split_and!; simpl; try done.
  - split_and!; simpl; try done; try (unfold is_u32; lia). rewrite overwrite_length. lia.
  - unfold entry_lkey. simpl. rewrite Hc. simpl.
    rewrite entry_aad by done. simpl. unfold aad in Hopen.     rewrite entry_aad in Hopen by done. simpl in Hopen. unfold overwrite. simpl.
    rewrite take_app_length' by lia. rewrite Hopen. simpl. done.
Qed.

Lemma sign_principal_key_info_spec pk w :
  pk_ok pk →
  ∃ s, open_pg_tde_sign_principal_key_info pk w = Ok s (set_rand (S (w_rand w)) w) ∧
       SignedPKInfo_wf s ∧ spki_data s = pk_keyInfo pk ∧
       gcm_open (pk_key_bytes pk) (spki_sign_iv s) (PKInfo_encode (spki_data s)) []
         (spki_aead_tag s) = Some [].
Proof.
  intros [Hpk Hi]. unfold open_pg_tde_sign_principal_key_info.
  destruct (rand_ok (Z.of_nat MAP_ENTRY_IV_SIZE) w) as (iv & E & Hl); [by unfold MAP_ENTRY_IV_SIZE; lia|].
  unfold MAP_ENTRY_IV_SIZE in Hl.
  rewrite (bind_ok _ _ _ _ _ E). simpl.
  rewrite (bind_ok _ _ _ _ _ (AesGcmEncrypt_ok _ _ iv _ _ (set_rand (S (w_rand w)) w) Hpk ltac:(lia))).
  fold (pk_key_bytes pk). set (aad := PKInfo_encode _).
  destruct (gcm_seal_length (pk_key_bytes pk) iv aad []) as [Hl1 Hl2].
  pose proof (gcm_open_seal (pk_key_bytes pk) iv aad []) as Hopen.
  destruct (gcm_seal (pk_key_bytes pk) iv aad []) as [ct tag]. simpl in *.
  eexists. split; [done|]. split_and!; simpl; try done.
  - split_and!; simpl; [done|lia|done].
  - destruct ct; [done|discriminate].
Qed.

End crypto.

(** ** Files as lists of entries *)

Definition key_file : bytes → list TDEMapEntry → bytes → bytes := kfile TDEMapEntry_encode.
Definition entry_pos (i : nat) : Z := 320 + 128 * Z.of_nat i.
Definition entries_wf (es : list TDEMapEntry) : Prop := Forall TDEMapEntry_wf es.
Definition header_ok : bytes → Prop := kf_header_ok smgr_kind.
Definition new_header : TDESignedPrincipalKeyInfo → bytes := kf_new_header smgr_kind.

Lemma entry_pos_nonneg i : 0 <= entry_pos i.
Proof. unfold entry_pos. lia. Qed.

Lemma key_file_length h es t :
  length h = 320%nat → entries_wf es →
  length (key_file h es t) = (320 + length es * 128 + length t)%nat.
Proof. apply (kfile_length _ 128 _ TDEMapEntry_encode_length). Qed.

Lemma key_file_insert h es t i e :
  length h = 320%nat → entries_wf es → TDEMapEntry_wf e → (i < length es)%nat →
  write_at (Z.to_nat (entry_pos i)) (TDEMapEntry_encode e) (key_file h es t) =
    key_file h (<[i:=e]> es) t.
Proof. apply (kfile_insert _ 128 _ TDEMapEntry_encode_length). Qed.

Lemma key_file_snoc h es t e :
  length h = 320%nat → entries_wf es → TDEMapEntry_wf e → (length t < 128)%nat →
  write_at (Z.to_nat (entry_pos (length es))) (TDEMapEntry_encode e) (key_file h es t) =
    key_file h (es ++ [e]) [].
Proof. intros. apply (kfile_snoc _ 128 _ TDEMapEntry_encode_length); (done || lia). Qed.

Lemma new_header_ok ski : SignedPKInfo_wf ski → header_ok (new_header ski).
Proof. apply kf_new_header_ok. simpl. unfold OPEN_PG_TDE_SMGR_FILE_MAGIC. lia. Qed.

Section files.
Context {SSL : OpenSSL} {K : Kernel} {NF : NoFaults K}.

Lemma read_one_ok h es t fd i w :
  w_fs w !! fd = Some (key_file h es t) → length h = 320%nat → entries_wf es →
  (length t < 128)%nat → (i ≤ length es)%nat →
  open_pg_tde_read_one_map_entry fd (entry_pos i) w =
    Ok (match es !! i with Some e => Some (e, entry_pos (S i)) | None => None end) w.
Proof.
  intros Hf Hh Hes Ht Hi. unfold open_pg_tde_read_one_map_entry.
  pose proof (entry_pos_nonneg i).
  rewrite (bind_ok _ _ _ _ _ (kf_read_ok smgr_kind fd _ _ w Hf ltac:(done) ltac:(done))).
  change (Z.to_nat (kf_entry_size smgr_kind)) with 128%nat.
  destruct (es !! i) as [e|] eqn:He.
  - change (entry_pos i) with (kpos 128 i). change key_file with (kfile TDEMapEntry_encode).
    rewrite (kfile_entry _ 128 _ TDEMapEntry_encode_length h es t i e Hh Hes He).
    assert (TDEMapEntry_wf e) by (by eapply Forall_lookup_1).
    rewrite TDEMapEntry_encode_length by done.
    change (Z.of_nat 128 =? kf_entry_size smgr_kind) with true. cbv iota.
    rewrite TDEMapEntry_decode_encode by done.
    unfold mret, M_ret. do 3 f_equal. change (kf_entry_size smgr_kind) with 128.
    unfold kpos, entry_pos. lia.
  - apply lookup_ge_None in He. assert (i = length es) as -> by lia.
    change (entry_pos (length es)) with (kpos 128 (length es)).
    change key_file with (kfile TDEMapEntry_encode).
    rewrite (kfile_past _ 128 _ TDEMapEntry_encode_length h es t 128 Hh Hes).
    assert (length (slice 0 128 t) < 128)%nat by (rewrite slice_length; lia).
    destruct (Z.eqb_spec (Z.of_nat (length (slice 0 128 t))) (kf_entry_size smgr_kind)) as [E|]; [|done].
    change (kf_entry_size smgr_kind) with 128 in E. lia.
Qed.

Lemma read_one_empty fd w :
  w_fs w !! fd = Some [] → open_pg_tde_read_one_map_entry fd 0 w = Ok None w.
Proof.
  intros Hf. unfold open_pg_tde_read_one_map_entry.
  by rewrite (bind_ok _ _ _ _ _ (kf_read_ok smgr_kind fd _ 0 w Hf ltac:(done) ltac:(done))).
Qed.

Lemma write_one_ok fd e off bs w :
  w_fs w !! fd = Some bs → TDEMapEntry_wf e → 0 <= off →
  open_pg_tde_write_one_map_entry fd e off w =
    Ok (off + 128) (set_fs (<[fd := write_at (Z.to_nat off) (TDEMapEntry_encode e) bs]> (w_fs w)) w).
Proof.
  intros Hf He Ho. apply (kf_write_ok smgr_kind); try done. by rewrite TDEMapEntry_encode_length.
Qed.

Lemma header_read_ok fd h r w :
  w_fs w !! fd = Some (h ++ r) → length h = 320%nat →
  open_pg_tde_file_header_read fd w = Ok (Some (KeyFileHeader_decode h)) w.
Proof. apply kf_header_read_ok. Qed.

Lemma open_file_read_ok p h r im w :
  w_fs w !! p = Some (h ++ r) → header_ok h →
  open_pg_tde_open_file_read p im w = Ok (Some (p, 320)) w.
Proof. apply kf_open_read_ok. Qed.

Lemma open_file_read_empty p im w :
  w_fs w !! p = Some [] → open_pg_tde_open_file_read p im w = Ok (Some (p, 0)) w.
Proof. apply kf_open_read_empty. Qed.

Lemma open_file_read_missing p w :
  w_fs w !! p = None → open_pg_tde_open_file_read p true w = Ok None w.
Proof. apply kf_open_read_missing. Qed.

Lemma open_file_write_ok p h r ski w :
  w_fs w !! p = Some (h ++ r) → header_ok h →
  open_pg_tde_open_file_write p ski false w = Ok (p, 320) w.
Proof. apply kf_open_write_ok. Qed.

Lemma open_file_write_new p ski trunc w :
  (trunc = true ∨ w_fs w !! p = None ∨ w_fs w !! p = Some []) → SignedPKInfo_wf ski →
  open_pg_tde_open_file_write p (Some ski) trunc w =
    Ok (p, 320) (set_fs (<[p := new_header ski]> (w_fs w)) w).
Proof. apply kf_open_write_new. Qed.

End files.

(** ** The loops over the entries of a file *)

(** The search of [open_pg_tde_save_smgr_key] on the list of entries. *)
Fixpoint save_scan (es : list TDEMapEntry) (rel : RelFileLocator) (i : nat) (wo : Z) : bool * Z :=
  match es with
  | [] => (false, if wo =? 0 then entry_pos i else wo)
  | e :: es =>
      if entry_matches e rel then (true, entry_pos i)
      else save_scan es rel (S i)
             (if (wo =? 0) && (me_type e =? MAP_ENTRY_TYPE_EMPTY) then entry_pos i else wo)
  end.

Definition counted (spc : Z) (e : TDEMapEntry) : bool :=
  (me_type e =? MAP_ENTRY_TYPE_KEY) && ((spc =? InvalidOid) || (me_spcOid e =? spc)).

(** Position of the first entry that satisfies a test, from [i] on. *)
Fixpoint find_index (f : TDEMapEntry → bool) (es : list TDEMapEntry) (i : nat) : option nat :=
  match es with
  | [] => None
  | e :: es => if f e then Some i else find_index f es (S i)
  end.

Section loops.
Context {SSL : OpenSSL} {K : Kernel} {NF : NoFaults K}.
Context (fd : string) (h t : bytes) (es : list TDEMapEntry) (w : World).
Context (Hf : w_fs w !! fd = Some (key_file h es t)) (Hh : length h = 320%nat)
  (Hes : entries_wf es) (Ht : (length t < 128)%nat).

(** One iteration: the end of the file, or the next entry. *)
Lemma read_next i :
  (i ≤ length es)%nat →
  (drop i es = [] ∧ open_pg_tde_read_one_map_entry fd (entry_pos i) w = Ok None w) ∨
  (∃ e, es !! i = Some e ∧ drop i es = e :: drop (S i) es ∧ (i < length es)%nat ∧
        open_pg_tde_read_one_map_entry fd (entry_pos i) w = Ok (Some (e, entry_pos (S i))) w).
Proof.
  intros Hi. pose proof (read_one_ok h es t fd i w Hf Hh Hes Ht Hi) as E.
  destruct (es !! i) as [e|] eqn:He; [right|left].
  - exists e. split_and!; [done|by apply drop_S|by eapply lookup_lt_Some|done].
  - split; [|done]. apply drop_ge. by apply lookup_ge_None.
Qed.

Ltac next_entry i Hi :=
  let e := fresh "e" in
  destruct (read_next i Hi) as [[-> E]|(e & He & -> & Hlt & E)]; rewrite (bind_ok _ _ _ _ _ E).

Lemma find_loop_ok rel fuel i :
  (i ≤ length es)%nat → (length es - i < fuel)%nat →
  find_loop fuel fd rel (entry_pos i) w = Ok (find (λ e, is_key_of e rel) (drop i es)) w.
Proof.
  revert i. induction fuel as [|fuel IH]; intros i Hi Hfuel; [lia|]. simpl.
  next_entry i Hi; [done|]. simpl. destruct (is_key_of e rel); [done|]. apply IH; lia.
Qed.

Lemma count_loop_ok spc fuel i c :
  (i ≤ length es)%nat → (length es - i < fuel)%nat →
  count_loop fuel fd spc (entry_pos i) c w =
    Ok (c + Z.of_nat (length (List.filter (counted spc) (drop i es)))) w.
Proof.
  revert i c. induction fuel as [|fuel IH]; intros i c Hi Hfuel; [lia|]. simpl.
  next_entry i Hi; [simpl; by rewrite Z.add_0_r|]. simpl.
  rewrite IH by lia. fold (counted spc e). f_equal.
  destruct (counted spc e); rewrite ?length_cons; lia.
Qed.

Lemma save_scan_loop_ok rel fuel i wo :
  (i ≤ length es)%nat → (length es - i < fuel)%nat →
  save_scan_loop fuel fd rel (entry_pos i) wo w = Ok (save_scan (drop i es) rel i wo) w.
Proof.
  revert i wo. induction fuel as [|fuel IH]; intros i wo Hi Hfuel; [lia|]. simpl.
  next_entry i Hi; [done|]. simpl. destruct (entry_matches e rel); [done|]. apply IH; lia.
Qed.

Lemma free_loop_ok rel fuel i :
  (i ≤ length es)%nat → (length es - i < fuel)%nat →
  free_loop fuel fd rel (entry_pos i) w =
    Ok tt (match find_index (λ e, is_key_of e rel) (drop i es) i with
           | Some j => set_fs (<[fd := key_file h (<[j := TDEMapEntry_zero]> es) t]> (w_fs w)) w
           | None => w
           end).
Proof.
  revert i. induction fuel as [|fuel IH]; intros i Hi Hfuel; [lia|]. simpl.
  next_entry i Hi; [done|]. simpl. destruct (is_key_of e rel); [|apply IH; lia].
  pose proof (entry_pos_nonneg i). pose proof TDEMapEntry_zero_wf. mrun write_one_ok.
  by rewrite key_file_insert.
Qed.

Lemma file_fuel_ok : file_fuel fd w = Ok (S (length (key_file h es t))) w.
Proof. unfold file_fuel, gets. by rewrite Hf. Qed.

Lemma fuel_enough : (length es - 0 < S (length (key_file h es t)))%nat.
Proof. rewrite key_file_length by done. lia. Qed.

End loops.

(** ** The abstract contents of a file *)

Definition Loc : Type := Z * Z.
Definition loc_of (e : TDEMapEntry) : Loc := (me_spcOid e, me_relNumber e).
Definition rel_loc (r : RelFileLocator) : Loc := (spcOid r, relNumber r).
Definition is_key (e : TDEMapEntry) : Prop := me_type e = MAP_ENTRY_TYPE_KEY.

Section abstraction.
Context {SSL : OpenSSL} {Spec : OpenSSLSpec SSL}.

Definition entry_ok (pk : TDEPrincipalKey) (e : TDEMapEntry) : Prop :=
  (is_key e ∧ me_relNumber e ≠ 0 ∧ is_Some (entry_lkey pk e)) ∨
  (me_type e = MAP_ENTRY_TYPE_EMPTY ∧ me_relNumber e = 0).

Record entries_rep (pk : TDEPrincipalKey) (es : list TDEMapEntry) (m : gmap Loc LKey) : Prop := {
  rep_wf : entries_wf es;
  rep_ok : ∀ i e, es !! i = Some e → entry_ok pk e;
  rep_nodup : ∀ i j e1 e2, es !! i = Some e1 → es !! j = Some e2 → is_key e1 → is_key e2 →
              loc_of e1 = loc_of e2 → i = j;
  rep_map : ∀ l lk, m !! l = Some lk ↔
              ∃ i e, es !! i = Some e ∧ is_key e ∧ loc_of e = l ∧ entry_lkey pk e = Some lk;
}.

Lemma rep_empty pk : entries_rep pk [] ∅.
Proof.
  split; [constructor|done|done|]. intros l lk. rewrite lookup_empty.
  split; [done|]. by intros (i & e & ? & _).
Qed.

Lemma rep_lookup_None pk es m l :
  entries_rep pk es m → m !! l = None ↔ ∀ i e, es !! i = Some e → is_key e → loc_of e ≠ l.
Proof.
  intros R. split.
  - intros Hn i e He Hk Hl.
    destruct (rep_ok _ _ _ R i e He) as [(_ & _ & [lk Hlk])|[Ht _]]; [|by rewrite Hk in Ht].
    assert (m !! l = Some lk) as E by (apply (rep_map _ _ _ R); eauto 6). congruence.
  - intros H. destruct (m !! l) as [lk|] eqn:E; [|done].
    apply (rep_map _ _ _ R) in E as (i & e & He & Hk & Hl & _). by destruct (H i e).
Qed.

(** Writing an entry over an empty one, or over the relation's own. *)
Lemma rep_insert pk es m i e0 e lk :
  entries_rep pk es m → es !! i = Some e0 → TDEMapEntry_wf e → is_key e → me_relNumber e ≠ 0 →
  entry_lkey pk e = Some lk →
  (∀ j e', es !! j = Some e' → is_key e' → loc_of e' = loc_of e → j = i) →
  (is_key e0 → loc_of e0 = loc_of e) →
  entries_rep pk (<[i:=e]> es) (<[loc_of e := lk]> m).
Proof.
  intros R Hi He Hk Hn Hlk Hother Hold.
  pose proof (λ j e', lookup_insert_iff es i e j e' (lookup_lt_Some _ _ _ Hi)) as L.
  split.
  - apply Forall_insert; [apply R|done].
  - intros j e' [[-> ->]|[_ Hj]]%L; [left; eauto|by eapply rep_ok].
  - intros j1 j2 e1 e2 [[-> ->]|[N1 H1]]%L [[-> ->]|[N2 H2]]%L K1 K2 El; [done| | |].
    + destruct N2. by eapply Hother.
    + destruct N1. by eapply Hother.
    + by eapply rep_nodup.
  - intros l lk'. destruct (decide (l = loc_of e)) as [->|Hl].
    + rewrite lookup_insert_eq. split.
      * intros [= <-]. exists i, e. rewrite L. split_and!; [by left|done..].
      * intros (j & e' & [[-> ->]|[N Hj]]%L & Hk' & Hl & Hlk'); [congruence|].
        destruct N. by eapply Hother.
    + rewrite lookup_insert_ne by done. rewrite (rep_map _ _ _ R). split.
      * intros (j & e' & Hj & Hk' & Hl' & Hlk'). exists j, e'. rewrite L. split_and!; try done.
        right. split; [|done]. intros ->. simplify_eq. destruct Hl. symmetry. by rewrite Hold.
      * intros (j & e' & [[-> ->]|[N Hj]]%L & Hk' & Hl' & Hlk'); [by destruct Hl|eauto 6].
Qed.

Lemma rep_snoc pk es m e lk :
  entries_rep pk es m → TDEMapEntry_wf e → is_key e → me_relNumber e ≠ 0 →
  entry_lkey pk e = Some lk → (∀ j e', es !! j = Some e' → is_key e' → loc_of e' ≠ loc_of e) →
  entries_rep pk (es ++ [e]) (<[loc_of e := lk]> m).
Proof.
  intros R He Hk Hn Hlk Hother.
  pose proof (lookup_snoc_iff es e) as L.
  split.
  - apply Forall_app. split; [apply R|by constructor].
  - intros j e' [[-> ->]|[_ Hj]]%L; [left; eauto|by eapply rep_ok].
  - intros j1 j2 e1 e2 [[-> ->]|[N1 H1]]%L [[-> ->]|[N2 H2]]%L K1 K2 El; [done| | |].
    + by destruct (Hother j2 e2).
    + by destruct (Hother j1 e1).
    + by eapply rep_nodup.
  - intros l lk'. destruct (decide (l = loc_of e)) as [->|Hl].
    + rewrite lookup_insert_eq. split.
      * intros [= <-]. exists (length es), e. rewrite L. split_and!; [by left|done..].
      * intros (j & e' & [[-> ->]|[N Hj]]%L & Hk' & Hl & Hlk'); [congruence|].
        by destruct (Hother j e').
    + rewrite lookup_insert_ne by done. rewrite (rep_map _ _ _ R). split.
      * intros (j & e' & Hj & Hk' & Hl' & Hlk'). exists j, e'. rewrite L. split_and!; try done.
        right. split; [|done]. apply lookup_lt_Some in Hj. lia.
      * intros (j & e' & [[-> ->]|[N Hj]]%L & Hk' & Hl' & Hlk'); [by destruct Hl|eauto 6].
Qed.

Lemma zero_not_key : ¬ is_key TDEMapEntry_zero.
Proof. done. Qed.

(** Clearing the relation's entry. *)
Lemma rep_delete pk es m i e0 :
  entries_rep pk es m → es !! i = Some e0 → is_key e0 →
  entries_rep pk (<[i:=TDEMapEntry_zero]> es) (delete (loc_of e0) m).
Proof.
  intros R Hi Hk.
  pose proof (λ j e', lookup_insert_iff es i TDEMapEntry_zero j e' (lookup_lt_Some _ _ _ Hi)) as L.
  split.
  - apply Forall_insert; [apply R|apply TDEMapEntry_zero_wf].
  - intros j e' [[-> ->]|[_ Hj]]%L; [by right|by eapply rep_ok].
  - intros j1 j2 e1 e2 [[-> ->]|[N1 H1]]%L [[-> ->]|[N2 H2]]%L K1 K2 El; try done.
    by eapply rep_nodup.
  - intros l lk'. rewrite lookup_delete_Some, (rep_map _ _ _ R). split.
    + intros [Hl (j & e' & Hj & Hk' & Hl' & Hlk')]. exists j, e'. rewrite L. split_and!; try done.
      right. split; [|done]. intros ->. simplify_eq.
    + intros (j & e' & [[-> ->]|[N Hj]]%L & Hk' & Hl' & Hlk'); [done|]. split; [|eauto 6].
      intros El. destruct N. eapply (rep_nodup _ _ _ R); eauto. congruence.
Qed.

End abstraction.

(** ** The operations *)

Lemma save_scan_spec es0 rel i wo :
  (i ≤ length es0)%nat →
  (∃ j e, es0 !! j = Some e ∧ entry_matches e rel = true ∧
          save_scan (drop i es0) rel i wo = (true, entry_pos j)) ∨
  ((∀ j e, (i ≤ j)%nat → es0 !! j = Some e → entry_matches e rel = false) ∧
   ∃ o, save_scan (drop i es0) rel i wo = (false, o) ∧
     ((wo ≠ 0 ∧ o = wo) ∨
      (∃ j e, es0 !! j = Some e ∧ me_type e = MAP_ENTRY_TYPE_EMPTY ∧ o = entry_pos j) ∨
      o = entry_pos (length es0))).
Proof.
  intros Hi. remember (drop i es0) as es eqn:Ees. revert i wo Hi Ees.
  induction es as [|e es IH]; intros i wo Hi Ees.
  - right. assert (i = length es0) as ->.
    { apply (f_equal length) in Ees. rewrite length_drop in Ees. simpl in Ees. lia. }
    split; [intros j e Hj Hl; apply lookup_lt_Some in Hl; lia|].
    eexists. split; [done|]. destruct (Z.eqb_spec wo 0); auto.
  - assert (es0 !! i = Some e) as He.
    { rewrite <-(Nat.add_0_r i), <-lookup_drop, <-Ees. done. }
    assert (es = drop (S i) es0) as Ees'.
    { rewrite (drop_S _ _ _ He) in Ees. by injection Ees. }
    simpl. destruct (entry_matches e rel) eqn:Em; [by left; eauto|].
    set (wo' := if _ && _ then _ else _).
    destruct (IH (S i) wo') as [Hl|[Hno (o & Eo & Ho)]]; [|done|by left|].
    { apply lookup_lt_Some in He. lia. }
    right. split.
    + intros j e' Hj He'. destruct (decide (j = i)) as [->|]; [congruence|]. apply (Hno j); [lia|done].
    + exists o. split; [done|]. destruct Ho as [[Hw ->]|Ho]; [|by right].
      unfold wo' in *. destruct (Z.eqb_spec wo 0); simpl in *; [|by left].
      destruct (Z.eqb_spec (me_type e) MAP_ENTRY_TYPE_EMPTY); [|done]. right. left. eauto.
Qed.

Section ops.
Context {SSL : OpenSSL} {Spec : OpenSSLSpec SSL} {K : Kernel} {NF : NoFaults K} {RW : RandWorks SSL}.
Context {PKS : PrincipalKeys} {PKSpec : PrincipalKeysSpec PKS}.

(** The header names the principal key and is signed with it. *)
Definition header_for (pk : TDEPrincipalKey) (h : bytes) : Prop :=
  header_ok h ∧
  let s := fh_signed_key_info (KeyFileHeader_decode h) in
  spki_data s = pk_keyInfo pk ∧
  gcm_open (pk_key_bytes pk) (spki_sign_iv s) (PKInfo_encode (spki_data s)) []
    (spki_aead_tag s) = Some [].

(** The file of a database holds the keys [m], encrypted with [pk]. *)
Definition file_rep (fs : gmap string bytes) (p : string) (pk : TDEPrincipalKey) (m : gmap Loc LKey)
  : Prop :=
  ((fs !! p = None ∨ fs !! p = Some []) ∧ m = ∅) ∨
  (∃ h es t, fs !! p = Some (key_file h es t) ∧ header_for pk h ∧ (length t < 128)%nat ∧
             entries_rep pk es m).

Definition db_rep (w : World) (db : Z) (pk : TDEPrincipalKey) (m : gmap Loc LKey) : Prop :=
  w_pk_cache w !! db = Some pk ∧ pk_ok pk ∧ file_rep (w_fs w) (open_pg_tde_set_db_file_path db) pk m.

(** Only the given file and the state of the random generator change. *)
Definition only_file (p : string) (w w' : World) : Prop :=
  ∃ f r, w' = set_fs f (set_rand r w) ∧ ∀ q, q ≠ p → f !! q = w_fs w !! q.

Lemma header_ok_length h : header_ok h → length h = 320%nat.
Proof. by intros [? _]. Qed.

Lemma new_header_for pk s :
  SignedPKInfo_wf s → spki_data s = pk_keyInfo pk →
  gcm_open (pk_key_bytes pk) (spki_sign_iv s) (PKInfo_encode (spki_data s)) []
    (spki_aead_tag s) = Some [] →
  header_for pk (new_header s).
Proof.
  intros Hs Hd Hg. split; [by apply new_header_ok|].
  unfold new_header, kf_new_header. rewrite KeyFileHeader_decode_encode; [done| |done].
  simpl. unfold OPEN_PG_TDE_SMGR_FILE_MAGIC. lia.
Qed.

Lemma acquire_enc_ok m w :
  w_enc_lock w = None → LWLockAcquire_enc m w = Ok tt (set_enc_lock (Some m) w).
Proof. intros E. unfold LWLockAcquire_enc. by rewrite E. Qed.

Lemma release_enc_ok m w :
  w_enc_lock w = Some m → LWLockRelease_enc w = Ok tt (set_enc_lock None w).
Proof. intros E. unfold LWLockRelease_enc. by rewrite E. Qed.

Lemma unlock_lock m w : w_enc_lock w = None → set_enc_lock None (set_enc_lock (Some m) w) = w.
Proof. destruct w; simpl. by intros ->. Qed.

(** Opening for writing: the file then has a header and the same keys. *)
Lemma open_for_save p pk m s w :
  file_rep (w_fs w) p pk m → SignedPKInfo_wf s → spki_data s = pk_keyInfo pk →
  gcm_open (pk_key_bytes pk) (spki_sign_iv s) (PKInfo_encode (spki_data s)) []
    (spki_aead_tag s) = Some [] →
  ∃ f h es t, open_pg_tde_open_file_write p (Some s) false w = Ok (p, entry_pos 0) (set_fs f w) ∧
    f !! p = Some (key_file h es t) ∧ (∀ q, q ≠ p → f !! q = w_fs w !! q) ∧
    header_for pk h ∧ (length t < 128)%nat ∧ entries_rep pk es m.
Proof.
  intros [[Hf ->]|(h & es & t & Hf & Hh & Ht & R)] Hs Hd Hg.
  - rewrite open_file_write_new by auto.
    eexists _, (new_header s), [], []. split; [done|]. split_and!.
    + rewrite lookup_insert_eq. unfold key_file, kfile. simpl. by rewrite app_nil_r.
    + intros q Hq. by rewrite lookup_insert_ne.
    + by apply new_header_for.
    + simpl; lia.
    + apply rep_empty.
  - exists (w_fs w), h, es, t. rewrite (open_file_write_ok _ h _ _ _ Hf) by apply Hh.
    split; [by destruct w|done].
Qed.

Lemma rel_wf_loc rel e :
  me_spcOid e = spcOid rel → me_relNumber e = relNumber rel → loc_of e = rel_loc rel.
Proof. unfold loc_of, rel_loc. congruence. Qed.

Lemma matches_key pk es m i e rel :
  entries_rep pk es m → es !! i = Some e → relNumber rel ≠ 0 →
  entry_matches e rel = true → is_key e ∧ loc_of e = rel_loc rel.
Proof.
  intros R He Hn Hm. unfold entry_matches in Hm.
  apply andb_true_iff in Hm as [H1%Z.eqb_eq H2%Z.eqb_eq].
  split; [|by apply rel_wf_loc].
  destruct (rep_ok _ _ _ R _ _ He) as [(? & _)|[_ ?]]; [done|congruence].
Qed.

Lemma matches_false e rel : entry_matches e rel = false → loc_of e ≠ rel_loc rel.
Proof.
  unfold entry_matches, loc_of, rel_loc. intros Hm [= E1 E2]. rewrite E1, E2, !Z.eqb_refl in Hm. done.
Qed.

(** What the abstract map becomes when a key is saved. *)
Definition saved (replace_existing : bool) (l : Loc) (lk : LKey) (m : gmap Loc LKey) : gmap Loc LKey :=
  if replace_existing then <[l := lk]> m
  else match m !! l with Some _ => m | None => <[l := lk]> m end.

(** The write of the new entry, for each outcome of the search. *)
Lemma save_write pk es m rel e lk h t p w :
  entries_rep pk es m → relNumber rel ≠ 0 → TDEMapEntry_wf e → is_key e →
  loc_of e = rel_loc rel → entry_lkey pk e = Some lk → length h = 320%nat → (length t < 128)%nat →
  w_fs w !! p = Some (key_file h es t) →
  let '(ex, off) := save_scan es rel 0 0 in
  ∃ es' t' n, open_pg_tde_write_one_map_entry p e off w =
      Ok n (set_fs (<[p := key_file h es' t']> (w_fs w)) w) ∧ (length t' < 128)%nat ∧
      entries_rep pk es' (<[rel_loc rel := lk]> m) ∧
      (if ex : bool then is_Some (m !! rel_loc rel) else m !! rel_loc rel = None).
Proof.
  intros R Hn He Hk Hl Hlk Hh Ht Hf.
  assert (me_relNumber e ≠ 0) as Hne by (unfold loc_of, rel_loc in Hl; congruence).
  pose proof (rep_wf _ _ _ R) as Hes.
  destruct (save_scan_spec es rel 0 0) as [(j & e0 & Hj & Hm & Es)|(Hno & o & Es & Ho)]; [lia| |];
    rewrite drop_0 in Es; rewrite Es.
  - destruct (matches_key _ _ _ _ _ _ R Hj Hn Hm) as [Hk0 Hl0].
    pose proof (entry_pos_nonneg j). rewrite (write_one_ok _ _ _ _ _ Hf) by done.
    rewrite key_file_insert by (try done; by eapply lookup_lt_Some).
    exists (<[j:=e]> es), t. eexists. split_and!; [done|done| |].
    + rewrite <-Hl. eapply rep_insert; try done; [|congruence].
      intros j' e' Hj' Hk' Hl'. eapply (rep_nodup _ _ _ R); eauto. congruence.
    + destruct (rep_ok _ _ _ R _ _ Hj) as [(_ & _ & [lk0 Hlk0])|[Ht0 _]]; [|by rewrite Hk0 in Ht0].
      exists lk0. apply (rep_map _ _ _ R). exists j, e0. done.
  - assert (m !! rel_loc rel = None) as Hnone.
    { apply (rep_lookup_None _ _ _ _ R). intros i e' Hi _. apply matches_false, (Hno i e'); [lia|done]. }
    assert (∀ j e', es !! j = Some e' → loc_of e' ≠ loc_of e) as Hother.
    { intros j e' Hj. rewrite Hl. apply matches_false, (Hno j e'); [lia|done]. }
    destruct Ho as [[? _]|[(j & e0 & Hj & Hempty & ->)| ->]]; [done| |].
    + pose proof (entry_pos_nonneg j). rewrite (write_one_ok _ _ _ _ _ Hf) by done.
      rewrite key_file_insert by (try done; by eapply lookup_lt_Some).
      exists (<[j:=e]> es), t. eexists. split_and!; [done|done| |done].
      rewrite <-Hl. eapply rep_insert; try done.
      * intros j' e' Hj' _ Hl'. by destruct (Hother j' e').
      * intros Hk0. by rewrite Hk0 in Hempty.
    + pose proof (entry_pos_nonneg (length es)). rewrite (write_one_ok _ _ _ _ _ Hf) by done.
      rewrite key_file_snoc by done.
      exists (es ++ [e]), []. eexists. split_and!; [done|simpl; lia| |done].
      rewrite <-Hl. apply rep_snoc; try done. intros j e' Hj _. by apply (Hother j).
Qed.

(** Saving a key. *)
Lemma save_smgr_key_spec rel k replace pk m w :
  db_rep w (dbOid rel) pk m → w_enc_lock w = None →
  RelFileLocator_wf rel → relNumber rel ≠ 0 → InternalKey_wf k →
  ∃ w', open_pg_tde_save_smgr_key rel k replace w = Ok tt w' ∧
        db_rep w' (dbOid rel) pk (saved replace (rel_loc rel) (lkey k) m) ∧
        only_file (open_pg_tde_set_db_file_path (dbOid rel)) w w'.
Proof.
  intros (Hpk & Hok & Hrep) Hlock Hrel Hn Hk. unfold open_pg_tde_save_smgr_key.
  set (p := open_pg_tde_set_db_file_path (dbOid rel)) in *.
  mrun acquire_enc_ok. set (w1 := set_enc_lock _ w).
  rewrite (bind_ok _ _ _ _ _ (GetPrincipalKey_cached _ _ _ w1 Hpk)).
  destruct (sign_principal_key_info_spec pk w1 Hok) as (s & Es & Hs1 & Hs2 & Hs3).
  rewrite (bind_ok _ _ _ _ _ Es). set (w2 := set_rand _ w1).
  destruct (open_for_save p pk m s w2) as (f & h & es & t & Eo & Hf & Hother & Hh & Ht & R); [done..|].
  rewrite (bind_ok _ _ _ _ _ Eo). set (w3 := set_fs f w2).
  pose proof (header_ok_length h (proj1 Hh)) as Hl. pose proof (rep_wf _ _ _ R) as Hes.
  rewrite (bind_ok _ _ _ _ _ (file_fuel_ok p h t es w3 Hf)).
  rewrite (bind_ok _ _ _ _ _ (save_scan_loop_ok p h t es w3 Hf Hl Hes Ht rel _ 0 0 ltac:(lia)
             (fuel_enough h t es Hl Hes Ht))).
  rewrite drop_0. destruct (uninit_entry_ok w3) as (old & Eold & Hold).
  destruct (initialize_map_entry_spec old pk rel k w3) as (e & Ee & He1 & He2 & He3 & He4 & He5); [done..|].
  set (w4 := set_rand _ w3) in *.
  pose proof (save_write pk es m rel e (lkey k) h t p w4 R Hn He1 He2
    (rel_wf_loc _ _ He3 He4) He5 Hl Ht Hf) as Hw.
  destruct (save_scan es rel 0 0) as [ex off]. destruct Hw as (es' & t' & n & Ew & Ht' & R' & Hex).
  assert (∀ r, LWLockRelease_enc (set_rand r w3) = Ok tt (set_fs f (set_rand r w))) as Hrel0.
  { intros r. unfold LWLockRelease_enc. simpl. do 2 f_equal. unfold w3, w2, w1.
    destruct w; simpl in *. by subst. }
  destruct (negb ex || replace) eqn:Ewr.
  - rewrite !bind_assoc. rewrite (bind_ok _ _ _ _ _ Eold).
    rewrite !bind_assoc. rewrite (bind_ok _ _ _ _ _ Ee).
    rewrite !bind_assoc. rewrite (bind_ok _ _ _ _ _ Ew).
    rewrite (bind_ok _ _ _ _ _ (ret_ok _ _)), (bind_ok _ _ _ _ _ (ret_ok _ _ : CloseTransientFile p _ = _)).
    eexists. split.
    { unfold LWLockRelease_enc. simpl. reflexivity. }
    split; [split; [done|split; [done|]]|].
    + right. exists h, es', t'. simpl. rewrite lookup_insert_eq. split_and!; [done|done|done|].
      unfold saved. destruct replace; [done|]. destruct ex; [done|]. by rewrite Hex.
    + exists (<[p:=key_file h es' t']> f), (S (w_rand w3)). split.
      * unfold w4, w3, w2, w1. destruct w; simpl in *. by subst.
      * intros q Hq. rewrite lookup_insert_ne by done. by apply Hother.
  - rewrite (bind_ok _ _ _ _ _ (ret_ok _ _)), (bind_ok _ _ _ _ _ (ret_ok _ _ : CloseTransientFile p _ = _)).
    apply orb_false_iff in Ewr as [Hex' ->]. apply negb_false_iff in Hex' as ->.
    destruct Hex as [lk Hlk].
    eexists. split; [by apply (Hrel0 (w_rand w3))|]. split; [split; [done|split; [done|]]|].
    + right. exists h, es, t. split_and!; [done|done|done|]. unfold saved. by rewrite Hlk.
    + exists f, (w_rand w3). by split.
Qed.

(** Looking for an entry. *)
Lemma find_spec pk es m rel :
  entries_rep pk es m → relNumber rel ≠ 0 →
  match find (λ e, is_key_of e rel) es with
  | Some e => TDEMapEntry_wf e ∧ ∃ lk, entry_lkey pk e = Some lk ∧ m !! rel_loc rel = Some lk
  | None => m !! rel_loc rel = None
  end.
Proof.
  intros R Hn. destruct (find _ es) as [e|] eqn:E.
  - apply find_some in E as [Hin Hk]. unfold is_key_of in Hk.
    apply andb_true_iff in Hk as [[H1%Z.eqb_eq H2%Z.eqb_eq]%andb_true_iff H3%Z.eqb_eq].
    apply list_elem_of_In, list_elem_of_lookup in Hin as [i Hi].
    split; [by eapply Forall_lookup_1; [apply R|]|].
    destruct (rep_ok _ _ _ R _ _ Hi) as [(_ & _ & [lk Hlk])|[Ht _]]; [|by rewrite H1 in Ht].
    exists lk. split; [done|]. apply (rep_map _ _ _ R). exists i, e. split_and!; try done.
    by apply rel_wf_loc.
  - apply (rep_lookup_None _ _ _ _ R). intros i e Hi Hk Hl.
    eapply find_none in E; [|by apply list_elem_of_In, (list_elem_of_lookup_2 _ i)].
    unfold is_key_of in E. unfold is_key in Hk. injection Hl as H1 H2.
    by rewrite Hk, H1, H2, !Z.eqb_refl in E.
Qed.

Lemma find_map_entry_spec p pk m rel w :
  file_rep (w_fs w) p pk m → w_fs w !! p ≠ None → relNumber rel ≠ 0 →
  ∃ r, open_pg_tde_find_map_entry rel p w = Ok r w ∧
    match r with
    | Some e => TDEMapEntry_wf e ∧ ∃ lk, entry_lkey pk e = Some lk ∧ m !! rel_loc rel = Some lk
    | None => m !! rel_loc rel = None
    end.
Proof.
  intros Hrep Hex Hn. unfold open_pg_tde_find_map_entry.
  destruct Hrep as [[[Hf|Hf] ->]|(h & es & t & Hf & Hh & Ht & R)]; [done| |].
  - rewrite (bind_ok _ _ _ _ _ (open_file_read_empty _ _ _ Hf)).
    unfold file_fuel. mstep. rewrite Hf. simpl.
    exists None. split; [|by rewrite lookup_empty].
    rewrite ?bind_assoc. by rewrite (bind_ok _ _ _ _ _ (read_one_empty p w Hf)).
  - pose proof (header_ok_length h (proj1 Hh)) as Hl. pose proof (rep_wf _ _ _ R) as Hes.
    rewrite (bind_ok _ _ _ _ _ (open_file_read_ok _ h _ _ _ Hf (proj1 Hh))).
    rewrite (bind_ok _ _ _ _ _ (file_fuel_ok p h t es w Hf)).
    rewrite (bind_ok _ _ _ _ _ (find_loop_ok p h t es w Hf Hl Hes Ht rel _ 0 ltac:(lia)
             (fuel_enough h t es Hl Hes Ht))).
    rewrite drop_0. eexists. split; [done|]. by apply (find_spec pk es m rel).
Qed.

(** Looking up a key: the map's value, and no effect. *)
Lemma get_smgr_key_spec rel pk m w :
  db_rep w (dbOid rel) pk m → w_enc_lock w = None → relNumber rel ≠ 0 →
  match m !! rel_loc rel with
  | Some lk => ∃ k, open_pg_tde_get_smgr_key rel w = Ok (Some k) w ∧ lkey k = lk ∧ InternalKey_wf k
  | None => open_pg_tde_get_smgr_key rel w = Ok None w
  end.
Proof.
  intros (Hpk & Hok & Hrep) Hlock Hn. unfold open_pg_tde_get_smgr_key.
  set (p := open_pg_tde_set_db_file_path (dbOid rel)) in *.
  unfold access_F_OK. mstep. case_bool_decide as Hex; simpl.
  2:{ apply eq_None_not_Some in Hex.
      destruct Hrep as [[_ ->]|(h & es & t & Hf & _)]; [by rewrite lookup_empty|congruence]. }
  mrun acquire_enc_ok. set (w1 := set_enc_lock _ w).
  destruct (find_map_entry_spec p pk m rel w1) as (r & Er & Hr); [done|by destruct Hex as [? Hex]; simpl; rewrite Hex|done|].
  rewrite (bind_ok _ _ _ _ _ Er). destruct r as [e|].
  - destruct Hr as (He & lk & Hlk & ->).
    rewrite (bind_ok _ _ _ _ _ (GetPrincipalKey_cached _ _ _ w1 Hpk)).
    pose proof (tde_decrypt_rel_key_spec pk e w1 Hok He) as Hd. rewrite Hlk in Hd.
    destruct Hd as (k & Ek & Hk & Hwf). rewrite (bind_ok _ _ _ _ _ Ek).
    exists k. split; [|done]. mrun release_enc_ok.
    unfold w1. by rewrite unlock_lock.
  - rewrite Hr. mrun release_enc_ok. unfold w1. by rewrite unlock_lock.
Qed.

Lemma has_smgr_key_spec rel pk m w :
  db_rep w (dbOid rel) pk m → w_enc_lock w = None → relNumber rel ≠ 0 →
  open_pg_tde_has_smgr_key rel w = Ok (bool_decide (is_Some (m !! rel_loc rel))) w.
Proof.
  intros (Hpk & Hok & Hrep) Hlock Hn. unfold open_pg_tde_has_smgr_key.
  set (p := open_pg_tde_set_db_file_path (dbOid rel)) in *.
  unfold access_F_OK. mstep. case_bool_decide as Hex; simpl.
  2:{ apply eq_None_not_Some in Hex.
      destruct Hrep as [[_ ->]|(h & es & t & Hf & _)]; [by rewrite lookup_empty|congruence]. }
  mrun acquire_enc_ok. set (w1 := set_enc_lock _ w).
  destruct (find_map_entry_spec p pk m rel w1) as (r & Er & Hr); [done|by destruct Hex as [? Hex]; simpl; rewrite Hex|done|].
  rewrite (bind_ok _ _ _ _ _ Er). mrun release_enc_ok. unfold w1. rewrite unlock_lock by done.
  unfold mret, M_ret. f_equal. apply bool_decide_ext. destruct r as [e|].
  - destruct Hr as (_ & lk & _ & ->). split; eauto.
  - rewrite Hr. done.
Qed.

Lemma find_index_spec f es0 i :
  (i ≤ length es0)%nat →
  match find_index f (drop i es0) i with
  | Some j => ∃ e, es0 !! j = Some e ∧ f e = true
  | None => ∀ j e, (i ≤ j)%nat → es0 !! j = Some e → f e = false
  end.
Proof.
  intros Hi. remember (drop i es0) as es eqn:Ees. revert i Hi Ees.
  induction es as [|e es IH]; intros i Hi Ees; simpl.
  - intros j e Hj He. apply (f_equal length) in Ees. rewrite length_drop in Ees. simpl in Ees.
    apply lookup_lt_Some in He. lia.
  - assert (es0 !! i = Some e) as He.
    { rewrite <-(Nat.add_0_r i), <-lookup_drop, <-Ees. done. }
    assert (es = drop (S i) es0) as Ees' by (rewrite (drop_S _ _ _ He) in Ees; by injection Ees).
    destruct (f e) eqn:Ef; [by exists e|].
    pose proof (lookup_lt_Some _ _ _ He). specialize (IH (S i) ltac:(lia) Ees').
    destruct (find_index f es (S i)); [done|]. intros j e' Hj He'.
    destruct (decide (j = i)) as [->|]; [congruence|]. apply (IH j); [lia|done].
Qed.

Lemma is_key_of_true e rel :
  is_key_of e rel = true ↔ is_key e ∧ loc_of e = rel_loc rel.
Proof.
  unfold is_key_of, is_key, loc_of, rel_loc.
  rewrite !andb_true_iff, !Z.eqb_eq. split; [intros [[-> ->] ->]; done|].
  intros [-> [= -> ->]]. done.
Qed.

(** Freeing a key. *)
Lemma free_key_map_entry_spec rel pk m w :
  db_rep w (dbOid rel) pk m → w_enc_lock w = None →
  ∃ w', open_pg_tde_free_key_map_entry rel w = Ok tt w' ∧
        db_rep w' (dbOid rel) pk (delete (rel_loc rel) m) ∧
        only_file (open_pg_tde_set_db_file_path (dbOid rel)) w w'.
Proof.
  intros (Hpk & Hok & Hrep) Hlock. unfold open_pg_tde_free_key_map_entry.
  set (p := open_pg_tde_set_db_file_path (dbOid rel)) in *.
  mrun acquire_enc_ok. set (w1 := set_enc_lock _ w).
  assert (∀ f, LWLockRelease_enc (set_fs f w1) = Ok tt (set_fs f (set_rand (w_rand w) w))) as Hrel0.
  { intros f. unfold LWLockRelease_enc. simpl. do 2 f_equal. unfold w1.
    destruct w; simpl in *. by subst. }
  destruct Hrep as [[Hf ->]|(h & es & t & Hf & Hh & Ht & R)].
  - destruct (kf_open_write_empty smgr_kind p w1 Hf) as (f & Eo & Hfp & Hother).
    change (key_file_open_write smgr_kind) with open_pg_tde_open_file_write in Eo.
    rewrite (bind_ok _ _ _ _ _ Eo). unfold file_fuel. mstep. simpl w_fs. rewrite Hfp. simpl.
    rewrite ?bind_assoc. rewrite (bind_ok _ _ _ _ _ (read_one_empty p (set_fs f w1) Hfp)).
    eexists. split; [apply Hrel0|]. rewrite delete_empty.
    split; [split; [done|split; [done|]]|].
    + left. split; [by right|done].
    + exists f, (w_rand w). by split.
  - pose proof (header_ok_length h (proj1 Hh)) as Hl. pose proof (rep_wf _ _ _ R) as Hes.
    rewrite (bind_ok _ _ _ _ _ (open_file_write_ok p h _ None w1 Hf (proj1 Hh))).
    rewrite (bind_ok _ _ _ _ _ (file_fuel_ok p h t es w1 Hf)).
    rewrite (bind_ok _ _ _ _ _ (free_loop_ok p h t es w1 Hf Hl Hes Ht rel _ 0 ltac:(lia)
             (fuel_enough h t es Hl Hes Ht))).
    pose proof (find_index_spec (λ e, is_key_of e rel) es 0 ltac:(lia)) as Hfi.
    destruct (find_index _ _ _) as [j|].
    + destruct Hfi as (e & He & [Hk Hloc]%is_key_of_true).
      eexists. split; [apply Hrel0|]. split; [split; [done|split; [done|]]|].
      * right. exists h, (<[j:=TDEMapEntry_zero]> es), t. simpl. rewrite lookup_insert_eq.
        split_and!; [done|done|done|]. rewrite <-Hloc. by eapply rep_delete.
      * eexists _, _. split; [done|]. intros q Hq. by rewrite lookup_insert_ne.
    + replace w1 with (set_fs (w_fs w1) w1) by (by destruct w).
      eexists. split; [apply Hrel0|]. split; [split; [done|split; [done|]]|].
      * right. exists h, es, t. split_and!; [done|done|done|]. rewrite delete_id; [done|].
        apply (rep_lookup_None _ _ _ _ R). intros i e He Hk Hloc.
        assert (is_key_of e rel = true) by (by apply is_key_of_true).
        specialize (Hfi i e ltac:(lia) He). congruence.
      * by eexists _, _.
Qed.

(** The number of key entries is the size of the map. *)
Lemma rep_size pk es m :
  entries_rep pk es m →
  Z.of_nat (length (List.filter (counted InvalidOid) es)) = Z.of_nat (size m).
Proof.
  assert (∀ e, counted InvalidOid e = true ↔ is_key e) as Hc.
  { intros e. unfold counted. rewrite Z.eqb_refl. simpl. rewrite andb_true_r. apply Z.eqb_eq. }
  revert m. induction es as [|e es IH] using rev_ind; intros m R; simpl.
  - assert (m = ∅) as ->; [|done]. apply map_eq. intros l. rewrite lookup_empty.
    apply (rep_lookup_None _ _ _ _ R). done.
  - assert (∀ i e', es !! i = Some e' → (es ++ [e]) !! i = Some e') as Hpre.
    { intros i e' Hi. apply lookup_app_l_Some. done. }
    assert ((es ++ [e]) !! length es = Some e) as Hlast by (by rewrite list_lookup_middle).
    rewrite List.filter_app, length_app. simpl.
    destruct (counted InvalidOid e) eqn:Ee.
    + apply Hc in Ee.
      assert (∀ i e', es !! i = Some e' → is_key e' → loc_of e' ≠ loc_of e) as Hnew.
      { intros i e' Hi Hk El. pose proof (rep_nodup _ _ _ R _ _ _ _ (Hpre _ _ Hi) Hlast Hk Ee El).
        apply lookup_lt_Some in Hi. lia. }
      assert (entries_rep pk es (delete (loc_of e) m)) as R'.
      { split.
        - pose proof (rep_wf _ _ _ R) as Hw. by apply Forall_app in Hw as [? _].
        - intros i e' Hi. by eapply (rep_ok _ _ _ R), Hpre.
        - intros i j e1 e2 H1 H2. by apply (rep_nodup _ _ _ R); apply Hpre.
        - intros l lk. rewrite lookup_delete_Some, (rep_map _ _ _ R). split.
          + intros [Hl (i & e' & [[-> ->]|[Hi He']]%lookup_snoc_iff & Hk & El & Hlk)]; [done|eauto 6].
          + intros (i & e' & Hi & Hk & El & Hlk). split; [|by exists i, e'; split_and!; try done; apply Hpre].
            intros El'. destruct (Hnew i e' Hi Hk). congruence. }
      assert (is_Some (m !! loc_of e)) as [lk Hlk].
      { destruct (rep_ok _ _ _ R _ _ Hlast) as [(_ & _ & [lk Hlk])|[Ht _]]; [|by rewrite Ee in Ht].
        exists lk. apply (rep_map _ _ _ R). eauto 6. }
      specialize (IH _ R'). rewrite map_size_delete_Some in IH by eauto.
      assert (size m ≠ 0%nat) by (intros E%map_size_empty_inv; by rewrite E, lookup_empty in Hlk).
      simpl length. destruct (size m); [done|]. simpl Nat.pred in IH. lia.
    + rewrite Nat.add_0_r. apply IH. split.
      * pose proof (rep_wf _ _ _ R) as Hw. by apply Forall_app in Hw as [? _].
      * intros i e' Hi. by eapply (rep_ok _ _ _ R), Hpre.
      * intros i j e1 e2 H1 H2. by apply (rep_nodup _ _ _ R); apply Hpre.
      * intros l lk. rewrite (rep_map _ _ _ R). split.
        -- intros (i & e' & [[-> ->]|[Hi He']]%lookup_snoc_iff & Hk & El & Hlk); [|eauto 6].
           apply Hc in Hk. congruence.
        -- intros (i & e' & Hi & Hk & El & Hlk). exists i, e'. split_and!; try done. by apply Hpre.
Qed.

(** Counting the keys of a database. *)
Lemma count_encryption_keys_spec db pk m w :
  file_rep (w_fs w) (open_pg_tde_set_db_file_path db) pk m →
  open_pg_tde_count_encryption_keys db InvalidOid w = Ok (Z.of_nat (size m)) w.
Proof.
  intros Hrep. unfold open_pg_tde_count_encryption_keys.
  set (p := open_pg_tde_set_db_file_path db) in *.
  destruct Hrep as [[[Hf|Hf] ->]|(h & es & t & Hf & Hh & Ht & R)].
  - by rewrite (bind_ok _ _ _ _ _ (open_file_read_missing _ _ Hf)).
  - rewrite (bind_ok _ _ _ _ _ (open_file_read_empty _ _ _ Hf)).
    unfold file_fuel. mstep. rewrite Hf. simpl.
    rewrite ?bind_assoc. by rewrite (bind_ok _ _ _ _ _ (read_one_empty p w Hf)).
  - pose proof (header_ok_length h (proj1 Hh)) as Hl. pose proof (rep_wf _ _ _ R) as Hes.
    rewrite (bind_ok _ _ _ _ _ (open_file_read_ok _ h _ _ _ Hf (proj1 Hh))).
    rewrite (bind_ok _ _ _ _ _ (file_fuel_ok p h t es w Hf)).
    rewrite (bind_ok _ _ _ _ _ (count_loop_ok p h t es w Hf Hl Hes Ht InvalidOid _ 0 0 ltac:(lia)
             (fuel_enough h t es Hl Hes Ht))).
    rewrite drop_0, (rep_size pk es m R). done.
Qed.

(** *** Rotation of the principal key *)

(** The keys of the first [i] entries. *)
Definition prefix_map (pk : TDEPrincipalKey) (es : list TDEMapEntry) (i : nat) (m : gmap Loc LKey)
  : Prop :=
  ∀ l lk, m !! l = Some lk ↔
    ∃ j e, (j < i)%nat ∧ es !! j = Some e ∧ is_key e ∧ loc_of e = l ∧ entry_lkey pk e = Some lk.

Lemma prefix_map_all pk es m m1 :
  entries_rep pk es m → prefix_map pk es (length es) m1 → m1 = m.
Proof.
  intros R H. apply map_eq. intros l. apply option_eq. intros lk. rewrite (H l lk), (rep_map _ _ _ R).
  split.
  - intros (j & e & _ & Hj). by exists j, e.
  - intros (j & e & He & Hj). exists j, e. split; [by eapply lookup_lt_Some|done].
Qed.

Lemma prefix_map_empty pk es i m1 e :
  prefix_map pk es i m1 → es !! i = Some e → ¬ is_key e → prefix_map pk es (S i) m1.
Proof.
  intros H He Hk l lk. rewrite (H l lk). split.
  - intros (j & e' & Hj & Hr). exists j, e'. split; [lia|done].
  - intros (j & e' & Hj & He' & Hk' & Hr). exists j, e'. split; [|done].
    destruct (decide (j = i)) as [Eji|]; [subst j; congruence|lia].
Qed.

Lemma prefix_map_key pk es m i m1 e lk :
  entries_rep pk es m → prefix_map pk es i m1 → es !! i = Some e → is_key e →
  entry_lkey pk e = Some lk →
  m1 !! loc_of e = None ∧ prefix_map pk es (S i) (<[loc_of e := lk]> m1).
Proof.
  intros R H He Hk Hlk.
  assert (m1 !! loc_of e = None) as Hnone.
  { destruct (m1 !! loc_of e) as [lk'|] eqn:E; [|done].
    apply H in E as (j & e' & Hj & He' & Hk' & El & _).
    pose proof (rep_nodup _ _ _ R _ _ _ _ He' He Hk' Hk El). lia. }
  split; [done|]. intros l lk'. destruct (decide (l = loc_of e)) as [->|Hl].
  - rewrite lookup_insert_eq. split.
    + intros [= <-]. exists i, e. split_and!; [lia|done..].
    + intros (j & e' & Hj & He' & Hk' & El & Hlk').
      pose proof (rep_nodup _ _ _ R _ _ _ _ He' He Hk' Hk El). subst j. congruence.
  - rewrite lookup_insert_ne by done. rewrite (H l lk').
    split; intros (j & e' & Hj & He' & Hk' & El & Hr); exists j, e'; (split; [|done]); [lia|].
    destruct (decide (j = i)) as [Eji|]; [subst j; congruence|lia].
Qed.

Lemma rotate_loop_ok old new pk pk' h t es m h' :
  old ≠ new → pk_ok pk → pk_ok pk' → entries_rep pk es m → length h = 320%nat → (length t < 128)%nat →
  length h' = 320%nat →
  ∀ fuel i es' m1 w,
  (i ≤ length es)%nat → (length es - i < fuel)%nat →
  w_fs w !! old = Some (key_file h es t) → w_fs w !! new = Some (key_file h' es' []) →
  prefix_map pk es i m1 → entries_rep pk' es' m1 →
  ∃ es2 f r, rotate_loop fuel old new pk pk' (entry_pos i) (entry_pos (length es')) w =
               Ok tt (set_fs f (set_rand r w)) ∧
             f !! new = Some (key_file h' es2 []) ∧ (∀ q, q ≠ new → f !! q = w_fs w !! q) ∧
             entries_rep pk' es2 m.
Proof.
  intros Hne Hpk Hpk' R Hh Ht Hh'. pose proof (rep_wf _ _ _ R) as Hes.
  induction fuel as [|fuel IH]; intros i es' m1 w Hi Hfuel Ho Hn Hpre R'; [lia|]. simpl.
  destruct (read_next old h t es w Ho Hh Hes Ht i Hi) as [[Hd E]|(e & He & _ & Hlt & E)];
    rewrite (bind_ok _ _ _ _ _ E).
  { exists es', (w_fs w), (w_rand w). split_and!; [by destruct w|done|done|].
    assert (i = length es) as ->.
    { apply (f_equal length) in Hd. rewrite length_drop in Hd. simpl in Hd. lia. }
    by rewrite <-(prefix_map_all _ _ _ _ R Hpre). }
  destruct (Z.eqb_spec (me_type e) MAP_ENTRY_TYPE_EMPTY) as [Hemp|Hnemp].
  { apply (IH (S i) es' m1 w); try done; [lia|]. eapply prefix_map_empty; [done..|].
    unfold is_key. rewrite Hemp. done. }
  destruct (rep_ok _ _ _ R _ _ He) as [(Hk & Hnz & [lk Hlk])|[? _]]; [|done].
  pose proof (Forall_lookup_1 _ _ _ _ Hes He) as Hwf.
  pose proof (tde_decrypt_rel_key_spec pk e w Hpk Hwf) as Hd. rewrite Hlk in Hd.
  destruct Hd as (k & Ek & Hkl & Hkwf). rewrite (bind_ok _ _ _ _ _ Ek).
  destruct (uninit_entry_ok w) as (old0 & Eold & Hold). rewrite (bind_ok _ _ _ _ _ Eold).
  set (rloc := mkRelFileLocator _ _ _).
  destruct (initialize_map_entry_spec old0 pk' rloc k w) as (e2 & Ee & He1 & He2 & He3 & He4 & He5);
    [done..| |].
  { destruct Hwf as (?&?&?&?&_). destruct Hpk as [_ (?&_)]. done. }
  rewrite (bind_ok _ _ _ _ _ Ee).
  set (w2 := set_rand _ w). pose proof (entry_pos_nonneg (length es')).
  rewrite (bind_ok _ _ _ _ _ (write_one_ok new e2 _ _ w2 Hn He1 ltac:(done))).
  rewrite key_file_snoc by (done || apply R' || (simpl; lia)).
  assert (loc_of e2 = loc_of e) as Eloc by (unfold loc_of; simpl in *; congruence).
  destruct (prefix_map_key pk es m i m1 e lk) as [Hnone Hpre']; [done..|].
  rewrite Hkl in He5.
  replace (entry_pos (length es') + 128) with (entry_pos (length (es' ++ [e2])))
    by (rewrite length_app; simpl; unfold entry_pos; lia).
  edestruct (IH (S i) (es' ++ [e2]) (<[loc_of e:=lk]> m1)
    (set_fs (<[new:=key_file h' (es' ++ [e2]) []]> (w_fs w2)) w2))
    as (es2 & f & r & E2 & Hf1 & Hf2 & R2); try done; try lia.
  - simpl. by rewrite lookup_insert_ne.
  - simpl. by rewrite lookup_insert_eq.
  - rewrite <-Eloc. apply rep_snoc; try done.
    + destruct Hwf as (?&?&?&?&_). by rewrite He4.
    + intros j e' Hj Hk'. rewrite Eloc. by apply (proj1 (rep_lookup_None _ _ _ _ R') Hnone j).
  - exists es2, f, r. split_and!; [exact E2|done| |done].
    intros q Hq. rewrite Hf2 by done. simpl. by rewrite lookup_insert_ne.
Qed.

(** A database whose key file has a header. *)
Definition has_header (w : World) (p : string) : Prop :=
  ∃ bs, w_fs w !! p = Some bs ∧ bs ≠ [].

(** Rotation re-encrypts every key with the new principal key and changes no
    key. *)
Lemma perform_rotate_key_spec pk pk' m w xlog :
  let p := open_pg_tde_set_db_file_path (pki_databaseId (pk_keyInfo pk)) in
  pk_ok pk → pk_ok pk' → file_rep (w_fs w) p pk m → has_header w p →
  ∃ w' f r x, open_pg_tde_perform_rotate_key pk pk' xlog w = Ok tt w' ∧
    w' = set_fs f (set_rand r (set_xlog x w)) ∧
    x = w_xlog w ++ (if xlog then [XLOG_TDE_ROTATE_PRINCIPAL_KEY (rotate_record pk')] else []) ∧
    file_rep f p pk' m ∧ has_header w' p ∧ (∀ q, q ≠ p → q ≠ tmp_path p → f !! q = w_fs w !! q).
Proof.
  intros p Hpk Hpk' Hrep (bs & Hbs & Hne). unfold open_pg_tde_perform_rotate_key. fold p.
  destruct (sign_principal_key_info_spec pk' w Hpk') as (s & Es & Hs1 & Hs2 & Hs3).
  rewrite (bind_ok _ _ _ _ _ Es). set (w1 := set_rand _ w).
  destruct Hrep as [[[Hf|Hf] _]|(h & es & t & Hf & Hh & Ht & R)]; [congruence|congruence|].
  pose proof (header_ok_length h (proj1 Hh)) as Hl. pose proof (rep_wf _ _ _ R) as Hes.
  rewrite (bind_ok _ _ _ _ _ (open_file_read_ok p h _ false w1 Hf (proj1 Hh))).
  rewrite (bind_ok _ _ _ _ _ (open_file_write_new (tmp_path p) s true w1 (or_introl eq_refl) Hs1)).
  set (w2 := set_fs _ w1).
  assert (w_fs w2 !! p = Some (key_file h es t)) as Hf2.
  { simpl. rewrite lookup_insert_ne by apply tmp_path_ne. done. }
  assert (w_fs w2 !! tmp_path p = Some (key_file (new_header s) [] [])) as Hn2.
  { simpl. rewrite lookup_insert_eq. unfold key_file, kfile. simpl. by rewrite app_nil_r. }
  rewrite (bind_ok _ _ _ _ _ (file_fuel_ok p h t es w2 Hf2)).
  destruct (rotate_loop_ok p (tmp_path p) pk pk' h t es m (new_header s)
    (not_eq_sym (tmp_path_ne p)) Hpk Hpk' R Hl Ht (proj1 (new_header_ok s Hs1))
    (S (length (key_file h es t))) 0 [] ∅ w2) as (es2 & f & r & El & Hfn & Hfo & R2); try done.
  { lia. } { by apply fuel_enough. }
  { intros l lk. rewrite lookup_empty. split; [done|]. intros (j & e & Hj & _). lia. }
  { apply rep_empty. }
  change 320 with (entry_pos 0) in *. change (length (@nil TDEMapEntry)) with 0%nat in El.
  rewrite (bind_ok _ _ _ _ _ El). set (w3 := set_fs f _).
  rewrite !(bind_ok _ _ _ _ _ (ret_ok _ _ : CloseTransientFile _ _ = _)).
  rewrite (bind_ok _ _ _ _ _ (rename_ok (tmp_path p) p ERROR w3 _ Hfn)).
  set (w4 := set_fs _ w3).
  assert (file_rep (w_fs w4) p pk' m ∧ has_header w4 p ∧
          ∀ q, q ≠ p → q ≠ tmp_path p → w_fs w4 !! q = w_fs w !! q) as (Hr & Hhd & Hq).
  { simpl. split_and!.
    - right. exists (new_header s), es2, []. rewrite lookup_insert_eq.
      split_and!; [done|by apply new_header_for|simpl; lia|done].
    - eexists. simpl. rewrite lookup_insert_eq. split; [done|]. intros E.
      apply (f_equal length) in E. unfold key_file, kfile in E.
      rewrite length_app, (proj1 (new_header_ok s Hs1)) in E. simpl in E. lia.
    - intros q Hq1 Hq2. rewrite lookup_insert_ne, lookup_delete_ne by done.
      rewrite Hfo by done. simpl. by rewrite lookup_insert_ne. }
  destruct xlog.
  - eexists _, (w_fs w4), r, _. split; [done|]. split_and!; try done.
  - eexists _, (w_fs w4), r, _. split; [done|]. split_and!; try done.
    rewrite app_nil_r. by destruct w.
Qed.

(** The first principal key of a database: a file with a header and no
    keys. *)
Lemma save_principal_key_spec pk xlog w :
  let p := open_pg_tde_set_db_file_path (pki_databaseId (pk_keyInfo pk)) in
  pk_ok pk →
  ∃ s, open_pg_tde_save_principal_key pk xlog w =
    Ok tt (set_fs (<[p := new_header s]> (w_fs w)) (set_rand (S (w_rand w))
      (set_xlog (w_xlog w ++ if xlog then [XLOG_TDE_ADD_PRINCIPAL_KEY s] else []) w))) ∧
    header_for pk (new_header s).
Proof.
  intros p Hpk. unfold open_pg_tde_save_principal_key. fold p.
  destruct (sign_principal_key_info_spec pk w Hpk) as (s & Es & Hs1 & Hs2 & Hs3).
  rewrite (bind_ok _ _ _ _ _ Es). exists s. split; [|by apply new_header_for].
  destruct xlog.
  - mstep. rewrite (bind_ok _ _ _ _ _ (open_file_write_new p s true _ (or_introl eq_refl) Hs1)). done.
  - mstep. rewrite (bind_ok _ _ _ _ _ (open_file_write_new p s true _ (or_introl eq_refl) Hs1)).
    rewrite app_nil_r. by destruct w.
Qed.

Lemma header_for_rep p pk h fs :
  fs !! p = Some h → header_for pk h → file_rep fs p pk ∅.
Proof.
  intros Hf Hh. right. exists h, [], []. split_and!; [|done|simpl; lia|apply rep_empty].
  rewrite Hf. unfold key_file, kfile. simpl. by rewrite app_nil_r.
Qed.

End ops.

(** ** What can change when calls fail *)

Section frames.
Context {SSL : OpenSSL} {K : Kernel}.

Lemma always_gcm_encrypt key kl iv il aad inp tl :
  always same_files (AesGcmEncrypt key kl iv il aad inp tl).
Proof. unfold AesGcmEncrypt, check_ssl. always_solve. Qed.

Lemma always_gcm_decrypt key kl iv il aad inp tag :
  always same_files (AesGcmDecrypt key kl iv il aad inp tag).
Proof. unfold AesGcmDecrypt, check_ssl. always_solve. Qed.

#[local] Hint Resolve always_gcm_encrypt always_gcm_decrypt : always.

Lemma always_sign pk : always same_files (open_pg_tde_sign_principal_key_info pk).
Proof. unfold open_pg_tde_sign_principal_key_info. always_solve. Qed.

Lemma always_init_entry old pk rel k : always same_files (open_pg_tde_initialize_map_entry old pk rel k).
Proof. unfold open_pg_tde_initialize_map_entry. always_solve. Qed.

Lemma always_decrypt_rel pk e : always same_files (tde_decrypt_rel_key pk e).
Proof. unfold tde_decrypt_rel_key, open_pg_tde_cipher_key_length. always_solve. Qed.

Lemma always_read_one fd off : always same_files (open_pg_tde_read_one_map_entry fd off).
Proof. unfold open_pg_tde_read_one_map_entry. always_solve. Qed.

Lemma always_write_one fd e off : always (touches fd) (open_pg_tde_write_one_map_entry fd e off).
Proof. apply always_kf_write. Qed.

Lemma always_uninit_entry : always same_files uninit_entry.
Proof. unfold uninit_entry. always_solve. Qed.

#[local] Hint Resolve always_sign always_init_entry always_decrypt_rel always_read_one
  always_write_one always_uninit_entry : always.

Lemma always_rotate_loop fuel old new pk pk' p1 p2 :
  always (touches new) (rotate_loop fuel old new pk pk' p1 p2).
Proof.
  revert p1 p2. induction fuel as [|fuel IH]; intros p1 p2; simpl; [unfold out_of_fuel; always_solve|].
  always_solve.
Qed.

(** A rotation up to the point where the new file replaces the old one. *)
Definition rotate_prepare (pk pk' : TDEPrincipalKey) : M unit :=
  let p := open_pg_tde_set_db_file_path (pki_databaseId (pk_keyInfo pk)) in
  info ← open_pg_tde_sign_principal_key_info pk';
  o ← open_pg_tde_open_file_read p false;
  match o with
  | None => ereport PANIC "unreachable: missing files are not ignored"
  | Some (old_fd, old_pos) =>
      '(new_fd, new_pos) ← open_pg_tde_open_file_write (tmp_path p) (Some info) true;
      fuel ← file_fuel old_fd;
      rotate_loop fuel old_fd new_fd pk pk' old_pos new_pos
  end.

Definition log_rotation (pk' : TDEPrincipalKey) (xlog : bool) : M unit :=
  if xlog then XLogInsert (XLOG_TDE_ROTATE_PRINCIPAL_KEY (rotate_record pk')) else mret tt.

Lemma rotate_prepared pk pk' xlog w :
  let p := open_pg_tde_set_db_file_path (pki_databaseId (pk_keyInfo pk)) in
  open_pg_tde_perform_rotate_key pk pk' xlog w =
    (rotate_prepare pk pk';; durable_rename (tmp_path p) p ERROR;; log_rotation pk' xlog) w.
Proof.
  intros p. unfold open_pg_tde_perform_rotate_key, rotate_prepare. fold p. unfold mbind, M_bind.
  destruct (open_pg_tde_sign_principal_key_info pk' w) as [info w1|]; [|done].
  destruct (open_pg_tde_open_file_read p false w1) as [[[old_fd pos]|] w2|]; [|done|done].
  destruct (open_pg_tde_open_file_write (tmp_path p) (Some info) true w2) as [[new_fd pos2] w3|]; [|done].
  destruct (file_fuel old_fd w3) as [fuel w4|]; [|done]. by destruct (rotate_loop fuel old_fd new_fd pk pk' pos pos2 w4).
Qed.

Lemma always_rotate_prepare pk pk' :
  always (touches (tmp_path (open_pg_tde_set_db_file_path (pki_databaseId (pk_keyInfo pk))))) (rotate_prepare pk pk').
Proof.
  unfold rotate_prepare. set (p := open_pg_tde_set_db_file_path _). cbv zeta.
  apply (always_bind _); [auto with always|]. intros info.
  apply (always_bind _); [apply same_files_touches, always_kf_open_read|]. intros [[old_fd pos]|]; [|auto with always].
  apply (always_bind_dep _); [apply always_kf_open_write|]. intros w2 [new_fd pos2] w3 E.
  assert (new_fd = tmp_path p) as -> by apply (kf_open_write_fd smgr_kind (tmp_path p) (Some info) true w2 (new_fd, pos2) w3 E).
  apply (always_bind _); [by intros ?|]. intros fuel. apply always_rotate_loop.
Qed.

(** A rotation that fails leaves the key file as it was, or as the new file
    that was written completely before. *)
Lemma rotate_key_error pk pk' xlog w e w' :
  open_pg_tde_perform_rotate_key pk pk' xlog w = Err e w' →
  let p := open_pg_tde_set_db_file_path (pki_databaseId (pk_keyInfo pk)) in
  w_fs w' !! p = w_fs w !! p ∨
  ∃ w1 bs n, rotate_prepare pk pk' w = Ok tt w1 ∧ w_fs w1 !! tmp_path p = Some bs ∧ w' = renamed (tmp_path p) p bs w1 ∧
    sys_fault (SysRename (tmp_path p) p) (w_fs w1) = Some n ∧ 0 <= n.
Proof.
  intros E p. rewrite rotate_prepared in E. refine (replace_error _ _ _ _ _ _ _ _ (always_rotate_prepare pk pk') _ _ E).
  - apply not_eq_sym, tmp_path_ne.
  - intros w1. by destruct xlog; do 2 eexists.
Qed.

End frames.

#[export] Hint Resolve always_gcm_encrypt always_gcm_decrypt always_sign : always.

(** ** Sequences of operations *)

Inductive KeyOp :=
| OpSave (rel : RelFileLocator) (k : InternalKey) (replace_existing : bool)
| OpFree (rel : RelFileLocator).

Definition op_rel (o : KeyOp) : RelFileLocator :=
  match o with OpSave rel _ _ => rel | OpFree rel => rel end.

Definition op_valid (db : Z) (o : KeyOp) : Prop :=
  dbOid (op_rel o) = db ∧ RelFileLocator_wf (op_rel o) ∧ relNumber (op_rel o) ≠ 0 ∧
  match o with OpSave _ k _ => InternalKey_wf k | OpFree _ => True end.

(** The specification: a finite map from relations to keys. *)
Definition abs_op (m : gmap Loc LKey) (o : KeyOp) : gmap Loc LKey :=
  match o with
  | OpSave rel k replace => saved replace (rel_loc rel) (lkey k) m
  | OpFree rel => delete (rel_loc rel) m
  end.

Section properties.
Context {SSL : OpenSSL} {Spec : OpenSSLSpec SSL} {K : Kernel} {NF : NoFaults K} {RW : RandWorks SSL}.
Context {PKS : PrincipalKeys} {PKSpec : PrincipalKeysSpec PKS}.

Definition run_op (o : KeyOp) : M unit :=
  match o with
  | OpSave rel k replace => open_pg_tde_save_smgr_key rel k replace
  | OpFree rel => open_pg_tde_free_key_map_entry rel
  end.

Fixpoint run_ops (os : list KeyOp) : M unit :=
  match os with
  | [] => mret tt
  | o :: os => run_op o;; run_ops os
  end.

Lemma only_file_facts p w w' :
  only_file p w w' →
  w_enc_lock w' = w_enc_lock w ∧ w_pk_cache w' = w_pk_cache w ∧ w_xlog w' = w_xlog w ∧ touches p w w'.
Proof. intros (f & r & -> & Hf). done. Qed.

Lemma run_op_spec db pk m o w :
  db_rep w db pk m → w_enc_lock w = None → op_valid db o →
  ∃ w', run_op o w = Ok tt w' ∧ db_rep w' db pk (abs_op m o) ∧
        only_file (open_pg_tde_set_db_file_path db) w w'.
Proof.
  intros Hrep Hlock (<- & Hwf & Hn & Hk). destruct o as [rel k replace|rel]; simpl in *.
  - by apply save_smgr_key_spec.
  - by apply free_key_map_entry_spec.
Qed.

(** C1: any sequence of saving and freeing keys of one database, run on the
    bytes of its key file, succeeds and implements the same sequence on a
    finite map from relations to keys, starting from any file contents that
    represent a map; no other file, and no WAL, is written. *)
Theorem keymap_refines db pk m os w :
  db_rep w db pk m → w_enc_lock w = None → Forall (op_valid db) os →
  ∃ w', run_ops os w = Ok tt w' ∧ db_rep w' db pk (foldl abs_op m os) ∧ w_enc_lock w' = None ∧
        w_xlog w' = w_xlog w ∧ touches (open_pg_tde_set_db_file_path db) w w'.
Proof.
  intros Hrep Hlock Hos. revert m w Hrep Hlock.
  induction Hos as [|o os Ho _ IH]; intros m w Hrep Hlock; simpl.
  { exists w. split_and!; try done. }
  destruct (run_op_spec db pk m o w Hrep Hlock Ho) as (w1 & E1 & Hrep1 & Hof).
  apply only_file_facts in Hof as (L1 & _ & X1 & T1).
  rewrite (bind_ok _ _ _ _ _ E1).
  destruct (IH _ w1 Hrep1) as (w2 & E2 & Hrep2 & L2 & X2 & T2); [by rewrite L1|].
  exists w2. split_and!; try done; [by rewrite X2, X1|by etrans].
Qed.

(** C5: a key that was saved is returned by the look-up, ready for use, and
    saving it changed the answer for no other relation of the database. *)
Theorem save_then_get rel k pk m w rel' :
  db_rep w (dbOid rel) pk m → w_enc_lock w = None →
  RelFileLocator_wf rel → relNumber rel ≠ 0 → InternalKey_wf k →
  dbOid rel' = dbOid rel → relNumber rel' ≠ 0 → rel_loc rel' ≠ rel_loc rel →
  ∃ w' k', open_pg_tde_save_smgr_key rel k true w = Ok tt w' ∧
    open_pg_tde_get_smgr_key rel w' = Ok (Some k') w' ∧ key_equiv k' k ∧ InternalKey_wf k' ∧
    open_pg_tde_has_smgr_key rel' w' = Ok (bool_decide (is_Some (m !! rel_loc rel'))) w' ∧
    match m !! rel_loc rel' with
    | Some lk => ∃ k2, open_pg_tde_get_smgr_key rel' w' = Ok (Some k2) w' ∧ lkey k2 = lk
    | None => open_pg_tde_get_smgr_key rel' w' = Ok None w'
    end.
Proof.
  intros Hrep Hlock Hwf Hn Hk Hdb Hn' Hne.
  destruct (save_smgr_key_spec rel k true pk m w) as (w' & E & Hrep' & Hof); [done..|].
  apply only_file_facts in Hof as (L & _). unfold saved in Hrep'. rewrite Hlock in L.
  pose proof (get_smgr_key_spec rel pk _ w' Hrep' L Hn) as Hg. rewrite lookup_insert_eq in Hg.
  destruct Hg as (k' & Eg & Hlk & Hwf'). rewrite <-Hdb in Hrep'.
  pose proof (get_smgr_key_spec rel' pk _ w' Hrep' L Hn') as Hg'.
  pose proof (has_smgr_key_spec rel' pk _ w' Hrep' L Hn') as Hh'.
  rewrite lookup_insert_ne in Hg', Hh' by done.
  exists w', k'. split_and!; try done.
  - split; [done|]. injection Hlk as Hc _ _. destruct Hwf' as (C1 & _), Hk as (C2 & _).
    rewrite Hc in C1. congruence.
  - destruct (m !! rel_loc rel') as [lk|]; [|done]. destruct Hg' as (k2 & ? & ? & _). eauto.
Qed.

(** Without [replace_existing] an existing key survives a save. *)
Theorem save_keeps_existing rel k pk m lk w :
  db_rep w (dbOid rel) pk m → w_enc_lock w = None →
  RelFileLocator_wf rel → relNumber rel ≠ 0 → InternalKey_wf k → m !! rel_loc rel = Some lk →
  ∃ w' k', open_pg_tde_save_smgr_key rel k false w = Ok tt w' ∧
    open_pg_tde_get_smgr_key rel w' = Ok (Some k') w' ∧ lkey k' = lk.
Proof.
  intros Hrep Hlock Hwf Hn Hk Hm.
  destruct (save_smgr_key_spec rel k false pk m w) as (w' & E & Hrep' & Hof); [done..|].
  apply only_file_facts in Hof as (L & _). unfold saved in Hrep'. rewrite Hm in Hrep'.
  rewrite Hlock in L. pose proof (get_smgr_key_spec rel pk _ w' Hrep' L Hn) as Hg.
  rewrite Hm in Hg. destruct Hg as (k' & ? & ? & _). eauto.
Qed.

(** Freeing removes the relation's key, and with [m] the keys of a
    database, the number of keys reported afterwards is the size of [m]
    without that relation. *)
Theorem free_then_get_and_count rel pk m w :
  db_rep w (dbOid rel) pk m → w_enc_lock w = None → relNumber rel ≠ 0 →
  ∃ w', open_pg_tde_free_key_map_entry rel w = Ok tt w' ∧
    open_pg_tde_get_smgr_key rel w' = Ok None w' ∧
    open_pg_tde_count_encryption_keys (dbOid rel) InvalidOid w' =
      Ok (Z.of_nat (size (delete (rel_loc rel) m))) w'.
Proof.
  intros Hrep Hlock Hn.
  destruct (free_key_map_entry_spec rel pk m w) as (w' & E & Hrep' & Hof); [done..|].
  apply only_file_facts in Hof as (L & _). rewrite Hlock in L. exists w'. split_and!; [done| |].
  - pose proof (get_smgr_key_spec rel pk _ w' Hrep' L Hn) as Hg. by rewrite lookup_delete_eq in Hg.
  - destruct Hrep' as (_ & _ & Hrep'). by apply count_encryption_keys_spec with pk.
Qed.

(** C6: rotating the principal key keeps every key of the database: the file
    represents the same map under the new principal key, its header names
    the new key, and one WAL record describes the rotation. *)
Theorem rotation_keeps_keys pk pk' m w :
  let p := open_pg_tde_set_db_file_path (pki_databaseId (pk_keyInfo pk)) in
  pk_ok pk → pk_ok pk' → file_rep (w_fs w) p pk m → has_header w p →
  ∃ w', open_pg_tde_perform_rotate_key pk pk' true w = Ok tt w' ∧
    file_rep (w_fs w') p pk' m ∧ has_header w' p ∧
    w_xlog w' = w_xlog w ++ [XLOG_TDE_ROTATE_PRINCIPAL_KEY (rotate_record pk')] ∧
    (∀ q, q ≠ p → q ≠ tmp_path p → w_fs w' !! q = w_fs w !! q).
Proof.
  intros p H1 H2 H3 H4.
  destruct (perform_rotate_key_spec pk pk' m w true) as (w' & f & r & x & E & -> & -> & Hr & Hh & Hq);
    [done..|].
  eexists. split; [done|]. split_and!; done.
Qed.

(** An entry that the principal key does not open (another key, or a
    changed entry) is reported as an error, never as a key. *)
Theorem wrong_key_is_error pk e w :
  pk_ok pk → TDEMapEntry_wf e → entry_lkey pk e = None →
  ∃ msg, tde_decrypt_rel_key pk e w = Err (mkError ERROR msg) w.
Proof.
  intros Hpk He Hl. pose proof (tde_decrypt_rel_key_spec pk e w Hpk He) as H. by rewrite Hl in H.
Qed.

(** The authenticated data of an entry determines its cipher, tablespace,
    relation, type and base IV: changing any of them changes what the tag is
    checked against. *)
Theorem entry_fields_authenticated e1 e2 :
  TDEMapEntry_wf e1 → TDEMapEntry_wf e2 → map_entry_aad e1 = map_entry_aad e2 →
  me_cipher e1 = me_cipher e2 ∧ loc_of e1 = loc_of e2 ∧ me_type e1 = me_type e2 ∧
  me_key_base_iv e1 = me_key_base_iv e2.
Proof.
  intros (A1&A2&A3&A4&A5&_) (B1&B2&B3&B4&B5&_). rewrite !entry_aad by done. intros E.
  apply app_inj_1 in E as [E1 E]; [|done]. apply app_inj_1 in E as [E2 E]; [|done].
  apply app_inj_1 in E as [E3 E]; [|done]. apply app_inj_1 in E as [E4 E5]; [|done].
  assert (∀ a b, is_u32 a → is_u32 b → enc_u32 a = enc_u32 b → a = b) as Hinj.
  { intros a b Ha Hb H. by rewrite <-(dec_enc_u32 a), <-(dec_enc_u32 b), H. }
  unfold loc_of. split_and!; [by apply Hinj| |by apply Hinj|done].
  f_equal; by apply Hinj.
Qed.

End properties.

(** The same machine, on which renaming files works. *)
Definition rename_works (k : Kernel) : Kernel := {|
  sys_fault c fs := match c with SysRename _ _ => None | _ => @sys_fault k c fs end;
  data_sync_retry := @data_sync_retry k;
  junk := @junk k;
|}.

(** Errors of a rename are raised before the file was replaced. *)
Definition rename_atomic (k : Kernel) : Prop := ∀ src dst fs n, @sys_fault k (SysRename src dst) fs = Some n → n < 0.

Section failures.
Context {SSL : OpenSSL} {K : Kernel}.

(** Up to the replacement of the file nothing is renamed. *)
Lemma prepare_renames pk pk' w : rotate_prepare (K := rename_works K) pk pk' w = rotate_prepare pk pk' w.
Proof. reflexivity. Qed.

Lemma failed_rotation_file pk pk' xlog w e w' :
  open_pg_tde_perform_rotate_key pk pk' xlog w = Err e w' →
  let p := open_pg_tde_set_db_file_path (pki_databaseId (pk_keyInfo pk)) in
  w_fs w' !! p = w_fs w !! p ∨
  ∃ w2, open_pg_tde_perform_rotate_key (K := rename_works K) pk pk' xlog w = Ok tt w2 ∧ w_fs w2 = w_fs w'.
Proof.
  intros E p. destruct (rotate_key_error pk pk' xlog w e w' E) as [H|(w1 & bs & n & E1 & Eb & -> & _)]; [by left|right].
  rewrite rotate_prepared. fold p. rewrite <-prepare_renames in E1. rewrite (bind_ok _ _ _ _ _ E1).
  assert (durable_rename (K := rename_works K) (tmp_path p) p ERROR w1 = Ok tt (renamed (tmp_path p) p bs w1)) as E2.
  { unfold durable_rename. cbn [sys_fault rename_works]. fold p in Eb. by rewrite Eb. }
  rewrite (bind_ok _ _ _ _ _ E2). by destruct xlog; eexists.
Qed.

(** C26: a rotation is all or nothing. Whatever system calls fail or transfer too
    little, a rotation that ends with an error has left the key file exactly as it
    was, or, if the error was raised after the new file had replaced it (the sync
    that follows failed), exactly as the rotation would have left it without that
    error. *)
Theorem failed_rotation_all_or_nothing pk pk' xlog w e w' :
  open_pg_tde_perform_rotate_key pk pk' xlog w = Err e w' →
  let p := open_pg_tde_set_db_file_path (pki_databaseId (pk_keyInfo pk)) in
  w_fs w' !! p = w_fs w !! p ∨
  ∃ w2, open_pg_tde_perform_rotate_key (K := rename_works K) pk pk' xlog w = Ok tt w2 ∧ w_fs w2 = w_fs w'.
Proof. apply failed_rotation_file. Qed.

End failures.

Section retry.
Context {SSL : OpenSSL} {Spec : OpenSSLSpec SSL} {K : Kernel} {NF : NoFaults K} {RW : RandWorks SSL}.

(** Attempts to rotate that all fail, each under its own conditions, and none of
    them after it has replaced the key file. *)
Inductive failed_attempts (pk pk' : TDEPrincipalKey) (xlog : bool) : World → World → Prop :=
  | no_attempt w : failed_attempts pk pk' xlog w w
  | failed_attempt (k : Kernel) w e w1 w2 :
      rename_atomic k → open_pg_tde_perform_rotate_key (K := k) pk pk' xlog w = Err e w1 →
      failed_attempts pk pk' xlog w1 w2 → failed_attempts pk pk' xlog w w2.

Lemma failed_attempts_file pk pk' xlog w w1 :
  failed_attempts pk pk' xlog w w1 →
  let p := open_pg_tde_set_db_file_path (pki_databaseId (pk_keyInfo pk)) in w_fs w1 !! p = w_fs w !! p.
Proof.
  intros H p. induction H as [|k w e w1 w2 Hk E _ IH]; [done|]. rewrite IH.
  destruct (rotate_key_error (K := k) pk pk' xlog w e w1 E) as [|(w0 & bs & n & _ & _ & _ & Hn & ?)]; [done|].
  apply Hk in Hn. lia.
Qed.

(** C21: a rotation gets done: however many attempts fail, and whatever fails in
    each of them before the key file is replaced, the next one in which the system
    works succeeds, and the key file then holds all relation keys under the new
    principal key; an attempt in which only the sync after the replacement fails
    has done it as well, or has changed nothing. *)
Theorem rotation_retry_succeeds pk pk' m xlog w w1 :
  let p := open_pg_tde_set_db_file_path (pki_databaseId (pk_keyInfo pk)) in
  pk_ok pk → pk_ok pk' → file_rep (w_fs w) p pk m → has_header w p → failed_attempts pk pk' xlog w w1 →
  (∃ w', open_pg_tde_perform_rotate_key pk pk' xlog w1 = Ok tt w' ∧ file_rep (w_fs w') p pk' m) ∧
  ∀ k e w2, NoFaults (rename_works k) → open_pg_tde_perform_rotate_key (K := k) pk pk' xlog w1 = Err e w2 →
    w_fs w2 !! p = w_fs w !! p ∨ file_rep (w_fs w2) p pk' m.
Proof.
  intros p Hpk Hpk' Hrep Hh Hfail. pose proof (failed_attempts_file _ _ _ _ _ Hfail) as Hf. fold p in Hf.
  assert (file_rep (w_fs w1) p pk m) as Hrep1 by (unfold file_rep; by rewrite Hf).
  assert (has_header w1 p) as Hh1 by (unfold has_header; by rewrite Hf).
  split.
  - destruct (perform_rotate_key_spec pk pk' m w1 xlog) as (w' & f & r & x & E & -> & _ & R & _); try done. by eexists.
  - intros k e w2 Hk E. destruct (failed_rotation_file (K := k) pk pk' xlog w1 e w2 E) as [H|(w3 & E3 & <-)].
    { left. fold p in H. by rewrite H. }
    right. destruct (perform_rotate_key_spec (K := rename_works k) (NF := Hk) pk pk' m w1 xlog)
      as (w' & f & r & x & E' & -> & _ & R & _); try done. rewrite E' in E3. by injection E3 as <-.
Qed.

End retry.

(** ** Examples *)

(** A server whose principal keys are all cached. *)
#[global] Instance ToyPK : PrincipalKeys := { GetPrincipalKey db _ w := Ok (w_pk_cache w !! db) w }.

#[global] Instance ToyPKSpec : PrincipalKeysSpec ToyPK.
Proof. split. intros db m pk w E. simpl. by rewrite E. Defined.

Definition pk5 : TDEPrincipalKey := pk_example 5 x11.
Definition pk5' : TDEPrincipalKey := pk_example 5 x22.
Definition world_db : World := set_pk_cache {[5 := pk5]} world0.
Definition rel1 : RelFileLocator := mkRelFileLocator 1663 5 16384.
Definition rel2 : RelFileLocator := mkRelFileLocator 1663 5 16385.
Definition p5 : string := open_pg_tde_set_db_file_path 5.

Lemma pk_example_ok db b : is_u32 db → pk_ok (pk_example db b).
Proof.
  intros H. split.
  - split; [by left|simpl; lia].
  - split_and!; simpl; try done; unfold is_u32; lia.
Defined.

Lemma pk5_ok : pk_ok pk5.
Proof. apply pk_example_ok. unfold is_u32. lia. Defined.

Lemma pk5'_ok : pk_ok pk5'.
Proof. apply pk_example_ok. unfold is_u32. lia. Defined.

Lemma world_db_rep : db_rep world_db 5 pk5 ∅.
Proof. split; [done|]. split; [apply pk5_ok|]. left. split; [by left|done]. Defined.

Lemma rel1_wf : RelFileLocator_wf rel1.
Proof. unfold RelFileLocator_wf, is_u32. simpl. lia. Defined.

(** The same server with a key for the first relation. *)
Definition world_key : World :=
  match open_pg_tde_save_smgr_key rel1 rel_key_example true world_db with Ok _ w | Err _ w => w end.

Definition keys1 : gmap Loc LKey := {[rel_loc rel1 := lkey rel_key_example]}.

Lemma world_key_facts :
  db_rep world_key 5 pk5 keys1 ∧ w_enc_lock world_key = None ∧ has_header world_key p5.
Proof.
  destruct (save_smgr_key_spec rel1 rel_key_example true pk5 ∅ world_db) as (w' & E & Hr & Hof);
    [apply world_db_rep|done|apply rel1_wf|done|apply rel_key_example_wf|].
  assert (world_key = w') as -> by (unfold world_key; by rewrite E).
  apply only_file_facts in Hof as (L & _). rewrite L.
  split_and!; [exact Hr|done|]. destruct Hr as (_ & _ & [[_ Hm]|(h & es & t & Hf & Hh & _)]).
  - apply (f_equal (lookup (rel_loc rel1))) in Hm. unfold saved in Hm.
    by rewrite lookup_insert_eq, lookup_empty in Hm.
  - exists (key_file h es t). split; [done|]. intros Hnil. apply (f_equal length) in Hnil.
    unfold key_file, kfile in Hnil. rewrite length_app, (header_ok_length h (proj1 Hh)) in Hnil.
    simpl in Hnil. lia.
Qed.

Lemma keymap_refines_witness :
  ∃ w', run_ops [OpSave rel1 rel_key_example true; OpFree rel1] world_db = Ok tt w' ∧
    db_rep w' 5 pk5 (delete (rel_loc rel1) {[rel_loc rel1 := lkey rel_key_example]}) ∧
    w_enc_lock w' = None ∧ w_xlog w' = [] ∧ touches p5 world_db w'.
Proof.
  apply (keymap_refines 5 pk5 ∅ [OpSave rel1 rel_key_example true; OpFree rel1] world_db);
    [apply world_db_rep|done|].
  repeat constructor; try done; try apply rel1_wf; apply rel_key_example_wf.
Defined.

Lemma save_then_get_witness :
  ∃ w' k', open_pg_tde_save_smgr_key rel1 rel_key_example true world_db = Ok tt w' ∧
    open_pg_tde_get_smgr_key rel1 w' = Ok (Some k') w' ∧ key_equiv k' rel_key_example ∧
    InternalKey_wf k' ∧ open_pg_tde_has_smgr_key rel2 w' = Ok false w' ∧
    open_pg_tde_get_smgr_key rel2 w' = Ok None w'.
Proof.
  exact (save_then_get rel1 rel_key_example pk5 ∅ world_db rel2 world_db_rep eq_refl rel1_wf
           ltac:(done) rel_key_example_wf eq_refl ltac:(done) ltac:(done)).
Defined.

Lemma save_keeps_existing_witness :
  ∃ w' k', open_pg_tde_save_smgr_key rel1
             (mkInternalKey 16 CIPHER_AES_128 iv_example key_example) false world_key = Ok tt w' ∧
    open_pg_tde_get_smgr_key rel1 w' = Ok (Some k') w' ∧ lkey k' = lkey rel_key_example.
Proof.
  destruct world_key_facts as (Hr & Hl & _).
  apply (save_keeps_existing rel1 _ pk5 keys1 (lkey rel_key_example) world_key Hr Hl rel1_wf);
    [done|by split_and!|]. unfold keys1. apply lookup_singleton_eq.
Defined.

Lemma free_then_get_and_count_witness :
  ∃ w', open_pg_tde_free_key_map_entry rel1 world_key = Ok tt w' ∧
    open_pg_tde_get_smgr_key rel1 w' = Ok None w' ∧
    open_pg_tde_count_encryption_keys 5 InvalidOid w' = Ok (Z.of_nat (size (delete (rel_loc rel1) keys1))) w'.
Proof.
  destruct world_key_facts as (Hr & Hl & _).
  by apply (free_then_get_and_count rel1 pk5 keys1 world_key Hr Hl).
Defined.

Lemma rotation_keeps_keys_witness :
  ∃ w', open_pg_tde_perform_rotate_key pk5 pk5' true world_key = Ok tt w' ∧
    file_rep (w_fs w') p5 pk5' keys1 ∧ has_header w' p5 ∧
    w_xlog w' = w_xlog world_key ++ [XLOG_TDE_ROTATE_PRINCIPAL_KEY (rotate_record pk5')] ∧
    (∀ q, q ≠ p5 → q ≠ tmp_path p5 → w_fs w' !! q = w_fs world_key !! q).
Proof.
  destruct world_key_facts as ((_ & _ & Hr) & _ & Hh).
  exact (rotation_keeps_keys pk5 pk5' keys1 world_key pk5_ok pk5'_ok Hr Hh).
Defined.

Lemma wrong_key_is_error_witness :
  ∃ msg, tde_decrypt_rel_key pk5 TDEMapEntry_zero world0 = Err (mkError ERROR msg) world0.
Proof.
  apply (wrong_key_is_error pk5 TDEMapEntry_zero world0);
    [apply pk5_ok|apply TDEMapEntry_zero_wf|by vm_compute].
Defined.

Lemma entry_fields_authenticated_witness :
  me_cipher TDEMapEntry_zero = me_cipher TDEMapEntry_zero ∧
  loc_of TDEMapEntry_zero = loc_of TDEMapEntry_zero ∧ me_type TDEMapEntry_zero = me_type TDEMapEntry_zero ∧
  me_key_base_iv TDEMapEntry_zero = me_key_base_iv TDEMapEntry_zero.
Proof.
  apply (entry_fields_authenticated TDEMapEntry_zero TDEMapEntry_zero);
    [apply TDEMapEntry_zero_wf|apply TDEMapEntry_zero_wf|done].
Defined.

(** A machine on which no rename works. *)
Definition NoRename : Kernel := {|
  sys_fault c _ := match c with SysRename _ _ => Some (-1) | _ => None end;
  data_sync_retry := false;
  junk _ _ n := replicate n x55;
|}.

Definition rotate_fails : Res unit := open_pg_tde_perform_rotate_key (K := NoRename) pk5 pk5' true world_key.

Lemma failed_rotation_all_or_nothing_witness :
  match rotate_fails with
  | Err _ w' => w_fs w' !! p5 = w_fs world_key !! p5 ∨
      ∃ w2, open_pg_tde_perform_rotate_key (K := rename_works NoRename) pk5 pk5' true world_key = Ok tt w2 ∧ w_fs w2 = w_fs w'
  | Ok _ _ => False
  end.
Proof.
  assert (match rotate_fails with Err _ _ => true | Ok _ _ => false end = true) as H
    by (vm_compute; reflexivity).
  destruct rotate_fails as [|e w'] eqn:E; [done|].
  exact (failed_rotation_all_or_nothing (K := NoRename) pk5 pk5' true world_key e w' E).
Defined.

Lemma rotation_retry_succeeds_witness :
  match rotate_fails with
  | Err _ w1 => ∃ w', open_pg_tde_perform_rotate_key pk5 pk5' true w1 = Ok tt w' ∧ file_rep (w_fs w') p5 pk5' keys1
  | Ok _ _ => False
  end.
Proof.
  assert (match rotate_fails with Err _ _ => true | Ok _ _ => false end = true) as H by (vm_compute; reflexivity).
  destruct rotate_fails as [|e w1] eqn:E; [done|]. destruct world_key_facts as ((_ & _ & Hr) & _ & Hh).
  refine (proj1 (rotation_retry_succeeds pk5 pk5' keys1 true world_key w1 pk5_ok pk5'_ok Hr Hh _)).
  refine (failed_attempt pk5 pk5' true NoRename world_key e w1 w1 _ E (no_attempt _ _ _ w1)).
  intros src dst fs n [= <-]. done.
Defined.

(** A machine on which the first entry of a key file cannot be read. *)
Definition EntryUnreadable : Kernel := {|
  sys_fault c _ := match c with SysPread _ 128 320 => Some (-1) | _ => None end;
  data_sync_retry := false;
  junk _ _ n := replicate n x55;
|}.

(** An entry that cannot be read is taken for the end of the file. In a
    rotation during which the read of an entry fails once, no error is raised
    and the key is gone from the new file: the look-up that found it before
    finds nothing afterwards. *)
Theorem rotation_read_error_loses_keys :
  let found r := match r with Ok (Some _) _ => true | _ => false end in
  found (open_pg_tde_get_smgr_key rel1 world_key) = true ∧
  match open_pg_tde_perform_rotate_key (K := EntryUnreadable) pk5 pk5' true world_key with
  | Ok _ w' => found (open_pg_tde_get_smgr_key rel1 (set_pk_cache {[5 := pk5']} w')) = false ∧
               (match open_pg_tde_count_encryption_keys 5 InvalidOid w' with Ok n _ => n | Err _ _ => -1 end) = 0
  | Err _ _ => False
  end.
Proof. vm_compute. done. Qed.
