(* ===== verification/KeyMigration.v ===== *)
(** Migration of key files of versions 3, 4 and 5 to the current format, the
    last part of access/open_pg_tde_tdemap.c. *)
From Stdlib Require Import Ascii.
From S2P Require Import Prelude Types Environ Instances Ciphers EncTde KeyFile KeyMap KeyMapSpec.

(** ** [strtoul (s, &suffix, 10)] *)

Definition is_space (c : Ascii.ascii) : bool :=
  let n := Z.of_N (Ascii.N_of_ascii c) in (n =? 32) || ((9 <=? n) && (n <=? 13)).

Definition digit_val (c : Ascii.ascii) : option Z :=
  let n := Z.of_N (Ascii.N_of_ascii c) in
  if (48 <=? n) && (n <=? 57) then Some (n - 48) else None.

Fixpoint skip_spaces (s : string) : string :=
  match s with
  | String c s' => if is_space c then skip_spaces s' else s
  | EmptyString => s
  end.

Fixpoint scan_digits (s : string) (acc : Z) : Z * string :=
  match s with
  | String c s' =>
      match digit_val c with
      | Some d => scan_digits s' (acc * 10 + d)
      | None => (acc, s)
      end
  | EmptyString => (acc, s)
  end.

Definition starts_with_digit (s : string) : bool :=
  match s with
  | String c _ => bool_decide (is_Some (digit_val c))
  | EmptyString => false
  end.

(** The value and the rest of the string (the whole string when there is no
    number). *)
Definition strtoul (s : string) : Z * string :=
  let s1 := skip_spaces s in
  let '(neg, s2) :=
    match s1 with
    | String c s' => if Ascii.eqb c "-"%char then (true, s') else if Ascii.eqb c "+"%char then (false, s') else (false, s1)
    | EmptyString => (false, s1)
    end in
  if starts_with_digit s2 then
    let '(v, rest) := scan_digits s2 0 in
    (if 2 ^ 64 <=? v then 2 ^ 64 - 1 else if neg : bool then u64 (- v) else v, rest)
  else (0, s).

Section migration.
Context {SSL : OpenSSL} {K : Kernel}.

(** ** Version 3 *)

Definition read_one_map_entry_v3 (fd : string) (offset : Z) : M (option (TDEMapEntryV3 * Z)) :=
  r ← pg_pread fd sizeof_TDEMapEntryV3 offset;
  match r with
  | Some bs =>
      if Z.of_nat (length bs) =? sizeof_TDEMapEntryV3
      then mret (Some (TDEMapEntryV3_decode bs, offset + Z.of_nat (length bs)))
      else mret None
  | None => mret None
  end.

Definition aad_v3 (entry : TDEMapEntryV3) : bytes :=
  enc_u32 (v3_spcOid entry) ++ enc_u32 (v3_relNumber entry) ++ enc_u32 (v3_type entry) ++
  enc_u32 (v3__unused1 entry).

Definition ikey_from_map_entry_v3 (entry : TDEMapEntryV3) (principal_key : TDEPrincipalKey)
  : M InternalKey :=
  buf ← uninit INTERNAL_KEY_MAX_LEN;
  let key_len := 16 in
  r ← AesGcmDecrypt (pk_keyData principal_key) (pk_keyLength principal_key)
        (v3_entry_iv entry) 16 (aad_v3 entry)
        (take (Z.to_nat key_len) (v3_encrypted_key_data entry)) (v3_aead_tag entry);
  match r with
  | None => ereport ERROR "failed to decrypt key, incorrect principal key or corrupted key file"
  | Some kb => mret (mkInternalKey key_len CIPHER_AES_128 (v3_key_base_iv entry) (write_at 0 kb buf))
  end.

(** [out] is the contents of the output structure before the call. *)
Definition map_from_disk_entry_v3 (fd : string) (entry_offset : Z) (principal_key : TDEPrincipalKey)
  (out : TDEMapEntry) : M (option (TDEMapEntry * Z)) :=
  r ← read_one_map_entry_v3 fd entry_offset;
  match r with
  | None => mret None
  | Some (disk_entry, entry_offset) =>
      if v3_type disk_entry =? MAP_ENTRY_TYPE_EMPTY then mret (Some (TDEMapEntry_zero, entry_offset))
      else
        key ← ikey_from_map_entry_v3 disk_entry principal_key;
        let rloc := mkRelFileLocator (v3_spcOid disk_entry)
                      (pki_databaseId (pk_keyInfo principal_key)) (v3_relNumber disk_entry) in
        out ← open_pg_tde_initialize_map_entry out principal_key rloc key;
        mret (Some (out, entry_offset))
  end.

(** ** Versions 4 and 5 *)

(** The fields before the IV, which is all the authenticated data had. *)
Definition aad_v45 (entry : TDEMapEntry) : bytes :=
  enc_u32 (me_cipher entry) ++ enc_u32 (me_spcOid entry) ++ enc_u32 (me_relNumber entry) ++
  enc_u32 (me_type entry).

Definition read_one_map_entry_v45 (size : Z) (decode : bytes → TDEMapEntry) (fd : string) (offset : Z)
  : M (option (TDEMapEntry * Z)) :=
  r ← pg_pread fd size offset;
  match r with
  | Some [] => mret None
  | Some bs =>
      if negb (Z.of_nat (length bs) =? size) then ereport ERROR "keys migration: could not read map entry"
      else mret (Some (decode bs, offset + Z.of_nat (length bs)))
  | None => ereport ERROR "keys migration: could not read map entry"
  end.

Definition read_one_map_entry_v4 := read_one_map_entry_v45 sizeof_TDEMapEntryV4 TDEMapEntryV4_decode.
Definition read_one_map_entry_v5 := read_one_map_entry_v45 sizeof_TDEMapEntryV5 TDEMapEntryV5_decode.

Definition ikey_from_map_entry_v45 (entry : TDEMapEntry) (principal_key : TDEPrincipalKey)
  : M InternalKey :=
  buf ← uninit INTERNAL_KEY_MAX_LEN;
  key_len ← open_pg_tde_cipher_key_length (me_cipher entry);
  r ← AesGcmDecrypt (pk_keyData principal_key) (pk_keyLength principal_key)
        (me_entry_iv entry) 16 (aad_v45 entry)
        (take (Z.to_nat key_len) (me_encrypted_key_data entry)) (me_aead_tag entry);
  match r with
  | None => ereport ERROR "failed to decrypt key, incorrect principal key or corrupted key file"
  | Some kb => mret (mkInternalKey key_len (me_cipher entry) (me_key_base_iv entry) (write_at 0 kb buf))
  end.

Definition ikey_from_map_entry_v4 := ikey_from_map_entry_v45.
Definition ikey_from_map_entry_v5 := ikey_from_map_entry_v45.

Definition map_from_disk_entry_v45 (read : string → Z → M (option (TDEMapEntry * Z)))
  (ikey : TDEMapEntry → TDEPrincipalKey → M InternalKey) (fd : string) (entry_offset : Z)
  (principal_key : TDEPrincipalKey) (out : TDEMapEntry) : M (option (TDEMapEntry * Z)) :=
  r ← read fd entry_offset;
  match r with
  | None => mret None
  | Some (disk_entry, entry_offset) =>
      if me_type disk_entry =? MAP_ENTRY_TYPE_EMPTY then mret (Some (TDEMapEntry_zero, entry_offset))
      else
        key ← ikey disk_entry principal_key;
        let rloc := mkRelFileLocator (me_spcOid disk_entry)
                      (pki_databaseId (pk_keyInfo principal_key)) (me_relNumber disk_entry) in
        out ← open_pg_tde_initialize_map_entry out principal_key rloc key;
        mret (Some (out, entry_offset))
  end.

Definition map_from_disk_entry_v4 := map_from_disk_entry_v45 read_one_map_entry_v4 ikey_from_map_entry_v4.
Definition map_from_disk_entry_v5 := map_from_disk_entry_v45 read_one_map_entry_v5 ikey_from_map_entry_v5.

(** ** The migration *)

(** [MapFromDiskEntry] *)
Definition MapFromDiskEntry : Type :=
  string → Z → TDEPrincipalKey → TDEMapEntry → M (option (TDEMapEntry * Z)).

Fixpoint migrate_loop (fuel : nat) (read_map_entry : MapFromDiskEntry) (old_fd new_fd : string)
  (principal_key : TDEPrincipalKey) (read_pos write_pos : Z) (new_entry : TDEMapEntry) : M unit :=
  match fuel with
  | O => out_of_fuel
  | S fuel =>
      r ← read_map_entry old_fd read_pos principal_key new_entry;
      match r with
      | None => mret tt
      | Some (new_entry, read_pos) =>
          if me_type new_entry =? MAP_ENTRY_TYPE_EMPTY then
            migrate_loop fuel read_map_entry old_fd new_fd principal_key read_pos write_pos new_entry
          else
            write_pos ← open_pg_tde_write_one_map_entry new_fd new_entry write_pos;
            migrate_loop fuel read_map_entry old_fd new_fd principal_key read_pos write_pos new_entry
      end
  end.

Definition map_from_disk_entry (version : Z) : option MapFromDiskEntry :=
  if version =? 3 then Some map_from_disk_entry_v3
  else if version =? 4 then Some map_from_disk_entry_v4
  else if version =? 5 then Some map_from_disk_entry_v5
  else None.

Context {PKS : PrincipalKeys}.

(** The body of the loop over the directory, for one file name. *)
Definition migrate_one_file (d_name : string) : M unit :=
  let '(v, suffix) := strtoul d_name in
  let dbOid := u32 v in
  if negb (String.eqb suffix "_keys") then mret tt
  else
    let db_map_path := open_pg_tde_set_db_file_path dbOid in
    let tmp_db_map_path := tmp_path db_map_path in
    o ← open_pg_tde_open_file_basic db_map_path false false false;
    match o with
    | None => ereport PANIC "unreachable: missing files are not ignored"
    | Some old_fd =>
        h ← open_pg_tde_file_header_read old_fd;
        match h with
        | None => CloseTransientFile old_fd
        | Some fheader =>
            if fh_file_version fheader =? OPEN_PG_TDE_SMGR_FILE_MAGIC then CloseTransientFile old_fd
            else
              match map_from_disk_entry (FILEMAGIC_VERSION (fh_file_version fheader)) with
              | None => ereport ERROR "keys migration: unsupported or corrupted version"
              | Some read_map_entry =>
                  pk ← GetPrincipalKey dbOid LW_EXCLUSIVE;
                  match pk with
                  | None => ereport ERROR "failed to retrieve principal key for database"
                  | Some principal_key =>
                      signed_key_info ← open_pg_tde_sign_principal_key_info principal_key;
                      '(new_fd, write_pos) ←
                        open_pg_tde_open_file_write tmp_db_map_path (Some signed_key_info) true;
                      fuel ← file_fuel old_fd;
                      new_entry ← uninit_entry;
                      migrate_loop fuel read_map_entry old_fd new_fd principal_key
                        (Z.of_nat sizeof_KeyFileHeader) write_pos new_entry;;
                      CloseTransientFile old_fd;;
                      CloseTransientFile new_fd;;
                      durable_rename tmp_db_map_path db_map_path ERROR
                  end
              end
        end
    end.

Fixpoint migrate_files (names : list string) : M unit :=
  match names with
  | [] => mret tt
  | n :: names => migrate_one_file n;; migrate_files names
  end.

(** [names] are the names [readdir] returns for the data directory. *)
Definition open_pg_tde_migrate_smgr_keys_file (names : list string) : M unit :=
  LWLockAcquire_enc LW_EXCLUSIVE;;
  migrate_files names;;
  LWLockRelease_enc.

End migration.

(** ** What the old files mean *)

(** An entry read from an old file: empty, or the key of a relation. *)
Definition OldEntry : Type := option (Loc * LKey).

Definition add_old (m : gmap Loc LKey) (a : OldEntry) : gmap Loc LKey :=
  match a with Some (l, lk) => <[l := lk]> m | None => m end.

Definition old_map (l : list OldEntry) : gmap Loc LKey := foldl add_old ∅ l.

(** No relation has two keys and no key is for relation number 0. *)
Fixpoint old_valid (m : gmap Loc LKey) (l : list OldEntry) : Prop :=
  match l with
  | [] => True
  | None :: l => old_valid m l
  | Some (loc, lk) :: l => m !! loc = None ∧ snd loc ≠ 0 ∧ old_valid (<[loc := lk]> m) l
  end.

Section spec.
Context {SSL : OpenSSL} {Spec : OpenSSLSpec SSL} {K : Kernel} {NF : NoFaults K} {RW : RandWorks SSL}.

(** The meaning of the bytes of an entry; [None] when the principal key does
    not open it. *)
Definition old_entry_v3 (pk : TDEPrincipalKey) (bs : bytes) : option OldEntry :=
  let e := TDEMapEntryV3_decode bs in
  if v3_type e =? MAP_ENTRY_TYPE_EMPTY then Some None
  else
    kb ← gcm_open (pk_key_bytes pk) (v3_entry_iv e) (aad_v3 e)
           (take (Z.to_nat 16) (v3_encrypted_key_data e)) (v3_aead_tag e);
    Some (Some ((v3_spcOid e, v3_relNumber e), mkLKey CIPHER_AES_128 (v3_key_base_iv e) kb)).

Definition old_entry_v45 (decode : bytes → TDEMapEntry) (pk : TDEPrincipalKey) (bs : bytes)
  : option OldEntry :=
  let e := decode bs in
  if me_type e =? MAP_ENTRY_TYPE_EMPTY then Some None
  else
    n ← cipher_len (me_cipher e);
    kb ← gcm_open (pk_key_bytes pk) (me_entry_iv e) (aad_v45 e)
           (take (Z.to_nat n) (me_encrypted_key_data e)) (me_aead_tag e);
    if bool_decide (Z.of_nat (length kb) = n)
    then Some (Some (loc_of e, mkLKey (me_cipher e) (me_key_base_iv e) kb)) else None.

(** The reader of a version, the size of its entries and their meaning. *)
Definition old_format (version : Z) : option (Z * (TDEPrincipalKey → bytes → option OldEntry)) :=
  if version =? 3 then Some (sizeof_TDEMapEntryV3, old_entry_v3)
  else if version =? 4 then Some (sizeof_TDEMapEntryV4, old_entry_v45 TDEMapEntryV4_decode)
  else if version =? 5 then Some (sizeof_TDEMapEntryV5, old_entry_v45 TDEMapEntryV5_decode)
  else None.

(** A reader returns what the bytes mean. *)
Definition reads_as (rd : MapFromDiskEntry) (size : Z) (meaning : TDEPrincipalKey → bytes → option OldEntry)
  : Prop :=
  ∀ fd off bs pk out w,
    w_fs w !! fd = Some bs → 0 <= off → pk_ok pk → TDEMapEntry_wf out →
    (Z.of_nat (length bs) <= off → rd fd off pk out w = Ok None w) ∧
    (∀ c a, slice (Z.to_nat off) (Z.to_nat size) bs = c → Z.of_nat (length c) = size →
       meaning pk c = Some a →
       match a with
       | None => rd fd off pk out w = Ok (Some (TDEMapEntry_zero, off + size)) w
       | Some (l, lk) =>
           ∃ e, rd fd off pk out w = Ok (Some (e, off + size)) (set_rand (S (w_rand w)) w) ∧
                TDEMapEntry_wf e ∧ is_key e ∧ loc_of e = l ∧ entry_lkey pk e = Some lk
       end).

(** Keys decrypted into a buffer. *)
Lemma fill_key n c iv kb buf :
  cipher_len c = Some n → Z.of_nat (length kb) = n → length buf = 64%nat → length iv = 16%nat →
  InternalKey_wf (mkInternalKey n c iv (write_at 0 kb buf)) ∧
  lkey (mkInternalKey n c iv (write_at 0 kb buf)) = mkLKey c iv kb.
Proof.
  intros Hc Hl Hb Hiv. pose proof (cipher_len_cases _ _ Hc). split.
  - split_and!; simpl; [done|done|]. rewrite overwrite_length. lia.
  - unfold lkey, ik_key_bytes. simpl. f_equal. unfold overwrite. simpl.
    rewrite take_app_length'; [done|lia].
Qed.

Lemma reads_as_v3 : reads_as map_from_disk_entry_v3 sizeof_TDEMapEntryV3 old_entry_v3.
Proof.
  intros fd off bs pk out w Hf Ho Hpk Hout. unfold map_from_disk_entry_v3, read_one_map_entry_v3.
  rewrite !bind_assoc. rewrite (bind_ok _ _ _ _ _ (pread_ok _ _ _ _ _ Hf Ho)). split.
  - intros Hend. rewrite slice_past by lia. done.
  - intros c a -> Hc Ha. rewrite Hc, Z.eqb_refl. rewrite (bind_ok _ _ _ _ _ (ret_ok _ _)).
    unfold old_entry_v3 in Ha. set (e := TDEMapEntryV3_decode c) in *.
    destruct (v3_type e =? MAP_ENTRY_TYPE_EMPTY); [by simplify_eq|].
    destruct (gcm_open _ _ _ _ _) as [kb|] eqn:Eg; [|done]. simpl in Ha. injection Ha as <-.
    assert (length c = 96%nat) as Hlc by (unfold sizeof_TDEMapEntryV3 in Hc; lia).
    assert (length (v3_entry_iv e) = 16%nat ∧ length (v3_aead_tag e) = 16%nat ∧
            length (v3_key_base_iv e) = 16%nat ∧ length (v3_encrypted_key_data e) = 16%nat)
      as (L1 & L2 & L3 & L4) by (simpl; rewrite !slice_length, Hlc; done).
    assert (is_u32 (v3_spcOid e) ∧ is_u32 (v3_relNumber e)) as [U1 U2]
      by (split; apply dec_u32_range; rewrite slice_length; lia).
    unfold ikey_from_map_entry_v3. rewrite !bind_assoc.
    destruct (uninit_ok INTERNAL_KEY_MAX_LEN w) as (buf & Eb & Hb). rewrite (bind_ok _ _ _ _ _ Eb).
    rewrite !bind_assoc.
    rewrite (bind_ok _ _ _ _ _ (AesGcmDecrypt_ok _ _ _ _ _ _ w (proj1 Hpk) L1 L2)).
    fold (pk_key_bytes pk). rewrite Eg. rewrite (bind_ok _ _ _ _ _ (ret_ok _ _)).
    apply gcm_open_length in Eg. rewrite length_take, L4 in Eg.
    destruct (fill_key 16 CIPHER_AES_128 (v3_key_base_iv e) kb buf) as [Hwf Hlk]; [done|lia|done|done|].
    edestruct (initialize_map_entry_spec out pk (mkRelFileLocator (v3_spcOid e)
      (pki_databaseId (pk_keyInfo pk)) (v3_relNumber e)) _ w Hpk Hout Hwf) as
      (e' & E' & W1 & W2 & W3 & W4 & W5).
    { split_and!; simpl; [done| |done]. apply Hpk. }
    rewrite (bind_ok _ _ _ _ _ E'). exists e'. rewrite W5, Hlk. split_and!; try done.
    by apply (rel_wf_loc (mkRelFileLocator (v3_spcOid e) 0 (v3_relNumber e))).
Qed.

Lemma reads_as_v45 (size : nat) ksize rd :
  (64 + ksize = size)%nat →
  rd = map_from_disk_entry_v45 (read_one_map_entry_v45 (Z.of_nat size) (TDEMapEntryV45_decode ksize))
         ikey_from_map_entry_v45 →
  reads_as rd (Z.of_nat size) (old_entry_v45 (TDEMapEntryV45_decode ksize)).
Proof.
  intros Hsize -> fd off bs pk out w Hf Ho Hpk Hout.
  unfold map_from_disk_entry_v45, read_one_map_entry_v45.
  rewrite !bind_assoc. rewrite (bind_ok _ _ _ _ _ (pread_ok _ _ _ _ _ Hf Ho)). split.
  - intros Hend. rewrite slice_past by lia. done.
  - intros c a -> Hc Ha. destruct c as [|c0 c']; [simpl in Hc; lia|]. set (c := c0 :: c') in *.
    rewrite Hc, Z.eqb_refl. simpl negb. cbv iota. rewrite (bind_ok _ _ _ _ _ (ret_ok _ _)).
    unfold old_entry_v45 in Ha. set (e := TDEMapEntryV45_decode ksize c) in *.
    destruct (me_type e =? MAP_ENTRY_TYPE_EMPTY); [by simplify_eq|].
    destruct (cipher_len (me_cipher e)) as [n|] eqn:Ec; [|done]. cbn [mbind option_bind] in Ha.
    destruct (gcm_open _ _ _ _ _) as [kb|] eqn:Eg; [|done]. cbn [mbind option_bind] in Ha.
    case_bool_decide as Hkb; [|done]. injection Ha as <-.
    assert (length c = size) as Hlc by lia.
    assert (length (me_entry_iv e) = 16%nat ∧ length (me_aead_tag e) = 16%nat ∧
            length (me_key_base_iv e) = 16%nat) as (L1 & L2 & L3)
      by (cbn [e TDEMapEntryV45_decode me_entry_iv me_aead_tag me_key_base_iv];
          rewrite !slice_length; lia).
    assert (is_u32 (me_spcOid e) ∧ is_u32 (me_relNumber e)) as [U1 U2]
      by (split; apply dec_u32_range; rewrite slice_length; lia).
    unfold ikey_from_map_entry_v45. rewrite !bind_assoc.
    destruct (uninit_ok INTERNAL_KEY_MAX_LEN w) as (buf & Eb & Hb). rewrite (bind_ok _ _ _ _ _ Eb).
    rewrite !bind_assoc. rewrite (bind_ok _ _ _ _ _ (cipher_key_length_ok _ _ w Ec)).
    rewrite !bind_assoc.
    rewrite (bind_ok _ _ _ _ _ (AesGcmDecrypt_ok _ _ _ _ _ _ w (proj1 Hpk) L1 L2)).
    fold (pk_key_bytes pk). rewrite Eg. rewrite (bind_ok _ _ _ _ _ (ret_ok _ _)).
    destruct (fill_key n (me_cipher e) (me_key_base_iv e) kb buf) as [Hwf Hlk]; [done..|].
    edestruct (initialize_map_entry_spec out pk (mkRelFileLocator (me_spcOid e)
      (pki_databaseId (pk_keyInfo pk)) (me_relNumber e)) _ w Hpk Hout Hwf) as
      (e' & E' & W1 & W2 & W3 & W4 & W5).
    { split_and!; simpl; [done| |done]. apply Hpk. }
    rewrite (bind_ok _ _ _ _ _ E'). exists e'. rewrite W5, Hlk. split_and!; try done.
    by apply (rel_wf_loc (mkRelFileLocator (me_spcOid e) 0 (me_relNumber e))).
Qed.

(** Every version the code accepts is read as its format says. *)
Lemma map_from_disk_entry_ok version rd :
  map_from_disk_entry version = Some rd →
  ∃ size meaning, old_format version = Some (size, meaning) ∧ 0 < size ∧ reads_as rd size meaning.
Proof.
  unfold map_from_disk_entry, old_format.
  destruct (version =? 3); [intros [= <-]; eexists _, _; split; [done|]; split; [done|apply reads_as_v3]|].
  destruct (version =? 4).
  { intros [= <-]. eexists _, _. split; [done|]. split; [done|]. by apply (reads_as_v45 96 32). }
  destruct (version =? 5); [|done].
  intros [= <-]. eexists _, _. split; [done|]. split; [done|]. by apply (reads_as_v45 128 64).
Qed.

Lemma old_slice (h : bytes) cs c size i :
  length h = 320%nat → Forall (λ c, length c = size) cs → cs !! i = Some c →
  slice (320 + i * size) size (h ++ concat cs) = c.
Proof.
  intros Hh Hcs Hc. rewrite slice_app_r by lia.
  rewrite <-(take_drop_middle cs i c Hc), concat_app, concat_cons.
  assert (length (concat (take i cs)) = i * size)%nat as Hl.
  { rewrite (concat_sizes_length size) by (by apply Forall_take).
    rewrite length_take. apply lookup_lt_Some in Hc. lia. }
  rewrite slice_app_r by lia. replace (_ - _ - _)%nat with 0%nat by lia. apply slice_here.
  by eapply (Forall_lookup_1 _ _ _ _ Hcs).
Qed.

(** The loop adds the remaining entries to those already written. *)
Lemma migrate_loop_ok rd (size : nat) meaning pk old new h cs l h' :
  reads_as rd (Z.of_nat size) meaning → (0 < size)%nat → old ≠ new → pk_ok pk →
  length h = 320%nat → length h' = 320%nat →
  Forall (λ c, length c = size) cs → Forall2 (λ c a, meaning pk c = Some a) cs l →
  ∀ fuel i es' m1 out w,
  (i ≤ length cs)%nat → (length cs - i < fuel)%nat → TDEMapEntry_wf out →
  w_fs w !! old = Some (h ++ concat cs) → w_fs w !! new = Some (key_file h' es' []) →
  entries_rep pk es' m1 → old_valid m1 (drop i l) →
  ∃ es2 f r, migrate_loop fuel rd old new pk (320 + Z.of_nat i * Z.of_nat size)
               (entry_pos (length es')) out w = Ok tt (set_fs f (set_rand r w)) ∧
             f !! new = Some (key_file h' es2 []) ∧ (∀ q, q ≠ new → f !! q = w_fs w !! q) ∧
             entries_rep pk es2 (foldl add_old m1 (drop i l)).
Proof.
  intros Hrd Hsz Hne Hpk Hh Hh' Hcs Hl.
  induction fuel as [|fuel IH]; intros i es' m1 out w Hi Hfuel Hout Ho Hn R Hv; [lia|]. simpl.
  destruct (Hrd old (320 + Z.of_nat i * Z.of_nat size) _ pk out w Ho ltac:(lia) Hpk Hout) as [Hend Hread].
  destruct (cs !! i) as [c|] eqn:Ec.
  2:{ apply lookup_ge_None in Ec. assert (i = length cs) as -> by lia.
      rewrite (bind_ok _ _ _ _ _ (Hend ltac:(rewrite length_app, (concat_sizes_length size) by done; lia))).
      exists es', (w_fs w), (w_rand w). split_and!; [by destruct w|done|done|].
      apply Forall2_length in Hl. by rewrite drop_ge by lia. }
  destruct (Forall2_lookup_l _ _ _ _ _ Hl Ec) as (a & Ea & Hm).
  pose proof (lookup_lt_Some _ _ _ Ec) as Hlt. rewrite (drop_S _ _ _ Ea) in Hv |- *.
  assert (length c = size) as Hlc by (by eapply (Forall_lookup_1 _ _ _ _ Hcs)).
  specialize (Hread c a). rewrite Nat2Z.id in Hread.
  replace (Z.to_nat (320 + Z.of_nat i * Z.of_nat size)) with (320 + i * size)%nat in Hread by lia.
  specialize (Hread (old_slice h cs c size i Hh Hcs Ec) ltac:(lia) Hm).
  replace (320 + Z.of_nat i * Z.of_nat size + Z.of_nat size)
    with (320 + Z.of_nat (S i) * Z.of_nat size) in Hread by lia.
  destruct a as [[loc lk]|].
  - destruct Hread as (e & E & Hwf & Hk & Hloc & Hlk). rewrite (bind_ok _ _ _ _ _ E).
    destruct Hv as (Hnone & Hnz & Hv).
    rewrite Hk. cbn [Z.eqb MAP_ENTRY_TYPE_KEY MAP_ENTRY_TYPE_EMPTY].
    set (w2 := set_rand _ w). pose proof (entry_pos_nonneg (length es')).
    rewrite (bind_ok _ _ _ _ _ (write_one_ok new e _ _ w2 Hn Hwf ltac:(done))).
    rewrite key_file_snoc by (done || apply R || (simpl; lia)).
    replace (entry_pos (length es') + 128) with (entry_pos (length (es' ++ [e])))
      by (rewrite length_app; simpl; unfold entry_pos; lia).
    edestruct (IH (S i) (es' ++ [e]) (<[loc:=lk]> m1) e
      (set_fs (<[new:=key_file h' (es' ++ [e]) []]> (w_fs w2)) w2))
      as (es2 & f & r & E2 & Hf1 & Hf2 & R2); try done; try lia.
    + simpl. by rewrite lookup_insert_ne.
    + simpl. by rewrite lookup_insert_eq.
    + rewrite <-Hloc. apply rep_snoc; try done.
      * rewrite <-Hloc in Hnz. done.
      * intros j e' Hj Hk'. rewrite Hloc. by apply (proj1 (rep_lookup_None _ _ _ _ R) Hnone j).
    + exists es2, f, r. split_and!; [exact E2|done| |done].
      intros q Hq. rewrite Hf2 by done. simpl. by rewrite lookup_insert_ne.
  - rewrite (bind_ok _ _ _ _ _ Hread).
    apply (IH (S i) es' m1 TDEMapEntry_zero w); try done; try lia.
Qed.

Context {PKS : PrincipalKeys} {PKSpec : PrincipalKeysSpec PKS}.

(** Migrating the file of a database. *)
Lemma migrate_one_file_spec name v db pk h cs l size meaning w :
  let p := open_pg_tde_set_db_file_path db in
  strtoul name = (v, "_keys") → db = u32 v →
  w_pk_cache w !! db = Some pk → pk_ok pk →
  w_fs w !! p = Some (h ++ concat cs) → length h = 320%nat →
  old_format (FILEMAGIC_VERSION (fh_file_version (KeyFileHeader_decode h))) = Some (size, meaning) →
  Forall (λ c, Z.of_nat (length c) = size) cs →
  Forall2 (λ c a, meaning pk c = Some a) cs l → old_valid ∅ l →
  ∃ w', migrate_one_file name w = Ok tt w' ∧ file_rep (w_fs w') p pk (old_map l) ∧
        w_pk_cache w' = w_pk_cache w ∧ w_enc_lock w' = w_enc_lock w ∧
        ∀ q, q ≠ p → q ≠ tmp_path p → w_fs w' !! q = w_fs w !! q.
Proof.
  intros p Hname -> Hpk Hok Hf Hh Hfmt Hcs Hl Hv. unfold migrate_one_file. rewrite Hname.
  cbv beta zeta iota. change (negb (String.eqb "_keys" "_keys")) with false. cbv iota.
  fold p. unfold open_pg_tde_open_file_basic, key_file_open_basic. rewrite bind_assoc.
  rewrite (bind_ok _ _ _ _ _ (open_existing _ _ _ _ Hf)). rewrite (bind_ok _ _ _ _ _ (ret_ok _ _)).
  rewrite (bind_ok _ _ _ _ _ (header_read_ok _ _ _ _ Hf Hh)).
  set (ver := fh_file_version (KeyFileHeader_decode h)) in *.
  destruct (Z.eqb_spec ver OPEN_PG_TDE_SMGR_FILE_MAGIC) as [E|_]; [by rewrite E in Hfmt|].
  destruct (map_from_disk_entry (FILEMAGIC_VERSION ver)) as [rd|] eqn:Erd.
  2:{ unfold map_from_disk_entry, old_format in *. by repeat case_match. }
  apply map_from_disk_entry_ok in Erd as (size' & meaning' & Hfmt' & Hsize & Hrd).
  rewrite Hfmt in Hfmt'. simplify_eq.
  rewrite (bind_ok _ _ _ _ _ (GetPrincipalKey_cached _ LW_EXCLUSIVE _ w Hpk)).
  destruct (sign_principal_key_info_spec pk w Hok) as (s & Es & Hs1 & Hs2 & Hs3).
  rewrite (bind_ok _ _ _ _ _ Es). set (w1 := set_rand _ w).
  rewrite (bind_ok _ _ _ _ _ (open_file_write_new (tmp_path p) s true w1 (or_introl eq_refl) Hs1)).
  set (w2 := set_fs _ w1).
  assert (w_fs w2 !! p = Some (h ++ concat cs)) as Hf2.
  { simpl. rewrite lookup_insert_ne by apply tmp_path_ne. done. }
  assert (w_fs w2 !! tmp_path p = Some (key_file (new_header s) [] [])) as Hn2.
  { simpl. rewrite lookup_insert_eq. unfold key_file, kfile. simpl. by rewrite app_nil_r. }
  unfold file_fuel. mstep. rewrite Hf2.
  destruct (uninit_entry_ok w2) as (out & Eu & Hout). rewrite (bind_ok _ _ _ _ _ Eu).
  assert (Forall (λ c, length c = Z.to_nat size') cs) as Hcs'
    by (eapply Forall_impl; [exact Hcs|]; simpl; intros; lia).
  destruct (migrate_loop_ok rd (Z.to_nat size') meaning' pk p (tmp_path p) h cs l (new_header s))
    with (fuel := S (length (h ++ concat cs))) (i := 0%nat) (es' := @nil TDEMapEntry)
         (m1 := (∅ : gmap Loc LKey)) (out := out) (w := w2)
    as (es2 & f & r & El & Hfn & Hfo & R2); try done; try lia.
  { by rewrite Z2Nat.id by lia. }
  { apply not_eq_sym, tmp_path_ne. }
  { by apply new_header_ok. }
  { rewrite length_app, (concat_sizes_length (Z.to_nat size')) by done. nia. }
  { apply rep_empty. }
  change (320 + Z.of_nat 0 * _) with (Z.of_nat sizeof_KeyFileHeader) in El.
  change (entry_pos (length [])) with 320 in El. simpl default.
  rewrite (bind_ok _ _ _ _ _ El). set (w3 := set_fs f _).
  rewrite !(bind_ok _ _ _ _ _ (ret_ok _ _ : CloseTransientFile _ _ = _)).
  rewrite (rename_ok (tmp_path p) p ERROR w3 _ Hfn).
  eexists. split; [done|]. simpl. split_and!; try done.
  - right. exists (new_header s), es2, []. rewrite lookup_insert_eq.
    split_and!; [done|by apply new_header_for|simpl; lia|done].
  - intros q Hq1 Hq2. rewrite lookup_insert_ne, lookup_delete_ne by done.
    rewrite Hfo by done. simpl. by rewrite lookup_insert_ne.
Qed.

End spec.

(** ** Properties *)

Section properties.
Context {SSL : OpenSSL} {Spec : OpenSSLSpec SSL} {K : Kernel} {NF : NoFaults K} {RW : RandWorks SSL}.
Context {PKS : PrincipalKeys} {PKSpec : PrincipalKeysSpec PKS}.

(** C24: migrating a key file of version 3, 4 or 5 whose entries the principal
    key opens gives a file of the current version with the same keys for the
    same relations; other databases' files are not touched. *)
Theorem migration_keeps_keys name v pk h cs l size meaning w :
  let db := u32 v in
  let p := open_pg_tde_set_db_file_path db in
  strtoul name = (v, "_keys") → w_enc_lock w = None →
  w_pk_cache w !! db = Some pk → pk_ok pk →
  w_fs w !! p = Some (h ++ concat cs) → length h = 320%nat →
  old_format (FILEMAGIC_VERSION (fh_file_version (KeyFileHeader_decode h))) = Some (size, meaning) →
  Forall (λ c, Z.of_nat (length c) = size) cs →
  Forall2 (λ c a, meaning pk c = Some a) cs l → old_valid ∅ l →
  ∃ w', open_pg_tde_migrate_smgr_keys_file [name] w = Ok tt w' ∧
        db_rep w' db pk (old_map l) ∧ w_enc_lock w' = None ∧
        ∀ q, q ≠ p → q ≠ tmp_path p → w_fs w' !! q = w_fs w !! q.
Proof.
  intros db p Hname Hlock Hpk Hok Hf Hh Hfmt Hcs Hl Hv. unfold open_pg_tde_migrate_smgr_keys_file.
  mrun acquire_enc_ok. set (w1 := set_enc_lock _ w).
  destruct (migrate_one_file_spec name v db pk h cs l size meaning w1) as (w2 & E & Hr & Hc & L & Hq);
    [done..|].
  simpl migrate_files. rewrite bind_assoc, (bind_ok _ _ _ _ _ E), (bind_ok _ _ _ _ _ (ret_ok _ _)).
  rewrite (release_enc_ok LW_EXCLUSIVE) by done. eexists. split; [done|].
  split_and!; [|done|done]. split; [simpl; by rewrite Hc|]. by split.
Qed.

(** Migration does nothing to a file that already has the current
    version, and nothing for names that are not key files. *)
Theorem migration_skips_current name v h r w :
  strtoul name = (v, "_keys") →
  w_fs w !! open_pg_tde_set_db_file_path (u32 v) = Some (h ++ r) → header_ok h →
  migrate_one_file name w = Ok tt w.
Proof.
  intros Hname Hf [Hh Hv]. unfold migrate_one_file. rewrite Hname. cbv beta zeta iota.
  change (negb (String.eqb "_keys" "_keys")) with false. cbv iota.
  unfold open_pg_tde_open_file_basic, key_file_open_basic. rewrite bind_assoc.
  rewrite (bind_ok _ _ _ _ _ (open_existing _ _ _ _ Hf)), (bind_ok _ _ _ _ _ (ret_ok _ _)).
  rewrite (bind_ok _ _ _ _ _ (header_read_ok _ _ _ _ Hf Hh)). by rewrite Hv, Z.eqb_refl.
Qed.

(** In version 5 the base IV was not authenticated: an entry in which only
    the base IV was replaced is still accepted, with the replaced IV, as the
    comment at TDEMapEntry says. *)
Theorem v5_base_iv_unauthenticated e iv' pk w k :
  ikey_from_map_entry_v5 e pk w = Ok k w →
  let e' := mkMapEntry (me_cipher e) (me_spcOid e) (me_relNumber e) (me_type e) iv' (me_entry_iv e)
              (me_aead_tag e) (me_encrypted_key_data e) in
  ikey_from_map_entry_v5 e' pk w = Ok (mkInternalKey (ik_key_len k) (ik_cipher k) iv' (ik_key k)) w.
Proof.
  unfold ikey_from_map_entry_v5, ikey_from_map_entry_v45. simpl.
  change (aad_v45 (mkMapEntry _ _ _ _ iv' _ _ _)) with (aad_v45 e).
  unfold mbind, M_bind, mret, M_ret, ereport.
  destruct (uninit _ _) as [b w0|]; [|done]. destruct (open_pg_tde_cipher_key_length _ _) as [n w1|]; [|done].
  destruct (AesGcmDecrypt _ _ _ _ _ _ _ _) as [[kb|] w2|]; [|done..].
  by intros [= <- ->].
Qed.

End properties.

(** ** Examples *)

(** A version 5 entry for the first relation, and a file with it. *)
Definition v5_entry : bytes :=
  let aad := enc_u32 CIPHER_AES_128 ++ enc_u32 1663 ++ enc_u32 16384 ++ enc_u32 MAP_ENTRY_TYPE_KEY in
  let '(ct, tag) := gcm_seal (pk_key_bytes pk5) iv_example aad (take 16 key_example) in
  aad ++ iv_example ++ tag ++ iv_example ++ ct ++ zeros 48.

Definition v5_header : bytes :=
  KeyFileHeader_encode (mkKeyFileHeader 0x05454454
    (mkSignedPKInfo (pk_keyInfo pk5) iv_example iv_example)).

Definition world_v5 : World := set_fs {[p5 := v5_header ++ concat [v5_entry; zeros 128]]} world_db.

Definition v5_keys : list OldEntry :=
  [Some (rel_loc rel1, mkLKey CIPHER_AES_128 iv_example (take 16 key_example)); None].

Lemma v5_header_length : length v5_header = 320%nat.
Proof. vm_compute. done. Defined.

Lemma migration_keeps_keys_witness :
  ∃ w', open_pg_tde_migrate_smgr_keys_file ["5_keys"] world_v5 = Ok tt w' ∧
        db_rep w' 5 pk5 (old_map v5_keys) ∧ w_enc_lock w' = None ∧
        ∀ q, q ≠ p5 → q ≠ tmp_path p5 → w_fs w' !! q = w_fs world_v5 !! q.
Proof.
  refine (migration_keeps_keys "5_keys" 5 pk5 v5_header [v5_entry; zeros 128] v5_keys 128
           (old_entry_v45 TDEMapEntryV5_decode) world_v5 _ _ _ pk5_ok _ v5_header_length _ _ _ _);
    [done|done|done|done| | | |].
  - assert (FILEMAGIC_VERSION (fh_file_version (KeyFileHeader_decode v5_header)) = 5) as ->
      by (vm_compute; reflexivity). reflexivity.
  - repeat constructor; vm_compute; done.
  - repeat constructor; vm_compute; done.
  - vm_compute. done.
Defined.

Lemma migration_skips_current_witness : migrate_one_file "5_keys" world_key = Ok tt world_key.
Proof.
  destruct world_key_facts as ((_ & _ & [[_ Hm]|(h & es & t & Hf & Hh & _)]) & _ & _).
  - apply (f_equal (lookup (rel_loc rel1))) in Hm. unfold keys1 in Hm.
    by rewrite lookup_singleton_eq, lookup_empty in Hm.
  - exact (migration_skips_current "5_keys" 5 h _ world_key eq_refl Hf (proj1 Hh)).
Defined.

(** The key in the example entry. *)
Definition v5_ikey : InternalKey :=
  mkInternalKey 16 CIPHER_AES_128 iv_example (take 16 key_example ++ replicate 48 x55).

Lemma v5_base_iv_unauthenticated_witness :
  let e := TDEMapEntryV5_decode v5_entry in
  ikey_from_map_entry_v5 (mkMapEntry (me_cipher e) (me_spcOid e) (me_relNumber e) (me_type e)
    (zeros 16) (me_entry_iv e) (me_aead_tag e) (me_encrypted_key_data e)) pk5 world0 =
  Ok (mkInternalKey 16 CIPHER_AES_128 (zeros 16) (ik_key v5_ikey)) world0.
Proof.
  refine (v5_base_iv_unauthenticated (TDEMapEntryV5_decode v5_entry) (zeros 16) pk5 world0 v5_ikey _).
  reflexivity.
Defined.
