(* ===== verification/WalKeys.v ===== *)
(** access/open_pg_tde_xlog_keys.c: the file of WAL encryption ranges, its
    cache in the memory of the process, and the migration of old versions of
    the file.

    The file starts with the signed description of the server's principal key;
    each entry holds the type of a range, the key encrypted with the principal
    key, and the WAL location where the range starts, which is filled in by
    the first write. A range ends where the next one starts.

    [off_t] values are 64-bit signed; where the code mixes them with [sizeof]
    the arithmetic is unsigned and is written with [u64] and [i64]. *)
From S2P Require Import Prelude Types Environ Instances Ciphers EncTde KeyFile KeyMap.

Record WalKeyFileEntry := mkWalKeyFileEntry {
  wke_cipher : Z;
  wke_range_type : Z;
  wke_key_base_iv : bytes;
  wke_range_start : WalLocation;
  wke_entry_iv : bytes;
  wke_aead_tag : bytes;
  wke_encrypted_key_data : bytes;
}.

Definition sizeof_WalKeyFileEntry : Z := 104.
Definition offsetof_range_start : nat := 24.
Definition sizeof_WalLocation : Z := 16.

Definition WalKeyFileEntry_encode (e : WalKeyFileEntry) : bytes :=
  enc_u32 (wke_cipher e) ++ enc_u32 (wke_range_type e) ++ wke_key_base_iv e ++
  WalLocation_encode (wke_range_start e) ++ wke_entry_iv e ++ wke_aead_tag e ++
  wke_encrypted_key_data e.

Definition WalKeyFileEntry_decode (bs : bytes) : WalKeyFileEntry :=
  {| wke_cipher := le_dec (slice 0 4 bs);
     wke_range_type := le_dec (slice 4 4 bs);
     wke_key_base_iv := slice 8 16 bs;
     wke_range_start := WalLocation_decode (slice 24 16 bs);
     wke_entry_iv := slice 40 16 bs;
     wke_aead_tag := slice 56 16 bs;
     wke_encrypted_key_data := slice 72 32 bs |}.

(** The bytes of an entry before [range_start] are authenticated. *)
Definition wal_entry_aad (e : WalKeyFileEntry) : bytes :=
  take offsetof_range_start (WalKeyFileEntry_encode e).

(** ** Old versions *)

Record WalKeyFileEntryV1 := mkWalKeyFileEntryV1 {
  wv1__unused1 : Z;
  wv1__unused2 : Z;
  wv1_encrypted_key_data : bytes;
  wv1_key_base_iv : bytes;
  wv1_range_type : Z;
  wv1_range_start : WalLocation;
  wv1_entry_iv : bytes;
  wv1_aead_tag : bytes;
}.

Definition sizeof_WalKeyFileEntryV1 : Z := 96.

Definition WalKeyFileEntryV1_decode (bs : bytes) : WalKeyFileEntryV1 :=
  {| wv1__unused1 := le_dec (slice 0 4 bs);
     wv1__unused2 := le_dec (slice 4 4 bs);
     wv1_encrypted_key_data := slice 8 16 bs;
     wv1_key_base_iv := slice 24 16 bs;
     wv1_range_type := le_dec (slice 40 4 bs);
     wv1_range_start := WalLocation_decode (slice 48 16 bs);
     wv1_entry_iv := slice 64 16 bs;
     wv1_aead_tag := slice 80 16 bs |}.

(** The fields of version 2 are those of the current version; the base IV was
    stored after the tag and was not authenticated. *)
Definition sizeof_WalKeyFileEntryV2 : Z := 104.

Definition WalKeyFileEntryV2_decode (bs : bytes) : WalKeyFileEntry :=
  {| wke_cipher := le_dec (slice 0 4 bs);
     wke_range_type := le_dec (slice 4 4 bs);
     wke_range_start := WalLocation_decode (slice 8 16 bs);
     wke_entry_iv := slice 24 16 bs;
     wke_aead_tag := slice 40 16 bs;
     wke_key_base_iv := slice 56 16 bs;
     wke_encrypted_key_data := slice 72 32 bs |}.

Definition get_wal_key_file_path : string :=
  OPEN_PG_TDE_DATA_DIR +:+ "/" +:+ OPEN_PG_TDE_WAL_KEY_FILE_NAME.

(** ** The cache *)

Section walkeys.
Context {SSL : OpenSSL} {K : Kernel}.

Definition open_pg_tde_free_wal_key_cache : M unit :=
  modify (λ w, set_wal (mkWalCacheState [] (wal_prealloc_record (w_wal w))
                          (wal_prealloc_range (w_wal w))) w).

(** A pointer to a record of the cache is its position. *)
Definition open_pg_tde_get_last_wal_key : M (option nat) :=
  gets (λ w, match wal_key_cache (w_wal w) with [] => None | l => Some (length l - 1)%nat end).

Definition open_pg_tde_get_wal_cache_keys : M (option nat) :=
  gets (λ w, match wal_key_cache (w_wal w) with [] => None | _ => Some 0%nat end).

Definition open_pg_tde_wal_cache_extra_palloc : M unit :=
  modify (λ w, set_wal (mkWalCacheState (wal_key_cache (w_wal w)) true true) w).

Definition set_range_end (l : WalLocation) (r : WALKeyCacheRec) : WALKeyCacheRec :=
  mkWALKeyCacheRec
    (mkWalRange (wr_type (rec_range r)) (wr_key (rec_range r)) (wr_start (rec_range r)) l)
    (rec_crypt_ctx r).

Definition open_pg_tde_add_wal_range_to_cache (range : WalEncryptionRange) : M nat := λ w,
  let cache := wal_key_cache (w_wal w) in
  let wal_rec := mkWALKeyCacheRec range None in
  Ok (length cache)
     (set_wal (mkWalCacheState (alter (set_range_end (wr_start range)) (length cache - 1)%nat cache ++ [wal_rec])
                 false (wal_prealloc_range (w_wal w))) w).

(** ** Files *)

Definition wal_kind : KeyFileKind :=
  mkKeyFileKind OPEN_PG_TDE_WAL_KEY_FILE_MAGIC sizeof_WalKeyFileEntry "could not open WAL key file"
    "WAL key file is corrupted" "WAL key file is corrupted or has wrong version"
    "WAL key file has wrong version" "could not write WAL key file" "could not write WAL key file".

Definition open_pg_tde_open_wal_key_file_basic := key_file_open_basic wal_kind.
Definition open_pg_tde_wal_key_file_header_read := key_file_header_read wal_kind.
Definition open_pg_tde_wal_key_file_header_write := key_file_header_write wal_kind.
Definition open_pg_tde_open_wal_key_file_read := key_file_open_read wal_kind.
Definition open_pg_tde_open_wal_key_file_write := key_file_open_write wal_kind.

Definition open_pg_tde_read_one_wal_key_file_entry (fd : string) (offset : Z)
  : M (option (WalKeyFileEntry * Z)) :=
  r ← key_file_read_entry wal_kind fd offset;
  mret (match r with Some (bs, offset) => Some (WalKeyFileEntry_decode bs, offset) | None => None end).

Definition open_pg_tde_write_one_wal_key_file_entry (fd : string) (entry : WalKeyFileEntry) (offset : Z)
  : M Z := key_file_write_entry wal_kind fd (WalKeyFileEntry_encode entry) offset.

Definition open_pg_tde_read_one_wal_key_file_entry2 (fd : string) (key_index : Z) : M WalKeyFileEntry :=
  let read_pos := i64 (u64 (Z.of_nat sizeof_KeyFileHeader + key_index * sizeof_WalKeyFileEntry)) in
  r ← pg_pread fd sizeof_WalKeyFileEntry read_pos;
  match r with
  | Some bs =>
      if Z.of_nat (length bs) =? sizeof_WalKeyFileEntry then mret (WalKeyFileEntry_decode bs)
      else ereport FATAL "could not find the required key at index in WAL key file"
  | None => ereport FATAL "could not find the required key at index in WAL key file"
  end.

(** [(size - sizeof (WalKeyFileHeader)) / sizeof (WalKeyFileEntry)] *)
Definition keys_in_size (fsize : Z) : Z :=
  u64 (fsize - Z.of_nat sizeof_KeyFileHeader) / sizeof_WalKeyFileEntry.

(** ** Encryption of entries *)

(** The range is preallocated or allocated here, and zeroed in both cases. *)
Definition open_pg_tde_wal_range_from_entry (principal_key : TDEPrincipalKey) (entry : WalKeyFileEntry)
  : M WalEncryptionRange :=
  modify (λ w, set_wal (mkWalCacheState (wal_key_cache (w_wal w)) (wal_prealloc_record (w_wal w)) false) w);;
  key_len ← open_pg_tde_cipher_key_length (wke_cipher entry);
  r ← AesGcmDecrypt (pk_keyData principal_key) (pk_keyLength principal_key)
        (wke_entry_iv entry) (Z.of_nat MAP_ENTRY_IV_SIZE)
        (wal_entry_aad entry)
        (take (Z.to_nat key_len) (wke_encrypted_key_data entry)) (wke_aead_tag entry);
  match r with
  | None => ereport ERROR "Failed to decrypt key, incorrect principal key or corrupted key file"
  | Some kb =>
      mret (mkWalRange (wke_range_type entry)
              (mkInternalKey key_len (wke_cipher entry) (wke_key_base_iv entry)
                 (write_at 0 kb (zeros INTERNAL_KEY_MAX_LEN)))
              (wke_range_start entry) (mkWalLocation MaxXLogRecPtr MaxTimeLineID))
  end.

Definition open_pg_tde_initialize_wal_key_file_entry (principal_key : TDEPrincipalKey)
  (range : WalEncryptionRange) : M WalKeyFileEntry :=
  let key := wr_key range in
  if 32 <? ik_key_len key then ereport ERROR "WAL key length exceeds the WAL key entry size"
  else
    r ← rand_bytes (Z.of_nat MAP_ENTRY_IV_SIZE);
    match r with
    | None => ereport ERROR "could not generate iv for wal key file entry"
    | Some entry_iv =>
        let e := mkWalKeyFileEntry (ik_cipher key) (wr_type range) (ik_base_iv key) (wr_start range)
                   entry_iv (zeros MAP_ENTRY_AEAD_TAG_SIZE) (zeros 32) in
        '(ct, tag) ← AesGcmEncrypt (pk_keyData principal_key) (pk_keyLength principal_key)
                       entry_iv (Z.of_nat MAP_ENTRY_IV_SIZE) (wal_entry_aad e)
                       (take (Z.to_nat (ik_key_len key)) (ik_key key))
                       (Z.of_nat MAP_ENTRY_AEAD_TAG_SIZE);
        mret (mkWalKeyFileEntry (wke_cipher e) (wke_range_type e) (wke_key_base_iv e)
                (wke_range_start e) entry_iv tag (write_at 0 ct (wke_encrypted_key_data e)))
    end.

Definition open_pg_tde_write_wal_key_file_entry (range : WalEncryptionRange)
  (principal_key : TDEPrincipalKey) : M unit :=
  signed_key_Info ← open_pg_tde_sign_principal_key_info principal_key;
  '(fd, _) ← open_pg_tde_open_wal_key_file_write get_wal_key_file_path (Some signed_key_Info) false;
  curr_pos ← lseek_end fd;
  write_entry ← open_pg_tde_initialize_wal_key_file_entry principal_key range;
  open_pg_tde_write_one_wal_key_file_entry fd write_entry curr_pos;;
  CloseTransientFile fd.

(** ** Operations *)

(** The entry before the last one is marked invalid when it starts at the same
    location or later. *)
Definition invalidate_previous_range (fd : string) (last_key_idx : Z) (loc : WalLocation) : M unit :=
  if 0 <? last_key_idx then
    let prev_key_pos := i64 (u64 (Z.of_nat sizeof_KeyFileHeader +
                                  (last_key_idx - 1) * sizeof_WalKeyFileEntry)) in
    r ← pg_pread fd sizeof_WalKeyFileEntry prev_key_pos;
    match r with
    | Some bs =>
        if negb (Z.of_nat (length bs) =? sizeof_WalKeyFileEntry)
        then ereport ERROR "could not read previous WAL key"
        else
          let prev_entry := WalKeyFileEntry_decode bs in
          if 0 <=? wal_location_cmp (wke_range_start prev_entry) loc then
            let prev_entry :=
              mkWalKeyFileEntry (wke_cipher prev_entry) WAL_ENCRYPTION_RANGE_INVALID
                (wke_key_base_iv prev_entry) (wke_range_start prev_entry) (wke_entry_iv prev_entry)
                (wke_aead_tag prev_entry) (wke_encrypted_key_data prev_entry) in
            n ← pg_pwrite fd (WalKeyFileEntry_encode prev_entry) prev_key_pos;
            if negb (n =? sizeof_WalKeyFileEntry)
            then ereport ERROR "could not write invalidated key"
            else mret tt
          else mret tt
    | None => ereport ERROR "could not read previous WAL key"
    end
  else mret tt.

(** The location is stored in the last entry. *)
Definition open_pg_tde_wal_last_range_set_location (loc : WalLocation) : M unit :=
  LWLockAcquire_enc LW_EXCLUSIVE;;
  '(fd, _) ← open_pg_tde_open_wal_key_file_write get_wal_key_file_path None false;
  fsize ← lseek_end fd;
  let last_key_idx := i64 (u64 (keys_in_size fsize - 1)) in
  let write_pos := i64 (u64 (Z.of_nat sizeof_KeyFileHeader + last_key_idx * sizeof_WalKeyFileEntry +
                             Z.of_nat offsetof_range_start)) in
  n ← pg_pwrite fd (WalLocation_encode loc) write_pos;
  (if negb (n =? sizeof_WalLocation) then ereport ERROR "could not write WAL key data file" else mret tt);;
  invalidate_previous_range fd last_key_idx loc;;
  r ← pg_fsync fd;
  (if negb (r =? 0) then ereport data_sync_elevel_ERROR "could not fsync file" else mret tt);;
  LWLockRelease_enc;;
  CloseTransientFile fd.

Context {PKS : PrincipalKeys}.

(** Returns the range that the code stores through its pointer argument. *)
Definition open_pg_tde_create_wal_range (type key_len : Z) : M WalEncryptionRange :=
  LWLockAcquire_enc LW_EXCLUSIVE;;
  pk ← GetPrincipalKey GLOBAL_DATA_TDE_OID LW_EXCLUSIVE;
  match pk with
  | None => ereport ERROR "principal key not configured"
  | Some principal_key =>
      c ← TdeCipherByKeyLen tde_registry key_len;
      key ← open_pg_tde_generate_internal_key (tc_id c);
      let range := mkWalRange type key (mkWalLocation InvalidXLogRecPtr 0)
                     (mkWalLocation MaxXLogRecPtr MaxTimeLineID) in
      open_pg_tde_write_wal_key_file_entry range principal_key;;
      LWLockRelease_enc;;
      mret range
  end.

Definition open_pg_tde_read_last_wal_range : M (option WalEncryptionRange) :=
  LWLockAcquire_enc LW_EXCLUSIVE;;
  pk ← GetPrincipalKey GLOBAL_DATA_TDE_OID LW_EXCLUSIVE;
  match pk with
  | None => LWLockRelease_enc;; mret None
  | Some principal_key =>
      r ← open_pg_tde_open_wal_key_file_read get_wal_key_file_path false;
      match r with
      | None => ereport PANIC "unreachable: missing files are not ignored"
      | Some (fd, _) =>
          fsize ← lseek_end fd;
          if fsize =? Z.of_nat sizeof_KeyFileHeader then
            LWLockRelease_enc;; CloseTransientFile fd;; mret None
          else
            let file_idx := i32 (keys_in_size fsize - 1) in
            entry ← open_pg_tde_read_one_wal_key_file_entry2 fd file_idx;
            range ← open_pg_tde_wal_range_from_entry principal_key entry;
            LWLockRelease_enc;;
            CloseTransientFile fd;;
            mret (Some range)
      end
  end.

Definition stub_range : WalEncryptionRange :=
  mkWalRange WAL_ENCRYPTION_RANGE_INVALID
    (mkInternalKey 0 0 (zeros INTERNAL_KEY_IV_LEN) (zeros INTERNAL_KEY_MAX_LEN))
    (mkWalLocation InvalidXLogRecPtr 0) (mkWalLocation MaxXLogRecPtr MaxTimeLineID).

(** Ranges in use that start at the given location or later. *)
Definition fetch_wanted (start : WalLocation) (entry : WalKeyFileEntry) : bool :=
  negb (wke_range_type entry =? WAL_ENCRYPTION_RANGE_INVALID) &&
  wal_location_valid (wke_range_start entry) &&
  (0 <=? wal_location_cmp (wke_range_start entry) start).

(** The [n] entries from [file_idx] on. *)
Fixpoint fetch_loop (n : nat) (fd : string) (principal_key : TDEPrincipalKey) (file_idx : Z)
  (start : WalLocation) (return_wal_rec : option nat) : M (option nat) :=
  match n with
  | O => mret return_wal_rec
  | S n =>
      entry ← open_pg_tde_read_one_wal_key_file_entry2 fd file_idx;
      if fetch_wanted start entry then
        range ← open_pg_tde_wal_range_from_entry principal_key entry;
        wal_rec ← open_pg_tde_add_wal_range_to_cache range;
        fetch_loop n fd principal_key (file_idx + 1) start
          (match return_wal_rec with Some r => Some r | None => Some wal_rec end)
      else fetch_loop n fd principal_key (file_idx + 1) start return_wal_rec
  end.

Definition open_pg_tde_fetch_wal_keys (start : WalLocation) : M (option nat) :=
  LWLockAcquire_enc LW_SHARED;;
  pk ← GetPrincipalKey GLOBAL_DATA_TDE_OID LW_SHARED;
  match pk with
  | None => LWLockRelease_enc;; mret None
  | Some principal_key =>
      r ← open_pg_tde_open_wal_key_file_read get_wal_key_file_path false;
      match r with
      | None => ereport PANIC "unreachable: missing files are not ignored"
      | Some (fd, _) =>
          fsize ← lseek_end fd;
          let keys_count := i32 (keys_in_size fsize) in
          if keys_count =? 0 then
            wal_rec ← open_pg_tde_add_wal_range_to_cache stub_range;
            LWLockRelease_enc;;
            CloseTransientFile fd;;
            mret (Some wal_rec)
          else
            return_wal_rec ← fetch_loop (Z.to_nat keys_count) fd principal_key 0 start None;
            LWLockRelease_enc;;
            CloseTransientFile fd;;
            mret return_wal_rec
      end
  end.

(** ** The server's principal key *)

Fixpoint rotate_server_loop (fuel : nat) (old_fd new_fd : string)
  (principal_key new_principal_key : TDEPrincipalKey) (old_curr_pos new_curr_pos : Z) : M unit :=
  match fuel with
  | O => out_of_fuel
  | S fuel =>
      r ← open_pg_tde_read_one_wal_key_file_entry old_fd old_curr_pos;
      match r with
      | None => mret tt
      | Some (read_map_entry, old_curr_pos) =>
          range ← open_pg_tde_wal_range_from_entry principal_key read_map_entry;
          write_map_entry ← open_pg_tde_initialize_wal_key_file_entry new_principal_key range;
          new_curr_pos ← open_pg_tde_write_one_wal_key_file_entry new_fd write_map_entry new_curr_pos;
          rotate_server_loop fuel old_fd new_fd principal_key new_principal_key old_curr_pos new_curr_pos
      end
  end.

Definition open_pg_tde_perform_rotate_server_key (principal_key new_principal_key : TDEPrincipalKey)
  (write_xlog : bool) : M unit :=
  new_signed_key_info ← open_pg_tde_sign_principal_key_info new_principal_key;
  let tmp := tmp_path get_wal_key_file_path in
  o ← open_pg_tde_open_wal_key_file_read get_wal_key_file_path false;
  match o with
  | None => ereport PANIC "unreachable: missing files are not ignored"
  | Some (old_fd, old_curr_pos) =>
      '(new_fd, new_curr_pos) ← open_pg_tde_open_wal_key_file_write tmp (Some new_signed_key_info) true;
      fuel ← file_fuel old_fd;
      rotate_server_loop fuel old_fd new_fd principal_key new_principal_key old_curr_pos new_curr_pos;;
      CloseTransientFile old_fd;;
      CloseTransientFile new_fd;;
      durable_rename tmp get_wal_key_file_path ERROR;;
      if write_xlog then XLogInsert (XLOG_TDE_ROTATE_PRINCIPAL_KEY (rotate_record new_principal_key))
      else mret tt
  end.

Definition open_pg_tde_save_server_key_redo (signed_key_info : TDESignedPrincipalKeyInfo) : M unit :=
  LWLockAcquire_enc LW_EXCLUSIVE;;
  '(fd, _) ← open_pg_tde_open_wal_key_file_write get_wal_key_file_path (Some signed_key_info) false;
  CloseTransientFile fd;;
  LWLockRelease_enc.

Definition open_pg_tde_save_server_key (principal_key : TDEPrincipalKey) (write_xlog : bool) : M unit :=
  signed_key_Info ← open_pg_tde_sign_principal_key_info principal_key;
  (if write_xlog then XLogInsert (XLOG_TDE_ADD_PRINCIPAL_KEY signed_key_Info) else mret tt);;
  '(fd, _) ← open_pg_tde_open_wal_key_file_write get_wal_key_file_path (Some signed_key_Info) true;
  CloseTransientFile fd.

Definition open_pg_tde_get_server_key_info : M (option TDESignedPrincipalKeyInfo) :=
  o ← open_pg_tde_open_wal_key_file_basic get_wal_key_file_path false false true;
  match o with
  | None => mret None
  | Some fd =>
      h ← open_pg_tde_wal_key_file_header_read fd;
      match h with
      | None => CloseTransientFile fd;; mret None
      | Some fheader =>
          if negb (FILEMAGIC_TYPE (fh_file_version fheader) =?
                   FILEMAGIC_TYPE OPEN_PG_TDE_WAL_KEY_FILE_MAGIC)
          then ereport FATAL "WAL key file is corrupted or has wrong version"
          else CloseTransientFile fd;; mret (Some (fh_signed_key_info fheader))
      end
  end.

Fixpoint count_ranges_loop (fuel : nat) (fd : string) (curr_pos count : Z) : M Z :=
  match fuel with
  | O => out_of_fuel
  | S fuel =>
      r ← open_pg_tde_read_one_wal_key_file_entry fd curr_pos;
      match r with
      | None => mret count
      | Some (_, curr_pos) => count_ranges_loop fuel fd curr_pos (count + 1)
      end
  end.

Definition open_pg_tde_count_wal_ranges_in_file : M Z :=
  o ← open_pg_tde_open_wal_key_file_read get_wal_key_file_path true;
  match o with
  | None => mret 0
  | Some (fd, curr_pos) =>
      fuel ← file_fuel fd;
      count ← count_ranges_loop fuel fd curr_pos 0;
      CloseTransientFile fd;;
      mret count
  end.

Definition open_pg_tde_delete_server_key : M unit :=
  XLogInsert (XLOG_TDE_DELETE_PRINCIPAL_KEY GLOBAL_DATA_TDE_OID);;
  durable_unlink get_wal_key_file_path true.

(** ** Migration of old files *)

(** The kinds differ in the size of an entry only. *)
Definition wal_kind_v1 : KeyFileKind :=
  mkKeyFileKind OPEN_PG_TDE_WAL_KEY_FILE_MAGIC sizeof_WalKeyFileEntryV1 "" "" "" "" "" "".
Definition wal_kind_v2 : KeyFileKind :=
  mkKeyFileKind OPEN_PG_TDE_WAL_KEY_FILE_MAGIC sizeof_WalKeyFileEntryV2 "" "" "" "" "" "".

Definition open_pg_tde_read_one_wal_key_file_entry_v1 (fd : string) (offset : Z)
  : M (option (bytes * Z)) := key_file_read_entry wal_kind_v1 fd offset.

Definition open_pg_tde_read_one_wal_key_file_entry_v2 (fd : string) (offset : Z)
  : M (option (bytes * Z)) := key_file_read_entry wal_kind_v2 fd offset.

(** Both decrypt with the first 8 bytes of the entry as authenticated data,
    into a range on the stack that is not initialised. *)
Definition wal_range_from_entry_v1 (bs : bytes) (principal_key : TDEPrincipalKey) : M WalEncryptionRange :=
  let entry := WalKeyFileEntryV1_decode bs in
  key ← uninit INTERNAL_KEY_MAX_LEN;
  r ← AesGcmDecrypt (pk_keyData principal_key) (pk_keyLength principal_key)
        (wv1_entry_iv entry) 16 (take 8 bs) (wv1_encrypted_key_data entry) (wv1_aead_tag entry);
  match r with
  | None => ereport ERROR "failed to decrypt key, incorrect principal key or corrupted key file"
  | Some kb =>
      mret (mkWalRange (wv1_range_type entry)
              (mkInternalKey 16 CIPHER_AES_128 (wv1_key_base_iv entry) (write_at 0 kb key))
              (wv1_range_start entry) (mkWalLocation MaxXLogRecPtr MaxTimeLineID))
  end.

Definition wal_range_from_entry_v2 (bs : bytes) (principal_key : TDEPrincipalKey) : M WalEncryptionRange :=
  let entry := WalKeyFileEntryV2_decode bs in
  key ← uninit INTERNAL_KEY_MAX_LEN;
  key_len ← open_pg_tde_cipher_key_length (wke_cipher entry);
  r ← AesGcmDecrypt (pk_keyData principal_key) (pk_keyLength principal_key)
        (wke_entry_iv entry) (Z.of_nat MAP_ENTRY_IV_SIZE) (take 8 bs)
        (take (Z.to_nat key_len) (wke_encrypted_key_data entry)) (wke_aead_tag entry);
  match r with
  | None => ereport ERROR "failed to decrypt key, incorrect principal key or corrupted key file"
  | Some kb =>
      mret (mkWalRange (wke_range_type entry)
              (mkInternalKey key_len (wke_cipher entry) (wke_key_base_iv entry) (write_at 0 kb key))
              (wke_range_start entry) (mkWalLocation MaxXLogRecPtr MaxTimeLineID))
  end.

(** A reader of entries of one version: the entry in the current format and
    the next offset. *)
Definition WalEntryFromDiskEntry : Type :=
  string → Z → TDEPrincipalKey → M (option (WalKeyFileEntry * Z)).

Definition range_from_disk_entry_v1 : WalEntryFromDiskEntry := λ fd entry_offset principal_key,
  r ← open_pg_tde_read_one_wal_key_file_entry_v1 fd entry_offset;
  match r with
  | None => mret None
  | Some (bs, entry_offset) =>
      range ← wal_range_from_entry_v1 bs principal_key;
      out ← open_pg_tde_initialize_wal_key_file_entry principal_key range;
      mret (Some (out, entry_offset))
  end.

Definition range_from_disk_entry_v2 : WalEntryFromDiskEntry := λ fd entry_offset principal_key,
  r ← open_pg_tde_read_one_wal_key_file_entry_v2 fd entry_offset;
  match r with
  | None => mret None
  | Some (bs, entry_offset) =>
      range ← wal_range_from_entry_v2 bs principal_key;
      out ← open_pg_tde_initialize_wal_key_file_entry principal_key range;
      mret (Some (out, entry_offset))
  end.

Fixpoint update_wal_loop (fuel : nat) (read_range : WalEntryFromDiskEntry) (old_fd new_fd : string)
  (principal_key : TDEPrincipalKey) (read_pos write_pos : Z) : M unit :=
  match fuel with
  | O => out_of_fuel
  | S fuel =>
      r ← read_range old_fd read_pos principal_key;
      match r with
      | None => mret tt
      | Some (new_entry, read_pos) =>
          write_pos ← open_pg_tde_write_one_wal_key_file_entry new_fd new_entry write_pos;
          update_wal_loop fuel read_range old_fd new_fd principal_key read_pos write_pos
      end
  end.

Definition wal_read_range (version : Z) : option WalEntryFromDiskEntry :=
  if version =? 1 then Some range_from_disk_entry_v1
  else if version =? 2 then Some range_from_disk_entry_v2
  else None.

(** The header of an empty file is never filled in. *)
Definition open_pg_tde_update_wal_keys_file : M unit :=
  o ← open_pg_tde_open_wal_key_file_basic get_wal_key_file_path false false true;
  match o with
  | None => mret tt
  | Some old_fd =>
      h ← open_pg_tde_wal_key_file_header_read old_fd;
      stack ← uninit sizeof_KeyFileHeader;
      let fheader := default (KeyFileHeader_decode stack) h in
      let read_pos := match h with Some _ => Z.of_nat sizeof_KeyFileHeader | None => 0 end in
      if fh_file_version fheader =? OPEN_PG_TDE_WAL_KEY_FILE_MAGIC then CloseTransientFile old_fd
      else
        match wal_read_range (FILEMAGIC_VERSION (fh_file_version fheader)) with
        | None => ereport ERROR "wal_keys migration: unsupported or corrupted old file version"
        | Some read_range =>
            LWLockAcquire_enc LW_EXCLUSIVE;;
            pk ← GetPrincipalKey GLOBAL_DATA_TDE_OID LW_EXCLUSIVE;
            match pk with
            | None => ereport ERROR "could not get server principal key"
            | Some principal_key =>
                signed_key_info ← open_pg_tde_sign_principal_key_info principal_key;
                let tmp := tmp_path get_wal_key_file_path in
                '(new_fd, write_pos) ← open_pg_tde_open_wal_key_file_write tmp (Some signed_key_info) true;
                fuel ← file_fuel old_fd;
                update_wal_loop fuel read_range old_fd new_fd principal_key read_pos write_pos;;
                CloseTransientFile old_fd;;
                CloseTransientFile new_fd;;
                durable_rename tmp get_wal_key_file_path ERROR;;
                LWLockRelease_enc
            end
        end
  end.

End walkeys.

(** ** Layout of an entry *)

Definition WalKeyFileEntry_wf (e : WalKeyFileEntry) : Prop :=
  is_u32 (wke_cipher e) ∧ is_u32 (wke_range_type e) ∧ length (wke_key_base_iv e) = 16%nat ∧
  WalLocation_wf (wke_range_start e) ∧ length (wke_entry_iv e) = 16%nat ∧
  length (wke_aead_tag e) = 16%nat ∧ length (wke_encrypted_key_data e) = 32%nat.

Lemma WalKeyFileEntry_encode_length e :
  WalKeyFileEntry_wf e → length (WalKeyFileEntry_encode e) = 104%nat.
Proof. intros (?&?&?&?&?&?&?). unfold WalKeyFileEntry_encode. by len_simpl. Qed.

Lemma WalKeyFileEntry_decode_encode e :
  WalKeyFileEntry_wf e → WalKeyFileEntry_decode (WalKeyFileEntry_encode e) = e.
Proof.
  intros (?&?&?&?&?&?&?). unfold WalKeyFileEntry_decode, WalKeyFileEntry_encode. slice_simpl.
  rewrite !dec_enc_u32, WalLocation_decode_encode by done. by destruct e.
Qed.

Lemma WalKeyFileEntry_decode_wf bs :
  length bs = 104%nat → WalKeyFileEntry_wf (WalKeyFileEntry_decode bs).
Proof.
  intros H. split_and!; simpl; try apply WalLocation_decode_wf;
    try (apply dec_u32_range; rewrite slice_length; lia); rewrite slice_length; lia.
Qed.

(** What is authenticated: cipher, type and base IV, not the location. *)
Lemma wal_entry_aad_eq e :
  length (wke_key_base_iv e) = 16%nat →
  wal_entry_aad e = enc_u32 (wke_cipher e) ++ enc_u32 (wke_range_type e) ++ wke_key_base_iv e.
Proof.
  intros H. unfold wal_entry_aad, WalKeyFileEntry_encode.
  rewrite !app_assoc, <-!(app_assoc (_ ++ wke_key_base_iv e)). apply take_app_length'. by len_simpl.
Qed.

#[global] Arguments WalKeyFileEntry_encode : simpl never.
#[global] Arguments WalKeyFileEntry_decode : simpl never.
