(* ===== verification/WalKeysSpec.v ===== *)
(** What the WAL key file means, and that the functions of WalKeys implement
    it.

    The file is a list of ranges in the order in which they were created
    ([wal_rep]): type, start and, if the principal key opens the entry, the
    key. Creating a range appends to the list, the first write sets the start
    of the last range, and readers see the ranges in use as a chain in which
    each range ends where the next one starts. *)
From S2P Require Import Prelude Types Environ Instances Ciphers EncTde KeyFile KeyMap KeyMapSpec WalKeys.

(** ** Ranges *)

(** A range as the file describes it; [None] when the entry does not decrypt. *)
Record WRange := mkWRange { ra_type : Z; ra_start : WalLocation; ra_key : option LKey }.

Definition loc_infinity : WalLocation := mkWalLocation MaxXLogRecPtr MaxTimeLineID.
Definition loc_unset : WalLocation := mkWalLocation InvalidXLogRecPtr 0.

(** What the encrypted key buffer of an entry can hold. *)
Definition wal_entry_ok (e : WalKeyFileEntry) : Prop :=
  WalKeyFileEntry_wf e ∧ wke_cipher e ≠ CIPHER_AES_256_XTS.

(** The last range gets its start; the range before it becomes invalid if it
    does not start earlier. [k] is what the invalidated entry decrypts to. *)
Definition abs_set_location (loc : WalLocation) (k : option LKey) (vs : list WRange) : list WRange :=
  let n := (length vs - 1)%nat in
  let vs := alter (λ v, mkWRange (ra_type v) loc (ra_key v)) n vs in
  match n with
  | O => vs
  | S m => alter (λ v, if 0 <=? wal_location_cmp (ra_start v) loc
                       then mkWRange WAL_ENCRYPTION_RANGE_INVALID (ra_start v) k else v) m vs
  end.

Section ranges.
Context {SSL : OpenSSL} {Spec : OpenSSLSpec SSL} {K : Kernel}.

(** The range of an entry. *)
Definition entry_range (pk : TDEPrincipalKey) (e : WalKeyFileEntry) : option WalEncryptionRange :=
  n ← cipher_len (wke_cipher e);
  kb ← gcm_open (pk_key_bytes pk) (wke_entry_iv e) (wal_entry_aad e)
         (take (Z.to_nat n) (wke_encrypted_key_data e)) (wke_aead_tag e);
  Some (mkWalRange (wke_range_type e)
          (mkInternalKey n (wke_cipher e) (wke_key_base_iv e) (write_at 0 kb (zeros INTERNAL_KEY_MAX_LEN)))
          (wke_range_start e) loc_infinity).

Definition entry_view (pk : TDEPrincipalKey) (e : WalKeyFileEntry) : WRange :=
  mkWRange (wke_range_type e) (wke_range_start e) ((lkey ∘ wr_key) <$> entry_range pk e).

(** Forgets that a range was preallocated. *)
Definition use_prealloc (w : World) : World :=
  set_wal (mkWalCacheState (wal_key_cache (w_wal w)) (wal_prealloc_record (w_wal w)) false) w.

Definition wal_key_wf (k : InternalKey) : Prop := InternalKey_wf k ∧ ik_key_len k <= 32.

Lemma entry_range_wf pk e r :
  wal_entry_ok e → entry_range pk e = Some r → wal_key_wf (wr_key r).
Proof.
  intros [(Hu & ? & Hiv & ? & Hei & Htag & Hkd) Hxts]. unfold entry_range.
  destruct (cipher_len (wke_cipher e)) as [n|] eqn:Ec; simpl; [|done].
  destruct (gcm_open _ _ _ _ _) as [kb|] eqn:Eg; simpl; [|done]. intros. simplify_eq.
  apply gcm_open_length in Eg. rewrite length_take, Hkd in Eg.
  assert (0 <= n <= 32).
  { pose proof (cipher_len_cases _ _ Ec) as [[_ ->]|[[_ ->]|[[_ ->]|[? _]]]]; [lia..|done]. }
  unfold wal_key_wf, InternalKey_wf. simpl. split_and!; try done; [|lia].
  rewrite overwrite_length, zeros_length. unfold INTERNAL_KEY_MAX_LEN. lia.
Qed.

Lemma wal_range_from_entry_spec pk e w :
  pk_ok pk → wal_entry_ok e →
  match entry_range pk e with
  | Some r => open_pg_tde_wal_range_from_entry pk e w = Ok r (use_prealloc w)
  | None => ∃ msg, open_pg_tde_wal_range_from_entry pk e w = Err (mkError ERROR msg) (use_prealloc w)
  end.
Proof.
  intros [Hpk _] [(Hu & ? & Hiv & ? & Hei & Htag & Hkd) _].
  unfold open_pg_tde_wal_range_from_entry, entry_range. mstep. fold (use_prealloc w).
  destruct (cipher_len (wke_cipher e)) as [n|] eqn:Ec; simpl.
  - rewrite (bind_ok _ _ _ _ _ (cipher_key_length_ok _ _ _ Ec)).
    rewrite (bind_ok _ _ _ _ _ (AesGcmDecrypt_ok _ _ _ _ _ _ _ Hpk Hei Htag)).
    fold (pk_key_bytes pk).
    destruct (gcm_open _ _ _ _ _) as [kb|] eqn:Eg; simpl; [done|by eexists].
  - unfold open_pg_tde_cipher_key_length, mret, M_ret. unfold cipher_len in Ec.
    repeat (case_match; [done|]). unfold mbind, M_bind, ereport. by eexists.
Qed.

Context {RW : RandWorks SSL}.

(** A new entry describes the range it was made for. *)
Lemma initialize_wal_entry_spec pk r w :
  pk_ok pk → wal_key_wf (wr_key r) → is_u32 (wr_type r) → WalLocation_wf (wr_start r) →
  ∃ e, open_pg_tde_initialize_wal_key_file_entry pk r w = Ok e (set_rand (S (w_rand w)) w) ∧
       wal_entry_ok e ∧
       entry_view pk e = mkWRange (wr_type r) (wr_start r) (Some (lkey (wr_key r))).
Proof.
  intros [Hpk _] [(Hc & Hiv & Hkey) Hle] Ht Hs.
  unfold open_pg_tde_initialize_wal_key_file_entry. rewrite (proj2 (Z.ltb_ge _ _)) by done.
  destruct (rand_ok (Z.of_nat MAP_ENTRY_IV_SIZE) w) as (iv & E & Hl); [by unfold MAP_ENTRY_IV_SIZE; lia|].
  unfold MAP_ENTRY_IV_SIZE in Hl. rewrite (bind_ok _ _ _ _ _ E). simpl.
  rewrite (bind_ok _ _ _ _ _ (AesGcmEncrypt_ok _ _ iv _ _ (set_rand (S (w_rand w)) w) Hpk ltac:(lia))).
  fold (pk_key_bytes pk).
  match goal with |- context [gcm_seal _ iv ?a ?p] => set (aad := a); set (pt := p) end.
  destruct (gcm_seal_length (pk_key_bytes pk) iv aad pt) as [Hl1 Hl2].
  pose proof (gcm_open_seal (pk_key_bytes pk) iv aad pt) as Hopen.
  destruct (gcm_seal (pk_key_bytes pk) iv aad pt) as [ct tag]. simpl in *.
  pose proof (cipher_len_cases _ _ Hc) as Hn.
  assert (length pt = Z.to_nat (ik_key_len (wr_key r))) as Hpt by (unfold pt; rewrite length_take; lia).
  eexists. split; [done|]. split.
  - assert (is_u32 (ik_cipher (wr_key r)) ∧ ik_cipher (wr_key r) ≠ CIPHER_AES_256_XTS) as [Hu Hx].
    { unfold is_u32. destruct Hn as [[-> _]|[[-> _]|[[-> _]|[_ Hn]]]]; try done.
      exfalso. lia. }
    repeat split; simpl; try done; try lia; try apply Hu; try apply Ht; try apply Hs.
    rewrite overwrite_length, zeros_length. lia.
  - unfold entry_view, entry_range. simpl. rewrite Hc. simpl.
    rewrite wal_entry_aad_eq by done. simpl. unfold aad in Hopen.
    rewrite wal_entry_aad_eq in Hopen by done. simpl in Hopen. unfold overwrite. simpl.
    rewrite take_app_length' by lia. rewrite Hopen. simpl. do 2 f_equal.
    unfold lkey, ik_key_bytes, overwrite, pt. simpl. f_equal.
    rewrite take_app_length'; [done|]. rewrite length_take. lia.
Qed.

End ranges.

(** ** Files as lists of entries *)

Definition wal_file : bytes → list WalKeyFileEntry → bytes → bytes := kfile WalKeyFileEntry_encode.
Definition wal_pos (i : nat) : Z := 320 + 104 * Z.of_nat i.
Definition wal_path : string := get_wal_key_file_path.

(** The indexes of the code are 32-bit. *)
Definition wal_entries_ok (es : list WalKeyFileEntry) : Prop :=
  Forall wal_entry_ok es ∧ Z.of_nat (length es) < 2 ^ 31.

Lemma wal_entries_wf es : wal_entries_ok es → Forall WalKeyFileEntry_wf es.
Proof. intros [H _]. eapply Forall_impl; [exact H|]. by intros e []. Qed.

Lemma keys_in_size_ok (es : list WalKeyFileEntry) :
  Z.of_nat (length es) < 2 ^ 31 → keys_in_size (Z.of_nat (320 + length es * 104)) = Z.of_nat (length es).
Proof.
  intros H. unfold keys_in_size, sizeof_KeyFileHeader, sizeof_WalKeyFileEntry.
  rewrite u64_small by (unfold is_u64; lia).
  replace (_ - _) with (Z.of_nat (length es) * 104) by lia. apply Z.div_mul. lia.
Qed.

(** Writing the location of an entry. *)
Lemma wal_file_set_start h es i e loc :
  length h = 320%nat → Forall WalKeyFileEntry_wf es → es !! i = Some e →
  write_at (Z.to_nat (wal_pos i + 24)) (WalLocation_encode loc) (wal_file h es []) =
    wal_file h (<[i := mkWalKeyFileEntry (wke_cipher e) (wke_range_type e) (wke_key_base_iv e) loc
                        (wke_entry_iv e) (wke_aead_tag e) (wke_encrypted_key_data e)]> es) [].
Proof.
  intros Hh Hes He. unfold wal_file, kfile, wal_pos. rewrite !app_nil_r.
  assert (i < length es)%nat as Hi by (by eapply lookup_lt_Some).
  rewrite insert_take_drop by done.
  rewrite <-(take_drop_middle es i e He) at 1.
  rewrite !fmap_app, !concat_app, !fmap_cons, !concat_cons.
  assert (length (concat (WalKeyFileEntry_encode <$> take i es)) = i * 104)%nat as Hl.
  { rewrite (concat_enc_length _ 104 WalKeyFileEntry_wf WalKeyFileEntry_encode_length) by (by apply Forall_take).
    rewrite length_take. f_equal. lia. }
  assert (WalKeyFileEntry_wf e) as (?&?&?&?&?&?&?) by (by eapply Forall_lookup_1).
  assert (∀ e', WalKeyFileEntry_encode e' =
    (enc_u32 (wke_cipher e') ++ enc_u32 (wke_range_type e') ++ wke_key_base_iv e') ++
    WalLocation_encode (wke_range_start e') ++
    (wke_entry_iv e' ++ wke_aead_tag e' ++ wke_encrypted_key_data e')) as Henc.
  { intros e'. unfold WalKeyFileEntry_encode. by rewrite <-!app_assoc. }
  set (hd := concat (WalKeyFileEntry_encode <$> take i es)) in *.
  set (tl := concat (WalKeyFileEntry_encode <$> drop (S i) es)).
  rewrite (Henc e), (Henc (mkWalKeyFileEntry _ _ _ _ _ _ _)).
  cbn [wke_cipher wke_range_type wke_key_base_iv wke_range_start wke_entry_iv wke_aead_tag
       wke_encrypted_key_data].
  assert (∀ P L Q, h ++ hd ++ (P ++ L ++ Q) ++ tl = (h ++ hd ++ P) ++ L ++ (Q ++ tl)) as Hre.
  { intros. by rewrite <-!app_assoc. }
  rewrite !Hre.
  match goal with |- overwrite _ _ _ (?a ++ _) = _ => replace (Z.to_nat _) with (length a) end.
  2:{ rewrite !length_app, Hl. len_simpl. lia. }
  apply overwrite_middle. by rewrite !WalLocation_encode_length.
Qed.

Section files.
Context {SSL : OpenSSL} {K : Kernel} {NF : NoFaults K}.

Lemma read_wal_ok h es fd i w :
  w_fs w !! fd = Some (wal_file h es []) → length h = 320%nat → wal_entries_ok es →
  (i ≤ length es)%nat →
  open_pg_tde_read_one_wal_key_file_entry fd (wal_pos i) w =
    Ok (match es !! i with Some e => Some (e, wal_pos (S i)) | None => None end) w.
Proof.
  intros Hf Hh Hes%wal_entries_wf Hi. unfold open_pg_tde_read_one_wal_key_file_entry.
  assert (0 <= wal_pos i) by (unfold wal_pos; lia).
  rewrite (bind_ok _ _ _ _ _ (kf_read_ok wal_kind fd _ _ w Hf ltac:(done) ltac:(done))).
  change (Z.to_nat (kf_entry_size wal_kind)) with 104%nat.
  change (wal_pos i) with (kpos 104 i). change wal_file with (kfile WalKeyFileEntry_encode).
  destruct (es !! i) as [e|] eqn:He.
  - rewrite (kfile_entry _ 104 _ WalKeyFileEntry_encode_length h es [] i e Hh Hes He).
    assert (WalKeyFileEntry_wf e) by (by eapply Forall_lookup_1).
    rewrite WalKeyFileEntry_encode_length by done.
    change (Z.of_nat 104 =? kf_entry_size wal_kind) with true. cbv iota.
    rewrite WalKeyFileEntry_decode_encode by done.
    unfold mret, M_ret. do 3 f_equal. change (kf_entry_size wal_kind) with 104.
    unfold kpos, wal_pos. lia.
  - apply lookup_ge_None in He. assert (i = length es) as -> by lia.
    by rewrite (kfile_past _ 104 _ WalKeyFileEntry_encode_length h es [] 104 Hh Hes).
Qed.

(** The position of an entry, as the code computes it. *)
Lemma entry2_pos i :
  Z.of_nat i < 2 ^ 31 →
  i64 (u64 (Z.of_nat sizeof_KeyFileHeader + Z.of_nat i * sizeof_WalKeyFileEntry)) = wal_pos i.
Proof.
  intros Hi. unfold sizeof_WalKeyFileEntry, sizeof_KeyFileHeader, wal_pos.
  rewrite u64_small by (unfold is_u64; lia). rewrite i64_small by lia. lia.
Qed.

(** The bytes of an entry. *)
Lemma pread_entry h es fd i e w :
  w_fs w !! fd = Some (wal_file h es []) → length h = 320%nat → wal_entries_ok es →
  es !! i = Some e →
  pg_pread fd sizeof_WalKeyFileEntry (wal_pos i) w = Ok (Some (WalKeyFileEntry_encode e)) w.
Proof.
  intros Hf Hh Hes%wal_entries_wf He.
  rewrite (pread_ok _ _ _ _ _ Hf) by (unfold wal_pos; lia). do 2 f_equal.
  apply (kfile_entry _ 104 _ WalKeyFileEntry_encode_length h es [] i e Hh Hes He).
Qed.

Lemma read2_ok h es fd i e w :
  w_fs w !! fd = Some (wal_file h es []) → length h = 320%nat → wal_entries_ok es →
  es !! i = Some e → open_pg_tde_read_one_wal_key_file_entry2 fd (Z.of_nat i) w = Ok e w.
Proof.
  intros Hf Hh Hes He. unfold open_pg_tde_read_one_wal_key_file_entry2.
  assert (i < length es)%nat by (by eapply lookup_lt_Some).
  rewrite entry2_pos by (destruct Hes; lia).
  rewrite (bind_ok _ _ _ _ _ (pread_entry h es fd i e w Hf Hh Hes He)).
  assert (WalKeyFileEntry_wf e) by (by eapply Forall_lookup_1; [apply wal_entries_wf|]).
  by rewrite WalKeyFileEntry_encode_length, WalKeyFileEntry_decode_encode by done.
Qed.

Lemma write_wal_ok fd e off bs w :
  w_fs w !! fd = Some bs → WalKeyFileEntry_wf e → 0 <= off →
  open_pg_tde_write_one_wal_key_file_entry fd e off w =
    Ok (off + 104) (set_fs (<[fd := write_at (Z.to_nat off) (WalKeyFileEntry_encode e) bs]> (w_fs w)) w).
Proof.
  intros Hf He Ho. apply (kf_write_ok wal_kind); try done. by rewrite WalKeyFileEntry_encode_length.
Qed.

Lemma wal_file_length h es :
  length h = 320%nat → wal_entries_ok es → length (wal_file h es []) = (320 + length es * 104)%nat.
Proof.
  intros Hh Hes%wal_entries_wf. unfold wal_file.
  rewrite (kfile_length _ 104 _ WalKeyFileEntry_encode_length) by done. simpl. lia.
Qed.

Lemma wal_file_snoc h es e :
  length h = 320%nat → wal_entries_ok es → WalKeyFileEntry_wf e →
  write_at (Z.to_nat (wal_pos (length es))) (WalKeyFileEntry_encode e) (wal_file h es []) =
    wal_file h (es ++ [e]) [].
Proof.
  intros Hh Hes%wal_entries_wf He.
  apply (kfile_snoc _ 104 _ WalKeyFileEntry_encode_length); (done || simpl; lia).
Qed.

Lemma wal_file_insert h es i e :
  length h = 320%nat → wal_entries_ok es → WalKeyFileEntry_wf e → (i < length es)%nat →
  write_at (Z.to_nat (wal_pos i)) (WalKeyFileEntry_encode e) (wal_file h es []) =
    wal_file h (<[i:=e]> es) [].
Proof.
  intros Hh Hes%wal_entries_wf He Hi. by apply (kfile_insert _ 104 _ WalKeyFileEntry_encode_length).
Qed.

End files.

(** ** What the file represents *)

Section rep.
Context {SSL : OpenSSL} {Spec : OpenSSLSpec SSL}.

Definition wal_header_for (pk : TDEPrincipalKey) (h : bytes) : Prop :=
  kf_header_ok wal_kind h ∧
  let s := fh_signed_key_info (KeyFileHeader_decode h) in
  spki_data s = pk_keyInfo pk ∧
  gcm_open (pk_key_bytes pk) (spki_sign_iv s) (PKInfo_encode (spki_data s)) []
    (spki_aead_tag s) = Some [].

(** A key file with these ranges, in the order of their creation. *)
Definition wal_file_rep (fs : gmap string bytes) (pk : TDEPrincipalKey) (vs : list WRange) : Prop :=
  ∃ h es, fs !! wal_path = Some (wal_file h es []) ∧ wal_header_for pk h ∧ wal_entries_ok es ∧
          vs = entry_view pk <$> es.

Definition wal_rep (w : World) (pk : TDEPrincipalKey) (vs : list WRange) : Prop :=
  w_pk_cache w !! GLOBAL_DATA_TDE_OID = Some pk ∧ pk_ok pk ∧ wal_file_rep (w_fs w) pk vs.

Lemma wal_header_length pk h : wal_header_for pk h → length h = 320%nat.
Proof. by intros [[? _] _]. Qed.

Lemma wal_new_header_for pk s :
  SignedPKInfo_wf s → spki_data s = pk_keyInfo pk →
  gcm_open (pk_key_bytes pk) (spki_sign_iv s) (PKInfo_encode (spki_data s)) []
    (spki_aead_tag s) = Some [] →
  wal_header_for pk (kf_new_header wal_kind s).
Proof.
  intros Hs Hd Hg. split.
  { apply kf_new_header_ok; [|done]. simpl. unfold OPEN_PG_TDE_WAL_KEY_FILE_MAGIC. lia. }
  unfold kf_new_header. rewrite KeyFileHeader_decode_encode; [done| |done].
  simpl. unfold OPEN_PG_TDE_WAL_KEY_FILE_MAGIC. lia.
Qed.

(** Changing the start or the type of an entry keeps it well-formed. *)
Lemma wal_entries_insert es i e :
  wal_entries_ok es → wal_entry_ok e → wal_entries_ok (<[i:=e]> es).
Proof. intros [H ?] He. split; [by apply Forall_insert|by rewrite length_insert]. Qed.

Definition with_start (loc : WalLocation) (e : WalKeyFileEntry) : WalKeyFileEntry :=
  mkWalKeyFileEntry (wke_cipher e) (wke_range_type e) (wke_key_base_iv e) loc
    (wke_entry_iv e) (wke_aead_tag e) (wke_encrypted_key_data e).

Definition invalidated (e : WalKeyFileEntry) : WalKeyFileEntry :=
  mkWalKeyFileEntry (wke_cipher e) WAL_ENCRYPTION_RANGE_INVALID (wke_key_base_iv e) (wke_range_start e)
    (wke_entry_iv e) (wke_aead_tag e) (wke_encrypted_key_data e).

Lemma with_start_ok loc e : WalLocation_wf loc → wal_entry_ok e → wal_entry_ok (with_start loc e).
Proof. intros ? [(?&?&?&?&?&?&?) ?]. by repeat (split; try done). Qed.

Lemma invalidated_ok e : wal_entry_ok e → wal_entry_ok (invalidated e).
Proof. intros [(?&?&?&?&?&?&?) ?]. by repeat (split; try done). Qed.

(** The start of a range is not authenticated: setting it keeps the key. *)
Lemma with_start_view pk loc e :
  length (wke_key_base_iv e) = 16%nat →
  entry_view pk (with_start loc e) =
    mkWRange (ra_type (entry_view pk e)) loc (ra_key (entry_view pk e)).
Proof.
  intros H. unfold entry_view, entry_range. simpl. rewrite !wal_entry_aad_eq by done. simpl.
  f_equal. destruct (cipher_len _); simpl; [|done]. by destruct (gcm_open _ _ _ _ _).
Qed.

End rep.

(** ** The operations *)

Section ops.
Context {SSL : OpenSSL} {Spec : OpenSSLSpec SSL} {K : Kernel} {NF : NoFaults K} {RW : RandWorks SSL}.
Context {PKS : PrincipalKeys} {PKSpec : PrincipalKeysSpec PKS}.

Lemma generate_internal_key_ok c n w :
  cipher_len c = Some n →
  ∃ k, open_pg_tde_generate_internal_key c w = Ok k (set_rand (S (S (w_rand w))) w) ∧
       InternalKey_wf k ∧ ik_cipher k = c ∧ ik_key_len k = n.
Proof.
  intros Hc. unfold open_pg_tde_generate_internal_key.
  rewrite (bind_ok _ _ _ _ _ (cipher_key_length_ok _ _ w Hc)).
  pose proof (cipher_len_cases _ _ Hc) as Hn.
  destruct (rand_ok n w) as (kb & E & Hl); [lia|]. rewrite (bind_ok _ _ _ _ _ E).
  destruct (rand_ok (Z.of_nat INTERNAL_KEY_IV_LEN) (set_rand (S (w_rand w)) w)) as (iv & E2 & Hl2);
    [by unfold INTERNAL_KEY_IV_LEN|].
  rewrite (bind_ok _ _ _ _ _ E2). eexists. split; [done|]. split_and!; try done.
  split_and!; simpl; [done| |].
  - unfold INTERNAL_KEY_IV_LEN in Hl2. lia.
  - rewrite overwrite_length, zeros_length. unfold INTERNAL_KEY_MAX_LEN. lia.
Qed.

Lemma alter_as_insert {A} (f : A → A) i (l : list A) x :
  l !! i = Some x → alter f i l = <[i := f x]> l.
Proof. revert i. induction l as [|y l IH]; intros [|i] H; simplify_eq/=; [done|]. f_equal. by apply IH. Qed.

(** Appending an entry to the file. *)
Lemma write_wal_entry_spec r pk vs w :
  wal_file_rep (w_fs w) pk vs → pk_ok pk → wal_key_wf (wr_key r) → is_u32 (wr_type r) →
  WalLocation_wf (wr_start r) → Z.of_nat (length vs) < 2 ^ 31 - 1 →
  ∃ f n, open_pg_tde_write_wal_key_file_entry r pk w = Ok tt (set_fs f (set_rand n w)) ∧
    wal_file_rep f pk (vs ++ [mkWRange (wr_type r) (wr_start r) (Some (lkey (wr_key r)))]) ∧
    ∀ q, q ≠ wal_path → f !! q = w_fs w !! q.
Proof.
  intros (h & es & Hf & Hh & Hes & ->) Hpk Hk Ht Hs Hlen. rewrite length_fmap in Hlen.
  unfold open_pg_tde_write_wal_key_file_entry.
  destruct (sign_principal_key_info_spec pk w Hpk) as (s & Es & Hs1 & _).
  rewrite (bind_ok _ _ _ _ _ Es). set (w1 := set_rand _ w).
  assert (w_fs w1 !! wal_path = Some (h ++ (concat (WalKeyFileEntry_encode <$> es) ++ []))) as Hf1 by done.
  rewrite (bind_ok _ _ _ _ _ (kf_open_write_ok wal_kind wal_path h _ (Some s) w1 Hf1 (proj1 Hh)
    : open_pg_tde_open_wal_key_file_write get_wal_key_file_path (Some s) false w1 = _)).
  rewrite (bind_ok _ _ _ _ _ (lseek_ok wal_path w1 _ Hf)).
  destruct (initialize_wal_entry_spec pk r w1 Hpk Hk Ht Hs) as (e & Ee & He & Hv).
  rewrite (bind_ok _ _ _ _ _ Ee). set (w2 := set_rand _ w1).
  pose proof (wal_header_length _ _ Hh) as Hl.
  assert (Z.of_nat (length (wal_file h es [])) = wal_pos (length es)) as Hpos.
  { rewrite wal_file_length by done. unfold wal_pos. lia. }
  rewrite Hpos.
  rewrite (bind_ok _ _ _ _ _ (write_wal_ok wal_path e (wal_pos (length es)) _ w2 Hf (proj1 He)
    ltac:(unfold wal_pos; lia))).
  rewrite wal_file_snoc by (done || apply He).
  eexists _, _. split; [done|]. split.
  - exists h, (es ++ [e]). split_and!; [apply lookup_insert_eq|done| |].
    + split; [|rewrite length_app; simpl; lia]. apply Forall_app. split; [apply Hes|by constructor].
    + rewrite fmap_app. simpl. by rewrite Hv.
  - intros q Hq. by rewrite lookup_insert_ne.
Qed.

(** Creating a range appends it, without a start and with a fresh key. *)
Lemma create_wal_range_spec type key_len pk vs w :
  wal_rep w pk vs → w_enc_lock w = None → (key_len = 16 ∨ key_len = 32) → is_u32 type →
  Z.of_nat (length vs) < 2 ^ 31 - 1 →
  ∃ r w', open_pg_tde_create_wal_range type key_len w = Ok r w' ∧
    wal_rep w' pk (vs ++ [mkWRange type loc_unset (Some (lkey (wr_key r)))]) ∧
    wr_type r = type ∧ wr_start r = loc_unset ∧ wr_end r = loc_infinity ∧
    wal_key_wf (wr_key r) ∧ ik_key_len (wr_key r) = key_len ∧ only_file wal_path w w'.
Proof.
  intros (Hc & Hpk & Hrep) Hlock Hkl Ht Hlen. unfold open_pg_tde_create_wal_range.
  mrun acquire_enc_ok. set (w1 := set_enc_lock _ w).
  rewrite (bind_ok _ _ _ _ _ (GetPrincipalKey_cached _ LW_EXCLUSIVE _ w1 Hc)).
  assert (∃ c, TdeCipherByKeyLen tde_registry key_len w1 = Ok c w1 ∧
               cipher_len (tc_id c) = Some key_len) as (c & Ec & Hcl)
    by (destruct Hkl as [-> | ->]; by eexists).
  rewrite (bind_ok _ _ _ _ _ Ec).
  destruct (generate_internal_key_ok (tc_id c) key_len w1 Hcl) as (k & Ek & Hk & _ & Hkl').
  rewrite (bind_ok _ _ _ _ _ Ek). set (w2 := set_rand _ w1). set (r := mkWalRange _ _ _ _).
  destruct (write_wal_entry_spec r pk vs w2) as (f & n & E & Hrep' & Hother); try done.
  { split; [done|]. simpl. lia. }
  rewrite (bind_ok _ _ _ _ _ E). rewrite (bind_ok _ _ _ _ _ (release_enc_ok LW_EXCLUSIVE (set_fs f (set_rand n w2)) eq_refl)).
  eexists r, _. split; [done|]. split_and!; try done.
  - split; [done|]. simpl. lia.
  - exists f, n. split; [|done]. unfold w2, w1. destruct w; simpl in *. by rewrite Hlock.
Qed.

(** The index of the last entry and the place of its start. *)
Lemma last_key_idx_ok (es : list WalKeyFileEntry) n :
  length es = S n → Z.of_nat (length es) < 2 ^ 31 →
  i64 (u64 (keys_in_size (Z.of_nat (320 + length es * 104)) - 1)) = Z.of_nat n.
Proof.
  intros Hn Hlt. rewrite keys_in_size_ok, Hn by done.
  rewrite u64_small by (unfold is_u64; lia). rewrite i64_small by lia. lia.
Qed.

Lemma start_pos_ok n :
  Z.of_nat n < 2 ^ 31 →
  i64 (u64 (Z.of_nat sizeof_KeyFileHeader + Z.of_nat n * sizeof_WalKeyFileEntry +
            Z.of_nat offsetof_range_start)) = wal_pos n + 24.
Proof.
  intros Hn. unfold sizeof_KeyFileHeader, sizeof_WalKeyFileEntry, offsetof_range_start, wal_pos.
  rewrite u64_small by (unfold is_u64; lia). rewrite i64_small by lia. lia.
Qed.

(** The views after the start of the last entry was written. *)
Lemma set_start_views pk (es : list WalKeyFileEntry) (n : nat) e loc :
  es !! n = Some e → wal_entry_ok e →
  entry_view pk <$> <[n := with_start loc e]> es =
    alter (λ v, mkWRange (ra_type v) loc (ra_key v)) n (entry_view pk <$> es).
Proof.
  intros He [(?&?&?&_) _]. rewrite list_fmap_insert, with_start_view by done.
  rewrite (alter_as_insert _ _ _ (entry_view pk e)); [done|]. by rewrite list_lookup_fmap, He.
Qed.

(** The second half of [abs_set_location], on the file. *)
Lemma invalidate_previous_spec h es n loc pk w :
  w_fs w !! wal_path = Some (wal_file h es []) → length h = 320%nat → wal_entries_ok es →
  length es = S n →
  ∃ k es' f, invalidate_previous_range wal_path (Z.of_nat n) loc w = Ok tt (set_fs f w) ∧
    f !! wal_path = Some (wal_file h es' []) ∧ (∀ q, q ≠ wal_path → f !! q = w_fs w !! q) ∧
    wal_entries_ok es' ∧
    entry_view pk <$> es' =
      match n with
      | O => entry_view pk <$> es
      | S m => alter (λ v, if 0 <=? wal_location_cmp (ra_start v) loc
                           then mkWRange WAL_ENCRYPTION_RANGE_INVALID (ra_start v) k else v) m
                 (entry_view pk <$> es)
      end.
Proof.
  intros Hf Hl Hes Hn. pose proof Hes as [Hes1 Hlt]. unfold invalidate_previous_range.
  destruct n as [|m].
  { exists None, es, (w_fs w). split_and!; try done. by destruct w. }
  rewrite (proj2 (Z.ltb_lt _ _)) by lia. cbv zeta.
  replace (Z.of_nat (S m) - 1) with (Z.of_nat m) by lia. rewrite entry2_pos by lia.
  destruct (lookup_lt_is_Some_2 es m) as [e He]; [lia|].
  rewrite (bind_ok _ _ _ _ _ (pread_entry h es wal_path m e w Hf Hl Hes He)).
  pose proof (Forall_lookup_1 _ _ _ _ Hes1 He) as Heok.
  rewrite WalKeyFileEntry_encode_length, WalKeyFileEntry_decode_encode by apply Heok.
  change (negb (Z.of_nat 104 =? sizeof_WalKeyFileEntry)) with false. cbv iota.
  exists ((lkey ∘ wr_key) <$> entry_range pk (invalidated e)).
  assert ((entry_view pk <$> es) !! m = Some (entry_view pk e)) as Hvm by (by rewrite list_lookup_fmap, He).
  rewrite (alter_as_insert _ _ _ _ Hvm). simpl ra_start.
  destruct (0 <=? wal_location_cmp (wke_range_start e) loc).
  - exists (<[m := invalidated e]> es). fold (invalidated e). pose proof (invalidated_ok _ Heok) as Hi.
    rewrite (bind_ok _ _ _ _ _ (pwrite_ok wal_path _ (wal_pos m) w _ Hf ltac:(unfold wal_pos; lia))).
    rewrite wal_file_insert by (done || apply Hi || lia).
    rewrite WalKeyFileEntry_encode_length by apply Hi.
    eexists. split_and!; try done.
    + apply lookup_insert_eq.
    + intros q Hq. by rewrite lookup_insert_ne.
    + by apply wal_entries_insert.
    + by rewrite list_fmap_insert.
  - exists es, (w_fs w). split_and!; try done; [by destruct w|]. by rewrite (list_insert_id _ m).
Qed.

Lemma set_location_spec loc pk vs w :
  wal_rep w pk vs → w_enc_lock w = None → WalLocation_wf loc → vs ≠ [] →
  ∃ k w', open_pg_tde_wal_last_range_set_location loc w = Ok tt w' ∧
    wal_rep w' pk (abs_set_location loc k vs) ∧ only_file wal_path w w'.
Proof.
  intros (Hc & Hpk & h & es & Hf & Hh & Hes & ->) Hlock Hloc Hne.
  pose proof (wal_header_length _ _ Hh) as Hl. pose proof Hes as [Hes1 Hlt].
  destruct (length es) as [|n] eqn:Hn; [by destruct es|].
  destruct (lookup_lt_is_Some_2 es n ltac:(lia)) as [e He].
  pose proof (Forall_lookup_1 _ _ _ _ Hes1 He) as Heok.
  unfold open_pg_tde_wal_last_range_set_location.
  mrun acquire_enc_ok. set (w1 := set_enc_lock _ w).
  assert (w_fs w1 !! wal_path = Some (h ++ (concat (WalKeyFileEntry_encode <$> es) ++ []))) as Hf1 by done.
  rewrite (bind_ok _ _ _ _ _ (kf_open_write_ok wal_kind wal_path h _ None w1 Hf1 (proj1 Hh)
    : open_pg_tde_open_wal_key_file_write get_wal_key_file_path None false w1 = _)).
  rewrite (bind_ok _ _ _ _ _ (lseek_ok wal_path w1 _ Hf)).
  rewrite wal_file_length, (last_key_idx_ok es n) by (done || lia). cbv zeta.
  rewrite start_pos_ok by lia.
  rewrite (bind_ok _ _ _ _ _ (pwrite_ok wal_path _ (wal_pos n + 24) w1 _ Hf ltac:(unfold wal_pos; lia))).
  rewrite WalLocation_encode_length.
  change (negb (Z.of_nat 16 =? sizeof_WalLocation)) with false. cbv iota.
  rewrite (bind_ok _ _ _ _ _ (ret_ok tt _)).
  rewrite (wal_file_set_start h es n e loc Hl (wal_entries_wf _ Hes) He).
  fold (with_start loc e). set (es1 := <[n := with_start loc e]> es). set (w2 := set_fs _ w1).
  destruct (invalidate_previous_spec h es1 n loc pk w2) as (k & es2 & f & E & Hf3 & Hother & Hes2 & Hv2).
  { apply lookup_insert_eq. } { done. } { apply wal_entries_insert; [done|by apply with_start_ok]. }
  { unfold es1. by rewrite length_insert. }
  rewrite (bind_ok _ _ _ _ _ E). rewrite (bind_ok _ _ _ _ _ (fsync_ok _ _)).
  cbn [Z.eqb negb]. cbv iota. rewrite (bind_ok _ _ _ _ _ (ret_ok tt _)).
  rewrite (bind_ok _ _ _ _ _ (release_enc_ok LW_EXCLUSIVE (set_fs f w2) eq_refl)).
  exists k, (set_fs f w). split_and!.
  - unfold w2, w1, CloseTransientFile, mret, M_ret. f_equal. destruct w; simpl in *. by rewrite Hlock.
  - split_and!; [done..|]. exists h, es2. split_and!; try done. rewrite Hv2. unfold es1.
    rewrite (set_start_views pk es n e loc He Heok).
    unfold abs_set_location. rewrite length_fmap, Hn. simpl (S n - 1)%nat. by rewrite Nat.sub_0_r.
  - exists f, (w_rand w). split; [by destruct w|]. intros q Hq. rewrite Hother by done.
    unfold w2. simpl. by rewrite lookup_insert_ne.
Qed.

(** Opening the file for reading and asking for its size. *)
Lemma open_wal_read_ok pk h es im w :
  w_fs w !! wal_path = Some (wal_file h es []) → wal_header_for pk h →
  open_pg_tde_open_wal_key_file_read get_wal_key_file_path im w = Ok (Some (wal_path, 320)) w.
Proof. intros Hf Hh. by apply (kf_open_read_ok wal_kind wal_path h _ im w Hf (proj1 Hh)). Qed.

Lemma entry_view_key pk e lk :
  ra_key (entry_view pk e) = Some lk →
  ∃ r, entry_range pk e = Some r ∧ lkey (wr_key r) = lk ∧ wr_type r = wke_range_type e ∧
       wr_start r = wke_range_start e ∧ wr_end r = loc_infinity.
Proof.
  unfold entry_view, entry_range. simpl. destruct (cipher_len _); simpl; [|done].
  destruct (gcm_open _ _ _ _ _); simpl; [|done]. intros. simplify_eq. by eexists.
Qed.

Lemma unlock_use_prealloc m w :
  w_enc_lock w = None → set_enc_lock None (use_prealloc (set_enc_lock (Some m) w)) = use_prealloc w.
Proof. destruct w; simpl. unfold use_prealloc. simpl. by intros ->. Qed.

(** The range that was created last is read back. *)
Lemma read_last_wal_range_spec pk vs w :
  wal_rep w pk vs → w_enc_lock w = None →
  match last vs with
  | None => open_pg_tde_read_last_wal_range w = Ok None w
  | Some v =>
      ∀ lk, ra_key v = Some lk →
      ∃ r, open_pg_tde_read_last_wal_range w = Ok (Some r) (use_prealloc w) ∧
           wr_type r = ra_type v ∧ wr_start r = ra_start v ∧ wr_end r = loc_infinity ∧
           lkey (wr_key r) = lk ∧ wal_key_wf (wr_key r)
  end.
Proof.
  intros (Hc & Hpk & h & es & Hf & Hh & Hes & ->) Hlock.
  pose proof (wal_header_length _ _ Hh) as Hl. pose proof Hes as [Hes1 Hlt].
  unfold open_pg_tde_read_last_wal_range.
  mrun acquire_enc_ok. set (w1 := set_enc_lock _ w).
  rewrite (bind_ok _ _ _ _ _ (GetPrincipalKey_cached _ LW_EXCLUSIVE _ w1 Hc)).
  rewrite (bind_ok _ _ _ _ _ (open_wal_read_ok pk h es false w1 Hf Hh)). cbv beta iota.
  rewrite (bind_ok _ _ _ _ _ (lseek_ok wal_path w1 _ Hf)), wal_file_length by done.
  destruct (length es) as [|n] eqn:Hn.
  { assert (es = []) as -> by (by destruct es). simpl last. cbv beta iota.
    change (Z.of_nat (320 + 0 * 104) =? Z.of_nat sizeof_KeyFileHeader) with true. cbv iota.
    rewrite (bind_ok _ _ _ _ _ (release_enc_ok LW_EXCLUSIVE w1 eq_refl)).
    unfold w1. rewrite unlock_lock by done. done. }
  destruct (lookup_lt_is_Some_2 es n ltac:(lia)) as [e He].
  pose proof (Forall_lookup_1 _ _ _ _ Hes1 He) as Heok.
  assert (last (entry_view pk <$> es) = Some (entry_view pk e)) as ->.
  { rewrite last_lookup, length_fmap, Hn, list_lookup_fmap. simpl. by rewrite He. }
  intros lk Hk. destruct (entry_view_key _ _ _ Hk) as (r & Er & Hr1 & Hr2 & Hr3 & Hr4).
  rewrite (proj2 (Z.eqb_neq _ _)) by (unfold sizeof_KeyFileHeader; lia).
  rewrite <-Hn, keys_in_size_ok by lia. rewrite Hn. rewrite i32_small by lia.
  replace (Z.of_nat (S n) - 1) with (Z.of_nat n) by lia.
  rewrite (bind_ok _ _ _ _ _ (read2_ok h es wal_path n e w1 Hf Hl Hes He)).
  pose proof (wal_range_from_entry_spec pk e w1 Hpk Heok) as Hfrom. rewrite Er in Hfrom.
  rewrite (bind_ok _ _ _ _ _ Hfrom). pose proof (entry_range_wf _ _ _ Heok Er) as Hkwf.
  rewrite (bind_ok _ _ _ _ _ (release_enc_ok LW_EXCLUSIVE (use_prealloc w1) eq_refl)).
  unfold w1. rewrite unlock_use_prealloc by done. eexists. by split_and!.
Qed.

(** ** The cache *)

(** Adding a range: the last range of the cache ends where it starts. *)
Definition cache_add (c : list WALKeyCacheRec) (r : WalEncryptionRange) : list WALKeyCacheRec :=
  alter (set_range_end (wr_start r)) (length c - 1)%nat c ++ [mkWALKeyCacheRec r None].

Definition with_cache (c : list WALKeyCacheRec) (b1 b2 : bool) (w : World) : World :=
  set_wal (mkWalCacheState c b1 b2) w.

(** The ranges a reader asks for. *)
Definition wanted_ranges (pk : TDEPrincipalKey) (start : WalLocation) (es : list WalKeyFileEntry)
  : list WalEncryptionRange :=
  omap (λ e, if fetch_wanted start e then entry_range pk e else None) es.

Lemma cache_add_length c r : length (cache_add c r) = S (length c).
Proof. unfold cache_add. rewrite length_app, length_alter. simpl. lia. Qed.

Lemma add_range_to_cache_ok r w :
  open_pg_tde_add_wal_range_to_cache r w =
    Ok (length (wal_key_cache (w_wal w)))
       (with_cache (cache_add (wal_key_cache (w_wal w)) r) false (wal_prealloc_range (w_wal w)) w).
Proof. done. Qed.

Lemma fetch_loop_spec h es pk start :
  length h = 320%nat → wal_entries_ok es → pk_ok pk →
  Forall (λ e, fetch_wanted start e = true → is_Some (entry_range pk e)) es →
  ∀ n i ret w, (i + n = length es)%nat → w_fs w !! wal_path = Some (wal_file h es []) →
  ∃ b1 b2, fetch_loop n wal_path pk (Z.of_nat i) start ret w =
    let rs := wanted_ranges pk start (drop i es) in
    Ok (match ret, rs with
        | Some r, _ => Some r
        | None, [] => None
        | None, _ => Some (length (wal_key_cache (w_wal w)))
        end)
       (with_cache (foldl cache_add (wal_key_cache (w_wal w)) rs) b1 b2 w).
Proof.
  intros Hl Hes Hpk Hall. induction n as [|n IH]; intros i ret w Hi Hf.
  { exists (wal_prealloc_record (w_wal w)), (wal_prealloc_range (w_wal w)). simpl.
    rewrite drop_ge by lia. simpl. unfold mret, M_ret. f_equal; [by destruct ret|].
    by destruct w as [? ? ? ? ? ? ? ? ? ? [] ? ? ? ? ?]. }
  destruct (lookup_lt_is_Some_2 es i ltac:(lia)) as [e He].
  pose proof (Forall_lookup_1 _ _ _ _ (proj1 Hes) He) as Heok.
  simpl fetch_loop. rewrite (bind_ok _ _ _ _ _ (read2_ok h es wal_path i e w Hf Hl Hes He)).
  rewrite (drop_S es e i He). unfold wanted_ranges. simpl omap.
  replace (Z.of_nat i + 1) with (Z.of_nat (S i)) by lia.
  destruct (fetch_wanted start e) eqn:Ew; [|apply IH; [lia|done]].
  destruct (Forall_lookup_1 _ _ _ _ Hall He Ew) as [r Er].
  pose proof (wal_range_from_entry_spec pk e w Hpk Heok) as Hfrom. rewrite Er in Hfrom.
  rewrite (bind_ok _ _ _ _ _ Hfrom).
  rewrite (bind_ok _ _ _ _ _ (add_range_to_cache_ok r (use_prealloc w))).
  set (w1 := with_cache _ _ _ _).
  destruct (IH (S i) (match ret with Some r => Some r | None => Some (length (wal_key_cache (w_wal w))) end) w1)
    as (b1 & b2 & E2); [lia|done|].
  exists b1, b2. rewrite Er. etrans; [exact E2|]. cbv zeta. f_equal. by destruct ret.
Qed.

(** The ranges in use that start at the given location or later. *)
Definition view_wanted (start : WalLocation) (v : WRange) : bool :=
  negb (ra_type v =? WAL_ENCRYPTION_RANGE_INVALID) && wal_location_valid (ra_start v) &&
  (0 <=? wal_location_cmp (ra_start v) start).

(** A range in memory that is as the file says. *)
Definition range_view (r : WalEncryptionRange) (v : WRange) : Prop :=
  wr_type r = ra_type v ∧ wr_start r = ra_start v ∧ wr_end r = loc_infinity ∧
  ra_key v = Some (lkey (wr_key r)) ∧ wal_key_wf (wr_key r).

Lemma wanted_ranges_views pk start es :
  pk_ok pk → Forall wal_entry_ok es →
  Forall (λ v, view_wanted start v = true → is_Some (ra_key v)) (entry_view pk <$> es) →
  Forall (λ e, fetch_wanted start e = true → is_Some (entry_range pk e)) es ∧
  Forall2 range_view (wanted_ranges pk start es) (filter (λ v, view_wanted start v = true) (entry_view pk <$> es)).
Proof.
  intros Hpk. induction es as [|e es IH]; intros Hes Hall; [split; constructor|].
  apply Forall_cons in Hes as [He Hes]. rewrite fmap_cons in Hall. apply Forall_cons in Hall as [Hk Hall].
  destruct (IH Hes Hall) as [IH1 IH2]. unfold wanted_ranges. simpl omap. rewrite fmap_cons, filter_cons.
  change (fetch_wanted start e) with (view_wanted start (entry_view pk e)).
  destruct (view_wanted start (entry_view pk e)) eqn:Ew.
  - rewrite decide_True by done. destruct (Hk eq_refl) as [lk Hlk].
    destruct (entry_view_key _ _ _ Hlk) as (r & Er & Hr1 & Hr2 & Hr3 & Hr4).
    rewrite Er. split; (constructor; [|done]); [by eexists|].
    split_and!; try done; [by rewrite Hlk, Hr1|]. by eapply entry_range_wf.
  - rewrite decide_False by done. split; [|done].
    constructor; [|done]. change (fetch_wanted start e) with (view_wanted start (entry_view pk e)).
    by rewrite Ew.
Qed.

(** What fetching adds to the cache: the wanted ranges of the file in their
    order, or a range without encryption when the file has none. *)
Definition fetched (start : WalLocation) (vs : list WRange) (rs : list WalEncryptionRange) : Prop :=
  match vs with
  | [] => rs = [stub_range]
  | _ => Forall2 range_view rs (filter (λ v, view_wanted start v = true) vs)
  end.

Lemma unlock_with_cache c b1 b2 m w :
  w_enc_lock w = None →
  set_enc_lock None (with_cache c b1 b2 (set_enc_lock (Some m) w)) = with_cache c b1 b2 w.
Proof. destruct w; simpl. unfold with_cache. simpl. by intros ->. Qed.

Lemma fetch_wal_keys_spec start pk vs w :
  wal_rep w pk vs → w_enc_lock w = None →
  Forall (λ v, view_wanted start v = true → is_Some (ra_key v)) vs →
  ∃ rs b1 b2, fetched start vs rs ∧
    open_pg_tde_fetch_wal_keys start w =
      Ok (match rs with [] => None | _ => Some (length (wal_key_cache (w_wal w))) end)
         (with_cache (foldl cache_add (wal_key_cache (w_wal w)) rs) b1 b2 w).
Proof.
  intros (Hc & Hpk & h & es & Hf & Hh & Hes & ->) Hlock Hall.
  pose proof (wal_header_length _ _ Hh) as Hl. pose proof Hes as [Hes1 Hlt].
  unfold open_pg_tde_fetch_wal_keys.
  mrun acquire_enc_ok. set (w1 := set_enc_lock _ w).
  rewrite (bind_ok _ _ _ _ _ (GetPrincipalKey_cached _ LW_SHARED _ w1 Hc)).
  rewrite (bind_ok _ _ _ _ _ (open_wal_read_ok pk h es false w1 Hf Hh)). cbv beta iota.
  rewrite (bind_ok _ _ _ _ _ (lseek_ok wal_path w1 _ Hf)), wal_file_length by done.
  rewrite keys_in_size_ok, i32_small by lia. cbv zeta.
  destruct (decide (es = [])) as [->|Hne].
  - exists [stub_range]. eexists _, _. split; [done|].
    change (Z.of_nat (length []) =? 0) with true. cbv iota.
    rewrite (bind_ok _ _ _ _ _ (add_range_to_cache_ok stub_range w1)).
    rewrite (bind_ok _ _ _ _ _ (release_enc_ok LW_SHARED (with_cache _ _ _ w1) eq_refl)).
    unfold w1. by rewrite unlock_with_cache.
  - destruct (wanted_ranges_views pk start es Hpk Hes1 Hall) as [Hall' Hviews].
    rewrite (proj2 (Z.eqb_neq _ _)) by (destruct es; simpl; [done|lia]). rewrite Nat2Z.id.
    destruct (fetch_loop_spec h es pk start Hl Hes Hpk Hall' (length es) 0 None w1) as (b1 & b2 & E);
      [lia|done|].
    change (Z.of_nat 0) with 0 in E. rewrite (bind_ok _ _ _ _ _ E). rewrite drop_0.
    exists (wanted_ranges pk start es), b1, b2. split.
    { unfold fetched. destruct es; [done|]. rewrite fmap_cons in *. done. }
    rewrite (bind_ok _ _ _ _ _ (release_enc_ok LW_SHARED (with_cache _ _ _ w1) eq_refl)).
    unfold w1. by rewrite unlock_with_cache.
Qed.

(** ** The chain of ranges *)

(** Ranges in a row: each ends where the next one starts. *)
Fixpoint chain (rs : list WalEncryptionRange) : list WALKeyCacheRec :=
  match rs with
  | [] => []
  | r :: rs' =>
      mkWALKeyCacheRec
        (match rs' with
         | [] => r
         | r' :: _ => mkWalRange (wr_type r) (wr_key r) (wr_start r) (wr_start r')
         end) None :: chain rs'
  end.

Lemma chain_length rs : length (chain rs) = length rs.
Proof. induction rs; simpl; congruence. Qed.

Lemma chain_snoc rs r : cache_add (chain rs) r = chain (rs ++ [r]).
Proof.
  induction rs as [|r1 rs IH]; [done|]. unfold cache_add in *. simpl. rewrite chain_length in *.
  destruct rs as [|r2 rs].
  - simpl. done.
  - simpl in *. rewrite Nat.sub_0_r in IH. f_equal. exact IH.
Qed.

Lemma fetched_chain rs : foldl cache_add [] rs = chain rs.
Proof.
  enough (∀ rs0, foldl cache_add (chain rs0) rs = chain (rs0 ++ rs)) as H by apply (H []).
  induction rs as [|r rs IH]; intros rs0; simpl; [by rewrite app_nil_r|].
  by rewrite chain_snoc, IH, <-app_assoc.
Qed.

(** ** The server's principal key *)

(** Changes to files, random numbers and the preallocated range only. *)
Definition wal_upd (f : gmap string bytes) (n : nat) (b : bool) (w : World) : World :=
  set_fs f (set_rand n (set_wal (mkWalCacheState (wal_key_cache (w_wal w))
                                   (wal_prealloc_record (w_wal w)) b) w)).

Lemma wal_upd_upd f n b f' n' b' w : wal_upd f n b (wal_upd f' n' b' w) = wal_upd f n b w.
Proof. done. Qed.

Lemma wal_upd_id w : wal_upd (w_fs w) (w_rand w) (wal_prealloc_range (w_wal w)) w = w.
Proof. by destruct w as [? ? ? ? ? ? ? ? ? ? [] ? ? ? ? ?]. Qed.

Section rotate.
Context (new : string) (Hnew : wal_path ≠ new) (pk pk' : TDEPrincipalKey) (h h' : bytes)
  (es : list WalKeyFileEntry).
Context (Hpk : pk_ok pk) (Hpk' : pk_ok pk') (Hh : length h = 320%nat) (Hh' : length h' = 320%nat)
  (Hes : wal_entries_ok es).

(** One entry that decrypts is copied; one that does not is an error. *)
Lemma rotate_server_step fuel i e es' w :
  es !! i = Some e → w_fs w !! wal_path = Some (wal_file h es []) →
  w_fs w !! new = Some (wal_file h' es' []) → wal_entries_ok es' →
  match entry_range pk e with
  | Some r =>
      ∃ e', let w' := wal_upd (<[new := wal_file h' (es' ++ [e']) []]> (w_fs w)) (S (w_rand w)) false w in
        wal_entry_ok e' ∧ entry_view pk' e' = entry_view pk e ∧
        rotate_server_loop (S fuel) wal_path new pk pk' (wal_pos i) (wal_pos (length es')) w =
        rotate_server_loop fuel wal_path new pk pk' (wal_pos (S i)) (wal_pos (length (es' ++ [e']))) w'
  | None => ∃ err w', rotate_server_loop (S fuel) wal_path new pk pk' (wal_pos i) (wal_pos (length es')) w
                      = Err err w'
  end.
Proof.
  intros He Hold Hn Hes'. assert (i < length es)%nat by (by eapply lookup_lt_Some).
  pose proof (Forall_lookup_1 _ _ _ _ (proj1 Hes) He) as Heok.
  simpl rotate_server_loop.
  rewrite (bind_ok _ _ _ _ _ (read_wal_ok h es wal_path i w Hold Hh Hes ltac:(lia))), He.
  pose proof (wal_range_from_entry_spec pk e w Hpk Heok) as Hfrom.
  destruct (entry_range pk e) as [r|] eqn:Er.
  2:{ destruct Hfrom as [msg E]. rewrite (bind_err _ _ _ _ _ E). by do 2 eexists. }
  rewrite (bind_ok _ _ _ _ _ Hfrom).
  assert (∃ lk, ra_key (entry_view pk e) = Some lk) as [lk Hlk] by (simpl; rewrite Er; by eexists).
  destruct (entry_view_key _ _ _ Hlk) as (r' & Er' & Hr1 & Hr2 & Hr3 & _).
  rewrite Er in Er'. injection Er' as <-.
  destruct (initialize_wal_entry_spec pk' r (use_prealloc w) Hpk') as (e' & Ee & He' & Hv).
  { by eapply entry_range_wf. } { rewrite Hr2. apply Heok. } { rewrite Hr3. apply Heok. }
  rewrite (bind_ok _ _ _ _ _ Ee).
  rewrite (bind_ok _ _ _ _ _ (write_wal_ok new e' (wal_pos (length es')) _
    (set_rand _ (use_prealloc w)) Hn (proj1 He') ltac:(unfold wal_pos; lia))).
  rewrite wal_file_snoc by (done || apply He').
  exists e'. split_and!; [done| |].
  - rewrite Hv. unfold entry_view. rewrite Er. simpl. congruence.
  - replace (wal_pos (length es') + 104) with (wal_pos (length (es' ++ [e']))); [done|].
    rewrite length_app. unfold wal_pos. simpl. lia.
Qed.

Lemma rotate_server_loop_ok :
  Forall (λ e, is_Some (entry_range pk e)) es →
  ∀ fuel i es' w, (i ≤ length es)%nat → (length es - i < fuel)%nat →
  w_fs w !! wal_path = Some (wal_file h es []) → w_fs w !! new = Some (wal_file h' es' []) →
  Forall wal_entry_ok es' → entry_view pk' <$> es' = entry_view pk <$> take i es →
  ∃ es2 f n b, rotate_server_loop fuel wal_path new pk pk' (wal_pos i) (wal_pos (length es')) w =
                 Ok tt (wal_upd f n b w) ∧
    f !! new = Some (wal_file h' es2 []) ∧ (∀ q, q ≠ new → f !! q = w_fs w !! q) ∧
    Forall wal_entry_ok es2 ∧ entry_view pk' <$> es2 = entry_view pk <$> es.
Proof.
  intros Hall. induction fuel as [|fuel IH]; intros i es' w Hi Hfuel Hold Hn Hes' Hv; [lia|].
  assert (length es' = i) as Hlen.
  { apply (f_equal length) in Hv. rewrite !length_fmap, length_take in Hv. lia. }
  destruct (es !! i) as [e|] eqn:He.
  - assert (i < length es)%nat by (by eapply lookup_lt_Some).
    pose proof (rotate_server_step fuel i e es' w He Hold Hn) as Hstep.
    destruct (Forall_lookup_1 _ _ _ _ Hall He) as [r Er]. rewrite Er in Hstep.
    destruct Hstep as (e' & He' & Hv' & ->). { split; [done|]. destruct Hes. lia. }
    edestruct (IH (S i) (es' ++ [e'])) as (es2 & f & n & b & E & Hf1 & Hf2 & Hok & Hv2);
      [lia|lia|..]; last first.
    + exists es2, f, n, b. split_and!; [exact E|done| |done|done].
      intros q Hq. rewrite Hf2 by done. simpl. by rewrite lookup_insert_ne.
    + by rewrite (take_S_r _ _ _ He), !fmap_app, Hv; simpl; rewrite Hv'.
    + apply Forall_app. split; [done|by constructor].
    + simpl. by rewrite lookup_insert_eq.
    + simpl. by rewrite lookup_insert_ne.
  - apply lookup_ge_None in He as Hge. simpl rotate_server_loop.
    rewrite (bind_ok _ _ _ _ _ (read_wal_ok h es wal_path i w Hold Hh Hes Hi)), He.
    exists es', (w_fs w), (w_rand w), (wal_prealloc_range (w_wal w)). rewrite wal_upd_id.
    split_and!; try done. by rewrite Hv, take_ge.
Qed.

Lemma rotate_server_loop_err j ej :
  es !! j = Some ej → entry_range pk ej = None →
  ∀ fuel i es' w, (i ≤ j)%nat → (length es - i < fuel)%nat → length es' = i →
  w_fs w !! wal_path = Some (wal_file h es []) → w_fs w !! new = Some (wal_file h' es' []) →
  Forall wal_entry_ok es' →
  ∃ err w', rotate_server_loop fuel wal_path new pk pk' (wal_pos i) (wal_pos (length es')) w = Err err w'.
Proof.
  intros Hj Hnone. assert (j < length es)%nat by (by eapply lookup_lt_Some).
  induction fuel as [|fuel IH]; intros i es' w Hi Hfuel Hlen Hold Hn Hes'; [lia|].
  destruct (lookup_lt_is_Some_2 es i ltac:(lia)) as [e He].
  pose proof (rotate_server_step fuel i e es' w He Hold Hn) as Hstep.
  destruct (entry_range pk e) as [r|] eqn:Er.
  - destruct Hstep as (e' & He' & _ & ->). { split; [done|]. destruct Hes. lia. }
    assert (i ≠ j) by (intros ->; congruence).
    apply IH; [lia|lia|rewrite length_app; simpl; lia|simpl; by rewrite lookup_insert_ne
      |simpl; by rewrite lookup_insert_eq|]. apply Forall_app. split; [done|by constructor].
  - apply Hstep. split; [done|]. destruct Hes. lia.
Qed.

End rotate.

Lemma views_decrypt pk es :
  Forall (λ v, is_Some (ra_key v)) (entry_view pk <$> es) → Forall (λ e, is_Some (entry_range pk e)) es.
Proof.
  intros H. rewrite Forall_fmap in H. eapply Forall_impl; [exact H|]. simpl. intros e.
  destruct (entry_range pk e); [by eexists|]. intros [? ?]. done.
Qed.

(** The start of a rotation, up to the loop. *)
Lemma rotate_server_start pk pk' xlog h es w :
  pk_ok pk' → w_fs w !! wal_path = Some (wal_file h es []) → wal_header_for pk h → wal_entries_ok es →
  let tmp := tmp_path wal_path in
  ∃ s f, wal_header_for pk' (kf_new_header wal_kind s) ∧
    f !! wal_path = Some (wal_file h es []) ∧ f !! tmp = Some (wal_file (kf_new_header wal_kind s) [] []) ∧
    (∀ q, q ≠ tmp → f !! q = w_fs w !! q) ∧
    open_pg_tde_perform_rotate_server_key pk pk' xlog w =
      (rotate_server_loop (S (length (wal_file h es []))) wal_path tmp pk pk' (wal_pos 0) (wal_pos 0);;
       durable_rename tmp wal_path ERROR;;
       if xlog then XLogInsert (XLOG_TDE_ROTATE_PRINCIPAL_KEY (rotate_record pk')) else mret tt)
      (set_fs f (set_rand (S (w_rand w)) w)).
Proof.
  intros Hpk' Hf Hh Hes tmp. unfold open_pg_tde_perform_rotate_server_key.
  destruct (sign_principal_key_info_spec pk' w Hpk') as (s & Es & Hs1 & Hs2 & Hs3).
  rewrite (bind_ok _ _ _ _ _ Es). set (w1 := set_rand _ w). cbv zeta.
  rewrite (bind_ok _ _ _ _ _ (open_wal_read_ok pk h es false w1 Hf Hh)). cbv beta iota.
  rewrite (bind_ok _ _ _ _ _ (kf_open_write_new wal_kind tmp s true w1 (or_introl eq_refl) Hs1
    : open_pg_tde_open_wal_key_file_write (tmp_path get_wal_key_file_path) (Some s) true w1 = _)).
  exists s, (<[tmp := kf_new_header wal_kind s]> (w_fs w)). split_and!.
  - by apply wal_new_header_for.
  - rewrite lookup_insert_ne; [done|apply tmp_path_ne].
  - rewrite lookup_insert_eq. unfold wal_file, kfile. simpl. by rewrite app_nil_r.
  - intros q Hq. by rewrite lookup_insert_ne.
  - set (w2 := set_fs _ w1). unfold file_fuel.
    assert (w_fs w2 !! wal_path = Some (wal_file h es [])) as Hf2.
    { simpl. rewrite lookup_insert_ne; [done|apply tmp_path_ne]. }
    mstep. change get_wal_key_file_path with wal_path. rewrite Hf2. done.
Qed.

(** Rotation re-encrypts every range with the new principal key. *)
Lemma rotate_server_key_spec pk pk' vs xlog w :
  pk_ok pk → pk_ok pk' → wal_file_rep (w_fs w) pk vs → Forall (λ v, is_Some (ra_key v)) vs →
  ∃ w', open_pg_tde_perform_rotate_server_key pk pk' xlog w = Ok tt w' ∧
    wal_file_rep (w_fs w') pk' vs ∧
    w_xlog w' = w_xlog w ++ (if xlog then [XLOG_TDE_ROTATE_PRINCIPAL_KEY (rotate_record pk')] else []) ∧
    w_pk_cache w' = w_pk_cache w ∧
    ∀ q, q ≠ wal_path → q ≠ tmp_path wal_path → w_fs w' !! q = w_fs w !! q.
Proof.
  intros Hpk Hpk' (h & es & Hf & Hh & Hes & ->) Hall%views_decrypt.
  destruct (rotate_server_start pk pk' xlog h es w Hpk' Hf Hh Hes) as (s & f & Hhs & Hf1 & Hf2 & Hf3 & ->).
  set (tmp := tmp_path wal_path) in *. set (w1 := set_fs f _).
  destruct (rotate_server_loop_ok tmp (not_eq_sym (tmp_path_ne wal_path)) pk pk' h
    (kf_new_header wal_kind s) es Hpk Hpk' (wal_header_length _ _ Hh) (wal_header_length _ _ Hhs) Hes Hall
    (S (length (wal_file h es []))) 0 [] w1) as (es2 & f2 & n & b & E & Hg1 & Hg2 & Hok & Hv); try done.
  { lia. }
  { rewrite wal_file_length by (done || by eapply wal_header_length). lia. }
  change (wal_pos (length (@nil WalKeyFileEntry))) with (wal_pos 0) in E.
  rewrite (bind_ok _ _ _ _ _ E).
  rewrite (bind_ok _ _ _ _ _ (rename_ok tmp wal_path ERROR (wal_upd f2 n b w1) _ Hg1)).
  set (w3 := set_fs _ (wal_upd f2 n b w1)).
  assert (wal_file_rep (w_fs w3) pk' (entry_view pk <$> es) ∧
    ∀ q, q ≠ wal_path → q ≠ tmp → w_fs w3 !! q = w_fs w !! q) as [Hrep Hq].
  { split.
    - exists (kf_new_header wal_kind s), es2. split_and!; [apply lookup_insert_eq|done| |done].
      split; [done|]. apply (f_equal length) in Hv. rewrite !length_fmap in Hv. rewrite Hv. apply Hes.
    - intros q Hq1 Hq2. simpl. rewrite lookup_insert_ne, lookup_delete_ne by done.
      rewrite Hg2 by done. by apply Hf3. }
  destruct xlog; (eexists; split; [done|]); split_and!; try done. simpl. by rewrite app_nil_r.
Qed.

(** One range that does not decrypt makes the rotation fail. *)
Lemma rotate_server_key_fails pk pk' vs xlog w :
  pk_ok pk → pk_ok pk' → wal_file_rep (w_fs w) pk vs → Exists (λ v, ra_key v = None) vs →
  ∃ e w', open_pg_tde_perform_rotate_server_key pk pk' xlog w = Err e w'.
Proof.
  intros Hpk Hpk' (h & es & Hf & Hh & Hes & ->) Hex.
  apply Exists_exists in Hex as (v & Hv & Hk). apply list_elem_of_fmap in Hv as (ej & -> & Hj).
  apply list_elem_of_lookup in Hj as [j Hj].
  assert (entry_range pk ej = None) as Hnone by (simpl in Hk; by destruct (entry_range pk ej)).
  destruct (rotate_server_start pk pk' xlog h es w Hpk' Hf Hh Hes) as (s & f & Hhs & Hf1 & Hf2 & Hf3 & ->).
  set (w1 := set_fs f _).
  destruct (rotate_server_loop_err _ (not_eq_sym (tmp_path_ne wal_path)) pk pk' h
    (kf_new_header wal_kind s) es Hpk Hpk' (wal_header_length _ _ Hh) (wal_header_length _ _ Hhs) Hes
    j ej Hj Hnone (S (length (wal_file h es []))) 0 [] w1) as (e & w' & E); try done.
  { lia. }
  { rewrite wal_file_length by (done || by eapply wal_header_length). lia. }
  change (wal_pos (length (@nil WalKeyFileEntry))) with (wal_pos 0) in E.
  rewrite (bind_err _ _ _ _ _ E). by do 2 eexists.
Qed.

(** A new server key starts a file without ranges. *)
Lemma save_server_key_spec pk xlog w :
  pk_ok pk →
  ∃ w', open_pg_tde_save_server_key pk xlog w = Ok tt w' ∧ wal_file_rep (w_fs w') pk [] ∧
        w_pk_cache w' = w_pk_cache w ∧ w_enc_lock w' = w_enc_lock w ∧ w_wal w' = w_wal w ∧
        w_session w' = w_session w ∧ w_xsmgr w' = w_xsmgr w ∧ ∀ q, q ≠ wal_path → w_fs w' !! q = w_fs w !! q.
Proof.
  intros Hpk. unfold open_pg_tde_save_server_key.
  destruct (sign_principal_key_info_spec pk w Hpk) as (s & Es & Hs1 & Hs2 & Hs3).
  rewrite (bind_ok _ _ _ _ _ Es). set (w1 := set_rand _ w).
  assert (∃ x, (if xlog then XLogInsert (XLOG_TDE_ADD_PRINCIPAL_KEY s) else mret tt) w1 =
               Ok tt (set_xlog x w1)) as [x E].
  { destruct xlog; [by eexists|]. by exists (w_xlog w1). }
  rewrite (bind_ok _ _ _ _ _ E).
  rewrite (bind_ok _ _ _ _ _ (kf_open_write_new wal_kind wal_path s true (set_xlog x w1) (or_introl eq_refl) Hs1
    : open_pg_tde_open_wal_key_file_write get_wal_key_file_path (Some s) true (set_xlog x w1) = _)).
  eexists. split; [done|]. split_and!; [|done|done|done|done|done|].
  - exists (kf_new_header wal_kind s), []. split_and!; [|by apply wal_new_header_for|by split; [constructor|]|done].
    simpl. rewrite lookup_insert_eq. unfold wal_file, kfile. simpl. by rewrite app_nil_r.
  - intros q Hq. simpl. by rewrite lookup_insert_ne.
Qed.

(** The number of ranges in the file. *)
Lemma count_wal_ranges_spec pk vs w :
  wal_file_rep (w_fs w) pk vs →
  open_pg_tde_count_wal_ranges_in_file w = Ok (Z.of_nat (length vs)) w.
Proof.
  intros (h & es & Hf & Hh & Hes & ->). rewrite length_fmap.
  pose proof (wal_header_length _ _ Hh) as Hl. unfold open_pg_tde_count_wal_ranges_in_file.
  rewrite (bind_ok _ _ _ _ _ (open_wal_read_ok pk h es true w Hf Hh)). cbv beta iota.
  unfold file_fuel. mstep. rewrite Hf. simpl default.
  assert (∀ fuel i c, (i ≤ length es)%nat → (length es - i < fuel)%nat →
    count_ranges_loop fuel wal_path (wal_pos i) c w = Ok (c + Z.of_nat (length es - i)) w) as Hloop.
  { induction fuel as [|fuel IH]; intros i c Hi Hfuel; [lia|]. simpl count_ranges_loop.
    rewrite (bind_ok _ _ _ _ _ (read_wal_ok h es wal_path i w Hf Hl Hes Hi)).
    destruct (es !! i) as [e|] eqn:He.
    - apply lookup_lt_Some in He. rewrite IH by lia. f_equal. lia.
    - apply lookup_ge_None in He. unfold mret, M_ret. f_equal. lia. }
  rewrite (bind_ok _ _ _ _ _ (Hloop (S (length (wal_file h es []))) 0%nat 0 ltac:(lia)
    ltac:(rewrite wal_file_length by done; lia))).
  rewrite (bind_ok _ _ _ _ _ (ret_ok tt w : CloseTransientFile _ _ = _)).
  rewrite Nat.sub_0_r. done.
Qed.

(** ** Migration *)

(** What an entry of version 1 or 2 means. *)
Definition meaning_v1 (pk : TDEPrincipalKey) (bs : bytes) : option WRange :=
  let e := WalKeyFileEntryV1_decode bs in
  kb ← gcm_open (pk_key_bytes pk) (wv1_entry_iv e) (take 8 bs) (wv1_encrypted_key_data e) (wv1_aead_tag e);
  Some (mkWRange (wv1_range_type e) (wv1_range_start e) (Some (mkLKey CIPHER_AES_128 (wv1_key_base_iv e) kb))).

Definition meaning_v2 (pk : TDEPrincipalKey) (bs : bytes) : option WRange :=
  let e := WalKeyFileEntryV2_decode bs in
  n ← cipher_len (wke_cipher e);
  kb ← gcm_open (pk_key_bytes pk) (wke_entry_iv e) (take 8 bs)
         (take (Z.to_nat n) (wke_encrypted_key_data e)) (wke_aead_tag e);
  if n <=? 32
  then Some (mkWRange (wke_range_type e) (wke_range_start e)
               (Some (mkLKey (wke_cipher e) (wke_key_base_iv e) kb)))
  else None.

(** A reader that turns entries of [sz] bytes into what they mean. *)
Definition reader_ok (rd : WalEntryFromDiskEntry) (sz : nat)
  (meaning : TDEPrincipalKey → bytes → option WRange) : Prop :=
  ∀ pk h cs i w, pk_ok pk → w_fs w !! wal_path = Some (kfile id h cs []) → length h = 320%nat →
    Forall (λ c, length c = sz) cs → (i ≤ length cs)%nat →
    match cs !! i with
    | None => rd wal_path (kpos sz i) pk w = Ok None w
    | Some c => ∀ v, meaning pk c = Some v →
        ∃ e, rd wal_path (kpos sz i) pk w = Ok (Some (e, kpos sz (S i))) (set_rand (S (w_rand w)) w) ∧
             wal_entry_ok e ∧ entry_view pk e = v
    end.

(** Reading the bytes of an old entry. *)
Lemma read_chunk kf sz h cs i w :
  kf_entry_size kf = Z.of_nat sz → (0 < sz)%nat →
  w_fs w !! wal_path = Some (kfile id h cs []) → length h = 320%nat →
  Forall (λ c, length c = sz) cs → (i ≤ length cs)%nat →
  key_file_read_entry kf wal_path (kpos sz i) w =
    Ok (match cs !! i with Some c => Some (c, kpos sz (S i)) | None => None end) w.
Proof.
  intros Hkf Hsz Hf Hh Hcs Hi. pose proof (kpos_nonneg sz i).
  rewrite (kf_read_ok kf wal_path _ _ w Hf ltac:(done) ltac:(lia)).
  rewrite Hkf, Nat2Z.id. destruct (cs !! i) as [c|] eqn:Hc.
  - rewrite (kfile_entry id sz (λ c, length c = sz) (λ e He, He) h cs [] i c Hh Hcs Hc).
    change (id c) with c. rewrite (Forall_lookup_1 _ _ _ _ Hcs Hc : length c = sz), Z.eqb_refl. do 3 f_equal. unfold kpos. lia.
  - apply lookup_ge_None in Hc. assert (i = length cs) as -> by lia.
    rewrite (kfile_past id sz (λ c, length c = sz) (λ e He, He) h cs [] sz Hh Hcs).
    unfold slice. rewrite drop_nil, take_nil. simpl length. rewrite (proj2 (Z.eqb_neq _ _)) by lia. done.
Qed.

Lemma old_range_key n c iv kb (key : bytes) :
  cipher_len c = Some n → n <= 32 → Z.of_nat (length kb) = n → length key = 64%nat → length iv = 16%nat →
  wal_key_wf (mkInternalKey n c iv (write_at 0 kb key)) ∧
  lkey (mkInternalKey n c iv (write_at 0 kb key)) = mkLKey c iv kb.
Proof.
  intros Hc Hle Hl Hk Hiv. pose proof (cipher_len_cases _ _ Hc) as Hn. split.
  - repeat split; try done. simpl. rewrite overwrite_length. lia.
  - unfold lkey, ik_key_bytes, overwrite. simpl. f_equal. rewrite take_app_length'; [done|lia].
Qed.

Lemma reader_v1_ok : reader_ok range_from_disk_entry_v1 96 meaning_v1.
Proof.
  intros pk h cs i w Hpk Hf Hh Hcs Hi.
  pose proof (read_chunk wal_kind_v1 96 h cs i w eq_refl ltac:(lia) Hf Hh Hcs Hi) as E.
  unfold range_from_disk_entry_v1, open_pg_tde_read_one_wal_key_file_entry_v1.
  rewrite (bind_ok _ _ _ _ _ E). destruct (cs !! i) as [c|] eqn:Hc; [|done].
  pose proof (Forall_lookup_1 _ _ _ _ Hcs Hc) as Hlen. simpl in Hlen. intros v Hv.
  unfold wal_range_from_entry_v1. rewrite bind_assoc.
  destruct (uninit_ok INTERNAL_KEY_MAX_LEN w) as (kbuf & Eu & Hkbuf). rewrite (bind_ok _ _ _ _ _ Eu).
  rewrite bind_assoc.
  erewrite bind_ok
    by (apply AesGcmDecrypt_ok; [apply Hpk|simpl; rewrite slice_length; lia|simpl; rewrite slice_length; lia]).
  fold (pk_key_bytes pk). unfold meaning_v1 in Hv.
  destruct (gcm_open _ _ _ _ _) as [kb|] eqn:Eg; simpl in Hv; [|done]. injection Hv as <-.
  rewrite (bind_ok _ _ _ _ _ (ret_ok _ _)).
  apply gcm_open_length in Eg. simpl in Eg. rewrite slice_length in Eg.
  destruct (old_range_key 16 CIPHER_AES_128 (wv1_key_base_iv (WalKeyFileEntryV1_decode c)) kb kbuf)
    as [Hkw Hlk]; [done|lia|lia|done|simpl; rewrite slice_length; lia|].
  set (r := mkWalRange _ _ _ _).
  destruct (initialize_wal_entry_spec pk r w Hpk Hkw) as (e & Ee & He & Hview).
  { simpl. apply dec_u32_range. rewrite slice_length. lia. } { apply WalLocation_decode_wf. }
  rewrite (bind_ok _ _ _ _ _ Ee). exists e. split_and!; [done|done|].
  rewrite Hview. f_equal. f_equal. exact Hlk.
Qed.

Lemma reader_v2_ok : reader_ok range_from_disk_entry_v2 104 meaning_v2.
Proof.
  intros pk h cs i w Hpk Hf Hh Hcs Hi.
  pose proof (read_chunk wal_kind_v2 104 h cs i w eq_refl ltac:(lia) Hf Hh Hcs Hi) as E.
  unfold range_from_disk_entry_v2, open_pg_tde_read_one_wal_key_file_entry_v2.
  rewrite (bind_ok _ _ _ _ _ E). destruct (cs !! i) as [c|] eqn:Hc; [|done].
  pose proof (Forall_lookup_1 _ _ _ _ Hcs Hc) as Hlen. simpl in Hlen. intros v Hv.
  unfold wal_range_from_entry_v2. rewrite bind_assoc.
  destruct (uninit_ok INTERNAL_KEY_MAX_LEN w) as (kbuf & Eu & Hkbuf). rewrite (bind_ok _ _ _ _ _ Eu).
  rewrite bind_assoc. unfold meaning_v2 in Hv.
  destruct (cipher_len _) as [n|] eqn:Ec; simpl in Hv; [|done].
  rewrite (bind_ok _ _ _ _ _ (cipher_key_length_ok _ _ w Ec)). rewrite bind_assoc.
  erewrite bind_ok
    by (apply AesGcmDecrypt_ok; [apply Hpk|simpl; rewrite slice_length; lia|simpl; rewrite slice_length; lia]).
  fold (pk_key_bytes pk).
  destruct (gcm_open _ _ _ _ _) as [kb|] eqn:Eg; simpl in Hv; [|done].
  destruct (n <=? 32) eqn:Hn; [|done]. injection Hv as <-.
  rewrite (bind_ok _ _ _ _ _ (ret_ok _ _)).
  apply gcm_open_length in Eg. simpl in Eg. rewrite length_take, slice_length in Eg.
  pose proof (cipher_len_cases _ _ Ec) as Hcases.
  destruct (old_range_key n _ (wke_key_base_iv (WalKeyFileEntryV2_decode c)) kb kbuf Ec)
    as [Hkw Hlk]; [lia|lia|done|simpl; rewrite slice_length; lia|].
  set (r := mkWalRange _ _ _ _).
  destruct (initialize_wal_entry_spec pk r w Hpk Hkw) as (e & Ee & He & Hview).
  { simpl. apply dec_u32_range. rewrite slice_length. lia. } { apply WalLocation_decode_wf. }
  rewrite (bind_ok _ _ _ _ _ Ee). exists e. split_and!; [done|done|].
  rewrite Hview. f_equal. f_equal. exact Hlk.
Qed.

(** Size and meaning of the entries of an old version. *)
Definition old_wal_format (version : Z) : option (nat * (TDEPrincipalKey → bytes → option WRange)) :=
  if version =? 1 then Some (96%nat, meaning_v1)
  else if version =? 2 then Some (104%nat, meaning_v2)
  else None.

Lemma wal_read_range_ok version sz meaning :
  old_wal_format version = Some (sz, meaning) →
  ∃ rd, wal_read_range version = Some rd ∧ reader_ok rd sz meaning.
Proof.
  unfold old_wal_format, wal_read_range.
  destruct (version =? 1); [|destruct (version =? 2); [|done]]; intros; simplify_eq;
    eexists; (split; [done|]); [apply reader_v1_ok|apply reader_v2_ok].
Qed.

Lemma update_wal_loop_ok rd sz meaning pk new h cs vs h' :
  reader_ok rd sz meaning → wal_path ≠ new → pk_ok pk → length h = 320%nat → length h' = 320%nat →
  Forall (λ c, length c = sz) cs → Forall2 (λ c v, meaning pk c = Some v) cs vs →
  Z.of_nat (length cs) < 2 ^ 31 →
  ∀ fuel i es w, (i ≤ length cs)%nat → (length cs - i < fuel)%nat →
  w_fs w !! wal_path = Some (kfile id h cs []) → w_fs w !! new = Some (wal_file h' es []) →
  Forall wal_entry_ok es → entry_view pk <$> es = take i vs →
  ∃ es2 f n, update_wal_loop fuel rd wal_path new pk (kpos sz i) (wal_pos (length es)) w =
               Ok tt (set_fs f (set_rand n w)) ∧
    f !! new = Some (wal_file h' es2 []) ∧ (∀ q, q ≠ new → f !! q = w_fs w !! q) ∧
    Forall wal_entry_ok es2 ∧ entry_view pk <$> es2 = vs.
Proof.
  intros Hrd Hnew Hpk Hh Hh' Hcs Hvs Hlt. pose proof (Forall2_length _ _ _ Hvs) as Hlen.
  induction fuel as [|fuel IH]; intros i es w Hi Hfuel Hold Hn Hes Hv; [lia|].
  assert (length es = i) as Hli.
  { apply (f_equal length) in Hv. rewrite length_fmap, length_take in Hv. lia. }
  simpl update_wal_loop. pose proof (Hrd pk h cs i w Hpk Hold Hh Hcs Hi) as Hread.
  destruct (cs !! i) as [c|] eqn:Hc.
  - assert (i < length cs)%nat by (by eapply lookup_lt_Some).
    destruct (Forall2_lookup_l _ _ _ _ _ Hvs Hc) as (v & Hvi & Hm).
    destruct (Hread v Hm) as (e & E & He & Hev). rewrite (bind_ok _ _ _ _ _ E).
    rewrite (bind_ok _ _ _ _ _ (write_wal_ok new e (wal_pos (length es)) _ (set_rand _ w) Hn (proj1 He)
      ltac:(unfold wal_pos; lia))).
    rewrite wal_file_snoc; [|done|split; [done|lia]|apply He].
    replace (wal_pos (length es) + 104) with (wal_pos (length (es ++ [e])))
      by (rewrite length_app; unfold wal_pos; simpl; lia).
    edestruct (IH (S i) (es ++ [e])) as (es2 & f & n & E2 & Hf1 & Hf2 & Hok & Hv2); [lia|lia|..]; last first.
    + exists es2, f, n. split_and!; [exact E2|done| |done|done].
      intros q Hq. rewrite Hf2 by done. simpl. by rewrite lookup_insert_ne.
    + by rewrite (take_S_r _ _ _ Hvi), fmap_app, Hv; simpl; rewrite Hev.
    + apply Forall_app. split; [done|by constructor].
    + simpl. by rewrite lookup_insert_eq.
    + simpl. by rewrite lookup_insert_ne.
  - rewrite (bind_ok _ _ _ _ _ Hread). apply lookup_ge_None in Hc.
    exists es, (w_fs w), (w_rand w). split_and!; try done; [by destruct w|].
    rewrite Hv, take_ge by lia. done.
Qed.

(** A file of version 1 or 2 becomes a file of the current version with the
    same ranges. *)
Lemma update_wal_keys_file_spec pk h cs vs sz meaning w :
  w_pk_cache w !! GLOBAL_DATA_TDE_OID = Some pk → pk_ok pk → w_enc_lock w = None →
  w_fs w !! wal_path = Some (kfile id h cs []) → length h = 320%nat →
  old_wal_format (FILEMAGIC_VERSION (fh_file_version (KeyFileHeader_decode h))) = Some (sz, meaning) →
  Forall (λ c, length c = sz) cs → Forall2 (λ c v, meaning pk c = Some v) cs vs →
  Z.of_nat (length cs) < 2 ^ 31 →
  ∃ w', open_pg_tde_update_wal_keys_file w = Ok tt w' ∧ wal_rep w' pk vs ∧
        w_enc_lock w' = None ∧ w_wal w' = w_wal w ∧
        ∀ q, q ≠ wal_path → q ≠ tmp_path wal_path → w_fs w' !! q = w_fs w !! q.
Proof.
  intros Hc Hpk Hlock Hf Hh Hfmt Hcs Hvs Hlt. unfold open_pg_tde_update_wal_keys_file.
  unfold open_pg_tde_open_wal_key_file_basic, key_file_open_basic. rewrite bind_assoc.
  rewrite (bind_ok _ _ _ _ _ (open_existing _ _ _ _ Hf)). rewrite (bind_ok _ _ _ _ _ (ret_ok _ _)).
  rewrite (bind_ok _ _ _ _ _ (kf_header_read_ok wal_kind wal_path h _ w Hf Hh
    : open_pg_tde_wal_key_file_header_read get_wal_key_file_path w = _)).
  destruct (uninit_ok sizeof_KeyFileHeader w) as (st & Eu & _). rewrite (bind_ok _ _ _ _ _ Eu).
  cbv zeta. cbn [from_option id].
  destruct (Z.eqb_spec (fh_file_version (KeyFileHeader_decode h)) OPEN_PG_TDE_WAL_KEY_FILE_MAGIC)
    as [Ev|_]; [by rewrite Ev in Hfmt|].
  destruct (wal_read_range_ok _ _ _ Hfmt) as (rd & -> & Hrd).
  mrun acquire_enc_ok. set (w1 := set_enc_lock _ w).
  rewrite (bind_ok _ _ _ _ _ (GetPrincipalKey_cached _ LW_EXCLUSIVE _ w1 Hc)).
  destruct (sign_principal_key_info_spec pk w1 Hpk) as (s & Es & Hs1 & Hs2 & Hs3).
  rewrite (bind_ok _ _ _ _ _ Es). set (w2 := set_rand _ w1). set (tmp := tmp_path wal_path).
  rewrite (bind_ok _ _ _ _ _ (kf_open_write_new wal_kind tmp s true w2 (or_introl eq_refl) Hs1
    : open_pg_tde_open_wal_key_file_write (tmp_path get_wal_key_file_path) (Some s) true w2 = _)).
  set (w3 := set_fs _ w2).
  assert (w_fs w3 !! wal_path = Some (kfile id h cs [])) as Hf3
    by (simpl; rewrite lookup_insert_ne; [done|apply tmp_path_ne]).
  unfold file_fuel. mstep. change get_wal_key_file_path with wal_path. rewrite Hf3. simpl default.
  destruct (update_wal_loop_ok rd sz meaning pk tmp h cs vs (kf_new_header wal_kind s) Hrd
    (not_eq_sym (tmp_path_ne wal_path)) Hpk Hh) with (fuel := S (length (kfile id h cs [])))
    (i := 0%nat) (es := @nil WalKeyFileEntry) (w := w3)
    as (es2 & f & n & E & Hg1 & Hg2 & Hok & Hv); try done.
  { by apply KeyFileHeader_encode_length. } { lia. }
  { rewrite (kfile_length id sz (λ c, length c = sz) (λ e He, He)) by done.
    destruct sz; [|simpl; lia]. unfold old_wal_format in Hfmt. by repeat case_match. }
  { simpl. rewrite lookup_insert_eq. unfold wal_file, kfile. simpl. by rewrite app_nil_r. }
  replace (kpos sz 0) with 320 in E by (unfold kpos; lia).
  change (wal_pos (length (@nil WalKeyFileEntry))) with 320 in E.
  rewrite (bind_ok _ _ _ _ _ E). rewrite !(bind_ok _ _ _ _ _ (ret_ok _ _ : CloseTransientFile _ _ = _)).
  rewrite (bind_ok _ _ _ _ _ (rename_ok tmp wal_path ERROR (set_fs f (set_rand n w3)) _ Hg1)).
  eexists. split; [apply (release_enc_ok LW_EXCLUSIVE (set_fs _ (set_fs f (set_rand n w3))) eq_refl)|].
  split_and!; try done.
  - split_and!; [done..|]. exists (kf_new_header wal_kind s), es2.
    split_and!; [apply lookup_insert_eq|by apply wal_new_header_for| |done].
    split; [done|]. apply (f_equal length) in Hv. rewrite length_fmap in Hv.
    rewrite Hv, <-(Forall2_length _ _ _ Hvs). done.
  - intros q Hq1 Hq2. simpl. rewrite lookup_insert_ne, lookup_delete_ne by done.
    rewrite Hg2 by done. simpl. by rewrite lookup_insert_ne.
Qed.

End ops.
