(* ===== verification/WalKeysThms.v ===== *)
(** Properties of the WAL key file and its cache (WalKeys), from the lemmas of
    WalKeysSpec: a sequence of operations on the file implements the list of
    ranges, readers get the ranges as a chain, and what rotation and migration
    keep. *)
From S2P Require Import Prelude Types Environ Instances Ciphers EncTde KeyFile KeyMap KeyMapSpec WalKeys.
From S2P Require Import WalKeysSpec.

(** ** Operations and what they mean *)

Inductive WalOp :=
| WalCreate (type key_len : Z)
| WalSetLocation (loc : WalLocation).

(** Type and start of the ranges. *)
Definition shape (v : WRange) : Z * WalLocation := (ra_type v, ra_start v).

Definition abs_wal_op (l : list (Z * WalLocation)) (o : WalOp) : list (Z * WalLocation) :=
  match o with
  | WalCreate type _ => l ++ [(type, loc_unset)]
  | WalSetLocation loc =>
      let n := (length l - 1)%nat in
      let l := alter (λ v, (fst v, loc)) n l in
      match n with
      | O => l
      | S m => alter (λ v, if 0 <=? wal_location_cmp (snd v) loc
                           then (WAL_ENCRYPTION_RANGE_INVALID, snd v) else v) m l
      end
  end.

Definition wal_op_valid (l : list (Z * WalLocation)) (o : WalOp) : Prop :=
  match o with
  | WalCreate type key_len =>
      (key_len = 16 ∨ key_len = 32) ∧ is_u32 type ∧ Z.of_nat (length l) < 2 ^ 31 - 1
  | WalSetLocation loc => WalLocation_wf loc ∧ l ≠ []
  end.

(** Each operation is valid where it runs. *)
Fixpoint wal_ops_valid (l : list (Z * WalLocation)) (os : list WalOp) : Prop :=
  match os with
  | [] => True
  | o :: os => wal_op_valid l o ∧ wal_ops_valid (abs_wal_op l o) os
  end.

(** The ranges in use can be decrypted. *)
Definition usable (vs : list WRange) : Prop :=
  Forall (λ v, ra_type v ≠ WAL_ENCRYPTION_RANGE_INVALID → is_Some (ra_key v)) vs.

(** All ranges decrypt when none is invalid. *)
Lemma usable_all vs :
  usable vs → Forall (λ s, fst s ≠ WAL_ENCRYPTION_RANGE_INVALID) (shape <$> vs) →
  Forall (λ v, is_Some (ra_key v)) vs.
Proof.
  unfold usable. rewrite Forall_fmap, !Forall_forall. intros Hu Hs v Hv. by apply Hu, Hs.
Qed.

Lemma shape_set_location loc k vs :
  shape <$> abs_set_location loc k vs = abs_wal_op (shape <$> vs) (WalSetLocation loc).
Proof.
  unfold abs_set_location, abs_wal_op. rewrite length_fmap.
  destruct (length vs - 1)%nat as [|m].
  - apply list_fmap_alter. by apply Forall_true.
  - erewrite (list_fmap_alter shape _ _ _ m).
    + f_equal. apply list_fmap_alter. by apply Forall_true.
    + apply Forall_true. intros v. simpl. by destruct (0 <=? _).
Qed.

Lemma usable_set_location loc k vs : usable vs → usable (abs_set_location loc k vs).
Proof.
  intros H. unfold abs_set_location, usable in *.
  assert (∀ n, Forall (λ v, ra_type v ≠ WAL_ENCRYPTION_RANGE_INVALID → is_Some (ra_key v))
                 (alter (λ v, mkWRange (ra_type v) loc (ra_key v)) n vs)) as H1.
  { intros n. by apply Forall_alter. }
  destruct (length vs - 1)%nat as [|m]; [apply H1|].
  apply Forall_alter; [apply H1|]. intros v _ Hv. by destruct (0 <=? _).
Qed.

Section properties.
Context {SSL : OpenSSL} {Spec : OpenSSLSpec SSL} {K : Kernel} {NF : NoFaults K} {RW : RandWorks SSL}.
Context {PKS : PrincipalKeys} {PKSpec : PrincipalKeysSpec PKS}.

Definition run_wal_op (o : WalOp) : M unit :=
  match o with
  | WalCreate type key_len => open_pg_tde_create_wal_range type key_len;; mret tt
  | WalSetLocation loc => open_pg_tde_wal_last_range_set_location loc
  end.

Fixpoint run_wal_ops (os : list WalOp) : M unit :=
  match os with
  | [] => mret tt
  | o :: os => run_wal_op o;; run_wal_ops os
  end.

Lemma only_file_wal w w' : only_file wal_path w w' → w_enc_lock w' = w_enc_lock w ∧ w_wal w' = w_wal w.
Proof. by intros (f & n & -> & _). Qed.

Lemma run_wal_op_spec pk vs o w :
  wal_rep w pk vs → w_enc_lock w = None → usable vs → wal_op_valid (shape <$> vs) o →
  ∃ w' vs', run_wal_op o w = Ok tt w' ∧ wal_rep w' pk vs' ∧ usable vs' ∧
    shape <$> vs' = abs_wal_op (shape <$> vs) o ∧ w_enc_lock w' = None ∧ w_wal w' = w_wal w.
Proof.
  intros Hrep Hlock Hu Hv. destruct o as [t kl|loc]; simpl in Hv.
  - rewrite length_fmap in Hv. destruct Hv as (Hkl & Ht & Hlen).
    destruct (create_wal_range_spec t kl pk vs w Hrep Hlock Hkl Ht Hlen)
      as (r & w' & E & Hrep' & _ & _ & _ & _ & _ & Hof%only_file_wal).
    eexists w', _. split_and!; [|exact Hrep'| | |by destruct Hof as [-> _]|apply Hof].
    + simpl. by rewrite (bind_ok _ _ _ _ _ E).
    + apply Forall_app. split; [done|]. constructor; [by eexists|done].
    + by rewrite fmap_app.
  - destruct Hv as [Hloc Hne].
    destruct (set_location_spec loc pk vs w Hrep Hlock Hloc) as (k & w' & E & Hrep' & Hof%only_file_wal).
    { intros ->. done. }
    eexists w', _. split_and!; [exact E|exact Hrep'| | |by destruct Hof as [-> _]|apply Hof].
    + by apply usable_set_location.
    + apply shape_set_location.
Qed.

Lemma run_wal_ops_spec pk vs os w :
  wal_rep w pk vs → w_enc_lock w = None → usable vs → wal_ops_valid (shape <$> vs) os →
  ∃ w' vs', run_wal_ops os w = Ok tt w' ∧ wal_rep w' pk vs' ∧ usable vs' ∧
    shape <$> vs' = foldl abs_wal_op (shape <$> vs) os ∧ w_enc_lock w' = None ∧ w_wal w' = w_wal w.
Proof.
  revert vs w. induction os as [|o os IH]; intros vs w Hrep Hlock Hu Hv.
  { exists w, vs. by split_and!. }
  destruct Hv as [Hv1 Hv2].
  destruct (run_wal_op_spec pk vs o w Hrep Hlock Hu Hv1) as (w1 & vs1 & E & Hrep1 & Hu1 & Hs1 & Hl1 & Hw1).
  simpl run_wal_ops. rewrite (bind_ok _ _ _ _ _ E). simpl foldl. rewrite <-Hs1 in Hv2 |- *.
  destruct (IH vs1 w1 Hrep1 Hl1 Hu1 Hv2) as (w2 & vs2 & E2 & ? & ? & ? & ? & ?).
  exists w2, vs2. split_and!; try done. by rewrite <-Hw1.
Qed.

(** C8: any sequence of creating ranges and setting the location of the last
    one succeeds and leaves a file that holds the corresponding list of types
    and starts; every range in use can still be decrypted, and the cache is not
    touched. *)
Theorem wal_file_refines pk vs os w :
  wal_rep w pk vs → w_enc_lock w = None → usable vs → wal_ops_valid (shape <$> vs) os →
  ∃ w' vs', run_wal_ops os w = Ok tt w' ∧ wal_rep w' pk vs' ∧ usable vs' ∧
    shape <$> vs' = foldl abs_wal_op (shape <$> vs) os ∧ w_enc_lock w' = None ∧ w_wal w' = w_wal w.
Proof. apply run_wal_ops_spec. Qed.

(** A range that was created is read back from the file as the last one,
    with the same type, cipher, base IV and key and with no start yet. *)
Theorem created_range_read_back type key_len pk vs w :
  wal_rep w pk vs → w_enc_lock w = None → (key_len = 16 ∨ key_len = 32) → is_u32 type →
  Z.of_nat (length vs) < 2 ^ 31 - 1 →
  ∃ r r' w', open_pg_tde_create_wal_range type key_len w = Ok r w' ∧
    open_pg_tde_read_last_wal_range w' = Ok (Some r') (use_prealloc w') ∧
    wr_type r' = type ∧ wr_start r' = loc_unset ∧ wr_end r' = loc_infinity ∧
    key_equiv (wr_key r') (wr_key r).
Proof.
  intros Hrep Hlock Hkl Ht Hlen.
  destruct (create_wal_range_spec type key_len pk vs w Hrep Hlock Hkl Ht Hlen)
    as (r & w' & E & Hrep' & Hty & Hst & Hen & Hwf & Hlk & Hof%only_file_wal).
  pose proof (read_last_wal_range_spec pk _ w' Hrep') as Hread.
  rewrite last_snoc in Hread. destruct Hof as [Hl' _]. rewrite Hlock in Hl'.
  destruct (Hread Hl' (lkey (wr_key r)) eq_refl) as (r' & E' & H1 & H2 & H3 & H4 & [H5 _]).
  exists r, r', w'. split_and!; try done. split; [done|].
  destruct Hwf as [[Hc _] _]. destruct H5 as [Hc' _]. injection H4 as H4 _ _. congruence.
Qed.

(** C22: a process with an empty cache gets exactly the ranges in use that start
    at the given location or later, in the order of the file; in the cache each
    range ends where the next one starts and the last one has no end. *)
Theorem fetch_builds_chain start pk vs w :
  wal_rep w pk vs → w_enc_lock w = None → vs ≠ [] → usable vs → wal_key_cache (w_wal w) = [] →
  ∃ rs ret w', open_pg_tde_fetch_wal_keys start w = Ok ret w' ∧
    Forall2 range_view rs (filter (λ v, view_wanted start v = true) vs) ∧
    wal_key_cache (w_wal w') = chain rs ∧ (ret = None ↔ rs = []) ∧ w_fs w' = w_fs w.
Proof.
  intros Hrep Hlock Hne Hu Hc.
  destruct (fetch_wal_keys_spec start pk vs w Hrep Hlock) as (rs & b1 & b2 & Hfe & E).
  { eapply Forall_impl; [exact Hu|]. simpl. intros v Hv Hw. apply Hv. intros Ht.
    unfold view_wanted in Hw. by rewrite Ht in Hw. }
  rewrite Hc, fetched_chain in E. eexists rs, _, _. split; [exact E|].
  unfold fetched in Hfe. destruct vs as [|v vs]; [done|]. split_and!; try done.
  by destruct rs; split.
Qed.

(** Migrating a file of version 1 or 2 gives a file of the current version
    with the same ranges. *)
Theorem wal_migration_keeps_ranges pk h cs vs sz meaning w :
  w_pk_cache w !! GLOBAL_DATA_TDE_OID = Some pk → pk_ok pk → w_enc_lock w = None →
  w_fs w !! wal_path = Some (kfile id h cs []) → length h = 320%nat →
  old_wal_format (FILEMAGIC_VERSION (fh_file_version (KeyFileHeader_decode h))) = Some (sz, meaning) →
  Forall (λ c, length c = sz) cs → Forall2 (λ c v, meaning pk c = Some v) cs vs →
  Z.of_nat (length cs) < 2 ^ 31 →
  ∃ w', open_pg_tde_update_wal_keys_file w = Ok tt w' ∧ wal_rep w' pk vs ∧
        w_enc_lock w' = None ∧ w_wal w' = w_wal w ∧
        ∀ q, q ≠ wal_path → q ≠ tmp_path wal_path → w_fs w' !! q = w_fs w !! q.
Proof. apply update_wal_keys_file_spec. Qed.

End properties.

(** ** When calls fail *)

Section frames.
Context {SSL : OpenSSL} {K : Kernel}.

Lemma always_range_from_entry pk e : always same_files (open_pg_tde_wal_range_from_entry pk e).
Proof.
  unfold open_pg_tde_wal_range_from_entry, open_pg_tde_cipher_key_length.
  apply (always_bind _); [by intros w|]. intros _. always_solve.
Qed.

Lemma always_init_wal_entry pk r : always same_files (open_pg_tde_initialize_wal_key_file_entry pk r).
Proof. unfold open_pg_tde_initialize_wal_key_file_entry. always_solve. Qed.

Lemma always_read_wal fd off : always same_files (open_pg_tde_read_one_wal_key_file_entry fd off).
Proof. unfold open_pg_tde_read_one_wal_key_file_entry. always_solve. Qed.

Lemma always_write_wal fd e off : always (touches fd) (open_pg_tde_write_one_wal_key_file_entry fd e off).
Proof. apply always_kf_write. Qed.

#[local] Hint Resolve always_range_from_entry always_init_wal_entry always_read_wal always_write_wal : always.

Lemma always_rotate_server_loop fuel old new pk pk' p1 p2 :
  always (touches new) (rotate_server_loop fuel old new pk pk' p1 p2).
Proof.
  revert p1 p2. induction fuel as [|fuel IH]; intros p1 p2; simpl; [unfold out_of_fuel; always_solve|].
  always_solve.
Qed.

(** A rotation up to the point where the new file replaces the old one. *)
Definition server_prepare (pk pk' : TDEPrincipalKey) : M unit :=
  info ← open_pg_tde_sign_principal_key_info pk';
  o ← open_pg_tde_open_wal_key_file_read wal_path false;
  match o with
  | None => ereport PANIC "unreachable: missing files are not ignored"
  | Some (old_fd, old_pos) =>
      '(new_fd, new_pos) ← open_pg_tde_open_wal_key_file_write (tmp_path wal_path) (Some info) true;
      fuel ← file_fuel old_fd;
      rotate_server_loop fuel old_fd new_fd pk pk' old_pos new_pos
  end.

Lemma server_prepared pk pk' xlog w :
  open_pg_tde_perform_rotate_server_key pk pk' xlog w =
    (server_prepare pk pk';; durable_rename (tmp_path wal_path) wal_path ERROR;; log_rotation pk' xlog) w.
Proof.
  unfold open_pg_tde_perform_rotate_server_key, server_prepare. change get_wal_key_file_path with wal_path. unfold mbind, M_bind.
  destruct (open_pg_tde_sign_principal_key_info pk' w) as [info w1|]; [|done].
  destruct (open_pg_tde_open_wal_key_file_read wal_path false w1) as [[[old_fd pos]|] w2|]; [|done|done].
  destruct (open_pg_tde_open_wal_key_file_write (tmp_path wal_path) (Some info) true w2) as [[new_fd pos2] w3|]; [|done].
  destruct (file_fuel old_fd w3) as [fuel w4|]; [|done]. by destruct (rotate_server_loop fuel old_fd new_fd pk pk' pos pos2 w4).
Qed.

Lemma always_server_prepare pk pk' : always (touches (tmp_path wal_path)) (server_prepare pk pk').
Proof.
  unfold server_prepare. apply (always_bind _); [auto with always|]. intros info.
  apply (always_bind _); [apply same_files_touches, always_kf_open_read|]. intros [[old_fd pos]|]; [|auto with always].
  apply (always_bind_dep _); [apply always_kf_open_write|]. intros w2 [new_fd pos2] w3 E.
  assert (new_fd = tmp_path wal_path) as ->
    by apply (kf_open_write_fd wal_kind (tmp_path wal_path) (Some info) true w2 (new_fd, pos2) w3 E).
  apply (always_bind _); [by intros ?|]. intros fuel. apply always_rotate_server_loop.
Qed.

Lemma rotate_server_error pk pk' xlog w e w' :
  open_pg_tde_perform_rotate_server_key pk pk' xlog w = Err e w' →
  w_fs w' !! wal_path = w_fs w !! wal_path ∨
  ∃ w1 bs n, server_prepare pk pk' w = Ok tt w1 ∧ w_fs w1 !! tmp_path wal_path = Some bs ∧
    w' = renamed (tmp_path wal_path) wal_path bs w1 ∧
    sys_fault (SysRename (tmp_path wal_path) wal_path) (w_fs w1) = Some n ∧ 0 <= n.
Proof.
  intros E. rewrite server_prepared in E. refine (replace_error _ _ _ _ _ _ _ _ (always_server_prepare pk pk') _ _ E).
  - apply not_eq_sym, tmp_path_ne.
  - intros w1. by destruct xlog; do 2 eexists.
Qed.

End frames.

Section failures.
Context {SSL : OpenSSL} {Spec : OpenSSLSpec SSL} {K : Kernel} {NF : NoFaults K} {RW : RandWorks SSL}.

Lemma undecryptable_range_blocks pk pk' vs xlog w :
  pk_ok pk → pk_ok pk' → wal_file_rep (w_fs w) pk vs → Exists (λ v, ra_key v = None) vs →
  ∃ e w', open_pg_tde_perform_rotate_server_key pk pk' xlog w = Err e w' ∧
          w_fs w' !! wal_path = w_fs w !! wal_path.
Proof.
  intros Hpk Hpk' Hrep Hex.
  destruct (rotate_server_key_fails pk pk' vs xlog w Hpk Hpk' Hrep Hex) as (e & w' & E).
  exists e, w'. split; [done|]. destruct (rotate_server_error pk pk' xlog w e w' E) as [|(w1 & bs & n & _ & _ & _ & Hn & _)]; [done|].
  by rewrite no_fault in Hn.
Qed.

(** C25: rotating the server's principal key, while no system call fails, keeps
    every range, its type, its start and its key, in the same order, if the old
    principal key opens the entry of every range. Otherwise, and also if the range
    that it does not open is one that is no longer in use, the rotation fails and
    the key file is as before. *)
Theorem server_rotation_keeps_ranges pk pk' vs w :
  pk_ok pk → pk_ok pk' → wal_file_rep (w_fs w) pk vs →
  if decide (Forall (λ v, is_Some (ra_key v)) vs) then
    ∃ w', open_pg_tde_perform_rotate_server_key pk pk' true w = Ok tt w' ∧
      wal_file_rep (w_fs w') pk' vs ∧
      w_xlog w' = w_xlog w ++ [XLOG_TDE_ROTATE_PRINCIPAL_KEY (rotate_record pk')]
  else
    ∃ e w', open_pg_tde_perform_rotate_server_key pk pk' true w = Err e w' ∧ w_fs w' !! wal_path = w_fs w !! wal_path.
Proof.
  intros Hpk Hpk' Hrep. destruct (decide _) as [Hall|Hnot].
  - destruct (rotate_server_key_spec pk pk' vs true w Hpk Hpk' Hrep Hall) as (w' & E & ? & ? & _). by exists w'.
  - apply (undecryptable_range_blocks pk pk' vs true w Hpk Hpk' Hrep).
    apply not_Forall_Exists in Hnot; [|intros v; apply _]. eapply Exists_impl; [exact Hnot|]. intros v Hv. by apply eq_None_not_Some.
Qed.

End failures.

(** ** Examples *)

(** A server with a principal key and no ranges. *)
Definition pkg : TDEPrincipalKey := pk_example GLOBAL_DATA_TDE_OID x33.
Definition pkg' : TDEPrincipalKey := pk_example GLOBAL_DATA_TDE_OID x44.
Definition world_srv0 : World := set_pk_cache {[GLOBAL_DATA_TDE_OID := pkg]} world0.
Definition world_srv : World :=
  match open_pg_tde_save_server_key pkg false world_srv0 with Ok _ w | Err _ w => w end.

Lemma pkg_ok : pk_ok pkg.
Proof. apply pk_example_ok. unfold is_u32, GLOBAL_DATA_TDE_OID. lia. Defined.

Lemma pkg'_ok : pk_ok pkg'.
Proof. apply pk_example_ok. unfold is_u32, GLOBAL_DATA_TDE_OID. lia. Defined.

Lemma world_srv_facts :
  wal_rep world_srv pkg [] ∧ w_enc_lock world_srv = None ∧ w_wal world_srv = w_wal world0 ∧
  w_session world_srv = session0.
Proof.
  destruct (save_server_key_spec pkg false world_srv0 pkg_ok) as (w' & E & Hrep & Hc & Hl & Hw & Hs & _).
  assert (world_srv = w') as -> by (unfold world_srv; by rewrite E).
  split_and!; [|by rewrite Hl|by rewrite Hw|by rewrite Hs]. split_and!; [by rewrite Hc|apply pkg_ok|done].
Qed.

Definition loc100 : WalLocation := mkWalLocation 100 1.

(** Two ranges, the first one in use from location 100 on. *)
Definition ops_example : list WalOp :=
  [WalCreate WAL_ENCRYPTION_RANGE_ENCRYPTED 16; WalSetLocation loc100;
   WalCreate WAL_ENCRYPTION_RANGE_ENCRYPTED 32].

Lemma ops_example_valid : wal_ops_valid [] ops_example.
Proof.
  unfold ops_example, WAL_ENCRYPTION_RANGE_ENCRYPTED, loc100. simpl.
  unfold WalLocation_wf, is_u32, is_u64. simpl.
  split_and!; try done; try lia; by left || by right.
Defined.

Lemma wal_file_refines_witness :
  ∃ w' vs', run_wal_ops ops_example world_srv = Ok tt w' ∧ wal_rep w' pkg vs' ∧ usable vs' ∧
    shape <$> vs' = [(WAL_ENCRYPTION_RANGE_ENCRYPTED, loc100); (WAL_ENCRYPTION_RANGE_ENCRYPTED, loc_unset)] ∧
    w_enc_lock w' = None ∧ w_wal w' = w_wal world_srv.
Proof.
  destruct world_srv_facts as (Hrep & Hlock & _).
  exact (wal_file_refines pkg [] ops_example world_srv Hrep Hlock (Forall_nil_2 _) ops_example_valid).
Defined.

Lemma created_range_read_back_witness :
  ∃ r r' w', open_pg_tde_create_wal_range WAL_ENCRYPTION_RANGE_ENCRYPTED 32 world_srv = Ok r w' ∧
    open_pg_tde_read_last_wal_range w' = Ok (Some r') (use_prealloc w') ∧
    wr_type r' = WAL_ENCRYPTION_RANGE_ENCRYPTED ∧ wr_start r' = loc_unset ∧ wr_end r' = loc_infinity ∧
    key_equiv (wr_key r') (wr_key r).
Proof.
  destruct world_srv_facts as (Hrep & Hlock & _).
  refine (created_range_read_back WAL_ENCRYPTION_RANGE_ENCRYPTED 32 pkg [] world_srv Hrep Hlock _ _ _);
    [by right|unfold is_u32, WAL_ENCRYPTION_RANGE_ENCRYPTED; lia|simpl; lia].
Defined.

(** The server after these operations. *)
Definition world_ranges : World :=
  match run_wal_ops ops_example world_srv with Ok _ w | Err _ w => w end.

Lemma world_ranges_facts :
  ∃ vs, wal_rep world_ranges pkg vs ∧ usable vs ∧ w_enc_lock world_ranges = None ∧
    wal_key_cache (w_wal world_ranges) = [] ∧
    shape <$> vs = [(WAL_ENCRYPTION_RANGE_ENCRYPTED, loc100); (WAL_ENCRYPTION_RANGE_ENCRYPTED, loc_unset)].
Proof.
  destruct world_srv_facts as (Hrep & Hlock & Hw0 & _).
  destruct (run_wal_ops_spec pkg [] ops_example world_srv Hrep Hlock (Forall_nil_2 _) ops_example_valid)
    as (w' & vs & E & Hrep' & Hu & Hs & Hl & Hw).
  assert (world_ranges = w') as Hwr by (unfold world_ranges; by rewrite E).
  exists vs. rewrite Hwr. split_and!; [exact Hrep'|exact Hu|exact Hl| |exact Hs].
  by rewrite Hw, Hw0.
Qed.

Lemma fetch_builds_chain_witness :
  ∃ vs rs ret w', open_pg_tde_fetch_wal_keys (mkWalLocation 0 1) world_ranges = Ok ret w' ∧
    Forall2 range_view rs (filter (λ v, view_wanted (mkWalLocation 0 1) v = true) vs) ∧
    wal_key_cache (w_wal w') = chain rs ∧ (ret = None ↔ rs = []) ∧ w_fs w' = w_fs world_ranges.
Proof.
  destruct world_ranges_facts as (vs & Hrep & Hu & Hl & Hc & Hs). exists vs.
  refine (fetch_builds_chain (mkWalLocation 0 1) pkg vs world_ranges Hrep Hl _ Hu Hc).
  intros ->. done.
Defined.

Lemma server_rotation_keeps_ranges_witness :
  ∃ vs w', open_pg_tde_perform_rotate_server_key pkg pkg' true world_ranges = Ok tt w' ∧
    wal_file_rep (w_fs w') pkg' vs ∧
    w_xlog w' = w_xlog world_ranges ++ [XLOG_TDE_ROTATE_PRINCIPAL_KEY (rotate_record pkg')].
Proof.
  destruct world_ranges_facts as (vs & (_ & _ & Hrep) & Hu & _ & _ & Hs). exists vs.
  pose proof (server_rotation_keeps_ranges pkg pkg' vs world_ranges pkg_ok pkg'_ok Hrep) as H.
  rewrite decide_True in H; [exact H|]. apply usable_all; [exact Hu|]. rewrite Hs. by repeat constructor.
Defined.

(** A file with an entry that no key opens. *)
Definition signed_pkg : TDESignedPrincipalKeyInfo :=
  match open_pg_tde_sign_principal_key_info pkg world0 with
  | Ok s _ => s
  | Err _ _ => mkSignedPKInfo (pk_keyInfo pkg) [] []
  end.

Lemma signed_pkg_header : wal_header_for pkg (kf_new_header wal_kind signed_pkg).
Proof.
  destruct (sign_principal_key_info_spec pkg world0 pkg_ok) as (s & E & Hs1 & Hs2 & Hs3).
  unfold signed_pkg. rewrite E. by apply wal_new_header_for.
Qed.

Definition bad_entry : WalKeyFileEntry :=
  mkWalKeyFileEntry CIPHER_AES_128 WAL_ENCRYPTION_RANGE_INVALID (zeros 16) loc100 (zeros 16)
    (replicate 16 xff) (zeros 32).

Definition world_bad : World :=
  set_fs {[wal_path := wal_file (kf_new_header wal_kind signed_pkg) [bad_entry] []]} world_srv0.

(** The rotation of it fails. *)
Lemma bad_entry_blocks_rotation :
  ∃ e w', open_pg_tde_perform_rotate_server_key pkg pkg' true world_bad = Err e w' ∧
          w_fs w' !! wal_path = w_fs world_bad !! wal_path.
Proof.
  refine (undecryptable_range_blocks pkg pkg' [entry_view pkg bad_entry] true world_bad
            pkg_ok pkg'_ok _ _).
  - exists (kf_new_header wal_kind signed_pkg), [bad_entry].
    split_and!; [apply lookup_singleton_eq|apply signed_pkg_header| |done].
    split; [|done]. repeat constructor; simpl; unfold is_u32, is_u64; simpl; try done; lia.
  - constructor. vm_compute. done.
Qed.

(** A file of version 2 with one range. *)
Definition v2_entry : bytes :=
  let aad := enc_u32 CIPHER_AES_128 ++ enc_u32 WAL_ENCRYPTION_RANGE_ENCRYPTED in
  let '(ct, tag) := gcm_seal (pk_key_bytes pkg) iv_example aad (take 16 key_example) in
  aad ++ WalLocation_encode loc100 ++ iv_example ++ tag ++ iv_example ++ ct ++ zeros 16.

Definition v2_header : bytes :=
  KeyFileHeader_encode (mkKeyFileHeader 0x024B4557 (mkSignedPKInfo (pk_keyInfo pkg) iv_example iv_example)).

Definition world_v2 : World := set_fs {[wal_path := kfile id v2_header [v2_entry] []]} world_srv0.

Definition v2_range : WRange :=
  mkWRange WAL_ENCRYPTION_RANGE_ENCRYPTED loc100
    (Some (mkLKey CIPHER_AES_128 iv_example (take 16 key_example))).

Lemma wal_migration_keeps_ranges_witness :
  ∃ w', open_pg_tde_update_wal_keys_file world_v2 = Ok tt w' ∧ wal_rep w' pkg [v2_range] ∧
        w_enc_lock w' = None ∧ w_wal w' = w_wal world_v2 ∧
        ∀ q, q ≠ wal_path → q ≠ tmp_path wal_path → w_fs w' !! q = w_fs world_v2 !! q.
Proof.
  refine (wal_migration_keeps_ranges pkg v2_header [v2_entry] [v2_range] 104 meaning_v2 world_v2
            _ pkg_ok _ _ _ _ _ _ _); [done|done|done|vm_compute; done| | | |done].
  - assert (FILEMAGIC_VERSION (fh_file_version (KeyFileHeader_decode v2_header)) = 2) as ->
      by (vm_compute; reflexivity). reflexivity.
  - repeat constructor; vm_compute; done.
  - repeat constructor; vm_compute; done.
Defined.

(** A replica that receives the WAL again from the start of a segment: the
    second range starts where the first one did. *)
Definition ops_replica : list WalOp :=
  [WalCreate WAL_ENCRYPTION_RANGE_ENCRYPTED 16; WalSetLocation loc100;
   WalCreate WAL_ENCRYPTION_RANGE_ENCRYPTED 16; WalSetLocation loc100].

Definition rotate_after (os : list WalOp) : M unit :=
  run_wal_ops os;; open_pg_tde_perform_rotate_server_key pkg pkg' true.

Definition err_of {A} (r : Res A) : option error := match r with Ok _ _ => None | Err e _ => Some e end.

(** Setting a location invalidates the previous range by changing its type
    in the file, but the type is part of the authenticated data: from then on
    the server's principal key cannot be rotated. *)
Theorem invalidated_range_blocks_rotation :
  err_of (run_wal_ops ops_replica world_srv) = None ∧
  err_of (rotate_after ops_replica world_srv) =
    Some (mkError ERROR "Failed to decrypt key, incorrect principal key or corrupted key file").
Proof. split; vm_compute; reflexivity. Qed.

(** Uninitialised memory that starts with the given bytes. *)
Definition StackKernel (b : bytes) : Kernel :=
  {| sys_fault _ _ := None; data_sync_retry := false; junk _ _ n := take n (b ++ zeros n) |}.

Definition world_empty_wal : World := set_fs {[wal_path := []]} world_srv0.

(** The migration decides about an empty key file by the version in a header
    that was never filled in: what the stack contains makes the difference
    between a server that starts and one that does not. *)
Theorem empty_wal_file_reads_stack :
  open_pg_tde_update_wal_keys_file (K := StackKernel (enc_u32 OPEN_PG_TDE_WAL_KEY_FILE_MAGIC))
    world_empty_wal = Ok tt world_empty_wal ∧
  open_pg_tde_update_wal_keys_file (K := StackKernel []) world_empty_wal =
    Err (mkError ERROR "wal_keys migration: unsupported or corrupted old file version") world_empty_wal.
Proof. split; reflexivity. Qed.
