(* ===== verification/XLogSmgr.v ===== *)
(** access/open_pg_tde_xlog_smgr.c: encryption of WAL segments.

    A write uses the current range of the process if the location is at or
    after the start of that range, and otherwise the ranges in the cache, as a
    read does. A segment file is its name; the buffer arguments are byte lists
    and a function returns the buffer it fills.

    The buffer [EncryptionBuf] in shared memory is overwritten by each use; its
    previous contents are taken as uninitialised memory. *)
From S2P Require Import Prelude Types Environ Instances Ciphers EncTde KeyFile KeyMap WalKeys.

(** ** access/xlog_internal.h *)

Definition XLogSegNoOffsetToRecPtr (segno offset segSize : Z) : Z := u64 (segno * segSize + offset).
Definition XLogSegmentOffset (xlogptr segSize : Z) : Z := Z.land xlogptr (segSize - 1).

(** ** The IV of a segment *)

(** [base.a[i] = base_iv[15 - i]]: the base IV is a big-endian number. *)
Definition CalcXLogPageIVPrefix (tli lsn : Z) (base_iv : bytes) : bytes :=
  let base := le_dec (rev base_iv) in
  let base := Z.land base (u128 (Z.lnot (u128 (Z.shiftl 1 32)))) in
  let offset := Z.lor (u128 (Z.shiftl tli 112)) (u128 (Z.shiftl lsn 32)) in
  let iv := u128 (base + offset) in
  rev (le_enc 16 iv).

(** The version for compilers without 128-bit integers. *)
Definition CalcXLogPageIVPrefix_fallback (tli lsn : Z) (base_iv : bytes) : bytes :=
  let base := rev base_iv in
  let base_lo := le_dec (slice 0 8 base) in
  let base_hi := le_dec (slice 8 8 base) in
  let base_lo := Z.land base_lo (u64 (Z.lnot (u64 (Z.shiftl 1 32)))) in
  let offset_lo := u64 (Z.shiftl lsn 32) in
  let offset_hi := Z.lor (Z.shiftr lsn 32) (u64 (Z.shiftl (Z.land tli 0xFFFF) 48)) in
  let iv_lo := u64 (base_lo + offset_lo) in
  let carry := if iv_lo <? base_lo then 1 else 0 in
  let iv_hi := u64 (base_hi + offset_hi + carry) in
  rev (le_enc 8 iv_lo ++ le_enc 8 iv_hi).

Section xlog_smgr.
Context {SSL : OpenSSL} {K : Kernel}.

(** ** State *)

Definition TDEXLogGetEncKeyLsn : M Z := gets (λ w, enc_key_lsn (w_xsmgr w)).
Definition TDEXLogGetEncKeyTli : M Z := gets (λ w, enc_key_tli (w_xsmgr w)).

Definition TDEXLogSetEncKeyLocation (loc : WalLocation) : M unit :=
  modify (λ w, set_xsmgr (mkXLogSmgrState (CurrentWalEncryptionRange (w_xsmgr w))
                            (EncryptionCryptCtx (w_xsmgr w)) (wl_tli loc) (wl_lsn loc)) w).

Definition set_current_range (r : WalEncryptionRange) : M unit :=
  modify (λ w, set_xsmgr (mkXLogSmgrState r (EncryptionCryptCtx (w_xsmgr w))
                            (enc_key_tli (w_xsmgr w)) (enc_key_lsn (w_xsmgr w))) w).

Definition set_EncryptionCryptCtx (c : option EVP_CIPHER_CTX) : M unit :=
  modify (λ w, set_xsmgr (mkXLogSmgrState (CurrentWalEncryptionRange (w_xsmgr w)) c
                            (enc_key_tli (w_xsmgr w)) (enc_key_lsn (w_xsmgr w))) w).

(** [rec->crypt_ctx = ctx] for the record at a position of the cache *)
Definition set_rec_ctx (i : nat) (ctx : option EVP_CIPHER_CTX) : M unit :=
  modify (λ w, set_wal (mkWalCacheState
                          (alter (λ r, mkWALKeyCacheRec (rec_range r) ctx) i (wal_key_cache (w_wal w)))
                          (wal_prealloc_record (w_wal w)) (wal_prealloc_range (w_wal w))) w).

(** ** Encryption with the ranges of the cache *)

(** The part of the buffer between two LSNs, with the key of a record. [data]
    is [None] when the buffers [buf] and [out_buf] of the code are the same. *)
Definition crypt_part (i : nat) (curr_key : WALKeyCacheRec) (data : option bytes) (out : bytes)
  (count offset tli segno segSize start_lsn end_lsn : Z) : M bytes :=
  let key := wr_key (rec_range curr_key) in
  let dec_off := XLogSegmentOffset start_lsn segSize in
  let dec_end := XLogSegmentOffset end_lsn segSize in
  let iv_prefix := CalcXLogPageIVPrefix tli segno (ik_base_iv key) in
  let dec_end := if dec_end =? 0 then offset + count else dec_end in
  let dec_sz := u64 (dec_end - dec_off) in
  let d := Z.to_nat (dec_off - offset) in
  '(o, ctx) ← open_pg_tde_stream_crypt iv_prefix (u32 dec_off) (drop d <$> data) (u32 dec_sz)
                (drop d out) (ik_key key) (ik_key_len key) (rec_crypt_ctx curr_key);
  set_rec_ctx i ctx;;
  mret (take d out ++ o).

(** The part of the buffer that belongs to the range of one record. *)
Definition crypt_record (i : nat) (curr_key : WALKeyCacheRec) (data : option bytes) (out : bytes)
  (count offset tli segno segSize : Z) (data_start data_end : WalLocation) : M bytes :=
  let range := rec_range curr_key in
  if wal_location_valid (wr_start range) && (wr_type range =? WAL_ENCRYPTION_RANGE_ENCRYPTED) then
    if (wal_location_cmp data_start (wr_end range) <? 0) &&
       (0 <? wal_location_cmp data_end (wr_start range)) then
      let end_lsn := if wl_tli data_end <? wl_tli (wr_end range) then wl_lsn data_end
                     else Z.min (wl_lsn data_end) (wl_lsn (wr_end range)) in
      let start_lsn := if wl_tli (wr_start range) <? wl_tli data_start then wl_lsn data_start
                       else Z.max (wl_lsn data_start) (wl_lsn (wr_start range)) in
      crypt_part i curr_key data out count offset tli segno segSize start_lsn end_lsn
    else mret out
  else mret out.

(** The records from position [i] on; [n] is at least their number. *)
Fixpoint crypt_loop (n i : nat) (data : option bytes) (out : bytes)
  (count offset tli segno segSize : Z) (data_start data_end : WalLocation) : M bytes :=
  match n with
  | O => mret out
  | S n =>
      r ← gets (λ w, wal_key_cache (w_wal w) !! i);
      match r with
      | None => mret out
      | Some curr_key =>
          out ← crypt_record i curr_key data out count offset tli segno segSize data_start data_end;
          crypt_loop n (S i) data out count offset tli segno segSize data_start data_end
      end
  end.

Context {PKS : PrincipalKeys}.

Definition first_location : WalLocation := mkWalLocation 0 1.

(** Which record to start from: the cache is filled if it is empty, and
    extended if a write has set the start of a newer range. *)
Definition crypt_keys : M (option nat) :=
  keys ← open_pg_tde_get_wal_cache_keys;
  keys ← match keys with
         | None => open_pg_tde_fetch_wal_keys first_location
         | Some k => mret (Some k)
         end;
  write_key_lsn ← TDEXLogGetEncKeyLsn;
  if negb (write_key_lsn =? InvalidXLogRecPtr) then
    last_key ← open_pg_tde_get_last_wal_key;
    write_tli ← TDEXLogGetEncKeyTli;
    let write_loc := mkWalLocation write_key_lsn write_tli in
    r ← gets (λ w, l ← last_key; wal_key_cache (w_wal w) !! l);
    match r with
    | Some rec =>
        if wal_location_cmp (wr_start (rec_range rec)) write_loc <? 0 then
          open_pg_tde_fetch_wal_keys write_loc;;
          open_pg_tde_get_wal_cache_keys
        else mret keys
    | None => mret keys
    end
  else mret keys.

Definition TDEXLogCryptBuffer (data : option bytes) (out : bytes) (count offset tli segno segSize : Z)
  : M bytes :=
  keys ← crypt_keys;
  let data_start := mkWalLocation (XLogSegNoOffsetToRecPtr segno offset segSize) tli in
  let data_end := mkWalLocation (XLogSegNoOffsetToRecPtr segno (offset + count) segSize) tli in
  match keys with
  | None => mret out
  | Some i =>
      n ← gets (λ w, length (wal_key_cache (w_wal w)));
      crypt_loop n i data out count offset tli segno segSize data_start data_end
  end.

(** ** Writing *)

(** Both return what [pg_pwrite] returns. *)
Definition TDEXLogWriteEncryptedPagesOldKeys (fd : string) (buf : bytes) (count offset tli segno segSize : Z)
  : M Z :=
  enc_buff ← TDEXLogCryptBuffer (Some buf) buf count offset tli segno segSize;
  pg_pwrite fd enc_buff offset.

Definition TDEXLogWriteEncryptedPages (fd : string) (buf : bytes) (count offset tli segno : Z) : M Z :=
  range ← gets (λ w, CurrentWalEncryptionRange (w_xsmgr w));
  enc_buff ← uninit (Z.to_nat count);
  let iv_prefix := CalcXLogPageIVPrefix tli segno (ik_base_iv (wr_key range)) in
  ctx ← gets (λ w, EncryptionCryptCtx (w_xsmgr w));
  '(enc_buff, ctx) ← open_pg_tde_stream_crypt iv_prefix (u32 offset) (Some buf) (u32 count) enc_buff
                       (ik_key (wr_key range)) (ik_key_len (wr_key range)) ctx;
  set_EncryptionCryptCtx ctx;;
  pg_pwrite fd enc_buff offset.

Definition tde_ensure_xlog_key_location (loc : WalLocation) : M bool :=
  crashRecovery ← gets (λ w, InCrashRecovery (w_session w));
  lsn ← TDEXLogGetEncKeyLsn;
  tli ← TDEXLogGetEncKeyTli;
  let writeKeyLoc := mkWalLocation lsn tli in
  let lastKeyUsable := negb (lsn =? 0) in
  let afterWriteKey := wal_location_cmp writeKeyLoc loc <=? 0 in
  range ← gets (λ w, CurrentWalEncryptionRange (w_xsmgr w));
  lastKeyUsable ←
    (if negb (wr_type range =? WAL_ENCRYPTION_RANGE_INVALID) && negb lastKeyUsable && afterWriteKey &&
        negb crashRecovery then
       last_key ← open_pg_tde_get_last_wal_key;
       r ← gets (λ w, l ← last_key; wal_key_cache (w_wal w) !! l);
       if match r with
          | None => true
          | Some rec => wal_location_cmp (wr_start (rec_range rec)) loc <? 0
          end
       then
         open_pg_tde_wal_last_range_set_location loc;;
         set_current_range (mkWalRange (wr_type range) (wr_key range) loc (wr_end range));;
         TDEXLogSetEncKeyLocation loc;;
         mret true
       else mret lastKeyUsable
     else mret lastKeyUsable);
  mret (lastKeyUsable && afterWriteKey).

Definition tdeheap_xlog_seg_write (fd : string) (buf : bytes) (count offset tli segno segSize : Z) : M Z :=
  let loc := mkWalLocation (XLogSegNoOffsetToRecPtr segno offset segSize) tli in
  lastKeyUsable ← tde_ensure_xlog_key_location loc;
  range ← gets (λ w, CurrentWalEncryptionRange (w_xsmgr w));
  if negb lastKeyUsable && negb (wr_type range =? WAL_ENCRYPTION_RANGE_INVALID) then
    TDEXLogWriteEncryptedPagesOldKeys fd buf count offset tli segno segSize
  else if wr_type range =? WAL_ENCRYPTION_RANGE_ENCRYPTED then
    TDEXLogWriteEncryptedPages fd buf count offset tli segno
  else pg_pwrite fd buf offset.

(** ** Reading *)

(** Returns the number of bytes read and the caller's buffer. All of the buffer
    is decrypted, also the part after the bytes that were read. *)
Definition tdeheap_xlog_seg_read (fd : string) (buf : bytes) (count offset tli segno segSize : Z)
  : M (Z * bytes) :=
  r ← pg_pread fd count offset;
  match r with
  | None => mret (-1, buf)
  | Some bs =>
      let readsz := Z.of_nat (length bs) in
      if readsz <=? 0 then mret (readsz, buf)
      else
        buf ← TDEXLogCryptBuffer None (write_at 0 bs buf) count offset tli segno segSize;
        mret (readsz, buf)
  end.

(** ** Initialisation *)

Definition TDEXLogSmgrInitWrite (encrypt_xlog : bool) (key_len : Z) : M unit :=
  open_pg_tde_free_wal_key_cache;;
  range ← open_pg_tde_read_last_wal_range;
  under_postmaster ← gets (λ w, IsUnderPostmaster (w_session w));
  (if under_postmaster : bool then
     match range with Some r => set_current_range r | None => mret tt end
   else if encrypt_xlog then
     r ← open_pg_tde_create_wal_range WAL_ENCRYPTION_RANGE_ENCRYPTED key_len;
     set_current_range r
   else
     match range with
     | Some r =>
         if wr_type r =? WAL_ENCRYPTION_RANGE_ENCRYPTED then
           r ← open_pg_tde_create_wal_range WAL_ENCRYPTION_RANGE_UNENCRYPTED key_len;
           set_current_range r
         else
           set_current_range r;;
           TDEXLogSetEncKeyLocation (wr_start r)
     | None => mret tt
     end);;
  keys ← open_pg_tde_get_wal_cache_keys;
  match keys with
  | None => open_pg_tde_fetch_wal_keys first_location;; open_pg_tde_wal_cache_extra_palloc
  | Some _ => mret tt
  end.

Definition dummy_range : WalEncryptionRange :=
  mkWalRange WAL_ENCRYPTION_RANGE_UNENCRYPTED
    (mkInternalKey 0 0 (zeros INTERNAL_KEY_IV_LEN) (zeros INTERNAL_KEY_MAX_LEN))
    (mkWalLocation MaxXLogRecPtr MaxTimeLineID) (mkWalLocation MaxXLogRecPtr MaxTimeLineID).

Definition TDEXLogSmgrInitWriteOldKeys : M unit :=
  set_current_range dummy_range;;
  TDEXLogSetEncKeyLocation (wr_start dummy_range);;
  keys ← open_pg_tde_get_wal_cache_keys;
  match keys with
  | None => open_pg_tde_fetch_wal_keys first_location;; mret tt
  | Some _ => mret tt
  end.

End xlog_smgr.
