(* ===== verification/XLogSmgrSpec.v ===== *)
(** What encrypting a piece of WAL means, and that XLogSmgr does it.

    Each byte of the WAL has a location, a timeline and an LSN. [crypt_ref]
    combines each byte with the key stream of the range its location belongs
    to; [TDEXLogCryptBuffer] computes it, whatever the borders of the ranges
    are. A segment that was written by one process is read back by another one
    that finds the ranges in the key file. *)
From S2P Require Import Prelude Types Environ Instances Ciphers EncTde KeyFile KeyMap KeyMapSpec WalKeys.
From S2P Require Import WalKeysSpec WalKeysThms XLogSmgr.

(** ** Segments *)

(** A piece of a segment: sizes that PostgreSQL allows, and an LSN that fits. *)
Record Piece := mkPiece { p_count : Z; p_offset : Z; p_tli : Z; p_segno : Z; p_segSize : Z }.

Definition piece_ok (p : Piece) : Prop :=
  (∃ n, 0 <= n <= 30 ∧ p_segSize p = 2 ^ n) ∧ 0 <= p_offset p ∧ 0 < p_count p ∧
  p_offset p + p_count p <= p_segSize p ∧ is_u32 (p_tli p) ∧ 0 <= p_segno p ∧
  (p_segno p + 1) * p_segSize p < 2 ^ 64.

(** The location of a byte of the piece. *)
Definition piece_loc (p : Piece) (i : nat) : WalLocation :=
  mkWalLocation (p_segno p * p_segSize p + p_offset p + Z.of_nat i) (p_tli p).

Definition range_active (r : WalEncryptionRange) : bool :=
  wal_location_valid (wr_start r) && (wr_type r =? WAL_ENCRYPTION_RANGE_ENCRYPTED).

(** The location is in an encrypted range. *)
Definition covers (l : WalLocation) (r : WalEncryptionRange) : bool :=
  range_active r && (wal_location_cmp (wr_start r) l <=? 0) && (wal_location_cmp l (wr_end r) <? 0).

Definition disjoint_ranges (rs : list WalEncryptionRange) : Prop :=
  ∀ i j r1 r2, rs !! i = Some r1 → rs !! j = Some r2 → (i < j)%nat → wl_le (wr_end r1) (wr_start r2).

Lemma covers_true l r :
  covers l r = true ↔ range_active r = true ∧ wl_le (wr_start r) l ∧ wl_lt l (wr_end r).
Proof.
  unfold covers, wl_le. rewrite !andb_true_iff, Z.leb_le, Z.ltb_lt.
  rewrite <-!wal_location_cmp_lt, <-wal_location_cmp_eq.
  split; intros; destruct_and!; split_and!; try done; lia.
Qed.

Lemma wl_le_lt_trans a b c : wl_le a b → wl_lt b c → wl_lt a c.
Proof. intros [H| ->] H2; [by etrans|done]. Qed.

Lemma wl_lt_le_trans a b c : wl_lt a b → wl_le b c → wl_lt a c.
Proof. intros H [H2| ->]; [by etrans|done]. Qed.

Lemma wl_le_trans a b c : wl_le a b → wl_le b c → wl_le a c.
Proof. intros [H| ->] H2; [left; by eapply wl_lt_le_trans|done]. Qed.

Lemma wl_lt_absurd a : ¬ wl_lt a a.
Proof. apply (irreflexivity wl_lt). Qed.

(** A location is in one range at most. *)
Lemma covers_disjoint rs i j r1 r2 l :
  disjoint_ranges rs → rs !! i = Some r1 → rs !! j = Some r2 → (i < j)%nat →
  covers l r1 = true → covers l r2 = false.
Proof.
  intros Hd H1 H2 Hij C1. destruct (covers l r2) eqn:C2; [|done].
  apply covers_true in C1 as (_ & _ & C1). apply covers_true in C2 as (_ & C2 & _).
  pose proof (Hd i j r1 r2 H1 H2 Hij) as Hle. exfalso. apply (wl_lt_absurd l).
  eapply wl_lt_le_trans; [exact C1|]. destruct Hle as [Hle|Hle].
  - left. eapply wl_lt_le_trans; [exact Hle|exact C2].
  - rewrite Hle. exact C2.
Qed.

(** ** The reference *)

Section reference.
Context {SSL : OpenSSL} {Spec : OpenSSLSpec SSL}.

Definition xor_at (r : WalEncryptionRange) (tli segno pos : Z) (b : byte) : byte :=
  byte_xor b (keystream_byte (ik_key_bytes (wr_key r))
                (CalcXLogPageIVPrefix tli segno (ik_base_iv (wr_key r))) pos).

(** Every byte with the key stream of the range it is in. *)
Definition crypt_byte (rs : list WalEncryptionRange) (p : Piece) (i : nat) (b : byte) : byte :=
  match find (covers (piece_loc p i)) rs with
  | Some r => xor_at r (p_tli p) (p_segno p) (p_offset p + Z.of_nat i) b
  | None => b
  end.

Definition crypt_ref (rs : list WalEncryptionRange) (p : Piece) (d : bytes) : bytes :=
  imap (crypt_byte rs p) d.

Lemma crypt_ref_involutive rs p d : crypt_ref rs p (crypt_ref rs p d) = d.
Proof.
  apply list_eq. intros i. unfold crypt_ref. rewrite !list_lookup_imap.
  destruct (d !! i) as [b|]; simpl; [|done]. f_equal. unfold crypt_byte.
  destruct (find _ _); [|done]. unfold xor_at. apply byte_xor_involutive.
Qed.

Lemma crypt_ref_length rs p d : length (crypt_ref rs p d) = length d.
Proof. apply length_imap. Qed.

(** ** One record *)

Definition rec_ok (rec : WALKeyCacheRec) : Prop :=
  let r := rec_range rec in
  WalLocation_wf (wr_start r) ∧ WalLocation_wf (wr_end r) ∧ wl_lt (wr_start r) (wr_end r) ∧
  (wr_type r = WAL_ENCRYPTION_RANGE_ENCRYPTED →
   wal_key_wf (wr_key r) ∧ ecb_ctx_ok (ik_key (wr_key r)) (ik_key_len (wr_key r)) (rec_crypt_ctx rec)).

Lemma wal_key_stream k : wal_key_wf k → gcm_key_len_ok (ik_key k) (ik_key_len k).
Proof.
  intros [(Hc & _ & Hl) Hle]. pose proof (cipher_len_cases _ _ Hc) as Hn.
  unfold gcm_key_len_ok. lia.
Qed.

(** Borders of the part of a piece that belongs to a range. *)
Definition part_start (r : WalEncryptionRange) (p : Piece) : Z :=
  let l := wl_lsn (piece_loc p 0) in
  if wl_tli (wr_start r) <? p_tli p then l else Z.max l (wl_lsn (wr_start r)).
Definition part_end (r : WalEncryptionRange) (p : Piece) : Z :=
  let l := wl_lsn (piece_loc p (Z.to_nat (p_count p))) in
  if p_tli p <? wl_tli (wr_end r) then l else Z.min l (wl_lsn (wr_end r)).

(** The part is not empty, lies in the piece and is what the range covers. *)
Lemma part_bounds r p :
  piece_ok p → wl_lt (wr_start r) (wr_end r) →
  wl_lt (piece_loc p 0) (wr_end r) → wl_lt (wr_start r) (piece_loc p (Z.to_nat (p_count p))) →
  let l := p_segno p * p_segSize p + p_offset p in
  l <= part_start r p < part_end r p ∧ part_end r p <= l + p_count p ∧
  ∀ i, (i < Z.to_nat (p_count p))%nat →
    (wl_le (wr_start r) (piece_loc p i) ∧ wl_lt (piece_loc p i) (wr_end r) ↔
     part_start r p <= l + Z.of_nat i < part_end r p).
Proof.
  intros (_ & Ho & Hcnt & _) Hse H1 H2. unfold part_start, part_end, piece_loc, wl_lt, wl_le in *.
  destruct (wr_start r) as [sl st], (wr_end r) as [el et]. simpl in *.
  destruct (Z.ltb_spec st (p_tli p)), (Z.ltb_spec (p_tli p) et); split_and!; try lia;
    intros i Hi; unfold wl_lt; simpl; (split; [intros [[?|?] ?]; simplify_eq/=; lia|]); intros ?;
    (split; [|lia]); try (left; lia);
    destruct (decide (sl = p_segno p * p_segSize p + p_offset p + Z.of_nat i));
    (right; f_equal; lia) || (left; lia).
Qed.

End reference.

(** ** [crypt_record] *)

Section records.
Context {SSL : OpenSSL} {Spec : OpenSSLSpec SSL} {K : Kernel}.

Definition piece_start (p : Piece) : WalLocation :=
  mkWalLocation (XLogSegNoOffsetToRecPtr (p_segno p) (p_offset p) (p_segSize p)) (p_tli p).
Definition piece_end (p : Piece) : WalLocation :=
  mkWalLocation (XLogSegNoOffsetToRecPtr (p_segno p) (p_offset p + p_count p) (p_segSize p)) (p_tli p).

Lemma piece_start_eq p : piece_ok p → piece_start p = piece_loc p 0.
Proof.
  intros (_ & Ho & Hc & Hle & _ & Hs & Hmax). unfold piece_start, piece_loc, XLogSegNoOffsetToRecPtr.
  rewrite u64_small by (unfold is_u64; nia). f_equal. lia.
Qed.

Lemma piece_end_eq p : piece_ok p → piece_end p = piece_loc p (Z.to_nat (p_count p)).
Proof.
  intros (_ & Ho & Hc & Hle & _ & Hs & Hmax). unfold piece_end, piece_loc, XLogSegNoOffsetToRecPtr.
  rewrite u64_small by (unfold is_u64; nia). f_equal. lia.
Qed.

(** Offsets in the segment. *)
Lemma segment_offset p x :
  piece_ok p → 0 <= x < p_segSize p → XLogSegmentOffset (p_segno p * p_segSize p + x) (p_segSize p) = x.
Proof.
  intros ((n & Hn & Hsz) & _ & _ & _ & _ & Hs & _) Hx. unfold XLogSegmentOffset. rewrite Hsz in *.
  replace (2 ^ n - 1) with (Z.ones n) by (rewrite Z.ones_equiv; lia).
  rewrite Z.land_ones by lia. rewrite Z.add_comm, Z.mod_add by lia. by apply Z.mod_small.
Qed.

Lemma segment_end p : piece_ok p → XLogSegmentOffset ((p_segno p + 1) * p_segSize p) (p_segSize p) = 0.
Proof.
  intros ((n & Hn & Hsz) & _). unfold XLogSegmentOffset. rewrite Hsz.
  replace (2 ^ n - 1) with (Z.ones n) by (rewrite Z.ones_equiv; lia).
  rewrite Z.land_ones by lia. apply Z.mod_mul. lia.
Qed.

Lemma CalcXLogPageIVPrefix_length tli segno iv : length (CalcXLogPageIVPrefix tli segno iv) = 16%nat.
Proof. unfold CalcXLogPageIVPrefix. by rewrite length_rev, le_enc_length. Qed.

(** The end of a part, as the code computes it. *)
Lemma part_end_offset e p :
  piece_ok p → p_offset p < e <= p_offset p + p_count p →
  let x := XLogSegmentOffset (p_segno p * p_segSize p + e) (p_segSize p) in
  (if x =? 0 then p_offset p + p_count p else x) = e.
Proof.
  intros Hp H x. pose proof Hp as (_ & Ho & Hc & Hle & _).
  destruct (decide (e = p_segSize p)) as [E|E].
  - unfold x. replace (_ + _) with ((p_segno p + 1) * p_segSize p) by lia.
    rewrite segment_end by done. simpl. lia.
  - unfold x. rewrite segment_offset by (done || lia). by rewrite (proj2 (Z.eqb_neq _ _)) by lia.
Qed.

(** The bytes of a buffer after a part of it was replaced. *)
Lemma splice_lookup (out src : bytes) (d n : nat) (f : nat → byte → byte) k b :
  length out = length src → (d + n ≤ length src)%nat → src !! k = Some b →
  (take d out ++ imap (λ j x, f (d + j)%nat x) (take n (drop d src)) ++ drop n (drop d out)) !! k =
    if decide (d ≤ k < d + n)%nat then Some (f k b) else out !! k.
Proof.
  intros Hl Hd Hk. pose proof (lookup_lt_Some _ _ _ Hk).
  assert (length (take d out) = d) as H1 by (rewrite length_take; lia).
  assert (length (imap (λ j x, f (d + j)%nat x) (take n (drop d src))) = n) as H2
    by (rewrite length_imap, length_take, length_drop; lia).
  case_decide as Hin.
  - rewrite lookup_app_r by lia. rewrite lookup_app_l by lia.
    rewrite list_lookup_imap, lookup_take_lt, lookup_drop by lia. rewrite H1.
    replace (d + (k - d))%nat with k by lia. by rewrite Hk.
  - destruct (decide (k < d)%nat).
    + rewrite lookup_app_l by lia. by rewrite lookup_take_lt by lia.
    + rewrite lookup_app_r, lookup_app_r by lia. rewrite !lookup_drop. f_equal. lia.
Qed.

Definition update_ctx (c : list WALKeyCacheRec) (i : nat) (rec : WALKeyCacheRec) (ctx : option EVP_CIPHER_CTX) :=
  <[i := mkWALKeyCacheRec (rec_range rec) ctx]> c.

Definition with_recs (c : list WALKeyCacheRec) (w : World) : World :=
  with_cache c (wal_prealloc_record (w_wal w)) (wal_prealloc_range (w_wal w)) w.

Lemma with_recs_id w i rec :
  wal_key_cache (w_wal w) !! i = Some rec →
  with_recs (update_ctx (wal_key_cache (w_wal w)) i rec (rec_crypt_ctx rec)) w = w.
Proof.
  intros H. unfold with_recs, with_cache, update_ctx.
  replace (mkWALKeyCacheRec (rec_range rec) (rec_crypt_ctx rec)) with rec by (by destruct rec).
  rewrite list_insert_id by done. by destruct w as [? ? ? ? ? ? ? ? ? ? [] ? ? ? ? ?].
Qed.

(** A part of a piece, given by its offsets in the segment. *)
Lemma crypt_part_spec i rec src in_place out p s e w :
  piece_ok p → wal_key_wf (wr_key (rec_range rec)) → wal_key_cache (w_wal w) !! i = Some rec →
  ecb_ctx_ok (ik_key (wr_key (rec_range rec))) (ik_key_len (wr_key (rec_range rec))) (rec_crypt_ctx rec) →
  Z.of_nat (length src) = p_count p → length out = length src → (in_place = true → src = out) →
  p_offset p <= s < e → e <= p_offset p + p_count p →
  let L := p_segno p * p_segSize p in
  ∃ out' ctx,
    crypt_part i rec (if in_place : bool then None else Some src) out (p_count p) (p_offset p)
      (p_tli p) (p_segno p) (p_segSize p) (L + s) (L + e) w =
      Ok out' (with_recs (update_ctx (wal_key_cache (w_wal w)) i rec ctx) w) ∧
    ecb_ctx_ok (ik_key (wr_key (rec_range rec))) (ik_key_len (wr_key (rec_range rec))) ctx ∧
    length out' = length src ∧
    ∀ k b, src !! k = Some b →
      out' !! k = if decide (s <= p_offset p + Z.of_nat k < e)
                  then Some (xor_at (rec_range rec) (p_tli p) (p_segno p) (p_offset p + Z.of_nat k) b)
                  else out !! k.
Proof.
  intros Hp Hkey Hi Hctx Hls Hlo Hin Hs He L. pose proof Hp as ((n & Hn & Hsz) & Ho & Hcnt & Hle & _).
  assert (p_segSize p <= 2 ^ 30) by (rewrite Hsz; apply Z.pow_le_mono_r; lia).
  unfold crypt_part, L. rewrite part_end_offset, segment_offset by (done || lia). cbv zeta.
  rewrite (u64_small (e - s)) by (unfold is_u64; lia).
  rewrite !u32_small by (unfold is_u32; lia).
  set (d := Z.to_nat (s - p_offset p)). set (iv := CalcXLogPageIVPrefix _ _ _).
  destruct (stream_crypt_ref iv s (drop d src) in_place (e - s) (drop d out)
    (ik_key (wr_key (rec_range rec))) (ik_key_len (wr_key (rec_range rec))) (rec_crypt_ctx rec) w)
    as (ctx & E & Hctx'); try done; try lia.
  { by apply wal_key_stream. } { unfold iv. rewrite CalcXLogPageIVPrefix_length. lia. }
  { rewrite length_drop. lia. } { rewrite length_drop. lia. } { intros ->. by rewrite Hin. }
  replace (drop d <$> (if in_place then None else Some src))
    with (if in_place then None else Some (drop d src)) by (by destruct in_place).
  rewrite (bind_ok _ _ _ _ _ E). eexists _, ctx. split_and!; [|done| |].
  - unfold set_rec_ctx. mstep. unfold mret, M_ret. f_equal. unfold with_recs, with_cache, update_ctx.
    do 2 f_equal. by rewrite (alter_as_insert _ _ _ _ Hi).
  - rewrite !length_app, length_take, stream_ref_length, length_take, !length_drop. lia.
  - intros k b Hk.
    pose proof (splice_lookup out src d (Z.to_nat (e - s))
      (λ j x, xor_at (rec_range rec) (p_tli p) (p_segno p) (p_offset p + Z.of_nat j) x) k b Hlo ltac:(lia) Hk)
      as Hsp.
    assert (stream_ref (take (Z.to_nat (ik_key_len (wr_key (rec_range rec)))) (ik_key (wr_key (rec_range rec))))
              iv s (take (Z.to_nat (e - s)) (drop d src)) =
            imap (λ j x, xor_at (rec_range rec) (p_tli p) (p_segno p) (p_offset p + Z.of_nat (d + j)) x)
              (take (Z.to_nat (e - s)) (drop d src))) as ->.
    { unfold stream_ref. apply imap_ext. intros j x _. unfold xor_at, ik_key_bytes. do 2 f_equal. lia. }
    rewrite Hsp. destruct (decide (d ≤ k < d + Z.to_nat (e - s))%nat), (decide (s <= p_offset p + Z.of_nat k < e));
      done || lia.
Qed.

Lemma crypt_record_spec i rec src in_place out p w :
  piece_ok p → rec_ok rec → wal_key_cache (w_wal w) !! i = Some rec →
  Z.of_nat (length src) = p_count p → length out = length src → (in_place = true → src = out) →
  ∃ out' ctx,
    crypt_record i rec (if in_place : bool then None else Some src) out (p_count p) (p_offset p)
      (p_tli p) (p_segno p) (p_segSize p) (piece_start p) (piece_end p) w =
      Ok out' (with_recs (update_ctx (wal_key_cache (w_wal w)) i rec ctx) w) ∧
    rec_ok (mkWALKeyCacheRec (rec_range rec) ctx) ∧ length out' = length src ∧
    ∀ k b, src !! k = Some b →
      out' !! k = if covers (piece_loc p k) (rec_range rec)
                  then Some (xor_at (rec_range rec) (p_tli p) (p_segno p) (p_offset p + Z.of_nat k) b)
                  else out !! k.
Proof.
  intros Hp Hrec Hi Hls Hlo Hin. pose proof Hrec as (Hws & Hwe & Hse & Hkey).
  unfold crypt_record. set (r := rec_range rec) in *. fold (range_active r).
  assert (∀ o, (∀ k b, src !! k = Some b → covers (piece_loc p k) r = false) → o = out →
    ∃ out' ctx, (mret o : M bytes) w = Ok out' (with_recs (update_ctx (wal_key_cache (w_wal w)) i rec ctx) w) ∧
      rec_ok (mkWALKeyCacheRec r ctx) ∧ length out' = length src ∧
      ∀ k b, src !! k = Some b →
        out' !! k = if covers (piece_loc p k) r
                    then Some (xor_at r (p_tli p) (p_segno p) (p_offset p + Z.of_nat k) b) else out !! k)
    as Hskip.
  { intros o Hno ->. exists out, (rec_crypt_ctx rec). rewrite with_recs_id by done.
    split_and!; [done|by destruct rec|done|]. intros k b Hk. by rewrite (Hno k b Hk). }
  destruct (range_active r) eqn:Hact.
  2:{ apply Hskip; [|done]. intros k b Hk. unfold covers. by rewrite Hact. }
  rewrite piece_start_eq, piece_end_eq by done.
  destruct ((wal_location_cmp (piece_loc p 0) (wr_end r) <? 0) &&
            (0 <? wal_location_cmp (piece_loc p (Z.to_nat (p_count p))) (wr_start r))) eqn:Hov.
  2:{ apply Hskip; [|done]. intros k b Hk. destruct (covers (piece_loc p k) r) eqn:Hc; [|done].
      apply covers_true in Hc as (_ & Hc1 & Hc2). apply lookup_lt_Some in Hk.
      apply andb_false_iff in Hov as [Hov|Hov]; apply Z.ltb_ge in Hov; exfalso.
      - assert (wal_location_cmp (piece_loc p 0) (wr_end r) < 0); [|lia].
        apply wal_location_cmp_lt. eapply wl_le_lt_trans; [|exact Hc2].
        unfold piece_loc, wl_le, wl_lt. simpl. destruct k; [by right|left; lia].
      - assert (wal_location_cmp (piece_loc p (Z.to_nat (p_count p))) (wr_start r) > 0); [|lia].
        apply wal_location_cmp_gt. eapply wl_le_lt_trans; [exact Hc1|].
        unfold piece_loc, wl_lt. simpl. lia. }
  apply andb_true_iff in Hov as [Hov1%Z.ltb_lt%wal_location_cmp_lt Hov2%Z.ltb_lt].
  assert (wl_lt (wr_start r) (piece_loc p (Z.to_nat (p_count p)))) as Hov2' by (apply wal_location_cmp_gt; lia).
  pose proof (part_bounds r p Hp Hse Hov1 Hov2') as (Hb1 & Hb2 & Hcov).
  pose proof Hp as ((n & Hn & Hsz) & Ho & Hcnt & Hle & _ & Hsegno & _).
  set (L := p_segno p * p_segSize p) in *.
  assert (wr_type r = WAL_ENCRYPTION_RANGE_ENCRYPTED) as Hty.
  { unfold range_active in Hact. apply andb_true_iff in Hact as [_ Hact]. by apply Z.eqb_eq. }
  destruct (Hkey Hty) as [Hkwf Hctx].
  destruct (crypt_part_spec i rec src in_place out p (part_start r p - L) (part_end r p - L) w)
    as (out' & ctx & E & Hctx' & Hl' & Hlook); try done; try lia.
  fold L in E. replace (L + (part_start r p - L)) with (part_start r p) in E by lia.
  replace (L + (part_end r p - L)) with (part_end r p) in E by lia.
  exists out', ctx. split_and!; [exact E|by split_and!|done|].
  intros k b Hk. rewrite (Hlook k b Hk). apply lookup_lt_Some in Hk.
  pose proof (Hcov k ltac:(lia)) as Hc. pose proof (covers_true (piece_loc p k) r) as Hct.
  destruct (covers (piece_loc p k) r); case_decide as Hd; try done; exfalso.
  - destruct Hct as [Hct _]. destruct (Hct eq_refl) as (_ & Hct'). apply Hc in Hct'. lia.
  - destruct Hct as [_ Hct]. discriminate Hct. split; [done|]. apply Hc. lia.
Qed.

(** ** The whole buffer *)

Definition cache_ok (c : list WALKeyCacheRec) : Prop :=
  Forall rec_ok c ∧ disjoint_ranges (rec_range <$> c).

Lemma with_recs_recs c c' w : with_recs c (with_recs c' w) = with_recs c w.
Proof. done. Qed.

Lemma update_ctx_ranges c i rec ctx :
  c !! i = Some rec → rec_range <$> update_ctx c i rec ctx = rec_range <$> c.
Proof.
  intros H. unfold update_ctx. rewrite list_fmap_insert. apply list_insert_id.
  by rewrite list_lookup_fmap, H.
Qed.

(** Every byte is changed by the range it is in, if any. *)
Lemma crypt_loop_spec p orig in_place n :
  piece_ok p → Z.of_nat (length orig) = p_count p →
  ∀ i out w, let c := wal_key_cache (w_wal w) in
  cache_ok c → (length c - i ≤ n)%nat → length out = length orig →
  (∀ k r, r ∈ drop i (rec_range <$> c) → covers (piece_loc p k) r = true → out !! k = orig !! k) →
  ∃ out' c',
    crypt_loop n i (if in_place : bool then None else Some orig) out (p_count p) (p_offset p)
      (p_tli p) (p_segno p) (p_segSize p) (piece_start p) (piece_end p) w = Ok out' (with_recs c' w) ∧
    cache_ok c' ∧ rec_range <$> c' = rec_range <$> c ∧ length out' = length orig ∧
    ∀ k b, orig !! k = Some b →
      out' !! k = match find (covers (piece_loc p k)) (drop i (rec_range <$> c)) with
                  | Some r => Some (xor_at r (p_tli p) (p_segno p) (p_offset p + Z.of_nat k) b)
                  | None => out !! k
                  end.
Proof.
  intros Hp Hlen. induction n as [|n IH]; intros i out w c Hc Hn Hlo Hfresh.
  { exists out, c. split_and!; try done.
    - by destruct w as [? ? ? ? ? ? ? ? ? ? [] ? ? ? ? ?].
    - intros k b _. rewrite drop_ge by (rewrite length_fmap; lia). done. }
  simpl crypt_loop. mstep. fold c. destruct (c !! i) as [rec|] eqn:Hi.
  2:{ apply lookup_ge_None in Hi. exists out, c. split_and!; try done.
      - by destruct w as [? ? ? ? ? ? ? ? ? ? [] ? ? ? ? ?].
      - intros k b _. rewrite drop_ge by (rewrite length_fmap; lia). done. }
  assert ((rec_range <$> c) !! i = Some (rec_range rec)) as Hri by (by rewrite list_lookup_fmap, Hi).
  rewrite (drop_S _ _ _ Hri) in Hfresh |- *.
  set (src := if in_place then out else orig).
  destruct (crypt_record_spec i rec src in_place out p w) as (out1 & ctx & E & Hrec & Hl1 & Hlook); try done.
  { by apply (Forall_lookup_1 _ _ _ _ (proj1 Hc) Hi). } { unfold src. destruct in_place; lia. }
  { unfold src. destruct in_place; lia. } { intros ->. done. }
  assert ((if in_place then None else Some src) = if in_place then None else Some orig) as Hdata
    by (unfold src; by destruct in_place).
  rewrite Hdata in E. rewrite (bind_ok _ _ _ _ _ E). fold c. set (c1 := update_ctx c i rec ctx).
  assert (rec_range <$> c1 = rec_range <$> c) as Hr1 by (by apply update_ctx_ranges).
  assert (length c1 = length c) as Hlc by (unfold c1, update_ctx; by rewrite length_insert).
  assert (∀ k b, orig !! k = Some b → ∃ b1, src !! k = Some b1 ∧
            (covers (piece_loc p k) (rec_range rec) = true → b1 = b)) as Hsrc.
  { intros k b Hk. unfold src. destruct in_place; [|by eexists].
    destruct (lookup_lt_is_Some_2 out k) as [b1 Hb1]; [apply lookup_lt_Some in Hk; lia|].
    exists b1. split; [done|]. intros Hcov. rewrite (Hfresh k (rec_range rec)) in Hb1 by (done || left).
    congruence. }
  destruct (IH (S i) out1 (with_recs c1 w)) as (out' & c' & E' & Hc' & Hr' & Hl' & Hlook').
  - split; [|simpl; by rewrite Hr1; destruct Hc]. simpl. unfold c1, update_ctx.
    apply Forall_insert; [apply Hc|done].
  - simpl. lia.
  - rewrite Hl1. unfold src. by destruct in_place.
  - intros k r Hr Hcov. simpl in Hr. rewrite Hr1 in Hr.
    apply list_elem_of_lookup in Hr as [j Hj]. rewrite lookup_drop in Hj.
    destruct (orig !! k) as [b|] eqn:Hk.
    + destruct (Hsrc k b Hk) as (b1 & Hb1 & _). rewrite (Hlook k b1 Hb1).
      destruct (covers (piece_loc p k) (rec_range rec)) eqn:Hcr.
      * rewrite (covers_disjoint _ i (S i + j) _ _ _ (proj2 Hc) Hri Hj ltac:(lia) Hcr) in Hcov. done.
      * rewrite <-Hk. apply (Hfresh k r); [|done]. right. apply list_elem_of_lookup. exists j. by rewrite lookup_drop.
    + apply lookup_ge_None in Hk. apply lookup_ge_None. rewrite Hl1. unfold src. destruct in_place; lia.
  - exists out', c'. split_and!; [exact E'|done| |done|].
    { rewrite Hr'. simpl. by rewrite Hr1. }
    intros k b Hk. rewrite (Hlook' k b Hk). simpl wal_key_cache. rewrite Hr1. simpl find.
    destruct (Hsrc k b Hk) as (b1 & Hb1 & Heq). rewrite (Hlook k b1 Hb1).
    destruct (covers (piece_loc p k) (rec_range rec)) eqn:Hcr; [|done]. rewrite Heq by done.
    destruct (find _ _) as [r|] eqn:Hf; [|done]. apply find_some in Hf as [Hin Hcov].
    apply list_elem_of_In, list_elem_of_lookup in Hin as [j Hj]. rewrite lookup_drop in Hj.
    by rewrite (covers_disjoint _ i (S i + j) _ _ _ (proj2 Hc) Hri Hj ltac:(lia) Hcr) in Hcov.
Qed.

End records.

(** ** [TDEXLogCryptBuffer] *)

Section buffer.
Context {SSL : OpenSSL} {Spec : OpenSSLSpec SSL} {K : Kernel} {PKS : PrincipalKeys}.

Lemma crypt_buffer_spec p orig in_place w w1 :
  piece_ok p → Z.of_nat (length orig) = p_count p →
  crypt_keys w = Ok (Some 0%nat) w1 → cache_ok (wal_key_cache (w_wal w1)) →
  ∃ c', TDEXLogCryptBuffer (if in_place : bool then None else Some orig) orig (p_count p) (p_offset p)
          (p_tli p) (p_segno p) (p_segSize p) w =
        Ok (crypt_ref (rec_range <$> wal_key_cache (w_wal w1)) p orig) (with_recs c' w1) ∧
    cache_ok c' ∧ rec_range <$> c' = rec_range <$> wal_key_cache (w_wal w1).
Proof.
  intros Hp Hlen Hk Hc. unfold TDEXLogCryptBuffer. rewrite (bind_ok _ _ _ _ _ Hk). cbv zeta beta iota.
  mstep. fold (piece_start p) (piece_end p).
  destruct (crypt_loop_spec p orig in_place (length (wal_key_cache (w_wal w1))) Hp Hlen 0 orig w1)
    as (out & c' & E & Hc' & Hr' & Hl & Hlook); try done; [lia|].
  exists c'. split_and!; try done. rewrite E. f_equal. apply list_eq. intros k.
  unfold crypt_ref. rewrite list_lookup_imap. destruct (orig !! k) as [b|] eqn:Hb.
  - rewrite (Hlook k b Hb), drop_0. simpl. unfold crypt_byte. by destruct (find _ _).
  - apply lookup_ge_None in Hb. simpl. apply lookup_ge_None. lia.
Qed.

Lemma get_last_ok c rec w :
  wal_key_cache (w_wal w) = c ++ [rec] → open_pg_tde_get_last_wal_key w = Ok (Some (length c)) w.
Proof.
  intros H. unfold open_pg_tde_get_last_wal_key, gets. rewrite H.
  destruct (c ++ [rec]) as [|x l] eqn:E; [by destruct c|]. do 2 f_equal. rewrite <-E, length_app. simpl. lia.
Qed.

(** The cache is used as it is when it is not empty and no write has set the
    start of a newer range. *)
Lemma crypt_keys_cached c rec w :
  wal_key_cache (w_wal w) = c ++ [rec] →
  (enc_key_lsn (w_xsmgr w) = 0 ∨
   ¬ wl_lt (wr_start (rec_range rec)) (mkWalLocation (enc_key_lsn (w_xsmgr w)) (enc_key_tli (w_xsmgr w)))) →
  crypt_keys w = Ok (Some 0%nat) w.
Proof.
  intros Hc Hw. unfold crypt_keys, open_pg_tde_get_wal_cache_keys. mstep. rewrite Hc.
  assert (match c ++ [rec] with [] => None | _ => Some 0%nat end = Some 0%nat) as -> by (by destruct c).
  rewrite (bind_ok _ _ _ _ _ (ret_ok _ _)). unfold TDEXLogGetEncKeyLsn. mstep.
  destruct (decide (enc_key_lsn (w_xsmgr w) = 0)) as [Hz|Hne]; [by rewrite Hz|].
  rewrite (proj2 (Z.eqb_neq _ _)) by done. cbn [negb]. cbv iota.
  rewrite (bind_ok _ _ _ _ _ (get_last_ok c rec w Hc)). unfold TDEXLogGetEncKeyTli. mstep.
  mstep. rewrite Hc. cbn [mbind option_bind]. rewrite lookup_app_r, Nat.sub_diag by done. simpl.
  destruct Hw as [Hw|Hw]; [done|]. rewrite <-wal_location_cmp_lt in Hw.
  rewrite (proj2 (Z.ltb_ge _ _)) by lia. done.
Qed.

(** ** Chains *)

(** Ranges of the file, in increasing order. *)
Definition range_wf (r : WalEncryptionRange) : Prop :=
  WalLocation_wf (wr_start r) ∧ wr_end r = loc_infinity ∧ wl_lt (wr_start r) loc_infinity ∧
  wal_key_wf (wr_key r).

Definition increasing (ls : list WalLocation) : Prop :=
  ∀ i j l1 l2, ls !! i = Some l1 → ls !! j = Some l2 → (i < j)%nat → wl_lt l1 l2.

Lemma chain_lookup rs i r :
  rs !! i = Some r →
  chain rs !! i = Some (mkWALKeyCacheRec (mkWalRange (wr_type r) (wr_key r) (wr_start r)
                          (match rs !! S i with Some r' => wr_start r' | None => wr_end r end)) None).
Proof.
  revert i. induction rs as [|r1 rs IH]; intros [|i] H; simplify_eq/=.
  - destruct rs; simpl; [|done]. by destruct r.
  - rewrite (IH i H). done.
Qed.

Lemma chain_ok rs :
  Forall range_wf rs → increasing (wr_start <$> rs) → cache_ok (chain rs).
Proof.
  intros Hwf Hinc.
  assert (∀ i r, rs !! i = Some r → WalLocation_wf (wr_start r) ∧ wr_end r = loc_infinity ∧
            wl_lt (wr_start r) loc_infinity ∧ wal_key_wf (wr_key r)) as Hall
    by (intros i r Hi; by apply (Forall_lookup_1 _ _ _ _ Hwf Hi)).
  split.
  - apply Forall_lookup_2. intros i rec Hi.
    destruct (lookup_lt_is_Some_2 rs i) as [r Hr].
    { apply lookup_lt_Some in Hi. by rewrite chain_length in Hi. }
    rewrite (chain_lookup _ _ _ Hr) in Hi. injection Hi as <-.
    destruct (Hall i r Hr) as (H1 & H2 & H3 & H4). unfold rec_ok. simpl.
    destruct (rs !! S i) as [r'|] eqn:Hr'.
    + destruct (Hall _ r' Hr') as (H1' & _). split_and!; try done.
      apply (Hinc i (S i)); [by rewrite list_lookup_fmap, Hr|by rewrite list_lookup_fmap, Hr'|lia].
    + rewrite H2. by split_and!.
  - intros i j r1 r2 H1 H2 Hij. rewrite list_lookup_fmap in H1, H2.
    apply fmap_Some in H1 as (rec1 & H1 & ->). apply fmap_Some in H2 as (rec2 & H2 & ->).
    destruct (lookup_lt_is_Some_2 rs i) as [q1 Hq1].
    { apply lookup_lt_Some in H1. by rewrite chain_length in H1. }
    destruct (lookup_lt_is_Some_2 rs j) as [q2 Hq2].
    { apply lookup_lt_Some in H2. by rewrite chain_length in H2. }
    rewrite (chain_lookup _ _ _ Hq1) in H1. rewrite (chain_lookup _ _ _ Hq2) in H2. simplify_eq/=.
    destruct (lookup_lt_is_Some_2 rs (S i)) as [q Hq]; [apply lookup_lt_Some in Hq2; lia|]. rewrite Hq.
    destruct (decide (S i = j)) as [<-|]; [right; congruence|]. left.
    apply (Hinc (S i) j); [by rewrite list_lookup_fmap, Hq|by rewrite list_lookup_fmap, Hq2|lia].
Qed.

(** The range that covers a location is found. *)
Lemma find_covers rs j r l :
  disjoint_ranges rs → rs !! j = Some r → covers l r = true → find (covers l) rs = Some r.
Proof.
  intros Hd Hj Hc. destruct (find (covers l) rs) as [r'|] eqn:Hf.
  - apply find_some in Hf as [Hin Hc']. apply list_elem_of_In, list_elem_of_lookup in Hin as [i Hi].
    destruct (Nat.lt_trichotomy i j) as [Hij|[->|Hij]]; [| congruence|].
    + by rewrite (covers_disjoint rs i j r' r l Hd Hi Hj Hij Hc') in Hc.
    + by rewrite (covers_disjoint rs j i r r' l Hd Hj Hi Hij Hc) in Hc'.
  - pose proof (find_none _ _ Hf r) as Hn. rewrite Hn in Hc; [done|].
    apply list_elem_of_In, list_elem_of_lookup. by exists j.
Qed.

(** A piece that lies in the last range is encrypted with the key of that
    range. *)
Lemma crypt_ref_last rs r p d :
  Forall range_wf (rs ++ [r]) → increasing (wr_start <$> rs ++ [r]) →
  wr_type r = WAL_ENCRYPTION_RANGE_ENCRYPTED → wal_location_valid (wr_start r) = true →
  piece_ok p → Z.of_nat (length d) = p_count p → wl_le (wr_start r) (piece_loc p 0) →
  wl_tli (piece_loc p 0) < MaxTimeLineID →
  crypt_ref (rec_range <$> chain (rs ++ [r])) p d =
    stream_ref (ik_key_bytes (wr_key r)) (CalcXLogPageIVPrefix (p_tli p) (p_segno p) (ik_base_iv (wr_key r)))
      (p_offset p) d.
Proof.
  intros Hwf Hinc Hty Hv Hp Hlen Hle Htli. destruct (chain_ok _ Hwf Hinc) as [_ Hd].
  pose proof (proj1 (Forall_app _ _ _) Hwf) as [_ Hr]. apply Forall_singleton in Hr as (_ & Hend & _).
  assert ((rs ++ [r]) !! length rs = Some r) as Hlast by (by rewrite lookup_app_r, Nat.sub_diag by done).
  pose proof (chain_lookup _ _ _ Hlast) as Hch.
  rewrite (lookup_ge_None_2 (rs ++ [r]) (S (length rs))) in Hch by (rewrite length_app; simpl; lia).
  set (q := mkWalRange (wr_type r) (wr_key r) (wr_start r) (wr_end r)) in Hch.
  unfold crypt_ref, stream_ref. apply imap_ext. intros k b Hk. apply lookup_lt_Some in Hk.
  unfold crypt_byte. rewrite (find_covers _ (length rs) q _ Hd).
  - unfold xor_at. done.
  - by rewrite list_lookup_fmap, Hch.
  - apply covers_true. unfold range_active. simpl. rewrite Hty, Hv. split_and!; [done| |].
    + eapply (wl_le_trans _ (piece_loc p 0)); [done|]. unfold wl_le, wl_lt, piece_loc. simpl.
      destruct k; [by right|left; lia].
    + rewrite Hend. left. simpl in *. done.
Qed.

End buffer.
