(* ===== verification/XLogSmgrThms.v ===== *)
(** Properties of the WAL storage manager (XLogSmgr): the initialisation vector
    of a segment, encryption with the ranges of the cache, and that what one
    process writes another one reads. *)
From S2P Require Import Prelude Types Environ Instances Ciphers EncTde KeyFile KeyMap KeyMapSpec WalKeys.
From S2P Require Import WalKeysSpec WalKeysThms XLogSmgr XLogSmgrSpec.

(** ** Bits *)

Lemma testbit_above n x i : 0 <= x < 2 ^ n → 0 <= n → n <= i → Z.testbit x i = false.
Proof.
  intros Hx Hn Hi. rewrite <-(Z.mod_small x (2 ^ n)) by done. by apply Z.mod_pow2_bits_high.
Qed.

Lemma lor_add lo hi n : 0 <= n → 0 <= lo < 2 ^ n → Z.lor lo (Z.shiftl hi n) = lo + hi * 2 ^ n.
Proof.
  intros Hn Hlo. rewrite <-Z.shiftl_mul_pow2 by done. rewrite <-Z.add_lor_land.
  assert (Z.land lo (Z.shiftl hi n) = 0) as ->; [|lia].
  apply Z.bits_inj'. intros i Hi. rewrite Z.land_spec, Z.bits_0. destruct (decide (i < n)).
  - by rewrite Z.shiftl_spec_low, andb_false_r by done.
  - by rewrite (testbit_above n lo i) by lia.
Qed.

(** Clearing a bit with a mask of [n] bits. *)
Lemma mask_clearbit n x :
  0 <= x < 2 ^ n → 32 < n → Z.land x (Z.lnot (2 ^ 32) mod 2 ^ n) = Z.clearbit x 32.
Proof.
  intros Hx Hn. apply Z.bits_inj'. intros i Hi. rewrite Z.land_spec, Z.clearbit_eqb.
  destruct (decide (i < n)).
  - rewrite Z.mod_pow2_bits_low by lia. rewrite Z.lnot_spec by done. by rewrite Z.pow2_bits_eqb.
  - by rewrite (testbit_above n x i) by lia.
Qed.

Lemma clearbit_range n x : 0 <= x < 2 ^ n → 0 <= n → 0 <= Z.clearbit x 32 < 2 ^ n.
Proof.
  intros Hx Hn.
  assert (Z.clearbit x 32 = Z.clearbit x 32 mod 2 ^ n) as ->; [|apply Z.mod_pos_bound; lia].
  apply Z.bits_inj'. intros i Hi. destruct (decide (i < n)).
  - by rewrite Z.mod_pow2_bits_low.
  - rewrite Z.mod_pow2_bits_high by lia. rewrite Z.clearbit_eqb, (testbit_above n x i) by lia. done.
Qed.

(** The bit is in the low half. *)
Lemma clearbit_split lo hi :
  0 <= lo < 2 ^ 64 → Z.clearbit (lo + hi * 2 ^ 64) 32 = Z.clearbit lo 32 + hi * 2 ^ 64.
Proof.
  intros Hlo. rewrite <-(lor_add lo hi 64), <-(lor_add (Z.clearbit lo 32) hi 64)
    by (lia || apply clearbit_range; lia).
  apply Z.bits_inj'. intros i Hi. rewrite Z.clearbit_eqb, !Z.lor_spec, Z.clearbit_eqb.
  destruct (Z.eqb_spec 32 i) as [<-|]; [|by rewrite !andb_true_r].
  rewrite (Z.shiftl_spec_low hi 64 32) by lia. by rewrite !andb_false_r.
Qed.

(** Addition in two halves with a carry. *)
Lemma halves_add a b x y z :
  0 <= a < 2 ^ 64 → 0 <= b < 2 ^ 64 → z = a + b + (x + y) * 2 ^ 64 →
  le_enc 8 (u64 (a + b)) ++ le_enc 8 (u64 (x + y + (if u64 (a + b) <? a then 1 else 0))) = le_enc 16 z.
Proof.
  intros Ha Hb ->. set (c := if u64 (a + b) <? a then 1 else 0).
  assert (u64 (a + b) = a + b - c * 2 ^ 64 ∧ 0 <= a + b - c * 2 ^ 64 < 2 ^ 64) as [Hc Hr].
  { unfold c, u64. destruct (decide (a + b < 2 ^ 64)).
    - rewrite Z.mod_small by lia. rewrite (proj2 (Z.ltb_ge _ _)) by lia. lia.
    - rewrite <-(Z.mod_unique (a + b) (2 ^ 64) 1 (a + b - 2 ^ 64)) by lia.
      rewrite (proj2 (Z.ltb_lt _ _)) by lia. lia. }
  rewrite <-(le_enc_dec 16 (_ ++ _)) by (by len_simpl).
  rewrite le_dec_app, !le_dec_enc, le_enc_length. change (256 ^ Z.of_nat 8) with (2 ^ 64).
  rewrite Hc, (Z.mod_small _ _ Hr). unfold u64. rewrite Z.mod_mod by lia.
  rewrite <-(le_enc_mod 16 (a + b + _)). f_equal. change (256 ^ Z.of_nat 16) with (2 ^ 64 * 2 ^ 64).
  rewrite Z.rem_mul_r by lia.
  replace ((a + b + (x + y) * 2 ^ 64) mod 2 ^ 64) with (a + b - c * 2 ^ 64).
  2:{ apply (Z.mod_unique _ _ (x + y + c)); lia. }
  replace ((a + b + (x + y) * 2 ^ 64) / 2 ^ 64) with (x + y + c).
  2:{ apply (Z.div_unique _ _ _ (a + b - c * 2 ^ 64)); lia. }
  lia.
Qed.

(** ** The IV of a segment *)

(** The segment's part of the IV, in units of [2^32]. *)
Definition seg_id (tli segno : Z) : Z := (tli mod 2 ^ 16) * 2 ^ 80 + segno.

Lemma seg_id_range tli segno : is_u64 segno → 0 <= seg_id tli segno < 2 ^ 96.
Proof. intros [? ?]. unfold seg_id. pose proof (Z.mod_pos_bound tli (2 ^ 16)). lia. Qed.

Lemma iv_offset tli segno :
  is_u32 tli → is_u64 segno →
  Z.lor (u128 (Z.shiftl tli 112)) (u128 (Z.shiftl segno 32)) = seg_id tli segno * 2 ^ 32.
Proof.
  intros Ht [Hs1 Hs2]. unfold u128, seg_id. rewrite !Z.shiftl_mul_pow2 by lia.
  rewrite (Z.mod_small (segno * 2 ^ 32)) by lia.
  replace ((tli * 2 ^ 112) mod 2 ^ 128) with ((tli mod 2 ^ 16) * 2 ^ 112).
  2:{ replace (2 ^ 128) with (2 ^ 16 * 2 ^ 112) by lia. by rewrite Z.mul_mod_distr_r. }
  rewrite Z.lor_comm, <-(Z.shiftl_mul_pow2 (tli mod 2 ^ 16)) by lia. rewrite lor_add by lia. lia.
Qed.

(** The base IV as a number, without bit 32. *)
Definition base_num (base_iv : bytes) : Z := Z.clearbit (le_dec (rev base_iv)) 32.

Lemma base_num_range iv : length iv = 16%nat → 0 <= base_num iv < 2 ^ 128.
Proof.
  intros H. apply clearbit_range; [|lia]. pose proof (le_dec_range (rev iv)) as Hr.
  rewrite length_rev, H in Hr. change (256 ^ Z.of_nat 16) with (2 ^ 128) in Hr. done.
Qed.

Lemma CalcXLogPageIVPrefix_eq tli segno iv :
  length iv = 16%nat → is_u32 tli → is_u64 segno →
  CalcXLogPageIVPrefix tli segno iv = rev (le_enc 16 (base_num iv + seg_id tli segno * 2 ^ 32)).
Proof.
  intros Hl Ht Hs. unfold CalcXLogPageIVPrefix. cbv zeta. rewrite iv_offset by done. f_equal.
  pose proof (le_dec_range (rev iv)) as Hr. rewrite length_rev, Hl in Hr.
  change (256 ^ Z.of_nat 16) with (2 ^ 128) in Hr.
  change (u128 (Z.shiftl 1 32)) with (2 ^ 32).
  unfold u128 at 2. rewrite (mask_clearbit 128) by lia. fold (base_num iv).
  unfold u128. change (2 ^ 128) with (256 ^ Z.of_nat 16). apply le_enc_mod.
Qed.

(** The part of the IV that is not replaced by the block counter. *)
Lemma iv_prefix_12 x : 0 <= x → take 12 (rev (le_enc 16 x)) = rev (le_enc 12 (x / 2 ^ 32)).
Proof.
  intros Hx. assert (le_enc 16 x = le_enc 4 x ++ le_enc 12 (x / 2 ^ 32)) as ->.
  { rewrite <-(le_enc_dec 16 (le_enc 4 x ++ le_enc 12 (x / 2 ^ 32))) by (by len_simpl).
    rewrite le_dec_app, !le_dec_enc, le_enc_length.
    change (256 ^ Z.of_nat 4) with (2 ^ 32). change (256 ^ Z.of_nat 12) with (2 ^ 96).
    rewrite <-(le_enc_mod 16 x). f_equal. change (256 ^ Z.of_nat 16) with (2 ^ 32 * 2 ^ 96).
    rewrite Z.rem_mul_r by lia. lia. }
  rewrite rev_app_distr. apply take_app_length'. by rewrite length_rev, le_enc_length.
Qed.

Lemma iv_prefix_inj tli1 seg1 tli2 seg2 iv :
  length iv = 16%nat → is_u32 tli1 → is_u64 seg1 → is_u32 tli2 → is_u64 seg2 →
  take 12 (CalcXLogPageIVPrefix tli1 seg1 iv) = take 12 (CalcXLogPageIVPrefix tli2 seg2 iv) →
  tli1 mod 2 ^ 16 = tli2 mod 2 ^ 16 ∧ seg1 = seg2.
Proof.
  intros Hl Ht1 Hs1 Ht2 Hs2. rewrite !CalcXLogPageIVPrefix_eq by done.
  pose proof (base_num_range iv Hl). pose proof (seg_id_range tli1 seg1 Hs1).
  pose proof (seg_id_range tli2 seg2 Hs2). rewrite !iv_prefix_12 by lia.
  rewrite !Z.div_add by lia. intros E%(f_equal (@rev byte)). rewrite !rev_involutive in E.
  apply (f_equal le_dec) in E. rewrite !le_dec_enc in E. change (256 ^ Z.of_nat 12) with (2 ^ 96) in E.
  assert (seg_id tli1 seg1 = seg_id tli2 seg2) as Hid.
  { set (b := base_num iv / 2 ^ 32) in *.
    assert ((b + seg_id tli1 seg1 - (b + seg_id tli2 seg2)) mod 2 ^ 96 = 0) as Hz.
    { rewrite Zminus_mod, E, Z.sub_diag. done. }
    apply Z.mod_divide in Hz as [q Hq]; [|lia]. nia. }
  unfold seg_id in Hid. destruct Hs1, Hs2.
  pose proof (Z.mod_pos_bound tli1 (2 ^ 16)). pose proof (Z.mod_pos_bound tli2 (2 ^ 16)). lia.
Qed.

(** ** Properties of the IV *)

(** With one base IV, segments get IVs that differ in the 12 bytes the
    block counter leaves alone, unless they have the same number and their
    timelines agree in the low 16 bits: no key stream is used twice for the
    segments of a range as long as there are fewer than 65536 timelines. *)
Theorem segment_iv_unique tli1 seg1 tli2 seg2 iv j :
  length iv = 16%nat → is_u32 tli1 → is_u64 seg1 → is_u32 tli2 → is_u64 seg2 →
  ctr_block (CalcXLogPageIVPrefix tli1 seg1 iv) j = ctr_block (CalcXLogPageIVPrefix tli2 seg2 iv) j →
  tli1 mod 2 ^ 16 = tli2 mod 2 ^ 16 ∧ seg1 = seg2.
Proof.
  intros Hl Ht1 Hs1 Ht2 Hs2 E. apply (iv_prefix_inj tli1 seg1 tli2 seg2 iv); try done.
  by apply app_inv_tail in E.
Qed.

(** The emulation of 128-bit addition for compilers without a 128-bit
    integer type computes the same IV. *)
Theorem iv_fallback_equivalent tli segno iv :
  length iv = 16%nat → is_u32 tli → is_u64 segno →
  CalcXLogPageIVPrefix_fallback tli segno iv = CalcXLogPageIVPrefix tli segno iv.
Proof.
  intros Hl Ht Hs. rewrite CalcXLogPageIVPrefix_eq by done. unfold CalcXLogPageIVPrefix_fallback. cbv zeta.
  set (lo := le_dec (slice 0 8 (rev iv))). set (hi := le_dec (slice 8 8 (rev iv))).
  assert (0 <= lo < 2 ^ 64) as Hlo by (apply dec_u64_range; rewrite slice_length; lia).
  assert (le_dec (rev iv) = lo + hi * 2 ^ 64) as Hbase.
  { rewrite <-(slice_all 16 (rev iv)) at 1 by (by rewrite length_rev).
    rewrite (slice_split 0 8 8), le_dec_app, slice_length, length_rev, Hl.
    change (256 ^ Z.of_nat (8 `min` (16 - 0))) with (2 ^ 64). unfold lo, hi. simpl Nat.add. lia. }
  unfold base_num. rewrite Hbase, clearbit_split by done.
  change (u64 (Z.shiftl 1 32)) with (2 ^ 32).
  rewrite (mask_clearbit 64 lo Hlo ltac:(lia) : Z.land lo (u64 (Z.lnot (2 ^ 32))) = _).
  pose proof (clearbit_range 64 lo Hlo ltac:(lia)) as Hclo. set (clo := Z.clearbit lo 32) in *.
  assert (u64 (Z.shiftl segno 32) = (segno mod 2 ^ 32) * 2 ^ 32) as ->.
  { unfold u64. rewrite Z.shiftl_mul_pow2 by lia. replace (2 ^ 64) with (2 ^ 32 * 2 ^ 32) by lia.
    by rewrite Z.mul_mod_distr_r. }
  assert (Z.lor (Z.shiftr segno 32) (u64 (Z.shiftl (Z.land tli 0xFFFF) 48)) =
          segno / 2 ^ 32 + (tli mod 2 ^ 16) * 2 ^ 48) as ->.
  { change 0xFFFF with (Z.ones 16). rewrite Z.land_ones by lia. rewrite Z.shiftr_div_pow2 by lia.
    rewrite u64_small.
    - destruct Hs. rewrite lor_add; [done|lia|]. split; [apply Z.div_pos; lia|apply Z.div_lt_upper_bound; lia].
    - rewrite Z.shiftl_mul_pow2 by lia. pose proof (Z.mod_pos_bound tli (2 ^ 16)). unfold is_u64. lia. }
  unfold seg_id. pose proof (Z.div_mod segno (2 ^ 32) ltac:(lia)) as Hdm.
  pose proof (Z.mod_pos_bound segno (2 ^ 32) ltac:(lia)) as Hm.
  set (sl := segno mod 2 ^ 32) in *. set (sh := segno / 2 ^ 32) in *. set (t := tli mod 2 ^ 16).
  f_equal. apply halves_add; lia.
Qed.

(** ** Encryption with the cached ranges *)

Section cached.
Context {SSL : OpenSSL} {Spec : OpenSSLSpec SSL} {K : Kernel} {PKS : PrincipalKeys}.

(** A cache that can be used without asking for newer ranges. *)
Definition cache_ready (c : list WALKeyCacheRec) (rec : WALKeyCacheRec) (w : World) : Prop :=
  wal_key_cache (w_wal w) = c ++ [rec] ∧ cache_ok (c ++ [rec]) ∧
  (enc_key_lsn (w_xsmgr w) = 0 ∨
   ¬ wl_lt (wr_start (rec_range rec)) (mkWalLocation (enc_key_lsn (w_xsmgr w)) (enc_key_tli (w_xsmgr w)))).

(** C14: encrypting a piece of a segment combines each byte with the key stream
    of the one range its location is in, by its position in the segment, and
    leaves bytes outside of encrypted ranges alone, in place and between two
    buffers. Ranges may start and end anywhere in the piece. *)
Theorem crypt_buffer_positionwise p orig in_place c rec w :
  piece_ok p → Z.of_nat (length orig) = p_count p → cache_ready c rec w →
  ∃ c', TDEXLogCryptBuffer (if in_place : bool then None else Some orig) orig (p_count p) (p_offset p)
          (p_tli p) (p_segno p) (p_segSize p) w =
        Ok (crypt_ref (rec_range <$> c ++ [rec]) p orig) (with_recs c' w) ∧
    cache_ok c' ∧ rec_range <$> c' = rec_range <$> c ++ [rec].
Proof.
  intros Hp Hlen (Hc & Hok & Hw). rewrite <-Hc in Hok |- *.
  apply crypt_buffer_spec; [done|done|by eapply crypt_keys_cached|done].
Qed.

(** Decrypting a piece that was encrypted with the ranges of the cache gives
    back the original. *)
Theorem wal_crypt_roundtrip p orig c rec w :
  piece_ok p → Z.of_nat (length orig) = p_count p → cache_ready c rec w →
  ∃ enc w1 w2,
    TDEXLogCryptBuffer (Some orig) orig (p_count p) (p_offset p) (p_tli p) (p_segno p) (p_segSize p) w = Ok enc w1 ∧
    TDEXLogCryptBuffer None enc (p_count p) (p_offset p) (p_tli p) (p_segno p) (p_segSize p) w1 = Ok orig w2.
Proof.
  intros Hp Hlen (Hc & Hok & Hw). rewrite <-Hc in Hok.
  destruct (crypt_buffer_spec p orig false w w Hp Hlen (crypt_keys_cached c rec w Hc Hw) Hok)
    as (c1 & E1 & Hok1 & Hr1).
  set (enc := crypt_ref _ p orig) in E1.
  assert (∃ c0 rec0, c1 = c0 ++ [rec0] ∧ rec_range rec0 = rec_range rec) as (c0 & rec0 & -> & Hrec0).
  { rewrite Hc, fmap_app in Hr1. destruct c1 as [|x c1 _] using rev_ind; [by destruct c|].
    exists c1, x. split; [done|]. rewrite fmap_app in Hr1. simpl in Hr1. by apply app_inj_tail in Hr1 as [_ ?]. }
  destruct (crypt_buffer_spec p enc true (with_recs (c0 ++ [rec0]) w) (with_recs (c0 ++ [rec0]) w) Hp)
    as (c2 & E2 & _).
  { unfold enc. by rewrite crypt_ref_length. }
  { eapply (crypt_keys_cached c0 rec0); [done|]. by rewrite Hrec0. } { done. }
  exists enc. eexists _, _. split; [exact E1|]. rewrite E2. f_equal. simpl. rewrite Hr1. apply crypt_ref_involutive.
Qed.

End cached.

(** ** Writing and reading *)

Lemma filter_alter {A} (P : A → Prop) `{!∀ x, Decision (P x)} (f : A → A) i (l : list A) :
  (∀ x, l !! i = Some x → P x → f x = x) → (∀ x, l !! i = Some x → ¬ P x → ¬ P (f x)) →
  filter P (alter f i l) = filter P l.
Proof.
  revert i. induction l as [|x l IH]; intros [|i] H1 H2; try done.
  - change (alter f 0%nat (x :: l)) with (f x :: l). rewrite !filter_cons.
    destruct (decide (P x)) as [Hp|Hp].
    + rewrite (H1 x) by done. by rewrite decide_True.
    + by rewrite decide_False by (by apply H2).
  - change (alter f (S i) (x :: l)) with (x :: alter f i l). rewrite !filter_cons.
    rewrite (IH i); [done|intros; by apply (H1 x0)|intros; by apply (H2 x0)].
Qed.

Lemma abs_set_location_length loc k vs : length (abs_set_location loc k vs) = length vs.
Proof. unfold abs_set_location. destruct (length vs - 1)%nat; by rewrite !length_alter. Qed.

(** The ranges a new process finds in the file, as views. *)
Definition in_use (vs : list WRange) : list WRange :=
  filter (λ v, view_wanted first_location v = true) vs.

(** Setting the start of the last range makes it one of the ranges in use; the
    ones that start earlier stay. *)
Lemma in_use_set_location loc k vs v :
  ra_type v ≠ WAL_ENCRYPTION_RANGE_INVALID → wal_location_valid loc = true →
  wl_le first_location loc → Forall (λ u, wl_lt (ra_start u) loc) (in_use vs) →
  in_use (abs_set_location loc k (vs ++ [v])) = in_use vs ++ [mkWRange (ra_type v) loc (ra_key v)].
Proof.
  intros Hty Hv Hle Hlt. unfold abs_set_location, in_use. rewrite length_app. simpl length.
  replace (length vs + 1 - 1)%nat with (length vs) by lia.
  assert (alter (λ v0, mkWRange (ra_type v0) loc (ra_key v0)) (length vs) (vs ++ [v]) =
          vs ++ [mkWRange (ra_type v) loc (ra_key v)]) as ->.
  { rewrite alter_app_r_alt by done. by rewrite Nat.sub_diag. }
  set (v' := mkWRange _ _ _).
  assert (filter (λ u, view_wanted first_location u = true) [v'] = [v']) as Hv'.
  { rewrite filter_cons_True; [done|]. unfold view_wanted, v'. simpl. rewrite Hv.
    rewrite (proj2 (Z.eqb_neq _ _)) by done. simpl. apply Z.leb_le.
    destruct Hle as [Hle| <-]; [apply wal_location_cmp_gt in Hle; lia|]. by vm_compute. }
  destruct (length vs) as [|m] eqn:Hm.
  - destruct vs; [|done]. by rewrite app_nil_l.
  - rewrite alter_app_l by lia. rewrite filter_app, Hv'. f_equal. apply filter_alter.
    + intros x Hx Hw. rewrite Forall_forall in Hlt.
      assert (wl_lt (ra_start x) loc) as Hxl.
      { apply Hlt. apply list_elem_of_filter. split; [done|]. by eapply list_elem_of_lookup_2. }
      apply wal_location_cmp_lt in Hxl. by rewrite (proj2 (Z.leb_gt _ _)) by lia.
    + intros x _ Hw. destruct (0 <=? _); [|done]. by unfold view_wanted.
Qed.

Lemma piece_loc_wf p : piece_ok p → WalLocation_wf (piece_loc p 0).
Proof.
  intros (_ & Ho & Hc & Hle & Ht & Hs & Hmax). split; [|done]. unfold is_u64. simpl. nia.
Qed.

(** Every valid location is at or after the first one. *)
Lemma valid_after_first loc : WalLocation_wf loc → wal_location_valid loc = true → wl_le first_location loc.
Proof.
  intros [[? _] [? _]] Hv. unfold wal_location_valid in Hv. apply andb_true_iff in Hv as [Hv1 Hv2].
  apply negb_true_iff, Z.eqb_neq in Hv1. apply negb_true_iff, Z.eqb_neq in Hv2.
  unfold wl_le, wl_lt, first_location, InvalidXLogRecPtr in *. simpl. left. lia.
Qed.

Section write.
Context {SSL : OpenSSL} {Spec : OpenSSLSpec SSL} {K : Kernel} {NF : NoFaults K} {RW : RandWorks SSL}.
Context {PKS : PrincipalKeys} {PKSpec : PrincipalKeysSpec PKS}.

(** A process that has a range for new WAL which nobody has written with yet. *)
Definition fresh_writer (w : World) (pk : TDEPrincipalKey) (vs : list WRange) (v : WRange) : Prop :=
  let cur := CurrentWalEncryptionRange (w_xsmgr w) in
  wal_rep w pk (vs ++ [v]) ∧ usable (vs ++ [v]) ∧ w_enc_lock w = None ∧
  InCrashRecovery (w_session w) = false ∧ w_xsmgr w = mkXLogSmgrState cur None 0 0 ∧
  wr_type cur = WAL_ENCRYPTION_RANGE_ENCRYPTED ∧ wal_key_wf (wr_key cur) ∧
  ra_type v = WAL_ENCRYPTION_RANGE_ENCRYPTED ∧ ra_key v = Some (lkey (wr_key cur)).

(** The first write puts the location into the key file. *)
Lemma ensure_location_spec loc w pk vs v :
  fresh_writer w pk vs v → WalLocation_wf loc → wal_location_valid loc = true →
  (∀ c rec, wal_key_cache (w_wal w) = c ++ [rec] → wl_lt (wr_start (rec_range rec)) loc) →
  let cur := CurrentWalEncryptionRange (w_xsmgr w) in
  ∃ k f n, let w1 := set_fs f (set_rand n w) in
    tde_ensure_xlog_key_location loc w =
      Ok true (set_xsmgr (mkXLogSmgrState (mkWalRange (wr_type cur) (wr_key cur) loc (wr_end cur)) None
                            (wl_tli loc) (wl_lsn loc)) w1) ∧
    wal_rep w1 pk (abs_set_location loc k (vs ++ [v])) ∧
    ∀ q, q ≠ wal_path → f !! q = w_fs w !! q.
Proof.
  intros (Hrep & Hu & Hlock & Hcr & Hx & Hty & Hkey & Hvt & Hvk) Hwf Hv Hlast cur.
  destruct (set_location_spec loc pk (vs ++ [v]) w Hrep Hlock Hwf) as (k & w' & E & Hrep' & f & n & -> & Hother);
    [by destruct vs|].
  exists k, f, n. split_and!; [|done|done].
  unfold tde_ensure_xlog_key_location, TDEXLogGetEncKeyLsn, TDEXLogGetEncKeyTli. do 4 mstep.
  rewrite Hcr, Hx. cbn [enc_key_lsn enc_key_tli CurrentWalEncryptionRange].
  fold cur in Hty |- *. rewrite Hty.
  assert (wal_location_cmp (mkWalLocation 0 0) loc < 0) as Hpos.
  { apply wal_location_cmp_lt. left. simpl. unfold wal_location_valid in Hv.
    apply andb_true_iff in Hv as [Hv _]. apply negb_true_iff, Z.eqb_neq in Hv. destruct Hwf as [_ [? _]]. lia. }
  rewrite (proj2 (Z.leb_le _ _)) by lia.
  change (negb (WAL_ENCRYPTION_RANGE_ENCRYPTED =? WAL_ENCRYPTION_RANGE_INVALID) && negb (negb (0 =? 0)) && true &&
          negb false) with true. cbv iota.
  assert (∃ last r, open_pg_tde_get_last_wal_key w = Ok last w ∧
    (l ← last; wal_key_cache (w_wal w) !! l) = r ∧
    match r with None => true | Some rec => wal_location_cmp (wr_start (rec_range rec)) loc <? 0 end = true)
    as (last & r & El & Hr & Hcmp).
  { destruct (wal_key_cache (w_wal w)) as [|rec0 c0 _] eqn:Hc using rev_ind.
    - exists None, None. unfold open_pg_tde_get_last_wal_key, gets. by rewrite Hc.
    - exists (Some (length c0)), (Some rec0). split_and!; [by apply (get_last_ok c0 rec0)| |].
      + simpl. by rewrite lookup_app_r, Nat.sub_diag by done.
      + apply Z.ltb_lt, wal_location_cmp_lt. by apply (Hlast c0). }
  rewrite bind_assoc, (bind_ok _ _ _ _ _ El), bind_assoc. mstep. rewrite Hr, Hcmp.
  rewrite !bind_assoc, (bind_ok _ _ _ _ _ E).
  unfold set_current_range, TDEXLogSetEncKeyLocation, modify, mbind, M_bind, mret, M_ret. simpl.
  by rewrite Hx.
Qed.

Definition segment_stream (k : InternalKey) (p : Piece) (d : bytes) : bytes :=
  stream_ref (ik_key_bytes k) (CalcXLogPageIVPrefix (p_tli p) (p_segno p) (ik_base_iv k)) (p_offset p) d.

(** The first write of a process encrypts with the key of its range. *)
Lemma seg_write_spec fd bs buf p w pk vs v :
  let loc := piece_loc p 0 in
  let cur := CurrentWalEncryptionRange (w_xsmgr w) in
  fresh_writer w pk vs v → piece_ok p → wal_location_valid loc = true →
  (∀ c rec, wal_key_cache (w_wal w) = c ++ [rec] → wl_lt (wr_start (rec_range rec)) loc) →
  w_fs w !! fd = Some bs → fd ≠ wal_path → Z.of_nat (length buf) = p_count p →
  ∃ k w1, tdeheap_xlog_seg_write fd buf (p_count p) (p_offset p) (p_tli p) (p_segno p) (p_segSize p) w =
            Ok (p_count p) w1 ∧
    w_fs w1 !! fd = Some (write_at (Z.to_nat (p_offset p)) (segment_stream (wr_key cur) p buf) bs) ∧
    wal_rep w1 pk (abs_set_location loc k (vs ++ [v])) ∧ w_enc_lock w1 = None ∧
    enc_key_lsn (w_xsmgr w1) = wl_lsn loc ∧ enc_key_tli (w_xsmgr w1) = wl_tli loc.
Proof.
  intros loc cur Hfw Hp Hv Hlast Hfd Hne Hlen. pose proof Hp as ((n & Hn & Hsz) & Ho & Hcnt & Hle & Ht & Hs & Hmax).
  assert (p_segSize p <= 2 ^ 30) by (rewrite Hsz; apply Z.pow_le_mono_r; lia).
  pose proof (piece_loc_wf p Hp) as Hwf. fold loc in Hwf.
  destruct (ensure_location_spec loc w pk vs v Hfw Hwf Hv Hlast) as (k & f & m & E & Hrep & Hother).
  pose proof Hfw as (_ & _ & Hlock & _ & _ & Hty & Hkey & _).
  unfold tdeheap_xlog_seg_write. cbv zeta. fold (piece_start p). rewrite piece_start_eq by done. fold loc.
  rewrite (bind_ok _ _ _ _ _ E). set (w1 := set_xsmgr _ _).
  mstep. cbn [CurrentWalEncryptionRange w_xsmgr w1 set_xsmgr wr_type]. fold cur in Hty |- *. rewrite Hty.
  change (negb true && _) with false. change (WAL_ENCRYPTION_RANGE_ENCRYPTED =? WAL_ENCRYPTION_RANGE_ENCRYPTED) with true.
  cbv iota. unfold TDEXLogWriteEncryptedPages. mstep. cbn [CurrentWalEncryptionRange w_xsmgr w1 set_xsmgr wr_key].
  fold cur. destruct (uninit_ok (Z.to_nat (p_count p)) w1) as (ub & Eu & Hub). rewrite (bind_ok _ _ _ _ _ Eu).
  mstep. cbn [EncryptionCryptCtx w_xsmgr w1 set_xsmgr]. rewrite !u32_small by (unfold is_u32; lia).
  destruct (stream_crypt_ref (CalcXLogPageIVPrefix (p_tli p) (p_segno p) (ik_base_iv (wr_key cur)))
    (p_offset p) buf false (p_count p) ub (ik_key (wr_key cur)) (ik_key_len (wr_key cur)) None w1)
    as (ctx & Es & _); try done; try lia.
  { by apply wal_key_stream. } { rewrite CalcXLogPageIVPrefix_length. lia. }
  cbv iota in Es. rewrite (bind_ok _ _ _ _ _ Es).
  rewrite (take_ge buf), (drop_ge ub), app_nil_r by lia.
  fold (ik_key_bytes (wr_key cur)). fold (segment_stream (wr_key cur) p buf).
  unfold set_EncryptionCryptCtx. mstep. set (w2 := set_xsmgr _ w1).
  assert (w_fs w2 !! fd = Some bs) as Hfd2 by (simpl; by rewrite Hother).
  rewrite (pwrite_ok fd _ _ w2 bs Hfd2 Ho).
  exists k. eexists. split; [unfold segment_stream; by rewrite stream_ref_length, Hlen|].
  split_and!; [simpl; apply lookup_insert_eq| |done|done|done].
  destruct Hrep as (Hc & Hpk & h & es & Hf & Hrest). split_and!; [done|done|].
  exists h, es. split; [|done]. simpl. rewrite lookup_insert_ne by done. exact Hf.
Qed.

(** The ranges in use, in the order of the file, start at increasing locations
    before the given one. *)
Definition before (loc : WalLocation) (vs : list WRange) : Prop :=
  increasing (ra_start <$> in_use vs) ∧ Forall (λ u, wl_lt (ra_start u) loc) (in_use vs) ∧
  Forall (λ u, WalLocation_wf (ra_start u)) (in_use vs).

Lemma increasing_snoc ls l : increasing ls → Forall (λ x, wl_lt x l) ls → increasing (ls ++ [l]).
Proof.
  intros Hi Hf i j l1 l2 H1 H2 Hij.
  assert (j ≤ length ls)%nat as Hj by (apply lookup_lt_Some in H2; rewrite length_app in H2; simpl in H2; lia).
  rewrite lookup_app_l in H1 by lia. destruct (decide (j = length ls)) as [->|].
  - rewrite lookup_app_r, Nat.sub_diag in H2 by done. injection H2 as <-. by apply (Forall_lookup_1 _ _ _ _ Hf H1).
  - rewrite lookup_app_l in H2 by lia. by apply (Hi i j).
Qed.

(** What a new process gets from the file. *)
Lemma fetched_ranges loc vs v k rs :
  wal_location_valid loc = true → WalLocation_wf loc → wl_le first_location loc → wl_tli loc < MaxTimeLineID →
  ra_type v ≠ WAL_ENCRYPTION_RANGE_INVALID → before loc vs →
  Forall2 range_view rs (in_use (abs_set_location loc k (vs ++ [v]))) →
  ∃ rs0 r, rs = rs0 ++ [r] ∧ range_view r (mkWRange (ra_type v) loc (ra_key v)) ∧
    Forall range_wf (rs0 ++ [r]) ∧ increasing (wr_start <$> rs0 ++ [r]).
Proof.
  intros Hv Hwf Hle Hmax Hty (Hinc & Hlt & Hwfs) Hrs. rewrite in_use_set_location in Hrs by done.
  apply Forall2_app_inv_r in Hrs as (rs0 & rl & Hrs0 & Hl & ->).
  apply Forall2_cons_inv_r in Hl as (r & rl' & Hr & Hl & ->). apply Forall2_nil_inv_r in Hl as ->.
  exists rs0, r. split_and!; [done|done| |].
  - apply Forall_app. split.
    + apply Forall_lookup_2. intros i x Hx. destruct (Forall2_lookup_l _ _ _ _ _ Hrs0 Hx) as (u & Hu & (_ & Hst & Hen & _ & Hk)).
      pose proof (Forall_lookup_1 _ _ _ _ Hlt Hu) as Hlt'. pose proof (Forall_lookup_1 _ _ _ _ Hwfs Hu) as Hwf'.
      simpl in Hlt', Hwf'. split_and!; [by rewrite Hst|done| |apply Hk..]. rewrite Hst.
      etrans; [exact Hlt'|]. by left.
    + apply Forall_singleton. destruct Hr as (_ & Hst & Hen & _ & Hk). simpl in Hst.
      split_and!; [by rewrite Hst|done| |apply Hk..]. rewrite Hst. by left.
  - rewrite fmap_app. simpl. destruct Hr as (_ & -> & _). simpl.
    assert (wr_start <$> rs0 = ra_start <$> in_use vs) as ->.
    { clear -Hrs0. induction Hrs0 as [|x u xs us (_ & Hst & _) _ IH]; [done|]. rewrite !fmap_cons. congruence. }
    apply increasing_snoc; [done|]. by rewrite Forall_fmap.
Qed.

Lemma crypt_keys_fetched w w1 :
  wal_key_cache (w_wal w) = [] → open_pg_tde_fetch_wal_keys first_location w = Ok (Some 0%nat) w1 →
  wal_key_cache (w_wal w1) ≠ [] → crypt_keys w = crypt_keys w1.
Proof.
  intros Hc E Hne. unfold crypt_keys, open_pg_tde_get_wal_cache_keys, mbind, M_bind, gets at 1.
  rewrite Hc, E. unfold gets at 3. by destruct (wal_key_cache (w_wal w1)).
Qed.

(** A process for which the last range of the file starts at [loc], the location
    of the first write: its cache is empty or has the ranges of the file. *)
Definition range_cached (vs : list WRange) (w : World) : Prop :=
  wal_key_cache (w_wal w) = [] ∨
  ∃ rs, cache_ok (wal_key_cache (w_wal w)) ∧ rec_range <$> wal_key_cache (w_wal w) = rec_range <$> chain rs ∧
        Forall2 range_view rs (in_use vs).

Record written (pk : TDEPrincipalKey) (vs : list WRange) (v : WRange) (k : option LKey) (loc : WalLocation) (w : World) : Prop := {
  wn_rep : wal_rep w pk (abs_set_location loc k (vs ++ [v]));
  wn_lock : w_enc_lock w = None;
  wn_lsn : enc_key_lsn (w_xsmgr w) = wl_lsn loc;
  wn_tli : enc_key_tli (w_xsmgr w) = wl_tli loc;
  wn_cache : range_cached (abs_set_location loc k (vs ++ [v])) w;
}.

(** The location of the first write comes after all ranges in use. *)
Record new_range (vs : list WRange) (v : WRange) (loc : WalLocation) (lk : LKey) : Prop := {
  nr_valid : wal_location_valid loc = true;
  nr_wf : WalLocation_wf loc;
  nr_tli : wl_tli loc < MaxTimeLineID;
  nr_before : before loc vs;
  nr_usable : usable (vs ++ [v]);
  nr_type : ra_type v = WAL_ENCRYPTION_RANGE_ENCRYPTED;
  nr_key : ra_key v = Some lk;
}.

Lemma written_keys pk vs v k loc lk w :
  new_range vs v loc lk → written pk vs v k loc w →
  ∃ rs0 r c b1 b2, let w1 := with_cache c b1 b2 w in
    crypt_keys w = Ok (Some 0%nat) w1 ∧ cache_ok c ∧ rec_range <$> c = rec_range <$> chain (rs0 ++ [r]) ∧
    Forall2 range_view (rs0 ++ [r]) (in_use (abs_set_location loc k (vs ++ [v]))) ∧
    range_view r (mkWRange (ra_type v) loc (ra_key v)) ∧ Forall range_wf (rs0 ++ [r]) ∧ increasing (wr_start <$> rs0 ++ [r]).
Proof.
  intros [Hv Hwf Hmax Hbef Hu Hty Hk] [Hrep Hlock Hlsn Htli Hcache]. pose proof (valid_after_first loc Hwf Hv) as Hle.
  assert (ra_type v ≠ WAL_ENCRYPTION_RANGE_INVALID) as Hty' by (by rewrite Hty).
  destruct Hcache as [Hc|(rs & Hok & Hrs & Hvs)].
  - destruct (fetch_wal_keys_spec first_location pk _ w Hrep Hlock) as (rs & b1 & b2 & Hfe & E).
    { eapply Forall_impl; [by apply usable_set_location|]. simpl. intros u Hu' Hw. apply Hu'. intros Hi.
      unfold view_wanted in Hw. by rewrite Hi in Hw. }
    rewrite Hc, fetched_chain in E.
    assert (Forall2 range_view rs (in_use (abs_set_location loc k (vs ++ [v])))) as Hrs.
    { unfold fetched in Hfe. destruct (abs_set_location loc k (vs ++ [v])) eqn:Ea; [|done].
      apply (f_equal length) in Ea. rewrite abs_set_location_length, length_app in Ea. simpl in Ea. lia. }
    destruct (fetched_ranges loc vs v k rs) as (rs0 & r & -> & Hr & Hwfs & Hinc); try done.
    exists rs0, r, (chain (rs0 ++ [r])), b1, b2. split; [|by split_and!; [apply chain_ok|..]].
    pose proof Hr as (_ & Hrst & _). simpl in Hrst.
    assert (∃ c rec, chain (rs0 ++ [r]) = c ++ [rec] ∧ wr_start (rec_range rec) = loc) as (c & rec & Hch & Hst).
    { rewrite <-chain_snoc. unfold cache_add. eexists _, _. by split. }
    rewrite (crypt_keys_fetched w (with_cache (chain (rs0 ++ [r])) b1 b2 w));
      [|done|rewrite E; by destruct rs0|simpl; rewrite Hch; by destruct c].
    eapply (crypt_keys_cached c rec); [done|]. right. simpl. rewrite Hlsn, Htli, Hst. destruct loc. apply wl_lt_absurd.
  - destruct (fetched_ranges loc vs v k rs) as (rs0 & r & -> & Hr & Hwfs & Hinc); try done.
    exists rs0, r, (wal_key_cache (w_wal w)), (wal_prealloc_record (w_wal w)), (wal_prealloc_range (w_wal w)).
    replace (with_cache _ _ _ w) with w by (by destruct w as [? ? ? ? ? ? ? ? ? ? []]). split; [|done].
    pose proof Hr as (_ & Hrst & _). simpl in Hrst.
    assert (∃ c rec, wal_key_cache (w_wal w) = c ++ [rec] ∧ wr_start (rec_range rec) = loc) as (c & rec & Hch & Hst).
    { rewrite <-chain_snoc in Hrs. unfold cache_add in Hrs. rewrite fmap_app in Hrs.
      destruct (wal_key_cache (w_wal w)) as [|x l _] using rev_ind; [by apply symmetry, app_nil in Hrs as [_ ?]|].
      exists l, x. split; [done|]. rewrite fmap_app in Hrs. simpl in Hrs. apply app_inj_tail in Hrs as [_ ->]. done. }
    eapply (crypt_keys_cached c rec); [done|]. right. rewrite Hlsn, Htli, Hst. destruct loc. apply wl_lt_absurd.
Qed.

(** From its start on, the last range encrypts every piece of a segment. *)
Lemma written_crypt pk vs v k loc lk p d in_place w :
  new_range vs v loc lk → written pk vs v k loc w → piece_ok p → wl_le loc (piece_loc p 0) → wl_tli (piece_loc p 0) < MaxTimeLineID →
  Z.of_nat (length d) = p_count p →
  ∃ key c b1 b2, let w' := with_cache c b1 b2 w in
    TDEXLogCryptBuffer (if in_place : bool then None else Some d) d (p_count p) (p_offset p) (p_tli p) (p_segno p) (p_segSize p) w =
      Ok (segment_stream key p d) w' ∧ lkey key = lk ∧ written pk vs v k loc w'.
Proof.
  intros Hn Hw Hp Hle Hmax Hlen. destruct (written_keys pk vs v k loc lk w Hn Hw) as (rs0 & r & c & b1 & b2 & Eck & Hok & Hrs & Hvs & Hr & Hwfs & Hinc).
  destruct (crypt_buffer_spec p d in_place w _ Hp Hlen Eck Hok) as (c' & E & Hok' & Hrs').
  pose proof Hr as (Hrt & Hrst & _ & Hrk & _). simpl in Hrt, Hrst, Hrk.
  exists (wr_key r), c', b1, b2. split; [|split].
  - rewrite E. f_equal. cbn [wal_key_cache w_wal with_cache]. change (wal_key_cache (w_wal (with_cache c b1 b2 w))) with c.
    rewrite Hrs. unfold segment_stream. apply crypt_ref_last; try done; [rewrite Hrt; apply Hn|rewrite Hrst; apply Hn|by rewrite Hrst].
  - pose proof (nr_key _ _ _ _ Hn). congruence.
  - destruct Hw. split; try done. right. exists (rs0 ++ [r]). split_and!; [exact Hok'| |done].
    change (rec_range <$> c' = rec_range <$> chain (rs0 ++ [r])). rewrite Hrs'. exact Hrs.
Qed.

(** A process that starts to read after the first write. *)
Lemma seg_read_spec fd buf0 enc p w pk vs v k loc lk :
  new_range vs v loc lk → written pk vs v k loc w → piece_ok p → wl_le loc (piece_loc p 0) → wl_tli (piece_loc p 0) < MaxTimeLineID →
  pg_pread fd (p_count p) (p_offset p) w = Ok (Some enc) w →
  Z.of_nat (length enc) = p_count p → length buf0 = length enc →
  ∃ key w', lkey key = lk ∧
    tdeheap_xlog_seg_read fd buf0 (p_count p) (p_offset p) (p_tli p) (p_segno p) (p_segSize p) w =
      Ok (p_count p, segment_stream key p enc) w'.
Proof.
  intros Hn Hw Hp Hle Hmax Hrd Hlen Hbuf. pose proof Hp as (_ & Ho & Hcnt & _).
  destruct (written_crypt pk vs v k loc lk p enc true w Hn Hw Hp Hle Hmax Hlen) as (key & c & b1 & b2 & Eb & Hkey & _).
  exists key, (with_cache c b1 b2 w). split; [done|].
  unfold tdeheap_xlog_seg_read. rewrite (bind_ok _ _ _ _ _ Hrd). cbv zeta beta iota.
  rewrite (proj2 (Z.leb_gt _ _)) by lia.
  assert (write_at 0 enc buf0 = enc) as ->.
  { unfold overwrite. simpl. rewrite drop_ge by lia. apply app_nil_r. }
  rewrite (bind_ok _ _ _ _ _ Eb). unfold mret, M_ret. by rewrite Hlen.
Qed.

(** C3: the first write of a server process into the WAL, at any location after
    the ranges that are in use, is read back by a process that starts later
    with an empty cache and finds the ranges in the key file: the write records
    the location, and the reader derives from the file which key to use. *)
Theorem wal_write_then_read fd bs buf buf0 b1 b2 p w pk vs v :
  let loc := piece_loc p 0 in
  fresh_writer w pk vs v → piece_ok p → wal_location_valid loc = true → wl_tli loc < MaxTimeLineID →
  before loc vs →
  (∀ c rec, wal_key_cache (w_wal w) = c ++ [rec] → wl_lt (wr_start (rec_range rec)) loc) →
  w_fs w !! fd = Some bs → fd ≠ wal_path → Z.of_nat (length buf) = p_count p → length buf0 = length buf →
  ∃ w1 w2,
    tdeheap_xlog_seg_write fd buf (p_count p) (p_offset p) (p_tli p) (p_segno p) (p_segSize p) w =
      Ok (p_count p) w1 ∧
    tdeheap_xlog_seg_read fd buf0 (p_count p) (p_offset p) (p_tli p) (p_segno p) (p_segSize p)
      (with_cache [] b1 b2 w1) = Ok (p_count p, buf) w2.
Proof.
  intros loc Hfw Hp Hv Hmax Hbef Hlast Hfd Hne Hlen Hbuf.
  destruct (seg_write_spec fd bs buf p w pk vs v Hfw Hp Hv Hlast Hfd Hne Hlen)
    as (k & w1 & Ew & Hfs & Hrep & Hlock & Hlsn & Htli).
  destruct Hfw as (_ & Hu & _ & _ & _ & _ & Hkey & Hvt & Hvk). fold loc in Hrep, Hlsn, Htli.
  set (cur := CurrentWalEncryptionRange (w_xsmgr w)) in *.
  pose proof Hp as (_ & Ho & Hcnt & _ & Ht & _).
  assert (length (segment_stream (wr_key cur) p buf) = length buf) as Hsl by apply stream_ref_length.
  assert (new_range vs v loc (lkey (wr_key cur))) as Hn by (split; try done; by apply piece_loc_wf).
  destruct (seg_read_spec fd buf0 (segment_stream (wr_key cur) p buf) p (with_cache [] b1 b2 w1) pk vs v k loc
    (lkey (wr_key cur)) Hn) as (key & w2 & Hkey' & Er); try done; try lia.
  - split; try done. by left.
  - by right.
  - rewrite (pread_ok fd _ _ (with_cache [] b1 b2 w1) _ Hfs Ho). do 2 f_equal.
    rewrite <-Hlen, Nat2Z.id, <-Hsl. apply slice_overwrite_same.
  - exists w1, w2. split; [done|]. rewrite Er. do 2 f_equal. unfold segment_stream.
    injection Hkey' as _ -> ->. apply stream_ref_involutive.
Qed.

End write.

(** ** Examples *)

Lemma segment_iv_unique_witness : 1 mod 2 ^ 16 = 65537 mod 2 ^ 16 ∧ 5 = 5.
Proof.
  refine (segment_iv_unique 1 5 65537 5 iv_example 7 eq_refl _ _ _ _ _);
    [unfold is_u32; lia|unfold is_u64; lia|unfold is_u32; lia|unfold is_u64; lia|vm_compute; reflexivity].
Defined.

Lemma iv_fallback_equivalent_witness :
  CalcXLogPageIVPrefix_fallback 3 7 (replicate 16 xff) = CalcXLogPageIVPrefix 3 7 (replicate 16 xff).
Proof.
  refine (iv_fallback_equivalent 3 7 (replicate 16 xff) eq_refl _ _); [unfold is_u32; lia|unfold is_u64; lia].
Defined.

(** One range from location 100 on, and a piece that starts before it. *)
Definition wal_key_example : InternalKey := mkInternalKey 16 CIPHER_AES_128 iv_example key_example.
Definition range_example : WalEncryptionRange :=
  mkWalRange WAL_ENCRYPTION_RANGE_ENCRYPTED wal_key_example loc100 loc_infinity.
Definition rec_example : WALKeyCacheRec := mkWALKeyCacheRec range_example None.
Definition world_cache : World := with_cache [rec_example] false false world0.
Definition piece_example : Piece := mkPiece 64 80 1 0 (2 ^ 20).

Lemma piece_example_ok : piece_ok piece_example.
Proof.
  split_and!; simpl; try done; try (unfold is_u32; lia). exists 20. lia.
Defined.

Lemma range_example_wf : range_wf range_example.
Proof. unfold range_wf. split_and!; try done; by left. Defined.

Lemma world_cache_ready : cache_ready [] rec_example world_cache.
Proof.
  split_and!; [done| |by left]. apply (chain_ok [range_example]).
  - apply Forall_singleton, range_example_wf.
  - intros [|i] [|j] l1 l2 H1 H2 Hij; simplify_eq/=; lia.
Defined.

Lemma crypt_buffer_positionwise_witness :
  ∃ c', TDEXLogCryptBuffer None (replicate 64 x41) 64 80 1 0 (2 ^ 20) world_cache =
          Ok (crypt_ref [range_example] piece_example (replicate 64 x41)) (with_recs c' world_cache) ∧
        cache_ok c' ∧ rec_range <$> c' = [range_example].
Proof.
  exact (crypt_buffer_positionwise piece_example (replicate 64 x41) true [] rec_example world_cache
           piece_example_ok eq_refl world_cache_ready).
Defined.

Lemma wal_crypt_roundtrip_witness :
  ∃ enc w1 w2,
    TDEXLogCryptBuffer (Some (replicate 64 x41)) (replicate 64 x41) 64 80 1 0 (2 ^ 20) world_cache = Ok enc w1 ∧
    TDEXLogCryptBuffer None enc 64 80 1 0 (2 ^ 20) w1 = Ok (replicate 64 x41) w2.
Proof.
  exact (wal_crypt_roundtrip piece_example (replicate 64 x41) [] rec_example world_cache
           piece_example_ok eq_refl world_cache_ready).
Defined.

(** A server that has just created its first range, and an empty segment. *)
Definition seg_name : string := "000000010000000000000001".
Definition writer_of (r : WalEncryptionRange) (w : World) : World :=
  set_xsmgr (mkXLogSmgrState r None 0 0) (set_fs (<[seg_name := []]> (w_fs w)) w).
Definition piece_write : Piece := mkPiece 100 0 1 1 (2 ^ 20).

Lemma piece_write_ok : piece_ok piece_write.
Proof. split_and!; simpl; try done; try (unfold is_u32; lia). exists 20. lia. Defined.

Lemma fresh_writer_from pk w0 :
  wal_rep w0 pk [] → w_enc_lock w0 = None → InCrashRecovery (w_session w0) = false →
  wal_key_cache (w_wal w0) = [] →
  ∃ r w, let v := mkWRange WAL_ENCRYPTION_RANGE_ENCRYPTED loc_unset (Some (lkey (wr_key r))) in
    fresh_writer (writer_of r w) pk [] v ∧ wal_key_cache (w_wal w) = [].
Proof.
  intros Hrep Hlock Hcr Hw0.
  destruct (create_wal_range_spec WAL_ENCRYPTION_RANGE_ENCRYPTED 16 pk [] w0 Hrep Hlock)
    as (r & w & E & Hrep' & Hty & Hst & Hen & Hkey & _ & (f & n & -> & Hother));
    [by left|unfold is_u32, WAL_ENCRYPTION_RANGE_ENCRYPTED; lia|simpl; lia|].
  exists r, (set_fs f (set_rand n w0)). split; [|done].
  split_and!; try done.
  - destruct Hrep' as (Hc & Hpk & h & es & Hf & Hrest). split_and!; [done|done|].
    exists h, es. split; [|done]. simpl. rewrite lookup_insert_ne; [exact Hf|by vm_compute].
  - apply Forall_singleton. by eexists.
Qed.

Lemma fresh_writer_example :
  ∃ r w, let v := mkWRange WAL_ENCRYPTION_RANGE_ENCRYPTED loc_unset (Some (lkey (wr_key r))) in
    fresh_writer (writer_of r w) pkg [] v ∧ wal_key_cache (w_wal w) = [].
Proof.
  destruct world_srv_facts as (Hrep & Hlock & Hw0 & Hs).
  apply (fresh_writer_from pkg world_srv); [exact Hrep|exact Hlock|by rewrite Hs|by rewrite Hw0].
Qed.

Lemma wal_write_then_read_witness :
  ∃ w w1 w2,
    tdeheap_xlog_seg_write seg_name (replicate 100 x41) 100 0 1 1 (2 ^ 20) w = Ok 100 w1 ∧
    tdeheap_xlog_seg_read seg_name (zeros 100) 100 0 1 1 (2 ^ 20) (with_cache [] false false w1) =
      Ok (100, replicate 100 x41) w2.
Proof.
  destruct fresh_writer_example as (r & w & Hfw & Hc). exists (writer_of r w).
  refine (wal_write_then_read seg_name [] (replicate 100 x41) (zeros 100) false false piece_write
            (writer_of r w) pkg [] _ Hfw piece_write_ok _ _ _ _ _ _ _ _); try done.
  - intros c rec Hcr. simpl in Hcr. rewrite Hc in Hcr. by destruct c.
  - apply lookup_insert_eq.
Defined.
