(* ===== verification/ArchiveTools.v ===== *)
(** bin/open_pg_tde_archive_decrypt.c, bin/open_pg_tde_restore_encrypt.c and
    bin/open_pg_tde_fe_archive_common.h: the programs that wrap the archive and
    restore commands of a server, so that the archive holds WAL as it was before
    it was encrypted.

    The programs run on the same files as the server. The directory with the
    keys that they derive from the path of a segment is the one the rest of the
    development works in, so that setting it only resets the caches. Reading
    and writing at the position of a descriptor is reading and writing at the
    sum of what was read or written before. [pg_fatal] and [exit (1)] are errors
    of level [FATAL], crashes are [PANIC]. *)
From S2P Require Import Prelude Types Environ Ciphers EncTde KeyFile KeyMap WalKeys XLogSmgr.

(** ** Segments *)

Definition XLOG_BLCKSZ : Z := 8192.
Definition XLOG_FNAME_LEN : nat := 24.

Definition is_hex (b : byte) : bool :=
  ((48 <=? b2z b) && (b2z b <=? 57)) || ((65 <=? b2z b) && (b2z b <=? 70)).

(** [strspn (s, "0123456789ABCDEF")] *)
Fixpoint strspn_hex (s : bytes) : nat :=
  match s with
  | b :: s => if is_hex b then S (strspn_hex s) else O
  | [] => O
  end.

Definition is_segment (filename : bytes) : bool :=
  let rest := drop XLOG_FNAME_LEN (cstr filename) in
  Nat.eqb (strspn_hex (cstr filename)) XLOG_FNAME_LEN &&
  (Nat.eqb (length rest) 0 || strcmp_eq rest (bytes_of ".partial")).

(** What [sscanf ("%08X")] reads from eight digits. *)
Definition hex_digit (b : byte) : Z := if b2z b <=? 57 then b2z b - 48 else b2z b - 55.
Definition hex_value (s : bytes) : Z := foldl (λ v b, v * 16 + hex_digit b) 0 s.

(** access/xlog_internal.h: the timeline and the number of the segment. [None]
    stands for the division by zero. *)
Definition XLogFromFileName (fname : bytes) (wal_segsz_bytes : Z) : option (Z * Z) :=
  if wal_segsz_bytes =? 0 then None
  else
    let tli := hex_value (slice 0 8 fname) in
    let log := hex_value (slice 8 8 fname) in
    let seg := hex_value (slice 16 8 fname) in
    Some (tli, u64 (log * (0x100000000 / u64 wal_segsz_bytes) + seg)).

Definition IsValidWalSegSize (size : Z) : bool :=
  (0 <? size) && (Z.land size (size - 1) =? 0) && (2 ^ 20 <=? size) && (size <=? 2 ^ 30).

(** [((XLogLongPageHeader) page)->xlp_seg_size], as an int. *)
Definition xlp_seg_size (page : bytes) : Z := i32 (le_dec (slice 32 4 page)).

Section tools.
Context {SSL : OpenSSL} {K : Kernel} {PKS : PrincipalKeys}.

Definition open_file (path : string) (o_creat : bool) : M string :=
  r ← OpenTransientFile path o_creat false;
  match r with
  | Fd fd => mret fd
  | OpenFailed _ => ereport FATAL "could not open file"
  end.

(** [write] of a whole buffer, or an error. *)
Definition write_all (fd : string) (data : bytes) (pos : Z) : M unit :=
  w ← pg_pwrite fd data pos;
  if w <? 0 then ereport FATAL "could not write file"
  else if negb (w =? Z.of_nat (length data)) then ereport FATAL "could not write file: short write"
  else mret tt.

(** ** open_pg_tde_archive_decrypt.c *)

Fixpoint decrypt_loop (fuel : nat) (segfd tmpfd : string) (buf : bytes) (pos tli segno fsize : Z) : M unit :=
  match fuel with
  | O => out_of_fuel
  | S fuel =>
      '(r, buf) ← tdeheap_xlog_seg_read segfd buf XLOG_BLCKSZ pos tli segno fsize;
      if r =? 0 then mret tt
      else if r <? 0 then ereport FATAL "could not read file"
      else
        write_all tmpfd (take (Z.to_nat r) buf) pos;;
        decrypt_loop fuel segfd tmpfd buf (pos + r) tli segno fsize
  end.

Definition write_decrypted_segment (segpath : string) (segname : bytes) (tmppath : string) : M unit :=
  segfd ← open_file segpath false;
  tmpfd ← open_file tmppath true;
  fsize ← lseek_end segfd;
  match XLogFromFileName segname (i32 fsize) with
  | None => ereport PANIC "division by zero"
  | Some (tli, segno) =>
      buf ← uninit (Z.to_nat XLOG_BLCKSZ);
      '(r, buf) ← tdeheap_xlog_seg_read segfd buf XLOG_BLCKSZ 0 tli segno (i32 fsize);
      if negb (r =? XLOG_BLCKSZ) then
        (if r <? 0 then ereport FATAL "could not read file" else ereport FATAL "could not read file: short read")
      else
        let walsegsz := xlp_seg_size buf in
        if negb (walsegsz =? fsize) then ereport FATAL "mismatch of segment size in WAL file"
        else if negb (IsValidWalSegSize walsegsz) then ereport FATAL "invalid WAL segment size in WAL file"
        else
          write_all tmpfd buf 0;;
          fuel ← file_fuel segfd;
          decrypt_loop fuel segfd tmpfd buf r tli segno (i32 fsize)
  end.

(** ** open_pg_tde_restore_encrypt.c *)

Definition seg_write_all (segfd : string) (data : bytes) (pos tli segno walsegsz : Z) : M unit :=
  w ← tdeheap_xlog_seg_write segfd data (Z.of_nat (length data)) pos tli segno walsegsz;
  if w <? 0 then ereport FATAL "could not write file"
  else if negb (w =? Z.of_nat (length data)) then ereport FATAL "could not write file: short write"
  else mret tt.

Fixpoint encrypt_loop (fuel : nat) (tmpfd segfd : string) (pos tli segno walsegsz : Z) : M unit :=
  match fuel with
  | O => out_of_fuel
  | S fuel =>
      r ← pg_pread tmpfd XLOG_BLCKSZ pos;
      match r with
      | None => ereport FATAL "could not read file"
      | Some [] => mret tt
      | Some data =>
          seg_write_all segfd data pos tli segno walsegsz;;
          encrypt_loop fuel tmpfd segfd (pos + Z.of_nat (length data)) tli segno walsegsz
      end
  end.

Definition write_encrypted_segment (segpath : string) (segname : bytes) (tmppath : string) : M unit :=
  tmpfd ← open_file tmppath false;
  segfd ← open_file segpath true;
  r ← pg_pread tmpfd XLOG_BLCKSZ 0;
  match r with
  | None => ereport FATAL "could not read file"
  | Some buf =>
      if negb (Z.of_nat (length buf) =? XLOG_BLCKSZ) then ereport FATAL "could not read file: short read"
      else
        let walsegsz := xlp_seg_size buf in
        if negb (IsValidWalSegSize walsegsz) then ereport FATAL "invalid WAL segment size in WAL file"
        else
          match XLogFromFileName segname walsegsz with
          | None => ereport PANIC "division by zero"
          | Some (tli, segno) =>
              TDEXLogSmgrInitWriteOldKeys;;
              seg_write_all segfd buf 0 tli segno walsegsz;;
              fuel ← file_fuel tmpfd;
              encrypt_loop fuel tmpfd segfd (Z.of_nat (length buf)) tli segno walsegsz
          end
  end.

(** ** The programs *)

(** What comes from outside: the temporary directory, the command with its
    placeholders replaced, its exit status and what it does to files. *)
Class ToolEnv := {
  mkdtemp : gmap string bytes → bytes → option bytes;
  replace_percent_placeholders : bytes → bytes → bytes → option bytes;
  system : gmap string bytes → bytes → Z * gmap string bytes;
}.

Context {TE : ToolEnv}.

Definition MAXPGPATH : nat := 1024.
Definition OPEN_PG_TDE_DATA_DIR : bytes := bytes_of "open_pg_tde".

(** [strrchr (path, '/')], as the index. *)
Definition strrchr_slash (path : bytes) : option nat :=
  foldl (λ r '(i, b), if bool_decide (b = x2f) then Some i else r) None (imap pair (cstr path)).

(** [sep] bytes of [segpath] and a zero are copied into an array of
    [MAXPGPATH]. *)
Definition derive_tde_dir_from_segment_path (segpath : bytes) (sep : option nat) : M bytes :=
  match sep with
  | Some i =>
      if Nat.leb MAXPGPATH i then ereport PANIC "write past the end of segdir"
      else mret (snprintf MAXPGPATH (take i segpath ++ bytes_of "/../" ++ OPEN_PG_TDE_DATA_DIR))
  | None => mret (bytes_of "../" ++ OPEN_PG_TDE_DATA_DIR)
  end.

Definition clean_fe_server_principal_key_cache : M unit :=
  modify (λ w, set_pk_cache (delete GLOBAL_DATA_TDE_OID (w_pk_cache w)) w).

(** The given directory is the one the model calls [open_pg_tde]. *)
Definition open_pg_tde_set_data_dir (dir : bytes) : M unit :=
  open_pg_tde_free_wal_key_cache;;
  clean_fe_server_principal_key_cache.

(** The three types of providers are registered from the start in the model of
    the keyrings, so that the three calls that install them have no effect. *)
Definition open_pg_tde_fe_init (kring_dir : bytes) : M unit :=
  AesInit;;
  open_pg_tde_set_data_dir kring_dir.

(** Part of the path that follows the last slash. *)
Definition base_name (path : bytes) : bytes :=
  match strrchr_slash path with
  | Some i => drop (S i) (cstr path)
  | None => cstr path
  end.

(** [atexit (f)]: [f] runs when the program ends, but not when it crashes. *)
Definition at_exit {A} (f : M unit) (m : M A) : M A := λ w,
  match m w with
  | Ok a w1 => match f w1 with Ok _ w2 => Ok a w2 | Err e w2 => Err e w2 end
  | Err e w1 =>
      match err_level e with
      | PANIC => Err e w1
      | _ => match f w1 with Ok _ w2 => Err e w2 | Err e' w2 => Err e' w2 end
      end
  end.

(** Failing to remove the file is only a warning. Directories are not part of the
    model of the file system. *)
Definition cleanup_tmpdir (tmppath : bytes) : M unit := durable_unlink (string_of tmppath) false.

Definition replaced (command f p : bytes) : M bytes :=
  match replace_percent_placeholders command f p with
  | Some command => mret command
  | None => ereport FATAL "invalid placeholder"
  end.

Definition run_command (command : bytes) : M unit :=
  fs ← gets w_fs;
  let '(rc, fs) := system fs command in
  modify (set_fs fs);;
  if negb (rc =? 0) then ereport FATAL "command failed" else mret tt.

(** [--help] and [--version] *)
Definition only_prints (argv : list bytes) : bool :=
  match argv with
  | _ :: arg :: _ =>
      existsb (λ o, strcmp_eq arg (bytes_of o)) ["--help"; "-?"; "--version"; "-V"]
  | _ => false
  end.

(** [main] of open_pg_tde_archive_decrypt.c *)
Definition archive_decrypt_main (argv : list bytes) : M unit :=
  if only_prints argv then mret tt
  else
    match argv with
    | [_; targetname; sourcepath; command] =>
        if is_segment targetname then
          fs ← gets w_fs;
          match mkdtemp fs (bytes_of "/dev/shm/open_pg_tde_archive") with
          | None => ereport FATAL "could not create temporary directory"
          | Some tmpdir =>
              let tmppath := snprintf MAXPGPATH (tmpdir ++ bytes_of "/" ++ base_name sourcepath) in
              at_exit (cleanup_tmpdir tmppath)
                (command ← replaced command targetname tmppath;
                 tdedir ← derive_tde_dir_from_segment_path sourcepath (strrchr_slash sourcepath);
                 open_pg_tde_fe_init tdedir;;
                 write_decrypted_segment (string_of sourcepath) targetname (string_of tmppath);;
                 run_command command)
          end
        else
          command ← replaced command targetname sourcepath;
          run_command command
    | _ => ereport FATAL "wrong number of arguments"
    end.

(** [main] of open_pg_tde_restore_encrypt.c *)
Definition restore_encrypt_main (argv : list bytes) : M unit :=
  if only_prints argv then mret tt
  else
    match argv with
    | [_; sourcename; targetpath; command] =>
        if is_segment sourcename then
          fs ← gets w_fs;
          match mkdtemp fs (bytes_of "/dev/shm/open_pg_tde_restore") with
          | None => ereport FATAL "could not create temporary directory"
          | Some tmpdir =>
              let tmppath := snprintf MAXPGPATH (tmpdir ++ bytes_of "/" ++ base_name targetpath) in
              at_exit (cleanup_tmpdir tmppath)
                (command ← replaced command sourcename tmppath;
                 run_command command;;
                 tdedir ← derive_tde_dir_from_segment_path targetpath (strrchr_slash targetpath);
                 open_pg_tde_fe_init tdedir;;
                 write_encrypted_segment (string_of targetpath) sourcename (string_of tmppath))
          end
        else
          command ← replaced command sourcename targetpath;
          run_command command
    | _ => ereport FATAL "wrong number of arguments"
    end.

End tools.
