(* ===== verification/ArchiveThms.v ===== *)
(** What the archive tools do to a segment: the decrypted copy and the
    encrypted copy of a segment are what the ranges in the key file say, byte by
    byte; what was archived comes back as it was; and no decrypted copy stays
    behind. *)
From S2P Require Import Prelude Types Environ Instances Ciphers EncTde KeyFile KeyMap KeyMapSpec WalKeys.
From S2P Require Import WalKeysSpec WalKeysThms XLogSmgr XLogSmgrSpec XLogSmgrThms ArchiveTools.

(** ** The reference *)

(** The ranges in use with their ends: each ends where the next one starts. *)
Fixpoint with_ends (vs : list WRange) : list (WRange * WalLocation) :=
  match vs with
  | [] => []
  | v :: vs' => (v, match vs' with [] => loc_infinity | v' :: _ => ra_start v' end) :: with_ends vs'
  end.

Definition view_covers (l : WalLocation) (ve : WRange * WalLocation) : bool :=
  wal_location_valid (ra_start ve.1) && (ra_type ve.1 =? WAL_ENCRYPTION_RANGE_ENCRYPTED) &&
  (wal_location_cmp (ra_start ve.1) l <=? 0) && (wal_location_cmp l ve.2 <? 0).

Section reference.
Context {SSL : OpenSSL} {Spec : OpenSSLSpec SSL}.

(** The byte at a position of a segment, encrypted or decrypted with the key of
    the range its location is in. *)
Definition segment_byte (vs : list WRange) (tli segno segSize : Z) (pos : nat) (b : byte) : byte :=
  match '(v, _) ← find (view_covers (mkWalLocation (segno * segSize + Z.of_nat pos) tli)) (with_ends (in_use vs)); ra_key v with
  | Some k => byte_xor b (keystream_byte (lk_key k) (CalcXLogPageIVPrefix tli segno (lk_base_iv k)) (Z.of_nat pos))
  | None => b
  end.

Definition segment_crypt (vs : list WRange) (tli segno segSize : Z) (d : bytes) : bytes :=
  imap (segment_byte vs tli segno segSize) d.

Lemma segment_crypt_length vs tli segno segSize d : length (segment_crypt vs tli segno segSize d) = length d.
Proof. apply length_imap. Qed.

Lemma segment_crypt_involutive vs tli segno segSize d :
  segment_crypt vs tli segno segSize (segment_crypt vs tli segno segSize d) = d.
Proof.
  apply list_eq. intros i. unfold segment_crypt. rewrite !list_lookup_imap.
  destruct (d !! i) as [b|]; simpl; [|done]. f_equal. unfold segment_byte.
  destruct (find _ _) as [[v e]|]; [|done]. simpl. destruct (ra_key v); [|done]. apply byte_xor_involutive.
Qed.

(** The ranges of the cache do the same. *)
Lemma find_views l rs us :
  Forall2 range_view rs us →
  match find (covers l) (rec_range <$> chain rs), find (view_covers l) (with_ends us) with
  | Some r, Some (v, _) => ra_key v = Some (lkey (wr_key r))
  | None, None => True
  | _, _ => False
  end.
Proof.
  induction 1 as [|r v rs us (Ht & Hs & He & Hk & _) Hrs IH]; [done|].
  cbn [chain with_ends]. rewrite fmap_cons. cbn [find rec_range]. set (e := match us with [] => _ | _ => _ end).
  set (r1 := match rs with [] => _ | _ => _ end).
  assert (wr_start r1 = ra_start v ∧ wr_type r1 = ra_type v ∧ wr_end r1 = e ∧ wr_key r1 = wr_key r) as (E1 & E2 & E3 & E4).
  { unfold r1, e. destruct Hrs as [|r' v' rs us (_ & Hs' & _) _]; by split_and!. }
  assert (covers l r1 = view_covers l (v, e)) as ->.
  { unfold covers, range_active, view_covers. cbn [fst snd]. by rewrite E1, E2, E3. }
  destruct (view_covers l (v, e)); [by rewrite E4|exact IH].
Qed.

Lemma crypt_ref_views rs vs p d :
  Forall2 range_view rs (in_use vs) → 0 <= p_offset p →
  crypt_ref (rec_range <$> chain rs) p d =
    imap (λ i, segment_byte vs (p_tli p) (p_segno p) (p_segSize p) (Z.to_nat (p_offset p) + i)) d.
Proof.
  intros Hrs Ho. apply imap_ext. intros i b _. unfold crypt_byte, segment_byte.
  replace (mkWalLocation _ _) with (piece_loc p i) by (unfold piece_loc; f_equal; lia).
  pose proof (find_views (piece_loc p i) rs (in_use vs) Hrs) as H.
  destruct (find (covers _) _) as [r|], (find (view_covers _) _) as [[v e]|]; try done. cbn [mbind option_bind].
  rewrite H. unfold xor_at, lkey. cbn [lk_key lk_base_iv]. do 2 f_equal. lia.
Qed.

End reference.

(** ** A process with the keys of the file *)

Lemma fetched_views start us rs :
  us ≠ [] → fetched start us rs → Forall2 range_view rs (filter (λ v, view_wanted start v = true) us).
Proof. by destruct us. Qed.

Section tools.
Context {SSL : OpenSSL} {Spec : OpenSSLSpec SSL} {K : Kernel} {NF : NoFaults K} {RW : RandWorks SSL}.
Context {PKS : PrincipalKeys} {PKSpec : PrincipalKeysSpec PKS}.
Context (pk : TDEPrincipalKey) (vs : list WRange).

(** The file has ranges in use, at increasing locations, all of which can be
    decrypted. *)
Definition ranges_ok : Prop := usable vs ∧ in_use vs ≠ [] ∧ before loc_infinity vs.

(** The cache has the ranges of the file. *)
Definition filled (w : World) : Prop :=
  ∃ rs, cache_ok (wal_key_cache (w_wal w)) ∧ rec_range <$> wal_key_cache (w_wal w) = rec_range <$> chain rs ∧
        Forall2 range_view rs (in_use vs).

(** A process that only reads WAL, or writes it with the keys of the file. *)
Definition tool_ok (w : World) : Prop :=
  wal_rep w pk vs ∧ w_enc_lock w = None ∧ (wal_key_cache (w_wal w) = [] ∨ filled w) ∧
  (enc_key_lsn (w_xsmgr w) = 0 ∨ mkWalLocation (enc_key_lsn (w_xsmgr w)) (enc_key_tli (w_xsmgr w)) = loc_infinity).

Context (Hr : ranges_ok).

Lemma ranges_nonempty : vs ≠ [].
Proof. intros E. apply Hr. by rewrite E. Qed.

Lemma views_ranges rs :
  Forall2 range_view rs (in_use vs) → Forall range_wf rs ∧ increasing (wr_start <$> rs) ∧ rs ≠ [].
Proof.
  destruct Hr as (_ & Hne & Hinc & Hlt & Hwf). intros Hrs. split_and!.
  - apply Forall_lookup_2. intros i r Hi. destruct (Forall2_lookup_l _ _ _ _ _ Hrs Hi) as (u & Hu & (_ & Hs & He & _ & Hk)).
    pose proof (Forall_lookup_1 _ _ _ _ Hlt Hu) as H1. pose proof (Forall_lookup_1 _ _ _ _ Hwf Hu) as H2. cbn in H1, H2.
    unfold range_wf. rewrite Hs. by split_and!.
  - replace (wr_start <$> rs) with (ra_start <$> in_use vs); [done|].
    clear -Hrs. induction Hrs as [|r u rs us (_ & Hs & _) _ IH]; [done|]. rewrite !fmap_cons. congruence.
  - intros ->. apply Forall2_nil_inv_l in Hrs. done.
Qed.

Lemma fetch_first w :
  wal_rep w pk vs → w_enc_lock w = None → wal_key_cache (w_wal w) = [] →
  ∃ rs b1 b2, open_pg_tde_fetch_wal_keys first_location w = Ok (Some 0%nat) (with_cache (chain rs) b1 b2 w) ∧
    chain rs ≠ [] ∧ filled (with_cache (chain rs) b1 b2 w).
Proof.
  intros Hrep Hlock Hc. destruct (fetch_wal_keys_spec first_location pk vs w Hrep Hlock) as (rs & b1 & b2 & Hfe & E).
  { eapply Forall_impl; [exact (proj1 Hr)|]. simpl. intros v Hv Hw. apply Hv. intros Ht. unfold view_wanted in Hw. by rewrite Ht in Hw. }
  rewrite Hc, fetched_chain in E.
  pose proof (fetched_views _ _ _ ranges_nonempty Hfe : Forall2 range_view rs (in_use vs)) as Hrs.
  destruct (views_ranges rs Hrs) as (Hwf & Hinc & Hne). exists rs, b1, b2. rewrite E. split_and!.
  - by destruct rs.
  - by destruct rs.
  - exists rs. split_and!; [by apply chain_ok|done|done].
Qed.

(** There is nothing after the last location. *)
Lemma fetch_end w :
  wal_rep w pk vs → w_enc_lock w = None →
  ∃ b1 b2, open_pg_tde_fetch_wal_keys loc_infinity w = Ok None (with_cache (wal_key_cache (w_wal w)) b1 b2 w).
Proof.
  intros Hrep Hlock. assert (∀ v, v ∈ vs → view_wanted loc_infinity v = false) as Hnone.
  { intros v Hv. destruct (view_wanted loc_infinity v) eqn:Hw; [|done]. exfalso.
    unfold view_wanted in Hw. apply andb_prop in Hw as [Hw1 Hw2]. apply Z.leb_le in Hw2.
    assert (v ∈ in_use vs) as Hin.
    { apply list_elem_of_filter. split; [|done]. unfold view_wanted. rewrite Hw1. cbn [andb]. apply Z.leb_le.
      assert (¬ wl_lt (ra_start v) first_location) as Hn; [|rewrite <-wal_location_cmp_lt in Hn; lia].
      intros Hlt. assert (wl_lt (ra_start v) loc_infinity) as Hl by (etrans; [exact Hlt|by left]).
      apply wal_location_cmp_lt in Hl. lia. }
    destruct Hr as (_ & _ & _ & Hlt & _). rewrite Forall_forall in Hlt. apply Hlt, wal_location_cmp_lt in Hin. lia. }
  destruct (fetch_wal_keys_spec loc_infinity pk vs w Hrep Hlock) as (rs & b1 & b2 & Hfe & E).
  { apply Forall_forall. intros v Hv. by rewrite (Hnone v Hv). }
  assert (rs = []) as ->.
  { apply fetched_views in Hfe; [|apply ranges_nonempty]. destruct (filter _ vs) as [|x l] eqn:Ef; [by apply Forall2_nil_inv_r in Hfe|].
    assert (x ∈ filter (λ v, view_wanted loc_infinity v = true) vs) as Hx by (rewrite Ef; left).
    apply list_elem_of_filter in Hx as [Hx1 Hx2]. by rewrite (Hnone x Hx2) in Hx1. }
  by exists b1, b2.
Qed.

Lemma filled_last w :
  filled w → ∃ c rec, wal_key_cache (w_wal w) = c ++ [rec] ∧ wl_lt (wr_start (rec_range rec)) loc_infinity.
Proof.
  intros (rs & [Hok _] & Hrs & Hv). destruct (views_ranges rs Hv) as (_ & _ & Hne).
  destruct (wal_key_cache (w_wal w)) as [|rec c _] using rev_ind.
  - exfalso. apply Hne. destruct rs; [done|]. by cbn in Hrs.
  - exists c, rec. split; [done|]. apply Forall_app in Hok as [_ Hok]. apply Forall_singleton in Hok as (_ & _ & Hlt & _).
    assert (rec_range rec ∈ rec_range <$> chain rs) as Hin by (rewrite <-Hrs, fmap_app; apply elem_of_app; right; left).
    apply list_elem_of_fmap in Hin as (rec' & -> & Hin). apply list_elem_of_lookup in Hin as [i Hi].
    destruct (lookup_lt_is_Some_2 rs i) as [r Hri]; [rewrite <-(chain_length rs); by eapply lookup_lt_Some|].
    rewrite (chain_lookup _ _ _ Hri) in Hi. injection Hi as <-. cbn.
    destruct (views_ranges rs Hv) as (Hwf & _). by apply (Forall_lookup_1 _ _ _ _ Hwf Hri).
Qed.

(** Only the cache changes, to what the file has. *)
Lemma crypt_keys_tool w :
  tool_ok w → ∃ c b1 b2, let w1 := with_cache c b1 b2 w in crypt_keys w = Ok (Some 0%nat) w1 ∧ filled w1.
Proof.
  intros (Hrep & Hlock & Hcache & Hloc).
  assert (∀ w, wal_rep w pk vs → w_enc_lock w = None → filled w →
            (enc_key_lsn (w_xsmgr w) = 0 ∨ mkWalLocation (enc_key_lsn (w_xsmgr w)) (enc_key_tli (w_xsmgr w)) = loc_infinity) →
            ∃ c b1 b2, let w1 := with_cache c b1 b2 w in crypt_keys w = Ok (Some 0%nat) w1 ∧ filled w1) as Hfilled.
  { clear dependent w. intros w Hrep Hlock Hf Hloc. destruct (filled_last w Hf) as (c & rec & Hc & Hlt).
    destruct Hloc as [Hz|Hinf].
    { exists (wal_key_cache (w_wal w)), (wal_prealloc_record (w_wal w)), (wal_prealloc_range (w_wal w)).
      replace (with_cache _ _ _ w) with w by (by destruct w as [? ? ? ? ? ? ? ? ? ? []]). split; [|done].
      eapply (crypt_keys_cached c rec); [done|by left]. }
    destruct (fetch_end w Hrep Hlock) as (b1 & b2 & E). exists (wal_key_cache (w_wal w)), b1, b2.
    split; [|by destruct Hf as (rs & ?); exists rs].
    unfold crypt_keys, open_pg_tde_get_wal_cache_keys. mstep. rewrite Hc at 1.
    assert (match c ++ [rec] with [] => None | _ => Some 0%nat end = Some 0%nat) as -> by (by destruct c).
    rewrite (bind_ok _ _ _ _ _ (ret_ok _ _)). unfold TDEXLogGetEncKeyLsn. mstep.
    injection Hinf as Hl Ht. rewrite Hl. change (negb (MaxXLogRecPtr =? InvalidXLogRecPtr)) with true. cbv iota.
    rewrite (bind_ok _ _ _ _ _ (get_last_ok c rec w Hc)). unfold TDEXLogGetEncKeyTli. mstep. rewrite Ht.
    mstep. rewrite Hc. cbn [mbind option_bind]. rewrite lookup_app_r, Nat.sub_diag by done. cbn [lookup list_lookup].
    apply wal_location_cmp_lt in Hlt. fold loc_infinity. rewrite (proj2 (Z.ltb_lt _ _)) by done. rewrite <-Hc.
    rewrite (bind_ok _ _ _ _ _ E). unfold gets. cbn. rewrite Hc. by destruct c. }
  destruct Hcache as [Hc|Hf]; [|by apply Hfilled].
  destruct (fetch_first w Hrep Hlock Hc) as (rs & b1 & b2 & E & Hne & Hf).
  rewrite (crypt_keys_fetched w _ Hc E Hne).
  destruct (Hfilled (with_cache (chain rs) b1 b2 w)) as (c & b1' & b2' & E' & Hf'); [done..|].
  by exists c, b1', b2'.
Qed.

(** A piece of a segment, in place or between two buffers. *)
Lemma tool_crypt p orig in_place w :
  tool_ok w → piece_ok p → Z.of_nat (length orig) = p_count p →
  ∃ c b1 b2, let w' := with_cache c b1 b2 w in
    TDEXLogCryptBuffer (if in_place : bool then None else Some orig) orig (p_count p) (p_offset p) (p_tli p)
      (p_segno p) (p_segSize p) w =
      Ok (imap (λ i, segment_byte vs (p_tli p) (p_segno p) (p_segSize p) (Z.to_nat (p_offset p) + i)) orig) w' ∧
    tool_ok w'.
Proof.
  intros Hw Hp Hl. destruct (crypt_keys_tool w Hw) as (c & b1 & b2 & E & (rs & Hok & Hrs & Hv)). cbv zeta in *.
  destruct (crypt_buffer_spec p orig in_place w _ Hp Hl E Hok) as (c' & E' & Hok' & Hrs').
  exists c', b1, b2. split.
  - rewrite E'. f_equal. rewrite Hrs. apply crypt_ref_views; [done|apply Hp].
  - destruct Hw as (H1 & H2 & _ & H4). split_and!; try done. right. exists rs. split_and!; [done| |done].
    change (rec_range <$> c' = rec_range <$> chain rs). rewrite Hrs'. exact Hrs.
Qed.

(** ** Segments, block by block *)

Context (tli segno segSize : Z).

Definition segment_ok : Prop :=
  IsValidWalSegSize segSize = true ∧ is_u32 tli ∧ 0 <= segno ∧ (segno + 1) * segSize < 2 ^ 64.

Context (Hseg : segment_ok).

Lemma size_blocks : (∃ n, 0 <= n <= 30 ∧ segSize = 2 ^ n) ∧ ∃ k : nat, segSize = 8192 * Z.of_nat (S k).
Proof.
  destruct Hseg as (Hv & _). unfold IsValidWalSegSize in Hv. apply andb_prop in Hv as [[[H1 H2]%andb_prop H3]%andb_prop H4].
  apply Z.ltb_lt in H1. apply Z.eqb_eq in H2. apply Z.leb_le in H3, H4.
  assert (segSize = 2 ^ Z.log2 segSize) as E.
  { destruct (Z.eq_dec segSize (2 ^ Z.log2 segSize)) as [|Hne]; [done|exfalso].
    destruct (Z.log2_spec segSize H1) as [Hl Hu]. pose proof (Z.log2_nonneg segSize) as Hk0.
    pose proof (Z.bit_log2 segSize H1) as Hb1. remember (Z.log2 segSize) as k eqn:Hk. clear Hk.
    assert (Z.log2 (segSize - 1) = k) as Hk1 by (apply Z.log2_unique; [done|lia]).
    assert (0 < 2 ^ k) by (apply Z.pow_pos_nonneg; lia). pose proof (Z.bit_log2 (segSize - 1) ltac:(lia)) as Hb2. rewrite Hk1 in Hb2.
    assert (Z.testbit (Z.land segSize (segSize - 1)) k = true) as Hb; [|by rewrite H2, Z.bits_0 in Hb].
    by rewrite Z.land_spec, Hb1, Hb2. }
  assert (20 <= Z.log2 segSize <= 30) as Hk.
  { apply Z.log2_le_mono in H3, H4. rewrite Z.log2_pow2 in H3, H4 by lia. lia. }
  remember (Z.log2 segSize) as k eqn:Hlog. clear Hlog.
  split; [exists k; lia|]. exists (Z.to_nat (2 ^ (k - 13) - 1)).
  assert (0 < 2 ^ (k - 13)) by (apply Z.pow_pos_nonneg; lia).
  rewrite E. replace k with (13 + (k - 13)) at 1 by lia. rewrite Z.pow_add_r by lia. lia.
Qed.

Definition block_at (pos : Z) : Piece := mkPiece XLOG_BLCKSZ pos tli segno segSize.

Lemma block_ok pos : 0 <= pos → pos + 8192 <= segSize → piece_ok (block_at pos).
Proof.
  intros H1 H2. destruct size_blocks as [Hp _], Hseg as (_ & Ht & Hs & Hb). unfold XLOG_BLCKSZ.
  split_and!; cbn; try done; unfold XLOG_BLCKSZ; lia.
Qed.

Abbreviation BLK := (Z.to_nat XLOG_BLCKSZ).
Abbreviation crypted := (segment_crypt vs tli segno segSize).

Lemma crypted_slice d n k :
  imap (λ i, segment_byte vs tli segno segSize (n + i)) (slice n k d) = slice n k (crypted d).
Proof.
  apply list_eq. intros i. rewrite list_lookup_imap. unfold slice. destruct (decide (i < k)%nat) as [Hi|Hi].
  - rewrite !lookup_take_lt, !lookup_drop by lia. unfold segment_crypt. by rewrite list_lookup_imap.
  - rewrite !lookup_take_ge by lia. done.
Qed.

Lemma tool_ok_write p d w : p ≠ wal_path → tool_ok w → tool_ok (set_fs (<[p := d]> (w_fs w)) w).
Proof.
  intros Hp ((Hc & Hpk & h & es & Hf & Hrest) & H2 & H3 & H4). split; [|by split]. split_and!; [done|done|].
  exists h, es. split; [|done]. cbn. by rewrite lookup_insert_ne.
Qed.

Lemma read_block segfd seg buf pos w :
  tool_ok w → w_fs w !! segfd = Some seg → Z.of_nat (length seg) = segSize → Z.of_nat (length buf) = 8192 →
  0 <= pos → pos + 8192 <= segSize →
  ∃ c b1 b2, let w' := with_cache c b1 b2 w in
    tdeheap_xlog_seg_read segfd buf XLOG_BLCKSZ pos tli segno segSize w =
      Ok (8192, slice (Z.to_nat pos) BLK (crypted seg)) w' ∧ tool_ok w'.
Proof.
  intros Hw Hf Hl Hb Hp Hle. set (bs := slice (Z.to_nat pos) BLK seg).
  assert (Z.of_nat (length bs) = 8192) as Hbs by (unfold bs, XLOG_BLCKSZ; rewrite slice_length; lia).
  destruct (tool_crypt (block_at pos) bs true w Hw (block_ok pos Hp Hle)) as (c & b1 & b2 & E & Hw').
  { rewrite Hbs. done. }
  exists c, b1, b2. split; [|exact Hw']. unfold tdeheap_xlog_seg_read.
  rewrite (bind_ok _ _ _ _ _ (pread_ok segfd XLOG_BLCKSZ pos w seg Hf Hp)).
  fold bs. cbv zeta. rewrite Hbs. change (8192 <=? 0) with false. cbv iota.
  replace (write_at 0 bs buf) with bs.
  2: { unfold overwrite. simpl. rewrite drop_ge by lia. by rewrite app_nil_r. }
  cbn [block_at p_count p_offset p_tli p_segno p_segSize] in E. rewrite (bind_ok _ _ _ _ _ E).
  unfold bs. by rewrite crypted_slice.
Qed.

(** ** Decrypting *)

Lemma write_all_ok fd d pos bs w :
  w_fs w !! fd = Some bs → 0 <= pos →
  write_all fd d pos w = Ok tt (set_fs (<[fd := write_at (Z.to_nat pos) d bs]> (w_fs w)) w).
Proof.
  intros Hf Hp. unfold write_all. rewrite (bind_ok _ _ _ _ _ (pwrite_ok fd d pos w bs Hf Hp)).
  rewrite (proj2 (Z.ltb_ge _ _)) by lia. by rewrite Z.eqb_refl.
Qed.

Lemma open_file_ok p o_creat w :
  is_Some (w_fs w !! p) ∨ o_creat = true →
  open_file p o_creat w = Ok p (if decide (is_Some (w_fs w !! p)) then w else set_fs (<[p := []]> (w_fs w)) w).
Proof.
  intros H. unfold open_file, OpenTransientFile, mbind, M_bind. rewrite no_fault.
  destruct (w_fs w !! p) as [bs|] eqn:E; [by rewrite decide_True|]. rewrite decide_False by (by intros []).
  destruct H as [[? ?]| ->]; done.
Qed.

(** One more block after those that were copied. *)
Lemma append_block d pos (l : bytes) :
  0 <= pos → pos + 8192 <= Z.of_nat (length l) → d = slice (Z.to_nat pos) BLK l →
  write_at (Z.to_nat pos) d (take (Z.to_nat pos) l) = take (Z.to_nat (pos + 8192)) l.
Proof.
  intros Hp Hl ->. unfold overwrite.
  replace (Z.to_nat pos - length (take (Z.to_nat pos) l))%nat with 0%nat by (rewrite length_take; lia).
  cbn [replicate]. rewrite app_nil_r, (take_ge (take _ l)), (drop_ge (take _ l)), app_nil_r by (rewrite length_take; lia). unfold slice. rewrite take_take_drop. f_equal. unfold XLOG_BLCKSZ. lia.
Qed.

Lemma decrypt_loop_ok segfd tmpfd seg n : ∀ pos fuel buf w,
  segfd ≠ tmpfd → tmpfd ≠ wal_path → Z.of_nat (length seg) = segSize → segSize = pos + 8192 * Z.of_nat n → 0 <= pos →
  (n < fuel)%nat → Z.of_nat (length buf) = 8192 → tool_ok w → w_fs w !! segfd = Some seg →
  w_fs w !! tmpfd = Some (take (Z.to_nat pos) (crypted seg)) →
  ∃ w', decrypt_loop fuel segfd tmpfd buf pos tli segno segSize w = Ok tt w' ∧ tool_ok w' ∧
    w_fs w' = <[tmpfd := crypted seg]> (w_fs w).
Proof.
  induction n as [|n IH]; intros pos fuel buf w Hne Hwal Hl Hs Hp Hfuel Hb Hw Hf Ht; (destruct fuel as [|fuel]; [lia|]);
    cbn [decrypt_loop].
  - exists w. rewrite (bind_ok _ _ w (0, buf) w).
    2: { unfold tdeheap_xlog_seg_read. rewrite (bind_ok _ _ _ _ _ (pread_ok segfd XLOG_BLCKSZ pos w seg Hf Hp)).
         unfold slice. rewrite drop_ge by lia. by rewrite take_nil. }
    split_and!; [done|done|]. rewrite take_ge in Ht by (rewrite segment_crypt_length; lia). by rewrite insert_id.
  - destruct (read_block segfd seg buf pos w Hw Hf Hl Hb Hp) as (c & b1 & b2 & E & Hw1); [lia|]. cbv zeta in E, Hw1.
    set (w1 := with_cache c b1 b2 w) in *. rewrite (bind_ok _ _ _ _ _ E). cbv iota.
    change (8192 =? 0) with false. change (8192 <? 0) with false. cbv iota.
    set (blk := slice (Z.to_nat pos) BLK (crypted seg)) in *.
    assert (Z.of_nat (length blk) = 8192) as Hblk.
    { unfold blk, XLOG_BLCKSZ. rewrite slice_length, segment_crypt_length. lia. }
    rewrite take_ge by lia. rewrite (bind_ok _ _ _ _ _ (write_all_ok tmpfd blk pos _ w1 Ht Hp)).
    rewrite (append_block blk pos (crypted seg)) by (done || rewrite segment_crypt_length; lia).
    set (w2 := set_fs _ w1).
    destruct (IH (pos + 8192) fuel blk w2) as (w' & E' & Hw' & Hfs'); try done; try lia.
    + by apply tool_ok_write.
    + cbn. by rewrite lookup_insert_ne.
    + cbn. apply lookup_insert_eq.
    + exists w'. split_and!; [exact E'|done|]. rewrite Hfs'. cbn. by rewrite insert_insert_eq.
Qed.

Lemma segsize_i32 : i32 segSize = segSize.
Proof.
  destruct Hseg as (Hv & _). unfold IsValidWalSegSize in Hv. apply andb_prop in Hv as [[[H1 _]%andb_prop H3]%andb_prop H4].
  apply Z.leb_le in H3, H4. apply i32_small. lia.
Qed.

Lemma header_of_block d : xlp_seg_size (slice 0 BLK d) = xlp_seg_size d.
Proof.
  unfold xlp_seg_size. do 2 f_equal. unfold slice. rewrite drop_0.
  replace BLK with (32 + Z.to_nat 8160)%nat by (unfold XLOG_BLCKSZ; lia). by rewrite <-take_drop_commute, take_take.
Qed.

(** What a decrypted copy is. *)
Lemma decrypted_segment segpath segname tmppath seg w :
  segpath ≠ tmppath → tmppath ≠ wal_path → XLogFromFileName segname segSize = Some (tli, segno) →
  tool_ok w → w_fs w !! segpath = Some seg → w_fs w !! tmppath = None → Z.of_nat (length seg) = segSize →
  xlp_seg_size (crypted seg) = segSize →
  ∃ w', write_decrypted_segment segpath segname tmppath w = Ok tt w' ∧ tool_ok w' ∧
    w_fs w' = <[tmppath := crypted seg]> (w_fs w).
Proof.
  intros Hne Hwal Hname Hw Hf Ht Hl Hhdr. unfold write_decrypted_segment.
  rewrite (bind_ok _ _ _ _ _ (open_file_ok segpath false w (or_introl (mk_is_Some _ _ Hf)))).
  rewrite decide_True by (by rewrite Hf). rewrite (bind_ok _ _ _ _ _ (open_file_ok tmppath true w (or_intror eq_refl))).
  rewrite decide_False by (rewrite Ht; by intros []). set (w0 := set_fs _ w).
  assert (w_fs w0 !! segpath = Some seg) as Hf0 by (cbn; by rewrite lookup_insert_ne).
  rewrite (bind_ok _ _ _ _ _ (lseek_ok segpath w0 seg Hf0)). rewrite Hl, segsize_i32, Hname.
  rewrite (bind_ok (uninit _) _ w0 _ w0 eq_refl). set (buf := take _ _).
  assert (Z.of_nat (length buf) = 8192) as Hb.
  { unfold buf. rewrite length_take, length_app, zeros_length. unfold XLOG_BLCKSZ. lia. }
  destruct size_blocks as [_ [k Hk]]. assert (tool_ok w0) as Hw0 by (by apply tool_ok_write).
  destruct (read_block segpath seg buf 0 w0 Hw0 Hf0 Hl Hb) as (c & b1 & b2 & E & Hw1); [lia|lia|]. cbv zeta in E, Hw1.
  set (w1 := with_cache c b1 b2 w0) in *. rewrite (bind_ok _ _ _ _ _ E). cbv beta iota.
  change (negb (8192 =? XLOG_BLCKSZ)) with false. cbv iota. change (Z.to_nat 0) with 0%nat. set (blk := slice 0 BLK (crypted seg)).
  assert (xlp_seg_size blk = segSize) as ->.
  { rewrite <-Hhdr. apply header_of_block. }
  rewrite Z.eqb_refl. destruct Hseg as (Hv & _). rewrite Hv. cbn [negb].
  assert (w_fs w1 !! tmppath = Some []) as Ht1 by (cbn; apply lookup_insert_eq).
  rewrite (bind_ok _ _ _ _ _ (write_all_ok tmppath blk 0 [] w1 Ht1 ltac:(lia))).
  change (write_at (Z.to_nat 0) blk []) with (write_at (Z.to_nat 0) blk (take (Z.to_nat 0) (crypted seg))).
  rewrite (append_block blk 0 (crypted seg)) by (done || rewrite segment_crypt_length; lia).
  set (w2 := set_fs _ w1). unfold file_fuel. rewrite (bind_ok (gets _) _ w2 _ w2 eq_refl).
  assert (w_fs w2 !! segpath = Some seg) as Hf2 by (cbn; rewrite lookup_insert_ne; done).
  rewrite Hf2. cbn [default from_option id].
  destruct (decrypt_loop_ok segpath tmppath seg k (0 + 8192) (S (length seg)) blk w2) as (w' & E' & Hw' & Hfs'); try done; try lia.
  - unfold blk, XLOG_BLCKSZ. rewrite slice_length, segment_crypt_length. lia.
  - by apply tool_ok_write.
  - cbn. apply lookup_insert_eq.
  - exists w'. split_and!; [exact E'|done|]. rewrite Hfs'. cbn. by rewrite !insert_insert_eq.
Qed.

(** ** Encrypting *)

(** After [TDEXLogSmgrInitWriteOldKeys]. *)
Definition old_keys_ok (w : World) : Prop :=
  tool_ok w ∧ wr_type (CurrentWalEncryptionRange (w_xsmgr w)) = WAL_ENCRYPTION_RANGE_UNENCRYPTED ∧
  enc_key_lsn (w_xsmgr w) = MaxXLogRecPtr ∧ enc_key_tli (w_xsmgr w) = MaxTimeLineID.

Lemma write_block segfd d bs pos w :
  old_keys_ok w → w_fs w !! segfd = Some bs → segfd ≠ wal_path → Z.of_nat (length d) = 8192 →
  0 <= pos → pos + 8192 <= segSize → tli < MaxTimeLineID →
  ∃ w', seg_write_all segfd d pos tli segno segSize w = Ok tt w' ∧ old_keys_ok w' ∧
    w_fs w' = <[segfd := write_at (Z.to_nat pos)
                           (imap (λ i, segment_byte vs tli segno segSize (Z.to_nat pos + i)) d) bs]> (w_fs w).
Proof.
  intros (Hw & Hty & Hlsn & Htli) Hf Hwal Hd Hp Hle Ht. pose proof (block_ok pos Hp Hle) as Hpiece.
  destruct (tool_crypt (block_at pos) d false w Hw Hpiece Hd) as (c & b1 & b2 & E & Hw1).
  cbv zeta in E, Hw1. set (w1 := with_cache c b1 b2 w) in *. cbn [block_at p_count p_offset p_tli p_segno p_segSize] in E.
  set (enc := imap _ d) in *. assert (length enc = length d) as Hel by apply length_imap.
  exists (set_fs (<[segfd := write_at (Z.to_nat pos) enc bs]> (w_fs w1)) w1). split_and!.
  - unfold seg_write_all. rewrite (bind_ok _ _ w 8192 (set_fs (<[segfd := write_at (Z.to_nat pos) enc bs]> (w_fs w1)) w1)).
    2: { unfold tdeheap_xlog_seg_write. rewrite (bind_ok _ _ w false w).
         2: { unfold tde_ensure_xlog_key_location, TDEXLogGetEncKeyLsn, TDEXLogGetEncKeyTli. do 4 mstep. rewrite Hlsn, Htli.
              change (negb (MaxXLogRecPtr =? 0)) with true. rewrite (proj2 (Z.leb_gt _ _)).
              2: { apply Z.gt_lt, wal_location_cmp_gt. by left. }
              by rewrite !andb_false_r. }
         mstep. rewrite Hty. cbn [negb andb]. change (negb (WAL_ENCRYPTION_RANGE_UNENCRYPTED =? WAL_ENCRYPTION_RANGE_INVALID)) with true.
         cbv iota. unfold TDEXLogWriteEncryptedPagesOldKeys. rewrite Hd. rewrite (bind_ok _ _ _ _ _ E).
         rewrite (pwrite_ok segfd enc pos w1 bs Hf Hp). by rewrite Hel, Hd. }
    rewrite Hd. done.
  - split; [by apply tool_ok_write|done].
  - done.
Qed.

Lemma encrypt_loop_ok tmpfd segfd plain n : ∀ pos fuel w,
  tmpfd ≠ segfd → segfd ≠ wal_path → tli < MaxTimeLineID → Z.of_nat (length plain) = segSize →
  segSize = pos + 8192 * Z.of_nat n → 0 <= pos → (n < fuel)%nat → old_keys_ok w → w_fs w !! tmpfd = Some plain →
  w_fs w !! segfd = Some (take (Z.to_nat pos) (crypted plain)) →
  ∃ w', encrypt_loop fuel tmpfd segfd pos tli segno segSize w = Ok tt w' ∧ tool_ok w' ∧
    w_fs w' = <[segfd := crypted plain]> (w_fs w).
Proof.
  induction n as [|n IH]; intros pos fuel w Hne Hwal Htl Hl Hs Hp Hfuel Hw Hf Ht; (destruct fuel as [|fuel]; [lia|]);
    cbn [encrypt_loop]; rewrite (bind_ok _ _ _ _ _ (pread_ok tmpfd XLOG_BLCKSZ pos w plain Hf Hp)).
  - exists w. unfold slice at 1. rewrite drop_ge by lia. rewrite take_nil. destruct Hw as [Hw _].
    split_and!; [done|done|]. rewrite take_ge in Ht by (rewrite segment_crypt_length; lia). by rewrite insert_id.
  - set (blk := slice (Z.to_nat pos) BLK plain).
    assert (Z.of_nat (length blk) = 8192) as Hblk by (unfold blk, XLOG_BLCKSZ; rewrite slice_length; lia).
    destruct (write_block segfd blk _ pos w Hw Ht Hwal Hblk Hp) as (w1 & E & Hw1 & Hfs1); [lia|done|].
    destruct blk as [|b0 blk'] eqn:Eb; [by cbn in Hblk|]. rewrite <-Eb in *. rewrite (bind_ok _ _ _ _ _ E).
    unfold blk in Hfs1. rewrite crypted_slice in Hfs1.
    rewrite (append_block _ pos (crypted plain)) in Hfs1 by (done || rewrite segment_crypt_length; lia). rewrite Hblk.
    destruct (IH (pos + 8192) fuel w1) as (w' & E' & Hw' & Hfs'); try done; try lia.
    + rewrite Hfs1. by rewrite lookup_insert_ne.
    + rewrite Hfs1. apply lookup_insert_eq.
    + exists w'. split_and!; [exact E'|done|]. by rewrite Hfs', Hfs1, insert_insert_eq.
Qed.

Lemma init_old_keys w : tool_ok w → ∃ w', TDEXLogSmgrInitWriteOldKeys w = Ok tt w' ∧ old_keys_ok w' ∧ w_fs w' = w_fs w.
Proof.
  intros (Hrep & Hlock & Hc & _). unfold TDEXLogSmgrInitWriteOldKeys, set_current_range, TDEXLogSetEncKeyLocation.
  do 2 mstep. unfold open_pg_tde_get_wal_cache_keys. mstep.
  match goal with |- context [set_xsmgr ?x (set_xsmgr ?y w)] => set (w1 := set_xsmgr x (set_xsmgr y w)) end.
  change (wal_key_cache (w_wal w1)) with (wal_key_cache (w_wal w)). destruct (wal_key_cache (w_wal w)) as [|rec c] eqn:Ec.
  - destruct (fetch_first w1 Hrep Hlock Ec) as (rs & b1 & b2 & E & _ & Hf). rewrite (bind_ok _ _ _ _ _ E).
    eexists. split; [reflexivity|]. split; [|done]. split; [|done]. split; [done|]. split; [done|]. split; [by right|by right].
  - exists w1. split; [done|]. split; [|done]. split; [|done]. split; [done|]. split; [done|]. split; [|by right].
    destruct Hc as [|Hf]; [done|by right].
Qed.

(** What an encrypted copy is. *)
Lemma encrypted_segment segpath segname tmppath plain w :
  segpath ≠ tmppath → segpath ≠ wal_path → tli < MaxTimeLineID → XLogFromFileName segname segSize = Some (tli, segno) →
  tool_ok w → w_fs w !! tmppath = Some plain → w_fs w !! segpath = None → Z.of_nat (length plain) = segSize →
  xlp_seg_size plain = segSize →
  ∃ w', write_encrypted_segment segpath segname tmppath w = Ok tt w' ∧ tool_ok w' ∧
    w_fs w' = <[segpath := crypted plain]> (w_fs w).
Proof.
  intros Hne Hwal Htl Hname Hw Hf Ht Hl Hhdr. unfold write_encrypted_segment.
  rewrite (bind_ok _ _ _ _ _ (open_file_ok tmppath false w (or_introl (mk_is_Some _ _ Hf)))).
  rewrite decide_True by (by rewrite Hf). rewrite (bind_ok _ _ _ _ _ (open_file_ok segpath true w (or_intror eq_refl))).
  rewrite decide_False by (rewrite Ht; by intros []). set (w0 := set_fs _ w).
  assert (w_fs w0 !! tmppath = Some plain) as Hf0 by (cbn; by rewrite lookup_insert_ne).
  rewrite (bind_ok _ _ _ _ _ (pread_ok tmppath XLOG_BLCKSZ 0 w0 plain Hf0 ltac:(lia))).
  destruct size_blocks as [_ [k Hk]]. change (Z.to_nat 0) with 0%nat. set (blk := slice 0 BLK plain).
  assert (Z.of_nat (length blk) = 8192) as Hblk by (unfold blk, XLOG_BLCKSZ; rewrite slice_length; lia).
  rewrite Hblk. change (negb (8192 =? XLOG_BLCKSZ)) with false. cbv beta iota zeta.
  assert (xlp_seg_size blk = segSize) as ->.
  { rewrite <-Hhdr. apply header_of_block. }
  destruct Hseg as (Hv & _). rewrite Hv. cbn [negb]. rewrite Hname.
  destruct (init_old_keys w0) as (w1 & E1 & Hw1 & Hfs1); [by apply tool_ok_write|]. rewrite (bind_ok _ _ _ _ _ E1).
  assert (w_fs w1 !! segpath = Some []) as Ht1 by (rewrite Hfs1; apply lookup_insert_eq).
  destruct (write_block segpath blk [] 0 w1 Hw1 Ht1 Hwal Hblk) as (w2 & E2 & Hw2 & Hfs2); [lia|lia|done|].
  rewrite (bind_ok _ _ _ _ _ E2). change (Z.to_nat 0) with 0%nat in Hfs2. unfold blk in Hfs2. rewrite (crypted_slice plain 0) in Hfs2.
  change (write_at 0 ?b []) with (write_at (Z.to_nat 0) b (take (Z.to_nat 0) (crypted plain))) in Hfs2.
  rewrite (append_block _ 0 (crypted plain)) in Hfs2 by (done || rewrite segment_crypt_length; lia).
  unfold file_fuel. rewrite (bind_ok (gets _) _ w2 _ w2 eq_refl).
  assert (w_fs w2 !! tmppath = Some plain) as Hf2 by (rewrite Hfs2, Hfs1; cbn; by rewrite !lookup_insert_ne).
  rewrite Hf2. cbn [default from_option id].
  destruct (encrypt_loop_ok tmppath segpath plain k (0 + 8192) (S (length plain)) w2) as (w' & E' & Hw' & Hfs'); try done; try lia.
  - rewrite Hfs2. apply lookup_insert_eq.
  - exists w'. split_and!; [exact E'|done|]. rewrite Hfs', Hfs2, Hfs1. cbn. by rewrite !insert_insert_eq.
Qed.

End tools.

(** ** Archiving and restoring *)

Section archive.
Context {SSL : OpenSSL} {Spec : OpenSSLSpec SSL} {K : Kernel} {NF : NoFaults K} {RW : RandWorks SSL}.
Context {PKS : PrincipalKeys} {PKSpec : PrincipalKeysSpec PKS}.

(** C32: archiving a segment writes a copy of it in which every byte is decrypted
    with the key of the range its location is in, wherever the ranges start and
    end; restoring this copy, by a process that starts later with the same
    ranges in the key file, writes the segment as it was. *)
Theorem archive_then_restore pk vs tli segno segSize name segpath tmppath seg w :
  ranges_ok vs → segment_ok tli segno segSize → tli < MaxTimeLineID →
  XLogFromFileName name segSize = Some (tli, segno) → segpath ≠ tmppath → tmppath ≠ wal_path →
  tool_ok pk vs w → w_fs w !! segpath = Some seg → w_fs w !! tmppath = None → Z.of_nat (length seg) = segSize →
  let plain := segment_crypt vs tli segno segSize seg in
  xlp_seg_size plain = segSize →
  ∃ w1, write_decrypted_segment segpath name tmppath w = Ok tt w1 ∧ w_fs w1 = <[tmppath := plain]> (w_fs w) ∧
    ∀ w2 segpath2 tmppath2, tool_ok pk vs w2 → segpath2 ≠ tmppath2 → segpath2 ≠ wal_path →
      w_fs w2 !! tmppath2 = Some plain → w_fs w2 !! segpath2 = None →
      ∃ w3, write_encrypted_segment segpath2 name tmppath2 w2 = Ok tt w3 ∧
        w_fs w3 = <[segpath2 := seg]> (w_fs w2).
Proof.
  intros Hr Hs Htl Hn Hne Hwal Hw Hf Ht Hl plain Hhdr.
  destruct (decrypted_segment pk vs Hr tli segno segSize Hs segpath name tmppath seg w) as (w1 & E1 & _ & Hfs1); try done.
  exists w1. split_and!; [done|done|]. intros w2 segpath2 tmppath2 Hw2 Hne2 Hwal2 Hf2 Ht2.
  destruct (encrypted_segment pk vs Hr tli segno segSize Hs segpath2 name tmppath2 plain w2) as (w3 & E3 & _ & Hfs3); try done.
  { unfold plain. by rewrite segment_crypt_length. }
  exists w3. split; [done|]. rewrite Hfs3. unfold plain. by rewrite segment_crypt_involutive.
Qed.

Context {TE : ToolEnv}.

(** The file is gone when a program ends without crashing. *)
Definition copy_gone {A} (tmppath : string) (r : Res A) : Prop :=
  match r with
  | Ok _ w => w_fs w !! tmppath = None
  | Err e w => err_level e = PANIC ∨ w_fs w !! tmppath = None
  end.

Lemma cleanup_ok p w : ∃ w', cleanup_tmpdir p w = Ok tt w' ∧ w_fs w' !! string_of p = None.
Proof.
  unfold cleanup_tmpdir, durable_unlink. rewrite no_fault. destruct (w_fs w !! string_of p) as [bs|] eqn:E.
  - eexists. split; [done|]. cbn. apply lookup_delete_eq.
  - by exists w.
Qed.

Lemma at_exit_gone {A} p (m : M A) w : copy_gone (string_of p) (at_exit (cleanup_tmpdir p) m w).
Proof.
  unfold at_exit. destruct (m w) as [a w1|e w1].
  - by destruct (cleanup_ok p w1) as (w2 & -> & H).
  - destruct (cleanup_ok p w1) as (w2 & E & H). destruct (err_level e) eqn:Ee; rewrite ?E; cbn; [by right|by right|by left].
Qed.

(** Whatever the segment and its keys are, whatever the command does and
    wherever the program gives up, the decrypted copy of a segment in the
    temporary directory is gone when one of the programs ends, unless it
    crashes. *)
Theorem archive_copy_removed prog name path command dir w :
  is_segment name = true → only_prints [prog; name; path; command] = false →
  let tmppath := string_of (snprintf MAXPGPATH (dir ++ bytes_of "/" ++ base_name path)) in
  (mkdtemp (w_fs w) (bytes_of "/dev/shm/open_pg_tde_archive") = Some dir →
   copy_gone tmppath (archive_decrypt_main [prog; name; path; command] w)) ∧
  (mkdtemp (w_fs w) (bytes_of "/dev/shm/open_pg_tde_restore") = Some dir →
   copy_gone tmppath (restore_encrypt_main [prog; name; path; command] w)).
Proof.
  intros Hs Hp tmppath. unfold archive_decrypt_main, restore_encrypt_main. rewrite Hp, Hs.
  split; intros Hd; rewrite (bind_ok (gets w_fs) _ w (w_fs w) w eq_refl), Hd; apply at_exit_gone.
Qed.

End archive.

(** ** A cluster with one range and one segment *)

Lemma tool_example :
  ∃ w vs, tool_ok pkg vs w ∧ ranges_ok vs ∧ wal_key_cache (w_wal w) = [].
Proof.
  destruct fresh_writer_example as (r & w & Hfw & Hc). set (v := mkWRange _ _ _) in Hfw.
  set (loc := piece_loc piece_write 0).
  assert (wal_location_valid loc = true) as Hval by (vm_compute; reflexivity).
  destruct (seg_write_spec seg_name [] (replicate 100 x41) piece_write (writer_of r w) pkg [] v Hfw piece_write_ok Hval)
    as (k & w1 & _ & _ & Hrep & Hlock & _); [|apply lookup_insert_eq|done|done|].
  { intros c rec Hcr. simpl in Hcr. rewrite Hc in Hcr. by destruct c. }
  exists (set_xsmgr (mkXLogSmgrState dummy_range None 0 0) (with_cache [] false false w1)), (abs_set_location loc k ([] ++ [v])).
  destruct Hfw as (_ & Hu & _). assert (in_use (abs_set_location loc k ([] ++ [v])) = [mkWRange (ra_type v) loc (ra_key v)]) as Hin.
  { apply (in_use_set_location loc k [] v); [done|done| |constructor].
    apply valid_after_first; [apply (piece_loc_wf _ piece_write_ok)|done]. }
  split; [|split; [|done]].
  - split; [exact Hrep|]. split; [exact Hlock|]. split; by left.
  - split; [by apply usable_set_location|]. unfold before. rewrite Hin. split; [done|]. split_and!.
    + intros [|i] [|j] l1 l2 H1 H2 Hij; simplify_eq/=; lia.
    + apply Forall_singleton. by left.
    + apply Forall_singleton. apply (piece_loc_wf _ piece_write_ok).
Qed.

Definition page0 : bytes := zeros 32 ++ le_enc 4 (2 ^ 20).
Definition plain0 : bytes := page0 ++ zeros (Z.to_nat (2 ^ 20 - 36)).

Lemma plain0_facts : Z.of_nat (length plain0) = 2 ^ 20 ∧ xlp_seg_size plain0 = 2 ^ 20.
Proof.
  unfold plain0. generalize (zeros_length (Z.to_nat (2 ^ 20 - 36))). generalize (zeros (Z.to_nat (2 ^ 20 - 36))).
  intros l Hl. split; [rewrite length_app, Hl; change (length page0) with 36%nat; lia|].
  unfold xlp_seg_size, slice. rewrite drop_app_le by (change (length page0) with 36%nat; lia).
  rewrite take_app_le by (vm_compute; lia). vm_compute. reflexivity.
Qed.

Lemma archive_then_restore_witness :
  ∃ w vs seg w1, w_fs w !! seg_name = Some seg ∧ write_decrypted_segment seg_name (bytes_of seg_name) "/dev/shm/x" w = Ok tt w1 ∧
    w_fs w1 !! "/dev/shm/x" = Some (segment_crypt vs 1 1 (2 ^ 20) seg).
Proof.
  destruct tool_example as (w & vs & Hw & Hr & Hc). set (seg := segment_crypt vs 1 1 (2 ^ 20) plain0).
  destruct plain0_facts as [Hl Hh].
  set (w' := set_fs (delete "/dev/shm/x" (<[seg_name := seg]> (w_fs w))) w).
  assert (tool_ok pkg vs w') as Hw'.
  { destruct Hw as ((H1 & H2 & h & es & Hf & Hrest) & H3 & H4 & H5). split; [|exact (conj H3 (conj H4 H5))].
    split; [exact H1|]. split; [exact H2|]. exists h, es. split; [|exact Hrest]. unfold w'. cbn [w_fs set_fs].
    rewrite lookup_delete_ne, lookup_insert_ne by discriminate. exact Hf. }
  exists w', vs, seg. assert (w_fs w' !! seg_name = Some seg) as Hseg.
  { unfold w'. cbn [w_fs set_fs]. rewrite lookup_delete_ne by discriminate. apply lookup_insert_eq. }
  destruct (archive_then_restore pkg vs 1 1 (2 ^ 20) (bytes_of seg_name) seg_name "/dev/shm/x" seg w' Hr) as (w1 & E & Hfs & _).
  - split_and!; [vm_compute; reflexivity|unfold is_u32; lia|lia|lia].
  - vm_compute. reflexivity.
  - vm_compute. reflexivity.
  - discriminate.
  - discriminate.
  - exact Hw'.
  - exact Hseg.
  - apply lookup_delete_eq.
  - unfold seg. rewrite segment_crypt_length. exact Hl.
  - unfold seg. rewrite segment_crypt_involutive. exact Hh.
  - exists w1. split_and!; [exact Hseg|exact E|]. rewrite Hfs. apply lookup_insert_eq.
Defined.

#[local] Instance CopyCommand : ToolEnv := {
  mkdtemp _ p := Some (p ++ bytes_of "abcdef");
  replace_percent_placeholders c f p := Some c;
  system fs c := (0, fs);
}.

Definition archive_args : list bytes :=
  [bytes_of "x"; bytes_of seg_name; bytes_of "pg_wal/000000010000000000000001"; bytes_of "cp"].
Definition archive_copy : bytes :=
  snprintf MAXPGPATH (bytes_of "/dev/shm/open_pg_tde_archiveabcdef" ++ bytes_of "/" ++
                      base_name (bytes_of "pg_wal/000000010000000000000001")).

Lemma archive_copy_removed_witness :
  string_of archive_copy = "/dev/shm/open_pg_tde_archiveabcdef/000000010000000000000001" ∧
  copy_gone (string_of archive_copy) (archive_decrypt_main archive_args world0).
Proof.
  split; [vm_compute; reflexivity|].
  exact (proj1 (archive_copy_removed (bytes_of "x") (bytes_of seg_name) (bytes_of "pg_wal/000000010000000000000001") (bytes_of "cp")
           (bytes_of "/dev/shm/open_pg_tde_archiveabcdef") world0 eq_refl eq_refl) eq_refl).
Defined.
