(* ===== verification/Keyring.v ===== *)
(** keyring/keyring_api.c and keyring/keyring_file.c: fetching, generating and
    storing principal keys, and the provider that keeps them in a file.

    The routines of the providers that talk to a service are parameters. The
    registry of provider types is the constant list that the module
    initialisation builds. Warnings are not recorded. *)
From S2P Require Import Prelude Types Environ Instances Ciphers EncTde KeyFile.

(** ** Layout of [KeyInfo]: name, key buffer, length; no padding *)

Definition sizeof_KeyInfo : Z := 292.

Definition KeyInfo_encode (k : KeyInfo) : bytes :=
  ki_name k ++ kd_data (ki_data k) ++ enc_u32 (kd_len (ki_data k)).

Definition KeyInfo_decode (bs : bytes) : KeyInfo :=
  mkKeyInfo (slice 0 256 bs) (mkKeyData (slice 256 32 bs) (le_dec (slice 288 4 bs))).

#[global] Arguments KeyInfo_encode : simpl never.
#[global] Arguments KeyInfo_decode : simpl never.

Definition KeyInfo_wf (k : KeyInfo) : Prop :=
  length (ki_name k) = 256%nat ∧ length (kd_data (ki_data k)) = 32%nat ∧ is_u32 (kd_len (ki_data k)).

Section keyring.
Context {SSL : OpenSSL} {K : Kernel} {PP : PgPort}.

(** ** keyring_file.c *)

(** [((FileKeyring * ) keyring)->file_name] *)
Definition kr_file_name (keyring : GenericKeyring) : M string :=
  match kr_specific keyring with
  | FileKeyring (Some file_name) => mret file_name
  | _ => ereport PANIC "not a file key provider"
  end.

Fixpoint get_key_loop (fuel : nat) (fd : string) (key_name : bytes) (curr_pos : Z)
  : M (option KeyInfo * KeyringReturnCode) :=
  match fuel with
  | O => out_of_fuel
  | S fuel =>
      r ← pg_pread fd sizeof_KeyInfo curr_pos;
      match r with
      | Some [] => mret (None, KEYRING_CODE_SUCCESS)
      | Some bs =>
          if negb (Z.of_nat (length bs) =? sizeof_KeyInfo) then mret (None, KEYRING_CODE_DATA_CORRUPTED)
          else
            let key := KeyInfo_decode bs in
            if pg_strncasecmp_eq (ki_name key) key_name 256
            then mret (Some key, KEYRING_CODE_SUCCESS)
            else get_key_loop fuel fd key_name (curr_pos + Z.of_nat (length bs))
      | None => mret (None, KEYRING_CODE_DATA_CORRUPTED)
      end
  end.

Definition get_key_by_name (keyring : GenericKeyring) (key_name : bytes)
  : M (option KeyInfo * KeyringReturnCode) :=
  file_name ← kr_file_name keyring;
  r ← OpenTransientFile file_name false false;
  match r with
  | OpenFailed _ => mret (None, KEYRING_CODE_SUCCESS)
  | Fd fd => fuel ← file_fuel fd; get_key_loop fuel fd key_name 0
  end.

Definition set_key_by_name (keyring : GenericKeyring) (key : KeyInfo) : M unit :=
  '(existing_key, _) ← get_key_by_name keyring (ki_name key);
  match existing_key with
  | Some _ => ereport ERROR "Key with name already exists in keyring"
  | None =>
      file_name ← kr_file_name keyring;
      r ← OpenTransientFile file_name true false;
      match r with
      | OpenFailed _ => ereport ERROR "Failed to open keyring file"
      | Fd fd =>
          curr_pos ← lseek_end fd;
          bytes_written ← pg_pwrite fd (KeyInfo_encode key) curr_pos;
          if negb (bytes_written =? sizeof_KeyInfo) then ereport ERROR "keyring file can't be written"
          else
            r ← pg_fsync fd;
            if negb (r =? 0) then ereport ERROR "could not fsync file"
            else CloseTransientFile fd
      end
  end.

Definition validate (keyring : GenericKeyring) : M unit :=
  file_name ← kr_file_name keyring;
  r ← OpenTransientFile file_name true false;
  match r with
  | OpenFailed _ => ereport ERROR "Failed to open keyring file"
  | Fd fd => CloseTransientFile fd
  end.

(** ** keyring_api.c *)

Record TDEKeyringRoutine := mkRoutine {
  keyring_get_key : GenericKeyring → bytes → M (option KeyInfo * KeyringReturnCode);
  keyring_store_key : GenericKeyring → KeyInfo → M unit;
  keyring_validate : GenericKeyring → M unit;
}.

Record RegisteredKeyProviderType := mkRegistered {
  rk_routine : TDEKeyringRoutine;
  rk_type : Z;
}.

Definition keyringFileRoutine : TDEKeyringRoutine := mkRoutine get_key_by_name set_key_by_name validate.

Fixpoint find_key_provider_type (types : list RegisteredKeyProviderType) (type : Z)
  : option RegisteredKeyProviderType :=
  match types with
  | [] => None
  | kp :: types => if rk_type kp =? type then Some kp else find_key_provider_type types type
  end.

(** The registry with a new type, or [None] when the code raises an error. *)
Definition RegisterKeyProviderType (types : list RegisteredKeyProviderType) (routine : TDEKeyringRoutine)
  (type : Z) : option (list RegisteredKeyProviderType) :=
  match find_key_provider_type types type with
  | Some _ => None
  | None => Some (types ++ [mkRegistered routine type])
  end.

Definition InstallFileKeyring (types : list RegisteredKeyProviderType) : option (list RegisteredKeyProviderType) :=
  RegisterKeyProviderType types keyringFileRoutine FILE_KEY_PROVIDER.

(** The routines of keyring_kmip.c and keyring_openbao.c. *)
Class NetworkKeyrings := {
  keyringKmipRoutine : TDEKeyringRoutine;
  keyringOpenBaoRoutine : TDEKeyringRoutine;
}.

Context {NK : NetworkKeyrings}.

(** After the module has been loaded. *)
Definition registeredKeyProviderTypes : list RegisteredKeyProviderType :=
  default [] (types ← InstallFileKeyring [];
              types ← RegisterKeyProviderType types keyringKmipRoutine KMIP_KEY_PROVIDER;
              RegisterKeyProviderType types keyringOpenBaoRoutine OPENBAO_KEY_PROVIDER).

Definition ValidateKey (key : KeyInfo) : bool :=
  if Nat.eqb (length (cstr (ki_name key))) 0 then false
  else if kd_len (ki_data key) =? 0 then false
  else if negb (kd_len (ki_data key) =? KEY_DATA_SIZE_128) && negb (kd_len (ki_data key) =? KEY_DATA_SIZE_256)
  then false
  else true.

Definition KeyringGetKey (keyring : GenericKeyring) (key_name : bytes) : M (option KeyInfo * KeyringReturnCode) :=
  match find_key_provider_type registeredKeyProviderTypes (kr_type keyring) with
  | None => mret (None, KEYRING_CODE_INVALID_PROVIDER)
  | Some kp =>
      '(key, returnCode) ← keyring_get_key (rk_routine kp) keyring key_name;
      if negb (bool_decide (returnCode = KEYRING_CODE_SUCCESS)) then mret (None, returnCode)
      else
        match key with
        | None => mret (None, returnCode)
        | Some key => if ValidateKey key then mret (Some key, returnCode)
                      else mret (None, KEYRING_CODE_INVALID_KEY)
        end
  end.

Definition KeyringStoreKey (keyring : GenericKeyring) (key : KeyInfo) : M unit :=
  match find_key_provider_type registeredKeyProviderTypes (kr_type keyring) with
  | None => ereport ERROR "Key provider of type not registered"
  | Some kp => keyring_store_key (rk_routine kp) keyring key
  end.

(** [strlcpy (key->name, key_name, sizeof (key->name))] into a zeroed array:
    at most 255 bytes are copied. *)
Definition KeyringGenerateNewKey (key_name : bytes) (key_len : Z) : M KeyInfo :=
  r ← rand_bytes key_len;
  match r with
  | None => ereport ERROR "could not generate new principal key"
  | Some data =>
      mret (mkKeyInfo (char_array TDE_KEY_NAME_LEN (take 255 (cstr key_name)))
              (mkKeyData (write_at 0 data (zeros (Z.to_nat MAX_KEY_DATA_SIZE))) key_len))
  end.

Definition KeyringGenerateNewKeyAndStore (keyring : GenericKeyring) (key_name : bytes) (key_len : Z) : M KeyInfo :=
  key ← KeyringGenerateNewKey key_name key_len;
  KeyringStoreKey keyring key;;
  mret key.

Definition KeyringValidate (keyring : GenericKeyring) : M unit :=
  match find_key_provider_type registeredKeyProviderTypes (kr_type keyring) with
  | None => ereport ERROR "Key provider of type not registered"
  | Some kp => keyring_validate (rk_routine kp) keyring
  end.

Definition KeyringErrorCodeToString (code : KeyringReturnCode) : string :=
  match code with
  | KEYRING_CODE_SUCCESS => "Success"
  | KEYRING_CODE_INVALID_PROVIDER => "Invalid key"
  | KEYRING_CODE_RESOURCE_NOT_AVAILABLE => "Resource not available"
  | KEYRING_CODE_INVALID_RESPONSE => "Invalid response from keyring provider"
  | KEYRING_CODE_INVALID_KEY => "Invalid key"
  | KEYRING_CODE_DATA_CORRUPTED => "Data corrupted"
  end.

End keyring.
