(* ===== verification/KeyringThms.v ===== *)
(** Properties of the key providers: what a file of keys stands for, that a
    created key is found again, and which keys are ever handed out. *)
From S2P Require Import Prelude Types Environ Instances Ciphers EncTde KeyFile KeyMap KeyMapSpec Keyring.

Lemma KeyInfo_encode_length k : KeyInfo_wf k → length (KeyInfo_encode k) = 292%nat.
Proof. intros (? & ? & ?). unfold KeyInfo_encode. by len_simpl. Qed.

Lemma KeyInfo_decode_encode k : KeyInfo_wf k → KeyInfo_decode (KeyInfo_encode k) = k.
Proof.
  intros (? & ? & ?). unfold KeyInfo_decode, KeyInfo_encode. slice_simpl.
  rewrite dec_enc_u32 by done. by destruct k as [? []].
Qed.

Section file.
Context {SSL : OpenSSL} {K : Kernel} {NF : NoFaults K} {PP : PgPort}.

(** ** The file as a list of keys *)

Definition keys_file : list KeyInfo → bytes := rfile KeyInfo_encode.

Definition same_name (name : bytes) (k : KeyInfo) : bool := pg_strncasecmp_eq (ki_name k) name 256.

Definition find_key (ks : list KeyInfo) (name : bytes) : option KeyInfo :=
  snd <$> list_find (λ k, same_name name k = true) ks.

(** The keys of a file; a missing file has none. *)
Definition keyring_rep (w : World) (file : string) (ks : list KeyInfo) : Prop :=
  Forall KeyInfo_wf ks ∧
  ((w_fs w !! file = None ∧ ks = []) ∨ w_fs w !! file = Some (keys_file ks)).

Lemma keys_file_length ks : Forall KeyInfo_wf ks → length (keys_file ks) = (length ks * 292)%nat.
Proof. apply rfile_length, KeyInfo_encode_length. Qed.

Lemma keys_file_slice ks i :
  Forall KeyInfo_wf ks →
  slice (i * 292) 292 (keys_file ks) = match ks !! i with Some k => KeyInfo_encode k | None => [] end.
Proof. apply rfile_slice, KeyInfo_encode_length. Qed.

Lemma find_key_drop ks name i k :
  ks !! i = Some k → find_key (drop i ks) name =
    if same_name name k then Some k else find_key (drop (S i) ks) name.
Proof.
  intros E. rewrite (drop_S _ _ _ E). unfold find_key. simpl.
  destruct (same_name name k); simpl; [done|]. by destruct (list_find _ _) as [[]|].
Qed.

Lemma get_key_loop_ok ks name file fuel i w :
  Forall KeyInfo_wf ks → w_fs w !! file = Some (keys_file ks) →
  (i ≤ length ks)%nat → (length ks < i + fuel)%nat →
  get_key_loop fuel file name (Z.of_nat (i * 292)) w =
    Ok (find_key (drop i ks) name, KEYRING_CODE_SUCCESS) w.
Proof.
  intros Hwf Hf. revert i. induction fuel as [|fuel IH]; intros i Hi Hfuel; cbn [get_key_loop].
  { lia. }
  rewrite (bind_ok _ _ _ _ _ (pread_ok _ _ (Z.of_nat (i * 292)) w _ Hf ltac:(lia))). rewrite Nat2Z.id.
  change (Z.to_nat sizeof_KeyInfo) with 292%nat. rewrite keys_file_slice by done.
  destruct (ks !! i) as [k|] eqn:E.
  - pose proof (Forall_lookup_1 _ _ _ _ Hwf E) as Hk.
    rewrite (find_key_drop _ _ _ _ E). pose proof (KeyInfo_encode_length k Hk) as Hl.
    destruct (KeyInfo_encode k) as [|b bs] eqn:Eb; [done|].
    cbv beta iota. rewrite Hl. change (negb (Z.of_nat 292 =? sizeof_KeyInfo)) with false. cbv iota.
    rewrite <-Eb, KeyInfo_decode_encode by done.
    change (pg_strncasecmp_eq (ki_name k) name _) with (same_name name k).
    destruct (same_name name k); [done|].
    replace (Z.of_nat (i * 292) + Z.of_nat 292) with (Z.of_nat (S i * 292)) by lia.
    apply lookup_lt_Some in E. apply IH; lia.
  - apply lookup_ge_None in E. by rewrite drop_ge.
Qed.

Definition is_file_keyring (kr : GenericKeyring) (file : string) : Prop :=
  kr_type kr = FILE_KEY_PROVIDER ∧ kr_specific kr = FileKeyring (Some file).

Lemma get_key_by_name_ok kr file ks name w :
  is_file_keyring kr file → keyring_rep w file ks →
  get_key_by_name kr name w = Ok (find_key ks name, KEYRING_CODE_SUCCESS) w.
Proof.
  intros [_ Hs] [Hwf [[Hf ->]|Hf]]; unfold get_key_by_name, kr_file_name; rewrite Hs; mstep.
  - by rewrite (bind_ok _ _ _ _ _ (open_missing _ _ w Hf)).
  - rewrite (bind_ok _ _ _ _ _ (open_existing _ _ w _ Hf)). unfold file_fuel. mstep. rewrite Hf.
    change 0 with (Z.of_nat (0 * 292)). change (default [] (Some (keys_file ks))) with (keys_file ks).
    rewrite (get_key_loop_ok ks); [by rewrite drop_0|done|done|lia|].
    rewrite keys_file_length by done. lia.
Qed.

Lemma set_key_by_name_ok kr file ks k w :
  is_file_keyring kr file → keyring_rep w file ks → KeyInfo_wf k → find_key ks (ki_name k) = None →
  ∃ w', set_key_by_name kr k w = Ok tt w' ∧ keyring_rep w' file (ks ++ [k]) ∧
        w' = set_fs (w_fs w') w ∧ touches file w w'.
Proof.
  intros Hkr Hrep Hk Hn. unfold set_key_by_name.
  rewrite (bind_ok _ _ _ _ _ (get_key_by_name_ok _ _ _ _ _ Hkr Hrep)). cbv beta iota. rewrite Hn.
  destruct Hkr as [_ Hs]. unfold kr_file_name. rewrite Hs. mstep.
  assert (∃ f, OpenTransientFile file true false w = Ok (Fd file) (set_fs f w) ∧
               f !! file = Some (keys_file ks) ∧ ∀ q, q ≠ file → f !! q = w_fs w !! q) as (f & Eo & Hf & Hq).
  { destruct Hrep as [_ [[Hf ->]|Hf]].
    - exists (<[file := []]> (w_fs w)). rewrite open_create by done. split; [done|].
      rewrite lookup_insert_eq. split; [done|]. intros q Hq. by rewrite lookup_insert_ne.
    - exists (w_fs w). rewrite (open_existing _ _ w _ Hf). split; [by destruct w|done]. }
  destruct Hrep as [Hwf _]. rewrite (bind_ok _ _ _ _ _ Eo). set (w1 := set_fs f w).
  rewrite (bind_ok _ _ _ _ _ (lseek_ok file w1 _ Hf)).
  rewrite (bind_ok _ _ _ _ _ (pwrite_ok file (KeyInfo_encode k) (Z.of_nat (length (keys_file ks))) w1 _ Hf ltac:(lia))).
  rewrite KeyInfo_encode_length by done. change (negb (Z.of_nat 292 =? sizeof_KeyInfo)) with false. cbv iota.
  rewrite (bind_ok _ _ _ _ _ (fsync_ok file _)).
  eexists. split; [done|]. rewrite Nat2Z.id, keys_file_length by done. simpl.
  assert (write_at (length ks * 292) (KeyInfo_encode k) (keys_file ks) = keys_file (ks ++ [k])) as ->.
  { by apply (rfile_snoc _ _ KeyInfo_wf KeyInfo_encode_length). }
  split_and!.
  - split; [apply Forall_app; split; [done|by apply Forall_singleton]|]. right. simpl.
    by rewrite lookup_insert_eq.
  - by destruct w.
  - intros q Hne. simpl. rewrite lookup_insert_ne by done. by apply Hq.
Qed.

Lemma find_key_snoc ks k name :
  find_key (ks ++ [k]) name =
    match find_key ks name with
    | Some k' => Some k'
    | None => if same_name name k then Some k else None
    end.
Proof.
  unfold find_key. induction ks as [|k0 ks IH]; simpl.
  - by destruct (same_name name k).
  - destruct (same_name name k0); simpl; [done|].
    destruct (list_find _ (ks ++ _)) as [[]|], (list_find _ ks) as [[]|]; simpl in *; done.
Qed.

Lemma find_key_name ks n n' : cstr (take 256 n) = cstr (take 256 n') → find_key ks n = find_key ks n'.
Proof. intros E. unfold find_key, same_name, pg_strncasecmp_eq. by rewrite E. Qed.

End file.

(** ** The interface *)

Section api.
Context {SSL : OpenSSL} {Spec : OpenSSLSpec SSL} {K : Kernel} {NF : NoFaults K} {RW : RandWorks SSL}.
Context {PP : PgPort} {NK : NetworkKeyrings}.

Lemma KeyringGetKey_file kr file ks name w :
  is_file_keyring kr file → keyring_rep w file ks → Forall (λ k, ValidateKey k = true) ks →
  KeyringGetKey kr name w = Ok (find_key ks name, KEYRING_CODE_SUCCESS) w.
Proof.
  intros Hkr Hrep Hv. unfold KeyringGetKey. rewrite (proj1 Hkr). cbn -[get_key_by_name].
  rewrite (bind_ok _ _ _ _ _ (get_key_by_name_ok _ _ _ _ _ Hkr Hrep)). cbv beta iota.
  rewrite bool_decide_true by done. cbv [negb].
  destruct (find_key ks name) as [k|] eqn:E; [|done].
  unfold find_key in E. apply fmap_Some in E as ([i k'] & (Hi & _)%list_find_Some & ->).
  simpl. by rewrite (Forall_lookup_1 _ _ _ _ Hv Hi).
Qed.

Lemma KeyringGenerateNewKey_ok name len w :
  (len = 16 ∨ len = 32) → (0 < length (cstr name) < 256)%nat →
  ∃ k, KeyringGenerateNewKey name len w = Ok k (set_rand (S (w_rand w)) w) ∧ KeyInfo_wf k ∧
       ValidateKey k = true ∧ kd_len (ki_data k) = len ∧ cstr (ki_name k) = cstr name.
Proof.
  intros Hlen Hname. unfold KeyringGenerateNewKey.
  destruct (rand_ok len w ltac:(lia)) as (d & Er & Hd). rewrite (bind_ok _ _ _ _ _ Er).
  assert (cstr (take 255 (cstr name)) = cstr name) as Hc.
  { rewrite take_ge by lia. rewrite <-(app_nil_r (cstr name)) at 1. apply (cstr_zeros name 0). }
  eexists. split; [done|]. split_and!; simpl.
  - split_and!; simpl; [apply char_array_length| |unfold is_u32; lia].
    rewrite overwrite_length, zeros_length. change (Z.to_nat MAX_KEY_DATA_SIZE) with 32%nat. lia.
  - unfold ValidateKey. simpl. rewrite cstr_char_array, Hc by (rewrite Hc; unfold TDE_KEY_NAME_LEN; lia).
    destruct (cstr name) as [|b bs]; [simpl in *; lia|]. simpl.
    by destruct Hlen as [-> | ->].
  - done.
  - rewrite cstr_char_array, Hc; [done|]. rewrite Hc. unfold TDE_KEY_NAME_LEN. lia.
Qed.

Lemma KeyringStoreKey_file kr : kr_type kr = FILE_KEY_PROVIDER → KeyringStoreKey kr = set_key_by_name kr.
Proof. intros H. unfold KeyringStoreKey. by rewrite H. Qed.

Lemma cstr_short n : (length (cstr n) < 256)%nat → cstr (take 256 n) = cstr n.
Proof. intros H. rewrite cstr_take. apply take_ge. lia. Qed.

(** The state after a key was generated and stored. *)
Lemma create_key_ok kr file ks name len w :
  is_file_keyring kr file → keyring_rep w file ks → Forall (λ k, ValidateKey k = true) ks →
  (len = 16 ∨ len = 32) → (0 < length (cstr name) < 256)%nat → find_key ks name = None →
  ∃ k w', KeyringGenerateNewKeyAndStore kr name len w = Ok k w' ∧ keyring_rep w' file (ks ++ [k]) ∧
    Forall (λ k, ValidateKey k = true) (ks ++ [k]) ∧ find_key (ks ++ [k]) name = Some k ∧ KeyInfo_wf k ∧
    kd_len (ki_data k) = len ∧ cstr (take 256 (ki_name k)) = cstr (take 256 name) ∧
    w' = set_fs (w_fs w') (set_rand (S (w_rand w)) w) ∧ touches file w w'.
Proof.
  intros Hkr Hrep Hv Hlen Hname Hnone.
  destruct (KeyringGenerateNewKey_ok name len w Hlen Hname) as (k & Eg & Hwf & Hval & Hl & Hn).
  set (w1 := set_rand (S (w_rand w)) w) in *.
  assert (cstr (take 256 (ki_name k)) = cstr (take 256 name)) as Hn'.
  { rewrite !cstr_short by (rewrite ?Hn; lia). done. }
  destruct (set_key_by_name_ok kr file ks k w1 Hkr Hrep Hwf) as (w' & Es & Hrep' & Hw' & Ht).
  { rewrite <-Hnone. by apply find_key_name. }
  exists k, w'. split_and!; try done.
  - unfold KeyringGenerateNewKeyAndStore. rewrite (bind_ok _ _ _ _ _ Eg).
    rewrite KeyringStoreKey_file by apply Hkr. by rewrite (bind_ok _ _ _ _ _ Es).
  - apply Forall_app; split; [done|by apply Forall_singleton].
  - rewrite find_key_snoc, Hnone. unfold same_name, pg_strncasecmp_eq. by rewrite Hn', bool_decide_true.
Qed.

(** A key created in a file provider is found again under its name, with
    the requested length, and a second key with that name is refused; the
    answers for all other names stay the same. *)
Theorem create_key_then_get kr file ks name len w :
  is_file_keyring kr file → keyring_rep w file ks → Forall (λ k, ValidateKey k = true) ks →
  (len = 16 ∨ len = 32) → (0 < length (cstr name) < 256)%nat → find_key ks name = None →
  ∃ k w', KeyringGenerateNewKeyAndStore kr name len w = Ok k w' ∧
    KeyringGetKey kr name w' = Ok (Some k, KEYRING_CODE_SUCCESS) w' ∧ kd_len (ki_data k) = len ∧
    (∃ e w2, KeyringGenerateNewKeyAndStore kr name len w' = Err e w2 ∧ w_fs w2 = w_fs w') ∧
    ∀ n, pg_strncasecmp_eq name n 256 = false → ∃ r,
      KeyringGetKey kr n w = Ok r w ∧ KeyringGetKey kr n w' = Ok r w'.
Proof.
  intros Hkr Hrep Hv Hlen Hname Hnone.
  destruct (create_key_ok kr file ks name len w) as (k & w' & E & Hrep' & Hv' & Hfound & Hwf & Hl & Hn' & _); try done.
  exists k, w'. split_and!; try done.
  - by rewrite (KeyringGetKey_file kr file (ks ++ [k])), Hfound.
  - destruct (KeyringGenerateNewKey_ok name len w' Hlen Hname) as (k2 & Eg2 & _ & _ & _ & Hn2).
    unfold KeyringGenerateNewKeyAndStore. rewrite (bind_ok _ _ _ _ _ Eg2).
    rewrite KeyringStoreKey_file by apply Hkr. unfold set_key_by_name. rewrite bind_assoc.
    rewrite (bind_ok _ _ _ _ _ (get_key_by_name_ok kr file (ks ++ [k]) (ki_name k2)
               (set_rand (S (w_rand w')) w') Hkr Hrep')). cbv beta iota.
    rewrite (find_key_name _ (ki_name k2) name), Hfound by (rewrite !cstr_short by (rewrite ?Hn2; lia); done).
    by eexists _, _.
  - intros n Hne. exists (find_key ks n, KEYRING_CODE_SUCCESS).
    rewrite (KeyringGetKey_file kr file ks), (KeyringGetKey_file kr file (ks ++ [k])) by done.
    split; [done|]. rewrite find_key_snoc. destruct (find_key ks n); [done|].
    unfold same_name, pg_strncasecmp_eq in *. by rewrite Hn', Hne.
Qed.

(** Whatever a provider delivers, a key is handed out only when the call
    reports success, the key has a name and it has 16 or 32 bytes. *)
Theorem handed_out_key_valid kr name w k c w' :
  KeyringGetKey kr name w = Ok (Some k, c) w' →
  c = KEYRING_CODE_SUCCESS ∧ cstr (ki_name k) ≠ [] ∧
  (kd_len (ki_data k) = KEY_DATA_SIZE_128 ∨ kd_len (ki_data k) = KEY_DATA_SIZE_256).
Proof.
  unfold KeyringGetKey. destruct (find_key_provider_type _ _) as [kp|]; [|done].
  intros E. minv E. destruct r as [[k0|] c0]; case_bool_decide; simplify_eq/=; try done.
  destruct (ValidateKey k0) eqn:Hv; [|done]. injection E as -> -> ->. split; [done|].
  unfold ValidateKey in Hv.
  destruct (cstr (ki_name k)); [done|]. split; [done|]. simpl in Hv.
  destruct (_ =? 0); [done|]. destruct (Z.eqb_spec (kd_len (ki_data k)) KEY_DATA_SIZE_128); [by left|].
  destruct (Z.eqb_spec (kd_len (ki_data k)) KEY_DATA_SIZE_256); [by right|done].
Qed.

(** Structures of the right size: what the routines of the services must
    deliver; a file does so by construction. *)
Class NetworkKeyringsSpec : Prop := {
  kmip_key_wf kr n w k c w' :
    keyring_get_key keyringKmipRoutine kr n w = Ok (Some k, c) w' → KeyInfo_wf k;
  openbao_key_wf kr n w k c w' :
    keyring_get_key keyringOpenBaoRoutine kr n w = Ok (Some k, c) w' → KeyInfo_wf k;
}.

Lemma get_key_loop_wf fuel fd name pos w k c w' :
  get_key_loop fuel fd name pos w = Ok (Some k, c) w' → KeyInfo_wf k.
Proof.
  revert pos w. induction fuel as [|fuel IH]; intros pos w E; cbn [get_key_loop] in E; [done|].
  minv E. destruct r as [[|b bs]|]; [done| |done].
  destruct (Z.eqb_spec (Z.of_nat (length (b :: bs))) sizeof_KeyInfo) as [Hl|]; [|done]. cbv beta iota zeta in E.
  cbv [negb] in E. destruct (pg_strncasecmp_eq _ _ _); [|by eapply IH].
  injection E as <- _ _. unfold sizeof_KeyInfo in Hl. unfold KeyInfo_wf, KeyInfo_decode.
  cbn [ki_name ki_data kd_data kd_len]. split_and!.
  - rewrite slice_length. lia.
  - rewrite slice_length. lia.
  - apply dec_u32_range. rewrite slice_length. lia.
Qed.

Lemma KeyringGetKey_wf `{!NetworkKeyringsSpec} kr name w k c w' :
  KeyringGetKey kr name w = Ok (Some k, c) w' → KeyInfo_wf k.
Proof.
  unfold KeyringGetKey. destruct (find_key_provider_type _ _) as [kp|] eqn:Ek; [|done].
  intros E. minv E. destruct r as [[k0|] c0]; case_bool_decide; simplify_eq/=.
  destruct (ValidateKey k0); [|done]. injection E as -> _ _.
  unfold registeredKeyProviderTypes in Ek. cbn in Ek. repeat case_match; simplify_eq/=.
  - unfold get_key_by_name, kr_file_name in E0. minv E0. destruct (kr_specific kr); simplify_eq/=.
    minv E0. destruct r0; [|done]. minv E0. by eapply get_key_loop_wf.
  - by eapply kmip_key_wf.
  - by eapply openbao_key_wf.
Qed.

End api.

(** ** Keys that a service returns *)

(** The routines of the services put the bytes they got into a [KeyInfo] like
    this one. *)
Definition fetched_key (name data buf : bytes) : KeyInfo :=
  mkKeyInfo (char_array TDE_KEY_NAME_LEN (take 255 (cstr name)))
    (mkKeyData (write_at 0 data buf) (Z.of_nat (length data))).

Lemma fetched_key_ok name data buf :
  (0 < length (cstr name) ≤ 255)%nat → length data = 16%nat ∨ length data = 32%nat →
  ValidateKey (fetched_key name data buf) = true ∧ cstr (ki_name (fetched_key name data buf)) = cstr name ∧
  take (length data) (kd_data (ki_data (fetched_key name data buf))) = data.
Proof.
  intros Hn Hd. assert (cstr (ki_name (fetched_key name data buf)) = cstr name) as Hname.
  { unfold fetched_key. cbn [ki_name]. rewrite take_ge by lia.
    rewrite cstr_char_array, cstr_cstr by (rewrite cstr_cstr; unfold TDE_KEY_NAME_LEN; lia). done. }
  split_and!; [|done|exact (slice_overwrite_same x00 0 data buf)]. unfold ValidateKey. rewrite Hname.
  destruct (Nat.eqb_spec (length (cstr name)) 0) as [|_]; [lia|]. cbn. by destruct Hd as [-> | ->].
Qed.

Lemma uninit_length {SSL : OpenSSL} {K : Kernel} n w d w' : uninit n w = Ok d w' → length d = n.
Proof. intros [= <- _]. rewrite length_take, length_app, zeros_length. lia. Qed.

Lemma fetched_key_wf name data buf :
  length buf = 32%nat → (length data ≤ 32)%nat → KeyInfo_wf (fetched_key name data buf).
Proof.
  intros Hb Hd. unfold KeyInfo_wf, fetched_key. cbn [ki_name ki_data kd_data kd_len].
  split_and!; [apply char_array_length|rewrite overwrite_length; lia|]. unfold is_u32. lia.
Qed.

(** ** Concrete providers *)

#[global] Instance ToyPort : PgPort := λ b,
  if (65 <=? b2z b) && (b2z b <=? 90) then z2b (b2z b + 32) else b.

Definition no_routine : TDEKeyringRoutine :=
  mkRoutine (λ _ _, mret (None, KEYRING_CODE_RESOURCE_NOT_AVAILABLE))
    (λ _ _, ereport ERROR "no connection") (λ _, ereport ERROR "no connection").

#[global] Instance ToyNetwork : NetworkKeyrings :=
  {| keyringKmipRoutine := no_routine; keyringOpenBaoRoutine := no_routine |}.

#[global] Instance ToyNetworkSpec : NetworkKeyringsSpec.
Proof. split; done. Defined.

Definition file_kr : GenericKeyring :=
  mkGenericKeyring FILE_KEY_PROVIDER (-1) (char_array 128 [x66]) (char_array 1024 []) (FileKeyring (Some "/keys")).

Definition key_ex : KeyInfo := mkKeyInfo (char_array 256 [x6b; x31]) (mkKeyData (replicate 32 x07) 16).

Definition world_kr : World := set_fs {["/keys" := keys_file [key_ex]]} world0.

Lemma key_ex_wf : KeyInfo_wf key_ex.
Proof. split_and!; [apply char_array_length|done|unfold is_u32; simpl; lia]. Qed.

Lemma world_kr_rep : keyring_rep world_kr "/keys" [key_ex].
Proof. split; [apply Forall_singleton, key_ex_wf|by right]. Qed.

Lemma create_key_then_get_witness : ∃ k w',
  KeyringGenerateNewKeyAndStore file_kr [x6b; x32] 32 world_kr = Ok k w' ∧
  KeyringGetKey file_kr [x6b; x32] w' = Ok (Some k, KEYRING_CODE_SUCCESS) w'.
Proof.
  destruct (create_key_then_get file_kr "/keys" [key_ex] [x6b; x32] 32 world_kr) as (k & w' & E & Eg & _).
  - by split.
  - apply world_kr_rep.
  - by apply Forall_singleton.
  - by right.
  - simpl. lia.
  - reflexivity.
  - exists k, w'. by split.
Defined.

Lemma handed_out_key_valid_witness :
  KeyringGetKey file_kr [x4b; x31] world_kr = Ok (Some key_ex, KEYRING_CODE_SUCCESS) world_kr ∧
  cstr (ki_name key_ex) ≠ [].
Proof.
  assert (KeyringGetKey file_kr [x4b; x31] world_kr = Ok (Some key_ex, KEYRING_CODE_SUCCESS) world_kr) as E.
  { rewrite (KeyringGetKey_file file_kr "/keys" [key_ex]); [reflexivity|by split|apply world_kr_rep|].
    by apply Forall_singleton. }
  split; [exact E|]. exact (proj1 (proj2 (handed_out_key_valid _ _ _ _ _ _ E))).
Defined.

(** A file that ends in the middle of a key, as an interrupted write leaves
    it. *)
Definition world_torn : World := set_fs {["/keys" := replicate 10 x07]} world0.

(** Creating a key looks for an existing one and ignores that the search
    found the file corrupted: in a file that ends in the middle of a key the new
    key is reported as created but cannot be read. *)
Theorem torn_keyring_file_hides_key :
  match KeyringGenerateNewKeyAndStore file_kr [x6b; x31] 16 world_torn with
  | Ok _ w' =>
      match KeyringGetKey file_kr [x6b; x31] w' with
      | Ok (k, c) _ => k = None ∧ c = KEYRING_CODE_DATA_CORRUPTED
      | Err _ _ => False
      end
  | Err _ _ => False
  end.
Proof. vm_compute. split; reflexivity. Qed.
