(* ===== verification/OpenBao.v ===== *)
(** keyring/keyring_curl.c and keyring/keyring_openbao.c: the provider that
    keeps principal keys in the key-value store of an OpenBao server.

    libcurl is the class [Curl]. The handle [keyringCurl] is the list of options
    set in it since it was created or reset. A transfer is sent with these
    options; what comes back may depend on everything that was sent before. The
    JSON parser of the server is [JsonApi] (see KeyringOptions), its base 64
    functions are [Base64]. Warnings are not recorded; memory is not freed. *)
From S2P Require Import Prelude Types Environ KeyringOptions KeyFile Keyring.

(** ** libcurl *)

(** The pieces of the body in the order in which the write function gets them,
    and the response code if it can be asked for. *)
Record HttpResponse := mkHttpResponse {
  http_body : list bytes;
  http_code : option Z;
}.

(** Whether the call returns something else than NULL or [CURLE_OK]; for a
    transfer, the response unless it fails. *)
Class Curl := {
  curl_easy_init : bool;
  curl_easy_setopt : list CurlOption → CurlOption → bool;
  curl_slist_append : list bytes → bytes → bool;
  curl_easy_perform : list NetRequest → list CurlOption → option HttpResponse;
}.

(** common/base64.h: [None] stands for -1, also when the result does not fit
    into the given number of bytes. *)
Class Base64 := {
  pg_b64_encode : bytes → nat → option bytes;
  pg_b64_decode : bytes → nat → option bytes;
}.

Section curl.
Context {SSL : OpenSSL} {CU : Curl}.

Definition set_curl (h : option (list CurlOption)) : M unit :=
  modify (λ w, set_net (mkNetState h (net_requests (w_net w))) w).

(** [curl_easy_setopt (keyringCurl, ...) == CURLE_OK] *)
Definition setopt (o : CurlOption) : M bool :=
  h ← gets (λ w, keyringCurl (w_net w));
  match h with
  | Some options =>
      if curl_easy_setopt options o then set_curl (Some (options ++ [o]));; mret true else mret false
  | None => ereport PANIC "NULL pointer dereference"
  end.

(** One after the other, until one fails. *)
Fixpoint setopts (os : list CurlOption) : M bool :=
  match os with
  | [] => mret true
  | o :: os => ok ← setopt o; if ok : bool then setopts os else mret false
  end.

(** ** keyring_curl.c *)

(** [CurlString]: the text without its final zero. *)
Definition write_func (ptr s : bytes) : bytes := s ++ ptr.

Definition curlSetupSession (url : bytes) (caFile : option bytes) : M bool :=
  h ← gets (λ w, keyringCurl (w_net w));
  ok ← match h with
       | None => if curl_easy_init then set_curl (Some []);; mret true else mret false
       | Some _ => set_curl (Some []);; mret true
       end;
  if negb ok then mret false
  else
    ok ← match caFile with
         | Some caFile => if Nat.eqb (length (cstr caFile)) 0 then mret true else setopt (CURLOPT_CAINFO (cstr caFile))
         | None => mret true
         end;
    if negb ok then mret false
    else
      setopts [CURLOPT_FOLLOWLOCATION 0; CURLOPT_CONNECTTIMEOUT 3; CURLOPT_TIMEOUT 10; CURLOPT_HTTP_VERSION_1_1;
               CURLOPT_WRITE_TO_STRING; CURLOPT_URL url].

(** ** keyring_openbao.c: requests *)

Definition OPENBAO_URL_MAX_LEN : nat := 512.

(** The fields of [OpenBaoKeyring] that requests use. *)
Record OpenBaoFields := mkOpenBaoFields {
  openbao_token : option bytes;
  openbao_url : option bytes;
  openbao_ca_path : option bytes;
  openbao_mount_path : option bytes;
  openbao_namespace : option bytes;
}.

(** [(OpenBaoKeyring * ) keyring] *)
Definition openbao_fields (keyring : GenericKeyring) : M OpenBaoFields :=
  match kr_specific keyring with
  | OpenBaoKeyring token _ url ca_path mount_path namespace =>
      mret (mkOpenBaoFields token url ca_path mount_path namespace)
  | _ => ereport PANIC "not an OpenBao key provider"
  end.

Definition token_header (keyring : OpenBaoFields) : bytes :=
  snprintf 256 (bytes_of "X-Vault-Token: " ++ fmt_s (openbao_token keyring)).
Definition namespace_header (namespace : bytes) : bytes :=
  snprintf 256 (bytes_of "X-Vault-Namespace: " ++ cstr namespace).

(** [curlList]: the list that the two calls of [curl_slist_append] build, NULL
    if the last of them fails. The second one extends whatever the first one
    returned. *)
Definition curl_headers (keyring : OpenBaoFields) : option (list bytes) :=
  let first := if curl_slist_append [] (token_header keyring) then Some [token_header keyring] else None in
  match openbao_namespace keyring with
  | Some namespace =>
      let l := default [] first in
      if curl_slist_append l (namespace_header namespace) then Some (l ++ [namespace_header namespace]) else None
  | None => first
  end.

(** The body and the response code, [None] when the code returns 0. *)
Definition curl_perform (keyring : OpenBaoFields) (url : bytes) (postData : option bytes) : M (option (bytes * Z)) :=
  ok ← curlSetupSession url (openbao_ca_path keyring);
  if negb ok then mret None
  else
    ok ← match postData with
         | Some postData => setopt (CURLOPT_POSTFIELDS postData)
         | None => mret true
         end;
    if negb ok then mret None
    else
      match curl_headers keyring with
      | None => mret None
      | Some curlList =>
          let content_type := bytes_of "Content-Type: application/json" in
          if negb (curl_slist_append curlList content_type) then mret None
          else
            ok ← setopt (CURLOPT_HTTPHEADER (curlList ++ [content_type]));
            if negb ok then mret None
            else
              n ← gets w_net;
              let options := default [] (keyringCurl n) in
              modify (set_net (mkNetState (keyringCurl n) (net_requests n ++ [HttpTransfer options])));;
              match curl_easy_perform (net_requests n) options with
              | None => mret None
              | Some response =>
                  let outStr := foldl (λ s ptr, write_func ptr s) [] (http_body response) in
                  match http_code response with
                  | Some httpCode => mret (Some (outStr, httpCode))
                  | None => mret None
                  end
              end
      end.

Definition get_keyring_openbao_url (keyring : OpenBaoFields) (key_name : bytes) (out_size : nat) : bytes :=
  snprintf out_size (fmt_s (openbao_url keyring) ++ bytes_of "/v1/" ++ fmt_s (openbao_mount_path keyring) ++
                     bytes_of "/data/" ++ cstr key_name).

End curl.

(** ** The response to a request for a key *)

Inductive JsonOpenBaoRespSemState := JRESP_EXPECT_TOP_DATA | JRESP_EXPECT_DATA | JRESP_EXPECT_KEY.

Inductive JsonOpenBaoRespField := JRESP_F_UNUSED | JRESP_F_KEY.

Record JsonOpenBaoRespState := mkJsonOpenBaoRespState {
  resp_state : JsonOpenBaoRespSemState;
  resp_field : JsonOpenBaoRespField;
  resp_level : Z;
  resp_key : option bytes;
}.

Definition json_resp_object_start (parse : JsonOpenBaoRespState) : JsonOpenBaoRespState :=
  mkJsonOpenBaoRespState (resp_state parse) (resp_field parse) (resp_level parse + 1) (resp_key parse).

Definition json_resp_object_end (parse : JsonOpenBaoRespState) : JsonOpenBaoRespState :=
  mkJsonOpenBaoRespState (resp_state parse) (resp_field parse) (resp_level parse - 1) (resp_key parse).

Definition json_resp_scalar (parse : JsonOpenBaoRespState) (token : bytes) : JsonOpenBaoRespState :=
  match resp_field parse with
  | JRESP_F_KEY => mkJsonOpenBaoRespState (resp_state parse) JRESP_F_UNUSED (resp_level parse) (Some token)
  | JRESP_F_UNUSED => parse
  end.

Definition json_resp_object_field_start (parse : JsonOpenBaoRespState) (fname : bytes) : JsonOpenBaoRespState :=
  match resp_state parse with
  | JRESP_EXPECT_TOP_DATA =>
      if strcmp_eq fname (bytes_of "data") && (resp_level parse =? 0)
      then mkJsonOpenBaoRespState JRESP_EXPECT_DATA (resp_field parse) (resp_level parse) (resp_key parse)
      else parse
  | JRESP_EXPECT_DATA =>
      if strcmp_eq fname (bytes_of "data") && (resp_level parse =? 1)
      then mkJsonOpenBaoRespState JRESP_EXPECT_KEY (resp_field parse) (resp_level parse) (resp_key parse)
      else parse
  | JRESP_EXPECT_KEY =>
      if strcmp_eq fname (bytes_of "key") && (resp_level parse =? 2)
      then mkJsonOpenBaoRespState (resp_state parse) JRESP_F_KEY (resp_level parse) (resp_key parse)
      else parse
  end.

Definition resp_action (parse : JsonOpenBaoRespState) (e : JsonEvent) : JsonOpenBaoRespState :=
  match e with
  | JsonObjectStart => json_resp_object_start parse
  | JsonObjectEnd => json_resp_object_end parse
  | JsonArrayStart => parse
  | JsonFieldStart fname _ => json_resp_object_field_start parse fname
  | JsonScalar token _ => json_resp_scalar parse token
  end.

(** The state after the parser has run the actions, and whether it accepted the
    text; the actions all return [JSON_SUCCESS]. *)
Definition parse_json_response `{JsonApi} (body : bytes) : JsonOpenBaoRespState * bool :=
  let '(es, valid) := pg_parse_json body in
  (foldl resp_action (mkJsonOpenBaoRespState JRESP_EXPECT_TOP_DATA JRESP_F_UNUSED (-1) None) es, valid).

(** ** The response to a request for the mount *)

Inductive JsonOpenBaoRespMountInfoSemState :=
| JRESP_MOUNT_INFO_EXPECT_TOPLEVEL_FIELD
| JRESP_MOUNT_INFO_EXPECT_DATA_START
| JRESP_MOUNT_INFO_EXPECT_DATA_FIELD
| JRESP_MOUNT_INFO_EXPECT_TYPE_VALUE
| JRESP_MOUNT_INFO_EXPECT_VERSION_VALUE
| JRESP_MOUNT_INFO_EXPECT_OPTIONS_START
| JRESP_MOUNT_INFO_EXPECT_OPTIONS_FIELD.

Record JsonOpenBaoMountInfoState := mkMountInfo {
  mi_state : JsonOpenBaoRespMountInfoSemState;
  mi_level : Z;
  mi_type : option bytes;
  mi_version : option bytes;
}.

Definition with_mi_state (s : JsonOpenBaoRespMountInfoSemState) (p : JsonOpenBaoMountInfoState)
  : JsonOpenBaoMountInfoState := mkMountInfo s (mi_level p) (mi_type p) (mi_version p).

Definition json_mountinfo_object_start (parse : JsonOpenBaoMountInfoState) : JsonOpenBaoMountInfoState :=
  let s := match mi_state parse with
           | JRESP_MOUNT_INFO_EXPECT_DATA_START => JRESP_MOUNT_INFO_EXPECT_DATA_FIELD
           | JRESP_MOUNT_INFO_EXPECT_OPTIONS_START => JRESP_MOUNT_INFO_EXPECT_OPTIONS_FIELD
           | s => s
           end in
  mkMountInfo s (mi_level parse + 1) (mi_type parse) (mi_version parse).

Definition json_mountinfo_object_end (parse : JsonOpenBaoMountInfoState) : JsonOpenBaoMountInfoState :=
  let s := match mi_state parse with
           | JRESP_MOUNT_INFO_EXPECT_OPTIONS_FIELD => JRESP_MOUNT_INFO_EXPECT_DATA_FIELD
           | JRESP_MOUNT_INFO_EXPECT_DATA_FIELD =>
               if mi_level parse =? 1 then JRESP_MOUNT_INFO_EXPECT_TOPLEVEL_FIELD else mi_state parse
           | s => s
           end in
  mkMountInfo s (mi_level parse - 1) (mi_type parse) (mi_version parse).

Definition json_mountinfo_scalar (parse : JsonOpenBaoMountInfoState) (token : bytes) : JsonOpenBaoMountInfoState :=
  match mi_state parse with
  | JRESP_MOUNT_INFO_EXPECT_TYPE_VALUE =>
      mkMountInfo JRESP_MOUNT_INFO_EXPECT_DATA_FIELD (mi_level parse) (Some token) (mi_version parse)
  | JRESP_MOUNT_INFO_EXPECT_VERSION_VALUE =>
      mkMountInfo JRESP_MOUNT_INFO_EXPECT_OPTIONS_FIELD (mi_level parse) (mi_type parse) (Some token)
  | JRESP_MOUNT_INFO_EXPECT_OPTIONS_START => with_mi_state JRESP_MOUNT_INFO_EXPECT_DATA_FIELD parse
  | JRESP_MOUNT_INFO_EXPECT_DATA_START => with_mi_state JRESP_MOUNT_INFO_EXPECT_TOPLEVEL_FIELD parse
  | _ => parse
  end.

Definition json_mountinfo_object_field_start (parse : JsonOpenBaoMountInfoState) (fname : bytes)
  : JsonOpenBaoMountInfoState :=
  match mi_state parse with
  | JRESP_MOUNT_INFO_EXPECT_TOPLEVEL_FIELD =>
      if (mi_level parse =? 0) && strcmp_eq fname (bytes_of "data")
      then with_mi_state JRESP_MOUNT_INFO_EXPECT_DATA_START parse
      else parse
  | JRESP_MOUNT_INFO_EXPECT_DATA_FIELD =>
      if mi_level parse =? 1 then
        if strcmp_eq fname (bytes_of "type") then with_mi_state JRESP_MOUNT_INFO_EXPECT_TYPE_VALUE parse
        else if strcmp_eq fname (bytes_of "options") then with_mi_state JRESP_MOUNT_INFO_EXPECT_OPTIONS_START parse
        else parse
      else parse
  | JRESP_MOUNT_INFO_EXPECT_OPTIONS_FIELD =>
      if (mi_level parse =? 2) && strcmp_eq fname (bytes_of "version")
      then with_mi_state JRESP_MOUNT_INFO_EXPECT_VERSION_VALUE parse
      else parse
  | _ => parse
  end.

Definition mountinfo_action (parse : JsonOpenBaoMountInfoState) (e : JsonEvent) : JsonOpenBaoMountInfoState :=
  match e with
  | JsonObjectStart => json_mountinfo_object_start parse
  | JsonObjectEnd => json_mountinfo_object_end parse
  | JsonArrayStart => parse
  | JsonFieldStart fname _ => json_mountinfo_object_field_start parse fname
  | JsonScalar token _ => json_mountinfo_scalar parse token
  end.

Definition parse_openbao_mount_info `{JsonApi} (body : bytes) : JsonOpenBaoMountInfoState * bool :=
  let '(es, valid) := pg_parse_json body in
  (foldl mountinfo_action (mkMountInfo JRESP_MOUNT_INFO_EXPECT_TOPLEVEL_FIELD (-1) None None) es, valid).

(** ** The routines of the provider *)

Section openbao.
Context {SSL : OpenSSL} {K : Kernel} {J : JsonApi} {CU : Curl} {B64 : Base64}.

Definition quoted (s : bytes) : bytes := x22 :: s ++ [x22].

(** The text with which a key is stored. *)
Definition key_json (keyData : bytes) : bytes :=
  snprintf 512 ([x7b] ++ quoted (bytes_of "data") ++ [x3a; x7b] ++ quoted (bytes_of "key") ++ [x3a] ++
                quoted (cstr keyData) ++ [x7d; x7d]).

(** [keyData[keyLen] = 0] after the encoding, in a buffer of 64 bytes. *)
Definition openbao_set_key_by_name (keyring : GenericKeyring) (key : KeyInfo) : M unit :=
  openbao_keyring ← openbao_fields keyring;
  if MAX_KEY_DATA_SIZE <? kd_len (ki_data key) then ereport PANIC "read past the end of the key"
  else
    match pg_b64_encode (take (Z.to_nat (kd_len (ki_data key))) (kd_data (ki_data key))) 64 with
    | None => ereport PANIC "write before the start of keyData"
    | Some keyData =>
        if Nat.leb 64 (length keyData) then ereport PANIC "write past the end of keyData"
        else
          let url := get_keyring_openbao_url openbao_keyring (ki_name key) OPENBAO_URL_MAX_LEN in
          r ← curl_perform openbao_keyring url (Some (key_json keyData));
          match r with
          | None => ereport ERROR "HTTP(S) request to keyring provider failed"
          | Some (_, httpCode) =>
              if negb (Z.quot httpCode 100 =? 2)
              then ereport ERROR "Invalid HTTP response from keyring provider"
              else mret tt
          end
    end.

Definition openbao_get_key_by_name (keyring : GenericKeyring) (key_name : bytes)
  : M (option KeyInfo * KeyringReturnCode) :=
  openbao_keyring ← openbao_fields keyring;
  let url := get_keyring_openbao_url openbao_keyring key_name OPENBAO_URL_MAX_LEN in
  r ← curl_perform openbao_keyring url None;
  match r with
  | None => mret (None, KEYRING_CODE_INVALID_KEY)
  | Some (str, httpCode) =>
      if httpCode =? 404 then mret (None, KEYRING_CODE_SUCCESS)
      else if negb (Z.quot httpCode 100 =? 2) then mret (None, KEYRING_CODE_INVALID_RESPONSE)
      else
        let '(parse, valid) := parse_json_response str in
        if negb valid then mret (None, KEYRING_CODE_INVALID_RESPONSE)
        else
          match resp_key parse with
          | None => mret (None, KEYRING_CODE_INVALID_RESPONSE)
          | Some responseKey =>
              buf ← uninit (Z.to_nat MAX_KEY_DATA_SIZE);
              match pg_b64_decode (cstr responseKey) (Z.to_nat MAX_KEY_DATA_SIZE) with
              | None => mret (None, KEYRING_CODE_INVALID_KEY)
              | Some data =>
                  if MAX_KEY_DATA_SIZE <? Z.of_nat (length data) then mret (None, KEYRING_CODE_INVALID_KEY)
                  else
                    mret (Some (mkKeyInfo (char_array TDE_KEY_NAME_LEN (take 255 (cstr key_name)))
                                  (mkKeyData (write_at 0 data buf) (Z.of_nat (length data)))),
                          KEYRING_CODE_SUCCESS)
              end
          end
  end.

(** Whether the answer about the mount is acceptable; what cannot be read is
    only a warning. *)
Definition check_mount (str : bytes) : M unit :=
  let '(parse, valid) := parse_openbao_mount_info str in
  if negb valid then mret tt
  else
    match mi_type parse with
    | None => mret tt
    | Some type =>
        if negb (strcmp_eq type (bytes_of "kv")) then ereport ERROR "openbao mount has unsupported engine type"
        else
          match mi_version parse with
          | None => ereport ERROR "failed to parse mount info: missing version field"
          | Some version =>
              if negb (strcmp_eq version (bytes_of "2"))
              then ereport ERROR "openbao mount has unsupported Key/Value engine version"
              else mret tt
          end
    end.

Definition mounts_url (keyring : OpenBaoFields) : bytes :=
  fmt_s (openbao_url keyring) ++ bytes_of "/v1/sys/mounts/" ++ fmt_s (openbao_mount_path keyring).
Definition metadata_url (keyring : OpenBaoFields) : bytes :=
  fmt_s (openbao_url keyring) ++ bytes_of "/v1/" ++ fmt_s (openbao_mount_path keyring) ++
  bytes_of "/metadata/?list=true".

Definition openbao_validate (keyring : GenericKeyring) : M unit :=
  openbao_keyring ← openbao_fields keyring;
  if Nat.leb OPENBAO_URL_MAX_LEN (length (mounts_url openbao_keyring)) then ereport ERROR "openbao mounts URL is too long"
  else
    r ← curl_perform openbao_keyring (snprintf OPENBAO_URL_MAX_LEN (mounts_url openbao_keyring)) None;
    match r with
    | None => ereport ERROR "HTTP(S) request to keyring provider failed"
    | Some (str, httpCode) =>
        (if negb (httpCode =? 200) then mret tt else check_mount str);;
        if Nat.leb OPENBAO_URL_MAX_LEN (length (metadata_url openbao_keyring))
        then ereport ERROR "openbao metadata URL is too long"
        else
          r ← curl_perform openbao_keyring (snprintf OPENBAO_URL_MAX_LEN (metadata_url openbao_keyring)) None;
          match r with
          | None => ereport ERROR "HTTP(S) request to keyring provider failed"
          | Some (_, httpCode) =>
              if negb (httpCode =? 200) && negb (httpCode =? 404) then ereport ERROR "Listing secrets failed"
              else mret tt
          end
    end.

Definition openbao_routine : TDEKeyringRoutine :=
  mkRoutine openbao_get_key_by_name openbao_set_key_by_name openbao_validate.

End openbao.
