(* ===== verification/OpenBaoThms.v ===== *)
(** Properties of the OpenBao provider: which requests it sends, what it reads
    from the answers of the server, and that a key it has stored is found
    again. *)
From S2P Require Import Prelude Types Environ Instances KeyringOptions KeyringOptionsThms KeyFile Keyring KeyringThms.
From S2P Require Import OpenBao.

(** ** Requests *)

Section requests.
Context {SSL : OpenSSL} {CU : Curl}.

(** Some call of the library other than a transfer can fail. *)
Definition curl_fails : Prop :=
  curl_easy_init = false ∨ (∃ os o, curl_easy_setopt os o = false) ∨ (∃ l h, curl_slist_append l h = false).

(** Only the handle changes. *)
Definition with_curl (h : option (list CurlOption)) (w : World) : World :=
  set_net (mkNetState h (net_requests (w_net w))) w.

Lemma with_curl_twice h h' w : with_curl h (with_curl h' w) = with_curl h w.
Proof. done. Qed.

Lemma with_curl_same w : with_curl (keyringCurl (w_net w)) w = w.
Proof. destruct w. unfold with_curl. simpl. by match goal with n : NetState |- _ => destruct n end. Qed.

Lemma setopt_ok o os w :
  keyringCurl (w_net w) = Some os →
  setopt o w = (if curl_easy_setopt os o then Ok true (with_curl (Some (os ++ [o])) w) else Ok false w).
Proof.
  intros E. unfold setopt. mstep. rewrite E. by destruct (curl_easy_setopt os o).
Qed.

(** The options are added, or one of them is refused. *)
Lemma setopts_ok l os w :
  keyringCurl (w_net w) = Some os →
  setopts l w = Ok true (with_curl (Some (os ++ l)) w) ∨
  (∃ os', setopts l w = Ok false (with_curl (Some os') w)) ∧ curl_fails.
Proof.
  revert os w. induction l as [|o l IH]; intros os w E; cbn [setopts].
  { left. rewrite app_nil_r. by rewrite <-E, with_curl_same. }
  unfold mbind, M_bind. rewrite (setopt_ok o os w E). destruct (curl_easy_setopt os o) eqn:Eo.
  - destruct (IH (os ++ [o]) (with_curl (Some (os ++ [o])) w) eq_refl) as [->|[[os' ->] Hf]].
    + left. by rewrite <-app_assoc.
    + right. split; [by exists os'|done].
  - right. split; [|right; left; by exists os, o]. exists os. by rewrite <-E, with_curl_same.
Qed.

(** The options of every transfer. *)
Definition session_options (url : bytes) (ca : option bytes) : list CurlOption :=
  match ca with
  | Some ca => if Nat.eqb (length (cstr ca)) 0 then [] else [CURLOPT_CAINFO (cstr ca)]
  | None => []
  end ++ [CURLOPT_FOLLOWLOCATION 0; CURLOPT_CONNECTTIMEOUT 3; CURLOPT_TIMEOUT 10; CURLOPT_HTTP_VERSION_1_1;
          CURLOPT_WRITE_TO_STRING; CURLOPT_URL url].

Definition request_options (f : OpenBaoFields) (url : bytes) (post : option bytes) (headers : list bytes)
  : list CurlOption :=
  session_options url (openbao_ca_path f) ++ match post with Some d => [CURLOPT_POSTFIELDS d] | None => [] end ++
  [CURLOPT_HTTPHEADER (headers ++ [bytes_of "Content-Type: application/json"])].

Lemma setup_ok url ca w :
  curlSetupSession url ca w = Ok true (with_curl (Some (session_options url ca)) w) ∨
  (∃ h, curlSetupSession url ca w = Ok false (with_curl h w)) ∧ curl_fails.
Proof.
  unfold curlSetupSession. mstep. cbv beta.
  set (start := match keyringCurl (w_net w) with None => _ | Some _ => _ end).
  assert (start w = Ok true (with_curl (Some []) w) ∨ start w = Ok false w ∧ curl_fails) as [E|[E Hf]].
  { unfold start. destruct (keyringCurl (w_net w)); [by left|]. destruct curl_easy_init eqn:Ei; [by left|].
    right. split; [done|by left]. }
  - rewrite (bind_ok _ _ _ _ _ E). cbn [negb]. unfold session_options.
    set (last := [CURLOPT_FOLLOWLOCATION 0; _; _; _; _; _]).
    assert (∀ os, setopts last (with_curl (Some os) w) = Ok true (with_curl (Some (os ++ last)) w) ∨
              (∃ h, setopts last (with_curl (Some os) w) = Ok false (with_curl h w)) ∧ curl_fails) as Hlast.
    { intros os. destruct (setopts_ok last os (with_curl (Some os) w) eq_refl) as [->|[[os' ->] Hf]]; [by left|].
      right. split; [by eexists|done]. }
    destruct ca as [ca|]; [destruct (Nat.eqb _ _)|]; [mstep; apply (Hlast [])| |mstep; apply (Hlast [])].
    unfold mbind, M_bind. rewrite (setopt_ok _ [] (with_curl (Some []) w) eq_refl).
    destruct (curl_easy_setopt [] _) eqn:Eo; cbn [negb app]; [apply Hlast|].
    right. split; [by eexists|right; left; by eexists _, _].
  - rewrite (bind_ok _ _ _ _ _ E). right. split; [|done]. exists (keyringCurl (w_net w)). by rewrite with_curl_same.
Qed.

Lemma headers_fail f : curl_headers f = None → curl_fails.
Proof.
  unfold curl_headers. intros H. right. right. destruct (openbao_namespace f) as [ns|].
  - cbv zeta in H. destruct (curl_slist_append _ (namespace_header ns)) eqn:E; [done|]. by eexists _, _.
  - destruct (curl_slist_append [] _) eqn:E; [done|]. by eexists _, _.
Qed.

(** A request is either not made, or sent with these options. *)
Lemma curl_perform_ok f url post w :
  (∃ h, curl_perform f url post w = Ok None (with_curl h w)) ∧ curl_fails ∨
  ∃ hs, curl_headers f = Some hs ∧
    let os := request_options f url post hs in
    curl_perform f url post w =
      Ok (r ← curl_easy_perform (net_requests (w_net w)) os; c ← http_code r; Some (mjoin (http_body r), c))
         (set_net (mkNetState (Some os) (net_requests (w_net w) ++ [HttpTransfer os])) w).
Proof.
  unfold curl_perform. destruct (setup_ok url (openbao_ca_path f) w) as [E|[[h E] Hf]].
  2: { left. split; [|done]. exists h. by rewrite (bind_ok _ _ _ _ _ E). }
  rewrite !(bind_ok _ _ _ _ _ E). cbn [negb]. set (os0 := session_options url (openbao_ca_path f)) in *.
  set (sp := match post with Some _ => _ | None => _ end).
  set (os1 := os0 ++ match post with Some d => [CURLOPT_POSTFIELDS d] | None => [] end).
  assert (sp (with_curl (Some os0) w) = Ok true (with_curl (Some os1) w) ∨
          (∃ h, sp (with_curl (Some os0) w) = Ok false (with_curl h w)) ∧ curl_fails) as [Ep|[[h Ep] Hf]].
  { unfold sp, os1. destruct post as [d|]; [|left; by rewrite app_nil_r].
    rewrite (setopt_ok _ os0 (with_curl (Some os0) w) eq_refl). destruct (curl_easy_setopt os0 _) eqn:Eo; [by left|].
    right. split; [by eexists|right; left; by eexists _, _]. }
  2: { left. split; [|done]. exists h. by rewrite (bind_ok _ _ _ _ _ Ep). }
  rewrite !(bind_ok _ _ _ _ _ Ep). cbn [negb]. destruct (curl_headers f) as [hs|] eqn:Ehs.
  2: { left. split; [by eexists|by apply headers_fail in Ehs]. }
  cbv zeta. destruct (curl_slist_append hs _) eqn:Ea; cbn [negb].
  2: { left. split; [by eexists|]. right. right. by eexists _, _. }
  set (o := CURLOPT_HTTPHEADER _). pose proof (setopt_ok o os1 (with_curl (Some os1) w) eq_refl) as Eh.
  destruct (curl_easy_setopt os1 o) eqn:Eo.
  2: { left. split; [exists (Some os1); by rewrite (bind_ok _ _ _ _ _ Eh)|]. right. left. by exists os1, o. }
  right. exists hs. split; [done|]. rewrite (bind_ok _ _ _ _ _ Eh). cbn [negb].
  assert (request_options f url post hs = os1 ++ [o]) as -> by (unfold request_options, os1; by rewrite <-app_assoc).
  do 2 mstep. cbn [with_curl set_net w_net keyringCurl net_requests default].
  destruct (curl_easy_perform _ _) as [r|]; [|done]. simpl. destruct (http_code r) as [c|]; [|done]. simpl.
  do 3 f_equal. f_equal. assert (∀ l s, foldl (λ s ptr, write_func ptr s) s l = s ++ mjoin l) as Hw.
  { induction l as [|p l IH]; intros s; simpl; [by rewrite app_nil_r|]. rewrite IH. unfold write_func. by rewrite app_assoc. }
  by rewrite Hw.
Qed.

(** A request that reaches the server. *)
Lemma perform_sent f url post w :
  ¬ curl_fails →
  ∃ hs, let os := request_options f url post hs in
    curl_perform f url post w =
      Ok (r ← curl_easy_perform (net_requests (w_net w)) os; c ← http_code r; Some (mjoin (http_body r), c))
         (set_net (mkNetState (Some os) (net_requests (w_net w) ++ [HttpTransfer os])) w).
Proof. intros Hc. destruct (curl_perform_ok f url post w) as [[_ H]|(hs & _ & E)]; [done|by exists hs]. Qed.

End requests.

(** ** What leaves the server *)

Section confined.
Context {SSL : OpenSSL} {K : Kernel} {J : JsonApi} {CU : Curl} {B64 : Base64}.

(** A transfer that follows no redirects, goes to the address of the provider,
    carries its token and, apart from that, only the given data. *)
Definition confined (f : OpenBaoFields) (post : option bytes) (r : NetRequest) : Prop :=
  ∃ os path hs, r = HttpTransfer os ∧ curl_headers f = Some hs ∧
    (∀ n, CURLOPT_FOLLOWLOCATION n ∈ os ↔ n = 0) ∧
    (∀ u, CURLOPT_URL u ∈ os ↔ u = take 511 (fmt_s (openbao_url f) ++ bytes_of "/v1/" ++ path)) ∧
    (∀ d, CURLOPT_POSTFIELDS d ∈ os ↔ post = Some d) ∧
    (∀ l, CURLOPT_HTTPHEADER l ∈ os ↔ l = hs ++ [bytes_of "Content-Type: application/json"]).

Lemma request_confined f path post hs :
  curl_headers f = Some hs →
  confined f post (HttpTransfer (request_options f
    (take 511 (fmt_s (openbao_url f) ++ bytes_of "/v1/" ++ path)) post hs)).
Proof.
  intros Hh. exists (request_options f (take 511 (fmt_s (openbao_url f) ++ bytes_of "/v1/" ++ path)) post hs), path, hs.
  split_and!; [done|done|..]; intros x; unfold request_options, session_options;
    generalize (take 511 (fmt_s (openbao_url f) ++ bytes_of "/v1/" ++ path));
    generalize (bytes_of "Content-Type: application/json"); intros ct url;
    (destruct (openbao_ca_path f) as [ca|]; [destruct (Nat.eqb _ _)|]); destruct post as [d|];
    rewrite ?elem_of_app, ?elem_of_cons, ?elem_of_nil; split; intros E; destruct_or?; simplify_eq; tauto.
Qed.

Lemma always_perform f path post :
  always (sends (confined f post)) (curl_perform f (take 511 (fmt_s (openbao_url f) ++ bytes_of "/v1/" ++ path)) post).
Proof.
  intros w. destruct (curl_perform_ok f (take 511 (fmt_s (openbao_url f) ++ bytes_of "/v1/" ++ path)) post w)
    as [[[h ->] _]|(hs & Hh & ->)].
  - split; [by destruct w|]. exists []. by rewrite app_nil_r.
  - split; [by destruct w|]. eexists. split; [done|]. apply Forall_singleton. by apply request_confined.
Qed.

Lemma url_eq f name :
  get_keyring_openbao_url f name OPENBAO_URL_MAX_LEN =
  take 511 (fmt_s (openbao_url f) ++ bytes_of "/v1/" ++ (fmt_s (openbao_mount_path f) ++ bytes_of "/data/" ++ cstr name)).
Proof. done. Qed.

Lemma always_perform_key f name post :
  always (sends (confined f post)) (curl_perform f (get_keyring_openbao_url f name OPENBAO_URL_MAX_LEN) post).
Proof. rewrite url_eq. apply always_perform. Qed.

(** The fields of the provider. *)
Definition is_openbao (kr : GenericKeyring) (f : OpenBaoFields) : Prop :=
  ∃ token_path, kr_specific kr = OpenBaoKeyring (openbao_token f) token_path (openbao_url f) (openbao_ca_path f)
                                   (openbao_mount_path f) (openbao_namespace f).

Lemma openbao_fields_ok kr f w : is_openbao kr f → openbao_fields kr w = Ok f w.
Proof. intros [tp E]. unfold openbao_fields. rewrite E. by destruct f. Qed.

Lemma always_fields {A} R `{!PreOrder R} kr f (g : OpenBaoFields → M A) :
  is_openbao kr f → always R (g f) → always R (openbao_fields kr ≫= g).
Proof. intros Hk H w. rewrite (bind_ok _ _ _ _ _ (openbao_fields_ok kr f w Hk)). apply H. Qed.

Lemma mounts_eq f : snprintf OPENBAO_URL_MAX_LEN (mounts_url f) =
  take 511 (fmt_s (openbao_url f) ++ bytes_of "/v1/" ++ (bytes_of "sys/mounts/" ++ fmt_s (openbao_mount_path f))).
Proof. done. Qed.

Lemma metadata_eq f : snprintf OPENBAO_URL_MAX_LEN (metadata_url f) =
  take 511 (fmt_s (openbao_url f) ++ bytes_of "/v1/" ++ (fmt_s (openbao_mount_path f) ++ bytes_of "/metadata/?list=true")).
Proof. done. Qed.

Lemma openbao_get_confined kr f name :
  is_openbao kr f → always (sends (confined f None)) (openbao_get_key_by_name kr name).
Proof.
  intros Hk. unfold openbao_get_key_by_name. apply (always_fields _ kr f); [done|]. cbv beta zeta.
  pose proof (always_perform_key f name None). always_solve.
Qed.

Lemma openbao_validate_confined kr f :
  is_openbao kr f → always (sends (confined f None)) (openbao_validate kr).
Proof.
  intros Hk. unfold openbao_validate. apply (always_fields _ kr f); [done|]. cbv beta. rewrite mounts_eq, metadata_eq.
  pose proof (always_perform f (bytes_of "sys/mounts/" ++ fmt_s (openbao_mount_path f)) None) as H1.
  pose proof (always_perform f (fmt_s (openbao_mount_path f) ++ bytes_of "/metadata/?list=true") None) as H2.
  assert (∀ s, always (sends (confined f None)) (check_mount s)) as H3.
  { intros s. unfold check_mount. destruct (parse_openbao_mount_info s) as [p v]. always_solve. }
  destruct (Nat.leb _ _); [auto with always|]. apply (always_bind _ _ _ H1). intros [[str c]|]; [|auto with always].
  apply (always_bind _); [destruct (negb _); [auto with always|apply H3]|]. intros _.
  destruct (Nat.leb _ _); [auto with always|]. apply (always_bind _ _ _ H2). intros [[str' c']|]; [|auto with always].
  destruct (_ && _); auto with always.
Qed.

(** What a routine of the provider may send as data: the key, when it is
    stored. *)
Definition stored_text (key : KeyInfo) : option bytes :=
  key_json <$> pg_b64_encode (take (Z.to_nat (kd_len (ki_data key))) (kd_data (ki_data key))) 64.

Lemma openbao_set_confined kr f key :
  is_openbao kr f → always (sends (confined f (stored_text key))) (openbao_set_key_by_name kr key).
Proof.
  intros Hk. unfold openbao_set_key_by_name. apply (always_fields _ kr f); [done|]. cbv beta zeta. unfold stored_text.
  destruct (_ <? _); [auto with always|]. destruct (pg_b64_encode _ _) as [e|]; [|auto with always]. simpl.
  pose proof (always_perform_key f (ki_name key) (Some (key_json e))). always_solve.
Qed.

(** Whatever the server answers and whatever call fails, the provider
    sends its requests to its own address, with its token, and follows no
    redirects; asking for a key and validating send no data, and storing a key
    sends that key and nothing else. No other part of the state changes. *)
Theorem openbao_requests_confined kr f :
  is_openbao kr f →
  (∀ name, always (sends (confined f None)) (openbao_get_key_by_name kr name)) ∧
  always (sends (confined f None)) (openbao_validate kr) ∧
  ∀ key, always (sends (confined f (stored_text key))) (openbao_set_key_by_name kr key).
Proof.
  intros Hk. split_and!.
  - intros name. by apply openbao_get_confined.
  - by apply openbao_validate_confined.
  - intros key. by apply openbao_set_confined.
Qed.

End confined.

(** ** Documents *)

(** A JSON document; numbers, booleans and null are scalars like strings. *)
Inductive json :=
| JScalar (token : bytes) (tokentype : JsonTokenType)
| JArray (elements : list json)
| JObject (fields : list (bytes * json)).

Section json_ind.
Variable P : json → Prop.
Hypothesis Hscalar : ∀ token ty, P (JScalar token ty).
Hypothesis Harray : ∀ js, Forall P js → P (JArray js).
Hypothesis Hobject : ∀ fs, Forall (λ f, P f.2) fs → P (JObject fs).

Fixpoint json_ind' (j : json) : P j :=
  match j with
  | JScalar token ty => Hscalar token ty
  | JArray js =>
      Harray js ((fix go js : Forall P js :=
                    match js with [] => Forall_nil_2 _ | j :: js => Forall_cons_2 _ _ _ (json_ind' j) (go js) end) js)
  | JObject fs =>
      Hobject fs ((fix go fs : Forall (λ f, P f.2) fs :=
                     match fs with [] => Forall_nil_2 _ | f :: fs => Forall_cons_2 _ _ _ (json_ind' f.2) (go fs) end) fs)
  end.
End json_ind.

Definition is_null (j : json) : bool :=
  match j with JScalar _ ty => bool_decide (ty = JSON_TOKEN_NULL) | _ => false end.

(** The calls the parser makes for a document. *)
Fixpoint json_events (j : json) : list JsonEvent :=
  match j with
  | JScalar token ty => [JsonScalar token ty]
  | JArray js => JsonArrayStart :: flat_map json_events js
  | JObject fs =>
      JsonObjectStart :: flat_map (λ f, JsonFieldStart f.1 (is_null f.2) :: json_events f.2) fs ++ [JsonObjectEnd]
  end.

Definition members_events (fs : list (bytes * json)) : list JsonEvent :=
  flat_map (λ f, JsonFieldStart f.1 (is_null f.2) :: json_events f.2) fs.

(** Whether an object [n] levels down has a field of that name; the document
    itself is one level down. *)
Fixpoint mentions (name : bytes) (n : nat) (j : json) {struct j} : bool :=
  match j with
  | JScalar _ _ => false
  | JArray js => existsb (mentions name n) js
  | JObject fs =>
      match n with
      | O => false
      | S n => existsb (λ f, (Nat.eqb n 0 && strcmp_eq f.1 name) || mentions name n f.2) fs
      end
  end.

Definition has_field (name : bytes) (fs : list (bytes * json)) : bool := existsb (λ f, strcmp_eq f.1 name) fs.

(** ** Looking for the key *)

(** What each state waits for, and how deep. *)
Definition wanted (s : JsonOpenBaoRespSemState) : bytes :=
  match s with JRESP_EXPECT_KEY => bytes_of "key" | _ => bytes_of "data" end.
Definition wanted_level (s : JsonOpenBaoRespSemState) : Z :=
  match s with JRESP_EXPECT_TOP_DATA => 0 | JRESP_EXPECT_DATA => 1 | JRESP_EXPECT_KEY => 2 end.

Abbreviation resp_run := (foldl resp_action).
Abbreviation mk := mkJsonOpenBaoRespState.

(** How many levels down the next interesting field is. *)
Definition distance (s : JsonOpenBaoRespSemState) (l : Z) : nat := Z.to_nat (wanted_level s - l).

Lemma field_start_other s l k fname :
  (l =? wanted_level s) && strcmp_eq fname (wanted s) = false →
  json_resp_object_field_start (mk s JRESP_F_UNUSED l k) fname = mk s JRESP_F_UNUSED l k.
Proof.
  intros H. rewrite andb_comm in H. destruct s; unfold json_resp_object_field_start;
    cbn [resp_state resp_level wanted wanted_level] in *; by rewrite H.
Qed.

(** The field is not the one the state waits for, nor is there one in its
    value. *)
Definition ignored (s : JsonOpenBaoRespSemState) (l : Z) (f : bytes * json) : Prop :=
  (l =? wanted_level s) && strcmp_eq f.1 (wanted s) = false ∧ mentions (wanted s) (distance s l) f.2 = false.

Lemma mentions_O name j : mentions name 0 j = false.
Proof.
  induction j as [|js IH|] using json_ind'; [done| |done]. simpl.
  induction IH as [|j js Hj _ IHj]; [done|]. simpl. by rewrite Hj.
Qed.

Lemma mentions_object s l fs : mentions (wanted s) (distance s l) (JObject fs) = false → Forall (ignored s (l + 1)) fs.
Proof.
  unfold ignored, distance. cbn [mentions]. intros Hm. apply Forall_forall. intros f Hf.
  destruct (Z.to_nat (wanted_level s - l)) as [|n] eqn:En.
  - rewrite (proj2 (Z.eqb_neq _ _)) by lia. replace (Z.to_nat (wanted_level s - (l + 1))) with O by lia.
    split; [done|apply mentions_O].
  - replace (Z.to_nat (wanted_level s - (l + 1))) with n by lia.
    assert ((Nat.eqb n 0 && strcmp_eq f.1 (wanted s)) || mentions (wanted s) n f.2 = false) as [H1 H2]%orb_false_iff.
    { apply not_true_iff_false. intros Ht. apply not_true_iff_false in Hm. apply Hm, existsb_exists.
      exists f. split; [by apply list_elem_of_In|done]. }
    split; [|done]. destruct (Z.eqb_spec (l + 1) (wanted_level s)); [|done]. assert (n = O) as -> by lia. done.
Qed.

(** A value without such a field changes nothing. *)
Lemma value_skipped s k j : ∀ l,
  mentions (wanted s) (distance s l) j = false →
  resp_run (mk s JRESP_F_UNUSED l k) (json_events j) = mk s JRESP_F_UNUSED l k.
Proof.
  induction j as [token ty|js IH|fs IH] using json_ind'; intros l Hm; [done| |].
  - cbn [json_events foldl resp_action]. cbn [mentions] in Hm.
    induction IH as [|j js Hj _ IHjs]; [done|]. cbn [flat_map existsb] in *. apply orb_false_iff in Hm as [Hm1 Hm2].
    rewrite foldl_app, Hj by done. by apply IHjs.
  - apply mentions_object in Hm. cbn [json_events foldl resp_action]. unfold json_resp_object_start.
    cbn [resp_state resp_field resp_level resp_key]. rewrite foldl_app.
    replace (resp_run (mk s JRESP_F_UNUSED (l + 1) k) _) with (mk s JRESP_F_UNUSED (l + 1) k).
    { cbn. unfold json_resp_object_end. cbn. f_equal. lia. }
    induction IH as [|f fs Hf _ IHfs]; [done|]. apply Forall_cons in Hm as [[H1 H2] Hm].
    cbn [flat_map app foldl resp_action]. rewrite field_start_other by done. rewrite foldl_app, Hf by done. by apply IHfs.
Qed.

Lemma members_skipped s k l fs :
  Forall (ignored s l) fs → resp_run (mk s JRESP_F_UNUSED l k) (members_events fs) = mk s JRESP_F_UNUSED l k.
Proof.
  unfold members_events. induction 1 as [|f fs [H1 H2] _ IH]; [done|]. cbn [flat_map app foldl resp_action].
  rewrite field_start_other by done. by rewrite foldl_app, value_skipped by done.
Qed.

Lemma object_run p fs : resp_run p (json_events (JObject fs)) =
  json_resp_object_end (resp_run (json_resp_object_start p) (members_events fs)).
Proof. cbn [json_events foldl resp_action]. by rewrite foldl_app. Qed.

Lemma members_events_cons fs1 f fs2 :
  members_events (fs1 ++ f :: fs2) =
    members_events fs1 ++ JsonFieldStart f.1 (is_null f.2) :: json_events f.2 ++ members_events fs2.
Proof. unfold members_events. by rewrite flat_map_app. Qed.

(** The answer of the server: the fields around the key are not looked at,
    except that "data" comes first on its level and that no object on the level
    of the key has another field "key". *)
Record key_document := mkKeyDocument {
  kd_pre1 : list (bytes * json); kd_post1 : list (bytes * json);
  kd_pre2 : list (bytes * json); kd_post2 : list (bytes * json);
  kd_pre3 : list (bytes * json); kd_post3 : list (bytes * json);
}.

Definition document (d : key_document) (token : bytes) : json :=
  let inner := JObject (kd_pre3 d ++ (bytes_of "key", JScalar token JSON_TOKEN_STRING) :: kd_post3 d) in
  let outer := JObject (kd_pre2 d ++ (bytes_of "data", inner) :: kd_post2 d) in
  JObject (kd_pre1 d ++ (bytes_of "data", outer) :: kd_post1 d).

Record document_ok (d : key_document) : Prop := {
  ok_pre1 : Forall (ignored JRESP_EXPECT_TOP_DATA 0) (kd_pre1 d);
  ok_pre2 : Forall (ignored JRESP_EXPECT_DATA 1) (kd_pre2 d);
  ok_pre3 : Forall (ignored JRESP_EXPECT_KEY 2) (kd_pre3 d);
  ok_post3 : Forall (ignored JRESP_EXPECT_KEY 2) (kd_post3 d);
  ok_post2 : Forall (ignored JRESP_EXPECT_KEY 1) (kd_post2 d);
  ok_post1 : Forall (ignored JRESP_EXPECT_KEY 0) (kd_post1 d);
}.

Lemma response_key d token :
  document_ok d →
  resp_key (resp_run (mk JRESP_EXPECT_TOP_DATA JRESP_F_UNUSED (-1) None) (json_events (document d token))) = Some token.
Proof.
  intros []. unfold document. rewrite object_run. unfold json_resp_object_start. cbn [resp_state resp_field resp_level resp_key].
  change (-1 + 1) with 0. rewrite members_events_cons, foldl_app, members_skipped by done.
  cbn [fst snd foldl resp_action]. change (json_resp_object_field_start _ _) with (mk JRESP_EXPECT_DATA JRESP_F_UNUSED 0 None).
  rewrite foldl_app, object_run. unfold json_resp_object_start. cbn [resp_state resp_field resp_level resp_key].
  change (0 + 1) with 1. rewrite members_events_cons, foldl_app, members_skipped by done.
  cbn [fst snd foldl resp_action]. change (json_resp_object_field_start _ _) with (mk JRESP_EXPECT_KEY JRESP_F_UNUSED 1 None).
  rewrite foldl_app, object_run. unfold json_resp_object_start. cbn [resp_state resp_field resp_level resp_key].
  change (1 + 1) with 2. rewrite members_events_cons, foldl_app, members_skipped by done.
  cbn [fst snd foldl resp_action json_events app]. change (json_resp_scalar _ token) with (mk JRESP_EXPECT_KEY JRESP_F_UNUSED 2 (Some token)).
  rewrite members_skipped by done. unfold json_resp_object_end. cbn [resp_state resp_field resp_level resp_key].
  rewrite members_skipped by done. cbn [resp_state resp_field resp_level resp_key].
  by rewrite members_skipped by done.
Qed.

(** ** The description of a mount *)

Abbreviation mi_run := (foldl mountinfo_action).
Abbreviation TOP := JRESP_MOUNT_INFO_EXPECT_TOPLEVEL_FIELD.
Abbreviation DATA := JRESP_MOUNT_INFO_EXPECT_DATA_FIELD.
Abbreviation OPTS := JRESP_MOUNT_INFO_EXPECT_OPTIONS_FIELD.

(** What the description says: "type" and "version" in the "options" of the
    fields of "data"; of several fields with one name the last one counts. *)
Definition scalar_or (t : option bytes) (j : json) : option bytes :=
  match j with JScalar token _ => Some token | _ => t end.
Definition options_version (os : list (bytes * json)) (v : option bytes) : option bytes :=
  foldl (λ v f, if strcmp_eq f.1 (bytes_of "version") then scalar_or v f.2 else v) v os.
Definition mount_type (fs : list (bytes * json)) (t : option bytes) : option bytes :=
  foldl (λ t f, if strcmp_eq f.1 (bytes_of "type") then scalar_or t f.2 else t) t fs.
Definition mount_version (fs : list (bytes * json)) (v : option bytes) : option bytes :=
  foldl (λ v f, if strcmp_eq f.1 (bytes_of "options") then
                  match f.2 with JObject os => options_version os v | _ => v end
                else v) v fs.

(** No object in it. *)
Fixpoint flat (j : json) : bool :=
  match j with
  | JScalar _ _ => true
  | JArray js => forallb flat js
  | JObject _ => false
  end.
Definition scalar (j : json) : bool := match j with JScalar _ _ => true | _ => false end.

(** The shape of the fields: a scalar as type, options without nested objects or
    null, a scalar as version. *)
Definition option_ok (f : bytes * json) : bool :=
  if strcmp_eq f.1 (bytes_of "version") then scalar f.2 else flat f.2.
Definition mount_field_ok (f : bytes * json) : bool :=
  if strcmp_eq f.1 (bytes_of "type") then scalar f.2
  else if strcmp_eq f.1 (bytes_of "options") then
    match f.2 with JScalar _ _ => true | JObject os => forallb option_ok os | JArray _ => false end
  else true.

Definition mount_document (pre post fs : list (bytes * json)) : json :=
  JObject (pre ++ (bytes_of "data", JObject fs) :: post).

Lemma mi_skip s t v j : ∀ l,
  s = TOP ∧ 0 <= l ∨ s = DATA ∧ 1 <= l → mi_run (mkMountInfo s l t v) (json_events j) = mkMountInfo s l t v.
Proof.
  induction j as [token ty|js IH|fs IH] using json_ind'; intros l Hs.
  - by destruct Hs as [[-> _]|[-> _]].
  - cbn [json_events foldl mountinfo_action]. induction IH as [|j js Hj _ IHjs]; [done|].
    cbn [flat_map]. by rewrite foldl_app, Hj.
  - cbn [json_events foldl mountinfo_action]. rewrite foldl_app.
    replace (json_mountinfo_object_start _) with (mkMountInfo s (l + 1) t v) by (by destruct Hs as [[-> _]|[-> _]]).
    replace (mi_run (mkMountInfo s (l + 1) t v) _) with (mkMountInfo s (l + 1) t v).
    { cbn. unfold json_mountinfo_object_end. cbn [mi_state mi_level mi_type mi_version]. rewrite Z.add_simpl_r.
      destruct Hs as [[-> ?]|[-> ?]]; [done|]. by rewrite (proj2 (Z.eqb_neq _ _)) by lia. }
    induction IH as [|f fs Hf _ IHfs]; [done|]. cbn [flat_map app foldl mountinfo_action].
    replace (json_mountinfo_object_field_start _ _) with (mkMountInfo s (l + 1) t v).
    2: { unfold json_mountinfo_object_field_start. destruct Hs as [[-> ?]|[-> ?]]; cbn [mi_state mi_level];
         by rewrite (proj2 (Z.eqb_neq _ _)) by lia. }
    rewrite foldl_app, Hf by (destruct Hs as [[-> ?]|[-> ?]]; [left|right]; (split; [done|lia])). done.
Qed.

Lemma mi_flat l t v j : flat j = true → mi_run (mkMountInfo OPTS l t v) (json_events j) = mkMountInfo OPTS l t v.
Proof.
  induction j as [token ty|js IH|fs IH] using json_ind'; intros Hf; [done| |done].
  cbn [json_events foldl mountinfo_action flat] in *. induction IH as [|j js Hj _ IHjs]; [done|].
  cbn [flat_map forallb] in *. apply andb_prop in Hf as [H1 H2]. by rewrite foldl_app, Hj, IHjs.
Qed.

(** The options. *)
Lemma mi_options t os : ∀ v,
  forallb option_ok os = true →
  mi_run (mkMountInfo OPTS 2 t v) (members_events os) = mkMountInfo OPTS 2 t (options_version os v).
Proof.
  induction os as [|f os IH]; intros v Hos; [done|]. cbn [forallb] in Hos. apply andb_prop in Hos as [Hf Hos].
  unfold members_events. cbn [flat_map app foldl mountinfo_action]. fold (members_events os). rewrite foldl_app.
  unfold json_mountinfo_object_field_start. cbn [mi_state mi_level]. change (2 =? 2) with true. cbn [andb].
  unfold option_ok in Hf. unfold options_version. cbn [foldl]. destruct (strcmp_eq f.1 _).
  - destruct (f.2); [|done..]. by apply IH.
  - rewrite mi_flat by done. by apply IH.
Qed.

(** The fields of "data". *)
Lemma mi_fields fs : ∀ t v,
  forallb mount_field_ok fs = true →
  mi_run (mkMountInfo DATA 1 t v) (members_events fs) = mkMountInfo DATA 1 (mount_type fs t) (mount_version fs v).
Proof.
  induction fs as [|f fs IH]; intros t v Hfs; [done|]. cbn [forallb] in Hfs. apply andb_prop in Hfs as [Hf Hfs].
  unfold members_events. cbn [flat_map app foldl mountinfo_action]. fold (members_events fs). rewrite foldl_app.
  unfold json_mountinfo_object_field_start. cbn [mi_state mi_level]. change (1 =? 1) with true. cbv iota.
  unfold mount_field_ok in Hf. unfold mount_type, mount_version. cbn [foldl].
  destruct (strcmp_eq f.1 (bytes_of "type")) eqn:Et.
  - assert (strcmp_eq f.1 (bytes_of "options") = false) as ->.
    { unfold strcmp_eq in *. apply bool_decide_eq_true in Et. apply bool_decide_eq_false. rewrite Et. done. }
    destruct (f.2); [|done..]. by apply IH.
  - destruct (strcmp_eq f.1 (bytes_of "options")).
    + destruct (f.2) as [token ty|js|os]; [by apply IH|done|]. cbn [json_events foldl mountinfo_action].
      unfold with_mi_state. cbn [mi_level mi_type mi_version]. unfold json_mountinfo_object_start at 1. cbn [mi_state mi_level mi_type mi_version].
      change (1 + 1) with 2. rewrite foldl_app. fold (members_events os). rewrite mi_options by done.
      cbn [foldl mountinfo_action]. unfold json_mountinfo_object_end at 1. cbn [mi_state mi_level mi_type mi_version].
      change (2 - 1) with 1. by apply IH.
    + rewrite mi_skip by (right; split; [done|lia]). by apply IH.
Qed.

Lemma mi_top_skip t v fs :
  Forall (λ f, strcmp_eq f.1 (bytes_of "data") = false) fs →
  mi_run (mkMountInfo TOP 0 t v) (members_events fs) = mkMountInfo TOP 0 t v.
Proof.
  unfold members_events. induction 1 as [|f fs Hf _ IH]; [done|]. cbn [flat_map app foldl mountinfo_action].
  unfold json_mountinfo_object_field_start. cbn [mi_state mi_level]. rewrite Hf, andb_false_r.
  by rewrite foldl_app, mi_skip by (left; split; [done|lia]).
Qed.

Lemma mi_document pre post fs :
  Forall (λ f, strcmp_eq f.1 (bytes_of "data") = false) (pre ++ post) → forallb mount_field_ok fs = true →
  mi_run (mkMountInfo TOP (-1) None None) (json_events (mount_document pre post fs)) =
    mkMountInfo TOP (-1) (mount_type fs None) (mount_version fs None).
Proof.
  intros [Hpre Hpost]%Forall_app Hfs. unfold mount_document.
  cbn [json_events foldl mountinfo_action]. fold (members_events (pre ++ (bytes_of "data", JObject fs) :: post)).
  rewrite foldl_app, members_events_cons, foldl_app.
  change (json_mountinfo_object_start _) with (mkMountInfo TOP 0 None None). rewrite mi_top_skip by done.
  cbn [fst snd is_null foldl mountinfo_action].
  change (json_mountinfo_object_field_start _ _) with (mkMountInfo JRESP_MOUNT_INFO_EXPECT_DATA_START 0 None None).
  cbn [json_events]. rewrite foldl_app. cbn [foldl mountinfo_action].
  change (json_mountinfo_object_start _) with (mkMountInfo DATA 1 None None). fold (members_events fs).
  rewrite foldl_app, mi_fields by done. cbn [foldl mountinfo_action].
  change (json_mountinfo_object_end (mkMountInfo DATA 1 ?t ?v)) with (mkMountInfo TOP 0 t v).
  by rewrite mi_top_skip by done.
Qed.

(** What the callbacks of the parser find in the description of a mount is
    its type and the version in its options, wherever the fields are and
    whatever else there is around them, as long as no object is nested in the
    options. *)
Theorem mount_info_parsed `{J : JsonApi} pre post fs body :
  pg_parse_json body = (json_events (mount_document pre post fs), true) →
  Forall (λ f, strcmp_eq f.1 (bytes_of "data") = false) (pre ++ post) → forallb mount_field_ok fs = true →
  parse_openbao_mount_info body = (mkMountInfo TOP (-1) (mount_type fs None) (mount_version fs None), true).
Proof. intros Hp Ho Hfs. unfold parse_openbao_mount_info. rewrite Hp. f_equal. by apply mi_document. Qed.

(** ** Storing and fetching keys *)

(** The characters of base 64 texts. *)
Definition b64_char (b : byte) : bool :=
  let z := b2z b in
  ((65 <=? z) && (z <=? 90)) || ((97 <=? z) && (z <=? 122)) || ((47 <=? z) && (z <=? 57)) || (z =? 43) || (z =? 61).

Class Base64Spec (B64 : Base64) := {
  b64_encode_fits d n :
    (4 * ((length d + 2) / 3) ≤ n)%nat →
    ∃ e, pg_b64_encode d n = Some e ∧ length e = (4 * ((length d + 2) / 3))%nat ∧ forallb b64_char e = true;
  b64_decode_encode d n m e :
    pg_b64_encode d n = Some e → (length d ≤ m)%nat → pg_b64_decode e m = Some d;
}.

(** The address and the data of a transfer. *)
Definition request_url (os : list CurlOption) : option bytes :=
  foldl (λ u o, match o with CURLOPT_URL u => Some u | _ => u end) None os.
Definition request_post (os : list CurlOption) : option bytes :=
  foldl (λ d o, match o with CURLOPT_POSTFIELDS d => Some d | _ => d end) None os.

(** The data last sent to an address. *)
Definition posted (u : bytes) (rs : list NetRequest) : option bytes :=
  foldl (λ d r, match r with
                | HttpTransfer os =>
                    if bool_decide (request_url os = Some u) then
                      match request_post os with Some d => Some d | None => d end
                    else d
                | _ => d
                end) None rs.

Lemma posted_app u rs1 rs2 :
  Forall (λ r, match r with
               | HttpTransfer os => request_url os = Some u → request_post os = None
               | _ => True
               end) rs2 → posted u (rs1 ++ rs2) = posted u rs1.
Proof.
  intros H. unfold posted. rewrite foldl_app. generalize (foldl (A := option bytes)
    (λ d r, match r with
            | HttpTransfer os =>
                if bool_decide (request_url os = Some u) then match request_post os with Some d => Some d | None => d end
                else d
            | _ => d
            end) None rs1).
  induction H as [|r rs2 Hr _ IH]; intros d; [done|]. cbn [foldl]. rewrite IH. destruct r; try done.
  case_bool_decide; [|done]. by rewrite Hr.
Qed.

Section validation.
Context {SSL : OpenSSL} {K : Kernel} {J : JsonApi} {CU : Curl} {B64 : Base64}.

Lemma request_options_url f u post hs : request_url (request_options f u post hs) = Some u.
Proof.
  unfold request_options, session_options, request_url. rewrite !foldl_app.
  by destruct (openbao_ca_path f) as [ca|]; [destruct (Nat.eqb _ _)|]; destruct post.
Qed.

Lemma request_options_post f u post hs : request_post (request_options f u post hs) = post.
Proof.
  unfold request_options, session_options, request_post. rewrite !foldl_app.
  by destruct (openbao_ca_path f) as [ca|]; [destruct (Nat.eqb _ _)|]; destruct post.
Qed.

(** What the server says about the mount, as the code judges it. *)
Definition mount_accepted (type version : option bytes) : bool :=
  match type with
  | None => true
  | Some type => strcmp_eq type (bytes_of "kv") &&
                 match version with Some v => strcmp_eq v (bytes_of "2") | None => false end
  end.

Lemma check_mount_ok body p w :
  parse_openbao_mount_info body = (p, true) →
  if mount_accepted (mi_type p) (mi_version p) then check_mount body w = Ok tt w
  else ∃ msg, check_mount body w = Err (mkError ERROR msg) w.
Proof.
  intros E. unfold check_mount. rewrite E. cbn [negb]. unfold mount_accepted. destruct (mi_type p) as [type|]; [|done].
  destruct (strcmp_eq type _); cbn [negb andb]; [|by eexists].
  destruct (mi_version p) as [v|]; [|by eexists]. destruct (strcmp_eq v _); [done|by eexists].
Qed.

(** When the server can be reached and describes the mount, a provider is
    accepted exactly if the mount is a key-value store of version 2 (or the
    description gives no type) and listing its keys is answered with 200 or 404;
    in every other case an error is raised. *)
Theorem openbao_validate_decides kr f pre post fs code2 w :
  ¬ curl_fails → is_openbao kr f →
  (length (mounts_url f) < OPENBAO_URL_MAX_LEN)%nat → (length (metadata_url f) < OPENBAO_URL_MAX_LEN)%nat →
  Forall (λ f, strcmp_eq f.1 (bytes_of "data") = false) (pre ++ post) → forallb mount_field_ok fs = true →
  (∀ hist os, request_url os = Some (mounts_url f) →
     ∃ r, curl_easy_perform hist os = Some r ∧ http_code r = Some 200 ∧
       pg_parse_json (mjoin (http_body r)) = (json_events (mount_document pre post fs), true)) →
  (∀ hist os, request_url os = Some (metadata_url f) →
     ∃ r, curl_easy_perform hist os = Some r ∧ http_code r = Some code2) →
  ∃ w', set_net (w_net w) w' = w ∧
    if mount_accepted (mount_type fs None) (mount_version fs None) && ((code2 =? 200) || (code2 =? 404))
    then openbao_validate kr w = Ok tt w'
    else ∃ msg, openbao_validate kr w = Err (mkError ERROR msg) w'.
Proof.
  intros Hc Hk Hm1 Hm2 Hpp Hfs Hmount Hlist. unfold openbao_validate. rewrite !(bind_ok _ _ _ _ _ (openbao_fields_ok kr f w Hk)).
  rewrite !(proj2 (Nat.leb_gt _ _)) by done. unfold snprintf. rewrite !take_ge by (unfold OPENBAO_URL_MAX_LEN in *; lia).
  destruct (perform_sent f (mounts_url f) None w Hc) as (hs & E). cbv zeta in E.
  destruct (Hmount (net_requests (w_net w)) _ (request_options_url f (mounts_url f) None hs)) as (r & Er & Hcode & Hparse).
  rewrite Er in E. simpl in E. rewrite Hcode in E. simpl in E. rewrite !(bind_ok _ _ _ _ _ E).
  change (negb (200 =? 200)) with false. cbv iota. set (w1 := set_net _ w).
  assert (parse_openbao_mount_info (mjoin (http_body r)) =
            (mkMountInfo TOP (-1) (mount_type fs None) (mount_version fs None), true)) as Hmi.
  { unfold parse_openbao_mount_info. rewrite Hparse. f_equal. by apply mi_document. }
  pose proof (check_mount_ok (mjoin (http_body r)) _ w1 Hmi) as Hck.
  cbn [mi_type mi_version] in Hck. destruct (mount_accepted _ _); cbn [andb].
  2: { destruct Hck as [msg Hck]. exists w1. split; [by destruct w|]. exists msg. by rewrite (bind_err _ _ _ _ _ Hck). }
  rewrite (bind_ok _ _ _ _ _ Hck). destruct (perform_sent f (metadata_url f) None w1 Hc) as (hs2 & E2). cbv zeta in E2.
  destruct (Hlist (net_requests (w_net w1)) _ (request_options_url f (metadata_url f) None hs2)) as (r2 & Er2 & Hcode2).
  rewrite Er2 in E2. simpl in E2. rewrite Hcode2 in E2. simpl in E2. rewrite !(bind_ok _ _ _ _ _ E2).
  eexists. split; [|destruct (code2 =? 200), (code2 =? 404); cbn; [reflexivity..|by eexists]]. by destruct w.
Qed.

End validation.

Section store.
Context {SSL : OpenSSL} {K : Kernel} {J : JsonApi} {CU : Curl} {B64 : Base64}.

(** A server with a key-value store, version 2, as its documentation describes
    it, which accepts the provider's requests, and no other client that writes
    to the same addresses: data sent to an address is kept, a request for it is
    answered with 404 if there is none and else with a document that contains
    the data; libcurl does not fail. *)
Class KvStore (f : OpenBaoFields) := {
  kv_init : curl_easy_init = true;
  kv_setopt os o : curl_easy_setopt os o = true;
  kv_append l h : curl_slist_append l h = true;
  kv_write hist os d :
    request_post os = Some d →
    ∃ r, curl_easy_perform hist os = Some r ∧ http_code r = Some 200;
  kv_read hist os name :
    request_url os = Some (get_keyring_openbao_url f name OPENBAO_URL_MAX_LEN) → request_post os = None →
    match posted (get_keyring_openbao_url f name OPENBAO_URL_MAX_LEN) hist with
    | None => ∃ r, curl_easy_perform hist os = Some r ∧ http_code r = Some 404
    | Some d => ∀ e, forallb b64_char e = true → (length e ≤ 64)%nat → d = key_json e →
        ∃ r doc, curl_easy_perform hist os = Some r ∧ http_code r = Some 200 ∧ document_ok doc ∧
          pg_parse_json (mjoin (http_body r)) = (json_events (document doc e), true)
    end;
}.

Context {f : OpenBaoFields} {KV : KvStore f}.

Lemma kv_works : ¬ curl_fails.
Proof.
  intros [H|[(os & o & H)|(l & h & H)]]; [by rewrite kv_init in H|by rewrite kv_setopt in H|by rewrite kv_append in H].
Qed.

Context {B64S : Base64Spec B64}.

Abbreviation url_of name := (get_keyring_openbao_url f name OPENBAO_URL_MAX_LEN).

Lemma openbao_set_ok kr key w :
  is_openbao kr f → 0 <= kd_len (ki_data key) <= MAX_KEY_DATA_SIZE → length (kd_data (ki_data key)) = 32%nat →
  ∃ e w', pg_b64_encode (take (Z.to_nat (kd_len (ki_data key))) (kd_data (ki_data key))) 64 = Some e ∧
    forallb b64_char e = true ∧ (length e ≤ 64)%nat ∧
    openbao_set_key_by_name kr key w = Ok tt w' ∧ set_net (w_net w) w' = w ∧
    posted (url_of (ki_name key)) (net_requests (w_net w')) = Some (key_json e).
Proof.
  intros Hk Hl Hd. unfold MAX_KEY_DATA_SIZE, KEY_DATA_SIZE_256 in Hl.
  set (data := take _ _). assert (length data ≤ 32)%nat as Hlen by (unfold data; rewrite length_take; lia).
  assert (4 * ((length data + 2) / 3) ≤ 44)%nat as Hfit.
  { assert ((length data + 2) / 3 ≤ 34 / 3)%nat by (apply Nat.Div0.div_le_mono; lia). change (34 / 3)%nat with 11%nat in *. lia. }
  destruct (b64_encode_fits data 64) as (e & Ee & Hel & Hec); [lia|].
  unfold openbao_set_key_by_name. rewrite !(bind_ok _ _ _ _ _ (openbao_fields_ok kr f w Hk)).
  rewrite (proj2 (Z.ltb_ge _ _)) by (unfold MAX_KEY_DATA_SIZE, KEY_DATA_SIZE_256; lia). fold data. rewrite Ee.
  destruct (Nat.leb_spec 64 (length e)) as [|_]; [lia|]. cbv zeta.
  destruct (perform_sent f (url_of (ki_name key)) (Some (key_json e)) w kv_works) as (hs & E). cbv zeta in E.
  destruct (kv_write (net_requests (w_net w)) (request_options f (url_of (ki_name key)) (Some (key_json e)) hs)
              (key_json e) (request_options_post _ _ _ _)) as (r & Er & Hc).
  rewrite Er in E. simpl in E. rewrite Hc in E. simpl in E.
  eexists e, _. split_and!; [done|done|lia|by rewrite (bind_ok _ _ _ _ _ E)|by destruct w|].
  cbn [w_net set_net net_requests]. unfold posted. rewrite foldl_app. cbn [foldl].
  by rewrite request_options_url, bool_decide_eq_true_2, request_options_post by done.
Qed.

Lemma b64_cstr e : forallb b64_char e = true → cstr e = e.
Proof.
  intros H. apply cstr_nonzero, Forall_forall. intros b Hb%list_elem_of_In ->.
  rewrite forallb_forall in H. by specialize (H _ Hb).
Qed.

(** Fetching a key gives what was last sent to its address. *)
Lemma openbao_get_ok kr name e data w :
  is_openbao kr f → posted (url_of name) (net_requests (w_net w)) = Some (key_json e) →
  forallb b64_char e = true → (length e ≤ 64)%nat →
  pg_b64_encode data 64 = Some e → (length data ≤ 32)%nat →
  ∃ buf w', length buf = 32%nat ∧ set_net (w_net w) w' = w ∧
    openbao_get_key_by_name kr name w = Ok (Some (fetched_key name data buf), KEYRING_CODE_SUCCESS) w'.
Proof.
  intros Hk Hp Hc Hle Ee Hd. unfold openbao_get_key_by_name.
  rewrite !(bind_ok _ _ _ _ _ (openbao_fields_ok kr f w Hk)). cbv zeta.
  destruct (perform_sent f (url_of name) None w kv_works) as (hs & E). cbv zeta in E.
  pose proof (kv_read (net_requests (w_net w)) (request_options f (url_of name) None hs) name
                (request_options_url _ _ _ _) (request_options_post _ _ _ _)) as Hr.
  rewrite Hp in Hr. destruct (Hr e Hc Hle eq_refl) as (r & doc & Er & Hcode & Hdoc & Hparse).
  rewrite Er in E. simpl in E. rewrite Hcode in E. simpl in E. rewrite !(bind_ok _ _ _ _ _ E). 
  change (200 =? 404) with false. change (Z.quot 200 100 =? 2) with true. cbn [negb]. unfold parse_json_response. rewrite Hparse. cbn [negb].
  rewrite response_key by done.
  rewrite b64_cstr, (b64_decode_encode data 64 _ e Ee) by (done || (unfold MAX_KEY_DATA_SIZE, KEY_DATA_SIZE_256; lia)).
  match goal with |- context [set_net ?n w] => set (w' := set_net n w) end.
  rewrite !(bind_ok (uninit _) _ w' _ w' eq_refl).
  rewrite (proj2 (Z.ltb_ge _ _)) by (unfold MAX_KEY_DATA_SIZE, KEY_DATA_SIZE_256; lia).
  eexists _, _. split; [|split; [|reflexivity]]; [|by destruct w].
  rewrite length_take, length_app, zeros_length. change (Z.to_nat MAX_KEY_DATA_SIZE) with 32%nat. lia.
Qed.

Context {Spec : OpenSSLSpec SSL} {PP : PgPort} {NK : NetworkKeyrings}.

(** C33: a key that was created with an OpenBao provider is fetched again with
    the same bytes, as long as nothing else was sent to its address. Creating
    and fetching keys changes nothing of the server's own state, except that
    a random number is drawn. *)
Theorem openbao_create_then_get kr name len w :
  RandWorks SSL → keyringOpenBaoRoutine = openbao_routine → kr_type kr = OPENBAO_KEY_PROVIDER → is_openbao kr f →
  (len = 16 ∨ len = 32) → (0 < length (cstr name) ≤ 255)%nat →
  ∃ key w', KeyringGenerateNewKeyAndStore kr name len w = Ok key w' ∧
    set_net (w_net w) w' = set_rand (S (w_rand w)) w ∧
    ∀ w1, posted (url_of name) (net_requests (w_net w1)) = posted (url_of name) (net_requests (w_net w')) →
    ∃ key' w2, KeyringGetKey kr name w1 = Ok (Some key', KEYRING_CODE_SUCCESS) w2 ∧ set_net (w_net w1) w2 = w1 ∧
      cstr (ki_name key') = cstr (ki_name key) ∧ kd_len (ki_data key') = len ∧ kd_len (ki_data key) = len ∧
      take (Z.to_nat len) (kd_data (ki_data key')) = take (Z.to_nat len) (kd_data (ki_data key)).
Proof.
  intros RW Hnk Ht Hk Hlen Hn. unfold KeyringGenerateNewKeyAndStore.
  destruct (KeyringGenerateNewKey_ok name len w Hlen ltac:(lia)) as (key & Eg & (Hw1 & Hw2 & _) & _ & Hl & Hc).
  rewrite (bind_ok _ _ _ _ _ Eg). set (w0 := set_rand _ w).
  assert (url_of (ki_name key) = url_of name) as Hu by (unfold get_keyring_openbao_url; by rewrite Hc).
  destruct (openbao_set_ok kr key w0 Hk) as (e & w' & Ee & Hec & Hel & Es & Hs & Hp); [|done|].
  { unfold MAX_KEY_DATA_SIZE, KEY_DATA_SIZE_256. lia. }
  rewrite Hu in Hp. rewrite Hl in Ee. exists key, w'. split_and!; [|done|].
  { unfold KeyringStoreKey. rewrite Ht. cbn. rewrite Hnk. by rewrite (bind_ok _ _ _ _ _ Es). }
  intros w1 Hw1'. rewrite Hp in Hw1'. set (data := take (Z.to_nat len) _) in Ee.
  assert (length data = Z.to_nat len) as Hd by (unfold data; rewrite length_take, Hw2; lia).
  destruct (openbao_get_ok kr name e data w1) as (buf & w2 & Hb & Hn2 & E2); [done..|lia|].
  destruct (fetched_key_ok name data buf) as (Hv & Hname & Hdata); [lia|lia|].
  unfold KeyringGetKey. rewrite Ht. simpl. rewrite Hnk. simpl. rewrite (bind_ok _ _ _ _ _ E2).
  rewrite bool_decide_eq_true_2, Hv by done. cbn [negb].
  eexists _, w2. split_and!; [done|done|by rewrite Hname| |done|].
  - cbn [fetched_key ki_data kd_len]. lia.
  - rewrite <-Hd at 1. exact Hdata.
Qed.

End store.

(** ** Base 64 (RFC 4648) *)

Definition b64_alphabet : bytes := bytes_of "ABCDEFGHIJKLMNOPQRSTUVWXYZabcdefghijklmnopqrstuvwxyz0123456789+/".

Definition b64_digit (z : Z) : byte := default x3d (b64_alphabet !! Z.to_nat z).
Definition b64_value (b : byte) : option Z := Z.of_nat ∘ fst <$> list_find (λ c, c = b) b64_alphabet.

Definition b64_group (v : Z) : bytes :=
  [b64_digit (v / 262144); b64_digit (v / 4096 mod 64); b64_digit (v / 64 mod 64); b64_digit (v mod 64)].

Fixpoint b64_enc (d : bytes) : bytes :=
  match d with
  | a :: b :: c :: d => b64_group (b2z a * 65536 + b2z b * 256 + b2z c) ++ b64_enc d
  | [a; b] => take 3 (b64_group (b2z a * 65536 + b2z b * 256)) ++ [x3d]
  | [a] => take 2 (b64_group (b2z a * 65536)) ++ [x3d; x3d]
  | [] => []
  end.

(** One group of four digits, the last of which may be padding. *)
Definition b64_ungroup (p q r s : byte) : option bytes :=
  p ← b64_value p; q ← b64_value q;
  let v := p * 262144 + q * 4096 in
  if bool_decide (r = x3d) then (if bool_decide (s = x3d) then Some [z2b (v / 65536)] else None)
  else
    r ← b64_value r;
    let v := v + r * 64 in
    if bool_decide (s = x3d) then Some [z2b (v / 65536); z2b (v / 256)]
    else s ← b64_value s; let v := v + s in Some [z2b (v / 65536); z2b (v / 256); z2b v].

Fixpoint b64_dec (e : bytes) : option bytes :=
  match e with
  | [] => Some []
  | p :: q :: r :: s :: e =>
      g ← b64_ungroup p q r s;
      if Nat.eqb (length g) 3 || Nat.eqb (length e) 0 then d ← b64_dec e; Some (g ++ d) else None
  | _ => None
  end.

Definition b64_digit_ok (n : nat) : bool :=
  bool_decide (b64_value (b64_digit (Z.of_nat n)) = Some (Z.of_nat n)) &&
  b64_char (b64_digit (Z.of_nat n)) && bool_decide (b64_digit (Z.of_nat n) ≠ x3d).

Lemma b64_digits_ok : forallb b64_digit_ok (seq 0 64) = true.
Proof. vm_compute. reflexivity. Qed.

Lemma b64_digit_facts z :
  0 <= z < 64 → b64_value (b64_digit z) = Some z ∧ b64_char (b64_digit z) = true ∧ b64_digit z ≠ x3d.
Proof.
  intros Hz. pose proof b64_digits_ok as H. rewrite forallb_forall in H.
  specialize (H (Z.to_nat z)). unfold b64_digit_ok in H. rewrite Z2Nat.id in H by lia.
  assert (b64_digit_ok (Z.to_nat z) = true) as H'.
  { unfold b64_digit_ok. rewrite Z2Nat.id by lia. apply H, in_seq. lia. }
  unfold b64_digit_ok in H'. rewrite Z2Nat.id in H' by lia. apply andb_prop in H' as [[H1 H2]%andb_prop H3].
  split_and!; [by apply bool_decide_eq_true in H1|done|by apply bool_decide_eq_true in H3].
Qed.

(** Induction in steps of three. *)
Lemma three_ind (P : bytes → Prop) :
  P [] → (∀ a, P [a]) → (∀ a b, P [a; b]) → (∀ a b c d, P d → P (a :: b :: c :: d)) → ∀ d, P d.
Proof.
  intros H0 H1 H2 H3. cut (∀ n d, (length d ≤ n)%nat → P d).
  { intros H d. by apply (H (length d)). }
  induction n as [|n IH]; intros [|a [|b [|c d]]] Hl; simpl in Hl; try done; try lia. apply H3, IH. lia.
Qed.

Lemma b64_split v :
  0 <= v < 16777216 →
  (0 <= v / 262144 < 64 ∧ 0 <= v / 4096 mod 64 < 64 ∧ 0 <= v / 64 mod 64 < 64 ∧ 0 <= v mod 64 < 64) ∧
  v / 262144 * 262144 + v / 4096 mod 64 * 4096 + v / 64 mod 64 * 64 + v mod 64 = v.
Proof. intros H. split; [split_and!|]; Z.div_mod_to_equations; lia. Qed.

Lemma b64_bytes a b c :
  let v := b2z a * 65536 + b2z b * 256 + b2z c in
  z2b (v / 65536) = a ∧ z2b (v / 256) = b ∧ z2b v = c.
Proof.
  intros v. pose proof (b2z_range a). pose proof (b2z_range b). pose proof (b2z_range c).
  rewrite <-(z2b_mod (v / 256)), <-(z2b_mod v).
  assert (v / 65536 = b2z a) as -> by (unfold v; Z.div_mod_to_equations; lia).
  assert (v / 256 mod 256 = b2z b) as -> by (unfold v; Z.div_mod_to_equations; lia).
  assert (v mod 256 = b2z c) as -> by (unfold v; Z.div_mod_to_equations; lia).
  by rewrite !z2b_b2z.
Qed.

Lemma b64_ungroup_ok a b c :
  let v := b2z a * 65536 + b2z b * 256 + b2z c in
  let '(p, q, r, s) := (b64_digit (v / 262144), b64_digit (v / 4096 mod 64), b64_digit (v / 64 mod 64), b64_digit (v mod 64)) in
  b64_ungroup p q r s = Some [a; b; c] ∧
  (c = x00 → b64_ungroup p q r x3d = Some [a; b]) ∧
  (b = x00 → c = x00 → b64_ungroup p q x3d x3d = Some [a]) ∧
  forallb b64_char [p; q; r; s] = true.
Proof.
  intros v. cbv iota. pose proof (b2z_range a) as Ra. pose proof (b2z_range b) as Rb. pose proof (b2z_range c) as Rc.
  destruct (b64_split v) as ((H1 & H2 & H3 & H4) & Hv); [lia|]. destruct (b64_bytes a b c) as (Ea & Eb & Ec). fold v in Ea, Eb, Ec.
  assert (c = x00 → v mod 64 = 0) as Z4 by (intros ->; unfold v; change (b2z x00) with 0; Z.div_mod_to_equations; lia).
  assert (b = x00 → c = x00 → v / 64 mod 64 = 0) as Z3 by (intros -> ->; unfold v; change (b2z x00) with 0; Z.div_mod_to_equations; lia).
  destruct (b64_digit_facts _ H1) as (E1 & C1 & _), (b64_digit_facts _ H2) as (E2 & C2 & _).
  destruct (b64_digit_facts _ H3) as (E3 & C3 & N3), (b64_digit_facts _ H4) as (E4 & C4 & N4).
  unfold b64_ungroup. rewrite E1, E2. cbn [mbind option_bind]. rewrite E3, E4. cbn [mbind option_bind].
  rewrite !(bool_decide_eq_false_2 _ N3), !(bool_decide_eq_false_2 _ N4), !(bool_decide_eq_true_2 (x3d = x3d) eq_refl).
  split_and!.
  - by rewrite Hv, Ea, Eb, Ec.
  - intros Hc. rewrite (Z4 Hc), Z.add_0_r in Hv. by rewrite Hv, Ea, Eb.
  - intros Hb Hc. rewrite (Z4 Hc), (Z3 Hb Hc), Z.mul_0_l, !Z.add_0_r in Hv. by rewrite Hv, Ea.
  - cbn [forallb]. by rewrite C1, C2, C3, C4.
Qed.

Lemma b64_dec_enc d :
  b64_dec (b64_enc d) = Some d ∧ forallb b64_char (b64_enc d) = true ∧
  length (b64_enc d) = (4 * ((length d + 2) / 3))%nat.
Proof.
  induction d as [|a|a b|a b c d (IH1 & IH2 & IH3)] using three_ind; [done|..].
  - destruct (b64_ungroup_ok a x00 x00) as (_ & _ & H & C). change (b2z x00) with 0 in *. rewrite !Z.mul_0_l, !Z.add_0_r in *.
    cbn [b64_enc b64_group take app b64_dec forallb] in *. rewrite H by done. cbn. split_and!; [done| |done].
    destruct (b64_char _); [|done]. by destruct (b64_char _).
  - destruct (b64_ungroup_ok a b x00) as (_ & H & _ & C). change (b2z x00) with 0 in *. rewrite !Z.add_0_r in *.
    cbn [b64_enc b64_group take app b64_dec forallb] in *. rewrite H by done. cbn. split_and!; [done| |done].
    do 3 (destruct (b64_char _); [|done]). done.
  - destruct (b64_ungroup_ok a b c) as (H & _ & _ & C). cbn [b64_enc b64_group app b64_dec forallb length] in *.
    rewrite H, IH1. cbn [mbind option_bind length Nat.eqb orb app]. split_and!; [done| |].
    + rewrite IH2. by do 4 (destruct (b64_char _); [|done]).
    + rewrite IH3. replace (S (S (S (length d))) + 2)%nat with (1 * 3 + (length d + 2))%nat by lia.
      rewrite Nat.div_add_l by done. lia.
Qed.

#[local] Instance B64 : Base64 := {
  pg_b64_encode d n := if (4 * ((length d + 2) / 3) <=? n)%nat then Some (b64_enc d) else None;
  pg_b64_decode e n := d ← b64_dec e; if (length d <=? n)%nat then Some d else None;
}.

#[local] Instance B64Spec : Base64Spec B64.
Proof.
  split; cbn [pg_b64_encode pg_b64_decode B64].
  - intros d n Hn. exists (b64_enc d). rewrite (proj2 (Nat.leb_le _ _) Hn). destruct (b64_dec_enc d) as (_ & H1 & H2).
    by split_and!.
  - intros d n m e. case_match; [|done]. intros [= <-] Hm. rewrite (proj1 (b64_dec_enc d)). simpl.
    by rewrite (proj2 (Nat.leb_le _ _) Hm).
Qed.

(** ** A server that keeps what it is sent *)

Definition kv_prefix : bytes :=
  [x7b] ++ quoted (bytes_of "data") ++ [x3a; x7b] ++ quoted (bytes_of "data") ++ [x3a; x7b] ++
  quoted (bytes_of "key") ++ [x3a; x22].
Definition kv_suffix : bytes := [x22; x7d; x7d; x7d].

Definition no_other_fields : key_document := mkKeyDocument [] [] [] [] [] [].

(** Understands the answers of the server below. *)
#[local] Instance KvJson : JsonApi := λ body,
  let e := skipn (length kv_prefix) (take (length body - length kv_suffix) body) in
  if bool_decide (body = kv_prefix ++ e ++ kv_suffix) then (json_events (document no_other_fields e), true)
  else ([], false).

#[local] Instance KvCurl : Curl := {
  curl_easy_init := true;
  curl_easy_setopt _ _ := true;
  curl_slist_append _ _ := true;
  curl_easy_perform hist os :=
    match request_post os with
    | Some _ => Some (mkHttpResponse [] (Some 200))
    | None =>
        match u ← request_url os; posted u hist with
        | None => Some (mkHttpResponse [] (Some 404))
        | Some d => Some (mkHttpResponse [[x7b] ++ quoted (bytes_of "data") ++ [x3a]; d; [x7d]] (Some 200))
        end
    end;
}.

#[local] Instance KvServer f : KvStore f.
Proof.
  split; try done.
  - intros hist os d Hd. cbn [curl_easy_perform KvCurl]. rewrite Hd. by eexists.
  - intros hist os name Hu Hp. cbn [curl_easy_perform KvCurl]. rewrite Hp, Hu. cbn [mbind option_bind].
    destruct (posted _ hist) as [d|]; [|by eexists]. intros e He Hl ->.
    eexists _, no_other_fields. split; [reflexivity|]. split; [reflexivity|]. split; [by constructor; constructor|].
    replace (mjoin _) with (kv_prefix ++ e ++ kv_suffix).
    { unfold pg_parse_json, KvJson. rewrite !length_app, Nat.add_assoc, Nat.add_sub, app_assoc, take_app_length' by (by rewrite length_app).
      rewrite skipn_app, drop_all, Nat.sub_diag. cbn [skipn app]. by rewrite bool_decide_eq_true_2 by by rewrite app_assoc. }
    unfold key_json, snprintf, kv_prefix, kv_suffix, quoted. rewrite b64_cstr by done. cbn [mjoin list_join http_body].
    rewrite take_ge.
    2: { repeat (rewrite length_app || cbn [length app]). change (length (bytes_of "data")) with 4%nat.
         change (length (bytes_of "key")) with 3%nat. lia. }
    change (bytes_of "data") with [x64; x61; x74; x61]. change (bytes_of "key") with [x6b; x65; x79].
    repeat (rewrite <-!app_assoc || rewrite app_nil_r || cbn [app]). reflexivity.
Qed.

#[local] Instance OpenBaoOnly : NetworkKeyrings :=
  {| keyringKmipRoutine := openbao_routine; keyringOpenBaoRoutine := openbao_routine |}.

Definition openbao0 : OpenBaoFields :=
  mkOpenBaoFields (Some (bytes_of "token")) (Some (bytes_of "https://bao:8200")) None (Some (bytes_of "secret")) None.
Definition openbao_keyring0 : GenericKeyring :=
  mkGenericKeyring OPENBAO_KEY_PROVIDER (-2) (char_array 128 (bytes_of "bao")) []
    (OpenBaoKeyring (openbao_token openbao0) (Some (bytes_of "/token")) (openbao_url openbao0) (openbao_ca_path openbao0)
       (openbao_mount_path openbao0) (openbao_namespace openbao0)).

Lemma openbao_requests_confined_witness :
  always (sends (confined openbao0 None)) (openbao_validate openbao_keyring0).
Proof. apply (openbao_requests_confined openbao_keyring0 openbao0). by eexists. Defined.

Lemma openbao_create_then_get_witness :
  ∃ key w', KeyringGenerateNewKeyAndStore openbao_keyring0 (bytes_of "key1") 16 world0 = Ok key w' ∧
    ∃ key' w2, KeyringGetKey openbao_keyring0 (bytes_of "key1") w' = Ok (Some key', KEYRING_CODE_SUCCESS) w2 ∧
      take 16 (kd_data (ki_data key')) = take 16 (kd_data (ki_data key)).
Proof.
  destruct (openbao_create_then_get (f := openbao0) (NK := OpenBaoOnly) openbao_keyring0 (bytes_of "key1") 16 world0 ToyRand eq_refl eq_refl)
    as (key & w' & E & _ & H); [by eexists|by left|vm_compute; lia|].
  exists key, w'. split; [exact E|]. destruct (H w' eq_refl) as (key' & w2 & E2 & _ & _ & _ & _ & Hd). by exists key', w2.
Defined.

(** A server that describes its mount. *)
Definition mount_fields0 : list (bytes * json) :=
  [(bytes_of "options", JObject [(bytes_of "version", JScalar (bytes_of "2") JSON_TOKEN_STRING)]);
   (bytes_of "config", JObject [(bytes_of "type", JScalar (bytes_of "x") JSON_TOKEN_STRING)]);
   (bytes_of "type", JScalar (bytes_of "kv") JSON_TOKEN_STRING)].

Definition MountJson : JsonApi := λ _, (json_events (mount_document [] [] mount_fields0), true).

Definition MountCurl : Curl := {|
  curl_easy_init := true;
  curl_easy_setopt _ _ := true;
  curl_slist_append _ _ := true;
  curl_easy_perform _ _ := Some (mkHttpResponse [] (Some 200));
|}.

Lemma mount_info_parsed_witness :
  parse_openbao_mount_info (H := MountJson) [] =
    (mkMountInfo TOP (-1) (Some (bytes_of "kv")) (Some (bytes_of "2")), true).
Proof. apply (mount_info_parsed (J := MountJson) [] [] mount_fields0 []); [reflexivity|constructor|reflexivity]. Defined.

Lemma openbao_validate_decides_witness :
  ∃ w', openbao_validate (J := MountJson) (CU := MountCurl) openbao_keyring0 world0 = Ok tt w'.
Proof.
  destruct (openbao_validate_decides (J := MountJson) (CU := MountCurl) openbao_keyring0 openbao0 [] [] mount_fields0 200 world0)
    as (w' & _ & E); [|by eexists|vm_compute; lia|vm_compute; lia|constructor|reflexivity|..].
  - intros [H|[(os & o & H)|(l & h & H)]]; discriminate H.
  - intros hist os _. by eexists.
  - intros hist os _. by eexists.
  - exists w'. exact E.
Defined.
