(* ===== verification/Kmip.v ===== *)
(** keyring/keyring_kmip.c and keyring/keyring_kmip_impl.c: the provider that
    keeps principal keys in a KMIP server.

    The TLS functions of OpenSSL are the class [TlsApi], libkmip is [KmipApi].
    Both can answer what they want, also depending on everything that was sent
    before. What is set up in an [SSL_CTX], a [BIO] and the parameters of its
    verification is one record [SslConnection]. Warnings are not recorded;
    memory is not freed. *)
From S2P Require Import Prelude Types Environ KeyFile Keyring.

(** ** Libraries *)

(** Whether a call succeeds. [SSL_CTX_set_min_proto_version] can fail too, which
    the code does not look at. *)
Class TlsApi := {
  SSL_CTX_new : list NetRequest → bool;
  SSL_CTX_set_min_proto_version : list NetRequest → bool;
  SSL_CTX_use_certificate_file : list NetRequest → option bytes → bool;
  SSL_CTX_use_PrivateKey_file : list NetRequest → option bytes → bool;
  SSL_CTX_load_verify_locations : list NetRequest → option bytes → bool;
  BIO_new_ssl_connect : list NetRequest → bool;
  X509_VERIFY_PARAM_set1_ip_asc : option bytes → bool;
  X509_VERIFY_PARAM_set1_host : option bytes → bool;
  BIO_do_connect : list NetRequest → SslConnection → bool;
  SSL_get_verify_result : list NetRequest → SslConnection → bool;
}.

(** The results, 0 for success; in this case also the identifiers of the objects
    that were found, arrays of [MAX_LOCATE_LEN] bytes, and the bytes of the
    key. *)
Class KmipApi := {
  kmip_strnlen_s : bytes → nat → nat;
  kmip_bio_register_symmetric_key : list NetRequest → SslConnection → list KmipAttribute → bytes → Z;
  kmip_bio_locate : list NetRequest → SslConnection → list KmipAttribute → Z → Z → Z * list bytes;
  kmip_bio_get_symmetric_key : list NetRequest → SslConnection → bytes → Z * bytes;
}.

Definition MAX_LOCATE_LEN : nat := 128.

Section kmip.
Context {SSL : OpenSSL} {TLS : TlsApi} {KA : KmipApi}.

Definition send (r : NetRequest) : M unit :=
  modify (λ w, set_net (mkNetState (keyringCurl (w_net w)) (net_requests (w_net w) ++ [r])) w).

(** ** keyring_kmip_impl.c *)

(** The name an object gets: at most 250 bytes of it. *)
Definition kmip_name (key_name : bytes) : KmipAttribute :=
  KMIP_ATTR_NAME (take (kmip_strnlen_s key_name 250) key_name).

Definition open_pg_tde_kmip_set_by_name (bio : SslConnection) (key_name key : bytes) : M Z :=
  let a := [KMIP_ATTR_CRYPTOGRAPHIC_ALGORITHM_AES;
            KMIP_ATTR_CRYPTOGRAPHIC_LENGTH (Z.of_nat (length key) * 8);
            KMIP_ATTR_CRYPTOGRAPHIC_USAGE_ENCRYPT_DECRYPT;
            kmip_name key_name] in
  hist ← gets (λ w, net_requests (w_net w));
  send (KmipCall bio (KmipRegister a key));;
  mret (kmip_bio_register_symmetric_key hist bio a key).

(** The result, the number of identifiers and the first of them. *)
Definition open_pg_tde_kmip_locate_key (bio : SslConnection) (key_name : bytes) : M (Z * (nat * option bytes)) :=
  let a := [KMIP_ATTR_OBJECT_TYPE_SYMMETRIC_KEY; kmip_name key_name] in
  hist ← gets (λ w, net_requests (w_net w));
  send (KmipCall bio (KmipLocate a 16 0));;
  let '(result, ids) := kmip_bio_locate hist bio a 16 0 in
  mret (result, (length ids, take MAX_LOCATE_LEN <$> head ids)).

(** [id] is read as a string. *)
Definition open_pg_tde_kmip_get_key (bio : SslConnection) (id : bytes) : M (Z * bytes) :=
  hist ← gets (λ w, net_requests (w_net w));
  send (KmipCall bio (KmipGet (cstr id)));;
  mret (kmip_bio_get_symmetric_key hist bio (cstr id)).

(** ** keyring_kmip.c *)

(** [KmipKeyring] *)
Record KmipFields := mkKmipFields {
  kmip_host : option bytes;
  kmip_port : option bytes;
  kmip_ca_path : option bytes;
  kmip_cert_path : option bytes;
  kmip_key_path : option bytes;
}.

(** [(KmipKeyring * ) keyring] *)
Definition kmip_fields (keyring : GenericKeyring) : M KmipFields :=
  match kr_specific keyring with
  | KmipKeyring host port ca_path cert_path key_path => mret (mkKmipFields host port ca_path cert_path key_path)
  | _ => ereport PANIC "not a KMIP key provider"
  end.

(** [ctx.bio], or [None] when the code returns false. *)
Definition kmipSslConnect (kmip_keyring : KmipFields) (throw_error : bool) : M (option SslConnection) :=
  let fail msg := if throw_error then ereport ERROR msg else mret None in
  hist ← gets (λ w, net_requests (w_net w));
  if negb (SSL_CTX_new hist) then ereport PANIC "NULL pointer dereference"
  else if negb (SSL_CTX_use_certificate_file hist (kmip_cert_path kmip_keyring))
  then fail "SSL error: Loading the client certificate failed"
  else if negb (SSL_CTX_use_PrivateKey_file hist (kmip_key_path kmip_keyring))
  then fail "SSL error: Loading the client key failed"
  else if negb (SSL_CTX_load_verify_locations hist (kmip_ca_path kmip_keyring))
  then fail "SSL error: Loading the CA certificate failed"
  else if negb (BIO_new_ssl_connect hist) then fail "SSL error: BIO_new_ssl_connect failed"
  else
    let by_ip := X509_VERIFY_PARAM_set1_ip_asc (kmip_host kmip_keyring) in
    if negb by_ip && negb (X509_VERIFY_PARAM_set1_host (kmip_host kmip_keyring))
    then fail "SSL error: could not set expected KMIP host name"
    else
      let bio := {|
        ssl_min_proto_1_2 := SSL_CTX_set_min_proto_version hist;
        ssl_verify_peer := true;
        ssl_cert_file := kmip_cert_path kmip_keyring;
        ssl_key_file := kmip_key_path kmip_keyring;
        ssl_ca_file := kmip_ca_path kmip_keyring;
        ssl_peer_name := (if by_ip then PeerIp else PeerHost) (kmip_host kmip_keyring);
        ssl_host := kmip_host kmip_keyring;
        ssl_port := kmip_port kmip_keyring;
      |} in
      send (SslConnect bio);;
      if negb (BIO_do_connect hist bio) then fail "SSL error: BIO_do_connect failed"
      else if negb (SSL_get_verify_result hist bio)
      then fail "SSL error: KMIP server certificate verification failed"
      else mret (Some bio).

(** The connection, when a failure raises an error. *)
Definition kmip_connect (kmip_keyring : KmipFields) : M SslConnection :=
  c ← kmipSslConnect kmip_keyring true;
  match c with
  | Some bio => mret bio
  | None => ereport PANIC "connection not set up"
  end.

Definition kmip_set_key_by_name (keyring : GenericKeyring) (key : KeyInfo) : M unit :=
  kmip_keyring ← kmip_fields keyring;
  bio ← kmip_connect kmip_keyring;
  if MAX_KEY_DATA_SIZE <? kd_len (ki_data key) then ereport PANIC "read past the end of the key"
  else
    result ← open_pg_tde_kmip_set_by_name bio (ki_name key)
               (take (Z.to_nat (kd_len (ki_data key))) (kd_data (ki_data key)));
    if negb (result =? 0) then ereport ERROR "KMIP server reported error on register symmetric key"
    else mret tt.

Definition kmip_get_key_by_name (keyring : GenericKeyring) (key_name : bytes)
  : M (option KeyInfo * KeyringReturnCode) :=
  kmip_keyring ← kmip_fields keyring;
  c ← kmipSslConnect kmip_keyring false;
  match c with
  | None => mret (None, KEYRING_CODE_SUCCESS)
  | Some bio =>
      '(result, (ids_found, id)) ← open_pg_tde_kmip_locate_key bio key_name;
      if negb (result =? 0) then mret (None, KEYRING_CODE_RESOURCE_NOT_AVAILABLE)
      else
        match id with
        | None => mret (None, KEYRING_CODE_SUCCESS)
        | Some id =>
            if Nat.ltb 1 ids_found then mret (None, KEYRING_CODE_RESOURCE_NOT_AVAILABLE)
            else
              data ← uninit (Z.to_nat MAX_KEY_DATA_SIZE);
              if negb (existsb (λ b, bool_decide (b = x00)) id) then ereport PANIC "read past the end of id"
              else
                '(result, keyp) ← open_pg_tde_kmip_get_key bio id;
                if negb (result =? 0) then mret (None, KEYRING_CODE_RESOURCE_NOT_AVAILABLE)
                else if MAX_KEY_DATA_SIZE <? Z.of_nat (length keyp) then mret (None, KEYRING_CODE_INVALID_KEY)
                else
                  mret (Some (mkKeyInfo (char_array TDE_KEY_NAME_LEN (take 255 (cstr key_name)))
                                (mkKeyData (write_at 0 keyp data) (Z.of_nat (length keyp)))),
                        KEYRING_CODE_SUCCESS)
        end
  end.

Definition kmip_validate (keyring : GenericKeyring) : M unit :=
  kmip_keyring ← kmip_fields keyring;
  _ ← kmip_connect kmip_keyring;
  mret tt.

Definition kmip_routine : TDEKeyringRoutine :=
  mkRoutine kmip_get_key_by_name kmip_set_key_by_name kmip_validate.

End kmip.
