(* ===== verification/KmipThms.v ===== *)
(** Properties of the KMIP provider: that it talks only to servers that were
    verified, which key a name stands for, and that the routines of both network
    providers keep what the rest of the development expects of them. *)
From S2P Require Import Prelude Types Environ Instances KeyringOptions KeyringOptionsThms KeyFile Keyring KeyringThms.
From S2P Require Import Kmip.

(** ** Sessions *)

Section sessions.
Context {SSL : OpenSSL} {K : Kernel} {TLS : TlsApi} {KA : KmipApi}.

(** The fields of the provider. *)
Definition is_kmip (kr : GenericKeyring) (f : KmipFields) : Prop :=
  kr_specific kr = KmipKeyring (kmip_host f) (kmip_port f) (kmip_ca_path f) (kmip_cert_path f) (kmip_key_path f).

Lemma kmip_fields_ok kr f w : is_kmip kr f → kmip_fields kr w = Ok f w.
Proof. intros E. unfold kmip_fields. rewrite E. by destruct f. Qed.

(** The connection is to the server of the provider, whose certificate has to be
    signed by the CA of the provider and to be issued for that server. *)
Definition bound_to (f : KmipFields) (hist : list NetRequest) (c : SslConnection) : Prop :=
  ssl_verify_peer c = true ∧ ssl_min_proto_1_2 c = SSL_CTX_set_min_proto_version hist ∧
  ssl_ca_file c = kmip_ca_path f ∧ ssl_cert_file c = kmip_cert_path f ∧ ssl_key_file c = kmip_key_path f ∧
  ssl_host c = kmip_host f ∧ ssl_port c = kmip_port f ∧
  (ssl_peer_name c = PeerIp (kmip_host f) ∧ X509_VERIFY_PARAM_set1_ip_asc (kmip_host f) = true ∨
   ssl_peer_name c = PeerHost (kmip_host f) ∧ X509_VERIFY_PARAM_set1_host (kmip_host f) = true).

(** The handshake and the check of the certificate succeed. *)
Definition verified (hist : list NetRequest) (c : SslConnection) : Prop :=
  BIO_do_connect hist c = true ∧ SSL_get_verify_result hist c = true.

(** Nothing but the state of the network code changes; at most one connection is
    opened, and operations, all of the given kind, are sent on it only if it was
    verified. *)
Definition session (f : KmipFields) (P : KmipOperation → Prop) (w w' : World) : Prop :=
  let hist := net_requests (w_net w) in
  set_net (w_net w) w' = w ∧
  (net_requests (w_net w') = hist ∨
   ∃ c ops, net_requests (w_net w') = hist ++ SslConnect c :: (KmipCall c <$> ops) ∧
     bound_to f hist c ∧ (ops ≠ [] → verified hist c) ∧ Forall P ops).

Definition add_request (r : NetRequest) (w : World) : World :=
  set_net (mkNetState (keyringCurl (w_net w)) (net_requests (w_net w) ++ [r])) w.

Lemma connect_ok f te w :
  match kmipSslConnect f te w with
  | Ok (Some c) w' => w' = add_request (SslConnect c) w ∧ bound_to f (net_requests (w_net w)) c ∧
      verified (net_requests (w_net w)) c
  | Ok None w' => te = false ∧ session f (λ _, False) w w'
  | Err _ w' => session f (λ _, False) w w'
  end.
Proof.
  assert (session f (λ _, False) w w) as Hrefl by (split; [by destruct w|by left]).
  unfold kmipSslConnect. rewrite (bind_ok (gets _) _ w _ w eq_refl). cbv beta zeta.
  set (hist := net_requests (w_net w)).
  do 5 (destruct (negb _); [by destruct te|]).
  destruct (negb _ && _) eqn:Hpeer; [by destruct te|]. set (bio := {| ssl_min_proto_1_2 := _ |}).
  assert (bound_to f hist bio) as Hb.
  { unfold bound_to, bio. cbn. split_and!; try done. destruct (X509_VERIFY_PARAM_set1_ip_asc _); [by left|right].
    cbn in Hpeer. by destruct (X509_VERIFY_PARAM_set1_host _). }
  assert (session f (λ _, False) w (add_request (SslConnect bio) w)) as Hs.
  { split; [by destruct w|]. right. exists bio, []. by split_and!. }
  change (send (SslConnect bio)) with (modify (add_request (SslConnect bio))). rewrite (bind_ok (modify _) _ w tt (add_request (SslConnect bio) w) eq_refl).
  destruct (BIO_do_connect hist bio) eqn:E1; [|by destruct te]. destruct (SSL_get_verify_result hist bio) eqn:E2; [|by destruct te].
  by cbn.
Qed.

(** Operations on an open connection. *)
Definition calls (c : SslConnection) (P : KmipOperation → Prop) : relation World :=
  sends (λ r, ∃ op, r = KmipCall c op ∧ P op).

Lemma calls_session f P c w w' :
  bound_to f (net_requests (w_net w)) c → verified (net_requests (w_net w)) c →
  calls c P (add_request (SslConnect c) w) w' → session f P w w'.
Proof.
  intros Hb Hv [Hn (rs & Hr & HP)]. split.
  { apply (f_equal (set_net (w_net w))) in Hn. by destruct w. }
  right.
  assert (∃ ops, rs = KmipCall c <$> ops ∧ Forall P ops) as (ops & -> & HP').
  { clear Hr Hn Hb Hv. induction HP as [|r rs (op & -> & Hop) _ (ops & -> & IH)]; [by exists []|]. exists (op :: ops).
    split; [done|by constructor]. }
  exists c, ops. split_and!; [|done..]. rewrite Hr. cbn. by rewrite <-app_assoc.
Qed.

Lemma session_mono f (P Q : KmipOperation → Prop) w w' :
  (∀ op, P op → Q op) → session f P w w' → session f Q w w'.
Proof.
  intros HPQ [Hn [H|(c & ops & H1 & H2 & H3 & H4)]]; (split; [done|]); [by left|right].
  exists c, ops. split_and!; try done. by apply (Forall_impl _ _ _ H4).
Qed.

(** A routine opens a connection and goes on with it, if there is one. *)
Lemma always_session {A} f te P (g : option SslConnection → M A) :
  (∀ c, always (calls c P) (g (Some c))) →
  (te = false → ∀ w, ∃ a, g None w = Ok a w) →
  always (session f P) (kmipSslConnect f te ≫= g).
Proof.
  intros Hg Hn w. pose proof (connect_ok f te w) as H. unfold mbind, M_bind.
  destruct (kmipSslConnect f te w) as [[c|] w1|e w1].
  - destruct H as (-> & Hb & Hv). specialize (Hg c (add_request (SslConnect c) w)).
    destruct (g _ _); by apply (calls_session f P c).
  - destruct H as [Ht H]. destruct (Hn Ht w1) as [a ->]. by apply (session_mono f (λ _, False)).
  - by apply (session_mono f (λ _, False)).
Qed.

Lemma always_connected {A} f P (g : SslConnection → M A) :
  (∀ c, always (calls c P) (g c)) → always (session f P) (kmip_connect f ≫= g).
Proof.
  intros Hg w. pose proof (connect_ok f true w) as H. unfold kmip_connect, mbind, M_bind.
  destruct (kmipSslConnect f true w) as [[c|] w1|e w1]; [|by destruct H|by apply (session_mono f (λ _, False))].
  destruct H as (-> & Hb & Hv). specialize (Hg c (add_request (SslConnect c) w)). cbn.
  destruct (g c _); by apply (calls_session f P c).
Qed.

Lemma always_call c (P : KmipOperation → Prop) op : P op → always (calls c P) (send (KmipCall c op)).
Proof.
  intros Hop w. split; [by destruct w|]. eexists. split; [done|]. apply Forall_singleton. by exists op.
Qed.
Hint Resolve always_call : always.

#[local] Instance calls_preorder c P : PreOrder (calls c P).
Proof. unfold calls. apply _. Qed.

Lemma always_kmip_fields {A} f P kr (g : KmipFields → M A) :
  is_kmip kr f → always (session f P) (g f) → always (session f P) (kmip_fields kr ≫= g).
Proof. intros Hk H w. rewrite (bind_ok _ _ _ _ _ (kmip_fields_ok kr f w Hk)). apply H. Qed.

(** What is registered for a key. *)
Definition registered (key : KeyInfo) : KmipOperation :=
  let data := take (Z.to_nat (kd_len (ki_data key))) (kd_data (ki_data key)) in
  KmipRegister [KMIP_ATTR_CRYPTOGRAPHIC_ALGORITHM_AES; KMIP_ATTR_CRYPTOGRAPHIC_LENGTH (Z.of_nat (length data) * 8);
                KMIP_ATTR_CRYPTOGRAPHIC_USAGE_ENCRYPT_DECRYPT; kmip_name (ki_name key)] data.

(** The operations with which a key is fetched. *)
Definition lookup_op (key_name : bytes) (op : KmipOperation) : Prop :=
  op = KmipLocate [KMIP_ATTR_OBJECT_TYPE_SYMMETRIC_KEY; kmip_name key_name] 16 0 ∨ ∃ id, op = KmipGet id.

Lemma kmip_get_session kr f name :
  is_kmip kr f → always (session f (lookup_op name)) (kmip_get_key_by_name kr name).
Proof.
  intros Hk. apply always_kmip_fields; [done|]. apply always_session; [intros c|by eexists].
  assert (always (calls c (lookup_op name)) (open_pg_tde_kmip_locate_key c name)) as H1.
  { unfold open_pg_tde_kmip_locate_key. apply (always_bind _); [auto with always|intros hist].
    apply (always_bind _); [apply always_call; by left|intros _]. always_solve. }
  assert (∀ id, always (calls c (lookup_op name)) (open_pg_tde_kmip_get_key c id)) as H2.
  { intros id. unfold open_pg_tde_kmip_get_key. apply (always_bind _); [auto with always|intros hist].
    apply (always_bind _); [apply always_call; right; by eexists|intros _]. always_solve. }
  always_solve.
Qed.

Lemma kmip_validate_session kr f : is_kmip kr f → always (session f (λ _, False)) (kmip_validate kr).
Proof. intros Hk. apply always_kmip_fields; [done|]. apply always_connected. auto with always. Qed.

Lemma kmip_set_session kr f key :
  is_kmip kr f → always (session f (eq (registered key))) (kmip_set_key_by_name kr key).
Proof.
  intros Hk. apply always_kmip_fields; [done|]. apply always_connected. intros c. unfold open_pg_tde_kmip_set_by_name.
  destruct (_ <? _); [auto with always|]. apply (always_bind _); [|intros r; always_solve].
  apply (always_bind _); [auto with always|intros hist]. apply (always_bind _); [by apply always_call|intros _].
  auto with always.
Qed.

(** C35: whatever call fails and whatever the server answers, every routine of
    the provider opens at most one connection, to the server of the provider,
    with the verification of its certificate and of its name switched on; only
    if the handshake and the check of its result succeed are operations sent on
    it: the lookups of one name, or the registration of the one key that is
    stored. Nothing else changes. *)
Theorem kmip_sessions_verified kr f :
  is_kmip kr f →
  (∀ name, always (session f (lookup_op name)) (kmip_get_key_by_name kr name)) ∧
  always (session f (λ _, False)) (kmip_validate kr) ∧
  ∀ key, always (session f (eq (registered key))) (kmip_set_key_by_name kr key).
Proof.
  intros Hk. split_and!; [intros name|..|intros key];
    [by apply kmip_get_session|by apply kmip_validate_session|by apply kmip_set_session].
Qed.

(** When no connection can be made, every key looks as if it did not exist: no
    error is raised and none is reported. *)
Lemma kmip_outage_hides_keys `{!PgPort} `{!NetworkKeyrings} kr f name w :
  keyringKmipRoutine = kmip_routine → kr_type kr = KMIP_KEY_PROVIDER → is_kmip kr f →
  SSL_CTX_new (net_requests (w_net w)) = true → (∀ c, BIO_do_connect (net_requests (w_net w)) c = false) →
  ∃ w', KeyringGetKey kr name w = Ok (None, KEYRING_CODE_SUCCESS) w'.
Proof.
  intros Hnk Ht Hk Hnew Hfail. unfold KeyringGetKey. rewrite Ht. simpl. rewrite Hnk. simpl.
  assert (∃ w', kmipSslConnect f false w = Ok None w') as [w' E].
  { unfold kmipSslConnect. rewrite (bind_ok (gets (λ w, net_requests (w_net w))) _ w (net_requests (w_net w)) w eq_refl).
    rewrite Hnew. change (negb true) with false. cbv iota. do 4 (destruct (negb _); [by eexists|]). destruct (negb _ && _); [by eexists|]. cbv zeta.
    set (bio := {| ssl_min_proto_1_2 := _ |}). change (send (SslConnect bio)) with (modify (add_request (SslConnect bio))).
    rewrite (bind_ok (modify _) _ w tt (add_request (SslConnect bio) w) eq_refl). rewrite Hfail. by eexists. }
  exists w'. unfold kmip_get_key_by_name. rewrite (bind_ok _ _ w (None, KEYRING_CODE_SUCCESS) w').
  2: { rewrite !(bind_ok _ _ _ _ _ (kmip_fields_ok kr f w Hk)). by rewrite (bind_ok _ _ _ _ _ E). }
  by rewrite bool_decide_eq_true_2.
Qed.

End sessions.

(** ** The keys of a server *)

(** What was registered, in order. *)
Definition objects (hist : list NetRequest) : list (list KmipAttribute * bytes) :=
  omap (λ r, match r with KmipCall _ (KmipRegister a key) => Some (a, key) | _ => None end) hist.

(** The objects with a name, with their positions. *)
Definition objects_named (n : bytes) (hist : list NetRequest) : list (nat * (list KmipAttribute * bytes)) :=
  filter (λ o, KMIP_ATTR_NAME n ∈ o.2.1) (imap pair (objects hist)).

Section server.
Context {SSL : OpenSSL} {K : Kernel} {TLS : TlsApi} {KA : KmipApi}.

(** A server as the protocol describes it, to which connections succeed and
    which nobody else uses: what is registered is kept under an identifier of
    its own, up to the capacity of the server; objects are found by their
    names, at most as many as asked for, and read with their identifiers. *)
Class KmipServer (f : KmipFields) := {
  ks_setup hist :
    SSL_CTX_new hist && SSL_CTX_use_certificate_file hist (kmip_cert_path f) &&
    SSL_CTX_use_PrivateKey_file hist (kmip_key_path f) && SSL_CTX_load_verify_locations hist (kmip_ca_path f) &&
    BIO_new_ssl_connect hist = true;
  ks_peer : X509_VERIFY_PARAM_set1_ip_asc (kmip_host f) || X509_VERIFY_PARAM_set1_host (kmip_host f) = true;
  ks_connect hist c : verified hist c;
  ks_strnlen s n : kmip_strnlen_s s n = Nat.min (length (cstr s)) n;
  ks_register hist c a key : kmip_bio_register_symmetric_key hist c a key = 0;
  ks_capacity : nat;
  ks_id : nat → bytes;
  ks_id_string i : length (ks_id i) = MAX_LOCATE_LEN ∧ existsb (λ b, bool_decide (b = x00)) (ks_id i) = true;
  ks_locate hist c n :
    kmip_bio_locate hist c [KMIP_ATTR_OBJECT_TYPE_SYMMETRIC_KEY; KMIP_ATTR_NAME n] 16 0 =
    (0, ks_id ∘ fst <$> take 16 (objects_named n hist));
  ks_get hist c i a key :
    objects hist !! i = Some (a, key) → (i < ks_capacity)%nat → kmip_bio_get_symmetric_key hist c (cstr (ks_id i)) = (0, key);
}.

Context {f : KmipFields} {KS : KmipServer f}.

Lemma connect_works te w :
  ∃ c, kmipSslConnect f te w = Ok (Some c) (add_request (SslConnect c) w).
Proof.
  set (hist := net_requests (w_net w)). pose proof (ks_setup hist) as H. repeat apply andb_prop in H as [H ?].
  pose proof ks_peer as Hp. unfold kmipSslConnect. rewrite (bind_ok (gets (λ w, net_requests (w_net w))) _ w hist w eq_refl).
  repeat match goal with E : _ = true |- _ => rewrite E; clear E end. cbn [negb].
  destruct (negb _ && _) eqn:Hn; [by destruct (X509_VERIFY_PARAM_set1_ip_asc _), (X509_VERIFY_PARAM_set1_host _)|].
  set (bio := {| ssl_min_proto_1_2 := _ |}). exists bio. destruct (ks_connect hist bio) as [E1 E2]. fold hist.
  change (send (SslConnect bio)) with (modify (add_request (SslConnect bio))).
  rewrite (bind_ok (modify _) _ w tt (add_request (SslConnect bio) w) eq_refl). by rewrite E1, E2.
Qed.

Lemma kmip_name_eq name : kmip_name name = KMIP_ATTR_NAME (take 250 (cstr name)).
Proof.
  unfold kmip_name. rewrite ks_strnlen. f_equal. rewrite Nat.min_comm, <-take_take. f_equal.
  induction name as [|b s IH]; simpl; [done|]. case_decide; simpl; [done|]. by rewrite IH.
Qed.

Abbreviation short name := (take 250 (cstr name)).
Abbreviation keys_of name w := (objects_named (short name) (net_requests (w_net w))).

(** Storing a key adds one object. *)
Lemma kmip_set_ok kr key w :
  is_kmip kr f → 0 <= kd_len (ki_data key) <= MAX_KEY_DATA_SIZE →
  ∃ c w', kmip_set_key_by_name kr key w = Ok tt w' ∧ set_net (w_net w) w' = w ∧
    net_requests (w_net w') = net_requests (w_net w) ++ [SslConnect c; KmipCall c (registered key)].
Proof.
  intros Hk Hl. unfold kmip_set_key_by_name, kmip_connect. rewrite !(bind_ok _ _ _ _ _ (kmip_fields_ok kr f w Hk)).
  destruct (connect_works true w) as [c E]. rewrite (bind_ok _ _ w c (add_request (SslConnect c) w)).
  2: { by rewrite (bind_ok _ _ _ _ _ E). }
  rewrite (proj2 (Z.ltb_ge _ _)) by lia. unfold open_pg_tde_kmip_set_by_name.
  set (w1 := add_request (SslConnect c) w). set (a := [_; _; _; _]).
  rewrite (bind_ok _ _ w1 0 (add_request (KmipCall c (registered key)) w1)).
  2: { rewrite (bind_ok (gets _) _ w1 _ w1 eq_refl).
       change (send (KmipCall c (KmipRegister a _))) with (modify (add_request (KmipCall c (registered key)))).
       rewrite (bind_ok (modify _) _ w1 tt (add_request (KmipCall c (registered key)) w1) eq_refl). by rewrite ks_register. }
  eexists c, _. split_and!; [done|by destruct w|]. cbn. by rewrite <-app_assoc.
Qed.

Lemma objects_quiet hist rs :
  Forall (λ r, match r with KmipCall _ (KmipRegister _ _) => False | _ => True end) rs →
  objects (hist ++ rs) = objects hist.
Proof.
  intros H. unfold objects. rewrite omap_app. rewrite <-(app_nil_r (omap _ hist)) at 2. f_equal.
  induction H as [|r rs Hr _ IH]; [done|]. by destruct r as [| |c []].
Qed.

(** The object that stands for a key. *)
Definition object_of (key : KeyInfo) : list KmipAttribute * bytes :=
  match registered key with KmipRegister a data => (a, data) | _ => ([], []) end.

Lemma named_registered n hist c key :
  objects_named n (hist ++ [SslConnect c; KmipCall c (registered key)]) =
  objects_named n hist ++ (if bool_decide (short (ki_name key) = n) then [(length (objects hist), object_of key)] else []).
Proof.
  unfold objects_named, objects. rewrite omap_app, imap_app, filter_app. f_equal.
  change (omap _ [SslConnect c; _]) with [object_of key]. change (imap _ [object_of key]) with [(length (objects hist) + 0, object_of key)%nat].
  rewrite Nat.add_0_r, filter_cons, filter_nil. case_decide as Hd; case_bool_decide as Hb; try done; exfalso.
  all: cbn [fst snd object_of registered] in Hd; rewrite kmip_name_eq in Hd.
  - apply Hb. by repeat (apply elem_of_cons in Hd as [|Hd]; [congruence|]); apply elem_of_nil in Hd.
  - apply Hd. rewrite Hb. by repeat constructor.
Qed.

(** What a name stands for. *)
Lemma kmip_get_ok kr name w :
  is_kmip kr f →
  ∃ w', set_net (w_net w) w' = w ∧ objects (net_requests (w_net w')) = objects (net_requests (w_net w)) ∧
    match keys_of name w with
    | [] => kmip_get_key_by_name kr name w = Ok (None, KEYRING_CODE_SUCCESS) w'
    | [(i, (_, data))] => (length data ≤ 32)%nat → (i < ks_capacity)%nat →
        ∃ buf, length buf = 32%nat ∧
          kmip_get_key_by_name kr name w = Ok (Some (fetched_key name data buf), KEYRING_CODE_SUCCESS) w'
    | _ => kmip_get_key_by_name kr name w = Ok (None, KEYRING_CODE_RESOURCE_NOT_AVAILABLE) w'
    end.
Proof.
  intros Hk. unfold kmip_get_key_by_name. rewrite !(bind_ok _ _ _ _ _ (kmip_fields_ok kr f w Hk)).
  destruct (connect_works false w) as [c E]. rewrite !(bind_ok _ _ _ _ _ E). set (w1 := add_request (SslConnect c) w).
  set (locate := KmipCall c (KmipLocate [KMIP_ATTR_OBJECT_TYPE_SYMMETRIC_KEY; kmip_name name] 16 0)).
  set (w2 := add_request locate w1).
  assert (objects_named (short name) (net_requests (w_net w1)) = keys_of name w) as Hn1.
  { unfold objects_named. f_equal. f_equal. by apply (objects_quiet _ [SslConnect c]); repeat constructor. }
  assert (objects (net_requests (w_net w2)) = objects (net_requests (w_net w))) as Ho2.
  { cbn. rewrite <-app_assoc. apply objects_quiet. by repeat constructor. }
  remember (keys_of name w) as l eqn:Hl.
  assert (open_pg_tde_kmip_locate_key c name w1 =
          Ok (0, (Nat.min 16 (length l), take MAX_LOCATE_LEN <$> head (ks_id ∘ fst <$> take 16 l))) w2) as El.
  { unfold open_pg_tde_kmip_locate_key. rewrite (bind_ok (gets _) _ w1 _ w1 eq_refl).
    change (send _) with (modify (add_request locate)). rewrite (bind_ok (modify _) _ w1 tt w2 eq_refl).
    rewrite kmip_name_eq, ks_locate, Hn1. by rewrite length_fmap, length_take. }
  rewrite !(bind_ok _ _ _ _ _ El). cbv beta iota. change (negb (0 =? 0)) with false. cbv iota.
  destruct l as [|[i [a data]] [|o l]].
  - exists w2. split_and!; [by destruct w|done|done].
  - cbn [take fmap list_fmap head option_fmap option_map length Nat.min Nat.ltb Nat.leb compose fst].
    destruct (ks_id_string i) as [Hi1 Hi2]. rewrite take_ge by lia. rewrite Hi2. cbn [negb].
    set (get := KmipCall c (KmipGet (cstr (ks_id i)))). set (w3 := add_request get w2).
    assert (objects (net_requests (w_net w2)) !! i = Some (a, data)) as Hobj.
    { rewrite Ho2. assert ((i, (a, data)) ∈ imap pair (objects (net_requests (w_net w)))) as Hin.
      { apply (list_elem_of_filter (λ o, KMIP_ATTR_NAME (short name) ∈ o.2.1)). fold (keys_of name w). rewrite <-Hl. left. }
      apply elem_of_lookup_imap in Hin as (j & x & [= -> ->] & Hx). done. }
    exists w3. split_and!; [by destruct w| |].
    { cbn. rewrite <-!app_assoc. apply objects_quiet. by repeat constructor. }
    intros Hd Hcap. rewrite !(bind_ok (uninit _) _ w2 _ w2 eq_refl).
    rewrite (bind_ok _ _ w2 (0, data) w3).
    2: { unfold open_pg_tde_kmip_get_key. rewrite (bind_ok (gets _) _ w2 _ w2 eq_refl).
         change (send _) with (modify (add_request get)). rewrite (bind_ok (modify _) _ w2 tt w3 eq_refl).
         by rewrite (ks_get _ _ _ _ _ Hobj Hcap). }
    cbv beta iota. change (negb (0 =? 0)) with false. cbv iota.
    rewrite (proj2 (Z.ltb_ge _ _)) by (unfold MAX_KEY_DATA_SIZE, KEY_DATA_SIZE_256; lia).
    eexists. split; [|reflexivity]. rewrite length_take, length_app, zeros_length. change (Z.to_nat MAX_KEY_DATA_SIZE) with 32%nat. lia.
  - exists w2. split_and!; [by destruct w|done|done].
Qed.

Context {Spec : OpenSSLSpec SSL} {PP : PgPort} {NK : NetworkKeyrings}.

Section registered_provider.
Context (kr : GenericKeyring).
Hypothesis Hnk : keyringKmipRoutine = kmip_routine.
Hypothesis Htype : kr_type kr = KMIP_KEY_PROVIDER.
Hypothesis Hkr : is_kmip kr f.

(** Creating a key adds an object with its name. *)
Lemma kmip_create_ok name len w :
  RandWorks SSL → (len = 16 ∨ len = 32) → (0 < length (cstr name) ≤ 255)%nat →
  ∃ key w', KeyringGenerateNewKeyAndStore kr name len w = Ok key w' ∧
    set_net (w_net w) w' = set_rand (S (w_rand w)) w ∧ KeyInfo_wf key ∧ kd_len (ki_data key) = len ∧
    cstr (ki_name key) = cstr name ∧
    ∀ n, objects_named n (net_requests (w_net w')) =
         objects_named n (net_requests (w_net w)) ++
         (if bool_decide (short name = n) then [(length (objects (net_requests (w_net w))), object_of key)] else []).
Proof.
  intros RW Hlen Hn. unfold KeyringGenerateNewKeyAndStore.
  destruct (KeyringGenerateNewKey_ok name len w Hlen ltac:(lia)) as (key & Eg & Hwf & _ & Hl & Hc).
  rewrite (bind_ok _ _ _ _ _ Eg). set (w0 := set_rand _ w).
  destruct (kmip_set_ok kr key w0 Hkr) as (c & w' & Es & Hs & Hr).
  { unfold MAX_KEY_DATA_SIZE, KEY_DATA_SIZE_256. lia. }
  exists key, w'. split_and!; try done.
  - unfold KeyringStoreKey. rewrite Htype. cbn. rewrite Hnk. by rewrite (bind_ok _ _ _ _ _ Es).
  - intros n. rewrite Hr, named_registered, Hc. done.
Qed.

(** Fetching a key, by the number of objects with its name. *)
Lemma kmip_fetch_one name i a data w :
  keys_of name w = [(i, (a, data))] → (i < ks_capacity)%nat → length data = 16%nat ∨ length data = 32%nat → (0 < length (cstr name) ≤ 255)%nat →
  ∃ key w', KeyringGetKey kr name w = Ok (Some key, KEYRING_CODE_SUCCESS) w' ∧ set_net (w_net w) w' = w ∧
    cstr (ki_name key) = cstr name ∧ kd_len (ki_data key) = Z.of_nat (length data) ∧
    take (length data) (kd_data (ki_data key)) = data.
Proof.
  intros Hk Hcap Hd Hn. destruct (kmip_get_ok kr name w Hkr) as (w' & Hw & _ & H). rewrite Hk in H.
  destruct H as (buf & Hb & E); [lia|done|]. destruct (fetched_key_ok name data buf) as (Hv & Hname & Hdata); [done..|].
  exists (fetched_key name data buf), w'. split_and!; try done.
  unfold KeyringGetKey. rewrite Htype. simpl. rewrite Hnk. simpl. rewrite (bind_ok _ _ _ _ _ E).
  by rewrite bool_decide_eq_true_2, Hv.
Qed.

Lemma kmip_fetch_many name w :
  (2 ≤ length (keys_of name w))%nat →
  ∃ w', KeyringGetKey kr name w = Ok (None, KEYRING_CODE_RESOURCE_NOT_AVAILABLE) w' ∧ set_net (w_net w) w' = w.
Proof.
  intros Hk. destruct (kmip_get_ok kr name w Hkr) as (w' & Hw & _ & H).
  destruct (keys_of name w) as [|[i [a d]] [|o l]]; cbn [length] in Hk; [lia|lia|].
  exists w'. split; [|done]. unfold KeyringGetKey. rewrite Htype. simpl. rewrite Hnk. simpl. rewrite (bind_ok _ _ _ _ _ H).
  by rewrite bool_decide_eq_false_2.
Qed.

Lemma object_data len key :
  KeyInfo_wf key → kd_len (ki_data key) = len → (len = 16 ∨ len = 32) →
  length (object_of key).2 = Z.to_nat len ∧ (object_of key).2 = take (Z.to_nat len) (kd_data (ki_data key)).
Proof.
  intros (_ & Hd & _) Hl Hlen. cbn [object_of registered snd]. rewrite Hl. split; [|done]. rewrite length_take. lia.
Qed.

End registered_provider.

(** C34: a key that was created under a name of which the server had no key yet
    is fetched with the same bytes, as long as no other key is registered with
    that name; what the name is, is decided by its first 250 bytes. *)
Theorem kmip_create_then_get kr name len w :
  RandWorks SSL → keyringKmipRoutine = kmip_routine → kr_type kr = KMIP_KEY_PROVIDER → is_kmip kr f →
  (len = 16 ∨ len = 32) → (0 < length (cstr name) ≤ 255)%nat → keys_of name w = [] →
  (length (objects (net_requests (w_net w))) < ks_capacity)%nat →
  ∃ key w', KeyringGenerateNewKeyAndStore kr name len w = Ok key w' ∧
    set_net (w_net w) w' = set_rand (S (w_rand w)) w ∧
    ∀ w1, keys_of name w1 = keys_of name w' →
    ∃ key' w2, KeyringGetKey kr name w1 = Ok (Some key', KEYRING_CODE_SUCCESS) w2 ∧ set_net (w_net w1) w2 = w1 ∧
      cstr (ki_name key') = cstr (ki_name key) ∧ kd_len (ki_data key') = len ∧ kd_len (ki_data key) = len ∧
      take (Z.to_nat len) (kd_data (ki_data key')) = take (Z.to_nat len) (kd_data (ki_data key)).
Proof.
  intros RW Hnk Ht Hk Hlen Hn Hnone Hcap.
  destruct (kmip_create_ok kr Hnk Ht Hk name len w RW Hlen Hn) as (key & w' & E & Hw & Hwf & Hl & Hc & Hnamed).
  exists key, w'. split_and!; [done..|]. intros w1 H1. rewrite Hnamed, Hnone, bool_decide_eq_true_2 in H1 by done.
  destruct (object_data len key Hwf Hl Hlen) as [Hd1 Hd2]. destruct (object_of key) as [a data]. cbn [snd] in Hd1, Hd2.
  destruct (kmip_fetch_one kr Hnk Ht Hk name _ a data w1 H1 Hcap) as (key' & w2 & E2 & Hw2 & Hc2 & Hl2 & Hd); [lia|done|].
  exists key', w2. split_and!; [done..|congruence|lia|done|]. rewrite <-Hd1 at 1. by rewrite Hd, Hd2.
Qed.

(** Names that agree in their first 250 bytes are one name for the server.
    After a key was created, asking for another name like this gives that key;
    and once a second key was created, neither of them can be fetched any
    more. *)
Theorem kmip_names_confused kr name1 name2 len w :
  RandWorks SSL → keyringKmipRoutine = kmip_routine → kr_type kr = KMIP_KEY_PROVIDER → is_kmip kr f →
  (len = 16 ∨ len = 32) → (0 < length (cstr name1) ≤ 255)%nat → (0 < length (cstr name2) ≤ 255)%nat →
  short name1 = short name2 → keys_of name1 w = [] →
  (length (objects (net_requests (w_net w))) < ks_capacity)%nat →
  ∃ key1 w1, KeyringGenerateNewKeyAndStore kr name1 len w = Ok key1 w1 ∧
    (∃ key2 w2, KeyringGetKey kr name2 w1 = Ok (Some key2, KEYRING_CODE_SUCCESS) w2 ∧
       cstr (ki_name key2) = cstr name2 ∧
       take (Z.to_nat len) (kd_data (ki_data key2)) = take (Z.to_nat len) (kd_data (ki_data key1))) ∧
    ∃ key3 w3, KeyringGenerateNewKeyAndStore kr name2 len w1 = Ok key3 w3 ∧
      ∀ name, name = name1 ∨ name = name2 →
        ∃ w4, KeyringGetKey kr name w3 = Ok (None, KEYRING_CODE_RESOURCE_NOT_AVAILABLE) w4.
Proof.
  intros RW Hnk Ht Hk Hlen Hn1 Hn2 Heq Hnone Hcap.
  destruct (kmip_create_ok kr Hnk Ht Hk name1 len w RW Hlen Hn1) as (key1 & w1 & E1 & _ & Hwf & Hl & Hc & H1).
  exists key1, w1. split_and!; [done| |].
  - destruct (object_data len key1 Hwf Hl Hlen) as [Hd1 Hd2].
    specialize (H1 (short name2)). rewrite <-Heq, Hnone, bool_decide_eq_true_2 in H1 by done. rewrite Heq in H1.
    destruct (object_of key1) as [a data]. cbn [snd] in Hd1, Hd2.
    destruct (kmip_fetch_one kr Hnk Ht Hk name2 _ a data w1 H1 Hcap) as (key2 & w2 & E2 & _ & Hc2 & _ & Hd); [lia|done|].
    exists key2, w2. split_and!; [done..|]. rewrite <-Hd1 at 1. by rewrite Hd, Hd2.
  - destruct (kmip_create_ok kr Hnk Ht Hk name2 len w1 RW Hlen Hn2) as (key3 & w3 & E3 & _ & _ & _ & _ & H3).
    exists key3, w3. split; [done|]. intros name Hname.
    assert (short name = short name2) as Hs by (by destruct Hname; subst).
    destruct (kmip_fetch_many kr Hnk Ht Hk name w3) as (w4 & E4 & _); [|by exists w4].
    rewrite Hs, H3, <-Heq, H1, Hnone, !bool_decide_eq_true_2 by done. simpl. lia.
Qed.

End server.

(** ** A server that keeps what is registered *)

#[local] Instance OpenTls : TlsApi := {
  SSL_CTX_new _ := true;
  SSL_CTX_set_min_proto_version _ := true;
  SSL_CTX_use_certificate_file _ p := if p is Some _ then true else false;
  SSL_CTX_use_PrivateKey_file _ p := if p is Some _ then true else false;
  SSL_CTX_load_verify_locations _ p := if p is Some _ then true else false;
  BIO_new_ssl_connect _ := true;
  X509_VERIFY_PARAM_set1_ip_asc _ := false;
  X509_VERIFY_PARAM_set1_host h := if h is Some _ then true else false;
  BIO_do_connect _ _ := true;
  SSL_get_verify_result _ _ := true;
}.

(** The identifier of an object is its number in unary notation. *)
Definition unary_id (i : nat) : bytes := char_array MAX_LOCATE_LEN (replicate (Nat.min i 127) x31).

#[local] Instance KmipStore : KmipApi := {
  kmip_strnlen_s s n := Nat.min (length (cstr s)) n;
  kmip_bio_register_symmetric_key _ _ _ _ := 0;
  kmip_bio_locate hist _ a n _ :=
    match a with
    | [_; KMIP_ATTR_NAME name] => (0, unary_id ∘ fst <$> take (Z.to_nat n) (objects_named name hist))
    | _ => (1, [])
    end;
  kmip_bio_get_symmetric_key hist _ id :=
    match objects hist !! length id with
    | Some (_, key) => (0, key)
    | None => (1, [])
    end;
}.

Definition kmip0 : KmipFields :=
  mkKmipFields (Some (bytes_of "kmip")) (Some (bytes_of "5696")) (Some (bytes_of "/ca")) (Some (bytes_of "/cert"))
    (Some (bytes_of "/key")).

#[local] Program Instance KmipToyServer : KmipServer kmip0 := {| ks_capacity := 128; ks_id := unary_id |}.
Solve Obligations with try done.
Next Obligation.
  intros i. unfold unary_id. split; [apply char_array_length|]. apply existsb_exists. exists x00. split; [|done].
  apply list_elem_of_In. unfold char_array. rewrite cstr_nonzero by (apply Forall_replicate; done).
  rewrite take_app_ge by (rewrite length_replicate; unfold MAX_LOCATE_LEN; lia). apply elem_of_app. right.
  apply list_elem_of_lookup_2 with 0%nat. rewrite length_replicate, lookup_take_lt by (unfold MAX_LOCATE_LEN; lia). done.
Qed.
Next Obligation.
  intros hist c i a key Hi Hcap. cbn [kmip_bio_get_symmetric_key KmipStore]. unfold unary_id.
  assert (cstr (replicate (Nat.min i 127) x31) = replicate i x31) as Hc.
  { replace (Nat.min i 127) with i by (cbn in Hcap; lia). apply cstr_nonzero, Forall_replicate. done. }
  rewrite cstr_char_array; rewrite Hc, length_replicate; [|done]. by rewrite Hi.
Qed.

#[local] Instance KmipOnly : NetworkKeyrings :=
  {| keyringKmipRoutine := kmip_routine; keyringOpenBaoRoutine := kmip_routine |}.

Definition kmip_keyring0 : GenericKeyring :=
  mkGenericKeyring KMIP_KEY_PROVIDER (-3) (char_array 128 (bytes_of "kmip")) []
    (KmipKeyring (kmip_host kmip0) (kmip_port kmip0) (kmip_ca_path kmip0) (kmip_cert_path kmip0) (kmip_key_path kmip0)).

Lemma kmip_sessions_verified_witness : always (session kmip0 (λ _, False)) (kmip_validate kmip_keyring0).
Proof. by apply (kmip_sessions_verified kmip_keyring0 kmip0). Defined.

Lemma kmip_create_then_get_witness :
  ∃ key w', KeyringGenerateNewKeyAndStore kmip_keyring0 (bytes_of "key1") 16 world0 = Ok key w' ∧
    ∃ key' w2, KeyringGetKey kmip_keyring0 (bytes_of "key1") w' = Ok (Some key', KEYRING_CODE_SUCCESS) w2 ∧
      take 16 (kd_data (ki_data key')) = take 16 (kd_data (ki_data key)).
Proof.
  destruct (kmip_create_then_get (f := kmip0) (NK := KmipOnly) kmip_keyring0 (bytes_of "key1") 16 world0 ToyRand eq_refl
              eq_refl eq_refl (or_introl eq_refl)) as (key & w' & E & _ & H); [vm_compute; lia|vm_compute; reflexivity|vm_compute; lia|].
  exists key, w'. split; [exact E|]. destruct (H w' eq_refl) as (key' & w2 & E2 & _ & _ & _ & _ & Hd). by exists key', w2.
Defined.

(** Two names of 251 bytes. *)
Definition long_name (last : byte) : bytes := replicate 250 x61 ++ [last].

Lemma kmip_names_confused_witness :
  ∃ key1 w1, KeyringGenerateNewKeyAndStore kmip_keyring0 (long_name x31) 16 world0 = Ok key1 w1 ∧
    ∃ key2 w2, KeyringGetKey kmip_keyring0 (long_name x32) w1 = Ok (Some key2, KEYRING_CODE_SUCCESS) w2 ∧
      take 16 (kd_data (ki_data key2)) = take 16 (kd_data (ki_data key1)).
Proof.
  destruct (kmip_names_confused (f := kmip0) (NK := KmipOnly) kmip_keyring0 (long_name x31) (long_name x32) 16 world0
              ToyRand eq_refl eq_refl eq_refl (or_introl eq_refl)) as (key1 & w1 & E & (key2 & w2 & E2 & _ & Hd) & _);
    [vm_compute; lia|vm_compute; lia|vm_compute; reflexivity|vm_compute; reflexivity|vm_compute; lia|].
  exists key1, w1. split; [exact E|]. by exists key2, w2.
Defined.
