(* ===== verification/KeyProviders.v ===== *)
(** catalog/tde_keyring.c, the file part: the records of key providers in the
    file "<database>_providers", and how a record becomes a key provider.

    A descriptor is the path of its file. [tde_provider_info_lock] is
    [w_pi_lock]. The functions that check principal keys before a provider is
    changed or deleted, and the SQL functions, are in ProviderSql. Debug
    messages are left out, and so is freeing memory. *)
From S2P Require Import Prelude Types Environ Instances Ciphers EncTde KeyringOptions KeyFile KeyMap Keyring.

Inductive ProviderScanType := PROVIDER_SCAN_BY_NAME (name : bytes) | PROVIDER_SCAN_BY_ID (id : Z) | PROVIDER_SCAN_ALL.

Definition PG_INT32_MAX : Z := 2 ^ 31 - 1.

Definition FILE_KEYRING_TYPE : string := "file".
Definition KMIP_KEYRING_TYPE : string := "kmip".
Definition OPENBAO_KEYRING_TYPE : string := "openbao".

Definition get_keyring_provider_typename (p_type : Z) : option string :=
  if p_type =? FILE_KEY_PROVIDER then Some FILE_KEYRING_TYPE
  else if p_type =? KMIP_KEY_PROVIDER then Some KMIP_KEYRING_TYPE
  else if p_type =? OPENBAO_KEY_PROVIDER then Some OPENBAO_KEYRING_TYPE
  else None.

Definition get_keyring_provider_from_typename (provider_type : bytes) : Z :=
  if strcmp_eq (bytes_of FILE_KEYRING_TYPE) provider_type then FILE_KEY_PROVIDER
  else if strcmp_eq (bytes_of KMIP_KEYRING_TYPE) provider_type then KMIP_KEY_PROVIDER
  else if strcmp_eq (bytes_of OPENBAO_KEYRING_TYPE) provider_type then OPENBAO_KEY_PROVIDER
  else UNKNOWN_KEY_PROVIDER.

(** ** Layout of [KeyringProviderRecord]: 4 + 128 + 1024 + 4 bytes *)

Definition sizeof_KeyringProviderRecord : Z := 1160.

Definition ProviderRecord_encode (r : KeyringProviderRecord) : bytes :=
  enc_u32 (kpr_provider_id r) ++ kpr_provider_name r ++ kpr_options r ++ enc_u32 (kpr_provider_type r).

Definition ProviderRecord_decode (bs : bytes) : KeyringProviderRecord :=
  mkProviderRecord (i32 (le_dec (slice 0 4 bs))) (slice 4 128 bs) (slice 132 1024 bs) (le_dec (slice 1156 4 bs)).

#[global] Arguments ProviderRecord_encode : simpl never.
#[global] Arguments ProviderRecord_decode : simpl never.

Definition with_id (id : Z) (r : KeyringProviderRecord) : KeyringProviderRecord :=
  mkProviderRecord id (kpr_provider_name r) (kpr_options r) (kpr_provider_type r).

Definition get_keyring_infofile_path (dbOid : Z) : string :=
  OPEN_PG_TDE_DATA_DIR +:+ "/" +:+ fmt_d dbOid +:+ "_providers".

Section providers.
Context {SSL : OpenSSL} {K : Kernel} {PP : PgPort} {J : JsonApi}.

Definition open_keyring_infofile (database_id : Z) (o_creat : bool) : M string :=
  r ← OpenTransientFile (get_keyring_infofile_path database_id) o_creat false;
  match r with
  | Fd fd => mret fd
  | OpenFailed _ => ereport ERROR "could not open tde file"
  end.

(** The record and the next position, [None] at the end of the file. A failed
    read (-1) and a short one are errors. *)
Definition fetch_next_key_provider (fd : string) (curr_pos : Z) : M (option (KeyringProviderRecord * Z)) :=
  r ← pg_pread fd sizeof_KeyringProviderRecord curr_pos;
  match r with
  | Some [] => mret None
  | Some bs =>
      if negb (Z.of_nat (length bs) =? sizeof_KeyringProviderRecord)
      then ereport ERROR "key provider info file is corrupted"
      else mret (Some (ProviderRecord_decode bs, curr_pos + Z.of_nat (length bs)))
  | None => ereport ERROR "key provider info file is corrupted"
  end.

(** ** From a record to a provider *)

Definition MAX_FILE_DATA_LENGTH : nat := 1024.

(** Up to and including the first newline. *)
Fixpoint first_line (bs : bytes) : bytes :=
  match bs with
  | [] => []
  | b :: bs => if decide (b = x0a) then [b] else b :: first_line bs
  end.

(** [fgets (val, size, fd)] on a file that was just opened: the characters
    read, [None] at once at the end of the file or on an error, and [ferror]. *)
Definition fgets (path : string) (size : nat) : M (option bytes * bool) := λ w,
  match sys_fault (SysPread path (Z.of_nat (size - 1)) 0) (w_fs w) with
  | Some n => if n <? 0 then Ok (None, true) w
              else Ok (match first_line (take (size - 1) (default [] (w_fs w !! path))) with
                       | [] => None | l => Some l end, false) w
  | None => Ok (match first_line (take (size - 1) (default [] (w_fs w !! path))) with
                | [] => None | l => Some l end, false) w
  end.

Definition is_space (b : byte) : bool := bool_decide (b ∈ [x20; x09; x0a; x0d]).

(** [val[strcspn (val, " \t\n\r")] = '\0'] *)
Fixpoint until_space (bs : bytes) : bytes :=
  match bs with
  | [] => []
  | b :: bs => if is_space b then [] else b :: until_space bs
  end.

(** At the end of the file the buffer keeps what the allocation contained. *)
Definition get_file_value (path : bytes) : M bytes :=
  r ← OpenTransientFile (string_of path) false false;
  match r with
  | OpenFailed _ => ereport ERROR "could not open file"
  | Fd fd =>
      val ← uninit MAX_FILE_DATA_LENGTH;
      '(line, err) ← fgets fd MAX_FILE_DATA_LENGTH;
      match line with
      | Some l => mret (until_space (cstr l))
      | None => if err : bool then ereport ERROR "could not read file" else mret (until_space (cstr val))
      end
  end.

(** [s == NULL || s[0] == '\0'] *)
Definition is_empty (s : option bytes) : bool :=
  match s with
  | Some s => Nat.eqb (length (cstr s)) 0
  | None => true
  end.

Definition load_file_keyring_provider_options (keyring_options : bytes) : M KeyringSpecific :=
  o ← ParseKeyringJSONOptions FILE_KEY_PROVIDER (FileKeyring None) (cstr keyring_options);
  match o with
  | FileKeyring (Some file_name) =>
      if bool_decide (file_name = "") then ereport ERROR "file path is missing in the keyring options"
      else mret o
  | _ => ereport ERROR "file path is missing in the keyring options"
  end.

Definition load_kmip_keyring_provider_options (keyring_options : bytes) : M KeyringSpecific :=
  o ← ParseKeyringJSONOptions KMIP_KEY_PROVIDER (KmipKeyring None None None None None) (cstr keyring_options);
  match o with
  | KmipKeyring host port ca cert key =>
      if is_empty host || is_empty port || is_empty ca || is_empty cert || is_empty key
      then ereport ERROR "missing in the keyring options"
      else mret o
  | _ => ereport PANIC "not a kmip provider"
  end.

Definition load_openbao_keyring_provider_options (keyring_options : bytes) : M KeyringSpecific :=
  o ← ParseKeyringJSONOptions OPENBAO_KEY_PROVIDER (OpenBaoKeyring None None None None None None)
        (cstr keyring_options);
  match o with
  | OpenBaoKeyring _ token_path url ca mount_path ns =>
      if is_empty token_path || is_empty url || is_empty mount_path
      then ereport ERROR "missing in the keyring options"
      else
        token ← get_file_value (default [] token_path);
        mret (OpenBaoKeyring (Some token) token_path url ca mount_path ns)
  | _ => ereport PANIC "not an openbao provider"
  end.

Definition load_keyring_provider_from_record (provider : KeyringProviderRecord) : M GenericKeyring :=
  let t := kpr_provider_type provider in
  keyring ← (if t =? FILE_KEY_PROVIDER then load_file_keyring_provider_options (kpr_options provider)
             else if t =? OPENBAO_KEY_PROVIDER then load_openbao_keyring_provider_options (kpr_options provider)
             else if t =? KMIP_KEY_PROVIDER then load_kmip_keyring_provider_options (kpr_options provider)
             else ereport ERROR "unknown key provider type");
  mret (mkGenericKeyring t (kpr_provider_id provider) (kpr_provider_name provider) (kpr_options provider) keyring).

(** ** Looking providers up *)

Definition scan_match (scanType : ProviderScanType) (provider : KeyringProviderRecord) : bool :=
  match scanType with
  | PROVIDER_SCAN_BY_NAME name => pg_strcasecmp_eq (kpr_provider_name provider) name
  | PROVIDER_SCAN_BY_ID id => kpr_provider_id provider =? id
  | PROVIDER_SCAN_ALL => true
  end.

Fixpoint scan_loop (fuel : nat) (fd : string) (curr_pos : Z) (scanType : ProviderScanType)
  (providers_list : list GenericKeyring) : M (list GenericKeyring) :=
  match fuel with
  | O => out_of_fuel
  | S fuel =>
      r ← fetch_next_key_provider fd curr_pos;
      match r with
      | None => mret providers_list
      | Some (provider, curr_pos) =>
          if kpr_provider_type provider =? UNKNOWN_KEY_PROVIDER
          then scan_loop fuel fd curr_pos scanType providers_list
          else if scan_match scanType provider then
            keyring ← load_keyring_provider_from_record provider;
            scan_loop fuel fd curr_pos scanType (providers_list ++ [keyring])
          else scan_loop fuel fd curr_pos scanType providers_list
      end
  end.

Definition scan_key_provider_file (scanType : ProviderScanType) (dbOid : Z) : M (list GenericKeyring) :=
  LWLockAcquire_pi LW_SHARED;;
  r ← OpenTransientFile (get_keyring_infofile_path dbOid) false false;
  match r with
  | OpenFailed _ => LWLockRelease_pi;; mret []
  | Fd fd =>
      fuel ← file_fuel fd;
      providers_list ← scan_loop fuel fd 0 scanType [];
      CloseTransientFile fd;;
      LWLockRelease_pi;;
      mret providers_list
  end.

Definition GetAllKeyringProviders (dbOid : Z) : M (list GenericKeyring) :=
  scan_key_provider_file PROVIDER_SCAN_ALL dbOid.

Definition catalog_GetKeyProviderByID (provider_id dbOid : Z) : M (option GenericKeyring) :=
  let realOid := if provider_id <? 0 then GLOBAL_DATA_TDE_OID else dbOid in
  providers ← scan_key_provider_file (PROVIDER_SCAN_BY_ID provider_id) realOid;
  mret (head providers).

Definition catalog_GetKeyProviderByName (provider_name : bytes) (dbOid : Z) : M GenericKeyring :=
  providers ← scan_key_provider_file (PROVIDER_SCAN_BY_NAME provider_name) dbOid;
  match providers with
  | keyring :: _ => mret keyring
  | [] => ereport ERROR "key provider does not exists"
  end.

(** The record with the name and its position in the file. *)
Fixpoint record_by_name_loop (fuel : nat) (fd : string) (current_file_offset : Z) (provider_name : bytes)
  (database_id : Z) : M (option KeyringProviderRecordInFile) :=
  match fuel with
  | O => out_of_fuel
  | S fuel =>
      r ← fetch_next_key_provider fd current_file_offset;
      match r with
      | None => mret None
      | Some (existing_provider, next_file_offset) =>
          if negb (kpr_provider_type existing_provider =? UNKNOWN_KEY_PROVIDER) &&
             strcmp_eq (kpr_provider_name existing_provider) provider_name
          then mret (Some (mkProviderRecordInFile database_id current_file_offset existing_provider))
          else record_by_name_loop fuel fd next_file_offset provider_name database_id
      end
  end.

Definition get_keyring_info_file_record_by_name (provider_name : bytes) (database_id : Z)
  : M (option KeyringProviderRecordInFile) :=
  fd ← open_keyring_infofile database_id false;
  fuel ← file_fuel fd;
  r ← record_by_name_loop fuel fd 0 provider_name database_id;
  CloseTransientFile fd;;
  mret r.

(** ** Writing records *)

Definition write_key_provider_info (record : KeyringProviderRecordInFile) (write_xlog : bool) : M unit :=
  r ← OpenTransientFile (get_keyring_infofile_path (kprf_database_id record)) true false;
  match r with
  | OpenFailed _ => ereport ERROR "could not open tde file"
  | Fd fd =>
      (if write_xlog then XLogInsert (XLOG_TDE_WRITE_KEY_PROVIDER record) else mret tt);;
      bytes_written ← pg_pwrite fd (ProviderRecord_encode (kprf_provider record)) (kprf_offset_in_file record);
      if negb (bytes_written =? sizeof_KeyringProviderRecord)
      then ereport ERROR "key provider info file can't be written"
      else
        r ← pg_fsync fd;
        if negb (r =? 0) then ereport ERROR "could not fsync file"
        else CloseTransientFile fd
  end.

Definition redo_key_provider_info (xlrec : KeyringProviderRecordInFile) : M unit :=
  LWLockAcquire_pi LW_EXCLUSIVE;;
  write_key_provider_info xlrec false;;
  LWLockRelease_pi.

(** The largest id in the file and the position of its end; an error when the
    name is in use. [abs] of the smallest [int] is that [int] again. *)
Fixpoint save_scan_providers (fuel : nat) (fd : string) (provider_name : bytes) (next_file_offset max_provider_id : Z)
  : M (Z * Z) :=
  match fuel with
  | O => out_of_fuel
  | S fuel =>
      r ← fetch_next_key_provider fd next_file_offset;
      match r with
      | None => mret (next_file_offset, max_provider_id)
      | Some (existing_provider, next_file_offset) =>
          let max_provider_id := Z.max max_provider_id (i32 (Z.abs (kpr_provider_id existing_provider))) in
          if kpr_provider_type existing_provider =? UNKNOWN_KEY_PROVIDER
          then save_scan_providers fuel fd provider_name next_file_offset max_provider_id
          else if strcmp_eq (kpr_provider_name existing_provider) provider_name
          then ereport ERROR "Key provider already exists."
          else save_scan_providers fuel fd provider_name next_file_offset max_provider_id
      end
  end.

(** [save_new_key_provider_info] after the check of the record. *)
Definition save_new_checked (provider : KeyringProviderRecord) (databaseId : Z) : M unit :=
  LWLockAcquire_pi LW_EXCLUSIVE;;
  fd ← open_keyring_infofile databaseId true;
  fuel ← file_fuel fd;
  '(next_file_offset, max_provider_id) ← save_scan_providers fuel fd (kpr_provider_name provider) 0 0;
  CloseTransientFile fd;;
  if max_provider_id =? PG_INT32_MAX then ereport ERROR "cannot create key provider, id out of range"
  else
    let new_provider_id := max_provider_id + 1 in
    let provider_id := if databaseId =? GLOBAL_DATA_TDE_OID then - new_provider_id else new_provider_id in
    write_key_provider_info (mkProviderRecordInFile databaseId next_file_offset (with_id provider_id provider)) true;;
    LWLockRelease_pi.

(** [modify_key_provider_info] after the check of the record. *)
Definition modify_checked (provider : KeyringProviderRecord) (databaseId : Z) : M unit :=
  LWLockAcquire_pi LW_EXCLUSIVE;;
  r ← get_keyring_info_file_record_by_name (kpr_provider_name provider) databaseId;
  match r with
  | None => ereport ERROR "keyring does not exist"
  | Some record =>
      if negb (kpr_provider_id provider =? kpr_provider_id (kprf_provider record))
      then ereport ERROR "provider id mismatch"
      else
        write_key_provider_info
          (mkProviderRecordInFile (kprf_database_id record) (kprf_offset_in_file record) provider) true;;
        LWLockRelease_pi
  end.

(** What is left of a deleted record: its id. *)
Definition deleted_record (id : Z) : KeyringProviderRecord :=
  mkProviderRecord id (zeros MAX_PROVIDER_NAME_LEN) (zeros MAX_KEYRING_OPTION_LEN) UNKNOWN_KEY_PROVIDER.

Definition delete_key_provider_info (provider_name : bytes) (databaseId : Z) : M unit :=
  LWLockAcquire_pi LW_EXCLUSIVE;;
  r ← get_keyring_info_file_record_by_name provider_name databaseId;
  match r with
  | None => ereport ERROR "key provider does not exist"
  | Some record =>
      write_key_provider_info
        (mkProviderRecordInFile (kprf_database_id record) (kprf_offset_in_file record)
           (deleted_record (kpr_provider_id (kprf_provider record)))) true;;
      LWLockRelease_pi
  end.

Definition key_provider_startup_cleanup (databaseId : Z) : M unit :=
  PathNameDeleteTemporaryFile (get_keyring_infofile_path databaseId).

End providers.
