(* ===== verification/ChangeProvider.v ===== *)
(** bin/open_pg_tde_change_key_provider.c: the program that changes a key
    provider while the server is not running.

    The library functions for the command line, the environment and the control
    file are [ChangeEnv]. As in ArchiveTools, the data directory that is given
    is the one the development works in. *)
From S2P Require Import Prelude Types Environ Ciphers EncTde KeyringOptions KeyFile KeyMap WalKeys XLogSmgr ArchiveTools.
From S2P Require Import Keyring KeyProviders.

(** ** Options as JSON *)

(** [strlcat (buffer, src, bufsize) < bufsize], and the text in the buffer. *)
Definition json_append (buffer : bytes) (bufsize : nat) (src : bytes) : bytes * bool :=
  (take (bufsize - 1) (buffer ++ cstr src), Nat.ltb (length buffer + length (cstr src)) bufsize).

(** [ok = ok && json_append (...)] for one text after the other. *)
Fixpoint json_appends (buffer : bytes) (bufsize : nat) (srcs : list bytes) : bytes * bool :=
  match srcs with
  | [] => (buffer, true)
  | src :: srcs =>
      let '(buffer, ok) := json_append buffer bufsize src in
      if ok : bool then json_appends buffer bufsize srcs else (buffer, false)
  end.

(** What one round of the loop appends. *)
Definition json_pair (i : nat) (key : bytes) (value : option bytes) : list bytes :=
  let addQuotes := match value with
                   | None => true
                   | Some v => match cstr v with
                               | b :: _ => negb (bool_decide (b = x7b)) && negb (bool_decide (b = x22))
                               | [] => true
                               end
                   end in
  (if Nat.eqb i 0 then [] else [[x2c]]) ++ [[x22]; key; [x22; x3a]] ++
  (if addQuotes then [[x22]] else []) ++ match value with Some v => [v] | None => [] end ++
  (if addQuotes then [[x22]] else []).

(** The text, or [None] when the code returns false. *)
Definition build_json (bufsize : nat) (args : list (bytes * option bytes)) : option bytes :=
  let '(buffer, ok) :=
    json_appends [] bufsize ([[x7b]] ++ concat (imap (λ i '(key, value), json_pair i key value) args) ++ [[x7d]]) in
  if ok then Some buffer else None.

(** ** The program *)

Inductive DBState := DB_SHUTDOWNED | DB_SHUTDOWNED_IN_RECOVERY | DB_OTHER_STATE.

(** [getopt_long] gives the argument of [-D] and the arguments that are no
    options, or [None] when there is an unknown option; [get_controlfile] gives
    whether the checksum is right and the state of the cluster. *)
Class ChangeEnv := {
  getopt_datadir : list bytes → option (option bytes * list bytes);
  getenv_PGDATA : option bytes;
  get_controlfile : bytes → option (bool * DBState);
}.

(** [atoi], as an [Oid]. *)
Fixpoint digits_value (v : Z) (s : bytes) : Z :=
  match s with
  | b :: s => if (48 <=? b2z b) && (b2z b <=? 57) then digits_value (v * 10 + (b2z b - 48)) s else v
  | [] => v
  end.
Fixpoint skip_spaces (s : bytes) : bytes :=
  match s with
  | b :: s' => if (b2z b =? 32) || ((9 <=? b2z b) && (b2z b <=? 13)) then skip_spaces s' else s
  | [] => []
  end.
Definition atoi_oid (s : bytes) : Z :=
  match skip_spaces (cstr s) with
  | b :: s' =>
      if bool_decide (b = x2d) then u32 (- digits_value 0 s')
      else if bool_decide (b = x2b) then u32 (digits_value 0 s')
      else u32 (digits_value 0 (b :: s'))
  | [] => 0
  end.

Section change.
Context {SSL : OpenSSL} {K : Kernel} {PKS : PrincipalKeys} {CE : ChangeEnv}.

(** The options for a type of provider. *)
Definition provider_json (new_provider_type : bytes) (params : list bytes) : M bytes :=
  let wrong := ereport FATAL "wrong number of arguments" in
  let build args := match build_json MAX_KEYRING_OPTION_LEN args with
                    | Some json => mret json
                    | None => ereport FATAL "configuration too long"
                    end in
  if strcmp_eq (bytes_of "file") new_provider_type then
    match params with
    | [path] => build [(bytes_of "path", Some path)]
    | _ => wrong
    end
  else if strcmp_eq (bytes_of "openbao") new_provider_type then
    match params with
    | url :: mount :: token :: rest =>
        if Nat.leb 2 (length rest) then wrong
        else build [(bytes_of "url", Some url); (bytes_of "mountPath", Some mount); (bytes_of "tokenPath", Some token);
                    (bytes_of "caPath", Some (default [] (head rest)))]
    | _ => wrong
    end
  else if strcmp_eq (bytes_of "kmip") new_provider_type then
    match params with
    | host :: port :: cert :: key :: rest =>
        if Nat.leb 2 (length rest) then wrong
        else build [(bytes_of "host", Some host); (bytes_of "port", Some port); (bytes_of "certPath", Some cert);
                    (bytes_of "keyPath", Some key); (bytes_of "caPath", Some (default [] (head rest)))]
    | _ => wrong
    end
  else ereport FATAL "unknown provider type".

Definition change_key_provider_main (argv : list bytes) : M unit :=
  if only_prints argv then mret tt
  else
    match getopt_datadir argv with
    | None => ereport FATAL "invalid option"
    | Some (datadir, args) =>
        match (match datadir with Some d => Some d | None => getenv_PGDATA end), args with
        | None, _ => ereport FATAL "no data directory specified"
        | Some datadir, db :: provider_name :: new_provider_type :: params =>
            json ← provider_json new_provider_type params;
            match get_controlfile datadir with
            | None => ereport FATAL "could not read the control file"
            | Some (crc_ok, state) =>
                if negb crc_ok then ereport FATAL "pg_control CRC value is incorrect"
                else
                  match state with
                  | DB_OTHER_STATE => ereport FATAL "cluster must be shut down"
                  | _ =>
                      if Nat.leb MAXPGPATH (length (cstr datadir) + 1 + length OPEN_PG_TDE_DATA_DIR)
                      then ereport PANIC "write past the end of tdedir"
                      else
                        open_pg_tde_set_data_dir (cstr datadir ++ bytes_of "/" ++ OPEN_PG_TDE_DATA_DIR);;
                        r ← get_keyring_info_file_record_by_name provider_name (atoi_oid db);
                        match r with
                        | None => ereport FATAL "provider not found"
                        | Some record =>
                            let old := kprf_provider record in
                            let provider :=
                              mkProviderRecord (kpr_provider_id old) (kpr_provider_name old)
                                (char_array MAX_KEYRING_OPTION_LEN json)
                                (get_keyring_provider_from_typename new_provider_type) in
                            write_key_provider_info
                              (mkProviderRecordInFile (kprf_database_id record) (kprf_offset_in_file record) provider) false
                        end
                  end
            end
        | Some _, _ => ereport FATAL "too few arguments"
        end
    end.

End change.
