(* ===== verification/ProviderSpec.v ===== *)
(** The file of key providers as a list of records: what each function of
    KeyProviders does to the list. *)
From S2P Require Import Prelude Types Environ Instances Ciphers EncTde KeyringOptions KeyFile KeyMap Keyring.
From S2P Require Import KeyProviders.

(** ** Layout *)

Definition ProviderRecord_wf (r : KeyringProviderRecord) : Prop :=
  - 2 ^ 31 <= kpr_provider_id r < 2 ^ 31 ∧ length (kpr_provider_name r) = 128%nat ∧
  length (kpr_options r) = 1024%nat ∧ is_u32 (kpr_provider_type r).

Lemma ProviderRecord_encode_length r : ProviderRecord_wf r → length (ProviderRecord_encode r) = 1160%nat.
Proof. intros (_ & ? & ? & _). unfold ProviderRecord_encode. by len_simpl. Qed.

Lemma ProviderRecord_decode_encode r :
  ProviderRecord_wf r → ProviderRecord_decode (ProviderRecord_encode r) = r.
Proof.
  intros (? & ? & ? & ?). unfold ProviderRecord_decode, ProviderRecord_encode. slice_simpl.
  rewrite dec_enc_i32, dec_enc_u32 by done. by destruct r.
Qed.

Lemma decode_id_range bs : - 2 ^ 31 <= kpr_provider_id (ProviderRecord_decode bs) < 2 ^ 31.
Proof.
  unfold ProviderRecord_decode. cbn [kpr_provider_id]. unfold i32.
  pose proof (Z.mod_pos_bound (le_dec (slice 0 4 bs) + 2 ^ 31) (2 ^ 32)). lia.
Qed.

Lemma deleted_record_wf id : - 2 ^ 31 <= id < 2 ^ 31 → ProviderRecord_wf (deleted_record id).
Proof. intros H. split_and!; simpl; try done; try apply H; unfold is_u32, UNKNOWN_KEY_PROVIDER; lia. Qed.

Lemma with_id_wf id r : - 2 ^ 31 <= id < 2 ^ 31 → ProviderRecord_wf r → ProviderRecord_wf (with_id id r).
Proof. intros H (_ & ?). by split. Qed.

#[global] Opaque ProviderRecord_encode ProviderRecord_decode.

(** ** Paths *)

Lemma string_app_inj_r (s1 s2 t : string) : s1 +:+ t = s2 +:+ t → s1 = s2.
Proof.
  revert s2. induction s1 as [|c s1 IH]; intros [|c' s2] E; simpl in *.
  - done.
  - apply (f_equal String.length) in E. simpl in E.
    rewrite !string_app_length in E. simpl in E. lia.
  - apply (f_equal String.length) in E. simpl in E.
    rewrite !string_app_length in E. simpl in E. lia.
  - injection E as -> E. f_equal. by apply IH.
Qed.

Lemma fmt_d_inj a b : is_u32 a → is_u32 b → fmt_d a = fmt_d b → a = b.
Proof.
  intros Ha Hb E. apply pretty_Z_inj in E. unfold i32, is_u32 in *.
  assert (u32 (a + 2 ^ 31) = u32 (b + 2 ^ 31)) as E' by (unfold u32; lia).
  unfold u32 in E'. destruct (decide (a < 2 ^ 31)), (decide (b < 2 ^ 31));
    (rewrite ?(Z.mod_small (a + 2 ^ 31)) in E' by lia); (rewrite ?(Z.mod_small (b + 2 ^ 31)) in E' by lia);
    rewrite ?(Z.mod_eq (a + 2 ^ 31)) in E' by lia; rewrite ?(Z.mod_eq (b + 2 ^ 31)) in E' by lia;
    repeat match goal with
    | H : context [(?x + 2 ^ 31) / 2 ^ 32] |- _ =>
        replace ((x + 2 ^ 31) / 2 ^ 32) with 1 in H by (apply (Z.div_unique _ _ _ (x - 2 ^ 31)); lia)
    end; lia.
Qed.

Lemma infofile_path_inj a b :
  is_u32 a → is_u32 b → get_keyring_infofile_path a = get_keyring_infofile_path b → a = b.
Proof.
  intros Ha Hb E. apply fmt_d_inj; [done|done|]. unfold get_keyring_infofile_path in E.
  do 2 apply (inj (String.app _)) in E. by apply string_app_inj_r in E.
Qed.

(** ** The records of a file *)

(** Not deleted. *)
Definition live (r : KeyringProviderRecord) : bool := negb (kpr_provider_type r =? UNKNOWN_KEY_PROVIDER).

Definition named (name : bytes) (r : KeyringProviderRecord) : bool :=
  live r && strcmp_eq (kpr_provider_name r) name.

Definition selected `{PgPort} (st : ProviderScanType) (r : KeyringProviderRecord) : bool :=
  live r && scan_match st r.

(** The position of a record. *)
Definition rpos (i : nat) : Z := 1160 * Z.of_nat i.
#[global] Arguments rpos : simpl never.

Lemma rpos_nat i : Z.to_nat (rpos i) = (i * 1160)%nat.
Proof. unfold rpos. lia. Qed.

Lemma rpos_nonneg i : 0 <= rpos i.
Proof. unfold rpos. lia. Qed.

Lemma rpos_S i : rpos i + 1160 = rpos (S i).
Proof. unfold rpos. lia. Qed.

Abbreviation records_file := (rfile ProviderRecord_encode).

Section file.
Context {SSL : OpenSSL} {K : Kernel} {NF : NoFaults K} {PP : PgPort} {J : JsonApi}.
Implicit Types rs : list KeyringProviderRecord.

(** The records in the file of a database; a missing file has none. *)
Definition providers_rep (w : World) (db : Z) rs : Prop :=
  Forall ProviderRecord_wf rs ∧
  ((w_fs w !! get_keyring_infofile_path db = None ∧ rs = []) ∨
   w_fs w !! get_keyring_infofile_path db = Some (records_file rs)).

Lemma providers_rep_files w w' db rs :
  w_fs w' !! get_keyring_infofile_path db = w_fs w !! get_keyring_infofile_path db →
  providers_rep w db rs → providers_rep w' db rs.
Proof. intros E [H1 H2]. split; [done|]. by rewrite E. Qed.

Lemma fetch_ok fd rs i w :
  Forall ProviderRecord_wf rs → w_fs w !! fd = Some (records_file rs) →
  fetch_next_key_provider fd (rpos i) w =
    Ok ((λ r, (r, rpos (S i))) <$> rs !! i) w.
Proof.
  intros Hwf Hf. unfold fetch_next_key_provider.
  rewrite (bind_ok _ _ _ _ _ (pread_ok _ _ (rpos i) w _ Hf (rpos_nonneg i))). rewrite rpos_nat.
  change (Z.to_nat sizeof_KeyringProviderRecord) with 1160%nat.
  rewrite (rfile_slice _ _ ProviderRecord_wf ProviderRecord_encode_length) by done.
  destruct (rs !! i) as [r|] eqn:E; [|done]. pose proof (Forall_lookup_1 _ _ _ _ Hwf E) as Hr.
  pose proof (ProviderRecord_encode_length r Hr) as Hl.
  destruct (ProviderRecord_encode r) as [|b bs] eqn:Eb; [done|]. rewrite Hl.
  change (negb _) with false. cbv iota. rewrite <-Eb, ProviderRecord_decode_encode by done. simpl.
  do 3 f_equal. apply rpos_S.
Qed.

(** *** Scanning *)

(** The record is loaded as this provider, whatever locks are held. *)
Definition loads_as (w : World) (r : KeyringProviderRecord) (kr : GenericKeyring) : Prop :=
  ∀ w', w_fs w' = w_fs w → w_rand w' = w_rand w → load_keyring_provider_from_record r w' = Ok kr w'.

Lemma scan_loop_ok fd rs st fuel i krs acc w :
  Forall ProviderRecord_wf rs → w_fs w !! fd = Some (records_file rs) →
  (i ≤ length rs)%nat → (length rs < i + fuel)%nat →
  Forall2 (loads_as w) (filter (λ r, selected st r = true) (drop i rs)) krs →
  scan_loop fuel fd (rpos i) st acc w = Ok (acc ++ krs) w.
Proof.
  intros Hwf Hf. revert i krs acc. induction fuel as [|fuel IH]; intros i krs acc Hi Hfuel Hkrs; cbn [scan_loop].
  { lia. }
  rewrite (bind_ok _ _ _ _ _ (fetch_ok fd rs i w Hwf Hf)). destruct (rs !! i) as [r|] eqn:E; simpl.
  - rewrite (drop_S _ _ _ E), filter_cons in Hkrs. apply lookup_lt_Some in E.
    change (selected st r) with (negb (kpr_provider_type r =? UNKNOWN_KEY_PROVIDER) && scan_match st r) in Hkrs.
    destruct (kpr_provider_type r =? UNKNOWN_KEY_PROVIDER); simpl in Hkrs.
    { apply IH; [lia|lia|done]. }
    destruct (scan_match st r); simpl in Hkrs.
    + inversion Hkrs as [|? kr ? krs' Hl Hkrs']; subst. rewrite (bind_ok _ _ _ _ _ (Hl w eq_refl eq_refl)).
      rewrite (IH (S i) krs') by (done || lia). by rewrite <-app_assoc.
    + apply IH; [lia|lia|done].
  - apply lookup_ge_None in E. rewrite drop_ge in Hkrs by done. inversion Hkrs. by rewrite app_nil_r.
Qed.

Lemma scan_key_provider_file_ok db rs st krs w :
  providers_rep w db rs → w_pi_lock w = None →
  Forall2 (loads_as w) (filter (λ r, selected st r = true) rs) krs →
  scan_key_provider_file st db w = Ok krs w.
Proof.
  intros [Hwf Hf] Hl Hkrs. unfold scan_key_provider_file.
  rewrite (bind_ok _ _ _ _ _ (acquire_pi_ok LW_SHARED w Hl)). set (w1 := set_pi_lock _ w).
  assert (LWLockRelease_pi w1 = Ok tt w) as Er by (rewrite (release_pi_ok LW_SHARED) by done; by destruct w; simpl in *; subst).
  destruct Hf as [[Hf ->]|Hf].
  - rewrite (bind_ok _ _ _ _ _ (open_missing _ _ w1 Hf)). rewrite (bind_ok _ _ _ _ _ Er). by inversion Hkrs.
  - rewrite (bind_ok _ _ _ _ _ (open_existing _ _ w1 _ Hf)). unfold file_fuel. mstep. cbn [w_fs w1 set_pi_lock].
    rewrite Hf. change (default [] (Some ?x)) with x. change 0 with (rpos 0).
    erewrite bind_ok; [|eapply (scan_loop_ok _ rs _ _ 0 krs [])]; try done; try lia.
    + simpl. mstep. by rewrite (bind_ok _ _ _ _ _ Er).
    + rewrite (rfile_length _ _ ProviderRecord_wf ProviderRecord_encode_length) by done. lia.
Qed.

(** *** Finding a record by its exact name *)

Lemma record_by_name_loop_ok fd rs name db fuel i w :
  Forall ProviderRecord_wf rs → w_fs w !! fd = Some (records_file rs) →
  (i ≤ length rs)%nat → (length rs < i + fuel)%nat →
  record_by_name_loop fuel fd (rpos i) name db w =
    Ok ((λ '(j, r), mkProviderRecordInFile db (rpos (i + j)) r) <$>
          list_find (λ r, named name r = true) (drop i rs)) w.
Proof.
  intros Hwf Hf. revert i. induction fuel as [|fuel IH]; intros i Hi Hfuel; cbn [record_by_name_loop].
  { lia. }
  rewrite (bind_ok _ _ _ _ _ (fetch_ok fd rs i w Hwf Hf)). destruct (rs !! i) as [r|] eqn:E; simpl.
  - rewrite (drop_S _ _ _ E). simpl. change (_ && strcmp_eq _ _) with (named name r).
    destruct (named name r) eqn:En.
    + rewrite decide_True by done. simpl. by rewrite Nat.add_0_r.
    + rewrite decide_False by done. apply lookup_lt_Some in E.
      rewrite IH by lia. f_equal. destruct (list_find _ _) as [[j r']|]; simpl; [|done].
      by rewrite Nat.add_succ_r.
  - apply lookup_ge_None in E. by rewrite drop_ge.
Qed.

Lemma record_by_name_ok db rs name w :
  Forall ProviderRecord_wf rs → w_fs w !! get_keyring_infofile_path db = Some (records_file rs) →
  get_keyring_info_file_record_by_name name db w =
    Ok ((λ '(j, r), mkProviderRecordInFile db (rpos j) r) <$>
          list_find (λ r, named name r = true) rs) w.
Proof.
  intros Hwf Hf. unfold get_keyring_info_file_record_by_name, open_keyring_infofile. rewrite bind_assoc.
  rewrite (bind_ok _ _ _ _ _ (open_existing _ _ w _ Hf)). mstep. unfold file_fuel. mstep. rewrite Hf.
  change 0 with (rpos 0). change (default [] (Some ?x)) with x.
  erewrite bind_ok; [|eapply (record_by_name_loop_ok _ rs)]; try done; try lia.
  rewrite (rfile_length _ _ ProviderRecord_wf ProviderRecord_encode_length) by done. lia.
Qed.

(** *** Writing a record *)

(** The list with the record at a position: replaced, or appended. *)
Definition put_record (i : nat) (r : KeyringProviderRecord) rs : list KeyringProviderRecord :=
  if decide (i < length rs)%nat then <[i := r]> rs else rs ++ [r].

Definition xlog_of (db : Z) (i : nat) (r : KeyringProviderRecord) : XLogRecord :=
  XLOG_TDE_WRITE_KEY_PROVIDER (mkProviderRecordInFile db (rpos i) r).

Lemma put_record_wf i r rs :
  Forall ProviderRecord_wf rs → ProviderRecord_wf r → Forall ProviderRecord_wf (put_record i r rs).
Proof.
  intros Hrs Hr. unfold put_record. case_decide; [by apply Forall_insert|].
  apply Forall_app. split; [done|by apply Forall_singleton].
Qed.

Lemma write_provider_ok db rs i r xlog w :
  providers_rep w db rs → (i ≤ length rs)%nat → ProviderRecord_wf r →
  write_key_provider_info (mkProviderRecordInFile db (rpos i) r) xlog w =
    Ok tt (set_fs (<[get_keyring_infofile_path db := records_file (put_record i r rs)]> (w_fs w))
             (set_xlog (w_xlog w ++ (if xlog then [xlog_of db i r] else [])) w)).
Proof.
  intros [Hwf Hf] Hi Hr. unfold write_key_provider_info. cbn [kprf_database_id kprf_provider kprf_offset_in_file].
  set (p := get_keyring_infofile_path db) in *.
  assert (∃ w1, OpenTransientFile p true false w = Ok (Fd p) w1 ∧ w_fs w1 !! p = Some (records_file rs) ∧
            ∀ f x, set_fs (<[p := x]> f) w1 = set_fs (<[p := x]> f) w ∧ w_xlog w1 = w_xlog w ∧
                   <[p := x]> (w_fs w1) = <[p := x]> (w_fs w)) as (w1 & Eo & Hf1 & Hw1).
  { destruct Hf as [[Hf ->]|Hf].
    - eexists. split; [by apply open_create|]. split; [simpl; by rewrite lookup_insert_eq|].
      intros f x. split_and!; try done. simpl. by rewrite insert_insert_eq.
    - exists w. split; [by eapply open_existing|]. done. }
  rewrite (bind_ok _ _ _ _ _ Eo). set (w2 := set_xlog (w_xlog w1 ++ (if xlog then [xlog_of db i r] else [])) w1).
  assert ((if xlog then XLogInsert (XLOG_TDE_WRITE_KEY_PROVIDER (mkProviderRecordInFile db (rpos i) r))
           else mret tt) w1 = Ok tt w2) as Ex.
  { destruct xlog; [done|]. unfold w2. rewrite app_nil_r. by destruct w1. }
  rewrite (bind_ok _ _ _ _ _ Ex).
  rewrite (bind_ok _ _ _ _ _ (pwrite_ok p _ (rpos i) w2 _ Hf1 (rpos_nonneg i))).
  rewrite ProviderRecord_encode_length by done.
  change (Z.of_nat 1160 =? sizeof_KeyringProviderRecord) with true. cbv [negb].
  rewrite (bind_ok _ _ _ _ _ (fsync_ok p _)). change (0 =? 0) with true. cbv [negb].
  unfold CloseTransientFile, mret, M_ret. f_equal. rewrite rpos_nat.
  destruct (Hw1 ∅ []) as (_ & Hx & _).
  replace (write_at _ _ _) with (records_file (put_record i r rs)).
  - destruct (Hw1 (w_fs w) (records_file (put_record i r rs))) as (Es & _ & Ei).
    unfold w2. change (w_fs (set_xlog _ w1)) with (w_fs w1). rewrite Ei, Hx.
    pose proof (f_equal (set_xlog (w_xlog w ++ (if xlog then [xlog_of db i r] else []))) Es) as Es'. exact Es'.
  - unfold put_record. case_decide.
    + symmetry. by apply (rfile_insert _ _ ProviderRecord_wf ProviderRecord_encode_length).
    + assert (i = length rs) as -> by lia. symmetry.
      by apply (rfile_snoc _ _ ProviderRecord_wf ProviderRecord_encode_length).
Qed.

(** *** Adding a provider *)

Definition max_id rs : Z := foldr (λ r m, Z.max (i32 (Z.abs (kpr_provider_id r))) m) 0 rs.

Lemma max_id_range rs : 0 <= max_id rs <= PG_INT32_MAX.
Proof.
  unfold PG_INT32_MAX. induction rs as [|r rs IH]; simpl; [lia|].
  assert (i32 (Z.abs (kpr_provider_id r)) < 2 ^ 31).
  { unfold i32. pose proof (Z.mod_pos_bound (Z.abs (kpr_provider_id r) + 2 ^ 31) (2 ^ 32)). lia. }
  lia.
Qed.

Lemma save_scan_ok fd rs name fuel i m w :
  Forall ProviderRecord_wf rs → w_fs w !! fd = Some (records_file rs) →
  (i ≤ length rs)%nat → (length rs < i + fuel)%nat → 0 <= m →
  match list_find (λ r, named name r = true) (drop i rs) with
  | None => save_scan_providers fuel fd name (rpos i) m w =
              Ok (rpos (length rs), Z.max m (max_id (drop i rs))) w
  | Some _ => save_scan_providers fuel fd name (rpos i) m w =
              Err (mkError ERROR "Key provider already exists.") w
  end.
Proof.
  intros Hwf Hf. revert i m. induction fuel as [|fuel IH]; intros i m Hi Hfuel Hm; cbn [save_scan_providers].
  { lia. }
  pose proof (fetch_ok fd rs i w Hwf Hf) as Ef. destruct (rs !! i) as [r|] eqn:E; simpl in Ef.
  - rewrite (drop_S _ _ _ E). simpl. rewrite !(bind_ok _ _ _ _ _ Ef). cbv beta iota zeta.
    apply lookup_lt_Some in E. set (m' := Z.max m (i32 (Z.abs (kpr_provider_id r)))).
    specialize (IH (S i) m' ltac:(lia) ltac:(lia) ltac:(lia)).
    destruct (named name r) eqn:En; unfold named, live in En.
    + rewrite decide_True by done. by destruct (_ =? _), (strcmp_eq _ _).
    + rewrite decide_False by done.
      replace (Z.max m _) with (Z.max m' (max_id (drop (S i) rs))) by (unfold m'; lia).
      destruct (list_find _ (drop (S i) rs)) as [[]|]; simpl; destruct (_ =? _), (strcmp_eq _ _); done.
  - apply lookup_ge_None in E. rewrite drop_ge by done. simpl. rewrite (bind_ok _ _ _ _ _ Ef).
    assert (i = length rs) as -> by lia. do 2 f_equal. lia.
Qed.

Definition new_id (db : Z) rs : Z :=
  if db =? GLOBAL_DATA_TDE_OID then - (max_id rs + 1) else max_id rs + 1.

(** The state in which a failed operation ends: the lock is held until the
    transaction is aborted. *)
Abbreviation pi_locked := (set_pi_lock (Some LW_EXCLUSIVE)).

(** The state in which an operation that put a record ends. *)
Definition after_put (db : Z) (i : nat) (r : KeyringProviderRecord) rs (w : World) : World :=
  set_fs (<[get_keyring_infofile_path db := records_file (put_record i r rs)]> (w_fs w))
    (set_xlog (w_xlog w ++ [xlog_of db i r]) w).

Lemma after_put_rep db i r rs w :
  providers_rep w db rs → ProviderRecord_wf r → providers_rep (after_put db i r rs w) db (put_record i r rs).
Proof.
  intros [Hwf _] Hr. split; [by apply put_record_wf|]. right. simpl. apply lookup_insert_eq.
Qed.

(** Writing under the lock, then releasing it. *)
Lemma locked_write_ok db rs i r w w1 :
  providers_rep w db rs → (i ≤ length rs)%nat → ProviderRecord_wf r → w_pi_lock w = None →
  (w1 = w ∨ (rs = [] ∧ w1 = set_fs (<[get_keyring_infofile_path db := []]> (w_fs w)) w)) →
  (write_key_provider_info (mkProviderRecordInFile db (rpos i) r) true;; LWLockRelease_pi) (pi_locked w1) =
    Ok tt (after_put db i r rs w).
Proof.
  intros Hrep Hi Hr Hl Hw1.
  assert (providers_rep (pi_locked w1) db rs) as Hrep1.
  { destruct Hw1 as [->|[-> ->]]; [done|]. split; [done|]. right. simpl. apply lookup_insert_eq. }
  rewrite (bind_ok _ _ _ _ _ (write_provider_ok db rs i r true _ Hrep1 Hi Hr)).
  rewrite (release_pi_ok LW_EXCLUSIVE) by done. f_equal. unfold after_put.
  destruct Hw1 as [->|[-> ->]]; destruct w; simpl in *; subst; [done|]. by rewrite insert_insert_eq.
Qed.

(** [save_new_key_provider_info] on every branch. *)
Lemma save_new_checked_ok db rs r w :
  providers_rep w db rs → w_pi_lock w = None → ProviderRecord_wf r →
  let name := kpr_provider_name r in
  match list_find (λ r, named name r = true) rs with
  | Some _ => save_new_checked r db w = Err (mkError ERROR "Key provider already exists.") (pi_locked w)
  | None =>
      if max_id rs =? PG_INT32_MAX then
        ∃ e w', save_new_checked r db w = Err e w' ∧ providers_rep w' db rs ∧ w_xlog w' = w_xlog w
      else save_new_checked r db w = Ok tt (after_put db (length rs) (with_id (new_id db rs) r) rs w)
  end.
Proof.
  intros Hrep Hl Hr name. pose proof (max_id_range rs) as Hm. unfold save_new_checked. rewrite !(bind_ok _ _ _ _ _ (acquire_pi_ok LW_EXCLUSIVE w Hl)).
  set (p := get_keyring_infofile_path db).
  assert (∃ w1, open_keyring_infofile db true (pi_locked w) = Ok p (pi_locked w1) ∧
                w_fs w1 !! p = Some (records_file rs) ∧
                (w1 = w ∨ (rs = [] ∧ w1 = set_fs (<[p := []]> (w_fs w)) w))) as (w1 & Eo & Hf1 & Hw1).
  { unfold open_keyring_infofile. fold p. destruct (proj2 Hrep) as [[Hf ->]|Hf]; fold p in Hf.
    - exists (set_fs (<[p := []]> (w_fs w)) w). rewrite (bind_ok _ _ _ _ _ (open_create p _ (pi_locked w) Hf)).
      split; [done|]. split; [simpl; by rewrite lookup_insert_eq|by right].
    - exists w. rewrite (bind_ok _ _ _ _ _ (open_existing p _ (pi_locked w) _ Hf)). by split_and!; [| |left]. }
  rewrite !(bind_ok _ _ _ _ _ Eo). unfold file_fuel.
  pose proof (save_scan_ok p rs name (S (length (records_file rs))) 0 0 (pi_locked w1) (proj1 Hrep) Hf1
                ltac:(lia)) as Hscan.
  rewrite drop_0 in Hscan. change (rpos 0) with 0 in Hscan.
  rewrite (rfile_length _ _ ProviderRecord_wf ProviderRecord_encode_length) in Hscan by apply Hrep.
  specialize (Hscan ltac:(lia) ltac:(lia)).
  assert (∀ A (f : nat → M A), (gets (λ w, S (length (default [] (w_fs w !! p)))) ≫= f) (pi_locked w1) =
            f (S (length rs * 1160)) (pi_locked w1)) as Hfuel.
  { intros A f. mstep. cbn [w_fs set_pi_lock]. rewrite Hf1. change (default [] (Some ?x)) with x.
    by rewrite (rfile_length _ _ ProviderRecord_wf ProviderRecord_encode_length) by apply Hrep. }
  rewrite !Hfuel. destruct (list_find _ rs) as [[j r']|] eqn:Efind.
  - rewrite (bind_err _ _ _ _ _ Hscan). destruct Hw1 as [->|[-> ->]]; [done|]. done.
  - rewrite !(bind_ok _ _ _ _ _ Hscan). cbv beta iota. rewrite Z.max_r by lia.
    destruct (Z.eqb_spec (max_id rs) PG_INT32_MAX) as [Em|Em].
    + mstep. cbv beta. eexists _, _. split; [done|]. split.
      * split; [apply Hrep|]. by right.
      * by destruct Hw1 as [->|[_ ->]].
    + mstep. cbv beta.
      apply (locked_write_ok db rs (length rs)); [done|lia| |done|done].
      apply with_id_wf; [|done]. unfold new_id, PG_INT32_MAX in *. case_match; lia.
Qed.

(** [modify_key_provider_info] on every branch. *)
Lemma modify_checked_ok db rs r w :
  providers_rep w db rs → w_pi_lock w = None → ProviderRecord_wf r →
  match list_find (λ r', named (kpr_provider_name r) r' = true) rs with
  | None => ∃ e, modify_checked r db w = Err e (pi_locked w)
  | Some (i, old) =>
      if kpr_provider_id r =? kpr_provider_id old
      then modify_checked r db w = Ok tt (after_put db i r rs w)
      else modify_checked r db w = Err (mkError ERROR "provider id mismatch") (pi_locked w)
  end.
Proof.
  intros Hrep Hl Hr. unfold modify_checked. rewrite !(bind_ok _ _ _ _ _ (acquire_pi_ok LW_EXCLUSIVE w Hl)).
  destruct (proj2 Hrep) as [[Hf ->]|Hf]; simpl.
  - unfold get_keyring_info_file_record_by_name, open_keyring_infofile. eexists.
    by rewrite !bind_assoc, (bind_ok _ _ _ _ _ (open_missing _ _ (pi_locked w) Hf)).
  - rewrite !(bind_ok _ _ _ _ _ (record_by_name_ok db rs (kpr_provider_name r) (pi_locked w) (proj1 Hrep) Hf)).
    destruct (list_find _ rs) as [[i old]|] eqn:Efind; simpl; [|by eexists].
    apply list_find_Some in Efind as (Hi & _). destruct (_ =? _); [|done]. simpl.
    apply (locked_write_ok db rs i); [done|apply lookup_lt_Some in Hi; lia|done|done|by left].
Qed.

(** [delete_key_provider_info] on every branch. *)
Lemma delete_key_provider_info_ok db rs name w :
  providers_rep w db rs → w_pi_lock w = None →
  match list_find (λ r', named name r' = true) rs with
  | None => ∃ e, delete_key_provider_info name db w = Err e (pi_locked w)
  | Some (i, old) =>
      delete_key_provider_info name db w = Ok tt (after_put db i (deleted_record (kpr_provider_id old)) rs w)
  end.
Proof.
  intros Hrep Hl. unfold delete_key_provider_info.
  rewrite !(bind_ok _ _ _ _ _ (acquire_pi_ok LW_EXCLUSIVE w Hl)).
  destruct (proj2 Hrep) as [[Hf ->]|Hf]; simpl.
  - unfold get_keyring_info_file_record_by_name, open_keyring_infofile. eexists.
    by rewrite !bind_assoc, (bind_ok _ _ _ _ _ (open_missing _ _ (pi_locked w) Hf)).
  - rewrite !(bind_ok _ _ _ _ _ (record_by_name_ok db rs name (pi_locked w) (proj1 Hrep) Hf)).
    destruct (list_find _ rs) as [[i old]|] eqn:Efind; simpl; [|by eexists].
    apply list_find_Some in Efind as (Hi & _).
    apply (locked_write_ok db rs i); [done|apply lookup_lt_Some in Hi; lia| |done|by left].
    apply deleted_record_wf. apply (Forall_lookup_1 _ _ _ _ (proj1 Hrep) Hi).
Qed.

End file.
