(* ===== verification/PrincipalKey.v ===== *)
(** catalog/tde_principal_key.c: the principal keys of databases, of the
    server (WAL) and the default one, their cache in shared memory, and the SQL
    functions that set, verify and delete them.

    A pointer to a cache entry is the entry's value: entries are inserted and
    deleted as a whole and no function uses a pointer after deleting its entry.
    The cache is [w_pk_cache]. Attaching to shared memory is left out. What a
    missing key provider or an unreadable pointer leads to is written as a
    PANIC. SQL arguments that may be NULL are options. The id of a provider is an
    [int]; stored as an [Oid] it is taken modulo 2^32. *)
From S2P Require Import Prelude Types Environ Instances Ciphers EncTde KeyFile KeyMap WalKeys Keyring.

Definition PRINCIPAL_KEY_NAME_LEN : nat := TDE_KEY_NAME_LEN.

Section interface.
Context {SSL : OpenSSL}.

(** ** What the catalogue of key providers and the server offer *)

(** catalog/tde_keyring.c: [GetKeyProviderByName] raises an error when there is
    no such provider, [GetKeyProviderByID] returns NULL. *)
Class Providers := {
  GetKeyProviderByName : bytes → Z → M GenericKeyring;
  GetKeyProviderByID : Z → Z → M (option GenericKeyring);
}.

(** A scan of pg_database, the time of day, and [mlock]. *)
Class Server := {
  pg_database : World → list Z;
  gettimeofday : World → timeval;
  mlock : World → bool;
}.

End interface.

Section principal_key.
Context {SSL : OpenSSL} {K : Kernel} {PP : PgPort} {NK : NetworkKeyrings} {PR : Providers} {SV : Server}.

(** ** The cache *)

Definition get_principal_key_from_cache (dbOid : Z) : M (option TDEPrincipalKey) :=
  gets (λ w, w_pk_cache w !! dbOid).

Definition push_principal_key_to_cache (principalKey : TDEPrincipalKey) : M unit :=
  let databaseId := pki_databaseId (pk_keyInfo principalKey) in
  found ← gets (λ w, w_pk_cache w !! databaseId);
  match found with
  | None => modify (λ w, set_pk_cache (<[databaseId := principalKey]> (w_pk_cache w)) w)
  | Some _ => mret tt
  end;;
  ok ← gets mlock;
  if ok : bool then mret tt else ereport ERROR "could not mlock principal key cache entry".

Definition clear_principal_key_cache (databaseId : Z) : M unit :=
  modify (λ w, set_pk_cache (delete databaseId (w_pk_cache w)) w).

Definition principal_key_startup_cleanup (databaseId : Z) : M unit :=
  clear_principal_key_cache databaseId;;
  open_pg_tde_delete_tde_files databaseId.

(** ** Fetching *)

(** [memcpy (principalKey->keyData, keyInfo->data.data, keyInfo->data.len)]
    into a new structure *)
Definition new_principal_key (info : TDEPrincipalKeyInfo) (data : KeyData) : M TDEPrincipalKey :=
  old ← uninit (Z.to_nat MAX_KEY_DATA_SIZE);
  mret (mkPrincipalKey info (write_at 0 (take (Z.to_nat (kd_len data)) (kd_data data)) old)
          (kd_len data)).

Definition get_principal_key_from_keyring (dbOid : Z) : M (option TDEPrincipalKey) :=
  principalKeyInfo ← (if dbOid =? GLOBAL_DATA_TDE_OID then open_pg_tde_get_server_key_info
                      else open_pg_tde_get_principal_key_info dbOid);
  match principalKeyInfo with
  | None => mret None
  | Some principalKeyInfo =>
      keyring ← GetKeyProviderByID (i32 (pki_keyringId (spki_data principalKeyInfo))) dbOid;
      match keyring with
      | None => ereport ERROR "keyring lookup failed for principal key, unknown keyring"
      | Some keyring =>
          '(keyInfo, keyring_ret) ← KeyringGetKey keyring (pki_name (spki_data principalKeyInfo));
          if negb (bool_decide (keyring_ret = KEYRING_CODE_SUCCESS))
          then ereport ERROR "failed to retrieve principal key from key provider"
          else
            match keyInfo with
            | None => ereport ERROR "key not found in key provider"
            | Some keyInfo =>
                ok ← open_pg_tde_verify_principal_key_info principalKeyInfo (ki_data keyInfo);
                if negb ok then
                  ereport ERROR "Failed to verify principal key header, incorrect principal key or corrupted key file"
                else
                  principalKey ← new_principal_key (spki_data principalKeyInfo) (ki_data keyInfo);
                  mret (Some principalKey)
            end
      end
  end.

Definition GetPrincipalKeyNoDefault (dbOid : Z) (lockMode : LWLockMode) : M (option TDEPrincipalKey) :=
  principalKey ← get_principal_key_from_cache dbOid;
  match principalKey with
  | Some pk => mret (Some pk)
  | None =>
      (if bool_decide (lockMode = LW_EXCLUSIVE) then mret tt
       else LWLockRelease_enc;; LWLockAcquire_enc LW_EXCLUSIVE);;
      principalKey ← get_principal_key_from_keyring dbOid;
      match principalKey with
      | Some pk => push_principal_key_to_cache pk;; get_principal_key_from_cache dbOid
      | None => mret None
      end
  end.

(** [*newKey = *template; newKey->keyInfo.databaseId = db] *)
Definition with_database (db : Z) (pk : TDEPrincipalKey) : TDEPrincipalKey :=
  let i := pk_keyInfo pk in
  mkPrincipalKey (mkPKInfo db (pki_keyringId i) (pki_creationTime i) (pki_name i))
    (pk_keyData pk) (pk_keyLength pk).

(** The function GetPrincipalKey of the server. *)
Definition backend_GetPrincipalKey (dbOid : Z) (lockMode : LWLockMode) : M (option TDEPrincipalKey) :=
  principalKey ← GetPrincipalKeyNoDefault dbOid lockMode;
  match principalKey with
  | Some pk => mret (Some pk)
  | None =>
      principalKey ← GetPrincipalKeyNoDefault DEFAULT_DATA_TDE_OID LW_EXCLUSIVE;
      match principalKey with
      | None => mret None
      | Some pk =>
          let newPrincipalKey := with_database dbOid pk in
          (if dbOid =? GLOBAL_DATA_TDE_OID then open_pg_tde_save_server_key newPrincipalKey false
           else open_pg_tde_save_principal_key newPrincipalKey false);;
          push_principal_key_to_cache newPrincipalKey;;
          GetPrincipalKeyNoDefault dbOid LW_EXCLUSIVE
      end
  end.

Definition open_pg_tde_principal_key_configured (databaseId : Z) : M bool :=
  LWLockAcquire_enc LW_SHARED;;
  principalKey ← GetPrincipalKeyNoDefault databaseId LW_SHARED;
  principalKey ← match principalKey with
                 | Some pk => mret (Some pk)
                 | None => GetPrincipalKeyNoDefault DEFAULT_DATA_TDE_OID LW_EXCLUSIVE
                 end;
  LWLockRelease_enc;;
  mret (bool_decide (is_Some principalKey)).

(** ** Setting a key *)

(** Rotation of the key file that belongs to a principal key. *)
Definition perform_rotate (curr_principal_key new_pk : TDEPrincipalKey) (dbOid : Z) (write_xlog : bool)
  : M unit :=
  if dbOid =? GLOBAL_DATA_TDE_OID
  then open_pg_tde_perform_rotate_server_key curr_principal_key new_pk write_xlog
  else open_pg_tde_perform_rotate_key curr_principal_key new_pk write_xlog.

(** The new principal key that a key of a provider becomes. *)
Definition principal_key_of (dbOid : Z) (keyring : GenericKeyring) (keyInfo : KeyInfo) : M TDEPrincipalKey :=
  now ← gets gettimeofday;
  new_principal_key (mkPKInfo dbOid (u32 (kr_keyring_id keyring)) now (ki_name keyInfo)) (ki_data keyInfo).

Definition set_principal_key_with_keyring (key_name provider_name : bytes) (providerOid dbOid : Z) : M unit :=
  LWLockAcquire_enc LW_EXCLUSIVE;;
  curr_principal_key ← GetPrincipalKeyNoDefault dbOid LW_EXCLUSIVE;
  new_keyring ← GetKeyProviderByName provider_name providerOid;
  '(keyInfo, return_code) ← KeyringGetKey new_keyring key_name;
  if negb (bool_decide (return_code = KEYRING_CODE_SUCCESS))
  then ereport ERROR "failed to retrieve principal key from key provider"
  else
    match keyInfo with
    | None => ereport ERROR "key does not exist"
    | Some keyInfo =>
        new_pk ← principal_key_of dbOid new_keyring keyInfo;
        match curr_principal_key with
        | None =>
            (if dbOid =? GLOBAL_DATA_TDE_OID then open_pg_tde_save_server_key new_pk true
             else open_pg_tde_save_principal_key new_pk true);;
            push_principal_key_to_cache new_pk
        | Some curr_principal_key =>
            perform_rotate curr_principal_key new_pk dbOid true;;
            clear_principal_key_cache (pki_databaseId (pk_keyInfo curr_principal_key));;
            push_principal_key_to_cache new_pk
        end;;
        LWLockRelease_enc
    end.

(** Replay of a rotation on a standby. *)
Definition xl_tde_perform_rotate_key (xlrec : XLogPrincipalKeyRotate) : M unit :=
  LWLockAcquire_enc LW_EXCLUSIVE;;
  curr_principal_key ← GetPrincipalKeyNoDefault (xlr_databaseId xlrec) LW_EXCLUSIVE;
  match curr_principal_key with
  | None => ereport ERROR "failed to retrieve current principal key for database"
  | Some curr_principal_key =>
      new_keyring ← GetKeyProviderByID (i32 (xlr_keyringId xlrec)) (xlr_databaseId xlrec);
      match new_keyring with
      | None => ereport PANIC "NULL pointer dereference"
      | Some new_keyring =>
          '(keyInfo, return_code) ← KeyringGetKey new_keyring (xlr_keyName xlrec);
          if negb (bool_decide (return_code = KEYRING_CODE_SUCCESS))
          then ereport ERROR "failed to retrieve principal key from key provider"
          else
            match keyInfo with
            | None => ereport ERROR "failed to retrieve principal key from key provider for database"
            | Some keyInfo =>
                new_pk ← principal_key_of (xlr_databaseId xlrec) new_keyring keyInfo;
                perform_rotate curr_principal_key new_pk (xlr_databaseId xlrec) false;;
                clear_principal_key_cache (pki_databaseId (pk_keyInfo curr_principal_key));;
                push_principal_key_to_cache new_pk;;
                LWLockRelease_enc
            end
      end
  end.

Definition open_pg_tde_is_same_principal_key (a b : option TDEPrincipalKey) : bool :=
  match a, b with
  | Some a, Some b =>
      bool_decide (cstr (pki_name (pk_keyInfo a)) = cstr (pki_name (pk_keyInfo b))) &&
      (pki_keyringId (pk_keyInfo a) =? pki_keyringId (pk_keyInfo b))
  | _, _ => false
  end.

Definition open_pg_tde_rotate_default_key_for_database (oldKey newKeyTemplate : TDEPrincipalKey) : M unit :=
  let db := pki_databaseId (pk_keyInfo oldKey) in
  let newKey := with_database db newKeyTemplate in
  perform_rotate oldKey newKey db true;;
  clear_principal_key_cache db;;
  push_principal_key_to_cache newKey.

Definition update_default_key (oldKey newKey : TDEPrincipalKey) (dbOid : Z) : M unit :=
  principal_key ← GetPrincipalKeyNoDefault dbOid LW_EXCLUSIVE;
  match principal_key with
  | Some pk =>
      if open_pg_tde_is_same_principal_key (Some oldKey) (Some pk)
      then open_pg_tde_rotate_default_key_for_database pk newKey
      else mret tt
  | None => mret tt
  end.

Fixpoint update_default_loop (dbs : list Z) (oldKey newKey : TDEPrincipalKey) : M unit :=
  match dbs with
  | [] => mret tt
  | dbOid :: dbs => update_default_key oldKey newKey dbOid;; update_default_loop dbs oldKey newKey
  end.

Definition open_pg_tde_update_default_principal_key_everywhere (oldKey newKey : TDEPrincipalKey) : M unit :=
  update_default_key oldKey newKey GLOBAL_DATA_TDE_OID;;
  dbs ← gets pg_database;
  update_default_loop dbs oldKey newKey.

(** The checks the functions that set and create keys begin with: the names
    when they are acceptable. *)
Definition check_key_arguments (providerOid : Z) (key_name provider_name : option bytes) : M (bytes * bytes) :=
  superuser ← gets (λ w, is_superuser (w_session w));
  inherit ← gets (λ w, AllowInheritGlobalProviders (w_session w));
  if (providerOid =? GLOBAL_DATA_TDE_OID) && negb superuser
  then ereport ERROR "must be superuser to access global key providers"
  else if (providerOid =? GLOBAL_DATA_TDE_OID) && negb inherit
  then ereport ERROR "usage of global key providers is disabled"
  else
    match key_name with
    | None => ereport ERROR "key name cannot be null"
    | Some key_name =>
        if Nat.eqb (length (cstr key_name)) 0 then ereport ERROR "key name is too short"
        else if Nat.leb PRINCIPAL_KEY_NAME_LEN (length (cstr key_name))
        then ereport ERROR "key name is too long"
        else
          match provider_name with
          | None => ereport ERROR "key provider name cannot be null"
          | Some provider_name => mret (key_name, provider_name)
          end
    end.

Definition open_pg_tde_create_principal_key_internal (providerOid : Z) (key_name provider_name : option bytes)
  : M unit :=
  '(key_name, provider_name) ← check_key_arguments providerOid key_name provider_name;
  provider ← GetKeyProviderByName provider_name providerOid;
  '(key_info, return_code) ← KeyringGetKey provider key_name;
  match key_info with
  | Some _ => ereport ERROR "cannot create key because it already exists"
  | None =>
      key_length ← gets (λ w, KeyLength (w_session w));
      KeyringGenerateNewKeyAndStore provider key_name key_length;;
      mret tt
  end.

Definition open_pg_tde_create_key_using_database_key_provider (key_name provider_name : option bytes) : M unit :=
  db ← gets (λ w, MyDatabaseId (w_session w));
  open_pg_tde_create_principal_key_internal db key_name provider_name.

Definition open_pg_tde_create_key_using_global_key_provider (key_name provider_name : option bytes) : M unit :=
  open_pg_tde_create_principal_key_internal GLOBAL_DATA_TDE_OID key_name provider_name.

Definition open_pg_tde_set_principal_key_internal (providerOid dbOid : Z) (key_name provider_name : option bytes)
  : M unit :=
  '(key_name, provider_name) ← check_key_arguments providerOid key_name provider_name;
  existingDefaultKey ←
    (if dbOid =? DEFAULT_DATA_TDE_OID then
       LWLockAcquire_enc LW_SHARED;;
       k ← GetPrincipalKeyNoDefault dbOid LW_SHARED;
       LWLockRelease_enc;;
       mret k
     else mret None);
  set_principal_key_with_keyring key_name provider_name providerOid dbOid;;
  match existingDefaultKey with
  | Some existingKeyCopy =>
      if dbOid =? DEFAULT_DATA_TDE_OID then
        LWLockAcquire_enc LW_EXCLUSIVE;;
        newDefaultKey ← GetPrincipalKeyNoDefault dbOid LW_EXCLUSIVE;
        match newDefaultKey with
        | Some newDefaultKey =>
            open_pg_tde_update_default_principal_key_everywhere existingKeyCopy newDefaultKey
        | None => ereport PANIC "NULL pointer dereference"
        end;;
        LWLockRelease_enc
      else mret tt
  | None => mret tt
  end.

Definition open_pg_tde_set_default_key_using_global_key_provider (key_name provider_name : option bytes) : M unit :=
  open_pg_tde_set_principal_key_internal GLOBAL_DATA_TDE_OID DEFAULT_DATA_TDE_OID key_name provider_name;;
  LWLockAcquire_enc LW_SHARED;;
  server_key ← GetPrincipalKeyNoDefault GLOBAL_DATA_TDE_OID LW_SHARED;
  LWLockRelease_enc;;
  match server_key with
  | None => open_pg_tde_set_principal_key_internal GLOBAL_DATA_TDE_OID GLOBAL_DATA_TDE_OID key_name provider_name
  | Some _ => mret tt
  end.

Definition open_pg_tde_set_key_using_database_key_provider (key_name provider_name : option bytes) : M unit :=
  db ← gets (λ w, MyDatabaseId (w_session w));
  open_pg_tde_set_principal_key_internal db db key_name provider_name.

Definition open_pg_tde_set_key_using_global_key_provider (key_name provider_name : option bytes) : M unit :=
  db ← gets (λ w, MyDatabaseId (w_session w));
  open_pg_tde_set_principal_key_internal GLOBAL_DATA_TDE_OID db key_name provider_name.

Definition open_pg_tde_set_server_key_using_global_key_provider (key_name provider_name : option bytes) : M unit :=
  open_pg_tde_set_principal_key_internal GLOBAL_DATA_TDE_OID GLOBAL_DATA_TDE_OID key_name provider_name.

(** ** Deleting keys *)

Definition open_pg_tde_delete_key : M unit :=
  db ← gets (λ w, MyDatabaseId (w_session w));
  LWLockAcquire_enc LW_EXCLUSIVE;;
  principal_key ← GetPrincipalKeyNoDefault db LW_EXCLUSIVE;
  match principal_key with
  | None => ereport ERROR "principal key does not exists for the database"
  | Some principal_key =>
      count ← open_pg_tde_count_encryption_keys db InvalidOid;
      if negb (count =? 0) then
        default_principal_key ← GetPrincipalKeyNoDefault DEFAULT_DATA_TDE_OID LW_EXCLUSIVE;
        match default_principal_key with
        | None => ereport ERROR "cannot delete principal key"
        | Some default_principal_key =>
            if open_pg_tde_is_same_principal_key (Some principal_key) (Some default_principal_key)
            then ereport ERROR "cannot delete principal key"
            else
              open_pg_tde_rotate_default_key_for_database principal_key default_principal_key;;
              LWLockRelease_enc
        end
      else
        open_pg_tde_delete_principal_key db;;
        clear_principal_key_cache db;;
        LWLockRelease_enc
  end.

(** The databases that use the default key; an error if one of them has
    encrypted relations. *)
Fixpoint default_users_loop (default_principal_key : TDEPrincipalKey) (scan dbs : list Z) : M (list Z) :=
  match scan with
  | [] => mret dbs
  | dbOid :: scan =>
      principal_key ← GetPrincipalKeyNoDefault dbOid LW_EXCLUSIVE;
      if open_pg_tde_is_same_principal_key (Some default_principal_key) principal_key then
        count ← open_pg_tde_count_encryption_keys dbOid InvalidOid;
        if negb (count =? 0) then ereport ERROR "cannot delete default principal key"
        else default_users_loop default_principal_key scan (dbs ++ [dbOid])
      else default_users_loop default_principal_key scan dbs
  end.

Fixpoint delete_keys_loop (dbs : list Z) : M unit :=
  match dbs with
  | [] => mret tt
  | dbOid :: dbs =>
      open_pg_tde_delete_principal_key dbOid;;
      clear_principal_key_cache dbOid;;
      delete_keys_loop dbs
  end.

Definition open_pg_tde_delete_default_key : M unit :=
  superuser ← gets (λ w, is_superuser (w_session w));
  if negb superuser then ereport ERROR "must be superuser to access global key providers"
  else
    LWLockAcquire_enc LW_EXCLUSIVE;;
    default_principal_key ← GetPrincipalKeyNoDefault DEFAULT_DATA_TDE_OID LW_EXCLUSIVE;
    match default_principal_key with
    | None => ereport ERROR "default principal key is not set"
    | Some default_principal_key =>
        scan ← gets pg_database;
        dbs ← default_users_loop default_principal_key scan [];
        principal_key ← GetPrincipalKeyNoDefault GLOBAL_DATA_TDE_OID LW_EXCLUSIVE;
        (if open_pg_tde_is_same_principal_key (Some default_principal_key) principal_key then
           count ← open_pg_tde_count_wal_ranges_in_file;
           if negb (count =? 0) then ereport ERROR "cannot delete default principal key"
           else
             open_pg_tde_delete_server_key;;
             clear_principal_key_cache GLOBAL_DATA_TDE_OID
         else mret tt);;
        delete_keys_loop dbs;;
        open_pg_tde_delete_principal_key DEFAULT_DATA_TDE_OID;;
        clear_principal_key_cache DEFAULT_DATA_TDE_OID;;
        LWLockRelease_enc
    end.

(** ** Information and verification *)

(** Name, name of the provider, its id, and the creation time; [None] is a row
    of NULLs. *)
Definition open_pg_tde_get_key_info (dbOid : Z) : M (option (bytes * bytes * Z * Z)) :=
  LWLockAcquire_enc LW_SHARED;;
  principal_key ← GetPrincipalKeyNoDefault dbOid LW_SHARED;
  r ← match principal_key with
      | None => mret None
      | Some pk =>
          let i := pk_keyInfo pk in
          keyring ← GetKeyProviderByID (i32 (pki_keyringId i)) (pki_databaseId i);
          match keyring with
          | None => ereport PANIC "pfree of a NULL pointer"
          | Some keyring =>
              let ts := tv_sec (pki_creationTime i) - (2451545 - 2440588) * 86400 in
              let ts := i64 (i64 (ts * 1000000) + tv_usec (pki_creationTime i)) in
              mret (Some (cstr (pki_name i), cstr (kr_provider_name keyring),
                          i32 (pki_keyringId i), ts))
          end
      end;
  LWLockRelease_enc;;
  mret r.

Definition open_pg_tde_key_info : M (option (bytes * bytes * Z * Z)) :=
  db ← gets (λ w, MyDatabaseId (w_session w)); open_pg_tde_get_key_info db.
Definition open_pg_tde_server_key_info : M (option (bytes * bytes * Z * Z)) :=
  open_pg_tde_get_key_info GLOBAL_DATA_TDE_OID.
Definition open_pg_tde_default_key_info : M (option (bytes * bytes * Z * Z)) :=
  open_pg_tde_get_key_info DEFAULT_DATA_TDE_OID.

Definition open_pg_tde_verify_principal_key_internal (databaseOid : Z) : M unit :=
  LWLockAcquire_enc LW_EXCLUSIVE;;
  fromKeyring ← get_principal_key_from_keyring databaseOid;
  fromCache ← get_principal_key_from_cache databaseOid;
  match fromKeyring with
  | None => ereport ERROR "principal key not configured for current database"
  | Some fromKeyring =>
      if match fromCache with
         | Some fromCache =>
             negb (pk_keyLength fromKeyring =? pk_keyLength fromCache) ||
             negb (memcmp_eq (pk_keyData fromKeyring) (pk_keyData fromCache) (pk_keyLength fromCache))
         | None => false
         end
      then ereport ERROR "key returned from keyring and cached in open_pg_tde differ"
      else LWLockRelease_enc
  end.

Definition open_pg_tde_verify_key : M unit :=
  db ← gets (λ w, MyDatabaseId (w_session w)); open_pg_tde_verify_principal_key_internal db.
Definition open_pg_tde_verify_server_key : M unit :=
  open_pg_tde_verify_principal_key_internal GLOBAL_DATA_TDE_OID.
Definition open_pg_tde_verify_default_key : M unit :=
  open_pg_tde_verify_principal_key_internal DEFAULT_DATA_TDE_OID.

(** ** Checks before a provider is changed *)

(** [principal_key != NULL && providerId == principal_key->keyInfo.keyringId] *)
Definition uses_provider (pk : option TDEPrincipalKey) (providerId : Z) : bool :=
  match pk with
  | Some pk => providerId =? pki_keyringId (pk_keyInfo pk)
  | None => false
  end.

Fixpoint provider_used_loop (scan : list Z) (providerId : Z) : M bool :=
  match scan with
  | [] => mret false
  | dbOid :: scan =>
      principal_key ← GetPrincipalKeyNoDefault dbOid LW_EXCLUSIVE;
      if uses_provider principal_key providerId then mret true
      else provider_used_loop scan providerId
  end.

Definition open_pg_tde_is_provider_used (databaseOid providerId : Z) : M bool :=
  LWLockAcquire_enc LW_EXCLUSIVE;;
  if (databaseOid =? GLOBAL_DATA_TDE_OID) || (databaseOid =? DEFAULT_DATA_TDE_OID) then
    principal_key ← GetPrincipalKeyNoDefault GLOBAL_DATA_TDE_OID LW_EXCLUSIVE;
    if uses_provider principal_key providerId then LWLockRelease_enc;; mret true
    else
      principal_key ← GetPrincipalKeyNoDefault DEFAULT_DATA_TDE_OID LW_EXCLUSIVE;
      if uses_provider principal_key providerId then LWLockRelease_enc;; mret true
      else
        scan ← gets pg_database;
        used ← provider_used_loop scan providerId;
        LWLockRelease_enc;;
        mret used
  else
    principal_key ← GetPrincipalKeyNoDefault databaseOid LW_EXCLUSIVE;
    LWLockRelease_enc;;
    mret (uses_provider principal_key providerId).

(** The check of one key file. *)
Definition verify_key_in_use (modified_provider : GenericKeyring) (existing : option TDESignedPrincipalKeyInfo)
  (failed_to_retrieve not_found does_not_match : string) : M unit :=
  match existing with
  | None => mret tt
  | Some existing =>
      if negb (pki_keyringId (spki_data existing) =? u32 (kr_keyring_id modified_provider)) then mret tt
      else
        '(proposed_key, return_code) ← KeyringGetKey modified_provider (pki_name (spki_data existing));
        if negb (bool_decide (return_code = KEYRING_CODE_SUCCESS)) then ereport ERROR failed_to_retrieve
        else
          match proposed_key with
          | None => ereport ERROR not_found
          | Some proposed_key =>
              ok ← open_pg_tde_verify_principal_key_info existing (ki_data proposed_key);
              if negb ok then ereport ERROR does_not_match else mret tt
          end
  end.

Fixpoint verify_databases_loop (modified_provider : GenericKeyring) (scan : list Z) : M unit :=
  match scan with
  | [] => mret tt
  | dbOid :: scan =>
      existing ← open_pg_tde_get_principal_key_info dbOid;
      verify_key_in_use modified_provider existing
        "failed to retreive key used by database from modified key provider"
        "key used by database not found in modified key provider"
        "key from modified key provider does not match existing key used by database";;
      verify_databases_loop modified_provider scan
  end.

Definition open_pg_tde_verify_provider_keys_in_use (modified_provider : GenericKeyring) : M unit :=
  LWLockAcquire_enc LW_EXCLUSIVE;;
  existing ← open_pg_tde_get_server_key_info;
  verify_key_in_use modified_provider existing
    "failed to retreive key used as server key from modified key provider"
    "key used as server key not found in modified key provider"
    "key from modified key provider does not match existing server key";;
  scan ← gets pg_database;
  verify_databases_loop modified_provider scan;;
  LWLockRelease_enc.

End principal_key.
