(* ===== verification/PrincipalKeyThms.v ===== *)
(** Properties of the principal keys: the function GetPrincipalKey keeps what
    the key files rely on, the default key is adopted, setting a key keeps the
    relation keys, keys in use are not deleted, and keys are verified against
    the signature in the key file. *)
From S2P Require Import Prelude Types Environ Instances Ciphers EncTde KeyFile KeyMap KeyMapSpec WalKeys.
From S2P Require Import WalKeysSpec Keyring KeyringThms PrincipalKey.

(** Memory can be locked. *)
Class MlockWorks `(SV : Server) := mlock_works : ∀ w, mlock w = true.

Section cache.
Context {SSL : OpenSSL} {K : Kernel} {PP : PgPort} {NK : NetworkKeyrings} {PR : Providers}.
Context {SV : Server} {ML : MlockWorks SV}.

Lemma nodefault_cached db m pk w :
  w_pk_cache w !! db = Some pk → GetPrincipalKeyNoDefault db m w = Ok (Some pk) w.
Proof.
  intros E. unfold GetPrincipalKeyNoDefault, get_principal_key_from_cache. mstep. by rewrite E.
Qed.

(** ** The interface to the key files *)

#[export] Instance backend_keys : PrincipalKeys := {| GetPrincipalKey := backend_GetPrincipalKey |}.

#[export] Instance backend_keys_spec : PrincipalKeysSpec backend_keys.
Proof.
  split. intros db m pk w E. simpl. unfold backend_GetPrincipalKey.
  by rewrite (bind_ok _ _ _ _ _ (nodefault_cached db m pk w E)).
Qed.

Lemma push_new pk w :
  w_pk_cache w !! pki_databaseId (pk_keyInfo pk) = None →
  push_principal_key_to_cache pk w =
    Ok tt (set_pk_cache (<[pki_databaseId (pk_keyInfo pk) := pk]> (w_pk_cache w)) w).
Proof.
  intros E. unfold push_principal_key_to_cache. mstep. rewrite E. mstep. mstep. by rewrite mlock_works.
Qed.

(** A rotation replaces the entry of the cache. *)
Lemma clear_push db pk w :
  pki_databaseId (pk_keyInfo pk) = db →
  (clear_principal_key_cache db;; push_principal_key_to_cache pk) w =
    Ok tt (set_pk_cache (<[db := pk]> (w_pk_cache w)) w).
Proof.
  intros <-. unfold clear_principal_key_cache. mstep. rewrite push_new by (simpl; apply lookup_delete_eq).
  simpl. by rewrite insert_delete_eq.
Qed.

Lemma set_lock_same m w : w_enc_lock w = Some m → set_enc_lock (Some m) w = w.
Proof. destruct w; simpl. by intros ->. Qed.

(** The lock is made exclusive before a key is fetched. *)
Lemma to_exclusive m w :
  w_enc_lock w = Some m →
  (if bool_decide (m = LW_EXCLUSIVE) then mret tt else LWLockRelease_enc;; LWLockAcquire_enc LW_EXCLUSIVE) w =
    Ok tt (set_enc_lock (Some LW_EXCLUSIVE) w).
Proof.
  intros E. case_bool_decide as Hm.
  - subst. by rewrite set_lock_same.
  - rewrite (bind_ok _ _ _ _ _ (release_enc_ok m w E)). by rewrite acquire_enc_ok.
Qed.

End cache.

Section ops.
Context {SSL : OpenSSL} {Spec : OpenSSLSpec SSL} {K : Kernel} {NF : NoFaults K} {RW : RandWorks SSL}.
Context {PP : PgPort} {NK : NetworkKeyrings} {PR : Providers} {SV : Server} {ML : MlockWorks SV}.

(** ** Files without and with a header *)

Lemma get_info_none db w :
  let p := open_pg_tde_set_db_file_path db in
  w_fs w !! p = None ∨ w_fs w !! p = Some [] →
  open_pg_tde_get_principal_key_info db w = Ok None w.
Proof.
  intros p [E|E]; unfold open_pg_tde_get_principal_key_info, open_pg_tde_open_file_basic, key_file_open_basic;
    fold p; rewrite bind_assoc.
  - by rewrite (bind_ok _ _ _ _ _ (open_missing p false w E)).
  - rewrite (bind_ok _ _ _ _ _ (open_existing p false w _ E)). mstep.
    cbv beta iota. by rewrite (bind_ok _ _ _ _ _ (kf_header_read_empty smgr_kind p w E : open_pg_tde_file_header_read p w = _)).
Qed.

Lemma nodefault_none db m w :
  db ≠ GLOBAL_DATA_TDE_OID → w_pk_cache w !! db = None → w_enc_lock w = Some m →
  let p := open_pg_tde_set_db_file_path db in
  w_fs w !! p = None ∨ w_fs w !! p = Some [] →
  GetPrincipalKeyNoDefault db m w = Ok None (set_enc_lock (Some LW_EXCLUSIVE) w).
Proof.
  intros Hg Hc Hl p Hp. unfold GetPrincipalKeyNoDefault, get_principal_key_from_cache. mstep. rewrite Hc.
  rewrite (bind_ok _ _ _ _ _ (to_exclusive m w Hl)). unfold get_principal_key_from_keyring.
  rewrite (proj2 (Z.eqb_neq _ _)) by done. rewrite bind_assoc.
  by rewrite (bind_ok _ _ _ _ _ (get_info_none db (set_enc_lock (Some LW_EXCLUSIVE) w) Hp)).
Qed.

Lemma with_database_ok db pk : is_u32 db → pk_ok pk → pk_ok (with_database db pk).
Proof. intros Hdb [Hk (_ & H)]. split; [done|]. split; [done|]. done. Qed.

(** ** Properties *)

(** A database without a principal key of its own adopts the default key:
    the key is written to a new key file of the database, which then
    represents no relation keys, and cached; no WAL is written and no other
    database is affected. *)
Theorem default_key_adopted db m pkd w :
  let p := open_pg_tde_set_db_file_path db in
  let pk := with_database db pkd in
  db ≠ GLOBAL_DATA_TDE_OID → db ≠ DEFAULT_DATA_TDE_OID → is_u32 db → w_enc_lock w = Some m →
  w_pk_cache w !! db = None → (w_fs w !! p = None ∨ w_fs w !! p = Some []) →
  w_pk_cache w !! DEFAULT_DATA_TDE_OID = Some pkd → pk_ok pkd →
  ∃ w', backend_GetPrincipalKey db m w = Ok (Some pk) w' ∧ db_rep w' db pk ∅ ∧ has_header w' p ∧
    w_xlog w' = w_xlog w ∧ touches p w w' ∧
    (∀ db', db' ≠ db → w_pk_cache w' !! db' = w_pk_cache w !! db').
Proof.
  intros p pk Hg Hd Hu Hl Hc Hp Hdef Hok. unfold backend_GetPrincipalKey.
  rewrite (bind_ok _ _ _ _ _ (nodefault_none db m w Hg Hc Hl Hp)). set (w1 := set_enc_lock _ w).
  rewrite (bind_ok _ _ _ _ _ (nodefault_cached DEFAULT_DATA_TDE_OID LW_EXCLUSIVE pkd w1 Hdef)).
  rewrite (proj2 (Z.eqb_neq _ _)) by done. fold pk.
  pose proof (with_database_ok db pkd Hu Hok) as Hpk. fold pk in Hpk.
  destruct (save_principal_key_spec pk false w1 Hpk) as (s & Es & Hh).
  change (pki_databaseId (pk_keyInfo pk)) with db in Es. fold p in Es.
  rewrite (bind_ok _ _ _ _ _ Es). set (w2 := set_fs _ _).
  rewrite (bind_ok _ _ _ _ _ (push_new pk w2 Hc)). set (w3 := set_pk_cache _ w2).
  assert (w_pk_cache w3 !! db = Some pk) as Hc3 by (simpl; apply lookup_insert_eq).
  assert (w_fs w3 !! p = Some (new_header s)) as Hf3 by (simpl; apply lookup_insert_eq).
  exists w3. split_and!.
  - by apply nodefault_cached.
  - split_and!; [done|done|]. by eapply header_for_rep.
  - exists (new_header s). split; [done|]. intros E. pose proof (header_ok_length _ (proj1 Hh)) as Hlen.
    by rewrite E in Hlen.
  - simpl. by rewrite app_nil_r.
  - intros q Hq. simpl. by rewrite lookup_insert_ne.
  - intros db' Hne. simpl. by rewrite lookup_insert_ne.
Qed.

(** ** Setting a key *)

(** In state [w] the provider offers a key under the name. *)
Definition offers (w : World) (provider_name : bytes) (providerOid : Z) (key_name : bytes)
  (kr : GenericKeyring) (ki : KeyInfo) : Prop :=
  GetKeyProviderByName provider_name providerOid w = Ok kr w ∧
  KeyringGetKey kr key_name w = Ok (Some ki, KEYRING_CODE_SUCCESS) w ∧ KeyInfo_wf ki.

(** The key that a provider's key becomes. *)
Definition is_key_from (pk : TDEPrincipalKey) (db : Z) (kr : GenericKeyring) (ki : KeyInfo) : Prop :=
  pki_databaseId (pk_keyInfo pk) = db ∧ pki_keyringId (pk_keyInfo pk) = u32 (kr_keyring_id kr) ∧
  pki_name (pk_keyInfo pk) = ki_name ki ∧
  pk_key_bytes pk = take (Z.to_nat (kd_len (ki_data ki))) (kd_data (ki_data ki)).

Definition timeval_ok (t : timeval) : Prop :=
  - 2 ^ 63 <= tv_sec t < 2 ^ 63 ∧ - 2 ^ 63 <= tv_usec t < 2 ^ 63.

Lemma principal_key_of_ok db kr ki w :
  is_u32 db → timeval_ok (gettimeofday w) → KeyInfo_wf ki →
  (kd_len (ki_data ki) = 16 ∨ kd_len (ki_data ki) = 32) →
  ∃ pk, principal_key_of db kr ki w = Ok pk w ∧ pk_ok pk ∧ is_key_from pk db kr ki.
Proof.
  intros Hdb Ht (Hn & Hd & _) Hl. unfold principal_key_of, new_principal_key. mstep.
  destruct (uninit_ok (Z.to_nat MAX_KEY_DATA_SIZE) w) as (b & Eb & Hb). rewrite (bind_ok _ _ _ _ _ Eb).
  change (Z.to_nat MAX_KEY_DATA_SIZE) with 32%nat in Hb.
  set (n := Z.to_nat (kd_len (ki_data ki))). assert (n = 16 ∨ n = 32)%nat as Hn' by (unfold n; lia).
  assert (length (take n (kd_data (ki_data ki))) = n) as Hlen by (rewrite length_take; lia).
  eexists. split; [done|]. split.
  - split.
    + split; [|simpl; rewrite overwrite_length; fold n; lia]. simpl. lia.
    + split_and!; simpl; try apply Ht; [done|apply u32_range|done].
  - split_and!; try done. unfold pk_key_bytes. simpl. fold n.
    pose proof (slice_overwrite_same x00 0 (take n (kd_data (ki_data ki))) b) as Hs.
    rewrite Hlen in Hs. unfold slice in Hs. by rewrite drop_0 in Hs.
Qed.

(** Rotation of a database's key: file and cache change together. *)
Lemma rotate_database db pk pk' m xlog w :
  let p := open_pg_tde_set_db_file_path db in
  db ≠ GLOBAL_DATA_TDE_OID → pki_databaseId (pk_keyInfo pk) = db → pki_databaseId (pk_keyInfo pk') = db →
  pk_ok pk' → db_rep w db pk m → has_header w p →
  ∃ w', (perform_rotate pk pk' db xlog;; clear_principal_key_cache db;; push_principal_key_to_cache pk') w =
      Ok tt w' ∧ db_rep w' db pk' m ∧ has_header w' p ∧ w_enc_lock w' = w_enc_lock w ∧
      w_session w' = w_session w ∧
      w_xlog w' = w_xlog w ++ (if xlog then [XLOG_TDE_ROTATE_PRINCIPAL_KEY (rotate_record pk')] else []) ∧
      (∀ q, q ≠ p → q ≠ tmp_path p → w_fs w' !! q = w_fs w !! q) ∧
      w_pk_cache w' = <[db := pk']> (w_pk_cache w).
Proof.
  intros p Hg Hdb Hdb' Hok' (Hc & Hok & Hrep) Hh. unfold perform_rotate.
  rewrite (proj2 (Z.eqb_neq _ _)) by done.
  pose proof (perform_rotate_key_spec pk pk' m w xlog) as H. cbv zeta in H. rewrite Hdb in H.
  destruct (H Hok Hok' Hrep Hh) as (w1 & f & r & x & E & -> & -> & Hrep' & Hh' & Hq).
  rewrite (bind_ok _ _ _ _ _ E). rewrite clear_push by done.
  eexists. split; [done|]. split_and!; try done. split_and!; [simpl; apply lookup_insert_eq|done|done].
Qed.

(** The checks of the arguments pass. *)
Definition arguments_ok (w : World) (providerOid : Z) (key_name : bytes) : Prop :=
  (providerOid = GLOBAL_DATA_TDE_OID →
     is_superuser (w_session w) = true ∧ AllowInheritGlobalProviders (w_session w) = true) ∧
  (0 < length (cstr key_name) < 256)%nat.

Lemma check_key_arguments_ok providerOid key_name provider_name w :
  arguments_ok w providerOid key_name →
  check_key_arguments providerOid (Some key_name) (Some provider_name) w = Ok (key_name, provider_name) w.
Proof.
  intros [Hg Hl]. unfold check_key_arguments. mstep. mstep.
  assert ((providerOid =? GLOBAL_DATA_TDE_OID) && negb (is_superuser (w_session w)) = false ∧
          (providerOid =? GLOBAL_DATA_TDE_OID) && negb (AllowInheritGlobalProviders (w_session w)) = false)
    as [-> ->].
  { destruct (Z.eqb_spec providerOid GLOBAL_DATA_TDE_OID) as [E|E]; [|done].
    destruct (Hg E) as [-> ->]. done. }
  cbv iota. rewrite (proj2 (Nat.eqb_neq _ _)) by lia.
  rewrite (proj2 (Nat.leb_gt _ _)); [done|]. unfold PRINCIPAL_KEY_NAME_LEN, TDE_KEY_NAME_LEN. lia.
Qed.

Lemma set_key_rotates db providerOid name prov kr ki pk m w :
  let p := open_pg_tde_set_db_file_path db in
  let w1 := set_enc_lock (Some LW_EXCLUSIVE) w in
  db ≠ GLOBAL_DATA_TDE_OID → is_u32 db → w_enc_lock w = None → timeval_ok (gettimeofday w1) →
  offers w1 prov providerOid name kr ki →
  db_rep w db pk m → has_header w p → pki_databaseId (pk_keyInfo pk) = db →
  ∃ w' pk', set_principal_key_with_keyring name prov providerOid db w = Ok tt w' ∧
    db_rep w' db pk' m ∧ is_key_from pk' db kr ki ∧ has_header w' p ∧ w_enc_lock w' = None ∧
    w_session w' = w_session w ∧ w_pk_cache w' = <[db := pk']> (w_pk_cache w) ∧
    (∀ q, q ≠ p → q ≠ tmp_path p → w_fs w' !! q = w_fs w !! q).
Proof.
  intros p w1 Hg Hu Hl Ht (Ep & Ek & Hwf) Hrep Hh Hdb. unfold set_principal_key_with_keyring.
  rewrite (bind_ok _ _ _ _ _ (acquire_enc_ok LW_EXCLUSIVE w Hl)). fold w1.
  rewrite (bind_ok _ _ _ _ _ (nodefault_cached db LW_EXCLUSIVE pk w1 (proj1 Hrep))).
  rewrite (bind_ok _ _ _ _ _ Ep), (bind_ok _ _ _ _ _ Ek). cbv beta iota. rewrite bool_decide_true by done.
  cbv [negb]. destruct (handed_out_key_valid _ _ _ _ _ _ Ek) as (_ & _ & Hlen).
  destruct (principal_key_of_ok db kr ki w1 Hu Ht Hwf Hlen) as (pk' & En & Hok' & Hfrom).
  rewrite (bind_ok _ _ _ _ _ En). rewrite Hdb.
  destruct (rotate_database db pk pk' m true w1 Hg Hdb (proj1 Hfrom) Hok' Hrep Hh)
    as (w2 & E & Hrep' & Hh' & Hl' & Hs' & _ & Hq & Hc).
  rewrite (bind_ok _ _ _ _ _ E). rewrite (release_enc_ok LW_EXCLUSIVE) by (by rewrite Hl').
  eexists _, pk'. split; [done|]. split_and!; done.
Qed.

(** C9: setting another principal key for a database keeps every relation key:
    the new key is taken from the provider, the key file is signed and
    encrypted with it, the cache holds it, and looking a relation up afterwards
    gives the same relation key as before. *)
Theorem set_key_keeps_relation_keys db providerOid name prov kr ki pk m w :
  let p := open_pg_tde_set_db_file_path db in
  let w1 := set_enc_lock (Some LW_EXCLUSIVE) w in
  db ≠ GLOBAL_DATA_TDE_OID → db ≠ DEFAULT_DATA_TDE_OID → is_u32 db → w_enc_lock w = None →
  arguments_ok w providerOid name → timeval_ok (gettimeofday w1) →
  offers w1 prov providerOid name kr ki →
  db_rep w db pk m → has_header w p → pki_databaseId (pk_keyInfo pk) = db →
  ∃ w' pk', open_pg_tde_set_principal_key_internal providerOid db (Some name) (Some prov) w = Ok tt w' ∧
    is_key_from pk' db kr ki ∧ db_rep w' db pk' m ∧ w_enc_lock w' = None ∧
    (∀ rel lk, dbOid rel = db → relNumber rel ≠ 0 → m !! rel_loc rel = Some lk →
       ∃ k, open_pg_tde_get_smgr_key rel w' = Ok (Some k) w' ∧ lkey k = lk).
Proof.
  intros p w1 Hg Hd Hu Hl Ha Ht Ho Hrep Hh Hdb. unfold open_pg_tde_set_principal_key_internal.
  rewrite (bind_ok _ _ _ _ _ (check_key_arguments_ok _ _ prov _ Ha)). cbv beta iota.
  rewrite (proj2 (Z.eqb_neq _ _)) by done. mstep.
  destruct (set_key_rotates db providerOid name prov kr ki pk m w Hg Hu Hl Ht Ho Hrep Hh Hdb)
    as (w' & pk' & E & Hrep' & Hfrom & _ & Hl' & _).
  rewrite (bind_ok _ _ _ _ _ E). exists w', pk'. split_and!; try done.
  intros rel lk <- Hn Hm. pose proof (get_smgr_key_spec rel pk' m w' Hrep' Hl' Hn) as Hget.
  rewrite Hm in Hget. destruct Hget as (k & Ek & Hk & _). eauto.
Qed.

(** ** Verification *)

Lemma key_bytes_of_new info data w pk w' :
  length (kd_data data) = 32%nat → (kd_len data = 16 ∨ kd_len data = 32) →
  new_principal_key info data w = Ok pk w' →
  pk_keyInfo pk = info ∧ pk_key_bytes pk = take (Z.to_nat (kd_len data)) (kd_data data).
Proof.
  intros Hd Hl E. unfold new_principal_key in E. minv E. injection E as <- _. split; [done|].
  unfold pk_key_bytes. simpl. set (n := Z.to_nat (kd_len data)).
  pose proof (slice_overwrite_same x00 0 (take n (kd_data data)) r) as Hs.
  rewrite length_take, Nat.min_l in Hs by lia. unfold slice in Hs. by rewrite drop_0 in Hs.
Qed.

(** C28: a principal key is taken from a provider only if the signature in the
    header of the key file verifies under it; the key then carries the name,
    the provider and the database of that header. *)
Theorem fetched_key_verified `{!NetworkKeyringsSpec} db w pk w' h r :
  let s := fh_signed_key_info (KeyFileHeader_decode h) in
  db ≠ GLOBAL_DATA_TDE_OID → w_fs w !! open_pg_tde_set_db_file_path db = Some (h ++ r) →
  length h = 320%nat → get_principal_key_from_keyring db w = Ok (Some pk) w' →
  pk_keyInfo pk = spki_data s ∧
  is_Some (gcm_open (pk_key_bytes pk) (spki_sign_iv s) (PKInfo_encode (spki_data s)) [] (spki_aead_tag s)).
Proof.
  intros s Hg Hf Hl E. unfold get_principal_key_from_keyring in E.
  rewrite (proj2 (Z.eqb_neq _ _)) in E by done. minv E.
  assert (r0 = Some s ∨ r0 = None) as [-> | ->]; [|clear E0|done].
  { unfold open_pg_tde_get_principal_key_info in E0. minv E0.
    unfold open_pg_tde_open_file_basic, key_file_open_basic in E1.
    rewrite (bind_ok _ _ _ _ _ (open_existing _ false w _ Hf)) in E1. injection E1 as <- <-.
    rewrite (bind_ok _ _ _ _ _ (header_read_ok _ h r w Hf Hl)) in E0.
    destruct (negb _); [done|]. injection E0 as <- _. by left. }
  assert (SignedPKInfo_wf s) as (_ & Hiv & Htag).
  { apply SignedPKInfo_decode_wf. rewrite slice_length. lia. }
  minv E. destruct r0 as [kr|]; [|done]. minv E. destruct r0 as [[ki|] c]; [|by destruct (negb _)].
  pose proof (KeyringGetKey_wf _ _ _ _ _ _ E1) as (_ & Hd & _).
  destruct (handed_out_key_valid _ _ _ _ _ _ E1) as (-> & _ & Hlen).
  cbv beta iota in E. rewrite bool_decide_true in E by done. cbv [negb] in E.
  minv E. unfold open_pg_tde_verify_principal_key_info in E2.
  change (Z.of_nat MAP_ENTRY_IV_SIZE) with 16 in E2.
  assert (gcm_key_len_ok (kd_data (ki_data ki)) (kd_len (ki_data ki))) as Hk by (split; [done|unfold KEY_DATA_SIZE_128, KEY_DATA_SIZE_256 in Hlen; lia]).
  rewrite (bind_ok _ _ _ _ _ (AesGcmDecrypt_ok _ _ _ _ _ _ w2 Hk Hiv Htag)) in E2.
  injection E2 as <- <-. case_bool_decide as Hs; [|done]. minv E. injection E as -> _.
  destruct (key_bytes_of_new _ _ _ _ _ Hd Hlen E2) as [-> ->]. done.
Qed.

(** ** Deleting keys *)

(** The cache answers for the default key, or there is none. *)
Definition default_known (w : World) (od : option TDEPrincipalKey) : Prop :=
  match od with
  | Some pkd => w_pk_cache w !! DEFAULT_DATA_TDE_OID = Some pkd ∧ pk_ok pkd
  | None => w_pk_cache w !! DEFAULT_DATA_TDE_OID = None ∧
            w_fs w !! open_pg_tde_set_db_file_path DEFAULT_DATA_TDE_OID = None
  end.

Lemma nodefault_known od w :
  default_known w od → w_enc_lock w = Some LW_EXCLUSIVE →
  GetPrincipalKeyNoDefault DEFAULT_DATA_TDE_OID LW_EXCLUSIVE w = Ok od w.
Proof.
  destruct od as [pkd|]; intros [H1 H2] Hl.
  - by apply nodefault_cached.
  - rewrite (nodefault_none _ LW_EXCLUSIVE) by (try done; by left). by rewrite set_lock_same.
Qed.

(** Deleting the principal key of a database removes it only when no
    relation is encrypted. Otherwise the relation keys are moved to the default
    principal key, and if that is missing or the same key, the call fails and
    changes neither files nor cache. *)
Theorem delete_key_keeps_relation_keys db pk m od w :
  let p := open_pg_tde_set_db_file_path db in
  db = MyDatabaseId (w_session w) → db ≠ GLOBAL_DATA_TDE_OID → is_u32 db → w_enc_lock w = None →
  db_rep w db pk m → has_header w p → pki_databaseId (pk_keyInfo pk) = db → default_known w od →
  if decide (m = ∅) then
    ∃ w', open_pg_tde_delete_key w = Ok tt w' ∧ w_fs w' !! p = None ∧ w_pk_cache w' !! db = None ∧ touches p w w'
  else if open_pg_tde_is_same_principal_key (Some pk) od || bool_decide (od = None) then
    ∃ e w', open_pg_tde_delete_key w = Err e w' ∧ w_fs w' = w_fs w ∧ w_pk_cache w' = w_pk_cache w
  else
    ∃ w' pk', open_pg_tde_delete_key w = Ok tt w' ∧ with_database db <$> od = Some pk' ∧ db_rep w' db pk' m.
Proof.
  intros p Hdb Hg Hu Hl Hrep Hh Hid Hod. unfold open_pg_tde_delete_key. mstep. rewrite <-Hdb.
  rewrite (bind_ok _ _ _ _ _ (acquire_enc_ok LW_EXCLUSIVE w Hl)). set (w1 := set_enc_lock _ w).
  rewrite (bind_ok _ _ _ _ _ (nodefault_cached db LW_EXCLUSIVE pk w1 (proj1 Hrep))).
  rewrite (bind_ok _ _ _ _ _ (count_encryption_keys_spec db pk m w1 (proj2 (proj2 Hrep)))).
  destruct (decide (m = ∅)) as [->|Hm].
  - rewrite map_size_empty. change (negb (Z.of_nat 0 =? 0)) with false. cbv iota.
    destruct Hh as (bs & Hf & _). unfold open_pg_tde_delete_principal_key. rewrite bind_assoc. mstep.
    rewrite (bind_ok _ _ _ _ _ (unlink_ok p true (set_xlog (w_xlog w1 ++ _) w1) bs Hf)).
    unfold clear_principal_key_cache. mstep. rewrite (release_enc_ok LW_EXCLUSIVE) by done.
    eexists. split; [done|]. simpl. split_and!; [apply lookup_delete_eq|apply lookup_delete_eq|].
    intros q Hq. simpl. by rewrite lookup_delete_ne.
  - rewrite (proj2 (Z.eqb_neq _ _)) by (intros E; apply Hm, map_size_empty_inv; lia). cbv [negb].
    rewrite (bind_ok _ _ _ _ _ (nodefault_known od w1 Hod eq_refl)).
    destruct od as [pkd|]; [|by eexists _, _].
    destruct (open_pg_tde_is_same_principal_key _ _); [by eexists _, _|]. cbn [orb].
    rewrite bool_decide_false by done.
    pose proof (with_database_ok db pkd Hu (proj2 Hod)) as Hok'.
    unfold open_pg_tde_rotate_default_key_for_database. rewrite Hid.
    destruct (rotate_database db pk (with_database db pkd) m true w1 Hg Hid eq_refl Hok' Hrep Hh)
      as (w2 & E & Hrep' & _ & Hl' & _).
    rewrite (bind_ok _ _ _ _ _ E). rewrite (release_enc_ok LW_EXCLUSIVE) by (by rewrite Hl').
    eexists _, _. split; [done|]. split; done.
Qed.

Lemma default_users_loop_spec pkd scan dbs w :
  (∀ db, db ∈ scan → ∃ pk m, db_rep w db pk m) →
  (∃ dbs', default_users_loop pkd scan dbs w = Ok dbs' w ∧
     ∀ db pk m, db ∈ scan → db_rep w db pk m →
       open_pg_tde_is_same_principal_key (Some pkd) (Some pk) = true → m = ∅) ∨
  (∃ e, default_users_loop pkd scan dbs w = Err e w).
Proof.
  revert dbs. induction scan as [|db scan IH]; intros dbs Hk; cbn [default_users_loop].
  { left. exists dbs. split; [done|]. intros db pk m H. by apply elem_of_nil in H. }
  destruct (Hk db) as (pk & m & Hrep); [by apply list_elem_of_here|].
  rewrite (bind_ok _ _ _ _ _ (nodefault_cached db LW_EXCLUSIVE pk w (proj1 Hrep))).
  assert (∀ db', db' ∈ scan → ∃ pk m, db_rep w db' pk m) as Hk'
    by (intros; apply Hk; by apply list_elem_of_further).
  cbv beta. destruct (open_pg_tde_is_same_principal_key (Some pkd) (Some pk)) eqn:Es.
  - rewrite (bind_ok _ _ _ _ _ (count_encryption_keys_spec db pk m w (proj2 (proj2 Hrep)))).
    destruct (Z.eqb_spec (Z.of_nat (size m)) 0) as [E0|E0]; cbv [negb]; [|by right; eexists].
    destruct (IH (dbs ++ [db]) Hk') as [(dbs' & E & H)|?]; [|by right]. left. exists dbs'.
    split; [done|]. intros db' pk' m' [->|Hin]%elem_of_cons Hrep' Hs; [|by eapply H].
    pose proof (count_encryption_keys_spec db pk' m' w (proj2 (proj2 Hrep'))) as E1.
    rewrite (count_encryption_keys_spec db pk m w (proj2 (proj2 Hrep))) in E1. injection E1 as E1.
    apply map_size_empty_inv. lia.
  - destruct (IH dbs Hk') as [(dbs' & E & H)|?]; [|by right]. left. exists dbs'. split; [done|].
    intros db' pk' m' [->|Hin]%elem_of_cons Hrep' Hs; [|by eapply H].
    destruct Hrep as (Hc & _), Hrep' as (Hc' & _). congruence.
Qed.

(** The default principal key is not deleted while a database that uses it
    has encrypted relations: the call fails and changes neither files nor
    cache. *)
Theorem default_key_in_use_kept pkd db pk m w :
  is_superuser (w_session w) = true → w_enc_lock w = None →
  w_pk_cache w !! DEFAULT_DATA_TDE_OID = Some pkd →
  let w1 := set_enc_lock (Some LW_EXCLUSIVE) w in
  (∀ db, db ∈ pg_database w1 → ∃ pk m, db_rep w db pk m) →
  db ∈ pg_database w1 → db_rep w db pk m → m ≠ ∅ →
  open_pg_tde_is_same_principal_key (Some pkd) (Some pk) = true →
  ∃ e w', open_pg_tde_delete_default_key w = Err e w' ∧ w_fs w' = w_fs w ∧ w_pk_cache w' = w_pk_cache w.
Proof.
  intros Hsu Hl Hd w1 Hall Hin Hrep Hm Hs. unfold open_pg_tde_delete_default_key. mstep. rewrite Hsu.
  cbv [negb]. rewrite (bind_ok _ _ _ _ _ (acquire_enc_ok LW_EXCLUSIVE w Hl)). fold w1.
  rewrite (bind_ok _ _ _ _ _ (nodefault_cached DEFAULT_DATA_TDE_OID LW_EXCLUSIVE pkd w1 Hd)). mstep.
  destruct (default_users_loop_spec pkd (pg_database w1) [] w1 Hall) as [(dbs & E & H)|[e E]].
  - by destruct Hm, (H db pk m Hin Hrep Hs).
  - exists e, w1. split; [|done]. by rewrite (bind_err _ _ _ _ _ E).
Qed.

End ops.

(** ** Concrete servers *)

Definition kr1 : GenericKeyring :=
  mkGenericKeyring FILE_KEY_PROVIDER (-1) (char_array 128 [x61]) (char_array 1024 []) (FileKeyring (Some "/keys")).
Definition kr2 : GenericKeyring :=
  mkGenericKeyring FILE_KEY_PROVIDER (-2) (char_array 128 [x62]) (char_array 1024 []) (FileKeyring (Some "/keys2")).

(** Two global providers, "a" and "b"; the second can be replaced. *)
Definition two_providers (second : GenericKeyring) : Providers :=
  {| GetKeyProviderByName n _ :=
       if decide (cstr n = [x61]) then mret kr1 else if decide (cstr n = [x62]) then mret second
       else ereport ERROR "key provider does not exists";
     GetKeyProviderByID id _ :=
       mret (if id =? -1 then Some kr1 else if id =? -2 then Some second else None) |}.

#[local] Instance ToyProviders : Providers := two_providers kr2.

#[local] Instance ToyServer : Server :=
  {| pg_database _ := [5]; gettimeofday _ := mkTimeval 1700000000 0; mlock _ := true |}.

#[local] Instance ToyMlock : MlockWorks ToyServer.
Proof. done. Defined.

Definition pk_default : TDEPrincipalKey :=
  mkPrincipalKey (mkPKInfo 1663 7 (mkTimeval 1700000000 5) (char_array 256 [x64])) (replicate 32 x33) 16.

Lemma pk_default_ok : pk_ok pk_default.
Proof. split; [split; [by left|simpl; lia]|]. split_and!; simpl; try done; unfold is_u32; lia. Qed.

Lemma file_rep_proper fs fs' p pk m : fs' !! p = fs !! p → file_rep fs p pk m → file_rep fs' p pk m.
Proof. intros E. unfold file_rep. by rewrite E. Qed.

(** The server of [world_key] with other caches and other files. *)
Lemma world_key_with w :
  w_pk_cache w !! 5 = Some pk5 → w_fs w !! p5 = w_fs world_key !! p5 →
  db_rep w 5 pk5 keys1 ∧ has_header w p5.
Proof.
  intros Hc Hf. destruct world_key_facts as ((_ & Hok & Hr) & _ & (bs & Hbs & Hne)).
  split; [split_and!; [exact Hc|exact Hok|exact (file_rep_proper _ _ _ _ _ Hf Hr)]|].
  exists bs. rewrite Hf. split; [exact Hbs|exact Hne].
Qed.

#[local] Opaque world_key.
#[local] Remove Hints ToyPK : typeclass_instances.

Definition world_adopt : World :=
  set_enc_lock (Some LW_SHARED) (set_pk_cache {[DEFAULT_DATA_TDE_OID := pk_default]} world0).

Lemma default_key_adopted_witness : ∃ w',
  backend_GetPrincipalKey 5 LW_SHARED world_adopt = Ok (Some (with_database 5 pk_default)) w' ∧
  db_rep w' 5 (with_database 5 pk_default) ∅.
Proof.
  destruct (default_key_adopted 5 LW_SHARED pk_default world_adopt) as (w' & E & H & _).
  - done.
  - done.
  - unfold is_u32. lia.
  - exact eq_refl.
  - done.
  - by left.
  - done.
  - apply pk_default_ok.
  - exists w'. split; [exact E|exact H].
Defined.

Definition world_set : World := set_fs (<["/keys" := keys_file [key_ex]]> (w_fs world_key)) world_key.

Lemma world_set_facts : db_rep world_set 5 pk5 keys1 ∧ has_header world_set p5 ∧ w_enc_lock world_set = None.
Proof.
  destruct (world_key_with world_set) as [H1 H2].
  - unfold world_set. cbn [w_pk_cache set_fs]. exact (proj1 (proj1 world_key_facts)).
  - unfold world_set. cbn [w_fs set_fs]. by rewrite lookup_insert_ne.
  - split_and!; [exact H1|exact H2|]. exact (proj1 (proj2 world_key_facts)).
Qed.

Lemma world_set_offers m w :
  w_fs w !! "/keys" = Some (keys_file [key_ex]) →
  offers (set_enc_lock m w) [x61] GLOBAL_DATA_TDE_OID [x6b; x31] kr1 key_ex.
Proof.
  intros Hf. split; [done|]. split; [|apply key_ex_wf].
  rewrite (KeyringGetKey_file kr1 "/keys" [key_ex]); [reflexivity|by split| |by apply Forall_singleton].
  split; [apply Forall_singleton, key_ex_wf|]. by right.
Qed.

Lemma set_key_keeps_relation_keys_witness : ∃ w' pk' k,
  open_pg_tde_set_principal_key_internal GLOBAL_DATA_TDE_OID 5 (Some [x6b; x31]) (Some [x61]) world_set =
    Ok tt w' ∧ is_key_from pk' 5 kr1 key_ex ∧
  open_pg_tde_get_smgr_key rel1 w' = Ok (Some k) w' ∧ lkey k = lkey rel_key_example.
Proof.
  destruct world_set_facts as (Hr & Hh & Hl).
  destruct (set_key_keeps_relation_keys 5 GLOBAL_DATA_TDE_OID [x6b; x31] [x61] kr1 key_ex pk5 keys1 world_set)
    as (w' & pk' & E & Hf & _ & _ & Hk).
  - done.
  - done.
  - unfold is_u32. lia.
  - exact Hl.
  - split; [intros _; split; reflexivity|simpl; lia].
  - split; simpl; lia.
  - apply world_set_offers. unfold world_set. cbn [w_fs set_fs]. apply lookup_insert_eq.
  - exact Hr.
  - exact Hh.
  - done.
  - destruct (Hk rel1 (lkey rel_key_example)) as (k & Ek & Hlk); [done|done|apply lookup_singleton_eq|].
    exists w', pk', k. split_and!; [exact E|exact Hf|exact Ek|exact Hlk].
Defined.

(** A server on which the key "k1" of provider "a" was set for database 5. *)
Definition world_fetch : World :=
  match set_principal_key_with_keyring [x6b; x31] [x61] GLOBAL_DATA_TDE_OID 5
          (set_fs {["/keys" := keys_file [key_ex]]} world0) with
  | Ok _ w | Err _ w => w
  end.

Definition fetch_succeeds (db : Z) (w : World) : bool :=
  match get_principal_key_from_keyring db w with Ok (Some _) _ => true | _ => false end.

Definition header_of (db : Z) (w : World) : bytes :=
  take 320 (default [] (w_fs w !! open_pg_tde_set_db_file_path db)).

Lemma world_fetch_file :
  w_fs world_fetch !! open_pg_tde_set_db_file_path 5 =
    Some (header_of 5 world_fetch ++ drop 320 (default [] (w_fs world_fetch !! open_pg_tde_set_db_file_path 5))) ∧
  length (header_of 5 world_fetch) = 320%nat.
Proof.
  unfold header_of.
  assert (bool_decide (is_Some (w_fs world_fetch !! open_pg_tde_set_db_file_path 5)) = true) as Hs
    by (vm_compute; reflexivity).
  apply bool_decide_eq_true_1 in Hs as [bs Hs].
  assert (length (take 320 (default [] (w_fs world_fetch !! open_pg_tde_set_db_file_path 5))) = 320%nat) as Hl
    by (vm_compute; reflexivity).
  rewrite Hs in *. cbn [default from_option id]. split; [by rewrite take_drop|exact Hl].
Qed.

Lemma fetched_key_verified_witness : ∃ pk w',
  get_principal_key_from_keyring 5 world_fetch = Ok (Some pk) w' ∧
  pk_keyInfo pk = spki_data (fh_signed_key_info (KeyFileHeader_decode (header_of 5 world_fetch))).
Proof.
  assert (fetch_succeeds 5 world_fetch = true) as Hb by (vm_compute; reflexivity).
  unfold fetch_succeeds in Hb.
  destruct (get_principal_key_from_keyring 5 world_fetch) as [[pk|] w'|e w'] eqn:E; [|discriminate Hb..].
  exists pk, w'. split; [reflexivity|].
  eapply (fetched_key_verified 5 world_fetch pk w'); [|exact (proj1 world_fetch_file)|exact (proj2 world_fetch_file)|exact E].
  discriminate.
Defined.

(** The server of [world_key], where another default key is cached. *)
Definition world_delete : World :=
  set_pk_cache (<[DEFAULT_DATA_TDE_OID := pk_default]> (w_pk_cache world_key)) world_key.

Lemma keys1_nonempty : keys1 ≠ ∅.
Proof. apply insert_non_empty. Qed.

Lemma delete_key_keeps_relation_keys_witness : ∃ w' pk',
  open_pg_tde_delete_key world_delete = Ok tt w' ∧ pk' = with_database 5 pk_default ∧ db_rep w' 5 pk' keys1.
Proof.
  destruct (world_key_with world_delete) as [Hr Hh].
  { unfold world_delete. cbn [w_pk_cache set_pk_cache]. rewrite lookup_insert_ne by discriminate.
    exact (proj1 (proj1 world_key_facts)). }
  { reflexivity. }
  assert (MyDatabaseId (w_session world_key) = 5) as Hdb by (vm_compute; reflexivity).
  pose proof (delete_key_keeps_relation_keys 5 pk5 keys1 (Some pk_default) world_delete) as H.
  cbv zeta in H. rewrite decide_False in H by apply keys1_nonempty.
  destruct H as (w' & pk' & E & Hpk & Hrep).
  - symmetry. exact Hdb.
  - discriminate.
  - unfold is_u32. lia.
  - exact (proj1 (proj2 world_key_facts)).
  - exact Hr.
  - exact Hh.
  - reflexivity.
  - split; [|apply pk_default_ok]. unfold world_delete. cbn [w_pk_cache set_pk_cache]. apply lookup_insert_eq.
  - exists w', pk'. split_and!; [exact E|by injection Hpk|exact Hrep].
Defined.

(** The same server, where the default key is the key of database 5. *)
Definition world_in_use : World :=
  set_pk_cache (<[DEFAULT_DATA_TDE_OID := pk_example DEFAULT_DATA_TDE_OID x11]> (w_pk_cache world_key)) world_key.

Lemma default_key_in_use_kept_witness : ∃ e w',
  open_pg_tde_delete_default_key world_in_use = Err e w' ∧ w_fs w' = w_fs world_in_use.
Proof.
  destruct (world_key_with world_in_use) as [Hr Hh].
  { unfold world_in_use. cbn [w_pk_cache set_pk_cache]. rewrite lookup_insert_ne by discriminate.
    exact (proj1 (proj1 world_key_facts)). }
  { reflexivity. }
  assert (is_superuser (w_session world_key) = true) as Hsu by (vm_compute; reflexivity).
  destruct (default_key_in_use_kept (pk_example DEFAULT_DATA_TDE_OID x11) 5 pk5 keys1 world_in_use)
    as (e & w' & E & Hf & _).
  - exact Hsu.
  - exact (proj1 (proj2 world_key_facts)).
  - unfold world_in_use. cbn [w_pk_cache set_pk_cache]. apply lookup_insert_eq.
  - intros db ->%list_elem_of_singleton. exists pk5, keys1. exact Hr.
  - by apply list_elem_of_singleton.
  - exact Hr.
  - apply keys1_nonempty.
  - vm_compute. reflexivity.
  - exists e, w'. split; [exact E|exact Hf].
Defined.

(** ** A key that the verification before a change of provider overlooks *)

(** A server whose default key "k1" comes from provider "b", with no other key. *)
Definition world_default_b : World :=
  match open_pg_tde_set_principal_key_internal GLOBAL_DATA_TDE_OID DEFAULT_DATA_TDE_OID (Some [x6b; x31]) (Some [x62])
          (set_fs {["/keys2" := keys_file [key_ex]]} world0) with
  | Ok _ w | Err _ w => w
  end.

(** Provider "b" moved to a file with no keys. *)
Definition kr2_moved : GenericKeyring :=
  mkGenericKeyring FILE_KEY_PROVIDER (-2) (char_array 128 [x62]) (char_array 1024 []) (FileKeyring (Some "/empty")).

(** [open_pg_tde_verify_provider_keys_in_use] does not look at the default
    principal key: it accepts a change of the provider after which the default
    key cannot be fetched any more, although it could before. *)
Theorem verify_overlooks_default_key :
  match open_pg_tde_verify_provider_keys_in_use kr2_moved world_default_b with
  | Ok _ w' =>
      fetch_succeeds DEFAULT_DATA_TDE_OID w' = true ∧
      match @get_principal_key_from_keyring _ _ _ _ (two_providers kr2_moved) DEFAULT_DATA_TDE_OID w' with
      | Err e _ => e = mkError ERROR "key not found in key provider"
      | Ok _ _ => False
      end
  | Err _ _ => False
  end.
Proof. vm_compute. split; reflexivity. Qed.
