(* ===== verification/Startup.v ===== *)
(** open_pg_tde.c: loading the module, installing the extension in a database,
    and the migration of key files at server start.

    A directory is an entry of the file system without contents. Registering
    hooks, access methods and settings with the server and the sizes of shared
    memory are left out; the settings are fields of [Session]. The names
    [readdir] returns are an argument. *)
From S2P Require Import Prelude Types Environ Instances Ciphers TempFile EncTde KeyFile KeyMap KeyMigration WalKeys XLogSmgr.
From S2P Require Import KeyMapSpec Keyring KeyProviders PrincipalKey.

Definition KEYS_VERSION_FILE : string := "keys_version".

Definition version_file_path : string := OPEN_PG_TDE_DATA_DIR +:+ "/" +:+ KEYS_VERSION_FILE.

(** [keys_version_info]: two [int32]. *)
Record keys_version_info := mkKeysVersion { smgr_version : Z; wal_version : Z }.

Definition sizeof_keys_version_info : Z := 8.

Definition keys_version_encode (v : keys_version_info) : bytes := enc_u32 (smgr_version v) ++ enc_u32 (wal_version v).
Definition keys_version_decode (bs : bytes) : keys_version_info :=
  mkKeysVersion (i32 (le_dec (slice 0 4 bs))) (i32 (le_dec (slice 4 4 bs))).

Definition current_version : keys_version_info :=
  mkKeysVersion OPEN_PG_TDE_SMGR_FILE_MAGIC OPEN_PG_TDE_WAL_KEY_FILE_MAGIC.

Section startup.
Context {SSL : OpenSSL} {K : Kernel} {PKS : PrincipalKeys}.

(** ** Installation in a database *)

Definition extension_install (databaseId : Z) : M unit :=
  key_provider_startup_cleanup databaseId;;
  principal_key_startup_cleanup databaseId.

Definition open_pg_tde_extension_initialize : M unit :=
  db ← gets (λ w, MyDatabaseId (w_session w));
  extension_install db;;
  XLogInsert (XLOG_TDE_INSTALL_EXTENSION db).

Definition extension_install_redo (database_id : Z) : M unit := extension_install database_id.

(** ** Start of the server *)

(** A failed open gives the descriptor -1, on which the write fails; that is a
    warning. *)
Definition open_pg_tde_create_keys_version_file : M unit :=
  r ← OpenTransientFile version_file_path true true;
  match r with
  | Fd fd => pg_pwrite fd (keys_version_encode current_version) 0;; CloseTransientFile fd
  | OpenFailed _ => mret tt
  end.

(** [mkdir]: 0 on success *)
Definition MakePGDirectory (path : string) : M Z := λ w,
  match sys_fault (SysOpen path) (w_fs w) with
  | Some _ => Ok (-1) w
  | None => Ok 0 (set_fs (<[path := []]> (w_fs w)) w)
  end.

Definition open_pg_tde_init_data_dir : M unit :=
  exists_ ← access_F_OK OPEN_PG_TDE_DATA_DIR;
  if negb exists_ then
    r ← MakePGDirectory OPEN_PG_TDE_DATA_DIR;
    if r <? 0 then ereport ERROR "could not create tde directory"
    else open_pg_tde_create_keys_version_file
  else mret tt.

(** The first part of [open_pg_tde_migrate_internal_keys]: whether there is
    nothing to do. *)
Definition keys_up_to_date : M bool :=
  exists_ ← access_F_OK version_file_path;
  if negb exists_ then mret false
  else
    r ← OpenTransientFile version_file_path false false;
    match r with
    | Fd fd =>
        r ← pg_pread fd sizeof_keys_version_info 0;
        match r with
        | Some bs =>
            if negb (Z.of_nat (length bs) =? sizeof_keys_version_info)
            then ereport FATAL "internal keys version file is corrupted"
            else
              CloseTransientFile fd;;
              let curr_version := keys_version_decode bs in
              mret ((smgr_version curr_version =? OPEN_PG_TDE_SMGR_FILE_MAGIC) &&
                    (wal_version curr_version =? OPEN_PG_TDE_WAL_KEY_FILE_MAGIC))
        | None => ereport FATAL "internal keys version file is corrupted"
        end
    | OpenFailed _ => ereport FATAL "internal keys version file is corrupted"
    end.

Definition open_pg_tde_migrate_internal_keys (names : list string) : M unit :=
  up_to_date ← keys_up_to_date;
  if up_to_date : bool then mret tt
  else
    open_pg_tde_update_wal_keys_file;;
    open_pg_tde_migrate_smgr_keys_file names;;
    open_pg_tde_create_keys_version_file.

(** Whether OpenSSL uses its FIPS provider. *)
Class Fips := { RequireFips : bool; fips_active : bool }.

Definition open_pg_tde_check_fips `{Fips} : M unit :=
  if negb RequireFips then mret tt
  else if negb fips_active then ereport FATAL "open_pg_tde.require_fips is set but OpenSSL is not in FIPS mode"
  else mret tt.

(** ** Hooks *)

(** [PrincipalKeyShmemInit]: the shared hash table of keys is created empty,
    unless the segment is [found]. *)
Definition PrincipalKeyShmemInit (found : bool) : M unit :=
  if found then mret tt else modify (set_pk_cache ∅).

Definition TDEXLogSmgrShmemInit (found : bool) : M unit :=
  if found then mret tt
  else modify (λ w, set_xsmgr (mkXLogSmgrState (CurrentWalEncryptionRange (w_xsmgr w))
                                 (EncryptionCryptCtx (w_xsmgr w)) 0 0) w).

Definition tde_shmem_startup (found encrypt_xlog : bool) (names : list string) : M unit :=
  PrincipalKeyShmemInit found;;
  TDEXLogSmgrShmemInit found;;
  open_pg_tde_migrate_internal_keys names;;
  key_length ← gets (λ w, KeyLength (w_session w));
  TDEXLogSmgrInitWrite encrypt_xlog key_length.

(** Without the registration of settings, key providers, the resource and the
    storage manager. *)
Definition PG_init `{Fips} (process_shared_preload_libraries_in_progress : bool) : M unit :=
  if negb process_shared_preload_libraries_in_progress
  then ereport FATAL "open_pg_tde can only be loaded at server startup. Restart required."
  else
    open_pg_tde_init_data_dir;;
    AesInit;;
    open_pg_tde_check_fips;;
    TdeTempFileInit.

(** ** The migration runs once *)

Context {NF : NoFaults K}.

Lemma keys_version_inv : keys_version_decode (keys_version_encode current_version) = current_version.
Proof. reflexivity. Qed.

Lemma create_version_file_ok w :
  open_pg_tde_create_keys_version_file w =
    Ok tt (set_fs (<[version_file_path := keys_version_encode current_version]> (w_fs w)) w).
Proof.
  unfold open_pg_tde_create_keys_version_file. erewrite bind_ok by apply open_trunc. cbv beta iota.
  erewrite bind_ok; [|eapply (pwrite_ok _ _ _ _ []); [apply lookup_insert_eq|lia]].
  cbv beta. unfold CloseTransientFile, mret, M_ret. cbn [w_fs set_fs]. by rewrite insert_insert_eq.
Qed.

Lemma up_to_date_ok w :
  w_fs w !! version_file_path = Some (keys_version_encode current_version) → keys_up_to_date w = Ok true w.
Proof.
  intros E. unfold keys_up_to_date, access_F_OK. erewrite bind_ok by reflexivity. cbv beta.
  rewrite bool_decide_eq_true_2 by eauto. cbn [negb].
  erewrite bind_ok by (by eapply open_existing). cbv beta iota.
  by erewrite bind_ok by (eapply pread_ok; [exact E|lia]).
Qed.

(** Looking at the version file changes nothing. *)
Lemma up_to_date_same : always eq keys_up_to_date.
Proof.
  unfold keys_up_to_date. repeat (always_step || (intros w; unfold OpenTransientFile, pg_pread;
    repeat case_match; simplify_eq; reflexivity)).
Qed.

(** A server start that succeeds leaves nothing to migrate: every later
    start, whatever it finds in the directory, reads the version file, changes
    nothing and does not raise an error. *)
Theorem startup_migrates_once names w w' :
  open_pg_tde_migrate_internal_keys names w = Ok tt w' →
  ∀ names', open_pg_tde_migrate_internal_keys names' w' = Ok tt w'.
Proof.
  intros H names'. unfold open_pg_tde_migrate_internal_keys in H. minv H.
  pose proof (always_ok _ _ _ _ _ up_to_date_same E) as <-. destruct r.
  - inversion H; subst. unfold open_pg_tde_migrate_internal_keys. by erewrite bind_ok by exact E.
  - minv H. minv H. rewrite create_version_file_ok in H. simplify_eq.
    unfold open_pg_tde_migrate_internal_keys. by erewrite bind_ok by (apply up_to_date_ok, lookup_insert_eq).
Qed.

(** Loading the library into a new cluster creates the directory of the
    key files in the current format, so the first start does not migrate. *)
Theorem new_cluster_up_to_date w :
  w_fs w !! OPEN_PG_TDE_DATA_DIR = None →
  ∃ w1, open_pg_tde_init_data_dir w = Ok tt w1 ∧
        ∀ names, open_pg_tde_migrate_internal_keys names w1 = Ok tt w1.
Proof.
  intros E. unfold open_pg_tde_init_data_dir, access_F_OK, MakePGDirectory. erewrite bind_ok by reflexivity.
  cbv beta. rewrite bool_decide_eq_false_2 by (rewrite E; by intros []). cbn [negb].
  erewrite bind_ok by (cbv beta; by rewrite no_fault). cbn [Z.ltb Z.compare].
  rewrite create_version_file_ok.
  eexists; split; [done|]. intros names. unfold open_pg_tde_migrate_internal_keys.
  by erewrite bind_ok by (apply up_to_date_ok, lookup_insert_eq).
Qed.

End startup.

(** ** A cluster that is migrated *)

Lemma world_v5_migrates : ∃ w', open_pg_tde_migrate_internal_keys ["5_keys"] world_v5 = Ok tt w'.
Proof. eexists. apply is_ok_run. vm_compute. exact eq_refl. Qed.

Lemma startup_migrates_once_witness : ∃ w',
  open_pg_tde_migrate_internal_keys ["5_keys"] world_v5 = Ok tt w' ∧
  open_pg_tde_migrate_internal_keys ["5_keys"; "6_keys"] w' = Ok tt w'.
Proof.
  destruct world_v5_migrates as [w' H]. exists w'. split; [exact H|].
  exact (startup_migrates_once ["5_keys"] world_v5 w' H ["5_keys"; "6_keys"]).
Defined.

Lemma new_cluster_up_to_date_witness : ∃ w1,
  open_pg_tde_init_data_dir world0 = Ok tt w1 ∧
  ∀ names, open_pg_tde_migrate_internal_keys names w1 = Ok tt w1.
Proof. exact (new_cluster_up_to_date world0 eq_refl). Defined.
