(* ===== verification/ProviderSql.v ===== *)
(** catalog/tde_keyring.c, the SQL functions that add, change, delete and list
    key providers, with the checks they make on principal keys.

    KeyProviders gives the look-up functions that catalog/tde_principal_key.c
    relies on; here they become its [Providers] interface. Arguments of SQL
    functions that may be NULL are options. The checks of the caller of a
    set-returning function are left out: the rows are the result. *)
From S2P Require Import Prelude Types Environ Instances Ciphers EncTde KeyringOptions KeyFile KeyMap WalKeys Keyring.
From S2P Require Import KeyProviders PrincipalKey.

Section sql.
Context {SSL : OpenSSL} {K : Kernel} {PP : PgPort} {J : JsonApi} {NK : NetworkKeyrings} {SV : Server}.

#[export] Instance catalog_providers : Providers := {|
  GetKeyProviderByName := catalog_GetKeyProviderByName;
  GetKeyProviderByID := catalog_GetKeyProviderByID;
|}.

Definition check_provider_record (provider_record : KeyringProviderRecord) : M unit :=
  if kpr_provider_type provider_record =? UNKNOWN_KEY_PROVIDER then ereport ERROR "Invalid provider type."
  else
    provider ← load_keyring_provider_from_record provider_record;
    KeyringValidate provider;;
    if negb (kr_keyring_id provider =? 0) then open_pg_tde_verify_provider_keys_in_use provider else mret tt.

Definition save_new_key_provider_info (provider : KeyringProviderRecord) (databaseId : Z) : M unit :=
  check_provider_record provider;; save_new_checked provider databaseId.

Definition modify_key_provider_info (provider : KeyringProviderRecord) (databaseId : Z) : M unit :=
  check_provider_record provider;; modify_checked provider databaseId.

Definition required_text_argument (arg : option bytes) : M bytes :=
  match arg with
  | None => ereport ERROR "argument cannot be null"
  | Some value => mret (cstr value)
  end.

Definition require_superuser : M unit :=
  superuser ← gets (λ w, is_superuser (w_session w));
  if negb superuser then ereport ERROR "must be superuser to modify key providers" else mret tt.

(** The name is copied into the record without a check of its length. *)
Definition open_pg_tde_change_key_provider_internal (dbOid : Z) (provider_type provider_name options : option bytes)
  : M unit :=
  require_superuser;;
  provider_type ← required_text_argument provider_type;
  provider_name ← required_text_argument provider_name;
  options ← required_text_argument options;
  keyring ← catalog_GetKeyProviderByName provider_name dbOid;
  if Nat.leb MAX_KEYRING_OPTION_LEN (length options) then ereport ERROR "too large provider options"
  else if negb (Nat.leb (length provider_name) MAX_PROVIDER_NAME_LEN)
  then ereport PANIC "write past the end of provider_name"
  else
    modify_key_provider_info
      (mkProviderRecord (kr_keyring_id keyring) (char_array MAX_PROVIDER_NAME_LEN provider_name)
         (char_array MAX_KEYRING_OPTION_LEN options) (get_keyring_provider_from_typename provider_type)) dbOid.

Definition open_pg_tde_change_database_key_provider (provider_type provider_name options : option bytes) : M unit :=
  db ← gets (λ w, MyDatabaseId (w_session w));
  open_pg_tde_change_key_provider_internal db provider_type provider_name options.

Definition open_pg_tde_change_global_key_provider (provider_type provider_name options : option bytes) : M unit :=
  open_pg_tde_change_key_provider_internal GLOBAL_DATA_TDE_OID provider_type provider_name options.

Definition open_pg_tde_add_key_provider_internal (dbOid : Z) (provider_type provider_name options : option bytes)
  : M unit :=
  require_superuser;;
  provider_type ← required_text_argument provider_type;
  provider_name ← required_text_argument provider_name;
  options ← required_text_argument options;
  let nlen := length provider_name in
  if Nat.eqb nlen 0 then ereport ERROR "provider name is too short"
  else if Nat.leb (MAX_PROVIDER_NAME_LEN - 1) nlen then ereport ERROR "provider name is too long"
  else if Nat.leb MAX_KEYRING_OPTION_LEN (length options) then ereport ERROR "too large provider options"
  else
    save_new_key_provider_info
      (mkProviderRecord 0 (char_array MAX_PROVIDER_NAME_LEN provider_name)
         (char_array MAX_KEYRING_OPTION_LEN options) (get_keyring_provider_from_typename provider_type)) dbOid.

Definition open_pg_tde_add_database_key_provider (provider_type provider_name options : option bytes) : M unit :=
  db ← gets (λ w, MyDatabaseId (w_session w));
  open_pg_tde_add_key_provider_internal db provider_type provider_name options.

Definition open_pg_tde_add_global_key_provider (provider_type provider_name options : option bytes) : M unit :=
  open_pg_tde_add_key_provider_internal GLOBAL_DATA_TDE_OID provider_type provider_name options.

Definition open_pg_tde_delete_key_provider_internal (db_oid : Z) (provider_name : option bytes) : M unit :=
  require_superuser;;
  provider_name ← required_text_argument provider_name;
  provider ← catalog_GetKeyProviderByName provider_name db_oid;
  provider_used ← open_pg_tde_is_provider_used db_oid (u32 (kr_keyring_id provider));
  if provider_used : bool then ereport ERROR "cannot delete provider which is currently in use"
  else delete_key_provider_info provider_name db_oid.

Definition open_pg_tde_delete_database_key_provider (provider_name : option bytes) : M unit :=
  db ← gets (λ w, MyDatabaseId (w_session w));
  open_pg_tde_delete_key_provider_internal db provider_name.

Definition open_pg_tde_delete_global_key_provider (provider_name : option bytes) : M unit :=
  open_pg_tde_delete_key_provider_internal GLOBAL_DATA_TDE_OID provider_name.

(** A row: id, name, type, options. *)
Definition provider_row (keyring : GenericKeyring) : M (Z * bytes * string * bytes) :=
  match get_keyring_provider_typename (kr_type keyring) with
  | Some t => mret (kr_keyring_id keyring, cstr (kr_provider_name keyring), t, cstr (kr_options keyring))
  | None => ereport PANIC "NULL pointer dereference"
  end.

Fixpoint provider_rows (l : list GenericKeyring) : M (list (Z * bytes * string * bytes)) :=
  match l with
  | [] => mret []
  | keyring :: l =>
      row ← provider_row keyring;
      rows ← provider_rows l;
      mret (row :: rows)
  end.

Definition open_pg_tde_list_all_key_providers_internal (dbOid : Z) : M (list (Z * bytes * string * bytes)) :=
  all_providers ← GetAllKeyringProviders dbOid;
  provider_rows all_providers.

Definition open_pg_tde_list_all_database_key_providers : M (list (Z * bytes * string * bytes)) :=
  db ← gets (λ w, MyDatabaseId (w_session w));
  open_pg_tde_list_all_key_providers_internal db.

Definition open_pg_tde_list_all_global_key_providers : M (list (Z * bytes * string * bytes)) :=
  open_pg_tde_list_all_key_providers_internal GLOBAL_DATA_TDE_OID.

End sql.
