(* ===== verification/ProviderThms.v ===== *)
(** Properties of the catalogue of key providers: the file implements a list of
    records of which ids are never used twice, providers are found again,
    providers in use are neither deleted nor changed to ones that lack the
    keys, and the names of providers. *)
From S2P Require Import Prelude Types Environ Instances Ciphers EncTde KeyringOptions KeyringOptionsThms KeyFile.
From S2P Require Import KeyMap KeyMapSpec WalKeys WalKeysSpec Keyring KeyringThms KeyProviders ProviderSpec.
From S2P Require Import PrincipalKey PrincipalKeyThms ProviderSql.

(** ** What the SQL functions do to files before they write a record *)

(** Files are left alone, except that empty ones may be created. *)
Definition grows {SSL : OpenSSL} (w w' : World) : Prop :=
  ∀ q, w_fs w' !! q = w_fs w !! q ∨ (w_fs w !! q = None ∧ w_fs w' !! q = Some []).

#[export] Instance grows_preorder {SSL : OpenSSL} : PreOrder grows.
Proof.
  split; [by left|]. intros w1 w2 w3 H1 H2 q. destruct (H1 q) as [E1|[E1 E1']], (H2 q) as [E2|[E2 E2']].
  - left. congruence.
  - right. split; congruence.
  - right. split; congruence.
  - right. split; congruence.
Qed.

Lemma same_files_grows {SSL : OpenSSL} {A} (m : M A) : always same_files m → always grows m.
Proof. intros H w. specialize (H w). destruct (m w); intros q; left; by rewrite H. Qed.

(** Files stay as they are, nothing is added to the WAL, and keys stay in the
    cache. *)
Definition kept {SSL : OpenSSL} (w w' : World) : Prop :=
  (w_fs w' = w_fs w ∧ w_xlog w' = w_xlog w) ∧
  ∀ db pk, w_pk_cache w !! db = Some pk → w_pk_cache w' !! db = Some pk.

(** Nothing is added to the WAL. *)
Definition quiet {SSL : OpenSSL} (w w' : World) : Prop := w_xlog w' = w_xlog w.

#[export] Instance quiet_preorder {SSL : OpenSSL} : PreOrder quiet.
Proof. split; [done|]. unfold quiet. intros ??? H1 H2. by rewrite H2. Qed.

Lemma kept_quiet {SSL : OpenSSL} {A} (m : M A) : always kept m → always quiet m.
Proof. intros H w. specialize (H w). destruct (m w); apply H. Qed.

#[export] Instance kept_preorder {SSL : OpenSSL} : PreOrder kept.
Proof. split; [done|]. intros w1 w2 w3 [[H1 X1] G1] [[H2 X2] G2]. split; [split; congruence|auto]. Qed.

Lemma kept_files {SSL : OpenSSL} {A} (m : M A) : always kept m → always same_files m.
Proof. intros H w. specialize (H w). destruct (m w); apply H. Qed.

(** The routines of the services touch neither the files of the server nor its
    WAL nor its cache. *)
Class NetworkFiles `(NK : NetworkKeyrings) := {
  kmip_get_kept kr n : always kept (keyring_get_key keyringKmipRoutine kr n);
  openbao_get_kept kr n : always kept (keyring_get_key keyringOpenBaoRoutine kr n);
  kmip_validate_kept kr : always kept (keyring_validate keyringKmipRoutine kr);
  openbao_validate_kept kr : always kept (keyring_validate keyringOpenBaoRoutine kr);
}.

Section frames.
Context {SSL : OpenSSL} {K : Kernel} {PP : PgPort} {J : JsonApi} {NK : NetworkKeyrings} {SV : Server}.
Context {NFi : NetworkFiles NK}.

Ltac kept_prim := intros w; repeat (case_match || simplify_eq); (split; [split|]); done.

Lemma kept_open p : always kept (OpenTransientFile p false false).
Proof. unfold OpenTransientFile. kept_prim. Qed.
Lemma kept_pread p n off : always kept (pg_pread p n off).
Proof. unfold pg_pread. kept_prim. Qed.
Lemma kept_uninit n : always kept (uninit n).
Proof. unfold uninit. kept_prim. Qed.
Lemma kept_acquire m : always kept (LWLockAcquire_enc m).
Proof. unfold LWLockAcquire_enc. kept_prim. Qed.
Lemma kept_release : always kept LWLockRelease_enc.
Proof. unfold LWLockRelease_enc. kept_prim. Qed.
Lemma kept_acquire_pi m : always kept (LWLockAcquire_pi m).
Proof. unfold LWLockAcquire_pi. kept_prim. Qed.
Lemma kept_release_pi : always kept LWLockRelease_pi.
Proof. unfold LWLockRelease_pi. kept_prim. Qed.
Lemma kept_close p : always kept (CloseTransientFile p).
Proof. unfold CloseTransientFile. auto with always. Qed.

#[local] Hint Resolve kept_open kept_pread kept_uninit kept_acquire kept_release kept_acquire_pi kept_release_pi
  kept_close : always.

Lemma kept_gcm_decrypt key kl iv il aad inp tag : always kept (AesGcmDecrypt key kl iv il aad inp tag).
Proof. unfold AesGcmDecrypt, check_ssl. always_solve. Qed.

#[local] Hint Resolve kept_gcm_decrypt : always.

Lemma kept_fuel fd : always kept (file_fuel fd).
Proof. unfold file_fuel. auto with always. Qed.

Lemma kept_json es parse : always kept (json_run parse es).
Proof.
  revert parse. induction es as [|e es IH]; intros parse; cbn [json_run]; [auto with always|].
  apply (always_bind _); [|intros [p []]; auto with always].
  destruct e; cbn [json_action];
    unfold json_kring_object_start, json_kring_array_start, json_kring_object_field_start, json_kring_scalar,
      json_kring_assign_scalar; always_solve.
Qed.

#[local] Hint Resolve kept_fuel kept_json : always.

Lemma kept_parse t o buf : always kept (ParseKeyringJSONOptions t o buf).
Proof. unfold ParseKeyringJSONOptions. always_solve. Qed.

Lemma kept_fgets p n : always kept (fgets p n).
Proof. unfold fgets. kept_prim. Qed.

#[local] Hint Resolve kept_parse kept_fgets : always.

Lemma kept_load r : always kept (load_keyring_provider_from_record r).
Proof.
  unfold load_keyring_provider_from_record, load_file_keyring_provider_options, load_openbao_keyring_provider_options,
    load_kmip_keyring_provider_options, get_file_value. always_solve.
Qed.

#[local] Hint Resolve kept_load : always.

Lemma kept_fetch fd pos : always kept (fetch_next_key_provider fd pos).
Proof. unfold fetch_next_key_provider. always_solve. Qed.

#[local] Hint Resolve kept_fetch : always.

Lemma kept_scan_loop fuel fd pos st acc : always kept (scan_loop fuel fd pos st acc).
Proof.
  revert pos acc. induction fuel as [|fuel IH]; intros pos acc; cbn [scan_loop]; [unfold out_of_fuel|]; always_solve.
Qed.

#[local] Hint Resolve kept_scan_loop : always.

Lemma kept_scan st db : always kept (scan_key_provider_file st db).
Proof. unfold scan_key_provider_file. always_solve. Qed.

#[local] Hint Resolve kept_scan : always.

Lemma kept_by_name n db : always kept (catalog_GetKeyProviderByName n db).
Proof. unfold catalog_GetKeyProviderByName. always_solve. Qed.

Lemma kept_by_id i db : always kept (catalog_GetKeyProviderByID i db).
Proof. unfold catalog_GetKeyProviderByID. always_solve. Qed.

#[local] Hint Resolve kept_by_name kept_by_id : always.

Lemma kept_get_key_loop fuel fd n pos : always kept (get_key_loop fuel fd n pos).
Proof.
  revert pos. induction fuel as [|fuel IH]; intros pos; cbn [get_key_loop]; [unfold out_of_fuel|]; always_solve.
Qed.

Lemma kept_KeyringGetKey kr n : always kept (KeyringGetKey kr n).
Proof.
  pose proof kept_get_key_loop. unfold KeyringGetKey. destruct (find_key_provider_type _ _) as [kp|] eqn:E; [|always_solve].
  apply (always_bind _); [|intros [? ?]; always_solve].
  cbn in E. repeat case_match; simplify_eq/=; [|apply kmip_get_kept|apply openbao_get_kept].
  unfold get_key_by_name, kr_file_name. always_solve.
Qed.

#[local] Hint Resolve kept_KeyringGetKey : always.

Lemma kept_open_basic kf p im : always kept (key_file_open_basic kf p false false im).
Proof. unfold key_file_open_basic. always_solve. Qed.

#[local] Hint Resolve kept_open_basic : always.

Lemma kept_header_read kf fd : always kept (key_file_header_read kf fd).
Proof. unfold key_file_header_read. always_solve. Qed.

#[local] Hint Resolve kept_header_read : always.

Lemma kept_get_info db : always kept (open_pg_tde_get_principal_key_info db).
Proof.
  unfold open_pg_tde_get_principal_key_info, open_pg_tde_open_file_basic, open_pg_tde_file_header_read. always_solve.
Qed.

Lemma kept_get_server_info : always kept open_pg_tde_get_server_key_info.
Proof. unfold open_pg_tde_get_server_key_info. always_solve. Qed.

#[local] Hint Resolve kept_get_info kept_get_server_info : always.

Lemma kept_verify_info i d : always kept (open_pg_tde_verify_principal_key_info i d).
Proof. unfold open_pg_tde_verify_principal_key_info. always_solve. Qed.

#[local] Hint Resolve kept_verify_info : always.

(** A new entry does not replace one. *)
Lemma kept_push pk : always kept (push_principal_key_to_cache pk).
Proof.
  intros w. unfold push_principal_key_to_cache, gets, modify, mbind, M_bind.
  set (db := pki_databaseId (pk_keyInfo pk)).
  assert (kept w (set_pk_cache (<[db := pk]> (w_pk_cache w)) w) ∨ is_Some (w_pk_cache w !! db)) as H.
  { destruct (w_pk_cache w !! db) eqn:E; [right; eauto|]. left. split; [done|]. intros db' pk' Hc. simpl.
    rewrite lookup_insert_ne; [done|]. intros ->. congruence. }
  destruct (w_pk_cache w !! db) eqn:E; simpl; destruct (mlock _); try reflexivity;
    destruct H as [H|[? ?]]; done.
Qed.

#[local] Hint Resolve kept_push : always.

Lemma kept_nodefault db m : always kept (GetPrincipalKeyNoDefault db m).
Proof.
  unfold GetPrincipalKeyNoDefault, get_principal_key_from_cache, get_principal_key_from_keyring,
    new_principal_key. simpl GetKeyProviderByID. always_solve.
Qed.

#[local] Hint Resolve kept_nodefault : always.

Lemma kept_used_loop scan id : always kept (provider_used_loop scan id).
Proof. induction scan as [|db scan IH]; cbn [provider_used_loop]; always_solve. Qed.

#[local] Hint Resolve kept_used_loop : always.

Lemma kept_is_used db id : always kept (open_pg_tde_is_provider_used db id).
Proof. unfold open_pg_tde_is_provider_used. always_solve. Qed.

Lemma kept_verify_loop kr scan : always kept (verify_databases_loop kr scan).
Proof. induction scan as [|db scan IH]; cbn [verify_databases_loop]; unfold verify_key_in_use; always_solve. Qed.

#[local] Hint Resolve kept_is_used kept_verify_loop : always.

Lemma kept_verify kr : always kept (open_pg_tde_verify_provider_keys_in_use kr).
Proof. unfold open_pg_tde_verify_provider_keys_in_use, verify_key_in_use. always_solve. Qed.

Lemma files_load r : always same_files (load_keyring_provider_from_record r).
Proof. apply kept_files, kept_load. Qed.
Lemma files_fetch fd pos : always same_files (fetch_next_key_provider fd pos).
Proof. apply kept_files, kept_fetch. Qed.
Lemma files_by_name n db : always same_files (catalog_GetKeyProviderByName n db).
Proof. apply kept_files, kept_by_name. Qed.
Lemma files_is_used db id : always same_files (open_pg_tde_is_provider_used db id).
Proof. apply kept_files, kept_is_used. Qed.

Lemma grows_create p : always grows (OpenTransientFile p true false).
Proof.
  intros w. unfold OpenTransientFile. repeat case_match; simplify_eq; try reflexivity.
  intros q. simpl. destruct (decide (q = p)) as [->|]; [right; by rewrite lookup_insert_eq|left; by rewrite lookup_insert_ne].
Qed.

Lemma grows_validate kr : always grows (KeyringValidate kr).
Proof.
  unfold KeyringValidate. destruct (find_key_provider_type _ _) as [kp|] eqn:E; [|always_solve].
  cbn in E. repeat case_match; simplify_eq/=;
    [|apply same_files_grows, kept_files, kmip_validate_kept|apply same_files_grows, kept_files, openbao_validate_kept].
  pose proof grows_create. unfold validate, kr_file_name, CloseTransientFile. always_solve.
Qed.

Lemma grows_check r : always grows (check_provider_record r).
Proof.
  pose proof grows_validate.
  assert (∀ kr, always grows (open_pg_tde_verify_provider_keys_in_use kr)) by (intros; apply same_files_grows, kept_files, kept_verify).
  assert (∀ r, always grows (load_keyring_provider_from_record r)) by (intros; apply same_files_grows, files_load).
  unfold check_provider_record. always_solve.
Qed.

End frames.

(** ** The catalogue as a list of records *)

(** The SQL functions, with the arguments they are called with. *)
Inductive SqlCall :=
| CallAdd (provider_type provider_name options : option bytes)
| CallChange (provider_type provider_name options : option bytes)
| CallDelete (provider_name : option bytes).

(** The record made from the arguments. *)
Definition call_record (id : Z) (provider_type provider_name options : bytes) : KeyringProviderRecord :=
  mkProviderRecord id (char_array MAX_PROVIDER_NAME_LEN (cstr provider_name))
    (char_array MAX_KEYRING_OPTION_LEN (cstr options)) (get_keyring_provider_from_typename (cstr provider_type)).

Definition find_record (name : bytes) (rs : list KeyringProviderRecord) : option (nat * KeyringProviderRecord) :=
  list_find (λ r, named name r = true) rs.

(** What a call can do to the records of a database: append a record with a
    new name and a new id, replace the record of that name and keep its id, or
    reduce it to its id. *)
Inductive catalog_step (db : Z) : SqlCall → relation (list KeyringProviderRecord) :=
| step_add t n o rs :
    let r := call_record (new_id db rs) t n o in
    (0 < length (cstr n) < 127)%nat → (length (cstr o) < 1024)%nat → live r = true →
    find_record n rs = None → max_id rs < PG_INT32_MAX →
    catalog_step db (CallAdd (Some t) (Some n) (Some o)) rs (rs ++ [r])
| step_change t n o i old rs :
    let r := call_record (kpr_provider_id old) t n o in
    find_record n rs = Some (i, old) → (length (cstr o) < 1024)%nat → live r = true →
    catalog_step db (CallChange (Some t) (Some n) (Some o)) rs (<[i := r]> rs)
| step_delete n i old rs :
    find_record n rs = Some (i, old) →
    catalog_step db (CallDelete (Some n)) rs (<[i := deleted_record (kpr_provider_id old)]> rs).

Section catalog.
Context {SSL : OpenSSL} {K : Kernel} {NF : NoFaults K} {PP : PgPort} {J : JsonApi} {NK : NetworkKeyrings}.
Context {SV : Server} {NFi : NetworkFiles NK}.

Definition run_call (db : Z) (c : SqlCall) : M unit :=
  match c with
  | CallAdd t n o => open_pg_tde_add_key_provider_internal db t n o
  | CallChange t n o => open_pg_tde_change_key_provider_internal db t n o
  | CallDelete n => open_pg_tde_delete_key_provider_internal db n
  end.

Lemma grows_rep w w' db rs : grows w w' → providers_rep w db rs → providers_rep w' db rs.
Proof.
  intros H [Hwf Hf]. split; [done|]. destruct (H (get_keyring_infofile_path db)) as [->|[E1 E2]]; [done|].
  right. rewrite E1 in Hf. destruct Hf as [[_ ->]|Hf]; [done|done].
Qed.

(** A step that leaves a representation of the list behind in every case. *)
Definition keeps_rep {A} (db : Z) (m : M A) (P : relation (list KeyringProviderRecord)) : Prop :=
  ∀ w rs, providers_rep w db rs →
  match m w with
  | Ok _ w' => ∃ rs', P rs rs' ∧ providers_rep w' db rs'
  | Err _ w' => providers_rep w' db rs
  end.

Lemma keeps_bind {A B} db (m : M A) (f : A → M B) P :
  always grows m → (∀ a, keeps_rep db (f a) P) → keeps_rep db (m ≫= f) P.
Proof.
  intros Hm Hf w rs Hrep. specialize (Hm w). unfold mbind, M_bind.
  destruct (m w) as [a w1|e w1]; [apply Hf|]; by eapply grows_rep.
Qed.

Lemma keeps_err {A} db lvl msg P : keeps_rep db (ereport (A := A) lvl msg) P.
Proof. by intros w rs Hrep. Qed.

Lemma keeps_files {A B} db (m : M A) (f : A → M B) P :
  always same_files m → (∀ a, keeps_rep db (f a) P) → keeps_rep db (m ≫= f) P.
Proof. intros H. by apply keeps_bind, same_files_grows. Qed.

(** Without the lock nothing is written. *)
Lemma needs_pi_lock {A} (f : unit → M A) m w lk :
  w_pi_lock w = Some lk → (LWLockAcquire_pi m ≫= f) w = Err (mkError PANIC "self-deadlock on tde_provider_info_lock") w.
Proof. intros E. apply bind_err. unfold LWLockAcquire_pi. by rewrite E. Qed.

Lemma keeps_mono {A} db (m : M A) (P Q : relation (list KeyringProviderRecord)) :
  (∀ rs rs', Forall ProviderRecord_wf rs → P rs rs' → Q rs rs') → keeps_rep db m P → keeps_rep db m Q.
Proof.
  intros HPQ H w rs Hrep. specialize (H w rs Hrep). destruct (m w); [|done].
  destruct H as (rs' & HP & Hrep'). exists rs'. split; [|done]. apply HPQ; [apply Hrep|done].
Qed.

Lemma keeps_save db r :
  ProviderRecord_wf r →
  keeps_rep db (save_new_checked r db) (λ rs rs', find_record (kpr_provider_name r) rs = None ∧
    max_id rs < PG_INT32_MAX ∧ rs' = rs ++ [with_id (new_id db rs) r]).
Proof.
  intros Hr w rs Hrep. destruct (w_pi_lock w) as [lk|] eqn:El.
  { unfold save_new_checked. by rewrite (needs_pi_lock _ _ w lk El). }
  pose proof (save_new_checked_ok db rs r w Hrep El Hr) as H. cbv zeta in H.
  fold (find_record (kpr_provider_name r) rs) in H.
  destruct (find_record _ rs) as [[i old]|]; [by rewrite H|].
  destruct (Z.eqb_spec (max_id rs) PG_INT32_MAX) as [Em|Em].
  { destruct H as (e & w' & -> & Hrep' & _). done. }
  rewrite H. pose proof (max_id_range rs) as Hm. unfold PG_INT32_MAX in Hm, Em. eexists. split.
  - split; [done|]. split; [|done]. unfold PG_INT32_MAX. lia.
  - replace (rs ++ _) with (put_record (length rs) (with_id (new_id db rs) r) rs).
    + apply after_put_rep; [done|]. apply with_id_wf; [|done]. unfold new_id. case_match; lia.
    + unfold put_record. by rewrite decide_False by lia.
Qed.

Lemma put_record_insert i r rs : (i < length rs)%nat → put_record i r rs = <[i := r]> rs.
Proof. intros H. unfold put_record. by rewrite decide_True. Qed.

Lemma find_record_Some name rs i old :
  find_record name rs = Some (i, old) →
  rs !! i = Some old ∧ live old = true ∧ cstr (kpr_provider_name old) = cstr name.
Proof.
  intros (Hi & Hn & _)%list_find_Some. apply andb_prop in Hn as [Hl Hn]. by apply bool_decide_eq_true in Hn.
Qed.

Lemma keeps_modify db r :
  ProviderRecord_wf r →
  keeps_rep db (modify_checked r db) (λ rs rs', ∃ i old, find_record (kpr_provider_name r) rs = Some (i, old) ∧
    kpr_provider_id r = kpr_provider_id old ∧ rs' = <[i := r]> rs).
Proof.
  intros Hr w rs Hrep. destruct (w_pi_lock w) as [lk|] eqn:El.
  { unfold modify_checked. by rewrite (needs_pi_lock _ _ w lk El). }
  pose proof (modify_checked_ok db rs r w Hrep El Hr) as H. fold (find_record (kpr_provider_name r) rs) in H.
  destruct (find_record _ rs) as [[i old]|] eqn:Ef; [|by destruct H as [e ->]].
  destruct (Z.eqb_spec (kpr_provider_id r) (kpr_provider_id old)) as [Ei|]; [|by rewrite H]. rewrite H.
  apply find_record_Some in Ef as Hf. destruct Hf as (Hi & _). exists (<[i := r]> rs). split; [by exists i, old|].
  rewrite <-put_record_insert by (by eapply lookup_lt_Some). by apply after_put_rep.
Qed.

Lemma keeps_delete db name :
  keeps_rep db (delete_key_provider_info name db) (λ rs rs', ∃ i old, find_record name rs = Some (i, old) ∧
    rs' = <[i := deleted_record (kpr_provider_id old)]> rs).
Proof.
  intros w rs Hrep. destruct (w_pi_lock w) as [lk|] eqn:El.
  { unfold delete_key_provider_info. by rewrite (needs_pi_lock _ _ w lk El). }
  pose proof (delete_key_provider_info_ok db rs name w Hrep El) as H. fold (find_record name rs) in H.
  destruct (find_record _ rs) as [[i old]|] eqn:Ef; [|by destruct H as [e ->]]. rewrite H.
  apply find_record_Some in Ef as Hf. destruct Hf as (Hi & _). eexists. split; [by exists i, old|].
  rewrite <-put_record_insert by (by eapply lookup_lt_Some). apply after_put_rep; [done|].
  apply deleted_record_wf. apply (Forall_lookup_1 _ _ _ _ (proj1 Hrep) Hi).
Qed.

Lemma call_record_wf id t n o : - 2 ^ 31 <= id < 2 ^ 31 → ProviderRecord_wf (call_record id t n o).
Proof.
  intros H. split_and!; simpl; try apply char_array_length; try lia.
  unfold get_keyring_provider_from_typename. repeat case_match; done.
Qed.

Lemma call_record_name id t n o :
  (length (cstr n) ≤ 128)%nat → cstr (kpr_provider_name (call_record id t n o)) = cstr n.
Proof.
  intros H. simpl. unfold char_array. rewrite cstr_take, cstr_zeros, cstr_cstr. apply take_ge.
  unfold MAX_PROVIDER_NAME_LEN. lia.
Qed.

Lemma find_record_name n1 n2 rs : cstr n1 = cstr n2 → find_record n1 rs = find_record n2 rs.
Proof. intros E. unfold find_record, named, strcmp_eq. by rewrite E. Qed.

(** The check passes only for records that are not marked as deleted. *)
Lemma keeps_checked {A} db r (m : M A) P :
  (live r = true → keeps_rep db m P) → keeps_rep db (check_provider_record r;; m) P.
Proof.
  intros H. destruct (live r) eqn:El.
  - apply keeps_bind; [apply grows_check|]. intros _. by apply H.
  - intros w rs Hrep. unfold live in El. apply negb_false_iff in El.
    unfold check_provider_record. by rewrite El.
Qed.

(** A provider that was found by its name is in the file. *)
Lemma scan_loop_in fd rs st fuel i acc w krs w' :
  Forall ProviderRecord_wf rs → w_fs w !! fd = Some (records_file rs) →
  Forall (λ kr, kr_keyring_id kr ∈ kpr_provider_id <$> rs) acc → scan_loop fuel fd (rpos i) st acc w = Ok krs w' →
  Forall (λ kr, kr_keyring_id kr ∈ kpr_provider_id <$> rs) krs.
Proof.
  intros Hwf. revert i acc w. induction fuel as [|fuel IH]; intros i acc w Hf Hacc E; cbn [scan_loop] in E; [done|].
  rewrite (bind_ok _ _ _ _ _ (fetch_ok fd rs i w Hwf Hf)) in E. destruct (rs !! i) as [r|] eqn:Ei; simpl in E.
  - destruct (_ =? _); [by eapply IH|]. destruct (scan_match st r); [|by eapply IH]. minv E.
    pose proof (always_ok _ _ _ _ _ (files_load _) E0) as F0. eapply (IH _ (acc ++ [r0])); [by rewrite F0| |exact E].
    apply Forall_app. split; [done|]. apply Forall_singleton.
    unfold load_keyring_provider_from_record in E0. minv E0. injection E0 as <- _.
    apply list_elem_of_fmap. exists r. split; [done|]. by eapply list_elem_of_lookup_2.
  - by injection E as -> _.
Qed.

Lemma by_name_in db rs name w kr w' :
  providers_rep w db rs → catalog_GetKeyProviderByName name db w = Ok kr w' → kr_keyring_id kr ∈ kpr_provider_id <$> rs.
Proof.
  intros [Hwf Hf] E. unfold catalog_GetKeyProviderByName, scan_key_provider_file in E. minv E. minv E0.
  pose proof (always_ok _ _ _ _ _ (always_acquire_pi _) E1) as F1. rewrite <-F1 in Hf.
  destruct Hf as [[Hf ->]|Hf].
  - rewrite (bind_ok _ _ _ _ _ (open_missing _ _ w1 Hf)) in E0. minv E0. by injection E0 as <- <-.
  - rewrite (bind_ok _ _ _ _ _ (open_existing _ _ w1 _ Hf)) in E0. minv E0. injection E2 as <- <-. minv E0. minv E0. minv E0.
    injection E0 as -> _. change 0 with (rpos 0) in E2. eapply scan_loop_in in E2; [|done|done|done].
    destruct E2; [done|by injection E as -> _].
Qed.

Lemma by_name_id db rs name w kr w' :
  providers_rep w db rs → catalog_GetKeyProviderByName name db w = Ok kr w' → - 2 ^ 31 <= kr_keyring_id kr < 2 ^ 31.
Proof.
  intros Hrep E. destruct Hrep as [Hwf Hf].
  apply (by_name_in db rs) in E as (r & -> & Hr)%list_elem_of_fmap; [|by split].
  rewrite Forall_forall in Hwf. apply (Hwf r Hr).
Qed.

Lemma required_ok a (f : bytes → M unit) db P :
  (∀ v, a = Some v → keeps_rep db (f (cstr v)) P) → keeps_rep db (required_text_argument a ≫= f) P.
Proof. intros H. destruct a as [v|]; [by apply H|]. by intros w rs Hrep. Qed.

(** A function of the catalogue does what [catalog_step] allows, or it raises an
    error and the records stay as they were. *)
Lemma run_call_keeps db c : keeps_rep db (run_call db c) (catalog_step db c).
Proof.
  assert (always same_files require_superuser) by (unfold require_superuser; always_solve).
  destruct c as [t n o|t n o|n]; cbn [run_call].
  - unfold open_pg_tde_add_key_provider_internal, save_new_key_provider_info.
    apply keeps_files; [done|]. intros _. do 3 (apply required_ok; intros ? ->). cbv zeta.
    destruct (Nat.eqb_spec (length (cstr v0)) 0); [apply keeps_err|].
    destruct (Nat.leb_spec (MAX_PROVIDER_NAME_LEN - 1) (length (cstr v0))) as [|Hn]; [apply keeps_err|].
    destruct (Nat.leb_spec MAX_KEYRING_OPTION_LEN (length (cstr v1))) as [|Ho]; [apply keeps_err|].
    fold (call_record 0 v v0 v1). apply keeps_checked. intros Hl.
    eapply keeps_mono; [|by apply keeps_save, call_record_wf]. intros rs rs' _ (Hf & Hm & ->). unfold MAX_PROVIDER_NAME_LEN in Hn.
    rewrite (find_record_name _ v0) in Hf by (apply call_record_name; lia). by apply step_add; [lia|..].
  - unfold open_pg_tde_change_key_provider_internal, modify_key_provider_info.
    apply keeps_files; [done|]. intros _. do 3 (apply required_ok; intros ? ->).
    intros w rs Hrep. unfold mbind at 1, M_bind. pose proof (files_by_name (cstr v0) db w) as Hf.
    destruct (catalog_GetKeyProviderByName _ db w) as [kr w1|e w1] eqn:Ek; [|by eapply providers_rep_files; [by rewrite Hf|]].
    apply (by_name_id db rs) in Ek; [|done]. apply (providers_rep_files w w1) in Hrep; [|by rewrite Hf]. clear Hf.
    destruct (Nat.leb_spec MAX_KEYRING_OPTION_LEN (length (cstr v1))) as [|Ho]; [by apply keeps_err|].
    destruct (Nat.leb_spec (length (cstr v0)) MAX_PROVIDER_NAME_LEN) as [Hn|]; [|by apply keeps_err].
    simpl negb. fold (call_record (kr_keyring_id kr) v v0 v1).
    refine (keeps_checked db _ _ _ _ w1 rs Hrep). intros Hl.
    eapply keeps_mono; [|by apply keeps_modify, call_record_wf]. intros rs1 rs' Hwf (i & old & Hf & Hid & ->).
    rewrite (find_record_name _ v0) in Hf by (by apply call_record_name).
    simpl in Hid. rewrite Hid in *. by apply step_change.
  - unfold open_pg_tde_delete_key_provider_internal. apply keeps_files; [done|]. intros _.
    apply required_ok. intros ? ->. apply keeps_files; [apply files_by_name|]. intros kr.
    apply keeps_files; [apply files_is_used|]. intros []; [apply keeps_err|].
    eapply keeps_mono; [|by apply keeps_delete]. intros rs rs' _ (i & old & Hf & ->). apply step_delete.
    by rewrite (find_record_name _ v) in Hf by apply cstr_cstr.
Qed.

(** The files of other databases: only the file of the database is written. *)
Definition grows_except (p : string) (w w' : World) : Prop :=
  ∀ q, q ≠ p → w_fs w' !! q = w_fs w !! q ∨ (w_fs w !! q = None ∧ w_fs w' !! q = Some []).

#[export] Instance grows_except_preorder p : PreOrder (grows_except p).
Proof.
  split; [by left|]. intros w1 w2 w3 H1 H2 q Hq.
  destruct (H1 q Hq) as [E1|[E1 E1']], (H2 q Hq) as [E2|[E2 E2']]; [left; congruence|right; split; congruence..].
Qed.

Lemma grows_to_except {A} p (m : M A) : always grows m → always (grows_except p) m.
Proof. intros H w. specialize (H w). destruct (m w); intros q _; apply H. Qed.

Lemma touches_to_except {A} p (m : M A) : always (touches p) m → always (grows_except p) m.
Proof. intros H w. specialize (H w). destruct (m w); intros q Hq; left; by apply H. Qed.

Lemma open_fd p cr tr w fd w' : OpenTransientFile p cr tr w = Ok (Fd fd) w' → fd = p.
Proof. unfold OpenTransientFile. repeat case_match; intros; by simplify_eq. Qed.

Lemma touches_write db pos r x :
  always (touches (get_keyring_infofile_path db)) (write_key_provider_info (mkProviderRecordInFile db pos r) x).
Proof.
  unfold write_key_provider_info. cbn [kprf_database_id]. apply (always_bind_dep _); [auto with always|].
  intros w [fd|e] w' E; [apply open_fd in E as ->|]; always_solve.
Qed.

(** The functions that write read the file under their lock. *)
Lemma except_open db b : always (grows_except (get_keyring_infofile_path db)) (open_keyring_infofile db b).
Proof.
  unfold open_keyring_infofile. apply (always_bind _); [apply touches_to_except; auto with always|].
  intros []; auto with always.
Qed.

Lemma except_by_name p name db : always (grows_except p) (get_keyring_info_file_record_by_name name db).
Proof.
  apply grows_to_except, same_files_grows. unfold get_keyring_info_file_record_by_name, open_keyring_infofile.
  assert (∀ fuel fd pos, always same_files (record_by_name_loop fuel fd pos name db)).
  { induction fuel as [|fuel IH]; intros fd pos; cbn [record_by_name_loop]; [unfold out_of_fuel; auto with always|].
    apply (always_bind _); [apply files_fetch|]. intros [[r pos']|]; [|auto with always]. case_match; auto with always. }
  always_solve.
Qed.

Lemma except_save_scan p fuel fd name pos m : always (grows_except p) (save_scan_providers fuel fd name pos m).
Proof.
  apply grows_to_except, same_files_grows. revert pos m.
  induction fuel as [|fuel IH]; intros pos m; cbn [save_scan_providers]; [unfold out_of_fuel; auto with always|].
  apply (always_bind _); [apply files_fetch|]. intros [[r pos']|]; [|auto with always].
  repeat (case_match; auto with always).
Qed.

(** The record that was found belongs to the database. *)
Lemma by_name_database name db w rec w' :
  get_keyring_info_file_record_by_name name db w = Ok (Some rec) w' → kprf_database_id rec = db.
Proof.
  unfold get_keyring_info_file_record_by_name. intros E. minv E. minv E. minv E. minv E. injection E as -> _.
  clear -E2. revert E2. generalize 0 as pos. generalize w1 as w0. induction r0 as [|fuel IH]; intros w0 pos E;
    cbn [record_by_name_loop] in E; [done|].
  minv E. destruct r0 as [[r1 pos']|]; [|done]. destruct (_ && _); [|by eapply IH]. by injection E as <- _.
Qed.

Lemma except_put_found {A} db name (f : option KeyringProviderRecordInFile → M A) :
  (∀ rec, kprf_database_id rec = db → always (grows_except (get_keyring_infofile_path db)) (f (Some rec))) →
  always (grows_except (get_keyring_infofile_path db)) (f None) →
  always (grows_except (get_keyring_infofile_path db)) (get_keyring_info_file_record_by_name name db ≫= f).
Proof.
  intros Hs Hn. apply (always_bind_dep _); [apply except_by_name|].
  intros w [rec|] w' E; [|done]. by apply Hs, (by_name_database _ _ _ _ _ E).
Qed.

Lemma except_run_call db c : always (grows_except (get_keyring_infofile_path db)) (run_call db c).
Proof.
  set (p := get_keyring_infofile_path db).
  assert (∀ A (m : M A), always same_files m → always (grows_except p) m) as Hs
    by (intros; by apply grows_to_except, same_files_grows).
  assert (∀ m, always (grows_except p) (LWLockAcquire_pi m)) by (intros; apply Hs; auto with always).
  assert (always (grows_except p) LWLockRelease_pi) by (apply Hs; auto with always).
  assert (always (grows_except p) require_superuser) by (apply Hs; unfold require_superuser; always_solve).
  assert (∀ a, always (grows_except p) (required_text_argument a))
    by (intros []; apply Hs; unfold required_text_argument; always_solve).
  assert (∀ r, always (grows_except p) (check_provider_record r)) by (intros; apply grows_to_except, grows_check).
  assert (∀ n, always (grows_except p) (catalog_GetKeyProviderByName n db)) by (intros; apply Hs, files_by_name).
  assert (∀ i, always (grows_except p) (open_pg_tde_is_provider_used db i)) by (intros; apply Hs, files_is_used).
  assert (∀ pos r, always (grows_except p) (write_key_provider_info (mkProviderRecordInFile db pos r) true))
    by (intros; apply touches_to_except, touches_write).
  pose proof (except_open db). pose proof (except_by_name p). pose proof (except_save_scan p).
  pose proof (λ fd, Hs _ _ (kept_files _ (kept_fuel fd))). pose proof (λ fd, Hs _ _ (always_close fd)).
  destruct c; cbn [run_call];
    unfold open_pg_tde_add_key_provider_internal, open_pg_tde_change_key_provider_internal,
      open_pg_tde_delete_key_provider_internal, save_new_key_provider_info, modify_key_provider_info,
      save_new_checked, modify_checked, delete_key_provider_info;
    repeat first
      [ apply except_put_found; [intros [d pos r] ->; cbn [kprf_database_id kprf_offset_in_file kprf_provider]|]
      | always_step ].
Qed.

(** ** Invariant *)

Definition id_ok (db id : Z) : Prop :=
  if db =? GLOBAL_DATA_TDE_OID then - 2 ^ 31 < id < 0 else 0 < id < 2 ^ 31.

Definition ids (rs : list KeyringProviderRecord) : list Z := kpr_provider_id <$> rs.
Definition live_names (rs : list KeyringProviderRecord) : list bytes :=
  (λ r, cstr (kpr_provider_name r)) <$> filter (λ r, live r = true) rs.

(** Ids have the sign of the catalogue and are all different, those of deleted
    providers included; names are all different. *)
Record catalog_inv (db : Z) (rs : list KeyringProviderRecord) : Prop := {
  inv_wf : Forall ProviderRecord_wf rs;
  inv_ids : Forall (id_ok db) (ids rs);
  inv_unique : NoDup (ids rs);
  inv_names : NoDup (live_names rs);
}.

Lemma max_id_ge db rs id : Forall (id_ok db) (ids rs) → id ∈ ids rs → Z.abs id <= max_id rs.
Proof.
  induction rs as [|r rs IH]; simpl; intros H Hin; [by apply elem_of_nil in Hin|].
  inversion H as [|? ? Hr Hrs]; subst. apply elem_of_cons in Hin as [->|Hin]; [|specialize (IH Hrs Hin); lia].
  assert (Z.abs (kpr_provider_id r) < 2 ^ 31) by (unfold id_ok in Hr; case_match; lia).
  rewrite i32_small by lia. lia.
Qed.

Lemma new_id_fresh db rs : Forall (id_ok db) (ids rs) → new_id db rs ∉ ids rs.
Proof.
  intros H Hin. pose proof (max_id_ge db rs _ H Hin). pose proof (max_id_range rs).
  unfold new_id in *. case_match; lia.
Qed.

Lemma new_id_ok db rs : max_id rs < PG_INT32_MAX → id_ok db (new_id db rs).
Proof.
  intros H. pose proof (max_id_range rs). unfold id_ok, new_id, PG_INT32_MAX in *. case_match; lia.
Qed.

Lemma ids_insert rs i old r :
  rs !! i = Some old → kpr_provider_id r = kpr_provider_id old → ids (<[i := r]> rs) = ids rs.
Proof.
  intros Hi E. unfold ids. rewrite list_fmap_insert, E. apply list_insert_id. by rewrite list_lookup_fmap, Hi.
Qed.

Lemma live_names_app rs1 rs2 : live_names (rs1 ++ rs2) = live_names rs1 ++ live_names rs2.
Proof. unfold live_names. by rewrite filter_app, fmap_app. Qed.

Lemma live_names_one r : live r = true → live_names [r] = [cstr (kpr_provider_name r)].
Proof. intros H. unfold live_names. by rewrite filter_cons, decide_True. Qed.

Lemma find_record_None n rs : find_record n rs = None → cstr n ∉ live_names rs.
Proof.
  intros H%list_find_None Hin. apply list_elem_of_fmap in Hin as (r & Hn & [Hl Hr]%list_elem_of_filter).
  rewrite Forall_forall in H. apply (H r Hr). unfold named. rewrite Hl. simpl. by apply bool_decide_true.
Qed.

(** Replacing a live record by one of the same name, or by a deleted one. *)
Lemma live_names_insert rs i old r :
  rs !! i = Some old → live old = true → NoDup (live_names rs) →
  (live r = true → cstr (kpr_provider_name r) = cstr (kpr_provider_name old)) → NoDup (live_names (<[i := r]> rs)).
Proof.
  intros Hi Hl Hnd Hr. rewrite insert_take_drop by (by eapply lookup_lt_Some).
  rewrite <-(take_drop_middle rs i old Hi) in Hnd. rewrite live_names_app in *.
  unfold live_names in *. rewrite filter_cons, decide_True in Hnd by done. rewrite filter_cons. case_decide as Hlr.
  - rewrite fmap_cons, Hr by done. by rewrite fmap_cons in Hnd.
  - rewrite fmap_cons in Hnd. apply NoDup_app in Hnd as (H1 & H2 & H3). apply NoDup_app.
    apply NoDup_cons in H3 as [_ H3]. split_and!; [done| |done]. intros x Hx Hx'. apply (H2 x Hx). by right.
Qed.

Lemma catalog_step_inv db c rs rs' : catalog_step db c rs rs' → catalog_inv db rs → catalog_inv db rs'.
Proof.
  intros Hs [Hwf Hid Hu Hn]. destruct Hs as [t n o rs r Hlen Ho Hl Hf Hm|t n o i old rs r Hf Ho Hl|n i old rs Hf].
  - pose proof (new_id_ok db rs Hm) as Hnew. split.
    + apply Forall_app. split; [done|]. apply Forall_singleton, call_record_wf.
      unfold id_ok in Hnew. case_match; lia.
    + unfold ids. rewrite fmap_app. apply Forall_app. split; [done|]. by apply Forall_singleton.
    + unfold ids. rewrite fmap_app. apply NoDup_app. split_and!; [done| |apply NoDup_singleton].
      intros x Hx ->%list_elem_of_singleton. by apply (new_id_fresh db rs).
    + rewrite live_names_app. rewrite (live_names_one r) by done. apply NoDup_app.
      split_and!; [done| |apply NoDup_singleton]. intros x Hx ->%list_elem_of_singleton.
      unfold r in Hx. rewrite call_record_name in Hx by lia. by apply find_record_None in Hf.
  - apply find_record_Some in Hf as (Hi & Hlo & Hno). pose proof (Forall_lookup_1 _ _ _ _ Hwf Hi) as Hwo.
    split.
    + apply Forall_insert; [done|]. apply call_record_wf, Hwo.
    + by erewrite ids_insert.
    + by erewrite ids_insert.
    + eapply live_names_insert; [done|done|done|]. intros _. unfold r.
      rewrite call_record_name; [done|]. rewrite <-Hno.
      destruct Hwo as (_ & Hlen & _). rewrite <-Hlen. clear. induction (kpr_provider_name old) as [|b l IH]; simpl; [done|].
      case_decide; simpl; lia.
  - apply find_record_Some in Hf as (Hi & Hlo & Hno). pose proof (Forall_lookup_1 _ _ _ _ Hwf Hi) as Hwo.
    split.
    + apply Forall_insert; [done|]. apply deleted_record_wf, Hwo.
    + by erewrite ids_insert.
    + by erewrite ids_insert.
    + by eapply live_names_insert.
Qed.

(** Ids are only ever appended. *)
Lemma catalog_step_ids db c rs rs' : catalog_step db c rs rs' → ids rs `prefix_of` ids rs'.
Proof.
  intros [t n o rs1 r Hlen Ho Hl Hf Hm|t n o i old rs1 r Hf Ho Hl|n i old rs1 Hf].
  - unfold ids. rewrite fmap_app. by eexists.
  - apply find_record_Some in Hf as (Hi & _). by erewrite ids_insert.
  - apply find_record_Some in Hf as (Hi & _). by erewrite ids_insert.
Qed.

(** ** Sequences of calls *)

(** The end of a transaction releases all locks. *)
Definition end_transaction (w : World) : World := set_enc_lock None (set_pi_lock None w).

Fixpoint run_calls (db : Z) (cs : list SqlCall) (w : World) : World :=
  match cs with
  | [] => w
  | c :: cs => run_calls db cs (end_transaction (world_after (run_call db c w)))
  end.

Lemma run_calls_app db cs1 cs2 w : run_calls db (cs1 ++ cs2) w = run_calls db cs2 (run_calls db cs1 w).
Proof. revert w. induction cs1 as [|c cs1 IH]; intros w; [done|]. apply IH. Qed.

Lemma run_calls_inv db cs w rs :
  providers_rep w db rs → catalog_inv db rs →
  ∃ rs', providers_rep (run_calls db cs w) db rs' ∧ catalog_inv db rs' ∧ ids rs `prefix_of` ids rs'.
Proof.
  revert w rs. induction cs as [|c cs IH]; intros w rs Hrep Hinv; [by exists rs|]. cbn [run_calls].
  pose proof (run_call_keeps db c w rs Hrep) as H. destruct (run_call db c w) as [[] w1|e w1]; simpl.
  - destruct H as (rs1 & Hs & Hrep1). pose proof (catalog_step_inv _ _ _ _ Hs Hinv) as Hinv1.
    destruct (IH (end_transaction w1) rs1 Hrep1 Hinv1) as (rs' & ? & ? & ?). exists rs'. split_and!; [done|done|].
    etrans; [by eapply catalog_step_ids|done].
  - apply (IH (end_transaction w1) rs); done.
Qed.

(** C16: the SQL functions implement a catalogue of records, as long as no system
    call on its file fails. A call that returns has appended a record with a new name
    and the next id, replaced the record of that name keeping its id, or reduced it
    to its id, according to its arguments; a call that raises an error, because of
    missing privileges, its arguments, a name that is taken or unknown, a provider
    that is in use or one that does not answer as it should, leaves the records as
    they were. The catalogues of other databases never change. *)
Theorem provider_calls_refine db c w rs :
  providers_rep w db rs →
  match run_call db c w with
  | Ok _ w' => ∃ rs', catalog_step db c rs rs' ∧ providers_rep w' db rs'
  | Err _ w' => providers_rep w' db rs
  end ∧
  ∀ db' rs', is_u32 db → is_u32 db' → db' ≠ db → providers_rep w db' rs' →
    providers_rep (world_after (run_call db c w)) db' rs'.
Proof.
  intros Hrep. split; [by apply run_call_keeps|]. intros db' rs' Hu Hu' Hne [Hwf Hf].
  assert (get_keyring_infofile_path db' ≠ get_keyring_infofile_path db) as Hp
    by (intros E; by apply Hne, infofile_path_inj).
  pose proof (except_run_call db c w) as H. destruct (run_call db c w) as [[] w'|e w']; simpl in *;
    (split; [done|]); (destruct (H _ Hp) as [->|[E1 E2]]; [done|]); right; rewrite E1 in Hf;
    by destruct Hf as [[_ ->]|Hf].
Qed.

(** C30: whatever SQL functions are called in whatever order, with or without
    success (but with working system calls), the ids in a catalogue stay unique and keep the sign of their
    catalogue, and ids are only ever appended: the id of a deleted provider is
    never given to another one. *)
Theorem provider_ids_never_reused db cs1 cs2 w :
  w_fs w !! get_keyring_infofile_path db = None →
  ∃ rs1 rs2, providers_rep (run_calls db cs1 w) db rs1 ∧ providers_rep (run_calls db (cs1 ++ cs2) w) db rs2 ∧
    ids rs1 `prefix_of` ids rs2 ∧ catalog_inv db rs2.
Proof.
  intros E. assert (catalog_inv db []) as Hinv by (split; constructor).
  destruct (run_calls_inv db cs1 w []) as (rs1 & H1 & Hi1 & _); [by split; [|left]|done|].
  destruct (run_calls_inv db cs2 _ rs1 H1 Hi1) as (rs2 & H2 & Hi2 & Hp).
  exists rs1, rs2. by rewrite run_calls_app.
Qed.

(** ** Finding providers *)

Lemma filter_none rs (P : KeyringProviderRecord → bool) :
  Forall (λ r, P r = false) rs → filter (λ r, P r = true) rs = [].
Proof. induction 1 as [|r rs Hr _ IH]; [done|]. rewrite filter_cons, decide_False by (by rewrite Hr). done. Qed.

Lemma filter_unique rs i r (P : KeyringProviderRecord → bool) :
  rs !! i = Some r → P r = true → (∀ j r', rs !! j = Some r' → P r' = true → j = i) →
  filter (λ r, P r = true) rs = [r].
Proof.
  intros Hi Hr Hu. rewrite <-(take_drop_middle rs i r Hi), filter_app, filter_cons, decide_True by done.
  apply lookup_lt_Some in Hi as Hlt. rewrite !filter_none; [done| |]; apply Forall_lookup_2; intros j r' Hj;
    destruct (P r') eqn:HP; try done.
  - rewrite lookup_drop in Hj. specialize (Hu _ _ Hj HP). lia.
  - apply lookup_take_Some in Hj as [Hj Hji]. specialize (Hu _ _ Hj HP). lia.
Qed.

(** By id: ids are unique. *)
Lemma by_id_ok db rs i r kr w db' :
  providers_rep w db rs → catalog_inv db rs → w_pi_lock w = None → rs !! i = Some r → live r = true →
  loads_as w r kr → (db = GLOBAL_DATA_TDE_OID ∨ db' = db) →
  catalog_GetKeyProviderByID (kpr_provider_id r) db' w = Ok (Some kr) w.
Proof.
  intros Hrep [Hwf Hid Hu _] Hl Hi Hlive Hload Hdb. unfold catalog_GetKeyProviderByID.
  assert (id_ok db (kpr_provider_id r)) as Hok.
  { apply (Forall_lookup_1 _ _ i _ Hid). unfold ids. by rewrite list_lookup_fmap, Hi. }
  replace (if _ <? 0 then _ else _) with db.
  2:{ unfold id_ok in Hok. destruct (Z.eqb_spec db GLOBAL_DATA_TDE_OID), (Z.ltb_spec (kpr_provider_id r) 0); lia. }
  erewrite bind_ok; [|apply (scan_key_provider_file_ok db rs _ [kr]); [done|done|]]; [done|].
  rewrite (filter_unique rs i r); [by repeat constructor|done| |].
  - unfold selected. rewrite Hlive. simpl. apply Z.eqb_refl.
  - intros j r' Hj HP. unfold selected in HP. apply andb_prop in HP as [_ HP]. simpl in HP. apply Z.eqb_eq in HP.
    eapply NoDup_lookup; [exact Hu| |]; unfold ids; rewrite list_lookup_fmap; [by rewrite Hj|by rewrite Hi; simpl; rewrite HP].
Qed.

(** The last record, when no other has the name up to case. *)
Lemma by_name_last db rs r kr name w :
  providers_rep w db (rs ++ [r]) → w_pi_lock w = None → selected (PROVIDER_SCAN_BY_NAME name) r = true →
  Forall (λ r', selected (PROVIDER_SCAN_BY_NAME name) r' = false) rs → loads_as w r kr →
  catalog_GetKeyProviderByName name db w = Ok kr w.
Proof.
  intros Hrep Hl Hr Hrs Hload. unfold catalog_GetKeyProviderByName.
  erewrite bind_ok; [|apply (scan_key_provider_file_ok db (rs ++ [r]) _ [kr]); [done|done|]]; [done|].
  rewrite filter_app, filter_cons, decide_True by done. rewrite filter_none by done.
  by repeat constructor.
Qed.

End catalog.

(** ** Providers in use *)

Section in_use.
Context {SSL : OpenSSL} {Spec : OpenSSLSpec SSL} {K : Kernel} {NF : NoFaults K} {PP : PgPort} {J : JsonApi}.
Context {NK : NetworkKeyrings} {SV : Server} {NFi : NetworkFiles NK}.

(** The principal keys that deleting a provider of [db] has to look at. *)
Definition provider_users (db : Z) (dbs : list Z) : list Z :=
  if (db =? GLOBAL_DATA_TDE_OID) || (db =? DEFAULT_DATA_TDE_OID)
  then GLOBAL_DATA_TDE_OID :: DEFAULT_DATA_TDE_OID :: dbs else [db].

Lemma kept_ok {A} (m : M A) w a w' u pk :
  always kept m → m w = Ok a w' → w_pk_cache w !! u = Some pk → w_pk_cache w' !! u = Some pk.
Proof. intros H E. apply (always_ok _ _ _ _ _ H E). Qed.

Lemma used_loop_finds scan id u pk w b w' :
  u ∈ scan → w_pk_cache w !! u = Some pk → pki_keyringId (pk_keyInfo pk) = id →
  provider_used_loop scan id w = Ok b w' → b = true.
Proof.
  intros Hu Hc Hid. revert w Hc. induction scan as [|d scan IH]; intros w Hc E; [by apply elem_of_nil in Hu|].
  cbn [provider_used_loop] in E. destruct (decide (u = d)) as [->|Hne].
  - rewrite (bind_ok _ _ _ _ _ (nodefault_cached d LW_EXCLUSIVE pk w Hc)) in E. simpl in E.
    rewrite Hid, Z.eqb_refl in E. by injection E.
  - minv E. destruct (uses_provider r id); [by injection E|].
    apply elem_of_cons in Hu as [->|Hu]; [done|]. eapply IH; [done| |exact E].
    by eapply kept_ok; [apply kept_nodefault|exact E0|].
Qed.

Lemma is_used_finds db id dbs u pk w b w' :
  (∀ w, pg_database w = dbs) → u ∈ provider_users db dbs → w_pk_cache w !! u = Some pk →
  pki_keyringId (pk_keyInfo pk) = id → open_pg_tde_is_provider_used db id w = Ok b w' → b = true.
Proof.
  intros Hdbs Hu Hc Hid E. unfold open_pg_tde_is_provider_used, provider_users in *. minv E.
  assert (w_pk_cache w0 !! u = Some pk) as Hc0 by (by eapply kept_ok; [apply kept_acquire|exact E0|]).
  assert (∀ d w b w', w_pk_cache w !! d = Some pk → GetPrincipalKeyNoDefault d LW_EXCLUSIVE w = Ok b w' →
            uses_provider b id = true) as Hfound.
  { intros d w1 b1 w1' Hc1 E1. rewrite (nodefault_cached d LW_EXCLUSIVE pk w1 Hc1) in E1. injection E1 as <- _.
    simpl. rewrite Hid. apply Z.eqb_refl. }
  destruct (_ || _).
  - minv E. destruct (uses_provider r0 id) eqn:E1u; [minv E; by injection E|].
    apply elem_of_cons in Hu as [->|Hu]; [by rewrite (Hfound _ _ _ _ Hc0 E1) in E1u|].
    apply (kept_ok _ _ _ _ _ _ (kept_nodefault _ _) E1) in Hc0. minv E.
    destruct (uses_provider r1 id) eqn:E2u; [minv E; by injection E|].
    apply elem_of_cons in Hu as [->|Hu]; [by rewrite (Hfound _ _ _ _ Hc0 E2) in E2u|].
    apply (kept_ok _ _ _ _ _ _ (kept_nodefault _ _) E2) in Hc0. minv E. injection E3 as <- <-. rewrite Hdbs in E.
    minv E. apply (used_loop_finds _ _ _ _ _ _ _ Hu Hc0 Hid) in E3 as ->. minv E. by injection E.
  - apply list_elem_of_singleton in Hu as ->. minv E. minv E. injection E as <- _. by rewrite (Hfound _ _ _ _ Hc0 E1).
Qed.

(** A provider whose key is in use is not deleted: while the server, the
    default key or a database of the catalogue has a principal key from the
    provider, deleting it raises an error and no file changes. *)
Theorem provider_in_use_not_deleted db n kr dbs u pk w w1 :
  (∀ w, pg_database w = dbs) → catalog_GetKeyProviderByName (cstr n) db w = Ok kr w1 →
  u ∈ provider_users db dbs → w_pk_cache w !! u = Some pk →
  pki_keyringId (pk_keyInfo pk) = u32 (kr_keyring_id kr) →
  ∃ e w', open_pg_tde_delete_key_provider_internal db (Some n) w = Err e w' ∧ w_fs w' = w_fs w.
Proof.
  intros Hdbs Ek Hu Hc Hid. unfold open_pg_tde_delete_key_provider_internal, require_superuser. rewrite bind_assoc. mstep.
  destruct (negb _); [by eexists _, _|]. mstep. mstep. rewrite (bind_ok _ _ _ _ _ Ek).
  apply (kept_ok _ _ _ _ _ _ (kept_by_name _ _) Ek) in Hc.
  pose proof (always_ok _ _ _ _ _ (files_by_name _ _) Ek) as Hf.
  pose proof (files_is_used db (u32 (kr_keyring_id kr)) w1) as Hf1.
  destruct (open_pg_tde_is_provider_used db (u32 (kr_keyring_id kr)) w1) as [b w2|e w2] eqn:Eu.
  - apply (is_used_finds _ _ dbs u pk) in Eu as Hb; try done. subst b. rewrite (bind_ok _ _ _ _ _ Eu).
    eexists _, _. split; [done|]. by rewrite Hf1.
  - rewrite (bind_err _ _ _ _ _ Eu). eexists _, _. split; [done|]. by rewrite Hf1.
Qed.

(** *** Changing a provider *)

(** The key file of a database names the principal key [s]. *)
Definition key_file_info (w : World) (db : Z) (s : TDESignedPrincipalKeyInfo) : Prop :=
  ∃ h r, w_fs w !! open_pg_tde_set_db_file_path db = Some (h ++ r) ∧ length h = 320%nat ∧
         s = fh_signed_key_info (KeyFileHeader_decode h).

(** The provider delivers, in state [w], a key under which the signature
    verifies. *)
Definition delivers (kr : GenericKeyring) (s : TDESignedPrincipalKeyInfo) (w : World) : Prop :=
  ∃ k w', KeyringGetKey kr (pki_name (spki_data s)) w = Ok (Some k, KEYRING_CODE_SUCCESS) w' ∧
    is_Some (gcm_open (take (Z.to_nat (kd_len (ki_data k))) (kd_data (ki_data k))) (spki_sign_iv s)
               (PKInfo_encode (spki_data s)) [] (spki_aead_tag s)).

Lemma verified_delivers `{!NetworkKeyringsSpec} kr s m1 m2 m3 w w' :
  SignedPKInfo_wf s → pki_keyringId (spki_data s) = u32 (kr_keyring_id kr) →
  verify_key_in_use kr (Some s) m1 m2 m3 w = Ok tt w' → delivers kr s w.
Proof.
  intros (_ & Hiv & Htag) Hid E. unfold verify_key_in_use in E. rewrite Hid, Z.eqb_refl in E. cbv [negb] in E.
  minv E. destruct r as [[k|] c]; [|by destruct (bool_decide _)].
  destruct (bool_decide_reflect (c = KEYRING_CODE_SUCCESS)) as [->|]; [|done]. minv E.
  exists k, w0. split; [done|]. pose proof (KeyringGetKey_wf _ _ _ _ _ _ E0) as (_ & Hd & _).
  destruct (handed_out_key_valid _ _ _ _ _ _ E0) as (_ & _ & Hlen).
  assert (gcm_key_len_ok (kd_data (ki_data k)) (kd_len (ki_data k))) as Hk
    by (split; [done|unfold KEY_DATA_SIZE_128, KEY_DATA_SIZE_256 in Hlen; lia]).
  unfold open_pg_tde_verify_principal_key_info in E1. change (Z.of_nat MAP_ENTRY_IV_SIZE) with 16 in E1.
  rewrite (bind_ok _ _ _ _ _ (AesGcmDecrypt_ok _ _ _ _ [] _ w0 Hk Hiv Htag)) in E1.
  injection E1 as <- <-. by case_bool_decide.
Qed.

Lemma get_info_of_file db s w o w' :
  key_file_info w db s → open_pg_tde_get_principal_key_info db w = Ok o w' → o = Some s ∧ SignedPKInfo_wf s.
Proof.
  intros (h & r & Hf & Hl & ->) E. unfold open_pg_tde_get_principal_key_info in E. minv E.
  unfold open_pg_tde_open_file_basic, key_file_open_basic in E0.
  rewrite (bind_ok _ _ _ _ _ (open_existing _ false w _ Hf)) in E0. injection E0 as <- <-.
  rewrite (bind_ok _ _ _ _ _ (header_read_ok _ h r w Hf Hl)) in E. destruct (negb _); [done|]. injection E as <- _.
  split; [done|]. apply SignedPKInfo_decode_wf. rewrite slice_length. lia.
Qed.

Lemma verify_loop_delivers `{!NetworkKeyringsSpec} kr s scan d w w' :
  d ∈ scan → key_file_info w d s → pki_keyringId (spki_data s) = u32 (kr_keyring_id kr) →
  verify_databases_loop kr scan w = Ok tt w' → ∃ w1, w_fs w1 = w_fs w ∧ delivers kr s w1.
Proof.
  intros Hd Hinfo Hid. revert w Hinfo. induction scan as [|d' scan IH]; intros w Hinfo E; [by apply elem_of_nil in Hd|].
  cbn [verify_databases_loop] in E. minv E. minv E.
  pose proof (always_ok _ _ _ _ _ (kept_files _ (kept_get_info _)) E0) as F0.
  destruct (decide (d = d')) as [->|Hne].
  - destruct (get_info_of_file _ _ _ _ _ Hinfo E0) as [-> Hwf]. destruct r0. eauto using verified_delivers.
  - apply elem_of_cons in Hd as [->|Hd]; [done|].
    assert (w_fs w1 = w_fs w0) as F1.
    { refine (always_ok _ _ _ _ _ (kept_files _ _) E1). unfold verify_key_in_use.
      pose proof kept_KeyringGetKey. pose proof kept_verify_info. always_solve. }
    destruct (IH Hd w1) as (w2 & F2 & H2); [|done|exists w2; split; [congruence|done]].
    destruct Hinfo as (h & x & Hf & ?). exists h, x. rewrite F1, F0. done.
Qed.

Lemma grows_info w w' d s : grows w w' → key_file_info w d s → key_file_info w' d s.
Proof.
  intros H (h & r & Hf & ?). exists h, r. destruct (H (open_pg_tde_set_db_file_path d)) as [->|[E _]]; [done|].
  by rewrite E in Hf.
Qed.

(** The check of a record with an id looks at the keys in use. *)
Lemma check_delivers `{!NetworkKeyringsSpec} r dbs w w' :
  (∀ w, pg_database w = dbs) → kpr_provider_id r ≠ 0 → check_provider_record r w = Ok tt w' →
  ∃ kr w1', load_keyring_provider_from_record r w = Ok kr w1' ∧
    ∀ d s, d ∈ dbs → key_file_info w d s → pki_keyringId (spki_data s) = u32 (kpr_provider_id r) →
      ∃ w2, grows w w2 ∧ delivers kr s w2.
Proof.
  intros Hdbs Hid E. unfold check_provider_record in E. destruct (_ =? UNKNOWN_KEY_PROVIDER); [done|].
  minv E. rename r0 into kr. exists kr, w0. split; [done|]. intros d s Hd Hinfo Hkid.
  assert (kr_keyring_id kr = kpr_provider_id r) as Hkr
    by (unfold load_keyring_provider_from_record in E0; minv E0; by injection E0 as <- _).
  minv E. rewrite Hkr, (proj2 (Z.eqb_neq _ _)) in E by done. cbv [negb] in E.
  unfold open_pg_tde_verify_provider_keys_in_use in E. minv E. minv E. minv E. minv E. injection E5 as <- <-. minv E.
  rewrite Hdbs in E5. assert (grows w w4) as G.
  { etrans; [exact (always_ok _ _ _ _ _ (same_files_grows _ (files_load _)) E0)|].
    etrans; [exact (always_ok _ _ _ _ _ (grows_validate _) E1)|].
    etrans; [exact (always_ok _ _ _ _ _ (same_files_grows _ (always_acquire_enc _)) E2)|].
    etrans; [exact (always_ok _ _ _ _ _ (same_files_grows _ (kept_files _ kept_get_server_info)) E3)|].
    refine (always_ok _ _ _ _ _ (same_files_grows _ (kept_files _ _)) E4).
    unfold verify_key_in_use. pose proof kept_KeyringGetKey. pose proof kept_verify_info. always_solve. }
  destruct r4. destruct (verify_loop_delivers kr s dbs d w4 _ Hd (grows_info _ _ _ _ G Hinfo) ltac:(by rewrite Hkr) E5)
    as (wd & F2 & H2).
  exists wd. split; [|done]. etrans; [exact G|]. intros q. left. by rewrite F2.
Qed.

(** A provider can only be changed to one that still has the keys in use:
    after a successful change, every database whose key file names a principal
    key of the provider finds under that name, in the changed provider, a key
    under which the signature of its key file verifies. *)
Theorem changed_provider_delivers `{!NetworkKeyringsSpec} db rs t n o dbs w w' :
  providers_rep w db rs → catalog_inv db rs → (∀ w, pg_database w = dbs) →
  open_pg_tde_change_key_provider_internal db (Some t) (Some n) (Some o) w = Ok tt w' →
  ∃ i old kr w1 w1', find_record n rs = Some (i, old) ∧
    let r := call_record (kpr_provider_id old) t n o in
    providers_rep w' db (<[i := r]> rs) ∧ w_fs w1 = w_fs w ∧ load_keyring_provider_from_record r w1 = Ok kr w1' ∧
    ∀ d s, d ∈ dbs → key_file_info w d s → pki_keyringId (spki_data s) = u32 (kpr_provider_id old) →
      ∃ w2, grows w w2 ∧ delivers kr s w2.
Proof.
  intros Hrep Hinv Hdbs E. unfold open_pg_tde_change_key_provider_internal in E.
  minv E. assert (w0 = w) as -> by (unfold require_superuser in E0; minv E0; injection E1 as <- <-;
    destruct (negb _); [done|by injection E0]).
  minv E. injection E1 as <- <-. minv E. injection E1 as <- <-. minv E. injection E1 as <- <-. minv E.
  pose proof (by_name_in _ _ _ _ _ _ Hrep E1) as Hin. pose proof (by_name_id _ _ _ _ _ _ Hrep E1) as Hrange.
  pose proof (always_ok _ _ _ _ _ (files_by_name _ _) E1) as F1. rename r0 into kr0.
  destruct (Nat.leb _ (length (cstr o))); [done|].
  destruct (Nat.leb_spec (length (cstr n)) MAX_PROVIDER_NAME_LEN) as [Hn|]; [|done]. cbv [negb] in E.
  fold (call_record (kr_keyring_id kr0) t n o) in E. unfold modify_key_provider_info in E. minv E. destruct r0.
  assert (kr_keyring_id kr0 ≠ 0) as Hnz.
  { intros Hz. rewrite Hz in Hin. pose proof (inv_ids _ _ Hinv) as Hids. rewrite Forall_forall in Hids.
    specialize (Hids 0 Hin). unfold id_ok in Hids. case_match; lia. }
  destruct (check_delivers (call_record (kr_keyring_id kr0) t n o) dbs w0 w1 Hdbs Hnz E2) as (kr & w1' & El & Hdel).
  pose proof (always_ok _ _ _ _ _ (grows_check _) E2) as G.
  apply (providers_rep_files w w0), (grows_rep _ _ _ _ G) in Hrep; [|by rewrite F1].
  pose proof (keeps_modify db (call_record (kr_keyring_id kr0) t n o) (call_record_wf _ _ _ _ Hrange) w1 rs Hrep) as Hm.
  rewrite E in Hm. destruct Hm as (rs' & (i & old & Hfind & Hid & ->) & Hrep').
  rewrite (find_record_name _ n) in Hfind by (by apply call_record_name). simpl in Hid. rewrite Hid in *.
  exists i, old, kr, w0, w1'. split; [done|]. cbv zeta. split_and!; try done. intros d s Hd (h & x & Hx & Hl & ->) Hs.
  destruct (Hdel d (fh_signed_key_info (KeyFileHeader_decode h)) Hd) as (w2 & G2 & H2); [|done|].
  - exists h, x. by rewrite F1.
  - exists w2. split; [|done]. etrans; [|exact G2]. intros q. left. by rewrite F1.
Qed.

End in_use.



(** ** Adding a file provider *)

Section file_provider.
Context {SSL : OpenSSL} {Spec : OpenSSLSpec SSL} {K : Kernel} {NF : NoFaults K} {RW : RandWorks SSL}.
Context {PP : PgPort} {J : JsonApi} {JS : JsonApiSpec J} {NK : NetworkKeyrings} {SV : Server} {NFi : NetworkFiles NK}.

(** The options of a provider that keeps its keys in a file. *)
Definition path_options (f : bytes) : bytes := render [(bytes_of "path", Some f)].

Definition path_ok (f : bytes) : Prop :=
  ascii_string f = true ∧ f ≠ [] ∧ (length (path_options f) < 1024)%nat.

(** The provider that the record becomes. *)
Definition file_keyring (r : KeyringProviderRecord) (f : bytes) : GenericKeyring :=
  mkGenericKeyring FILE_KEY_PROVIDER (kpr_provider_id r) (kpr_provider_name r) (kpr_options r)
    (FileKeyring (Some (string_of f))).

Lemma ascii_path f : ascii_string f = true → ascii_fields [(bytes_of "path", Some f)] = true.
Proof. intros H. simpl. by rewrite H. Qed.

Lemma string_of_nonempty f : ascii_string f = true → f ≠ [] → string_of f ≠ "".
Proof.
  destruct f as [|b f]; [done|]. simpl. intros [Hb _]%andb_prop _. unfold string_of. simpl.
  destruct (decide (b = x00)) as [->|]; [done|]. done.
Qed.

Lemma load_path f r w :
  path_ok f → kpr_provider_type r = FILE_KEY_PROVIDER → cstr (kpr_options r) = path_options f →
  load_keyring_provider_from_record r w = Ok (file_keyring r f) w.
Proof.
  intros (Ha & Hne & Hl) Ht Ho. unfold load_keyring_provider_from_record. rewrite Ht.
  simpl Z.eqb. cbv iota. unfold load_file_keyring_provider_options. rewrite bind_assoc, Ho.
  assert (ParseKeyringJSONOptions FILE_KEY_PROVIDER (FileKeyring None) (path_options f) w =
            Ok (FileKeyring (Some (string_of f))) w) as Ep.
  { apply parse_options_ok; [done|by apply ascii_path|done]. }
  rewrite (bind_ok _ _ _ _ _ Ep). cbv beta iota.
  by rewrite bool_decide_false by (by apply string_of_nonempty).
Qed.

Lemma load_path_record f id n w :
  path_ok f →
  let r := call_record id (bytes_of "file") n (path_options f) in
  load_keyring_provider_from_record r w = Ok (file_keyring r f) w.
Proof.
  intros Hf r. apply load_path; [done|done|]. destruct Hf as (Ha & _ & Hl).
  simpl. unfold path_options in *. rewrite cstr_char_array; rewrite cstr_cstr, render_cstr by (by apply ascii_path);
    [done|unfold MAX_KEYRING_OPTION_LEN; lia].
Qed.

(** The files after [open (p, O_CREAT)]. *)
Definition created (p : string) (fs : gmap string bytes) : gmap string bytes :=
  match fs !! p with Some _ => fs | None => <[p := []]> fs end.

Lemma open_created p w : OpenTransientFile p true false w = Ok (Fd p) (set_fs (created p (w_fs w)) w).
Proof.
  unfold created. destruct (w_fs w !! p) eqn:E; [|by apply open_create].
  rewrite (open_existing p true w _ E). by destruct w.
Qed.

Lemma created_lookup p fs q : created p fs !! q = if decide (q = p) then Some (default [] (fs !! p)) else fs !! q.
Proof.
  unfold created. destruct (fs !! p) eqn:E; case_decide; subst; [done|done|by rewrite lookup_insert_eq|].
  by rewrite lookup_insert_ne.
Qed.

Lemma created_rep p db rs w : providers_rep w db rs → providers_rep (set_fs (created p (w_fs w)) w) db rs.
Proof.
  intros [Hwf Hf]. split; [done|]. cbn [w_fs set_fs]. rewrite created_lookup. case_decide as E; [|done]. subst p. right.
  by destruct Hf as [[-> ->]| ->].
Qed.

Lemma check_path_ok f n w :
  path_ok f → check_provider_record (call_record 0 (bytes_of "file") n (path_options f)) w =
                Ok tt (set_fs (created (string_of f) (w_fs w)) w).
Proof.
  intros Hf. unfold check_provider_record. change (kpr_provider_type _ =? UNKNOWN_KEY_PROVIDER) with false. cbv iota.
  rewrite (bind_ok _ _ _ _ _ (load_path_record f 0 n w Hf)). unfold KeyringValidate. simpl find_key_provider_type.
  cbv iota. cbn [rk_routine keyring_validate keyringFileRoutine]. unfold validate, kr_file_name. rewrite !bind_assoc. mstep.
  by rewrite bind_assoc, (bind_ok _ _ _ _ _ (open_created (string_of f) w)).
Qed.

(** The state after a file provider was added. *)
Definition with_provider (db : Z) rs (f n : bytes) (w : World) : World :=
  after_put db (length rs) (call_record (new_id db rs) (bytes_of "file") n (path_options f)) rs
    (set_fs (created (string_of f) (w_fs w)) w).

Lemma add_path_provider db rs f n w :
  providers_rep w db rs → w_pi_lock w = None → is_superuser (w_session w) = true → path_ok f →
  (0 < length (cstr n) < 127)%nat → find_record n rs = None → max_id rs < PG_INT32_MAX →
  open_pg_tde_add_key_provider_internal db (Some (bytes_of "file")) (Some n) (Some (path_options f)) w =
    Ok tt (with_provider db rs f n w).
Proof.
  intros Hrep Hl Hs Hf Hn Hnone Hm. unfold open_pg_tde_add_key_provider_internal, require_superuser.
  rewrite bind_assoc. mstep. rewrite Hs. cbv [negb]. mstep. do 3 mstep.
  rewrite (proj2 (Nat.eqb_neq _ _)) by lia. unfold MAX_PROVIDER_NAME_LEN.
  rewrite (proj2 (Nat.leb_gt _ _)) by lia. unfold MAX_KEYRING_OPTION_LEN.
  assert (cstr (path_options f) = path_options f) as Hc by (apply render_cstr, ascii_path, Hf).
  rewrite (proj2 (Nat.leb_gt _ _)) by (rewrite Hc; apply Hf).
  fold (call_record 0 (bytes_of "file") n (path_options f)). unfold save_new_key_provider_info.
  rewrite (bind_ok _ _ _ _ _ (check_path_ok f n w Hf)). set (w1 := set_fs _ w).
  pose proof (save_new_checked_ok db rs (call_record 0 (bytes_of "file") n (path_options f)) w1
    (created_rep _ _ _ _ Hrep) Hl (call_record_wf 0 _ _ _ ltac:(lia))) as H. cbv zeta in H.
  fold (find_record (kpr_provider_name (call_record 0 (bytes_of "file") n (path_options f))) rs) in H.
  rewrite (find_record_name _ n), Hnone in H by (apply call_record_name; lia).
  rewrite (proj2 (Z.eqb_neq _ _)) in H by lia. exact H.
Qed.

Lemma with_provider_rep db rs f n w :
  providers_rep w db rs → max_id rs < PG_INT32_MAX →
  providers_rep (with_provider db rs f n w) db (rs ++ [call_record (new_id db rs) (bytes_of "file") n (path_options f)]).
Proof.
  intros Hrep Hm. unfold with_provider. set (r := call_record _ _ _ _).
  replace (rs ++ [r]) with (put_record (length rs) r rs) by (unfold put_record; by rewrite decide_False by lia).
  apply after_put_rep; [by apply created_rep|]. apply call_record_wf.
  pose proof (new_id_ok db rs Hm) as H. unfold id_ok in H. case_match; lia.
Qed.

(** No live record has the name, whatever its case. *)
Definition name_free (n : bytes) rs : Prop :=
  Forall (λ r, selected (PROVIDER_SCAN_BY_NAME n) r = false) rs.

Lemma name_free_find n rs : name_free n rs → find_record n rs = None.
Proof.
  intros H. apply list_find_None. eapply Forall_impl; [exact H|]. intros r Hr. simpl in *.
  unfold selected, named in *. destruct (live r); [|done]. simpl in *. unfold pg_strcasecmp_eq in Hr. unfold strcmp_eq.
  apply bool_decide_eq_false in Hr. rewrite bool_decide_eq_true. intros E. apply Hr. by rewrite E.
Qed.

Lemma selected_new id f n :
  (length (cstr n) < 127)%nat →
  selected (PROVIDER_SCAN_BY_NAME n) (call_record id (bytes_of "file") n (path_options f)) = true.
Proof.
  intros H. unfold selected. change (live _) with true. cbn [andb scan_match]. unfold pg_strcasecmp_eq.
  rewrite call_record_name by lia. by apply bool_decide_true.
Qed.

Lemma new_provider_by_name db rs f n w :
  providers_rep w db rs → w_pi_lock w = None → path_ok f → (length (cstr n) < 127)%nat → name_free n rs →
  max_id rs < PG_INT32_MAX →
  let r := call_record (new_id db rs) (bytes_of "file") n (path_options f) in
  ∀ w', w_pi_lock w' = None →
    w_fs w' !! get_keyring_infofile_path db = w_fs (with_provider db rs f n w) !! get_keyring_infofile_path db →
    catalog_GetKeyProviderByName n db w' = Ok (file_keyring r f) w'.
Proof.
  intros Hrep Hl Hf Hn Hfree Hm r w' Hl' Hw'.
  apply (by_name_last db rs r); [|done|by apply selected_new|done|].
  - eapply providers_rep_files; [exact Hw'|]. by apply with_provider_rep.
  - intros w2 _ _. by apply load_path_record.
Qed.

(** A file provider that was added is found again, by its name and by the
    id it got, as a provider of that file. *)
Theorem add_provider_then_get db rs f n w :
  providers_rep w db rs → catalog_inv db rs → w_pi_lock w = None → is_superuser (w_session w) = true →
  path_ok f → (0 < length (cstr n) < 127)%nat → name_free n rs → max_id rs < PG_INT32_MAX →
  ∃ w' kr,
    open_pg_tde_add_key_provider_internal db (Some (bytes_of "file")) (Some n) (Some (path_options f)) w = Ok tt w' ∧
    is_file_keyring kr (string_of f) ∧ kr_keyring_id kr = new_id db rs ∧ (kr_keyring_id kr ∉ ids rs) ∧
    catalog_GetKeyProviderByName n db w' = Ok kr w' ∧
    catalog_GetKeyProviderByID (kr_keyring_id kr) db w' = Ok (Some kr) w'.
Proof.
  intros Hrep Hinv Hl Hs Hf Hn Hfree Hm. pose proof (name_free_find n rs Hfree) as Hnone.
  set (r := call_record (new_id db rs) (bytes_of "file") n (path_options f)).
  exists (with_provider db rs f n w), (file_keyring r f). split_and!; try done.
  - by apply add_path_provider.
  - apply new_id_fresh, Hinv.
  - by eapply new_provider_by_name; try done; lia.
  - apply (by_id_ok db (rs ++ [r]) (length rs) r).
    + by apply with_provider_rep.
    + eapply catalog_step_inv; [|exact Hinv]. apply step_add; try done.
      unfold path_options. rewrite render_cstr by (apply ascii_path, Hf). apply Hf.
    + done.
    + apply list_lookup_middle. done.
    + done.
    + intros w2 _ _. by apply load_path_record.
    + by right.
Qed.

(** Adding a file provider and creating a key in it makes the provider offer
    that key: both calls succeed, and setting a principal key then finds the
    provider under its name and the key in it. *)
Theorem provider_setup_offers_key db rs f n key ks w :
  providers_rep w db rs → w_pi_lock w = None → is_superuser (w_session w) = true →
  path_ok f → string_of f ≠ get_keyring_infofile_path db → (0 < length (cstr n) < 127)%nat → name_free n rs →
  max_id rs < PG_INT32_MAX → arguments_ok w db key → (KeyLength (w_session w) = 16 ∨ KeyLength (w_session w) = 32) →
  keyring_rep w (string_of f) ks → Forall (λ k, ValidateKey k = true) ks → find_key ks key = None →
  ∃ w1 w2 kr ki,
    open_pg_tde_add_key_provider_internal db (Some (bytes_of "file")) (Some n) (Some (path_options f)) w = Ok tt w1 ∧
    open_pg_tde_create_principal_key_internal db (Some key) (Some n) w1 = Ok tt w2 ∧
    offers (set_enc_lock (Some LW_EXCLUSIVE) w2) n db key kr ki ∧ is_file_keyring kr (string_of f).
Proof.
  intros Hrep Hl Hs Hf Hne Hn Hfree Hm Ha Hlen [Hkwf Hkf] Hv Hnone. pose proof (name_free_find n rs Hfree) as Hnr.
  set (w1 := with_provider db rs f n w).
  set (kr := file_keyring (call_record (new_id db rs) (bytes_of "file") n (path_options f)) f).
  assert (keyring_rep w1 (string_of f) ks) as Hk1.
  { split; [done|]. right. unfold w1, with_provider, after_put. cbn [w_fs set_fs set_xlog].
    rewrite lookup_insert_ne by done. rewrite created_lookup, decide_True by done.
    by destruct Hkf as [[-> ->]| ->]. }
  assert (is_file_keyring kr (string_of f)) as Hkr by done.
  destruct (create_key_ok kr (string_of f) ks key (KeyLength (w_session w)) w1)
    as (ki & w2 & Ec & Hk2 & Hv2 & Hfound & Hwf & _ & _ & Hw2 & Ht); try done; [apply Ha|].
  exists w1, w2, kr, ki. split_and!; try done.
  - by apply add_path_provider.
  - unfold open_pg_tde_create_principal_key_internal.
    rewrite (bind_ok _ _ _ _ _ (check_key_arguments_ok db key n w1 Ha)). cbv beta iota. simpl GetKeyProviderByName.
    rewrite (bind_ok _ _ _ _ _ (new_provider_by_name db rs f n w Hrep Hl Hf ltac:(lia) Hfree Hm w1 Hl eq_refl)).
    rewrite (bind_ok _ _ _ _ _ (KeyringGetKey_file kr _ ks key w1 Hkr Hk1 Hv)). cbv beta iota. rewrite Hnone.
    mstep. by rewrite (bind_ok _ _ _ _ _ Ec).
  - set (w3 := set_enc_lock _ w2). split; [|split; [|done]].
    + simpl GetKeyProviderByName. apply (new_provider_by_name db rs f n w Hrep Hl Hf ltac:(lia) Hfree Hm).
      * unfold w3. by rewrite Hw2.
      * apply Ht. done.
    + rewrite (KeyringGetKey_file kr (string_of f) (ks ++ [ki])); [by rewrite Hfound|done|done|done].
Qed.

End file_provider.

(** ** Concrete catalogues *)

#[local] Existing Instances ToyServer ToyMlock.

#[global] Instance ToyNetworkFiles : NetworkFiles ToyNetwork.
Proof. split; intros; simpl; auto with always. Defined.

#[local] Instance ToyNetworkSpec : NetworkKeyringsSpec.
Proof. by split. Defined.

Definition add_p (path name : string) : SqlCall :=
  CallAdd (Some (bytes_of "file")) (Some (bytes_of name)) (Some (path_options (bytes_of path))).

Lemma rep_world0 : providers_rep world0 5 [].
Proof. split; [done|]. by left. Qed.

Lemma inv_nil : catalog_inv 5 [].
Proof. split; constructor. Qed.

Lemma provider_calls_refine_witness : ∃ w' rs',
  run_call 5 (add_p "/keys" "p") world0 = Ok tt w' ∧ catalog_step 5 (add_p "/keys" "p") [] rs' ∧ providers_rep w' 5 rs'.
Proof.
  destruct (provider_calls_refine 5 (add_p "/keys" "p") world0 [] rep_world0) as [H _].
  assert (is_ok (run_call 5 (add_p "/keys" "p") world0) = true) as E by (vm_compute; exact eq_refl).
  apply is_ok_run in E. rewrite E in H. destruct H as (rs' & H1 & H2).
  exists (world_after (run_call 5 (add_p "/keys" "p") world0)), rs'. split; [exact E|]. split; [exact H1|exact H2].
Defined.

Lemma provider_ids_never_reused_witness : ∃ rs1 rs2,
  providers_rep (run_calls 5 [add_p "/keys" "p"] world0) 5 rs1 ∧
  providers_rep (run_calls 5 [add_p "/keys" "p"; CallDelete (Some (bytes_of "p")); add_p "/keys" "q"] world0) 5 rs2 ∧
  ids rs1 `prefix_of` ids rs2 ∧ catalog_inv 5 rs2.
Proof.
  exact (provider_ids_never_reused 5 [add_p "/keys" "p"] [CallDelete (Some (bytes_of "p")); add_p "/keys" "q"] world0 eq_refl).
Defined.

Lemma path_ok_keys : path_ok (bytes_of "/keys").
Proof. split; [exact eq_refl|]. split; [discriminate|]. vm_compute. lia. Qed.

Lemma add_provider_then_get_witness : ∃ w' kr,
  open_pg_tde_add_key_provider_internal 5 (Some (bytes_of "file")) (Some (bytes_of "p"))
    (Some (path_options (bytes_of "/keys"))) world0 = Ok tt w' ∧
  kr_keyring_id kr = 1 ∧ catalog_GetKeyProviderByID 1 5 w' = Ok (Some kr) w'.
Proof.
  destruct (add_provider_then_get 5 [] (bytes_of "/keys") (bytes_of "p") world0) as (w' & kr & E & _ & Hid & _ & _ & H);
    [exact rep_world0|exact inv_nil|exact eq_refl|exact eq_refl|exact path_ok_keys|vm_compute; lia|constructor|vm_compute; done|].
  exists w', kr. split; [exact E|]. split; [exact Hid|]. rewrite Hid in H. exact H.
Defined.

Lemma provider_setup_offers_key_witness : ∃ w1 w2 kr ki,
  open_pg_tde_add_key_provider_internal 5 (Some (bytes_of "file")) (Some (bytes_of "p"))
    (Some (path_options (bytes_of "/keys"))) world0 = Ok tt w1 ∧
  open_pg_tde_create_principal_key_internal 5 (Some (bytes_of "k")) (Some (bytes_of "p")) w1 = Ok tt w2 ∧
  offers (set_enc_lock (Some LW_EXCLUSIVE) w2) (bytes_of "p") 5 (bytes_of "k") kr ki.
Proof.
  destruct (provider_setup_offers_key 5 [] (bytes_of "/keys") (bytes_of "p") (bytes_of "k") [] world0)
    as (w1 & w2 & kr & ki & E1 & E2 & H & _);
    [exact rep_world0|exact eq_refl|exact eq_refl|exact path_ok_keys|vm_compute; discriminate|vm_compute; lia|constructor
    |vm_compute; done|split; [vm_compute; discriminate|vm_compute; lia]|left; exact eq_refl
    |split; [constructor|left; split; exact eq_refl]|constructor|exact eq_refl|].
  exists w1, w2, kr, ki. split; [exact E1|]. split; [exact E2|exact H].
Defined.

(** A database whose principal key comes from its provider "p". *)
Definition world_p : World := run_calls 5 [add_p "/keys" "p"] world0.
Definition world_pk : World :=
  end_transaction (world_after (open_pg_tde_set_principal_key_internal 5 5 (Some (bytes_of "k")) (Some (bytes_of "p"))
    (end_transaction (world_after
       (open_pg_tde_create_principal_key_internal 5 (Some (bytes_of "k")) (Some (bytes_of "p")) world_p))))).

(** The same with a copy of the file of keys. *)
Definition world_copy : World :=
  set_fs (<["/keys2" := default [] (w_fs world_pk !! "/keys")]> (w_fs world_pk)) world_pk.

Definition rec_p : KeyringProviderRecord :=
  call_record 1 (bytes_of "file") (bytes_of "p") (path_options (bytes_of "/keys")).

Lemma rep_p w :
  w_fs w !! get_keyring_infofile_path 5 = w_fs world_p !! get_keyring_infofile_path 5 →
  providers_rep w 5 [rec_p] ∧ catalog_inv 5 [rec_p].
Proof.
  intros Hw. split.
  - eapply providers_rep_files; [exact Hw|].
    pose proof (with_provider_rep 5 [] (bytes_of "/keys") (bytes_of "p") world0 rep_world0 eq_refl) as H.
    unfold world_p. cbn [run_calls run_call add_p]. rewrite (add_path_provider 5 []); [exact H|exact rep_world0|exact eq_refl
      |exact eq_refl|exact path_ok_keys|vm_compute; lia|exact eq_refl|exact eq_refl].
  - eapply (catalog_step_inv 5 (add_p "/keys" "p") []); [|exact inv_nil].
    apply (step_add 5 (bytes_of "file") (bytes_of "p") (path_options (bytes_of "/keys")) []);
      [vm_compute; lia|vm_compute; lia|exact eq_refl|exact eq_refl|exact eq_refl].
Qed.

Lemma change_p_ok : ∃ w',
  open_pg_tde_change_key_provider_internal 5 (Some (bytes_of "file")) (Some (bytes_of "p"))
    (Some (path_options (bytes_of "/keys2"))) world_copy = Ok tt w'.
Proof. eexists. apply is_ok_run. vm_compute. exact eq_refl. Qed.

Lemma changed_provider_delivers_witness : ∃ w' s kr w2,
  open_pg_tde_change_key_provider_internal 5 (Some (bytes_of "file")) (Some (bytes_of "p"))
    (Some (path_options (bytes_of "/keys2"))) world_copy = Ok tt w' ∧
  key_file_info world_copy 5 s ∧ delivers kr s w2.
Proof.
  assert (bool_decide (w_fs world_copy !! get_keyring_infofile_path 5 = w_fs world_p !! get_keyring_infofile_path 5) = true)
    as Hw by (vm_compute; exact eq_refl).
  destruct (rep_p world_copy (bool_decide_eq_true_1 _ Hw)) as (Hrep & Hinv).
  destruct change_p_ok as [w' E].
  destruct (changed_provider_delivers 5 [rec_p] (bytes_of "file") (bytes_of "p") (path_options (bytes_of "/keys2")) [5]
    world_copy w' Hrep Hinv ltac:(intros; exact eq_refl) E) as (i & old & kr & w1 & w1' & Hf & _ & _ & _ & H).
  set (h := take 320 (default [] (w_fs world_copy !! open_pg_tde_set_db_file_path 5))).
  set (s := fh_signed_key_info (KeyFileHeader_decode h)).
  assert (key_file_info world_copy 5 s) as Hinfo.
  { exists h, (drop 320 (default [] (w_fs world_copy !! open_pg_tde_set_db_file_path 5))). split; [|split; [|exact eq_refl]].
    - unfold h. rewrite take_drop. assert (bool_decide (is_Some (w_fs world_copy !! open_pg_tde_set_db_file_path 5)) = true)
        as Hs by (vm_compute; exact eq_refl). apply bool_decide_eq_true_1 in Hs as [bs Hs]. rewrite Hs. exact eq_refl.
    - vm_compute. exact eq_refl. }
  assert (pki_keyringId (spki_data s) = 1) as Hid by (vm_compute; exact eq_refl).
  assert (kpr_provider_id old = 1) as Hold.
  { apply find_record_Some in Hf as (Hi & _). destruct i as [|[|i]]; [|discriminate Hi..]. by injection Hi as <-. }
  destruct (H 5 s) as (w2 & _ & Hd).
  - left.
  - exact Hinfo.
  - rewrite Hid, Hold. exact eq_refl.
  - exists w', s, kr, w2. split; [exact E|]. split; [exact Hinfo|exact Hd].
Defined.

Lemma provider_in_use_not_deleted_witness : ∃ e w',
  open_pg_tde_delete_key_provider_internal 5 (Some (bytes_of "p")) world_pk = Err e w' ∧ w_fs w' = w_fs world_pk.
Proof.
  assert (bool_decide (w_fs world_pk !! get_keyring_infofile_path 5 = w_fs world_p !! get_keyring_infofile_path 5) = true)
    as Hw by (vm_compute; exact eq_refl).
  destruct (rep_p world_pk (bool_decide_eq_true_1 _ Hw)) as (Hrep & _).
  assert (bool_decide (pki_keyringId ∘ pk_keyInfo <$> w_pk_cache world_pk !! 5 = Some 1) = true) as Hc
    by (vm_compute; exact eq_refl).
  apply bool_decide_eq_true_1, fmap_Some in Hc as (pk & Hc & Hid).
  apply (provider_in_use_not_deleted 5 (bytes_of "p") (file_keyring rec_p (bytes_of "/keys")) [5] 5 pk world_pk world_pk).
  - intros. exact eq_refl.
  - apply (by_name_last 5 [] rec_p); [exact Hrep|exact eq_refl|apply selected_new; vm_compute; lia|constructor|].
    intros w2 _ _. exact (load_path_record (bytes_of "/keys") 1 (bytes_of "p") w2 path_ok_keys).
  - left.
  - exact Hc.
  - transitivity 1; [symmetry; exact Hid|exact eq_refl].
Defined.

(** Names are compared with case by the check for duplicates and without
    case by the look-up: a provider "P" can be added beside "p", but the name
    "P" then finds "p", and changing "P" fails. *)
Theorem provider_names_case_confused :
  let calls := [add_p "/keys" "p"; add_p "/other" "P"] in
  let w := run_calls 5 calls world0 in
  is_ok (run_call 5 (add_p "/other" "P") world_p) = true ∧
  match catalog_GetKeyProviderByName (bytes_of "P") 5 w with
  | Ok kr _ => cstr (kr_provider_name kr) = bytes_of "p" ∧ kr_keyring_id kr = 1
  | Err _ _ => False
  end ∧
  match open_pg_tde_change_key_provider_internal 5 (Some (bytes_of "file")) (Some (bytes_of "P"))
          (Some (path_options (bytes_of "/new"))) w with
  | Ok _ _ => False
  | Err e _ => e = mkError ERROR "provider id mismatch"
  end.
Proof. split; [vm_compute; exact eq_refl|]. split; [vm_compute; split; exact eq_refl|vm_compute; exact eq_refl]. Qed.
