(* ===== verification/ChangeProviderThms.v ===== *)
(** Properties of open_pg_tde_change_key_provider: the text it builds from its
    arguments, what it changes in the catalogue, and that the server finds the
    provider there that was asked for. *)
From S2P Require Import Prelude Types Environ Instances Ciphers EncTde KeyringOptions KeyringOptionsThms KeyFile KeyMap.
From S2P Require Import WalKeys XLogSmgr ArchiveTools Keyring KeyringThms KeyProviders ChangeProvider ProviderSpec ProviderSql ProviderThms.

(** ** The text *)

(** All that is appended. *)
Definition json_text (args : list (bytes * option bytes)) : bytes :=
  [x7b] ++ concat (cstr <$> concat (imap (λ i '(key, value), json_pair i key value) args)) ++ [x7d].

Lemma json_appends_spec bufsize srcs : ∀ buffer,
  (length buffer < bufsize)%nat →
  let text := buffer ++ concat (cstr <$> srcs) in
  json_appends buffer bufsize srcs =
    (if (length text <? bufsize)%nat then text else (json_appends buffer bufsize srcs).1, (length text <? bufsize)%nat).
Proof.
  induction srcs as [|src srcs IH]; intros buffer Hb; cbv zeta.
  - change (cstr <$> []) with (@nil bytes). cbn [concat json_appends]. rewrite app_nil_r. by rewrite (proj2 (Nat.ltb_lt _ _) Hb).
  - cbn [json_appends json_append]. rewrite fmap_cons. cbn [concat]. rewrite app_assoc, (length_app (_ ++ _)), length_app.
    destruct (Nat.ltb_spec (length buffer + length (cstr src)) bufsize) as [Hl|Hl].
    + rewrite take_ge by (rewrite length_app; lia). specialize (IH (buffer ++ cstr src)). cbv zeta in IH.
      rewrite !length_app in IH. rewrite IH at 1 by lia. destruct (Nat.ltb _ _); done.
    + rewrite (proj2 (Nat.ltb_ge _ _)) by lia. done.
Qed.

(** The options are written completely or refused: if the whole text with
    its final zero fits into the buffer it is the result, and else there is
    none. *)
Theorem build_json_complete bufsize args :
  (0 < bufsize)%nat →
  build_json bufsize args = if (length (json_text args) <? bufsize)%nat then Some (json_text args) else None.
Proof.
  intros Hb. unfold build_json. rewrite json_appends_spec by done.
  replace ([] ++ concat _) with (json_text args); [by destruct (Nat.ltb _ _)|].
  unfold json_text. rewrite !fmap_app, !concat_app. done.
Qed.

(** ** The catalogue *)

Section change.
Context {SSL : OpenSSL} {K : Kernel} {NF : NoFaults K} {PKS : PrincipalKeys} {CE : ChangeEnv}.

Definition shut_down (s : DBState) : bool :=
  match s with DB_OTHER_STATE => false | _ => true end.

(** The record with the new options. *)
Definition changed_record (old : KeyringProviderRecord) (t json : bytes) : KeyringProviderRecord :=
  mkProviderRecord (kpr_provider_id old) (kpr_provider_name old) (char_array MAX_KEYRING_OPTION_LEN json)
    (get_keyring_provider_from_typename t).

Lemma changed_record_wf old t json : ProviderRecord_wf old → ProviderRecord_wf (changed_record old t json).
Proof.
  intros (H1 & H2 & _ & _). split; [exact H1|]. split; [exact H2|]. split; [apply char_array_length|].
  unfold changed_record, get_keyring_provider_from_typename. cbn [kpr_provider_type]. unfold is_u32, FILE_KEY_PROVIDER, KMIP_KEY_PROVIDER, OPENBAO_KEY_PROVIDER, UNKNOWN_KEY_PROVIDER.
  repeat case_match; lia.
Qed.

(** Only caches change. *)
Lemma set_data_dir_ok d w :
  ∃ w', open_pg_tde_set_data_dir d w = Ok tt w' ∧ w_fs w' = w_fs w ∧ w_xlog w' = w_xlog w.
Proof. eexists. split; [reflexivity|]. done. Qed.

(** C36: the program changes nothing unless the cluster was shut down and its
    control file is intact. Otherwise it replaces the options and the type of
    the named provider, of the given database, keeps its id and its name and
    all other providers, writes no WAL and changes no other file. *)
Theorem change_tool_updates argv d db name t params json crc state i old rs w :
  only_prints argv = false → getopt_datadir argv = Some (Some d, db :: name :: t :: params) →
  (length (cstr d) < 1000)%nat → get_controlfile d = Some (crc, state) →
  provider_json t params w = Ok json w → providers_rep w (atoi_oid db) rs → find_record name rs = Some (i, old) →
  if crc && shut_down state then
    ∃ w', change_key_provider_main argv w = Ok tt w' ∧
      providers_rep w' (atoi_oid db) (<[i := changed_record old t json]> rs) ∧ w_xlog w' = w_xlog w ∧
      ∀ p, p ≠ get_keyring_infofile_path (atoi_oid db) → w_fs w' !! p = w_fs w !! p
  else ∃ msg, change_key_provider_main argv w = Err (mkError FATAL msg) w.
Proof.
  intros Hp Hopt Hd Hctl Hj Hrep Hfind. unfold change_key_provider_main. rewrite Hp, Hopt. cbv beta iota.
  rewrite !(bind_ok _ _ _ _ _ Hj), Hctl. destruct crc; cbn [negb andb]; [|by eexists].
  assert (∃ w', (if Nat.leb MAXPGPATH (length (cstr d) + 1 + length OPEN_PG_TDE_DATA_DIR)
            then ereport PANIC "write past the end of tdedir"
            else open_pg_tde_set_data_dir (cstr d ++ bytes_of "/" ++ OPEN_PG_TDE_DATA_DIR);;
              r ← get_keyring_info_file_record_by_name name (atoi_oid db);
              match r with
              | None => ereport FATAL "provider not found"
              | Some record =>
                  write_key_provider_info (mkProviderRecordInFile (kprf_database_id record) (kprf_offset_in_file record)
                    (changed_record (kprf_provider record) t json)) false
              end) w = Ok tt w' ∧
      providers_rep w' (atoi_oid db) (<[i := changed_record old t json]> rs) ∧ w_xlog w' = w_xlog w ∧
      ∀ p, p ≠ get_keyring_infofile_path (atoi_oid db) → w_fs w' !! p = w_fs w !! p) as Hrun.
  { rewrite (proj2 (Nat.leb_gt _ _)) by (change (length OPEN_PG_TDE_DATA_DIR) with 11%nat; unfold MAXPGPATH; lia).
    destruct (set_data_dir_ok (cstr d ++ bytes_of "/" ++ OPEN_PG_TDE_DATA_DIR) w) as (w1 & E1 & Hf1 & Hx1).
    rewrite (bind_ok _ _ _ _ _ E1). pose proof Hrep as [Hwf Hfile].
    destruct (find_record_Some name rs i old Hfind) as (Hi & _ & _).
    destruct Hfile as [[_ ->]|Hfile]; [done|].
    assert (providers_rep w1 (atoi_oid db) rs) as Hrep1 by (by apply (providers_rep_files w); [rewrite Hf1|]).
    rewrite <-Hf1 in Hfile. rewrite (bind_ok _ _ _ _ _ (record_by_name_ok (atoi_oid db) rs name w1 Hwf Hfile)).
    fold (find_record name rs). rewrite Hfind. cbn [fmap option_fmap option_map kprf_database_id kprf_offset_in_file kprf_provider].
    pose proof (lookup_lt_Some _ _ _ Hi) as Hlt.
    assert (ProviderRecord_wf (changed_record old t json)) as Hr by (apply changed_record_wf; by apply (Forall_lookup_1 _ _ _ _ Hwf Hi)).
    rewrite (write_provider_ok (atoi_oid db) rs i _ false w1 Hrep1 ltac:(lia) Hr).
    eexists. split; [reflexivity|]. rewrite app_nil_r, put_record_insert by done. split_and!.
    - split; [by apply Forall_insert|]. right. cbn. apply lookup_insert_eq.
    - cbn. done.
    - intros p Hp'. cbn. rewrite lookup_insert_ne by done. by rewrite Hf1. }
  destruct state; [exact Hrun|exact Hrun|by eexists].
Qed.

End change.

(** ** The provider the server finds *)

(** Printable characters that need no escapes, and a value that is not taken as
    an object. *)
Definition plain_string (s : bytes) : bool :=
  forallb (λ b, (32 <=? b2z b) && (b2z b <? 127) && negb (bool_decide (b = x22)) && negb (bool_decide (b = x5c))) s &&
  match s with b :: _ => negb (bool_decide (b = x7b)) | [] => true end.
Definition plain_fields (fields : list (bytes * option bytes)) : bool :=
  forallb (λ '(k, v), plain_string k && match v with Some v => plain_string v | None => false end) fields.

(** An object of strings that need no escapes is written in the usual way. *)
Class JsonPlain (J : JsonApi) {JS : JsonApiSpec J} :=
  render_plain fields : plain_fields fields = true → render fields = json_text fields.

Lemma plain_ascii s : plain_string s = true → ascii_string s = true.
Proof.
  unfold plain_string, ascii_string. intros [H _]%andb_prop. rewrite forallb_forall in H |- *.
  intros b Hb. specialize (H b Hb). repeat apply andb_prop in H as [H ?]. apply Z.leb_le in H.
  match goal with E : (b2z b <? 127) = true |- _ => apply Z.ltb_lt in E end.
  rewrite (proj2 (Z.ltb_lt _ _)), (proj2 (Z.ltb_lt _ _)) by lia. done.
Qed.

Lemma plain_fields_ascii fields : plain_fields fields = true → ascii_fields fields = true.
Proof.
  unfold plain_fields, ascii_fields. rewrite !forallb_forall. intros H [k v] Hin. specialize (H _ Hin). cbn in H.
  apply andb_prop in H as [Hk Hv]. destruct v as [v|]; [|done]. cbn. by rewrite !plain_ascii.
Qed.

Section loads.
Context {SSL : OpenSSL} {K : Kernel} {J : JsonApi} {JS : JsonApiSpec J} {JP : JsonPlain J}.

Lemma options_text fields t old json :
  plain_fields fields = true → build_json MAX_KEYRING_OPTION_LEN fields = Some json →
  cstr (kpr_options (changed_record old t json)) = render fields.
Proof.
  intros Hf Hj. rewrite build_json_complete in Hj by (unfold MAX_KEYRING_OPTION_LEN; lia).
  destruct (Nat.ltb_spec (length (json_text fields)) MAX_KEYRING_OPTION_LEN) as [Hl|]; [|done]. injection Hj as <-.
  rewrite <-(render_plain fields Hf) in *. cbn [changed_record kpr_options].
  pose proof (render_cstr fields (plain_fields_ascii _ Hf)) as Hc. rewrite cstr_char_array; by rewrite Hc.
Qed.

(** A provider that was changed to a file is the provider with that file for
    the server, under the same id and name. *)
Theorem changed_to_file_loads path json old w :
  plain_string path = true → path ≠ [] → provider_json (bytes_of "file") [path] w = Ok json w →
  let r := changed_record old (bytes_of "file") json in
  load_keyring_provider_from_record r w = Ok (file_keyring r path) w.
Proof.
  intros Hp Hne Hj r. unfold provider_json in Hj. change (strcmp_eq (bytes_of "file") (bytes_of "file")) with true in Hj. cbv beta iota zeta in Hj.
  destruct (build_json _ _) as [json'|] eqn:Hb; [|done]. injection Hj as ->.
  assert (plain_fields [(bytes_of "path", Some path)] = true) as Hf by (cbn [plain_fields forallb]; by rewrite Hp).
  pose proof (options_text _ (bytes_of "file") old json Hf Hb) as Ho.
  apply load_path; [|done|exact Ho]. split_and!; [by apply plain_ascii|done|].
  unfold path_options. rewrite (render_plain _ Hf).
  rewrite build_json_complete in Hb by (unfold MAX_KEYRING_OPTION_LEN; lia).
  destruct (Nat.ltb_spec (length (json_text [(bytes_of "path", Some path)])) MAX_KEYRING_OPTION_LEN) as [Hl|]; [exact Hl|done].
Qed.

(** A provider that was changed to a KMIP server without the path of a CA,
    which the program accepts as an optional argument, cannot be loaded any
    more. *)
Theorem changed_to_kmip_needs_ca host port cert key json old w :
  plain_string host = true → plain_string port = true → plain_string cert = true → plain_string key = true →
  provider_json (bytes_of "kmip") [host; port; cert; key] w = Ok json w →
  ∃ msg, load_keyring_provider_from_record (changed_record old (bytes_of "kmip") json) w = Err (mkError ERROR msg) w.
Proof.
  intros H1 H2 H3 H4 Hj. unfold provider_json in Hj.
  change (strcmp_eq (bytes_of "file") _) with false in Hj. change (strcmp_eq (bytes_of "openbao") _) with false in Hj.
  change (strcmp_eq (bytes_of "kmip") _) with true in Hj. cbv beta iota zeta in Hj. cbn [length Nat.leb head default from_option] in Hj.
  destruct (build_json _ _) as [json'|] eqn:Hb; [|done]. injection Hj as ->.
  set (fields := [_; _; _; _; _]) in Hb.
  assert (plain_fields fields = true) as Hf by (unfold fields; cbn [plain_fields forallb]; by rewrite H1, H2, H3, H4).
  pose proof (options_text _ (bytes_of "kmip") old json Hf Hb) as Ho.
  unfold load_keyring_provider_from_record. change (kpr_provider_type _) with KMIP_KEY_PROVIDER. cbn [Z.eqb]. simpl Z.eqb. cbv iota.
  unfold load_kmip_keyring_provider_options. rewrite Ho, bind_assoc.
  assert (ParseKeyringJSONOptions KMIP_KEY_PROVIDER (KmipKeyring None None None None None) (render fields) w =
            Ok (KmipKeyring (Some host) (Some port) (Some []) (Some cert) (Some key)) w) as Ep.
  { apply parse_options_ok; [done|by apply plain_fields_ascii|done]. }
  rewrite (bind_ok _ _ _ _ _ Ep). cbv beta iota. unfold is_empty at 3. cbn [cstr length Nat.eqb].
  rewrite !orb_true_r. cbn. by eexists.
Qed.

End loads.

(** ** The parser of the examples *)

Lemma plain_escape s : plain_string s = true → json_escape s = s ∧ cstr s = s.
Proof.
  intros [H _]%andb_prop. rewrite forallb_forall in H. induction s as [|b s IH]; [done|].
  destruct IH as [IH1 IH2]; [intros x Hx; apply H; by right|]. pose proof (H b (or_introl eq_refl)) as Hb.
  repeat apply andb_prop in Hb as [Hb ?].
  repeat match goal with E : negb (bool_decide _) = true |- _ => apply negb_true_iff, bool_decide_eq_false in E end.
  cbn [json_escape]. rewrite !bool_decide_eq_false_2 by done. cbn [orb]. rewrite IH1. split; [done|].
  simpl. rewrite decide_False by (intros ->; done). by rewrite IH2.
Qed.

Definition pair_text (i : nat) (kv : bytes * option bytes) : bytes := concat (cstr <$> json_pair i kv.1 kv.2).

Lemma plain_pair i k v :
  plain_string k = true → plain_string v = true →
  pair_text i (k, Some v) = (if Nat.eqb i 0 then [] else [x2c]) ++ x22 :: json_escape k ++ x22 :: x3a :: x22 :: json_escape v ++ [x22].
Proof.
  intros Hk Hv. destruct (plain_escape k Hk) as [Ek Ck], (plain_escape v Hv) as [Ev Cv].
  unfold pair_text, json_pair. cbn [fst snd]. rewrite Cv, Ek, Ev.
  assert (match v with b :: _ => negb (bool_decide (b = x7b)) && negb (bool_decide (b = x22)) | [] => true end = true) as ->.
  { unfold plain_string in Hv. apply andb_prop in Hv as [Hv1 Hv2]. destruct v as [|b v]; [done|]. rewrite Hv2. cbn [forallb] in Hv1.
    repeat apply andb_prop in Hv1 as [Hv1 ?]. done. }
  rewrite !fmap_app, !concat_app. change (cstr <$> [[x22]; k; [x22; x3a]]) with [[x22]; cstr k; [x22; x3a]].
  change (cstr <$> [v]) with [cstr v]. rewrite Ck, Cv. destruct (Nat.eqb i 0); cbn; rewrite ?app_nil_r, <-?app_assoc; cbn; by rewrite <-?app_assoc.
Qed.

Lemma pairs_text fields : ∀ i,
  concat (cstr <$> concat (imap (λ j '(key, value), json_pair (i + j) key value) fields)) =
  concat (imap (λ j, pair_text (i + j)) fields).
Proof.
  induction fields as [|[k v] fields IH]; intros i; [done|]. cbn [imap concat]. rewrite fmap_app, concat_app. cbn [concat]. f_equal.
  specialize (IH (S i)). erewrite (imap_ext _ (λ j '(key, value), json_pair (S i + j) key value)); [|intros j [? ?] _; simpl; by rewrite Nat.add_succ_r].
  rewrite IH. f_equal. apply imap_ext. intros j x _. simpl. by rewrite Nat.add_succ_r.
Qed.

Lemma members_text fields : ∀ i, plain_fields fields = true →
  concat (imap (λ j, pair_text (i + j)) fields) ++ [x7d] =
  (if Nat.eqb i 0 || Nat.eqb (length fields) 0 then [] else [x2c]) ++ render_members fields.
Proof.
  induction fields as [|[k v] fields IH]; intros i Hf; [by destruct (Nat.eqb i 0)|]. cbn [plain_fields forallb] in Hf.
  apply andb_prop in Hf as [[Hk Hv]%andb_prop Hf]. destruct v as [v|]; [|done].
  cbn [imap concat]. rewrite <-app_assoc. erewrite (imap_ext _ (λ j, pair_text (S i + j))); [|intros j x _; simpl; by rewrite Nat.add_succ_r].
  rewrite (IH (S i) Hf), Nat.add_0_r, plain_pair by done. cbn [length Nat.eqb]. rewrite orb_false_r. cbn [render_members orb].
  destruct fields as [|f fields]; cbn [length Nat.eqb app]; repeat (rewrite <-app_assoc || cbn [app]); done.
Qed.

#[global] Instance ToyJsonPlain : JsonPlain ToyJson.
Proof.
  intros fields Hf. change (render fields) with (toy_render fields). unfold json_text, toy_render.
  cbn [app]. f_equal. symmetry. etrans; [|exact (members_text fields 0 Hf)]. f_equal. exact (pairs_text fields 0).
Qed.

(** ** A cluster with one provider *)

#[local] Instance ChangeExample : ChangeEnv := {|
  getopt_datadir args := Some (Some (bytes_of "/data"), drop 1 args);
  getenv_PGDATA := None;
  get_controlfile _ := Some (true, DB_SHUTDOWNED);
|}.

Definition provider0 : KeyringProviderRecord :=
  mkProviderRecord 1 (char_array MAX_PROVIDER_NAME_LEN (bytes_of "p")) (zeros MAX_KEYRING_OPTION_LEN) FILE_KEY_PROVIDER.
Definition world_p : World :=
  set_fs (<[get_keyring_infofile_path 5 := records_file [provider0]]> (w_fs world0)) world0.
Definition change_args : list bytes := bytes_of <$> ["change"; "5"; "p"; "file"; "/keys2"].
Definition json0 : bytes := json_text [(bytes_of "path", Some (bytes_of "/keys2"))].

Lemma world_p_rep : providers_rep world_p 5 [provider0].
Proof. split; [|right; apply lookup_insert_eq]. apply Forall_singleton. split_and!; done. Qed.

Lemma json0_built w : provider_json (bytes_of "file") [bytes_of "/keys2"] w = Ok json0 w.
Proof.
  assert (build_json MAX_KEYRING_OPTION_LEN [(bytes_of "path", Some (bytes_of "/keys2"))] = Some json0) as E
    by (vm_compute; reflexivity).
  unfold provider_json. change (strcmp_eq (bytes_of "file") (bytes_of "file")) with true. cbv beta iota zeta. by rewrite E.
Qed.

Lemma build_json_complete_witness : build_json 20 [(bytes_of "path", Some (bytes_of "/keys2"))] = Some json0.
Proof. exact (build_json_complete 20 [(bytes_of "path", Some (bytes_of "/keys2"))] ltac:(lia)). Defined.

Lemma change_tool_updates_witness :
  ∃ w', change_key_provider_main change_args world_p = Ok tt w' ∧
    providers_rep w' 5 [changed_record provider0 (bytes_of "file") json0].
Proof.
  destruct (change_tool_updates change_args (bytes_of "/data") (bytes_of "5") (bytes_of "p") (bytes_of "file")
              [bytes_of "/keys2"] json0 true DB_SHUTDOWNED 0 provider0 [provider0] world_p) as (w' & E & Hr & _).
  - vm_compute. reflexivity.
  - vm_compute. reflexivity.
  - vm_compute. lia.
  - reflexivity.
  - apply json0_built.
  - exact world_p_rep.
  - vm_compute. reflexivity.
  - exists w'. split; [exact E|exact Hr].
Defined.

Lemma changed_to_file_loads_witness :
  load_keyring_provider_from_record (changed_record provider0 (bytes_of "file") json0) world0 =
    Ok (file_keyring (changed_record provider0 (bytes_of "file") json0) (bytes_of "/keys2")) world0.
Proof.
  exact (changed_to_file_loads (bytes_of "/keys2") json0 provider0 world0 eq_refl ltac:(discriminate) (json0_built world0)).
Defined.

Definition json1 : bytes :=
  json_text [(bytes_of "host", Some (bytes_of "h")); (bytes_of "port", Some (bytes_of "1")); (bytes_of "certPath", Some (bytes_of "c"));
             (bytes_of "keyPath", Some (bytes_of "k")); (bytes_of "caPath", Some [])].

Lemma json1_built w :
  provider_json (bytes_of "kmip") [bytes_of "h"; bytes_of "1"; bytes_of "c"; bytes_of "k"] w = Ok json1 w.
Proof.
  unfold provider_json. change (strcmp_eq (bytes_of "file") _) with false. change (strcmp_eq (bytes_of "openbao") _) with false.
  change (strcmp_eq (bytes_of "kmip") _) with true. cbv beta iota zeta. cbn [length Nat.leb head default from_option].
  set (fields := [_; _; _; _; _]). assert (build_json MAX_KEYRING_OPTION_LEN fields = Some json1) as -> by (vm_compute; reflexivity).
  done.
Qed.

Lemma changed_to_kmip_needs_ca_witness :
  ∃ msg, load_keyring_provider_from_record (changed_record provider0 (bytes_of "kmip") json1) world0 = Err (mkError ERROR msg) world0.
Proof.
  exact (changed_to_kmip_needs_ca (bytes_of "h") (bytes_of "1") (bytes_of "c") (bytes_of "k") json1 provider0 world0
           eq_refl eq_refl eq_refl eq_refl (json1_built world0)).
Defined.
