(* ===== verification/Network.v ===== *)
(** The key services of the server: the routines of keyring_kmip.c and
    keyring_openbao.c as the implementation of the interface against which the
    providers, the principal keys and everything above them are verified. *)
From S2P Require Import Prelude Types Environ KeyringOptions KeyFile Keyring KeyringThms.
From S2P Require Import OpenBao OpenBaoThms Kmip KmipThms ProviderThms.

Section network.
Context {SSL : OpenSSL} {K : Kernel} {J : JsonApi} {CU : Curl} {B64 : Base64} {TLS : TlsApi} {KA : KmipApi}.

(** [InstallKmipKeyring] and [InstallOpenBaoKeyring] *)
#[export] Instance ServiceKeyrings : NetworkKeyrings :=
  {| keyringKmipRoutine := kmip_routine; keyringOpenBaoRoutine := openbao_routine |}.

(** ** Nothing of the server is touched *)

Lemma net_kept w w' : set_net (w_net w) w' = w → kept w w'.
Proof. intros E. rewrite <-E. split; [done|]. by intros db pk. Qed.

Lemma sends_kept {A} P (m : M A) : always (sends P) m → always kept m.
Proof. intros H w. specialize (H w). destruct (m w); destruct H as [E _]; by apply net_kept. Qed.

Lemma session_kept {A} f P (m : M A) : always (session f P) m → always kept m.
Proof. intros H w. specialize (H w). destruct (m w); destruct H as [E _]; by apply net_kept. Qed.

(** A provider of another kind is refused at once. *)
Lemma not_openbao kr : (∃ f, is_openbao kr f) ∨ (∀ A (g : OpenBaoFields → M A), always kept (openbao_fields kr ≫= g)).
Proof.
  destruct (kr_specific kr) as [|host port ca cert key|token tp url ca mount ns] eqn:E.
  1-2: right; intros A g w; unfold openbao_fields; rewrite E; change (kept w w); reflexivity.
  left. exists (mkOpenBaoFields token url ca mount ns). by exists tp.
Qed.

Lemma not_kmip kr : (∃ f, is_kmip kr f) ∨ (∀ A (g : KmipFields → M A), always kept (kmip_fields kr ≫= g)).
Proof.
  destruct (kr_specific kr) as [|host port ca cert key|token tp url ca mount ns] eqn:E.
  1,3: right; intros A g w; unfold kmip_fields; rewrite E; change (kept w w); reflexivity.
  left. by exists (mkKmipFields host port ca cert key).
Qed.

#[export] Instance ServiceFiles : NetworkFiles ServiceKeyrings.
Proof.
  split; intros kr; cbn.
  - intros n. destruct (not_kmip kr) as [[f Hf]|H]; [|apply H]. eapply session_kept, kmip_get_session; done.
  - intros n. destruct (not_openbao kr) as [[f Hf]|H]; [|apply H]. eapply sends_kept, openbao_get_confined; done.
  - destruct (not_kmip kr) as [[f Hf]|H]; [|apply H]. eapply session_kept, kmip_validate_session; done.
  - destruct (not_openbao kr) as [[f Hf]|H]; [|apply H]. eapply sends_kept, openbao_validate_confined; done.
Qed.

(** ** Keys that fit *)

#[export] Instance ServiceSpec : NetworkKeyringsSpec.
Proof.
  split; intros kr n w k c w' E; cbn in E.
  - unfold kmip_get_key_by_name in E. minv E. minv E.
    match goal with r : option SslConnection |- _ => destruct r as [bio|]; [|done] end. minv E.
    match goal with r : Z * (nat * option bytes) |- _ => destruct r as [res [ids [id|]]] end; destruct (negb _); try done.
    destruct (Nat.ltb _ _); [done|]. minv E. destruct (negb _); [done|]. minv E.
    match goal with r : Z * bytes |- _ => destruct r as [res2 keyp] end. destruct (negb _); [done|].
    destruct (Z.ltb_spec MAX_KEY_DATA_SIZE (Z.of_nat (length keyp))) as [|Hl]; [done|]. injection E as <- <- <-.
    unfold MAX_KEY_DATA_SIZE, KEY_DATA_SIZE_256 in Hl. apply fetched_key_wf; [|lia].
    match goal with H : context [uninit] |- _ => exact (uninit_length _ _ _ _ H) end.
  - unfold openbao_get_key_by_name in E. minv E. cbv zeta in E. minv E.
    match goal with r : option (bytes * Z) |- _ => destruct r as [[str code]|]; [|done] end.
    destruct (code =? 404); [done|]. destruct (negb _); [done|]. destruct (parse_json_response str) as [p v].
    destruct (negb v); [done|]. destruct (resp_key p) as [key|]; [|done]. minv E.
    destruct (pg_b64_decode _ _) as [data|]; [|done].
    destruct (Z.ltb_spec MAX_KEY_DATA_SIZE (Z.of_nat (length data))) as [|Hl]; [done|]. injection E as <- <- <-.
    unfold MAX_KEY_DATA_SIZE, KEY_DATA_SIZE_256 in Hl. apply fetched_key_wf; [|lia].
    match goal with H : context [uninit] |- _ => exact (uninit_length _ _ _ _ H) end.
Qed.

End network.
