(* ===== verification/EventCapture.v ===== *)
(** open_pg_tde_event_capture.c: the event triggers and the utility hook that
    decide, while a DDL command runs, whether new relation files are encrypted.

    The catalogues of the server, its name resolution and its commands are the
    class [Catalog]. Parse trees are the inductive type [Node] with the fields
    the code looks at; a pointer to a parse tree is an integer next to it.
    Heavy-weight locks on relations are not modelled. *)
From S2P Require Import Prelude Types Environ Instances Ciphers EncTde KeyFile KeyMap WalKeys Keyring PrincipalKey.

(** ** What the code sees of the server *)

Inductive Relkind :=
| RELKIND_RELATION | RELKIND_INDEX | RELKIND_SEQUENCE | RELKIND_TOASTVALUE | RELKIND_VIEW
| RELKIND_MATVIEW | RELKIND_COMPOSITE_TYPE | RELKIND_FOREIGN_TABLE | RELKIND_PARTITIONED_TABLE
| RELKIND_PARTITIONED_INDEX.

#[export] Instance Relkind_eq_dec : EqDecision Relkind.
Proof. solve_decision. Defined.

(** [RELKIND_HAS_STORAGE] of pg_class.h *)
Definition RELKIND_HAS_STORAGE (k : Relkind) : bool :=
  match k with
  | RELKIND_RELATION | RELKIND_INDEX | RELKIND_SEQUENCE | RELKIND_TOASTVALUE | RELKIND_MATVIEW => true
  | _ => false
  end.

Record Form_pg_class := mkForm_pg_class {
  cls_oid : Z;
  relkind : Relkind;
  relam : Z;
  reltype : Z;
  reloftype : Z;
  relpersistence : Z;
}.

Record Form_pg_database := mkForm_pg_database {
  dat_oid : Z;
  datname : string;
  dattablespace : Z;
}.

Definition RangeVar : Type := list string.

Record DefElem := mkDefElem { defname : string; defarg : list string }.

(** A clause of ALTER TABLE; the name of the access method may be NULL. *)
Inductive AlterTableCmd :=
| AT_SetAccessMethod (name : option string)
| AT_Other.

Inductive Node :=
| IndexStmt (relation : RangeVar)
| CreateStmt (accessMethod : option string) (partbound : bool) (inhRelations : list RangeVar)
| CreateTableAsStmt (into_accessMethod : option string)
| AlterTableStmt (relation : RangeVar) (cmds : list AlterTableCmd)
| CreateSeqStmt (options : list DefElem)
| AlterSeqStmt (sequence : RangeVar) (options : list DefElem)
| CreatedbStmt (options : list DefElem)
| AlterDatabaseStmt (dbname : string) (options : list DefElem)
| OtherStmt.

Section interface.
Context {SSL : OpenSSL}.

Class Catalog := {
  (** scans *)
  pg_class : World → list Form_pg_class;
  pg_database_rows : World → list Form_pg_database;
  find_inheritance_children : World → Z → list Z;
  getOwnedSequences : World → Z → list Z;
  (** names; the flag is [missing_ok] *)
  RangeVarGetRelid : RangeVar → bool → M Z;
  get_table_am_oid : string → M Z;
  defGetQualifiedName : DefElem → M (list string);
  defGetString : DefElem → M string;
  (** commands *)
  SequenceChangePersistence : Z → Z → M unit;
  next_ProcessUtility : Node → M unit;
  (** locking a database waits for other sessions, which may rename it; the
      number bounds how often that happens during one look-up *)
  LockDatabase : Z → M unit;
  UnlockDatabase : Z → M unit;
  database_renames : nat;
}.

End interface.

Inductive EncryptionMix := ENC_MIX_UNKNOWN | ENC_MIX_PLAIN | ENC_MIX_ENCRYPTED | ENC_MIX_MIXED.

#[export] Instance EncryptionMix_eq_dec : EqDecision EncryptionMix.
Proof. solve_decision. Defined.

(** [TdeDdlEvent event = {.parsetree = parsetree}] *)
Definition new_event (parsetree : Z) : TdeDdlEvent :=
  mkTdeDdlEvent parsetree TDE_ENCRYPT_MODE_RETAIN InvalidOid InvalidOid.

Definition with_mode (e : TdeDdlEvent) (m : TDEEncryptMode) : TdeDdlEvent :=
  mkTdeDdlEvent (ev_parsetree e) m (ev_rebuildSequencesFor e) (ev_rebuildSequence e).

Section event_capture.
Context {SSL : OpenSSL} {K : Kernel} {PP : PgPort} {NK : NetworkKeyrings} {PR : Providers} {SV : Server}.
Context {CAT : Catalog}.

Definition modify_ddl (f : DdlState → DdlState) : M unit := modify (λ w, set_ddl (f (w_ddl w)) w).

(** ** Transaction ids of the server *)

Definition GetCurrentFullTransactionIdIfAny : M Z := gets (λ w, CurrentFullTransactionId (w_ddl w)).

(** The transactions around the current one get their ids before it does. *)
Fixpoint assign_parents (parents : list Z) (next : Z) : list Z * Z :=
  match parents with
  | [] => ([], next)
  | p :: ps =>
      if negb (p =? 0) then (parents, next)
      else let '(ps, next) := assign_parents ps next in (next :: ps, next + 1)
  end.

Definition assign_xid (d : DdlState) : DdlState :=
  let '(parents, next) := assign_parents (ParentFullTransactionIds d) (NextFullTransactionId d) in
  mkDdlState (ddlEventStackTid d) (ddlEventStack d) next (next + 1) parents.

(** The id of the current transaction or subtransaction. *)
Definition GetCurrentFullTransactionId : M Z :=
  tid ← GetCurrentFullTransactionIdIfAny;
  if negb (tid =? 0) then mret tid
  else modify_ddl assign_xid;; GetCurrentFullTransactionIdIfAny.

(** The start and the end of a subtransaction (a savepoint, a block with an
    exception handler). *)
Definition begin_subxact : M unit :=
  modify_ddl (λ d, mkDdlState (ddlEventStackTid d) (ddlEventStack d) 0 (NextFullTransactionId d)
                     (CurrentFullTransactionId d :: ParentFullTransactionIds d)).

Definition end_subxact : M unit :=
  modify_ddl (λ d, mkDdlState (ddlEventStackTid d) (ddlEventStack d) (default 0 (head (ParentFullTransactionIds d)))
                     (NextFullTransactionId d) (tail (ParentFullTransactionIds d))).

(** ** The stack of events *)

Definition currentTdeEncryptMode : M TDEEncryptMode :=
  stack ← gets (λ w, ddlEventStack (w_ddl w));
  mret (match last stack with
        | None => TDE_ENCRYPT_MODE_RETAIN
        | Some e => ev_encryptMode e
        end).

Definition currentTdeEncryptModeValidated : M TDEEncryptMode :=
  tid ← GetCurrentFullTransactionIdIfAny;
  stack_tid ← gets (λ w, ddlEventStackTid (w_ddl w));
  if negb (stack_tid =? tid) then mret TDE_ENCRYPT_MODE_RETAIN else currentTdeEncryptMode.

Definition verify_event_stack : M unit :=
  tid ← GetCurrentFullTransactionId;
  stack_tid ← gets (λ w, ddlEventStackTid (w_ddl w));
  if negb (stack_tid =? tid)
  then modify_ddl (λ d, mkDdlState tid [] (CurrentFullTransactionId d) (NextFullTransactionId d) (ParentFullTransactionIds d))
  else mret tt.

Definition push_event_stack (event : TdeDdlEvent) : M unit :=
  verify_event_stack;;
  modify_ddl (λ d, mkDdlState (ddlEventStackTid d) (ddlEventStack d ++ [event])
                     (CurrentFullTransactionId d) (NextFullTransactionId d) (ParentFullTransactionIds d)).

(** ** Which relations are encrypted *)

Definition shouldEncryptTable (accessMethod : option string) : M bool :=
  default_am ← gets (λ w, default_table_access_method (w_session w));
  mret (bool_decide (default default_am accessMethod = "tde_heap"%string)).

Definition checkPrincipalKeyConfigured : M unit :=
  db ← gets (λ w, MyDatabaseId (w_session w));
  ok ← open_pg_tde_principal_key_configured db;
  if negb ok then ereport ERROR "principal key not configured" else mret tt.

Definition checkEncryptionStatus : M unit :=
  mode ← currentTdeEncryptMode;
  enforce ← gets (λ w, EnforceEncryption (w_session w));
  if bool_decide (mode = TDE_ENCRYPT_MODE_ENCRYPT) then checkPrincipalKeyConfigured
  else if enforce : bool
  then ereport ERROR "open_pg_tde.enforce_encryption is ON, only the tde_heap access method is allowed."
  else mret tt.

Definition get_tde_table_am_oid : M Z := get_table_am_oid "tde_heap".

Definition class_row (w : World) (relid : Z) : option Form_pg_class :=
  snd <$> list_find (λ r, cls_oid r = relid) (pg_class w).

Definition relation_open (relid : Z) : M Form_pg_class :=
  r ← gets (λ w, class_row w relid);
  match r with
  | Some r => mret r
  | None => ereport ERROR "could not open relation with OID"
  end.

Definition get_rel_relam (relid : Z) : M Z :=
  r ← gets (λ w, class_row w relid);
  match r with
  | Some r => mret (relam r)
  | None => ereport ERROR "cache lookup failed for relation"
  end.

Definition find_typed_table_dependencies (typeOid : Z) : M (list Z) :=
  gets (λ w, cls_oid <$> filter (λ r, reloftype r = typeOid) (pg_class w)).

(** The loop over the children of a relation. *)
Fixpoint mix_children (mix : Z → M EncryptionMix) (children : list Z) (enc : EncryptionMix) : M EncryptionMix :=
  match children with
  | [] => mret enc
  | childid :: children =>
      childenc ← mix childid;
      if bool_decide (childenc = ENC_MIX_UNKNOWN) then mix_children mix children enc
      else if bool_decide (enc = ENC_MIX_UNKNOWN) then mix_children mix children childenc
      else if bool_decide (enc ≠ childenc) then mret ENC_MIX_MIXED
      else mix_children mix children enc
  end.

(** The recursion has no bound in the code; the depth of the inheritance
    hierarchy, which the server keeps free of cycles, is at most the number of
    relations. *)
Fixpoint encryption_mix_depth (depth : nat) (relid : Z) : M EncryptionMix :=
  match depth with
  | O => out_of_fuel
  | S depth =>
      rel ← relation_open relid;
      enc ← (if RELKIND_HAS_STORAGE (relkind rel) then
               am ← get_tde_table_am_oid;
               mret (if relam rel =? am then ENC_MIX_ENCRYPTED else ENC_MIX_PLAIN)
             else mret ENC_MIX_UNKNOWN);
      children ← (if bool_decide (relkind rel = RELKIND_COMPOSITE_TYPE)
                  then find_typed_table_dependencies (reltype rel)
                  else gets (λ w, find_inheritance_children w relid));
      mix_children (encryption_mix_depth depth) children enc
  end.

Definition alter_table_encryption_mix (relid : Z) : M EncryptionMix :=
  n ← gets (λ w, length (pg_class w));
  encryption_mix_depth (S n) relid.

(** ** Start of a command *)

(** The argument of the first option "owned_by". *)
Fixpoint owned_by_option (options : list DefElem) : M (list string) :=
  match options with
  | [] => mret []
  | defel :: options =>
      if bool_decide (defname defel = "owned_by"%string) then defGetQualifiedName defel
      else owned_by_option options
  end.

(** The mode of a sequence that the column [owned_by] owns. *)
Definition owner_mode (owned_by : list string) : M TDEEncryptMode :=
  let relname := take (length owned_by - 1) owned_by in
  relid ← RangeVarGetRelid relname false;
  tablerel ← relation_open relid;
  am ← get_tde_table_am_oid;
  if relam tablerel =? am then checkPrincipalKeyConfigured;; mret TDE_ENCRYPT_MODE_ENCRYPT
  else mret TDE_ENCRYPT_MODE_PLAIN.

(** The last clause that sets the access method. *)
Fixpoint set_access_method (cmds : list AlterTableCmd) (found : option (option string)) : option (option string) :=
  match cmds with
  | [] => found
  | AT_SetAccessMethod name :: cmds => set_access_method cmds (Some name)
  | AT_Other :: cmds => set_access_method cmds found
  end.

Definition mode_of_am (encrypted : bool) : TDEEncryptMode :=
  if encrypted then TDE_ENCRYPT_MODE_ENCRYPT else TDE_ENCRYPT_MODE_PLAIN.

Definition capture_index (parsetree : Z) (relation : RangeVar) : M unit :=
  relid ← RangeVarGetRelid relation false;
  encmix ← alter_table_encryption_mix relid;
  mode ← match encmix with
         | ENC_MIX_ENCRYPTED => mret TDE_ENCRYPT_MODE_ENCRYPT
         | ENC_MIX_PLAIN => mret TDE_ENCRYPT_MODE_PLAIN
         | ENC_MIX_UNKNOWN => mret TDE_ENCRYPT_MODE_RETAIN
         | ENC_MIX_MIXED =>
             ereport ERROR "Recursive CREATE INDEX on a mix of encrypted and unencrypted relations is not supported"
         end;
  push_event_stack (with_mode (new_event parsetree) mode).

Definition capture_create (parsetree : Z) (accessMethod : option string) (partbound : bool)
  (inhRelations : list RangeVar) : M unit :=
  found ← match accessMethod with
          | Some am => mret (Some (mode_of_am (bool_decide (am = "tde_heap"%string))))
          | None =>
              if partbound then
                parentOid ← RangeVarGetRelid (default [] (head inhRelations)) false;
                parentAmOid ← get_rel_relam parentOid;
                if parentAmOid =? InvalidOid then mret None
                else am ← get_tde_table_am_oid; mret (Some (mode_of_am (parentAmOid =? am)))
              else mret None
          end;
  default_am ← gets (λ w, default_table_access_method (w_session w));
  let mode := default (mode_of_am (bool_decide (default_am = "tde_heap"%string))) found in
  push_event_stack (with_mode (new_event parsetree) mode);;
  checkEncryptionStatus.

Definition capture_create_as (parsetree : Z) (accessMethod : option string) : M unit :=
  encrypt ← shouldEncryptTable accessMethod;
  push_event_stack (with_mode (new_event parsetree) (mode_of_am encrypt));;
  checkEncryptionStatus.

Definition capture_alter_table (parsetree : Z) (relation : RangeVar) (cmds : list AlterTableCmd) : M unit :=
  relid ← RangeVarGetRelid relation true;
  if relid =? InvalidOid then mret tt
  else
    let setAccessMethod := set_access_method cmds None in
    encmix ← alter_table_encryption_mix relid;
    if bool_decide (encmix = ENC_MIX_MIXED) then
      ereport ERROR "Recursive ALTER TABLE on a mix of encrypted and unencrypted relations is not supported"
    else
      rel ← relation_open relid;
      event ← match setAccessMethod, RELKIND_HAS_STORAGE (relkind rel) with
              | Some name, true =>
                  let e := mkTdeDdlEvent parsetree TDE_ENCRYPT_MODE_RETAIN relid InvalidOid in
                  encrypt ← shouldEncryptTable name;
                  if encrypt : bool
                  then checkPrincipalKeyConfigured;; mret (with_mode e TDE_ENCRYPT_MODE_ENCRYPT)
                  else mret (with_mode e TDE_ENCRYPT_MODE_PLAIN)
              | _, _ =>
                  let e := new_event parsetree in
                  match encmix with
                  | ENC_MIX_ENCRYPTED =>
                      checkPrincipalKeyConfigured;; mret (with_mode e TDE_ENCRYPT_MODE_ENCRYPT)
                  | ENC_MIX_PLAIN => mret (with_mode e TDE_ENCRYPT_MODE_PLAIN)
                  | _ => mret e
                  end
              end;
      push_event_stack event;;
      checkEncryptionStatus.

Definition capture_create_seq (parsetree : Z) (options : list DefElem) : M unit :=
  owned_by ← owned_by_option options;
  mode ← (if Nat.ltb 1 (length owned_by) then owner_mode owned_by else mret TDE_ENCRYPT_MODE_PLAIN);
  push_event_stack (with_mode (new_event parsetree) mode).

Definition capture_alter_seq (parsetree : Z) (sequence : RangeVar) (options : list DefElem) : M unit :=
  relid ← RangeVarGetRelid sequence true;
  if relid =? InvalidOid then mret tt
  else
    owned_by ← owned_by_option options;
    let rebuild := mkTdeDdlEvent parsetree TDE_ENCRYPT_MODE_RETAIN InvalidOid relid in
    event ← (if Nat.ltb 1 (length owned_by) then mode ← owner_mode owned_by; mret (with_mode rebuild mode)
             else if Nat.eqb (length owned_by) 1 then mret (with_mode rebuild TDE_ENCRYPT_MODE_PLAIN)
             else mret (new_event parsetree));
    push_event_stack event.

(** [None] when the function is not called as an event trigger. *)
Definition open_pg_tde_ddl_command_start_capture (trigdata : option (Z * Node)) : M unit :=
  match trigdata with
  | None => ereport ERROR "Function can only be fired by event trigger manager"
  | Some (parsetree, node) =>
      match node with
      | IndexStmt relation => capture_index parsetree relation
      | CreateStmt accessMethod partbound inhRelations =>
          capture_create parsetree accessMethod partbound inhRelations
      | CreateTableAsStmt accessMethod => capture_create_as parsetree accessMethod
      | AlterTableStmt relation cmds => capture_alter_table parsetree relation cmds
      | CreateSeqStmt options => capture_create_seq parsetree options
      | AlterSeqStmt sequence options => capture_alter_seq parsetree sequence options
      | _ => mret tt
      end
  end.

(** ** End of a command *)

Fixpoint change_persistence_loop (seqlist : list Z) (persistence : Z) : M unit :=
  match seqlist with
  | [] => mret tt
  | seq_relid :: seqlist =>
      SequenceChangePersistence seq_relid persistence;; change_persistence_loop seqlist persistence
  end.

Definition open_pg_tde_ddl_command_end_capture (trigdata : option (Z * Node)) : M unit :=
  match trigdata with
  | None => ereport ERROR "Function can only be fired by event trigger manager"
  | Some (parsetree, _) =>
      stack ← gets (λ w, ddlEventStack (w_ddl w));
      match last stack with
      | None => mret tt
      | Some event =>
          if negb (ev_parsetree event =? parsetree) then mret tt
          else
            (if negb (ev_rebuildSequencesFor event =? InvalidOid) then
               seqlist ← gets (λ w, getOwnedSequences w (ev_rebuildSequencesFor event));
               rel ← relation_open (ev_rebuildSequencesFor event);
               change_persistence_loop seqlist (relpersistence rel)
             else mret tt);;
            (if negb (ev_rebuildSequence event =? InvalidOid) then
               rel ← relation_open (ev_rebuildSequence event);
               SequenceChangePersistence (ev_rebuildSequence event) (relpersistence rel)
             else mret tt);;
            modify_ddl (λ d, mkDdlState (ddlEventStackTid d) (removelast (ddlEventStack d))
                               (CurrentFullTransactionId d) (NextFullTransactionId d) (ParentFullTransactionIds d))
      end
  end.

(** ** Utility commands *)

(** The oid and the default tablespace of a database. *)
Fixpoint get_db_info_loop (fuel : nat) (name : string) : M (option (Z * Z)) :=
  match fuel with
  | O => out_of_fuel
  | S fuel =>
      tuple ← gets (λ w, list_find (λ r, datname r = name) (pg_database_rows w));
      match tuple with
      | None => mret None
      | Some (_, tuple) =>
          let dbOid := dat_oid tuple in
          LockDatabase dbOid;;
          tuple ← gets (λ w, list_find (λ r, dat_oid r = dbOid) (pg_database_rows w));
          match tuple with
          | Some (_, dbform) =>
              if bool_decide (name = datname dbform) then mret (Some (dbOid, dattablespace dbform))
              else UnlockDatabase dbOid;; get_db_info_loop fuel name
          | None => UnlockDatabase dbOid;; get_db_info_loop fuel name
          end
      end
  end.

Definition get_db_info (name : string) : M (option (Z * Z)) := get_db_info_loop (S database_renames) name.

(** Error if a database has keys (in one tablespace, if one is given). *)
Definition check_no_encryption_keys (dbOid spcOid : Z) (msg : string) : M unit :=
  LWLockAcquire_enc LW_SHARED;;
  count ← open_pg_tde_count_encryption_keys dbOid spcOid;
  LWLockRelease_enc;;
  if 0 <? count then ereport ERROR msg else mret tt.

Fixpoint createdb_options (options : list DefElem) (dbtemplate strategy : string) : M (string * string) :=
  match options with
  | [] => mret (dbtemplate, strategy)
  | defel :: options =>
      if bool_decide (defname defel = "template"%string) then
        s ← defGetString defel; createdb_options options s strategy
      else if bool_decide (defname defel = "strategy"%string) then
        s ← defGetString defel; createdb_options options dbtemplate s
      else createdb_options options dbtemplate strategy
  end.

Fixpoint tablespace_option (options : list DefElem) (tablespace : option string) : M (option string) :=
  match options with
  | [] => mret tablespace
  | defel :: options =>
      if bool_decide (defname defel = "tablespace"%string) then
        s ← defGetString defel; tablespace_option options (Some s)
      else tablespace_option options tablespace
  end.

Definition open_pg_tde_proccess_utility (parsetree : Node) : M unit :=
  match parsetree with
  | CreatedbStmt options =>
      '(dbtemplate, strategy) ← createdb_options options "template1" "wal_log";
      if pg_strcasecmp_eq (String.list_byte_of_string strategy) (String.list_byte_of_string "file_copy") then
        info ← get_db_info dbtemplate;
        match info with
        | Some (dbOid, _) =>
            check_no_encryption_keys dbOid InvalidOid
              "The FILE_COPY strategy cannot be used when there are encrypted objects in the template database"
        | None => mret tt
        end
      else mret tt
  | AlterDatabaseStmt dbname options =>
      tablespace ← tablespace_option options None;
      match tablespace with
      | Some _ =>
          info ← get_db_info dbname;
          match info with
          | Some (dbOid, dbTablespace) =>
              check_no_encryption_keys dbOid dbTablespace
                "ALTER DATABSE ... SET TABLESPACE cannot be used when there are encrypted objects in the default tablsapce of the database"
          | None => mret tt
          end
      | None => mret tt
      end
  | _ => mret tt
  end;;
  next_ProcessUtility parsetree.

End event_capture.
