(* ===== verification/EventCaptureThms.v ===== *)
(** Properties of the event capture: the mix of encrypted and plain relations
    of an inheritance hierarchy, the modes that commands get, nested commands,
    and the commands that are refused. *)
From S2P Require Import Prelude Types Environ Instances Ciphers EncTde KeyFile KeyMap KeyMapSpec WalKeys.
From S2P Require Import Keyring KeyringThms PrincipalKey PrincipalKeyThms EventCapture.

(** ** What the code relies on *)

Section laws.
Context {SSL : OpenSSL}.

(** Neither a result nor an error changes the state. *)
Definition readonly {A} (m : M A) : Prop := always eq m.

(** The parts of the state that belong to this process. *)
Definition same_process (w w' : World) : Prop :=
  w_ddl w' = w_ddl w ∧ w_session w' = w_session w ∧ w_smgr w' = w_smgr w.

#[export] Instance same_process_preorder : PreOrder same_process.
Proof.
  split; [by intros w|]. intros ??? (H1 & H2 & H3) (G1 & G2 & G3). split_and!; etrans; eassumption.
Qed.

(** There is no event, or it belongs to another transaction. *)
Definition neutral (w : World) : Prop :=
  ddlEventStackTid (w_ddl w) ≠ CurrentFullTransactionId (w_ddl w) ∨ ddlEventStack (w_ddl w) = [].

(** Transaction ids are handed out in increasing order; the stack is empty
    before the first one. *)
Definition ddl_ok (d : DdlState) : Prop :=
  ddlEventStackTid d < NextFullTransactionId d ∧ CurrentFullTransactionId d < NextFullTransactionId d ∧
  0 < NextFullTransactionId d ∧ (ddlEventStackTid d = 0 → ddlEventStack d = []) ∧
  Forall (λ x, x < NextFullTransactionId d) (ParentFullTransactionIds d).

(** An id stays, or one is assigned where there was none. *)
Definition assigned (next next' x x' : Z) : Prop := x' = x ∨ x = 0 ∧ next <= x' < next'.

(** The ids of the current transaction and of those around it. *)
Definition xids (d : DdlState) : list Z := CurrentFullTransactionId d :: ParentFullTransactionIds d.

Definition xids_kept (d d' : DdlState) : Prop :=
  NextFullTransactionId d <= NextFullTransactionId d' ∧
  Forall2 (assigned (NextFullTransactionId d) (NextFullTransactionId d')) (xids d) (xids d').

#[export] Instance xids_kept_preorder : PreOrder xids_kept.
Proof.
  split.
  - intros d. split; [lia|]. apply Forall_Forall2_diag, Forall_true. by left.
  - intros d1 d2 d3 [H1 F1] [H2 F2]. split; [lia|].
    revert F2. generalize (xids d3). induction F1 as [|x y l k Hx _ IH]; intros m F2; inversion F2 as [|? z ? ? Hy Hm]; subst; constructor; [|by apply IH].
    destruct Hx as [->|[-> ?]], Hy as [->|[? ?]]; unfold assigned; lia.
Qed.

(** What other parts of the server do to the stack of events: nothing, but they
    may assign transaction ids where there are none. *)
Definition ddl_kept (w w' : World) : Prop :=
  ddlEventStackTid (w_ddl w') = ddlEventStackTid (w_ddl w) ∧ ddlEventStack (w_ddl w') = ddlEventStack (w_ddl w) ∧
  xids_kept (w_ddl w) (w_ddl w').

#[export] Instance ddl_kept_preorder : PreOrder ddl_kept.
Proof.
  split; [by intros w; split_and!|]. intros w1 w2 w3 (H1 & H2 & H3) (G1 & G2 & G3). split_and!; [congruence|congruence|by etrans].
Qed.

Lemma xids_kept_current d d' : xids_kept d d' → CurrentFullTransactionId d ≠ 0 → CurrentFullTransactionId d' = CurrentFullTransactionId d.
Proof. intros [_ F] Hc. inversion F as [|? ? ? ? [?|[? _]]]; done. Qed.

(** An id that was given away is not assigned again. *)
Lemma xids_kept_other d d' t :
  xids_kept d d' → t < NextFullTransactionId d → t ≠ CurrentFullTransactionId d → t ≠ CurrentFullTransactionId d'.
Proof. intros [_ F] Ht Hc. inversion F as [|? ? ? ? [H|[_ H]]]; simplify_eq; [by rewrite H|lia]. Qed.

Lemma ddl_ok_kept d d' :
  ddl_ok d → xids_kept d d' → ddlEventStackTid d' < NextFullTransactionId d' →
  (ddlEventStackTid d' = 0 → ddlEventStack d' = []) → ddl_ok d'.
Proof.
  intros (H1 & H2 & H3 & H4 & H5) [Hn F] Ht H0. inversion F as [|? ? ? ? Hc Hp]; subst. split_and!; try done; [|lia|].
  - destruct Hc; lia.
  - clear -H5 Hp Hn. induction Hp as [|x y l k Hx _ IH]; [done|]. apply Forall_cons in H5 as [Hl H5]. constructor; [|by apply IH].
    destruct Hx as [->|?]; lia.
Qed.

(** Resolving names changes nothing, and rewriting a sequence does not touch
    the stack of events. *)
Class CatalogSpec (CAT : Catalog) := {
  RangeVarGetRelid_ro rv b : readonly (RangeVarGetRelid rv b);
  get_table_am_oid_ro n : readonly (get_table_am_oid n);
  defGetQualifiedName_ro d : readonly (defGetQualifiedName d);
  SequenceChangePersistence_kept s p : always ddl_kept (SequenceChangePersistence s p);
}.

(** The key providers keep the state of the process. *)
Class ProvidersFrame (NK : NetworkKeyrings) (PR : Providers) := {
  GetKeyProviderByID_frame i d : always same_process (GetKeyProviderByID i d);
  kmip_get_frame kr n : always same_process (keyring_get_key keyringKmipRoutine kr n);
  openbao_get_frame kr n : always same_process (keyring_get_key keyringOpenBaoRoutine kr n);
}.

Lemma readonly_ok {A} (m : M A) w a w' : readonly m → m w = Ok a w' → w' = w.
Proof. intros H E. specialize (H w). by rewrite E in H. Qed.

Lemma readonly_same {A} (m : M A) (R : relation World) `{!PreOrder R} : readonly m → always R m.
Proof. intros H w. specialize (H w). destruct (m w); subst; reflexivity. Qed.

End laws.

(** ** The hierarchy *)

Section mix.
Context {SSL : OpenSSL} {K : Kernel} {PP : PgPort} {NK : NetworkKeyrings} {PR : Providers} {SV : Server}.
Context {CAT : Catalog}.
Context (w : World) (am : Z) (Ham : get_table_am_oid "tde_heap" w = Ok am w).

Definition children_of (relid : Z) : list Z :=
  match class_row w relid with
  | None => []
  | Some rel =>
      if bool_decide (relkind rel = RELKIND_COMPOSITE_TYPE)
      then cls_oid <$> filter (λ r, reloftype r = reltype rel) (pg_class w)
      else find_inheritance_children w relid
  end.

Definition child (x y : Z) : Prop := y ∈ children_of x.

(** Relation [relid] has storage, encrypted or not. *)
Definition stored (relid : Z) (encrypted : bool) : Prop :=
  ∃ rel, class_row w relid = Some rel ∧ RELKIND_HAS_STORAGE (relkind rel) = true ∧ (relam rel =? am) = encrypted.

(** Some relation below has storage of that kind. *)
Definition has_stored (relid : Z) (encrypted : bool) : Prop :=
  ∃ y, rtc child relid y ∧ stored y encrypted.

(** [m] is the mix where [P true] says that something is encrypted and
    [P false] that something is plain. *)
Definition mix_is (m : EncryptionMix) (P : bool → Prop) : Prop :=
  match m with
  | ENC_MIX_UNKNOWN => ¬ P true ∧ ¬ P false
  | ENC_MIX_PLAIN => ¬ P true ∧ P false
  | ENC_MIX_ENCRYPTED => P true ∧ ¬ P false
  | ENC_MIX_MIXED => P true ∧ P false
  end.

Lemma mix_is_ext m P Q : (∀ b, P b ↔ Q b) → mix_is m P ↔ mix_is m Q.
Proof. intros H. destruct m; simpl; by rewrite !H. Qed.

(** The loop computes the union. *)
Lemma mix_children_ok mix children enc P Q :
  mix_is enc P →
  (∀ c, c ∈ children → ∃ m, mix c w = Ok m w ∧ mix_is m (Q c)) →
  ∃ m, mix_children mix children enc w = Ok m w ∧ mix_is m (λ b, P b ∨ ∃ c, c ∈ children ∧ Q c b).
Proof.
  revert enc P. induction children as [|c children IH]; intros enc P Henc Hc; cbn [mix_children].
  { exists enc. split; [done|]. eapply mix_is_ext; [|exact Henc]. set_solver. }
  destruct (Hc c) as (m & E & Hm); [by apply list_elem_of_here|]. rewrite (bind_ok _ _ _ _ _ E).
  assert (∀ c, c ∈ children → ∃ m, mix c w = Ok m w ∧ mix_is m (Q c)) as Hc'
    by (intros; apply Hc; by apply list_elem_of_further).
  assert (∀ e, mix_is e (λ b, P b ∨ Q c b) →
    ∃ m, mix_children mix children e w = Ok m w ∧ mix_is m (λ b, P b ∨ ∃ c', c' ∈ c :: children ∧ Q c' b)) as Hgo.
  { intros e He. destruct (IH e _ He Hc') as (m' & E' & Hm'). exists m'. split; [done|].
    eapply mix_is_ext; [|exact Hm']. intros b. set_solver. }
  cbv beta. repeat case_bool_decide; subst.
  - apply Hgo. destruct enc; simpl in *; tauto.
  - apply Hgo. destruct m; simpl in *; tauto.
  - exists ENC_MIX_MIXED. split; [done|].
    assert (mix_is ENC_MIX_MIXED (λ b, P b ∨ Q c b)) as Hmix
      by (destruct enc, m; simpl in *; done || tauto).
    destruct Hmix as [[]?]. all: split; set_solver.
  - apply Hgo. destruct m; simpl in *; tauto.
Qed.

(** The catalogue is closed and has no cycles. *)
Definition catalog_ok : Prop :=
  (∀ x y, child x y → is_Some (class_row w y)) ∧ (∀ x, ¬ tc child x x).

Lemma class_row_oid x : is_Some (class_row w x) → x ∈ cls_oid <$> pg_class w.
Proof.
  intros [r Hr]. unfold class_row in Hr. apply fmap_Some in Hr as ([i r'] & Hf & ->).
  apply list_find_Some in Hf as (Hl & <- & _). apply list_elem_of_fmap. exists r'.
  split; [done|]. by eapply list_elem_of_lookup_2.
Qed.

(** A path from the root has no repetition, so the recursion ends. *)
Lemma encryption_mix_depth_ok depth relid path :
  catalog_ok → is_Some (class_row w relid) → NoDup path → path ⊆ cls_oid <$> pg_class w →
  (∀ p, p ∈ path → tc child p relid) → (length (pg_class w) < depth + length path)%nat →
  ∃ m, encryption_mix_depth depth relid w = Ok m w ∧ mix_is m (has_stored relid).
Proof.
  intros [Hcl Hac]. revert relid path. induction depth as [|depth IH]; intros relid path Hr Hnd Hsub Htc Hlen.
  { exfalso. assert (NoDup (relid :: path)) as Hnd' by (constructor; [intros H; by apply (Hac relid), Htc|done]).
    assert (relid :: path ⊆ cls_oid <$> pg_class w) as Hsub'.
    { intros y [->|Hy]%elem_of_cons; [by apply class_row_oid|by apply Hsub]. }
    pose proof (submseteq_length _ _ (NoDup_submseteq _ _ Hnd' Hsub')) as Hl.
    rewrite length_fmap in Hl. simpl in *. lia. }
  cbn [encryption_mix_depth]. destruct Hr as [rel Hrel]. unfold relation_open. rewrite bind_assoc. mstep.
  rewrite Hrel. mstep.
  assert (∃ enc, (if RELKIND_HAS_STORAGE (relkind rel)
    then get_tde_table_am_oid ≫= λ am, mret (if relam rel =? am then ENC_MIX_ENCRYPTED else ENC_MIX_PLAIN)
    else mret ENC_MIX_UNKNOWN) w = Ok enc w ∧ mix_is enc (stored relid)) as (enc & Ee & Henc).
  { unfold stored, get_tde_table_am_oid. rewrite Hrel. destruct (RELKIND_HAS_STORAGE (relkind rel)) eqn:Es.
    - rewrite (bind_ok _ _ _ _ _ Ham). destruct (relam rel =? am) eqn:Ea; eexists; (split; [done|]); simpl;
        naive_solver congruence.
    - eexists. split; [done|]. simpl. naive_solver congruence. }
  rewrite (bind_ok _ _ _ _ _ Ee).
  assert ((if bool_decide (relkind rel = RELKIND_COMPOSITE_TYPE) then find_typed_table_dependencies (reltype rel)
           else gets (λ w, find_inheritance_children w relid)) w = Ok (children_of relid) w) as Ec.
  { unfold children_of, find_typed_table_dependencies, gets. rewrite Hrel. by case_bool_decide. }
  rewrite (bind_ok _ _ _ _ _ Ec).
  destruct (mix_children_ok (encryption_mix_depth depth) (children_of relid) enc (stored relid) has_stored Henc)
    as (m & E & Hm).
  { intros c Hc. apply (IH c (relid :: path)).
    - by eapply Hcl.
    - constructor; [intros H; by apply (Hac relid), Htc|done].
    - intros y [->|Hy]%elem_of_cons; [apply class_row_oid; eauto|by apply Hsub].
    - intros p [->|Hp]%elem_of_cons; [by apply tc_once|]. eapply tc_r; [by apply Htc|done].
    - simpl. lia. }
  exists m. split; [done|]. eapply mix_is_ext; [|exact Hm]. intros b. split.
  - intros (y & Hy & Hs). apply rtc_inv in Hy as [->|(z & Hz & Hy)]; [by left|]. right. exists z.
    split; [done|]. by exists y.
  - intros [Hs|(z & Hz & y & Hy & Hs)]; [by exists relid|]. exists y. split; [|done]. by eapply rtc_l.
Qed.

Lemma encryption_mix_ok relid :
  catalog_ok → is_Some (class_row w relid) →
  ∃ m, alter_table_encryption_mix relid w = Ok m w ∧ mix_is m (has_stored relid).
Proof.
  intros Hcat Hr. unfold alter_table_encryption_mix. mstep.
  apply (encryption_mix_depth_ok _ relid []); try done; [constructor|set_solver..|simpl; lia].
Qed.

End mix.

(** ** What fetching a principal key leaves alone *)

Section frame.
Context {SSL : OpenSSL} {K : Kernel} {PP : PgPort} {NK : NetworkKeyrings} {PR : Providers} {SV : Server}.
Context {PF : ProvidersFrame NK PR}.

Ltac prim := intros w; repeat (case_match || simplify_eq); split_and!; reflexivity.

Lemma frame_open p cr tr : always same_process (OpenTransientFile p cr tr).
Proof. unfold OpenTransientFile. prim. Qed.
Lemma frame_pread p n off : always same_process (pg_pread p n off).
Proof. unfold pg_pread. prim. Qed.
Lemma frame_pwrite p d off : always same_process (pg_pwrite p d off).
Proof. unfold pg_pwrite. prim. Qed.
Lemma frame_fsync p : always same_process (pg_fsync p).
Proof. unfold pg_fsync. prim. Qed.
Lemma frame_uninit n : always same_process (uninit n).
Proof. unfold uninit. prim. Qed.
Lemma frame_acquire m : always same_process (LWLockAcquire_enc m).
Proof. unfold LWLockAcquire_enc. prim. Qed.
Lemma frame_release : always same_process LWLockRelease_enc.
Proof. unfold LWLockRelease_enc. prim. Qed.
Lemma frame_file_fuel fd : always same_process (file_fuel fd).
Proof. unfold file_fuel. auto with always. Qed.

#[local] Hint Resolve frame_open frame_pread frame_pwrite frame_fsync frame_uninit frame_acquire frame_release
  frame_file_fuel GetKeyProviderByID_frame kmip_get_frame openbao_get_frame : always.
#[local] Hint Extern 1 (always _ (modify _)) => apply always_modify; intros; split_and!; reflexivity : always.

Lemma frame_gcm_decrypt key kl iv il aad inp tag : always same_process (AesGcmDecrypt key kl iv il aad inp tag).
Proof. unfold AesGcmDecrypt, check_ssl. always_solve. Qed.

#[local] Hint Resolve frame_gcm_decrypt : always.

Lemma frame_kf_header_info kf p cr tr im :
  always same_process (key_file_open_basic kf p cr tr im).
Proof. unfold key_file_open_basic. always_solve. Qed.

Lemma frame_kf_header_read kf fd : always same_process (key_file_header_read kf fd).
Proof. unfold key_file_header_read. always_solve. Qed.

#[local] Hint Resolve frame_kf_header_info frame_kf_header_read : always.

Lemma frame_get_info db : always same_process (open_pg_tde_get_principal_key_info db).
Proof.
  unfold open_pg_tde_get_principal_key_info, open_pg_tde_open_file_basic, open_pg_tde_file_header_read,
    CloseTransientFile. always_solve.
Qed.

Lemma frame_get_server_info : always same_process open_pg_tde_get_server_key_info.
Proof.
  unfold open_pg_tde_get_server_key_info, CloseTransientFile. always_solve.
Qed.

Lemma frame_get_key_loop fuel fd n pos : always same_process (get_key_loop fuel fd n pos).
Proof.
  revert pos. induction fuel as [|fuel IH]; intros pos; cbn [get_key_loop]; [unfold out_of_fuel|unfold CloseTransientFile];
    always_solve.
Qed.

#[local] Hint Resolve frame_get_info frame_get_server_info frame_get_key_loop : always.

Lemma frame_file_get kr n : always same_process (get_key_by_name kr n).
Proof. unfold get_key_by_name, kr_file_name. always_solve. Qed.

#[local] Hint Resolve frame_file_get : always.

Lemma frame_KeyringGetKey kr n : always same_process (KeyringGetKey kr n).
Proof.
  unfold KeyringGetKey. destruct (find_key_provider_type _ _) as [kp|] eqn:E; [|always_solve].
  apply (always_bind _); [|intros [k c]; always_solve].
  unfold registeredKeyProviderTypes in E. simpl in E. repeat case_match; simplify_eq; simpl;
    first [apply frame_file_get|apply kmip_get_frame|apply openbao_get_frame].
Qed.

#[local] Hint Resolve frame_KeyringGetKey : always.

Lemma frame_from_keyring db : always same_process (get_principal_key_from_keyring db).
Proof.
  unfold get_principal_key_from_keyring, open_pg_tde_verify_principal_key_info, new_principal_key. always_solve.
Qed.

#[local] Hint Resolve frame_from_keyring : always.

Lemma frame_nodefault db m : always same_process (GetPrincipalKeyNoDefault db m).
Proof.
  unfold GetPrincipalKeyNoDefault, get_principal_key_from_cache, push_principal_key_to_cache. always_solve.
Qed.

#[local] Hint Resolve frame_nodefault : always.

Lemma frame_configured db : always same_process (open_pg_tde_principal_key_configured db).
Proof. unfold open_pg_tde_principal_key_configured. always_solve. Qed.

Lemma frame_check_configured : always same_process checkPrincipalKeyConfigured.
Proof. unfold checkPrincipalKeyConfigured. pose proof frame_configured. always_solve. Qed.

End frame.

(** ** The stack *)

(** The transaction ids of a push, and the events that survive it. *)
Definition with_xid (d : DdlState) : DdlState := if CurrentFullTransactionId d =? 0 then assign_xid d else d.
Definition current_tid (d : DdlState) : Z := CurrentFullTransactionId (with_xid d).
Definition live_stack (d : DdlState) : list TdeDdlEvent :=
  if ddlEventStackTid d =? current_tid d then ddlEventStack d else [].

(** The state with this stack, which belongs to the current transaction. *)
Definition with_stack (stack : list TdeDdlEvent) (d : DdlState) : DdlState :=
  mkDdlState (current_tid d) stack (current_tid d) (NextFullTransactionId (with_xid d)) (ParentFullTransactionIds (with_xid d)).

Definition pushed (e : TdeDdlEvent) (d : DdlState) : DdlState := with_stack (live_stack d ++ [e]) d.

Lemma assign_parents_kept ps : ∀ next, let '(ps', next') := assign_parents ps next in
  next <= next' ∧ Forall2 (assigned next next') ps ps'.
Proof.
  induction ps as [|p ps IH]; intros next; cbn [assign_parents]; [split; [lia|constructor]|].
  destruct (Z.eqb_spec p 0) as [->|Hp]; cbn [negb].
  - specialize (IH next). destruct (assign_parents ps next) as [ps' next']. destruct IH as [Hn F]. split; [lia|].
    constructor; [right; lia|]. eapply Forall2_impl; [exact F|]. intros x y [->|?]; [by left|right; lia].
  - split; [lia|]. apply Forall_Forall2_diag, Forall_true. by left.
Qed.

Lemma with_xid_kept d :
  xids_kept d (with_xid d) ∧ ddlEventStackTid (with_xid d) = ddlEventStackTid d ∧
  ddlEventStack (with_xid d) = ddlEventStack d.
Proof.
  unfold with_xid. destruct (Z.eqb_spec (CurrentFullTransactionId d) 0) as [E|]; [|by split_and!].
  unfold assign_xid. pose proof (assign_parents_kept (ParentFullTransactionIds d) (NextFullTransactionId d)) as H.
  destruct (assign_parents _ _) as [ps next]. destruct H as [Hn F]. split; [|done]. split; cbn; [lia|].
  constructor; [right; cbn; lia|]. eapply Forall2_impl; [exact F|]. intros x y [->|?]; [by left|right; lia].
Qed.

Lemma current_tid_pos d : ddl_ok d → current_tid d ≠ 0.
Proof.
  intros (_ & _ & H3 & _). unfold current_tid, with_xid. destruct (Z.eqb_spec (CurrentFullTransactionId d) 0); [|done].
  unfold assign_xid. pose proof (assign_parents_kept (ParentFullTransactionIds d) (NextFullTransactionId d)) as H.
  destruct (assign_parents _ _) as [ps next]. cbn. lia.
Qed.

Lemma with_stack_kept stack d : xids_kept d (with_stack stack d).
Proof. destruct (with_xid_kept d) as [[Hn F] _]. split; [exact Hn|exact F]. Qed.

Lemma with_stack_ok stack d : ddl_ok d → ddl_ok (with_stack stack d).
Proof.
  intros Hok. apply (ddl_ok_kept d); [done|apply with_stack_kept| |].
  - cbn. unfold current_tid. destruct (with_xid_kept d) as ([Hn F] & _). destruct Hok as (H1 & H2 & _).
    inversion F as [|? ? ? ? [->|?]]; lia.
  - cbn. intros H. by apply current_tid_pos in Hok.
Qed.

Section stack.
Context {SSL : OpenSSL} {K : Kernel} {PP : PgPort} {NK : NetworkKeyrings} {PR : Providers} {SV : Server}.
Context {CAT : Catalog} {CS : CatalogSpec CAT} {PF : ProvidersFrame NK PR}.

Lemma push_ok e w : push_event_stack e w = Ok tt (set_ddl (pushed e (w_ddl w)) w).
Proof.
  destruct (with_xid_kept (w_ddl w)) as (_ & Ht & Hs).
  assert (GetCurrentFullTransactionId w = Ok (current_tid (w_ddl w)) (set_ddl (with_xid (w_ddl w)) w)) as E.
  { unfold GetCurrentFullTransactionId, GetCurrentFullTransactionIdIfAny, current_tid, with_xid, mbind, M_bind, gets.
    destruct (Z.eqb_spec (CurrentFullTransactionId (w_ddl w)) 0) as [_|_]; [done|]. by destruct w. }
  unfold push_event_stack, verify_event_stack. rewrite bind_assoc, (bind_ok _ _ _ _ _ E). unfold mbind, M_bind, gets. cbn [w_ddl set_ddl].
  rewrite Ht. unfold pushed, live_stack, with_stack, modify_ddl, modify.
  destruct (Z.eqb_spec (ddlEventStackTid (w_ddl w)) (current_tid (w_ddl w))) as [El|_]; cbn [negb w_ddl set_ddl ddlEventStack].
  - cbn. by rewrite Ht, Hs, El.
  - done.
Qed.

(** The mode right after a push, while the state of the process stays. *)
Lemma pushed_mode e w w2 :
  same_process (set_ddl (pushed e (w_ddl w)) w) w2 →
  currentTdeEncryptModeValidated w2 = Ok (ev_encryptMode e) w2 ∧ currentTdeEncryptMode w2 = Ok (ev_encryptMode e) w2.
Proof.
  intros (Hd & _). unfold currentTdeEncryptModeValidated, GetCurrentFullTransactionIdIfAny, currentTdeEncryptMode.
  unfold mbind, M_bind, gets. simpl. rewrite Hd. cbn [w_ddl set_ddl pushed ddlEventStack ddlEventStackTid CurrentFullTransactionId].
  cbn [with_stack ddlEventStackTid CurrentFullTransactionId]. rewrite Z.eqb_refl. cbn [negb]. rewrite Hd.
  cbn [w_ddl set_ddl pushed with_stack ddlEventStack]. by rewrite last_snoc.
Qed.

(** *** Creating tables *)

(** Whether a table that CREATE TABLE makes will use tde_heap: as named, as its
    partitioned parent does, or as the setting says. *)
Definition creates_encrypted (w : World) (accessMethod : option string) (partbound : bool)
  (inhRelations : list RangeVar) (b : bool) : Prop :=
  let by_default := bool_decide (default_table_access_method (w_session w) = "tde_heap"%string) in
  match accessMethod with
  | Some am => b = bool_decide (am = "tde_heap"%string)
  | None =>
      if partbound then
        ∃ oid rel, RangeVarGetRelid (default [] (head inhRelations)) false w = Ok oid w ∧
          class_row w oid = Some rel ∧
          if relam rel =? InvalidOid then b = by_default
          else ∃ am, get_tde_table_am_oid w = Ok am w ∧ b = (relam rel =? am)
      else b = by_default
  end.

Definition start_create (ptr : Z) am part inh : M unit :=
  open_pg_tde_ddl_command_start_capture (Some (ptr, CreateStmt am part inh)).

Lemma start_create_pushes ptr am part inh b w :
  creates_encrypted w am part inh b →
  start_create ptr am part inh w =
    checkEncryptionStatus (set_ddl (pushed (with_mode (new_event ptr) (mode_of_am b)) (w_ddl w)) w).
Proof.
  intros H. unfold start_create. simpl. unfold capture_create.
  assert (∃ found, match am with
    | Some am => mret (Some (mode_of_am (bool_decide (am = "tde_heap"%string))))
    | None => if part then parentOid ← RangeVarGetRelid (default [] (head inh)) false;
                 parentAmOid ← get_rel_relam parentOid;
                 if parentAmOid =? InvalidOid then mret None
                 else am ← get_tde_table_am_oid; mret (Some (mode_of_am (parentAmOid =? am)))
              else mret None
    end w = Ok found w ∧
    default (mode_of_am (bool_decide (default_table_access_method (w_session w) = "tde_heap"%string))) found =
      mode_of_am b) as (found & E & Hf).
  { unfold creates_encrypted in H. destruct am as [am|]; [eexists; split; [done|]; by subst b|].
    destruct part; [|eexists; split; [done|]; by subst b].
    destruct H as (oid & rel & E1 & E2 & H). rewrite (bind_ok _ _ _ _ _ E1).
    unfold get_rel_relam. rewrite bind_assoc. mstep. rewrite E2. mstep.
    destruct (relam rel =? InvalidOid); [eexists; split; [done|]; by subst b|].
    destruct H as (tde & E3 & ->). rewrite (bind_ok _ _ _ _ _ E3). by eexists. }
  rewrite (bind_ok _ _ _ _ _ E). mstep. rewrite Hf. by rewrite (bind_ok _ _ _ _ _ (push_ok _ _)).
Qed.

(** C18: CREATE TABLE makes the storage manager encrypt new files exactly when
    the table will use the access method tde_heap (named, inherited from a
    partitioned parent, or by default); the command then fails if no principal
    key is configured, and if the table is not encrypted and encryption is
    enforced, the command fails. *)
Theorem create_table_decision ptr am part inh b w :
  creates_encrypted w am part inh b →
  let start := start_create ptr am part inh w in
  let w1 := set_ddl (pushed (with_mode (new_event ptr) (mode_of_am b)) (w_ddl w)) w in
  if b then
    match open_pg_tde_principal_key_configured (MyDatabaseId (w_session w)) w1 with
    | Ok true w2 => start = Ok tt w2 ∧ currentTdeEncryptModeValidated w2 = Ok TDE_ENCRYPT_MODE_ENCRYPT w2
    | Ok false w2 => start = Err (mkError ERROR "principal key not configured") w2
    | Err e w2 => start = Err e w2
    end
  else if EnforceEncryption (w_session w) then ∃ e, start = Err e w1
  else start = Ok tt w1 ∧ currentTdeEncryptModeValidated w1 = Ok TDE_ENCRYPT_MODE_PLAIN w1.
Proof.
  intros H start w1. unfold start. rewrite (start_create_pushes _ _ _ _ b) by done. fold w1.
  destruct (pushed_mode (with_mode (new_event ptr) (mode_of_am b)) w w1 (reflexivity _)) as [Hv Hm].
  unfold checkEncryptionStatus. rewrite (bind_ok _ _ _ _ _ Hm). mstep. cbv beta. destruct b.
  - rewrite bool_decide_true by done. unfold checkPrincipalKeyConfigured. mstep.
    change (MyDatabaseId (w_session w1)) with (MyDatabaseId (w_session w)).
    pose proof (frame_configured (MyDatabaseId (w_session w)) w1) as Hfr.
    destruct (open_pg_tde_principal_key_configured _ w1) as [[] w2|e w2] eqn:E;
      [rewrite (bind_ok _ _ _ _ _ E)..|by rewrite (bind_err _ _ _ _ _ E)]; [|done].
    split; [done|]. apply (pushed_mode (with_mode (new_event ptr) TDE_ENCRYPT_MODE_ENCRYPT) w w2 Hfr).
  - rewrite bool_decide_false by done. change (EnforceEncryption (w_session w1)) with (EnforceEncryption (w_session w)).
    destruct (EnforceEncryption (w_session w)); [by eexists|]. split; [done|exact Hv].
Qed.

(** With enforced encryption every ALTER TABLE on an unencrypted table is
    refused, also one that does not change the access method. *)
Theorem enforcement_blocks_alter ptr rv cmds relid am w :
  EnforceEncryption (w_session w) = true → set_access_method cmds None = None →
  get_table_am_oid "tde_heap" w = Ok am w → catalog_ok w → is_Some (class_row w relid) → relid ≠ InvalidOid →
  RangeVarGetRelid rv true w = Ok relid w →
  ¬ has_stored w am relid true → has_stored w am relid false →
  ∃ w', open_pg_tde_ddl_command_start_capture (Some (ptr, AlterTableStmt rv cmds)) w =
    Err (mkError ERROR "open_pg_tde.enforce_encryption is ON, only the tde_heap access method is allowed.") w'.
Proof.
  intros Henf Hcmds Ham Hcat Hrow Hz Hrv Hne Hpl. simpl. unfold capture_alter_table.
  rewrite (bind_ok _ _ _ _ _ Hrv). rewrite (proj2 (Z.eqb_neq _ _)) by done.
  destruct (encryption_mix_ok w am Ham relid Hcat Hrow) as (m & E & Hm).
  assert (m = ENC_MIX_PLAIN) as -> by (destruct m; simpl in Hm; tauto).
  rewrite (bind_ok _ _ _ _ _ E). rewrite bool_decide_false by done.
  destruct Hrow as [rel Hrel]. unfold relation_open. rewrite bind_assoc. mstep. rewrite Hrel. mstep.
  rewrite Hcmds. mstep. rewrite (bind_ok _ _ _ _ _ (push_ok _ _)). set (w1 := set_ddl _ w).
  destruct (pushed_mode (with_mode (new_event ptr) TDE_ENCRYPT_MODE_PLAIN) w w1 (reflexivity _)) as [_ Hmode].
  unfold checkEncryptionStatus. rewrite (bind_ok _ _ _ _ _ Hmode). mstep. cbv beta.
  rewrite bool_decide_false by done. change (EnforceEncryption (w_session w1)) with (EnforceEncryption (w_session w)).
  rewrite Henf. by eexists.
Qed.

(** C29: in an inheritance hierarchy without cycles the recursion ends, and its
    answer is right: encrypted or plain when all relations with storage below
    the given one are, mixed when both kinds occur, unknown when there are
    none. *)
Theorem encryption_mix_terminates relid am w :
  get_table_am_oid "tde_heap" w = Ok am w → catalog_ok w → is_Some (class_row w relid) →
  ∃ m, alter_table_encryption_mix relid w = Ok m w ∧ mix_is m (has_stored w am relid).
Proof. intros Ham. by apply encryption_mix_ok. Qed.

End stack.

(** ** Nested commands *)

Section nested.
Context {SSL : OpenSSL} {K : Kernel} {PP : PgPort} {NK : NetworkKeyrings} {PR : Providers} {SV : Server}.
Context {CAT : Catalog} {CS : CatalogSpec CAT} {PF : ProvidersFrame NK PR}.

#[local] Hint Extern 1 (always same_process _) =>
  apply (readonly_same _ _); first [apply RangeVarGetRelid_ro|apply get_table_am_oid_ro|apply defGetQualifiedName_ro]
  : always.
#[local] Hint Resolve frame_check_configured : always.

Lemma frame_relation_open relid : always same_process (relation_open relid).
Proof. unfold relation_open. always_solve. Qed.
Lemma frame_get_rel_relam relid : always same_process (get_rel_relam relid).
Proof. unfold get_rel_relam. always_solve. Qed.
Lemma frame_am_oid : always same_process get_tde_table_am_oid.
Proof. unfold get_tde_table_am_oid. auto with always. Qed.

#[local] Hint Resolve frame_relation_open frame_get_rel_relam frame_am_oid : always.

Lemma frame_mix_children mix children enc :
  (∀ c, always same_process (mix c)) → always same_process (mix_children mix children enc).
Proof. intros H. revert enc. induction children as [|c cs IH]; intros enc; cbn [mix_children]; always_solve. Qed.

Lemma frame_mix_depth depth relid : always same_process (encryption_mix_depth depth relid).
Proof.
  revert relid. induction depth as [|depth IH]; intros relid; cbn [encryption_mix_depth].
  - unfold out_of_fuel. always_solve.
  - pose proof (frame_mix_children (encryption_mix_depth depth)) as Hc.
    unfold find_typed_table_dependencies. always_solve.
Qed.

Lemma frame_mix relid : always same_process (alter_table_encryption_mix relid).
Proof. unfold alter_table_encryption_mix. pose proof frame_mix_depth. always_solve. Qed.

Lemma frame_owned_by options : always same_process (owned_by_option options).
Proof. induction options as [|o os IH]; cbn [owned_by_option]; always_solve. Qed.

Lemma frame_owner_mode owned_by : always same_process (owner_mode owned_by).
Proof. unfold owner_mode. always_solve. Qed.

Lemma frame_should_encrypt am : always same_process (shouldEncryptTable am).
Proof. unfold shouldEncryptTable. always_solve. Qed.

Lemma frame_status : always same_process checkEncryptionStatus.
Proof. unfold checkEncryptionStatus, currentTdeEncryptMode. always_solve. Qed.

#[local] Hint Resolve frame_mix frame_owned_by frame_owner_mode frame_should_encrypt frame_status : always.

(** What the start of a command does to the stack, when it succeeds: nothing,
    or a push of an event with its parse tree. *)
Definition effect (ptr : Z) (m : M unit) : Prop := ∀ w w', m w = Ok tt w' →
  w_ddl w' = w_ddl w ∨ ∃ e, ev_parsetree e = ptr ∧ w_ddl w' = pushed e (w_ddl w).

Lemma effect_bind {A} ptr (m : M A) f :
  always same_process m → (∀ a w w', m w = Ok a w' → effect ptr (f a)) → effect ptr (m ≫= f).
Proof.
  intros Hm Hf w w' E. minv E. rewrite <-(proj1 (always_ok _ _ _ _ _ Hm E0)). by eapply Hf.
Qed.

Lemma effect_quiet ptr (m : M unit) : always same_process m → effect ptr m.
Proof. intros H w w' E. left. exact (proj1 (always_ok _ _ _ _ _ H E)). Qed.

Lemma effect_push ptr e : ev_parsetree e = ptr → effect ptr (push_event_stack e).
Proof. intros He w w' E. rewrite push_ok in E. injection E as <-. right. by exists e. Qed.

Lemma effect_push_then ptr e k :
  ev_parsetree e = ptr → always same_process k → effect ptr (push_event_stack e;; k).
Proof.
  intros He Hk w w' E. rewrite (bind_ok _ _ _ _ _ (push_ok _ _)) in E. right. exists e. split; [done|].
  exact (proj1 (always_ok _ _ _ _ _ Hk E)).
Qed.

Lemma start_effect ptr node : effect ptr (open_pg_tde_ddl_command_start_capture (Some (ptr, node))).
Proof.
  destruct node; simpl; try exact (effect_quiet ptr _ (always_ret same_process tt)).
  - unfold capture_index. apply effect_bind; [auto with always|]. intros relid _ _ _.
    apply effect_bind; [auto with always|]. intros m _ _ _. apply effect_bind; [always_solve|].
    intros; by apply effect_push.
  - unfold capture_create. apply effect_bind; [always_solve|]. intros found _ _ _.
    apply effect_bind; [auto with always|]. intros. apply effect_push_then; auto with always.
  - unfold capture_create_as. apply effect_bind; [auto with always|]. intros.
    apply effect_push_then; auto with always.
  - unfold capture_alter_table. apply effect_bind; [auto with always|]. intros relid _ _ _.
    case_match; [apply effect_quiet; always_solve|]. apply effect_bind; [auto with always|]. intros m _ _ _.
    case_match; [apply effect_quiet; always_solve|]. apply effect_bind; [auto with always|]. intros rel _ _ _.
    apply effect_bind; [always_solve|]. intros e w w' E. apply effect_push_then; [|auto with always].
    destruct (set_access_method cmds None) as [n|], (RELKIND_HAS_STORAGE (relkind rel)), m;
      repeat (minv E; cbv beta iota in E); try destruct r; try (minv E); by injection E as <- _.
  - unfold capture_create_seq. apply effect_bind; [auto with always|]. intros o _ _ _.
    apply effect_bind; [always_solve|]. intros. by apply effect_push.
  - unfold capture_alter_seq. apply effect_bind; [auto with always|]. intros relid _ _ _.
    case_match; [apply effect_quiet; always_solve|]. apply effect_bind; [auto with always|]. intros o _ _ _.
    apply effect_bind; [always_solve|]. intros e w w' E. apply effect_push.
    repeat case_match; try (minv E); by injection E as <- _.
Qed.

(** The end of a command pops the event of its start. *)
Lemma end_pops ptr node s e w w' :
  ddlEventStack (w_ddl w) = s ++ [e] → ev_parsetree e = ptr →
  open_pg_tde_ddl_command_end_capture (Some (ptr, node)) w = Ok tt w' →
  ddlEventStackTid (w_ddl w') = ddlEventStackTid (w_ddl w) ∧ ddlEventStack (w_ddl w') = s ∧ xids_kept (w_ddl w) (w_ddl w').
Proof.
  intros Hs Hp E. cbn [open_pg_tde_ddl_command_end_capture] in E.
  erewrite bind_ok in E by reflexivity. rewrite Hs, last_snoc, Hp, Z.eqb_refl in E. cbn [negb] in E.
  assert (∀ seqlist p, always ddl_kept (change_persistence_loop seqlist p)) as Hloop.
  { induction seqlist as [|x xs IH]; intros p; cbn [change_persistence_loop]; [auto with always|].
    apply (always_bind _); [apply SequenceChangePersistence_kept|auto]. }
  assert (∀ relid, always ddl_kept (relation_open relid)) as Hopen.
  { intros relid. unfold relation_open. always_solve. }
  pose proof SequenceChangePersistence_kept as Hseq.
  minv E. minv E. injection E as <-. cbn [w_ddl set_ddl].
  assert (ddl_kept w w0) as K0.
  { refine (always_ok ddl_kept _ _ _ _ _ E0). destruct (negb _); always_solve. }
  assert (ddl_kept w0 w1) as K1.
  { refine (always_ok ddl_kept _ _ _ _ _ E1). destruct (negb _); always_solve. }
  destruct (ddl_kept_preorder.(PreOrder_Transitive) _ _ _ K0 K1) as (H1 & H2 & H3).
  split_and!; [exact H1|cbn; rewrite H2, Hs; by rewrite removelast_last|exact H3].
Qed.

(** Without an event of the command on top nothing happens. *)
Lemma end_other ptr node w w' :
  ptr ∉ ev_parsetree <$> ddlEventStack (w_ddl w) →
  open_pg_tde_ddl_command_end_capture (Some (ptr, node)) w = Ok tt w' → w' = w.
Proof.
  intros Hp E. cbn [open_pg_tde_ddl_command_end_capture] in E. erewrite bind_ok in E by reflexivity.
  destruct (last _) as [e|] eqn:El; [|by injection E]. rewrite (proj2 (Z.eqb_neq _ _)) in E; [by injection E|].
  intros <-. apply Hp, list_elem_of_fmap_2. apply last_Some in El as [l ->]. set_solver.
Qed.

(** A subtransaction that ends normally, or whose error is caught. *)
Definition subtransaction (m : M unit) : M unit := λ w,
  match (begin_subxact;; m) w with
  | Ok _ w' | Err _ w' => end_subxact w'
  end.

Lemma subtransaction_kept m : always ddl_kept m → always ddl_kept (subtransaction m).
Proof.
  intros Hm w. unfold subtransaction. rewrite (bind_ok begin_subxact _ w _ _ eq_refl). set (w0 := set_ddl _ w).
  specialize (Hm w0). assert (∀ w1, ddl_kept w0 w1 → ∃ w2, end_subxact w1 = Ok tt w2 ∧ ddl_kept w w2) as Hend.
  { intros w1 (H1 & H2 & H3 & F). eexists. split; [reflexivity|]. split_and!; [exact H1|exact H2|]. split; [exact H3|].
    inversion F as [|? ? ? ? _ F2]; subst. inversion F2 as [|? c' ? ps' Hc Hp Ha Hb]; subst. symmetry in Hb.
    unfold xids. cbn. rewrite ?Hb. by constructor. }
  destruct (m w0) as [[] w1|e w1]; destruct (Hend w1 Hm) as (w2 & -> & ?); done.
Qed.

(** Computations in which every command has its end, and commands that run at
    the same time have different parse trees; [live] are the parse trees of the
    commands around it. Within a command ([inside]) no commands run in
    subtransactions. *)
Inductive bracketed : bool → list Z → M unit → Prop :=
| bracketed_other inside live m : always ddl_kept m → bracketed inside live m
| bracketed_seq inside live a b : bracketed inside live a → bracketed inside live b → bracketed inside live (a;; b)
| bracketed_command inside live ptr node body :
    ptr ∉ live → bracketed true (ptr :: live) body →
    bracketed inside live (open_pg_tde_ddl_command_start_capture (Some (ptr, node));; body;;
                    open_pg_tde_ddl_command_end_capture (Some (ptr, node)))
| bracketed_quiet_sub inside live m : always ddl_kept m → bracketed inside live (subtransaction m)
| bracketed_sub live m : bracketed false live m → bracketed false live (begin_subxact;; m;; end_subxact).

Definition stack_ptrs (w : World) : list Z := ev_parsetree <$> ddlEventStack (w_ddl w).

#[local] Instance neutral_dec w : Decision (neutral w).
Proof. unfold neutral. apply or_dec; [apply _|]. destruct (ddlEventStack (w_ddl w)); [by left|by right]. Defined.

(** What such a computation leaves of the stack: all of it, or nothing if no event
    belonged to the current transaction. *)
Definition stack_kept (w w' : World) : Prop :=
  ddlEventStackTid (w_ddl w') = ddlEventStackTid (w_ddl w) ∧ ddlEventStack (w_ddl w') = ddlEventStack (w_ddl w) ∨
  neutral w ∧ ddlEventStack (w_ddl w') = [].

Definition restored (w w' : World) : Prop :=
  ddl_ok (w_ddl w') ∧ xids_kept (w_ddl w) (w_ddl w') ∧ stack_kept w w'.

Lemma restored_neutral w w' : ddl_ok (w_ddl w) → restored w w' → neutral w → neutral w'.
Proof.
  intros Hok (_ & Hx & [[H1 H2]|[_ H]]) [Hn|Hn]; try (by right); [|right; congruence].
  left. rewrite H1. destruct Hok as (Ht & _). by apply (xids_kept_other _ _ _ Hx).
Qed.

Lemma restored_trans w w1 w2 : ddl_ok (w_ddl w) → restored w w1 → restored w1 w2 → restored w w2.
Proof.
  intros Hok H1 H2. pose proof (restored_neutral w w1 Hok H1) as Hn.
  destruct H1 as (Hok1 & X1 & S1), H2 as (Hok2 & X2 & S2). split_and!; [done|by etrans|].
  destruct S1 as [[A1 A2]|[A1 A2]], S2 as [[B1 B2]|[B1 B2]].
  - left. split; congruence.
  - right. split; [|done]. destruct (decide (neutral w)) as [|Hnn]; [done|]. exfalso. apply Hnn.
    destruct B1 as [B|B]; [|right; congruence]. left. intros Hc. apply B. rewrite A1, Hc. symmetry. apply xids_kept_current; [done|].
    intros H0. destruct Hok as (_ & _ & _ & H4 & _). apply Hnn. right. apply H4. congruence.
  - right. split; [done|]. congruence.
  - by right.
Qed.

Lemma restored_ptrs w w' : restored w w' → stack_ptrs w' ⊆ stack_ptrs w.
Proof. intros (_ & _ & [[_ H]|[_ H]]); unfold stack_ptrs; rewrite H; [done|set_solver]. Qed.

Lemma kept_restored w w' : ddl_ok (w_ddl w) → ddl_kept w w' → restored w w'.
Proof.
  intros Hok (H1 & H2 & H3). split_and!; [|done|by left]. apply (ddl_ok_kept (w_ddl w)); [done|done| |].
  - rewrite H1. destruct Hok as (? & _), H3 as [? _]. lia.
  - rewrite H1, H2. apply Hok.
Qed.

(** In a transaction with events the ids do not change. *)
Lemma active_stack w : ddl_ok (w_ddl w) → ¬ neutral w →
  with_xid (w_ddl w) = w_ddl w ∧ live_stack (w_ddl w) = ddlEventStack (w_ddl w) ∧ current_tid (w_ddl w) = ddlEventStackTid (w_ddl w).
Proof.
  intros (_ & _ & _ & H0 & _) Hn.
  assert (ddlEventStackTid (w_ddl w) = CurrentFullTransactionId (w_ddl w)) as Ht.
  { destruct (decide (ddlEventStackTid (w_ddl w) = CurrentFullTransactionId (w_ddl w))); [done|]. destruct Hn. by left. }
  assert (CurrentFullTransactionId (w_ddl w) ≠ 0) as Hc by (intros E; apply Hn; right; apply H0; congruence).
  assert (with_xid (w_ddl w) = w_ddl w) as Hx by (unfold with_xid; by rewrite (proj2 (Z.eqb_neq _ _) Hc)).
  unfold live_stack, current_tid. rewrite Hx, Ht, Z.eqb_refl. done.
Qed.

(** Otherwise a push starts with an empty stack. *)
Lemma neutral_live_stack w : ddl_ok (w_ddl w) → neutral w → live_stack (w_ddl w) = [].
Proof.
  intros (Ht & _) [Hn|Hn]; unfold live_stack; [|by case_match].
  rewrite (proj2 (Z.eqb_neq _ _)); [done|]. unfold current_tid. destruct (with_xid_kept (w_ddl w)) as (Hx & _).
  by apply (xids_kept_other _ _ _ Hx).
Qed.

(** A command whose body restores the stack. *)
Lemma command_restored ptr node body w w' :
  ddl_ok (w_ddl w) → ptr ∉ stack_ptrs w →
  (∀ w0 w1, ddl_ok (w_ddl w0) → stack_ptrs w0 ⊆ ptr :: stack_ptrs w → body w0 = Ok tt w1 → restored w0 w1) →
  (open_pg_tde_ddl_command_start_capture (Some (ptr, node));; body;; open_pg_tde_ddl_command_end_capture (Some (ptr, node))) w = Ok tt w' →
  restored w w'.
Proof.
  intros Hok Hptr Hbody E. minv E. minv E. destruct r, r0. destruct (start_effect ptr node _ _ E0) as [Es|(e & He & Es)].
  - assert (restored w w0) as R0 by (apply kept_restored; [done|]; by split_and!; rewrite Es).
    assert (restored w0 w1) as R1.
    { apply Hbody; [by rewrite Es| |done]. pose proof (restored_ptrs _ _ R0). set_solver. }
    pose proof (restored_trans _ _ _ Hok R0 R1) as R. apply end_other in E as ->; [done|].
    intros Hin. apply Hptr. by apply (restored_ptrs _ _ R).
  - assert (ddl_ok (w_ddl w0)) as Hok0 by (rewrite Es; by apply with_stack_ok).
    assert (¬ neutral w0) as Hn0.
    { intros [Hn|Hn]; rewrite Es in Hn; cbn in Hn; [done|]. by apply app_nil in Hn as [_ ?]. }
    assert (restored w0 w1) as (Hok1 & X1 & S1).
    { apply Hbody; [done| |done]. unfold stack_ptrs. rewrite Es. cbn. rewrite fmap_app. unfold live_stack, stack_ptrs in *.
      case_match; set_solver. }
    destruct S1 as [[T1 K1]|[? _]]; [|done].
    apply (end_pops ptr node (live_stack (w_ddl w)) e) in E as (T2 & K2 & X2); [|by rewrite K1, Es|done].
    assert (xids_kept (w_ddl w) (w_ddl w')) as X.
    { etrans; [|exact X2]. etrans; [|exact X1]. rewrite Es. apply with_stack_kept. }
    assert (ddlEventStackTid (w_ddl w') = current_tid (w_ddl w)) as T by (rewrite T2, T1, Es; done).
    split_and!; [|done|].
    + apply (ddl_ok_kept (w_ddl w1)); [done|done| |].
      * rewrite T2. destruct Hok1 as (? & _), X2 as [? _]. lia.
      * rewrite T. intros H. by apply current_tid_pos in Hok.
    + unfold stack_kept. rewrite T, K2. destruct (decide (neutral w)) as [Hn|Hn].
      * right. split; [done|]. by apply neutral_live_stack.
      * left. destruct (active_stack w Hok Hn) as (_ & ? & ?). done.
Qed.

(** A subtransaction, outside of all commands. *)
Lemma sub_restored m w w' :
  ddl_ok (w_ddl w) → neutral w →
  (∀ w0 w1, ddl_ok (w_ddl w0) → neutral w0 → stack_ptrs w0 = stack_ptrs w → m w0 = Ok tt w1 → restored w0 w1) →
  (begin_subxact;; m;; end_subxact) w = Ok tt w' → restored w w'.
Proof.
  intros Hok Hn Hm E. rewrite (bind_ok begin_subxact _ w _ _ eq_refl) in E. set (w0 := set_ddl _ w) in E.
  minv E. destruct r. injection E as <-. pose proof Hok as (H1 & H2 & H3 & H4 & H5).
  assert (ddl_ok (w_ddl w0)) as Hok0 by (split_and!; cbn; [lia|lia|lia|done|by constructor]).
  assert (neutral w0) as Hn0.
  { destruct (decide (ddlEventStackTid (w_ddl w) = 0)) as [E|E]; [right; by apply H4|by left]. }
  destruct (Hm w0 w1 Hok0 Hn0 eq_refl E0) as (Hok1 & [Hx F] & Hs). inversion F as [|? ? ? ? _ F2]; subst.
  inversion F2 as [|? c' ? ps' Hc Hp Ha Hb]; subst. symmetry in Hb.
  pose proof Hok1 as (G1 & G2 & G3 & G4 & G5). rewrite Hb in G5. apply Forall_cons in G5 as [G5 G6].
  split_and!; cbn; rewrite ?Hb; cbn; [by split_and!| |].
  - split; [exact Hx|]. unfold xids. cbn. rewrite ?Hb. by constructor.
  - destruct Hs as [[A1 A2]|[_ A]]; [left; by split|right; by split].
Qed.

Lemma bracketed_restored inside live m w w' :
  bracketed inside live m → ddl_ok (w_ddl w) → stack_ptrs w ⊆ live → (inside = false → neutral w) → m w = Ok tt w' → restored w w'.
Proof.
  intros Hb. revert w w'.
  induction Hb as [inside live m Hm|inside live a b _ IHa _ IHb|inside live ptr node body Hptr _ IH|inside live m Hm|live m _ IH];
    intros w w' Hok Hsub Hin E.
  - apply kept_restored; [done|]. by apply (always_ok _ _ _ _ _ Hm E).
  - minv E. destruct r. pose proof (IHa _ _ Hok Hsub Hin E0) as R1. apply (restored_trans w w0 w' Hok R1).
    apply IHb; [apply R1| | |done].
    + etrans; [by apply restored_ptrs|done].
    + intros Hi. apply (restored_neutral w w0); auto.
  - apply (command_restored ptr node body w w' Hok); [set_solver| |done]. intros w0 w1 Hok0 Hp E1.
    apply IH; [done| |done|done]. set_solver.
  - apply kept_restored; [done|]. by apply (always_ok _ _ _ _ _ (subtransaction_kept m Hm) E).
  - apply (sub_restored m w w' Hok (Hin eq_refl)); [|done]. intros w0 w1 Hok0 Hn0 Hp E1. apply IH; [done| |done|done].
    by rewrite Hp.
Qed.

(** C19: commands nest: whatever commands run to their end inside a command,
    before and after it, and whatever events an earlier transaction has left on
    the stack, the encryption mode afterwards is the one before. This holds in
    transactions and in subtransactions, and also when subtransactions that run no
    commands are started in between, and undone; commands in a subtransaction may
    only run outside of all other commands. Commands that run at the same time, and
    events that were left on the stack, have different parse trees. *)
Theorem nested_commands_restore_mode inside live m w w' md :
  bracketed inside live m → ddl_ok (w_ddl w) → stack_ptrs w ⊆ live → (inside = false → neutral w) → m w = Ok tt w' →
  currentTdeEncryptModeValidated w = Ok md w → currentTdeEncryptModeValidated w' = Ok md w'.
Proof.
  intros Hb Hok Hsub Hin E Em. pose proof (bracketed_restored inside live m w w' Hb Hok Hsub Hin E) as R.
  assert (∀ w, neutral w → currentTdeEncryptModeValidated w = Ok TDE_ENCRYPT_MODE_RETAIN w) as Hret.
  { intros w1 Hn. unfold currentTdeEncryptModeValidated, GetCurrentFullTransactionIdIfAny, currentTdeEncryptMode.
    unfold mbind, M_bind, gets. destruct Hn as [Hn|Hn]; simpl; [by rewrite (proj2 (Z.eqb_neq _ _))|].
    destruct (negb _); [done|]. by rewrite Hn. }
  destruct (decide (neutral w)) as [Hn|Hn].
  - rewrite (Hret w Hn) in Em. injection Em as <-. by apply Hret, (restored_neutral w w').
  - destruct R as (_ & X & [[T S]|[? _]]); [|done]. destruct (active_stack w Hok Hn) as (Hx & _ & Hc).
    assert (CurrentFullTransactionId (w_ddl w') = CurrentFullTransactionId (w_ddl w)) as Hcur.
    { apply xids_kept_current; [done|]. rewrite <-Hx. by apply current_tid_pos. }
    revert Em. unfold currentTdeEncryptModeValidated, GetCurrentFullTransactionIdIfAny, currentTdeEncryptMode.
    unfold mbind, M_bind, gets. rewrite T, Hcur. destruct (negb _); [by intros [= <-]|]. rewrite S. by intros [= <-].
Qed.

End nested.

(** ** Utility commands *)

Section utility.
Context {SSL : OpenSSL} {Spec : OpenSSLSpec SSL} {K : Kernel} {NF : NoFaults K} {PP : PgPort}.
Context {NK : NetworkKeyrings} {PR : Providers} {SV : Server} {CAT : Catalog}.

(** The database [name] is found, and still has the name once it is locked. *)
Definition database_is (name : string) (row : Form_pg_database) (w w1 : World) : Prop :=
  snd <$> list_find (λ r, datname r = name) (pg_database_rows w) = Some row ∧
  LockDatabase (dat_oid row) w = Ok tt w1 ∧
  snd <$> list_find (λ r, dat_oid r = dat_oid row) (pg_database_rows w1) = Some row ∧ datname row = name.

Lemma get_db_info_ok name row w w1 :
  database_is name row w w1 → get_db_info name w = Ok (Some (dat_oid row, dattablespace row)) w1.
Proof.
  intros (H1 & H2 & H3 & H4). unfold get_db_info. cbn [get_db_info_loop]. mstep.
  apply fmap_Some in H1 as ([i r] & -> & ->). simpl in *. rewrite (bind_ok _ _ _ _ _ H2). mstep.
  apply fmap_Some in H3 as ([j r'] & -> & Er). simpl in *. subst r'. by rewrite bool_decide_true.
Qed.

(** CREATE DATABASE with the strategy FILE_COPY is passed on to the server
    exactly when the template database has no relation keys; otherwise it is
    refused, and nothing but the lock on the database has changed. *)
Theorem file_copy_guard options tmpl strategy row pk m w w1 :
  createdb_options options "template1" "wal_log" w = Ok (tmpl, strategy) w →
  pg_strcasecmp_eq (String.list_byte_of_string strategy) (String.list_byte_of_string "file_copy") = true →
  database_is tmpl row w w1 → w_enc_lock w1 = None →
  file_rep (w_fs w1) (open_pg_tde_set_db_file_path (dat_oid row)) pk m →
  if decide (m = ∅) then open_pg_tde_proccess_utility (CreatedbStmt options) w = next_ProcessUtility (CreatedbStmt options) w1
  else ∃ e, open_pg_tde_proccess_utility (CreatedbStmt options) w = Err e w1.
Proof.
  intros Ho Hs Hdb Hl Hrep. unfold open_pg_tde_proccess_utility. rewrite bind_assoc.
  rewrite (bind_ok _ _ _ _ _ Ho). cbv beta iota. rewrite Hs. rewrite bind_assoc.
  rewrite (bind_ok _ _ _ _ _ (get_db_info_ok _ _ _ _ Hdb)). cbv beta iota. unfold check_no_encryption_keys.
  rewrite bind_assoc, (bind_ok _ _ _ _ _ (acquire_enc_ok LW_SHARED w1 Hl)). rewrite bind_assoc.
  rewrite (bind_ok _ _ _ _ _ (count_encryption_keys_spec (dat_oid row) pk m (set_enc_lock (Some LW_SHARED) w1) Hrep)).
  rewrite bind_assoc, (bind_ok _ _ _ _ _ (release_enc_ok LW_SHARED (set_enc_lock (Some LW_SHARED) w1) eq_refl)), unlock_lock by done.
  destruct (decide (m = ∅)) as [->|Hm].
  - by rewrite map_size_empty.
  - rewrite (proj2 (Z.ltb_lt _ _)); [by eexists|].
    pose proof (map_size_empty_inv m). assert (size m ≠ 0%nat) by auto. lia.
Qed.

End utility.

(** ** Examples *)

(** A server with a table 100 with access method 2 (heap), its child 101 with
    access method 70 (tde_heap), a sequence 102, and database 5 as template1.
    Rewriting a sequence is visible in the file "rewritten". *)
Definition toy_rows : list Form_pg_class :=
  [mkForm_pg_class 100 RELKIND_RELATION 2 0 0 112; mkForm_pg_class 101 RELKIND_RELATION 70 0 0 112;
   mkForm_pg_class 102 RELKIND_SEQUENCE 0 0 0 112].

Definition toy_name (rv : RangeVar) : Z :=
  if decide (rv = ["plain"]) then 103 else if decide (rv = ["parent"]) then 100
  else if decide (rv = ["child"]) then 101 else if decide (rv = ["seq"]) then 102 else 0.

#[local] Instance ToyCatalog : Catalog := {|
  pg_class _ := mkForm_pg_class 103 RELKIND_RELATION 2 0 0 112 :: toy_rows;
  pg_database_rows _ := [mkForm_pg_database 5 "template1" 1663];
  find_inheritance_children _ x := if x =? 100 then [101] else [];
  getOwnedSequences _ _ := [102];
  RangeVarGetRelid rv b := mret (toy_name rv);
  get_table_am_oid _ := mret 70;
  defGetQualifiedName d := mret (defarg d);
  defGetString d := mret (String.concat "" (defarg d));
  SequenceChangePersistence s _ := modify (λ w, set_fs (<["rewritten" := [z2b s]]> (w_fs w)) w);
  next_ProcessUtility _ := mret tt;
  LockDatabase _ := mret tt;
  UnlockDatabase _ := mret tt;
  database_renames := 0;
|}.

#[local] Instance ToyCatalogSpec : CatalogSpec ToyCatalog.
Proof. split; intros; intros w; simpl; try done; by split_and!. Defined.

#[local] Existing Instances ToyProviders ToyServer.

#[local] Instance ToyFrame : ProvidersFrame ToyNetwork ToyProviders.
Proof. split; intros; intros w; simpl; by split_and!. Defined.

Definition enforced (w : World) : World :=
  let s := w_session w in
  set_session (mkSession (KeyLength s) (Cipher s) (DataCipher s) (AllowInheritGlobalProviders s) (is_superuser s)
    (MyDatabaseId s) (IsUnderPostmaster s) (InCrashRecovery s) (IsBinaryUpgrade s) true "heap") w.

Lemma create_table_decision_witness :
  ∃ e w1, start_create 1 (Some "heap"%string) false [] (enforced world0) = Err e w1.
Proof.
  destruct (create_table_decision 1 (Some "heap"%string) false [] false (enforced world0)) as (e & E);
    [reflexivity|]. eexists e, _. exact E.
Defined.

Lemma toy_child w x y : child w x y ↔ x = 100 ∧ y = 101.
Proof.
  unfold child. split; [|intros [-> ->]; by apply list_elem_of_singleton].
  destruct (decide (x = 103)) as [->|H3]; [intros H; by apply elem_of_nil in H|].
  destruct (decide (x = 100)) as [->|H0]; [by intros ->%list_elem_of_singleton|].
  destruct (decide (x = 101)) as [->|H1]; [intros H; by apply elem_of_nil in H|].
  destruct (decide (x = 102)) as [->|H2]; [intros H; by apply elem_of_nil in H|].
  unfold children_of, class_row. simpl. rewrite !decide_False by auto. simpl. intros H. by apply elem_of_nil in H.
Qed.

Lemma toy_catalog_ok w : catalog_ok w.
Proof.
  split.
  - intros x y [-> ->]%toy_child. by eexists.
  - intros x H. assert (∀ a b, tc (child w) a b → a = 100 ∧ b = 101) as Hall.
    { induction 1 as [a b [-> ->]%toy_child|a b c [-> ->]%toy_child _ [? ?]]; [done|lia]. }
    apply Hall in H. lia.
Qed.

Lemma encryption_mix_terminates_witness :
  ∃ m, alter_table_encryption_mix 100 world0 = Ok m world0 ∧ m = ENC_MIX_MIXED.
Proof.
  destruct (encryption_mix_terminates 100 70 world0) as (m & E & Hm);
    [reflexivity|apply toy_catalog_ok|by eexists|].
  exists m. split; [exact E|]. assert (has_stored world0 70 100 false) as Hf.
  { exists 100. split; [constructor|]. by eexists. }
  assert (has_stored world0 70 100 true) as Ht.
  { exists 101. split; [apply rtc_once; by apply toy_child|]. by eexists. }
  destruct m; simpl in Hm; tauto.
Defined.

Lemma enforcement_blocks_alter_witness : ∃ w',
  open_pg_tde_ddl_command_start_capture (Some (1, AlterTableStmt ["plain"%string] [AT_Other])) (enforced world0) =
    Err (mkError ERROR "open_pg_tde.enforce_encryption is ON, only the tde_heap access method is allowed.") w'.
Proof.
  assert (∀ y, rtc (child (enforced world0)) 103 y → y = 103) as Hy.
  { intros y [->|(z & [? _]%toy_child & _)]%rtc_inv; [done|lia]. }
  apply (enforcement_blocks_alter 1 ["plain"%string] [AT_Other] 103 70 (enforced world0)); try reflexivity.
  - apply toy_catalog_ok.
  - by eexists.
  - done.
  - intros (y & ->%Hy & rel & Hrel & _ & Ham). injection Hrel as <-. done.
  - exists 103. split; [constructor|]. by eexists.
Defined.

(** A CREATE TABLE, with a subtransaction in it, inside another one, on a server where an earlier transaction
    has left an event. *)
Definition world_stale : World :=
  set_ddl (mkDdlState 690 [mkTdeDdlEvent 7 TDE_ENCRYPT_MODE_PLAIN InvalidOid 102] 0 700 []) world0.

Definition nested_create : M unit :=
  open_pg_tde_ddl_command_start_capture (Some (1, CreateStmt (Some "heap"%string) false []));;
  (open_pg_tde_ddl_command_start_capture (Some (2, CreateStmt (Some "heap"%string) false []));; subtransaction (mret tt);;
   open_pg_tde_ddl_command_end_capture (Some (2, CreateStmt (Some "heap"%string) false [])));;
  open_pg_tde_ddl_command_end_capture (Some (1, CreateStmt (Some "heap"%string) false [])).

Lemma nested_commands_restore_mode_witness : ∃ w',
  nested_create world_stale = Ok tt w' ∧
  currentTdeEncryptModeValidated w' = Ok TDE_ENCRYPT_MODE_RETAIN w'.
Proof.
  destruct (nested_create world_stale) as [[] w'|e w'] eqn:E; [|discriminate E]. exists w'. split; [reflexivity|].
  apply (nested_commands_restore_mode false [7] nested_create world_stale w' TDE_ENCRYPT_MODE_RETAIN).
  - apply (bracketed_command false [7] 1 (CreateStmt (Some "heap"%string) false [])); [set_solver|].
    apply bracketed_command; [set_solver|]. apply bracketed_quiet_sub. apply (always_ret _).
  - split_and!; done.
  - set_solver.
  - intros _. by left.
  - exact E.
  - reflexivity.
Defined.

Lemma file_copy_guard_witness : ∃ e w1,
  open_pg_tde_proccess_utility (CreatedbStmt [mkDefElem "strategy" ["FILE_COPY"%string]]) world_key = Err e w1.
Proof.
  destruct world_key_facts as ((_ & _ & Hr) & Hl & _).
  pose proof (file_copy_guard [mkDefElem "strategy" ["FILE_COPY"%string]] "template1" "FILE_COPY"
    (mkForm_pg_database 5 "template1" 1663) pk5 keys1 world_key world_key) as H.
  rewrite decide_False in H by apply keys1_nonempty.
  destruct H as (e & E); [done|reflexivity|by split_and!|exact Hl|exact Hr|]. exists e, world_key. exact E.
Defined.

(** The end of a command does not check that the event on top of the stack
    belongs to its transaction: an event left by a command that failed in an
    earlier transaction is executed by a later command of any kind whose parse
    tree has the same address. Here the sequence 102 is rewritten. *)
Theorem stale_event_executed :
  neutral world_stale ∧
  match open_pg_tde_ddl_command_end_capture (Some (7, OtherStmt)) world_stale with
  | Ok _ w' => w_fs w' !! "rewritten" = Some [z2b 102] ∧ ddlEventStack (w_ddl w') = []
  | Err _ _ => False
  end.
Proof. split; [by left|]. vm_compute. split; reflexivity. Qed.

Definition mode_after (m : M unit) (w : World) : option TDEEncryptMode :=
  match (m;; currentTdeEncryptModeValidated) w with Ok md _ => Some md | Err _ _ => None end.

Definition start_index : M unit := open_pg_tde_ddl_command_start_capture (Some (1, IndexStmt ["child"%string])).

Definition command_in_sub : M unit :=
  begin_subxact;;
  open_pg_tde_ddl_command_start_capture (Some (2, CreateStmt (Some "heap"%string) false []));;
  open_pg_tde_ddl_command_end_capture (Some (2, CreateStmt (Some "heap"%string) false []));;
  end_subxact.

(** A command that runs in a subtransaction inside another command (a function with
    an exception handler) takes the stack for that of another transaction and throws
    it away: the mode of the outer command is lost. *)
Theorem subtransaction_loses_mode :
  mode_after start_index world0 = Some TDE_ENCRYPT_MODE_ENCRYPT ∧
  mode_after (start_index;; command_in_sub) world0 = Some TDE_ENCRYPT_MODE_RETAIN.
Proof. split; vm_compute; reflexivity. Qed.
