(* ===== verification/Smgr.v ===== *)
(** smgr/open_pg_tde_smgr.c: the storage manager that encrypts the pages of
    relations on their way to md.c.

    The functions of md.c belong to the server: they are the class [Md], and
    the pages in relation files are [md_pages]. A [SMgrRelation] pointer is the
    locator of the relation, its fields are in [smgr_relations]. A vector of
    buffers is a list of pages. The key array for asynchronous reads is in
    [tde_io_handle_keys]; the buffers of an IO handle are an argument and a
    result of the completion callback. *)
From S2P Require Import Prelude Types Environ Instances Ciphers EncTde KeyFile KeyMap WalKeys Keyring PrincipalKey.
From S2P Require Import EventCapture.

Section interface.
Context {SSL : OpenSSL}.

Class Md := {
  mdopen : RelFileLocatorBackend → M unit;
  mdclose : RelFileLocatorBackend → Z → M unit;
  mdcreate : RelFileLocator → RelFileLocatorBackend → Z → bool → M unit;
  mdunlink : RelFileLocatorBackend → Z → bool → M unit;
  mdextend : RelFileLocatorBackend → Z → Z → bytes → bool → M unit;
  mdwritev : RelFileLocatorBackend → Z → Z → list bytes → bool → M unit;
  mdreadv : RelFileLocatorBackend → Z → Z → nat → M (list bytes);
  (** before PostgreSQL 17 *)
  mdwrite : RelFileLocatorBackend → Z → Z → bytes → bool → M unit;
  mdread : RelFileLocatorBackend → Z → Z → M bytes;
  (** the first argument is the id of the IO handle *)
  mdstartreadv : Z → RelFileLocatorBackend → Z → Z → nat → M unit;
  IsCatalogRelationOid : Z → bool;
}.

End interface.

Definition InvalidForkNumber : Z := -1.

Inductive PgAioResultStatus := PGAIO_RS_OK | PGAIO_RS_PARTIAL | PGAIO_RS_WARNING | PGAIO_RS_ERROR.

#[export] Instance PgAioResultStatus_eq_dec : EqDecision PgAioResultStatus.
Proof. solve_decision. Defined.

Record PgAioResult := mkPgAioResult { aio_status : PgAioResultStatus; aio_result : Z }.

(** After [explicit_bzero] *)
Definition InternalKey_zero : InternalKey := mkInternalKey 0 0 (zeros 16) (zeros 64).

Definition InternalKey_decode (bs : bytes) : InternalKey :=
  mkInternalKey (le_dec (slice 0 4 bs)) (le_dec (slice 4 4 bs)) (slice 8 16 bs) (slice 24 64 bs).

Section smgr.
Context {SSL : OpenSSL} {K : Kernel} {PKS : PrincipalKeys} {MD : Md}.

(** ** State *)

Definition modify_smgr (f : SmgrState → SmgrState) : M unit := modify (λ w, set_smgr (f (w_smgr w)) w).

Definition set_reln (r : RelFileLocatorBackend) (t : TDESMgrRelation) (s : SmgrState) : SmgrState :=
  mkSmgrState (<[r := t]> (smgr_relations s)) (TempRelKeys s) (tde_io_handle_keys s) (tde_io_callbacks s) (md_pages s).
Definition set_temp_keys t (s : SmgrState) : SmgrState :=
  mkSmgrState (smgr_relations s) t (tde_io_handle_keys s) (tde_io_callbacks s) (md_pages s).
Definition set_io_key (ioh : Z) (k : InternalKey) (s : SmgrState) : SmgrState :=
  mkSmgrState (smgr_relations s) (TempRelKeys s) (<[ioh := k]> (tde_io_handle_keys s)) (tde_io_callbacks s) (md_pages s).
Definition set_io_callbacks c (s : SmgrState) : SmgrState :=
  mkSmgrState (smgr_relations s) (TempRelKeys s) (tde_io_handle_keys s) c (md_pages s).
Definition set_md_pages p (s : SmgrState) : SmgrState :=
  mkSmgrState (smgr_relations s) (TempRelKeys s) (tde_io_handle_keys s) (tde_io_callbacks s) p.

(** The fields of a relation. *)
Definition tdereln (reln : RelFileLocatorBackend) : M TDESMgrRelation :=
  r ← gets (λ w, smgr_relations (w_smgr w) !! reln);
  match r with
  | Some r => mret r
  | None => ereport PANIC "relation is not open"
  end.

Definition store_tdereln (reln : RelFileLocatorBackend) (t : TDESMgrRelation) : M unit :=
  modify_smgr (set_reln reln t).

(** ** Keys of temporary relations *)

Definition tde_smgr_save_temp_key (newrlocator : RelFileLocator) (key : InternalKey) : M unit :=
  modify_smgr (λ s, set_temp_keys (Some (<[newrlocator := key]> (default ∅ (TempRelKeys s)))) s).

Definition tde_smgr_get_temp_key (rel : RelFileLocator) : M (option InternalKey) :=
  gets (λ w, t ← TempRelKeys (w_smgr w); t !! rel).

Definition tde_smgr_has_temp_key (rel : RelFileLocator) : M bool :=
  gets (λ w, bool_decide (is_Some (t ← TempRelKeys (w_smgr w); t !! rel))).

Definition tde_smgr_delete_temp_key (rel : RelFileLocator) : M unit :=
  t ← gets (λ w, TempRelKeys (w_smgr w));
  match t with
  | Some t => modify_smgr (set_temp_keys (Some (delete rel t)))
  | None => ereport PANIC "NULL pointer dereference"
  end.

(** ** Keys *)

Definition tde_smgr_log_create_key (rlocator : RelFileLocator) : M unit :=
  XLogInsert (XLOG_TDE_CREATE_RELATION_KEY rlocator).

Definition tde_smgr_log_delete_leftover_key (rlocator : RelFileLocator) : M unit :=
  XLogInsert (XLOG_TDE_DELETE_RELATION_KEY rlocator).

Definition tde_smgr_data_cipher : M Z :=
  s ← gets w_session;
  let cipher := if DataCipher s <? 0 then Cipher s else DataCipher s in
  mret (if cipher =? CIPHER_AES_128 then CIPHER_AES_128_XTS
        else if cipher =? CIPHER_AES_256 then CIPHER_AES_256_XTS
        else cipher).

Definition tde_smgr_create_key (smgr_rlocator : RelFileLocatorBackend) : M InternalKey :=
  cipher ← tde_smgr_data_cipher;
  key ← open_pg_tde_generate_internal_key cipher;
  (if RelFileLocatorBackendIsTemp smgr_rlocator then tde_smgr_save_temp_key (rlb_locator smgr_rlocator) key
   else
     open_pg_tde_save_smgr_key (rlb_locator smgr_rlocator) key true;;
     tde_smgr_log_create_key (rlb_locator smgr_rlocator));;
  mret key.

Definition tde_smgr_create_key_redo (rlocator : RelFileLocator) : M unit :=
  cipher ← tde_smgr_data_cipher;
  key ← open_pg_tde_generate_internal_key cipher;
  open_pg_tde_save_smgr_key rlocator key false.

Definition tde_smgr_delete_key (smgr_rlocator : RelFileLocatorBackend) : M unit :=
  if RelFileLocatorBackendIsTemp smgr_rlocator then tde_smgr_delete_temp_key (rlb_locator smgr_rlocator)
  else open_pg_tde_free_key_map_entry (rlb_locator smgr_rlocator).

Definition tde_smgr_delete_leftover_key (smgr_rlocator : RelFileLocatorBackend) : M unit :=
  if negb (RelFileLocatorBackendIsTemp smgr_rlocator) then
    open_pg_tde_free_key_map_entry (rlb_locator smgr_rlocator);;
    tde_smgr_log_delete_leftover_key (rlb_locator smgr_rlocator)
  else mret tt.

Definition tde_smgr_delete_leftover_key_redo (rlocator : RelFileLocator) : M unit :=
  open_pg_tde_free_key_map_entry rlocator.

Definition tde_smgr_is_encrypted (smgr_rlocator : RelFileLocatorBackend) : M bool :=
  if RelFileLocatorBackendIsTemp smgr_rlocator then tde_smgr_has_temp_key (rlb_locator smgr_rlocator)
  else open_pg_tde_has_smgr_key (rlb_locator smgr_rlocator).

Definition tde_smgr_get_key (smgr_rlocator : RelFileLocatorBackend) : M (option InternalKey) :=
  if RelFileLocatorBackendIsTemp smgr_rlocator then tde_smgr_get_temp_key (rlb_locator smgr_rlocator)
  else open_pg_tde_get_smgr_key (rlb_locator smgr_rlocator).

(** [old_locator] is NULL or given. *)
Definition tde_smgr_should_encrypt (smgr_rlocator : RelFileLocatorBackend) (old_locator : option RelFileLocator)
  : M bool :=
  if IsCatalogRelationOid (relNumber (rlb_locator smgr_rlocator)) then mret false
  else
    mode ← currentTdeEncryptModeValidated;
    match mode with
    | TDE_ENCRYPT_MODE_PLAIN => mret false
    | TDE_ENCRYPT_MODE_ENCRYPT => mret true
    | TDE_ENCRYPT_MODE_RETAIN =>
        match old_locator with
        | Some old_locator =>
            tde_smgr_is_encrypted (mkRelFileLocatorBackend old_locator (rlb_backend smgr_rlocator))
        | None => mret false
        end
    end.

Definition tde_smgr_resolve_encryption_status (reln : RelFileLocatorBackend) : M unit :=
  t ← tdereln reln;
  if negb (bool_decide (encryption_status t = RELATION_ENCRYPTION_UNKNOWN)) then mret tt
  else
    key ← tde_smgr_get_key reln;
    match key with
    | Some key => store_tdereln reln (mkTDESMgrRelation RELATION_ENCRYPTED key)
    | None => store_tdereln reln (mkTDESMgrRelation RELATION_NOT_ENCRYPTED (relKey t))
    end.

(** [ours]: [reln->smgr_which == OurSMgrId] *)
Definition tde_smgr_rel_is_encrypted (reln : RelFileLocatorBackend) (ours : bool) : M bool :=
  if negb ours then mret false
  else
    t ← tdereln reln;
    if bool_decide (encryption_status t = RELATION_ENCRYPTION_UNKNOWN) then tde_smgr_is_encrypted reln
    else mret (bool_decide (encryption_status t = RELATION_ENCRYPTED)).

(** common/open_pg_tde_utils.c, for an open relation: its kind, whether it is a
    temporary relation of another session, and its storage. [None] is NULL. *)
Definition open_pg_tde_is_encrypted (kind : Relkind) (other_temp : bool) (reln : RelFileLocatorBackend) (ours : bool)
  : M (option bool) :=
  if negb (RELKIND_HAS_STORAGE kind) then mret None
  else if other_temp then
    ereport ERROR "we cannot check if temporary relations from other backends are encrypted"
  else
    result ← tde_smgr_rel_is_encrypted reln ours;
    mret (Some result).

(** ** Reading and writing *)

(** [BlockNumber] arithmetic is modulo 2^32. *)
Fixpoint encrypt_blocks (k : InternalKey) (forknum bn : Z) (buffers : list bytes) : M (list bytes) :=
  match buffers with
  | [] => mret []
  | b :: buffers =>
      c ← tde_encrypt_smgr_block k forknum bn b;
      cs ← encrypt_blocks k forknum (u32 (bn + 1)) buffers;
      mret (c :: cs)
  end.

Fixpoint decrypt_blocks (k : InternalKey) (forknum bn : Z) (buffers : list bytes) : M (list bytes) :=
  match buffers with
  | [] => mret []
  | b :: buffers =>
      p ← tde_decrypt_smgr_block k forknum bn b b;
      ps ← decrypt_blocks k forknum (u32 (bn + 1)) buffers;
      mret (p :: ps)
  end.

Definition tde_mdwritev (reln : RelFileLocatorBackend) (forknum blocknum : Z) (buffers : list bytes)
  (skipFsync : bool) : M unit :=
  tde_smgr_resolve_encryption_status reln;;
  t ← tdereln reln;
  if bool_decide (encryption_status t = RELATION_NOT_ENCRYPTED)
  then mdwritev reln forknum blocknum buffers skipFsync
  else
    local_buffers ← encrypt_blocks (relKey t) forknum blocknum buffers;
    mdwritev reln forknum blocknum local_buffers skipFsync.

Definition tde_mdwrite (reln : RelFileLocatorBackend) (forknum blocknum : Z) (buffer : bytes)
  (skipFsync : bool) : M unit :=
  tde_smgr_resolve_encryption_status reln;;
  t ← tdereln reln;
  if bool_decide (encryption_status t = RELATION_NOT_ENCRYPTED)
  then mdwrite reln forknum blocknum buffer skipFsync
  else
    local_buffer ← tde_encrypt_smgr_block (relKey t) forknum blocknum buffer;
    mdwrite reln forknum blocknum local_buffer skipFsync.

Definition tde_mdextend (reln : RelFileLocatorBackend) (forknum blocknum : Z) (buffer : bytes)
  (skipFsync : bool) : M unit :=
  tde_smgr_resolve_encryption_status reln;;
  t ← tdereln reln;
  if bool_decide (encryption_status t = RELATION_NOT_ENCRYPTED)
  then mdextend reln forknum blocknum buffer skipFsync
  else
    local_blocks ← tde_encrypt_smgr_block (relKey t) forknum blocknum buffer;
    mdextend reln forknum blocknum local_blocks skipFsync.

Definition tde_mdreadv (reln : RelFileLocatorBackend) (forknum blocknum : Z) (nblocks : nat) : M (list bytes) :=
  buffers ← mdreadv reln forknum blocknum nblocks;
  tde_smgr_resolve_encryption_status reln;;
  t ← tdereln reln;
  if bool_decide (encryption_status t = RELATION_NOT_ENCRYPTED) then mret buffers
  else decrypt_blocks (relKey t) forknum blocknum buffers.

Definition tde_mdread (reln : RelFileLocatorBackend) (forknum blocknum : Z) : M bytes :=
  buffer ← mdread reln forknum blocknum;
  tde_smgr_resolve_encryption_status reln;;
  t ← tdereln reln;
  if bool_decide (encryption_status t = RELATION_NOT_ENCRYPTED) then mret buffer
  else tde_decrypt_smgr_block (relKey t) forknum blocknum buffer buffer.

(** ** Creating, opening, closing, removing *)

Definition tde_mdunlink (rlocator : RelFileLocatorBackend) (forknum : Z) (isRedo : bool) : M unit :=
  mdunlink rlocator forknum isRedo;;
  if (forknum =? MAIN_FORKNUM) || (forknum =? InvalidForkNumber) then
    encrypted ← tde_smgr_is_encrypted rlocator;
    if encrypted : bool then tde_smgr_delete_key rlocator else mret tt
  else mret tt.

Definition tde_mdcreate (relold : RelFileLocator) (reln : RelFileLocatorBackend) (forknum : Z) (isRedo : bool)
  : M unit :=
  mdcreate relold reln forknum isRedo;;
  binary_upgrade ← gets (λ w, IsBinaryUpgrade (w_session w));
  if isRedo then mret tt
  else if binary_upgrade : bool then mret tt
  else if negb (forknum =? MAIN_FORKNUM) then mret tt
  else
    encrypt ← tde_smgr_should_encrypt reln (Some relold);
    if negb encrypt then
      tde_smgr_delete_leftover_key reln;;
      t ← tdereln reln;
      store_tdereln reln (mkTDESMgrRelation RELATION_NOT_ENCRYPTED (relKey t))
    else
      key ← tde_smgr_create_key reln;
      _ ← tdereln reln;
      store_tdereln reln (mkTDESMgrRelation RELATION_ENCRYPTED key).

(** The structure is allocated by the server, uninitialised. *)
Definition tde_mdopen (reln : RelFileLocatorBackend) : M unit :=
  mdopen reln;;
  r ← gets (λ w, smgr_relations (w_smgr w) !! reln);
  key ← match r with
        | Some t => mret (relKey t)
        | None => b ← uninit 88; mret (InternalKey_decode b)
        end;
  store_tdereln reln (mkTDESMgrRelation RELATION_ENCRYPTION_UNKNOWN key).

Definition tde_mdclose (reln : RelFileLocatorBackend) (forknum : Z) : M unit :=
  mdclose reln forknum;;
  if forknum =? MAIN_FORKNUM then
    _ ← tdereln reln;
    store_tdereln reln (mkTDESMgrRelation RELATION_ENCRYPTION_UNKNOWN InternalKey_zero)
  else mret tt.

(** ** Asynchronous reads *)

Definition pgaio_io_register_callbacks (ioh : Z) : M unit :=
  modify_smgr (λ s, set_io_callbacks (ioh :: tde_io_callbacks s) s).

Definition tde_mdstartreadv (ioh : Z) (reln : RelFileLocatorBackend) (forknum blocknum : Z) (nblocks : nat)
  : M unit :=
  tde_smgr_resolve_encryption_status reln;;
  t ← tdereln reln;
  (if bool_decide (encryption_status t = RELATION_ENCRYPTED) then
     modify_smgr (set_io_key ioh (relKey t));;
     pgaio_io_register_callbacks ioh
   else mret tt);;
  mdstartreadv ioh reln forknum blocknum nblocks.

(** The pages of the IO, those up to [result] decrypted. *)
Fixpoint complete_blocks (k : InternalKey) (forknum bn : Z) (buf_off result : Z) (buffers : list bytes)
  : M (list bytes) :=
  match buffers with
  | [] => mret []
  | b :: buffers' =>
      if result <=? buf_off then mret buffers
      else
        p ← tde_decrypt_smgr_block k forknum bn b b;
        ps ← complete_blocks k forknum (u32 (bn + 1)) (buf_off + 1) result buffers';
        mret (p :: ps)
  end.

Definition tde_readv_complete (ioh : Z) (forkNum blockNum : Z) (buffers : list bytes) (prior_result : PgAioResult)
  : M (PgAioResult * list bytes) :=
  if negb (bool_decide (aio_status prior_result = PGAIO_RS_OK)) then
    modify_smgr (set_io_key ioh InternalKey_zero);;
    mret (prior_result, buffers)
  else
    int_key ← gets (λ w, default InternalKey_zero (tde_io_handle_keys (w_smgr w) !! ioh));
    buffers ← complete_blocks int_key forkNum blockNum 0 (aio_result prior_result) buffers;
    modify_smgr (set_io_key ioh InternalKey_zero);;
    mret (prior_result, buffers).

End smgr.
