(* ===== verification/SmgrSpec.v ===== *)
(** What the storage manager relies on (md.c), the invariant of its state, and
    what each of its operations does. *)
From S2P Require Import Prelude Types Environ Instances Ciphers EncTde Guc KeyFile KeyMap KeyMapSpec WalKeys.
From S2P Require Import WalKeysSpec Keyring PrincipalKey EventCapture EventCaptureThms Smgr.

(** ** Pages *)

Abbreviation PageMap := (gmap (RelFileLocatorBackend * Z * Z) bytes).

Fixpoint pages_at (pg : PageMap) (r : RelFileLocatorBackend) (f b : Z) (n : nat) : option (list bytes) :=
  match n with
  | O => Some []
  | S n => p ← pg !! (r, f, b); ps ← pages_at pg r f (u32 (b + 1)) n; Some (p :: ps)
  end.

Fixpoint write_pages (pg : PageMap) (r : RelFileLocatorBackend) (f b : Z) (ps : list bytes) : PageMap :=
  match ps with
  | [] => pg
  | p :: ps => <[(r, f, b) := p]> (write_pages pg r f (u32 (b + 1)) ps)
  end.

Section laws.
Context {SSL : OpenSSL}.

Definition pages (w : World) : PageMap := md_pages (w_smgr w).
Definition set_pages (p : PageMap) (w : World) : World := set_smgr (set_md_pages p (w_smgr w)) w.

(** Only the files of relations change. *)
Definition md_only (w w' : World) : Prop := ∃ p, w' = set_pages p w.

#[export] Instance md_only_preorder : PreOrder md_only.
Proof.
  split; [intros w; exists (pages w); unfold set_pages, pages; by destruct w as [? ? ? ? ? ? ? ? ? ? ? ? ? [] ? ?]|].
  intros w1 w2 w3 [p ->] [q ->]. by exists q.
Qed.

(** md.c: blocks that exist are read and overwritten in place, a block beyond
    the end is added, and nothing else changes, also when a call fails. *)
Class MdSpec (MD : Md) := {
  mdreadv_ok r f b n w ps :
    pages_at (pages w) r f b n = Some ps → Forall page_ok ps → mdreadv r f b n w = Ok ps w;
  mdreadv_pages r f b n w ps w' : mdreadv r f b n w = Ok ps w' → Forall page_ok ps;
  mdwritev_ok r f b ps s w :
    is_Some (pages_at (pages w) r f b (length ps)) →
    mdwritev r f b ps s w = Ok tt (set_pages (write_pages (pages w) r f b ps) w);
  mdextend_ok r f b p s w :
    pages w !! (r, f, b) = None →
    mdextend r f b p s w = Ok tt (set_pages (<[(r, f, b) := p]> (pages w)) w);
  mdread_vector r f b w :
    mdreadv r f b 1 w = match mdread r f b w with Ok p w' => Ok [p] w' | Err e w' => Err e w' end;
  mdwrite_vector r f b p s w : mdwritev r f b [p] s w = mdwrite r f b p s w;
  mdopen_frame r : always md_only (mdopen r);
  mdclose_frame r f : always md_only (mdclose r f);
  mdcreate_frame o r f b : always md_only (mdcreate o r f b);
  mdunlink_frame r f b : always md_only (mdunlink r f b);
  mdextend_frame r f b p s : always md_only (mdextend r f b p s);
  mdwritev_frame r f b ps s : always md_only (mdwritev r f b ps s);
  mdreadv_frame r f b n : always md_only (mdreadv r f b n);
  mdstartreadv_frame h r f b n : always md_only (mdstartreadv h r f b n);
}.

(** The state without the cipher contexts. *)
Definition without_ctxs (w : World) :=
  (w_fs w, w_rand w, w_enc_lock w, w_pi_lock w, w_xlog w, w_pk_cache w, w_wal w, w_xsmgr w, w_session w, w_smgr w,
   w_ddl w, w_tempfile w, w_net w).

Definition ctx_only (w w' : World) : Prop := without_ctxs w' = without_ctxs w.

#[export] Instance ctx_only_preorder : PreOrder ctx_only.
Proof. split; [done|]. unfold ctx_only. intros ??? H1 H2. congruence. Qed.

Lemma ctx_only_facts w w' :
  ctx_only w w' → w_smgr w' = w_smgr w ∧ w_session w' = w_session w ∧ w_ddl w' = w_ddl w ∧ w_xlog w' = w_xlog w.
Proof. intros H. injection H. auto. Qed.

End laws.

(** ** Blocks *)

Section blocks.
Context {SSL : OpenSSL} {Spec : OpenSSLSpec SSL}.

Lemma put_cc_only n cc w : ctx_only w (put_cc n cc w).
Proof. by destruct n. Qed.

Lemma encrypt_block_ok k f bn p w :
  InternalKey_wf k → page_ok p → ctxs_ok w →
  ∃ ct w', tde_encrypt_smgr_block k f bn p w = Ok ct w' ∧ page_fn k true f bn p = Some ct ∧ page_ok ct ∧
    ctxs_ok w' ∧ ctx_only w w'.
Proof.
  intros Hk Hp Hw. destruct (smgr_block_run_ctx k true f bn p w Hk Hp Hw) as (w' & ct & E & Hf & Hl & Hw' & n & cc & ->).
  exists ct, (put_cc n cc w). split_and!; try done; [unfold page_ok in *; by rewrite Hl|apply put_cc_only].
Qed.

Lemma decrypt_block_ok k f bn p ct w :
  InternalKey_wf k → page_ok p → ctxs_ok w → page_fn k true f bn p = Some ct → page_ok ct →
  ∃ w', tde_decrypt_smgr_block k f bn ct ct w = Ok (if all_zero32 ct then ct else p) w' ∧ ctxs_ok w' ∧ ctx_only w w'.
Proof.
  intros Hk Hp Hw Hf Hct. unfold tde_decrypt_smgr_block. destruct (all_zero32 ct); [by exists w|].
  destruct (smgr_block_run_ctx k false f bn ct w Hk Hct Hw) as (w' & q & E & Hq & _ & Hw' & n & cc & ->).
  rewrite (page_fn_inv k f f bn p ct Hk Hp eq_refl Hf) in Hq. injection Hq as <-.
  exists (put_cc n cc w). split_and!; [exact E|done|apply put_cc_only].
Qed.

(** The pages of consecutive blocks, encrypted. *)
Fixpoint encrypt_pages (k : InternalKey) (f bn : Z) (ps : list bytes) : option (list bytes) :=
  match ps with
  | [] => Some []
  | p :: ps => c ← page_fn k true f bn p; cs ← encrypt_pages k f (u32 (bn + 1)) ps; Some (c :: cs)
  end.

(** What is read back: a ciphertext that begins with zeros is taken for a zero
    page. *)
Definition readback (ps cs : list bytes) : list bytes := zip_with (λ p c, if all_zero32 c then c else p) ps cs.

Lemma encrypt_blocks_ok k f bn ps w :
  InternalKey_wf k → Forall page_ok ps → ctxs_ok w →
  ∃ cs w', encrypt_blocks k f bn ps w = Ok cs w' ∧ encrypt_pages k f bn ps = Some cs ∧ Forall page_ok cs ∧
    length cs = length ps ∧ ctxs_ok w' ∧ ctx_only w w'.
Proof.
  intros Hk Hps. revert bn w. induction Hps as [|p ps Hp _ IH]; intros bn w Hw; cbn [encrypt_blocks encrypt_pages].
  { by exists [], w. }
  destruct (encrypt_block_ok k f bn p w Hk Hp Hw) as (c & w1 & E1 & Hf & Hc & Hw1 & O1).
  rewrite (bind_ok _ _ _ _ _ E1).
  destruct (IH (u32 (bn + 1)) w1 Hw1) as (cs & w2 & E2 & Hcs & Hok & Hl & Hw2 & O2).
  rewrite (bind_ok _ _ _ _ _ E2). exists (c :: cs), w2. rewrite Hf. simpl. rewrite Hcs. simpl.
  split_and!; try done; [by constructor|by rewrite Hl|by etrans].
Qed.

Lemma encrypt_pages_length k f bn ps cs : encrypt_pages k f bn ps = Some cs → length cs = length ps.
Proof.
  revert bn cs. induction ps as [|p ps IH]; intros bn cs; simpl; [by intros [= <-]|].
  destruct (page_fn k true f bn p); simpl; [|done]. destruct (encrypt_pages _ _ _ ps) eqn:E; simpl; [|done].
  intros [= <-]. simpl. by rewrite (IH _ _ E).
Qed.

Lemma decrypt_blocks_ok k f bn ps cs w :
  InternalKey_wf k → Forall page_ok ps → Forall page_ok cs → encrypt_pages k f bn ps = Some cs → ctxs_ok w →
  ∃ w', decrypt_blocks k f bn cs w = Ok (readback ps cs) w' ∧ ctxs_ok w' ∧ ctx_only w w'.
Proof.
  intros Hk Hps. revert bn cs w. induction Hps as [|p ps Hp _ IH]; intros bn cs w Hcs He Hw; simpl in He.
  { injection He as <-. by exists w. }
  destruct (page_fn k true f bn p) as [c|] eqn:Ec; simpl in He; [|done].
  destruct (encrypt_pages k f (u32 (bn + 1)) ps) as [cs'|] eqn:Ecs; simpl in He; [|done].
  injection He as <-. inversion_clear Hcs as [|? ? Hc Hcs']. cbn [decrypt_blocks].
  destruct (decrypt_block_ok k f bn p c w Hk Hp Hw Ec Hc) as (w1 & E1 & Hw1 & O1).
  rewrite (bind_ok _ _ _ _ _ E1).
  destruct (IH _ _ w1 Hcs' Ecs Hw1) as (w2 & E2 & Hw2 & O2). rewrite (bind_ok _ _ _ _ _ E2).
  exists w2. split_and!; [done|done|by etrans].
Qed.

(** Decryption of any pages is a function of the key and the pages. *)
Fixpoint decrypt_pages (k : InternalKey) (f bn : Z) (cs : list bytes) : option (list bytes) :=
  match cs with
  | [] => Some []
  | c :: cs =>
      p ← (if all_zero32 c then Some c else page_fn k false f bn c);
      ps ← decrypt_pages k f (u32 (bn + 1)) cs; Some (p :: ps)
  end.

Lemma decrypt_blocks_total k f bn cs w :
  InternalKey_wf k → Forall page_ok cs → ctxs_ok w →
  ∃ ps w', decrypt_blocks k f bn cs w = Ok ps w' ∧ decrypt_pages k f bn cs = Some ps ∧ ctxs_ok w' ∧ ctx_only w w'.
Proof.
  intros Hk Hcs. revert bn w. induction Hcs as [|c cs Hc _ IH]; intros bn w Hw; cbn [decrypt_blocks decrypt_pages].
  { by exists [], w. }
  assert (∃ p w1, tde_decrypt_smgr_block k f bn c c w = Ok p w1 ∧
    (if all_zero32 c then Some c else page_fn k false f bn c) = Some p ∧ ctxs_ok w1 ∧ ctx_only w w1)
    as (p & w1 & E1 & Hp & Hw1 & O1).
  { unfold tde_decrypt_smgr_block. destruct (all_zero32 c); [by exists c, w|].
    destruct (smgr_block_run_ctx k false f bn c w Hk Hc Hw) as (w1 & p & E & Hq & _ & Hw1 & n & cc & ->).
    exists p, (put_cc n cc w). split_and!; [exact E|done|done|apply put_cc_only]. }
  rewrite (bind_ok _ _ _ _ _ E1). destruct (IH (u32 (bn + 1)) w1 Hw1) as (ps & w2 & E2 & Hps & Hw2 & O2).
  rewrite (bind_ok _ _ _ _ _ E2). exists (p :: ps), w2. rewrite Hp. simpl. rewrite Hps. simpl.
  split_and!; try done. by etrans.
Qed.

(** The completion callback decrypts like the synchronous read. *)
Lemma complete_blocks_all k f bn off n cs w :
  off + Z.of_nat (length cs) <= n → complete_blocks k f bn off n cs w = decrypt_blocks k f bn cs w.
Proof.
  revert bn off w. induction cs as [|c cs IH]; intros bn off w Hn; [done|]. cbn [complete_blocks decrypt_blocks].
  simpl in Hn. rewrite (proj2 (Z.leb_gt _ _)) by lia. unfold mbind, M_bind.
  destruct (tde_decrypt_smgr_block k f bn c c w) as [p w1|e w1]; [|done]. rewrite IH by lia. done.
Qed.

End blocks.

(** ** The invariant *)

Section ops.
Context {SSL : OpenSSL} {Spec : OpenSSLSpec SSL} {K : Kernel} {NF : NoFaults K} {RW : RandWorks SSL}.
Context {PKS : PrincipalKeys} {PKSpec : PrincipalKeysSpec PKS} {MD : Md} {MS : MdSpec MD}.
(** The database of the process and its number, which its temporary relations
    carry. *)
Context (db me : Z).

Definition rels (w : World) := smgr_relations (w_smgr w).

Definition in_db (r : RelFileLocatorBackend) : Prop :=
  dbOid (rlb_locator r) = db ∧ relNumber (rlb_locator r) ≠ 0 ∧ RelFileLocator_wf (rlb_locator r) ∧
  (rlb_backend r = INVALID_PROC_NUMBER ∨ rlb_backend r = me).

Definition temp_key (w : World) (l : RelFileLocator) : option InternalKey := t ← TempRelKeys (w_smgr w); t !! l.

(** The key of a relation, where [m] are the keys in the database's file. *)
Definition key_of (w : World) (m : gmap Loc LKey) (r : RelFileLocatorBackend) : option LKey :=
  if RelFileLocatorBackendIsTemp r then lkey <$> temp_key w (rlb_locator r) else m !! rel_loc (rlb_locator r).

Lemma key_of_temp w w' m r :
  TempRelKeys (w_smgr w') = TempRelKeys (w_smgr w) → key_of w' m r = key_of w m r.
Proof. intros E. unfold key_of, temp_key. by rewrite E. Qed.

(** What the process remembers about a relation is right. *)
Definition rel_ok (w : World) (m : gmap Loc LKey) (r : RelFileLocatorBackend) (t : TDESMgrRelation) : Prop :=
  match encryption_status t with
  | RELATION_ENCRYPTION_UNKNOWN => True
  | RELATION_NOT_ENCRYPTED => key_of w m r = None
  | RELATION_ENCRYPTED => InternalKey_wf (relKey t) ∧ key_of w m r = Some (lkey (relKey t))
  end.

Record smgr_inv (pk : TDEPrincipalKey) (m : gmap Loc LKey) (w : World) : Prop := {
  inv_rep : db_rep w db pk m;
  inv_lock : w_enc_lock w = None;
  inv_temp : ∀ l k, temp_key w l = Some k → InternalKey_wf k;
  inv_ctxs : ctxs_ok w;
  inv_rels : ∀ r t, rels w !! r = Some t → in_db r → rel_ok w m r t;
}.

Lemma inv_frame pk m w w' :
  smgr_inv pk m w → w_fs w' = w_fs w → w_enc_lock w' = w_enc_lock w → w_pk_cache w' = w_pk_cache w →
  TempRelKeys (w_smgr w') = TempRelKeys (w_smgr w) → rels w' = rels w → ctxs_ok w' → smgr_inv pk m w'.
Proof.
  intros [H1 H2 H3 H4 H5] E1 E2 E3 E4 E5 Hc. split; try done.
  - unfold db_rep. by rewrite E1, E3.
  - by rewrite E2.
  - unfold temp_key. by rewrite E4.
  - intros r t. rewrite E5. intros Ht Hr. specialize (H5 r t Ht Hr). unfold rel_ok, key_of, temp_key in *.
    by rewrite E4.
Qed.

Lemma inv_ctx_only pk m w w' : smgr_inv pk m w → ctx_only w w' → ctxs_ok w' → smgr_inv pk m w'.
Proof.
  intros H O Hc. injection O as ????????????. apply (inv_frame pk m w); try done; unfold rels; congruence.
Qed.

Lemma inv_md_only pk m w w' : smgr_inv pk m w → md_only w w' → smgr_inv pk m w'.
Proof. intros H [p ->]. apply (inv_frame pk m w); try done. apply H. Qed.

(** A new record for one relation. *)
Lemma inv_set_reln pk m r t w :
  smgr_inv pk m w → (in_db r → rel_ok w m r t) →
  smgr_inv pk m (set_smgr (set_reln r t (w_smgr w)) w).
Proof.
  intros [H1 H2 H3 H4 H5] Ht. split; try done. intros r' t'. unfold rels. simpl.
  destruct (decide (r' = r)) as [->|Hne].
  - rewrite lookup_insert_eq. by intros [= <-] Hr; apply Ht.
  - rewrite lookup_insert_ne by done. apply H5.
Qed.

Lemma set_reln_same r t w : rels w !! r = Some t → set_smgr (set_reln r t (w_smgr w)) w = w.
Proof.
  unfold rels. intros H. destruct w as [? ? ? ? ? ? ? ? ? ? ? ? ? s ? ?]. unfold set_smgr, set_reln. simpl in *.
  rewrite insert_id by done. by destruct s.
Qed.

(** ** Keys *)

Lemma get_key_ok pk m r w :
  smgr_inv pk m w → in_db r →
  match key_of w m r with
  | Some lk => ∃ k, tde_smgr_get_key r w = Ok (Some k) w ∧ lkey k = lk ∧ InternalKey_wf k
  | None => tde_smgr_get_key r w = Ok None w
  end.
Proof.
  intros [H1 H2 H3 _ _] (Hdb & Hn & _ & _). unfold key_of, tde_smgr_get_key.
  destruct (RelFileLocatorBackendIsTemp r).
  - unfold tde_smgr_get_temp_key. pose proof (H3 (rlb_locator r)) as Hk. unfold temp_key in *. unfold gets.
    destruct (t ← TempRelKeys (w_smgr w); t !! rlb_locator r) as [k|]; simpl; [|done]. eauto.
  - rewrite <-Hdb in H1. by apply (get_smgr_key_spec _ pk m w).
Qed.

Lemma is_encrypted_ok pk m r w :
  smgr_inv pk m w → in_db r → tde_smgr_is_encrypted r w = Ok (bool_decide (is_Some (key_of w m r))) w.
Proof.
  intros [H1 H2 H3 _ _] (Hdb & Hn & _ & _). unfold key_of, tde_smgr_is_encrypted.
  destruct (RelFileLocatorBackendIsTemp r).
  - unfold tde_smgr_has_temp_key, gets, temp_key. f_equal. apply bool_decide_ext. by rewrite fmap_is_Some.
  - rewrite <-Hdb in H1. by apply (has_smgr_key_spec _ pk m w).
Qed.

Lemma tdereln_ok r t w : rels w !! r = Some t → tdereln r w = Ok t w.
Proof. intros H. unfold tdereln. mstep. unfold rels in H. by rewrite H. Qed.

(** After resolving, the status is known. *)
Lemma resolve_ok pk m r t w :
  smgr_inv pk m w → in_db r → rels w !! r = Some t →
  ∃ t', let w' := set_smgr (set_reln r t' (w_smgr w)) w in
    tde_smgr_resolve_encryption_status r w = Ok tt w' ∧ smgr_inv pk m w' ∧ rels w' !! r = Some t' ∧
    match key_of w m r with
    | Some lk => encryption_status t' = RELATION_ENCRYPTED ∧ InternalKey_wf (relKey t') ∧ lkey (relKey t') = lk
    | None => encryption_status t' = RELATION_NOT_ENCRYPTED
    end.
Proof.
  intros Hinv Hr Ht. unfold tde_smgr_resolve_encryption_status. rewrite (bind_ok _ _ _ _ _ (tdereln_ok r t w Ht)).
  case_bool_decide as Hu; cbn [negb].
  - pose proof (get_key_ok pk m r w Hinv Hr) as Hk. destruct (key_of w m r) as [lk|] eqn:Ek.
    + destruct Hk as (k & E & Hlk & Hwf). rewrite (bind_ok _ _ _ _ _ E).
      exists (mkTDESMgrRelation RELATION_ENCRYPTED k). split_and!; try done.
      * apply inv_set_reln; [done|]. intros _. split; [done|]. simpl. by rewrite Ek, Hlk.
      * unfold rels. simpl. apply lookup_insert_eq.
    + rewrite (bind_ok _ _ _ _ _ Hk). eexists. split; [done|]. split_and!; try done.
      * apply inv_set_reln; [done|]. intros _. exact Ek.
      * unfold rels. simpl. apply lookup_insert_eq.
  - exists t. rewrite (set_reln_same r t w Ht). split_and!; try done.
    pose proof (inv_rels _ _ _ Hinv r t Ht Hr) as Hok. unfold rel_ok in Hok.
    destruct (encryption_status t); [by rewrite Hok| |done]. destruct Hok as [? ->]. done.
Qed.

(** The cipher of new relation keys is always an XTS suite, of the strength
    the settings ask for. *)
Lemma data_cipher_xts w :
  settings_ok (w_session w) →
  ∃ c, tde_smgr_data_cipher w = Ok c w ∧ (c = CIPHER_AES_128_XTS ∨ c = CIPHER_AES_256_XTS) ∧
    (DataCipher (w_session w) = DATA_CIPHER_INHERIT → c = CIPHER_AES_128_XTS ↔ Cipher (w_session w) = CIPHER_AES_128).
Proof.
  intros (Hc%cipher_values & Hd%data_cipher_values & _). unfold tde_smgr_data_cipher. mstep.
  destruct (w_session w) as [? c d]. simpl in *. destruct Hd as [->|[->| ->]], Hc as [->| ->]; eexists;
    (split; [reflexivity|]); (split; [by (left + right)|]); done.
Qed.

Lemma generated_xts w :
  settings_ok (w_session w) →
  ∃ k, (cipher ← tde_smgr_data_cipher; open_pg_tde_generate_internal_key cipher) w =
         Ok k (set_rand (S (S (w_rand w))) w) ∧ InternalKey_wf k ∧
       (ik_cipher k = CIPHER_AES_128_XTS ∨ ik_cipher k = CIPHER_AES_256_XTS).
Proof.
  intros Hs. destruct (data_cipher_xts w Hs) as (c & E & Hc & _). rewrite (bind_ok _ _ _ _ _ E).
  assert (∃ n, cipher_len c = Some n) as [n Hn] by (destruct Hc as [->| ->]; by eexists).
  destruct (generate_internal_key_ok c n w Hn) as (k & Ek & Hk & _).
  exists k. destruct (generate_internal_key_wf c k w _ Ek) as (_ & Ec & _). by rewrite Ec.
Qed.

(** ** Changing the key of one relation *)

(** Relation [r] has the key [v] now; nothing else the storage manager looks at
    has changed. *)
Record key_update (r : RelFileLocatorBackend) (v : option LKey) (pk : TDEPrincipalKey)
  (m : gmap Loc LKey) (w : World) (m' : gmap Loc LKey) (w' : World) : Prop := {
  ku_rep : db_rep w' db pk m';
  ku_lock : w_enc_lock w' = None;
  ku_temp : ∀ l k, temp_key w' l = Some k → InternalKey_wf k;
  ku_ctxs : ctxs_ok w';
  ku_key : ∀ r', in_db r' → key_of w' m' r' = if decide (r' = r) then v else key_of w m r';
  ku_rels : rels w' = rels w;
  ku_pages : pages w' = pages w;
  ku_session : w_session w' = w_session w;
  ku_ddl : w_ddl w' = w_ddl w;
}.

Lemma inv_key_update r v t pk m w m' w' :
  smgr_inv pk m w → in_db r → key_update r v pk m w m' w' → rel_ok w' m' r t →
  smgr_inv pk m' (set_smgr (set_reln r t (w_smgr w')) w').
Proof.
  intros Hinv Hr [K1 K2 K3 K4 K5 K6 _ _ _] Ht. split; try done. intros r' t'. unfold rels. simpl.
  destruct (decide (r' = r)) as [->|Hne]; [rewrite lookup_insert_eq; by intros [= <-]|].
  rewrite lookup_insert_ne by done. intros Ht' Hr'. fold (rels w') in Ht'. rewrite K6 in Ht'.
  pose proof (inv_rels _ _ _ Hinv r' t' Ht' Hr') as Hok. specialize (K5 r' Hr'). rewrite decide_False in K5 by done.
  unfold rel_ok in *. change (key_of (set_smgr (set_reln r t (w_smgr w')) w') m' r') with (key_of w' m' r').
  by rewrite K5.
Qed.

(** The same when nothing is remembered about the relation. *)
Lemma inv_key_forgotten r v pk m w m' w' :
  smgr_inv pk m w → key_update r v pk m w m' w' →
  (∀ t, rels w !! r = Some t → encryption_status t = RELATION_ENCRYPTION_UNKNOWN) → smgr_inv pk m' w'.
Proof.
  intros Hinv [K1 K2 K3 K4 K5 K6 _ _ _] Hu. split; try done. intros r' t' Ht' Hr'. rewrite K6 in Ht'.
  unfold rel_ok. destruct (decide (r' = r)) as [->|Hne]; [by rewrite (Hu t' Ht')|].
  pose proof (inv_rels _ _ _ Hinv r' t' Ht' Hr') as Hok. specialize (K5 r' Hr'). rewrite decide_False in K5 by done.
  unfold rel_ok in Hok. by rewrite K5.
Qed.

(** Permanent relations of the database are determined by tablespace and number. *)
Lemma perm_loc r r' :
  in_db r → in_db r' → RelFileLocatorBackendIsTemp r = false → RelFileLocatorBackendIsTemp r' = false →
  rel_loc (rlb_locator r) = rel_loc (rlb_locator r') → r = r'.
Proof.
  destruct r as [[s d n] b], r' as [[s' d' n'] b']. unfold in_db, RelFileLocatorBackendIsTemp, rel_loc. simpl.
  intros (-> & _) (-> & _) Hb%negb_false_iff%Z.eqb_eq Hb'%negb_false_iff%Z.eqb_eq [= -> ->]. by subst.
Qed.

Lemma temp_backend r : in_db r → RelFileLocatorBackendIsTemp r = true → rlb_backend r = me.
Proof. intros (_ & _ & _ & [E|?]) Ht; [|done]. unfold RelFileLocatorBackendIsTemp in Ht. by rewrite E in Ht. Qed.

Lemma temp_loc r r' :
  in_db r → in_db r' → RelFileLocatorBackendIsTemp r = true → RelFileLocatorBackendIsTemp r' = true →
  rlb_locator r = rlb_locator r' → r = r'.
Proof.
  intros Hr Hr' Ht Ht' E. pose proof (temp_backend r Hr Ht). pose proof (temp_backend r' Hr' Ht').
  destruct r, r'. simpl in *. congruence.
Qed.

(** A change of the key file. *)
Lemma perm_update r v f n x pk m w (m' := match v with Some lk => <[rel_loc (rlb_locator r) := lk]> m
                                     | None => delete (rel_loc (rlb_locator r)) m end) :
  smgr_inv pk m w → in_db r → RelFileLocatorBackendIsTemp r = false →
  let w' := set_xlog x (set_fs f (set_rand n w)) in
  db_rep w' db pk m' → key_update r v pk m w m' w'.
Proof.
  intros Hinv Hr Ht w' Hrep. split; try done; try apply Hinv. intros r' Hr'. unfold key_of.
  change (temp_key w') with (temp_key w). destruct (RelFileLocatorBackendIsTemp r') eqn:Ht'.
  - rewrite decide_False; [done|]. intros ->. congruence.
  - destruct (decide (r' = r)) as [->|Hne].
    + unfold m'. destruct v; [apply lookup_insert_eq|apply lookup_delete_eq].
    + assert (rel_loc (rlb_locator r) ≠ rel_loc (rlb_locator r')) by (intros E; by apply Hne; symmetry; apply perm_loc).
      unfold m'. destruct v; [by rewrite lookup_insert_ne|by rewrite lookup_delete_ne].
Qed.

(** A change of the table of temporary keys. *)
Lemma temp_update r v t n pk m w :
  smgr_inv pk m w → in_db r → RelFileLocatorBackendIsTemp r = true →
  let w' := set_smgr (set_temp_keys (Some t) (w_smgr w)) (set_rand n w) in
  lkey <$> t !! rlb_locator r = v → (∀ k, t !! rlb_locator r = Some k → InternalKey_wf k) →
  (∀ l, l ≠ rlb_locator r → t !! l = temp_key w l) → key_update r v pk m w m w'.
Proof.
  intros Hinv Hr Ht w' Hv Hwf Ho. split; try done; try apply Hinv.
  - intros l k Hk. change (t !! l = Some k) in Hk. destruct (decide (l = rlb_locator r)) as [->|Hne]; [by apply Hwf|].
    rewrite Ho in Hk by done. by eapply (inv_temp _ _ _ Hinv).
  - intros r' Hr'. unfold key_of. destruct (RelFileLocatorBackendIsTemp r') eqn:Ht'.
    + change (temp_key w' (rlb_locator r')) with (t !! rlb_locator r'). destruct (decide (r' = r)) as [->|Hne]; [done|].
      rewrite Ho; [done|]. intros E. apply Hne. by apply temp_loc.
    + rewrite decide_False; [done|]. intros ->. congruence.
Qed.

(** Creating a key. *)
Lemma smgr_create_key_ok pk m r w :
  smgr_inv pk m w → in_db r → settings_ok (w_session w) →
  ∃ k w' m', tde_smgr_create_key r w = Ok k w' ∧ InternalKey_wf k ∧
    (ik_cipher k = CIPHER_AES_128_XTS ∨ ik_cipher k = CIPHER_AES_256_XTS) ∧
    key_update r (Some (lkey k)) pk m w m' w' ∧
    w_xlog w' = w_xlog w ++ (if RelFileLocatorBackendIsTemp r then []
                             else [XLOG_TDE_CREATE_RELATION_KEY (rlb_locator r)]).
Proof.
  intros Hinv Hr Hs. destruct (generated_xts w Hs) as (k & E & Hk & Hx). unfold tde_smgr_create_key.
  rewrite <-bind_assoc, (bind_ok _ _ _ _ _ E). set (w1 := set_rand _ w). exists k.
  destruct (RelFileLocatorBackendIsTemp r) eqn:Ht.
  - unfold tde_smgr_save_temp_key. mstep. eexists _, m. split; [done|]. split_and!; try done; [|by rewrite app_nil_r].
    apply (temp_update r _ _ _ pk m w Hinv Hr Ht).
    + by rewrite lookup_insert_eq.
    + intros k'. rewrite lookup_insert_eq. by intros [= <-].
    + intros l Hl. rewrite lookup_insert_ne by done. unfold temp_key. simpl.
      destruct (TempRelKeys (w_smgr w)); [done|apply lookup_empty].
  - pose proof Hr as (Hdb & Hn & Hwf & _). pose proof (inv_rep _ _ _ Hinv) as Hrep. rewrite <-Hdb in Hrep.
    destruct (save_smgr_key_spec (rlb_locator r) k true pk m w1) as (w2 & E2 & Hrep2 & (f & n & -> & _));
      [done|apply Hinv|done..|].
    rewrite bind_assoc, (bind_ok _ _ _ _ _ E2). unfold tde_smgr_log_create_key. mstep.
    eexists _, _. split; [done|]. split_and!; try done.
    apply (perm_update r (Some (lkey k)) f n _ pk m w Hinv Hr Ht). rewrite Hdb in Hrep2. exact Hrep2.
Qed.

(** Removing a key. *)
Lemma free_key_ok pk m r w :
  smgr_inv pk m w → in_db r → RelFileLocatorBackendIsTemp r = false →
  ∃ w' m', open_pg_tde_free_key_map_entry (rlb_locator r) w = Ok tt w' ∧
    ∀ x, key_update r None pk m w m' (set_xlog x w') ∧ w_xlog w' = w_xlog w.
Proof.
  intros Hinv Hr Ht. pose proof Hr as (Hdb & _). pose proof (inv_rep _ _ _ Hinv) as Hrep. rewrite <-Hdb in Hrep.
  destruct (free_key_map_entry_spec (rlb_locator r) pk m w Hrep (inv_lock _ _ _ Hinv)) as (w' & E & Hrep' & (f & n & -> & _)).
  eexists _, _. split; [done|]. intros x. split; [|done]. rewrite Hdb in Hrep'.
  apply (perm_update r None f n x pk m w Hinv Hr Ht). exact Hrep'.
Qed.

Lemma delete_key_ok pk m r w :
  smgr_inv pk m w → in_db r → is_Some (key_of w m r) →
  ∃ w' m', tde_smgr_delete_key r w = Ok tt w' ∧ key_update r None pk m w m' w'.
Proof.
  intros Hinv Hr Hk. unfold tde_smgr_delete_key. destruct (RelFileLocatorBackendIsTemp r) eqn:Ht.
  - unfold key_of, temp_key in Hk. rewrite Ht, fmap_is_Some in Hk. unfold tde_smgr_delete_temp_key. mstep.
    destruct (TempRelKeys (w_smgr w)) as [t|] eqn:Et; [|by destruct Hk]. eexists _, m. split; [done|].
    replace w with (set_rand (w_rand w) w) at 3 by (by destruct w).
    apply (temp_update r None _ _ pk m w Hinv Hr Ht).
    + by rewrite lookup_delete_eq.
    + intros k. by rewrite lookup_delete_eq.
    + intros l Hl. rewrite lookup_delete_ne by done. unfold temp_key. by rewrite Et.
  - destruct (free_key_ok pk m r w Hinv Hr Ht) as (w' & m' & E & H). exists w', m'. split; [done|].
    destruct (H (w_xlog w')) as [Hku _]. by replace (set_xlog (w_xlog w') w') with w' in Hku by (by destruct w').
Qed.

End ops.
