(* ===== verification/SmgrThms.v ===== *)
(** Properties of the storage manager: pages are stored encrypted and read back,
    asynchronous reads decrypt like synchronous ones and leave no key behind,
    what the process remembers about relations stays right, and new files follow
    the encryption mode of the running command. *)
From S2P Require Import Prelude Types Environ Instances Ciphers EncTde Guc KeyFile KeyMap KeyMapSpec WalKeys.
From S2P Require Import WalKeysSpec Keyring KeyringThms PrincipalKey PrincipalKeyThms EventCapture EventCaptureThms.
From S2P Require Import Smgr SmgrSpec.

(** ** Runs of pages *)

Lemma pages_at_insert pg r f b p b' n :
  (b < b' ∨ b' + Z.of_nat n <= b) → 0 <= b' → b' + Z.of_nat n <= 2 ^ 32 →
  pages_at (<[(r, f, b) := p]> pg) r f b' n = pages_at pg r f b' n.
Proof.
  revert b'. induction n as [|n IH]; intros b' Hb H0 H1; [done|]. cbn [pages_at].
  rewrite lookup_insert_ne by (intros [=]; lia). destruct (pg !! (r, f, b')); simpl; [|done].
  destruct n as [|n]; [done|]. rewrite u32_small by (unfold is_u32; lia). rewrite IH by lia. done.
Qed.

Lemma pages_at_write pg r f b ps :
  0 <= b → b + Z.of_nat (length ps) <= 2 ^ 32 → pages_at (write_pages pg r f b ps) r f b (length ps) = Some ps.
Proof.
  revert b. induction ps as [|p ps IH]; intros b H0 H1; [done|]. cbn [write_pages pages_at length].
  rewrite lookup_insert_eq. simpl. simpl in H1. destruct ps as [|q ps]; [done|].
  rewrite u32_small by (unfold is_u32; simpl in *; lia).
  rewrite pages_at_insert by (simpl in *; lia). rewrite IH by (simpl in *; lia). done.
Qed.

Section thms.
Context {SSL : OpenSSL} {Spec : OpenSSLSpec SSL} {K : Kernel} {NF : NoFaults K} {RW : RandWorks SSL}.
Context {PKS : PrincipalKeys} {PKSpec : PrincipalKeysSpec PKS} {MD : Md} {MS : MdSpec MD}.
Context (db me : Z).

#[local] Abbreviation inv := (smgr_inv db me).
#[local] Abbreviation in_db := (in_db db me).

(** What is on disk when [bufs] are written to a relation with the given key. *)
Definition stored_as (ok : option LKey) (f b : Z) (bufs disk : list bytes) : Prop :=
  match ok with
  | None => disk = bufs
  | Some lk => ∃ k, InternalKey_wf k ∧ lkey k = lk ∧ encrypt_pages k f b bufs = Some disk
  end.

(** The pages a key file with [m] makes of a write, and the state after it. *)
Lemma write_ok pk m r t f b bufs s w :
  inv pk m w → in_db r → rels w !! r = Some t → Forall page_ok bufs →
  is_Some (pages_at (pages w) r f b (length bufs)) →
  ∃ disk w' t', tde_mdwritev r f b bufs s w = Ok tt w' ∧ inv pk m w' ∧ rels w' !! r = Some t' ∧
    rel_ok w' m r t' ∧ key_of w' m r = key_of w m r ∧ encryption_status t' ≠ RELATION_ENCRYPTION_UNKNOWN ∧
    pages w' = write_pages (pages w) r f b disk ∧ length disk = length bufs ∧ Forall page_ok disk ∧
    match key_of w m r with
    | None => disk = bufs
    | Some lk => lkey (relKey t') = lk ∧ encrypt_pages (relKey t') f b bufs = Some disk
    end.
Proof.
  intros Hinv Hr Ht Hp Hex. unfold tde_mdwritev.
  destruct (resolve_ok db me pk m r t w Hinv Hr Ht) as (t' & E & Hinv' & Ht' & Hk). rewrite (bind_ok _ _ _ _ _ E).
  set (w1 := set_smgr _ w) in *. rewrite (bind_ok _ _ _ _ _ (tdereln_ok r t' w1 Ht')).
  pose proof (inv_rels _ _ _ _ _ Hinv' r t' Ht' Hr) as Hok.
  change (key_of w m r) with (key_of w1 m r) in *. change (pages w) with (pages w1) in *.
  destruct (key_of w1 m r) as [lk|] eqn:Ek.
  - destruct Hk as (Hs & Hwf & Hlk). rewrite Hs. rewrite bool_decide_false by done.
    destruct (encrypt_blocks_ok (relKey t') f b bufs w1 Hwf Hp (inv_ctxs _ _ _ _ _ Hinv'))
      as (cs & w2 & E2 & Hcs & Hpc & Hlc & Hc2 & O2).
    rewrite (bind_ok _ _ _ _ _ E2). pose proof (inv_ctx_only db me pk m w1 w2 Hinv' O2 Hc2) as Hinv2.
    pose proof (proj1 (ctx_only_facts w1 w2 O2)) as Es.
    rewrite mdwritev_ok by (unfold pages; rewrite Es, Hlc; exact Hex).
    set (w3 := set_pages _ w2).
    assert (inv pk m w3) as Hinv3 by (eapply inv_md_only; [exact Hinv2|by eexists]).
    assert (rels w3 !! r = Some t') as Ht3 by (unfold rels in *; simpl; by rewrite Es).
    exists cs, w3, t'. split_and!; try done.
    + by apply (inv_rels _ _ _ _ _ Hinv3).
    + rewrite <-Ek. apply key_of_temp. simpl. by rewrite Es.
    + by rewrite Hs.
    + change (pages w3) with (write_pages (pages w2) r f b cs). unfold pages. by rewrite Es.
  - rewrite Hk, bool_decide_true by done. rewrite mdwritev_ok by exact Hex.
    eexists bufs, _, t'. split; [done|]. split_and!; try done.
    + eapply inv_md_only; [exact Hinv'|]. by eexists.
    + by rewrite Hk.
Qed.

(** Reading pages that were stored under the relation's key. *)
Lemma read_ok pk m r t f b bufs disk w :
  inv pk m w → in_db r → rels w !! r = Some t → encryption_status t ≠ RELATION_ENCRYPTION_UNKNOWN →
  Forall page_ok bufs → Forall page_ok disk → pages_at (pages w) r f b (length bufs) = Some disk →
  match key_of w m r with
  | None => disk = bufs
  | Some lk => encrypt_pages (relKey t) f b bufs = Some disk
  end →
  ∃ w', tde_mdreadv r f b (length bufs) w =
          Ok (if key_of w m r is Some _ then readback bufs disk else bufs) w' ∧ inv pk m w'.
Proof.
  intros Hinv Hr Ht Hu Hp Hd Hat Hst. unfold tde_mdreadv. rewrite (bind_ok _ _ _ _ _ (mdreadv_ok r f b _ w disk Hat Hd)).
  unfold tde_smgr_resolve_encryption_status. rewrite bind_assoc, (bind_ok _ _ _ _ _ (tdereln_ok r t w Ht)).
  rewrite bool_decide_false by done. cbn [negb]. mstep. rewrite (bind_ok _ _ _ _ _ (tdereln_ok r t w Ht)).
  pose proof (inv_rels _ _ _ _ _ Hinv r t Ht Hr) as Hok. unfold rel_ok in Hok.
  destruct (encryption_status t); [|destruct Hok as [Hwf Hok]|done]; rewrite Hok in *.
  - rewrite bool_decide_true by done. subst disk. by exists w.
  - rewrite bool_decide_false by done.
    destruct (decrypt_blocks_ok (relKey t) f b bufs disk w Hwf Hp Hd Hst (inv_ctxs _ _ _ _ _ Hinv)) as (w' & E & Hc & O).
    exists w'. split; [exact E|]. by apply (inv_ctx_only db me pk m w).
Qed.

(** C7: pages written through the storage manager are read back as they were,
    whatever the process knew about the relation before. If the relation has a
    key, the files hold the pages encrypted with that key, fork and block
    number, else the pages themselves; a ciphertext that begins with 32 zero
    bytes is read as it is. *)
Theorem smgr_write_then_read pk m r t f b bufs s w :
  inv pk m w → in_db r → rels w !! r = Some t → Forall page_ok bufs →
  0 <= b → b + Z.of_nat (length bufs) <= 2 ^ 32 → is_Some (pages_at (pages w) r f b (length bufs)) →
  ∃ disk w1 w2, tde_mdwritev r f b bufs s w = Ok tt w1 ∧
    pages_at (pages w1) r f b (length bufs) = Some disk ∧ stored_as (key_of w m r) f b bufs disk ∧
    tde_mdreadv r f b (length bufs) w1 =
      Ok (if key_of w m r is Some _ then readback bufs disk else bufs) w2 ∧ inv pk m w2.
Proof.
  intros Hinv Hr Ht Hp H0 H1 Hex.
  destruct (write_ok pk m r t f b bufs s w Hinv Hr Ht Hp Hex)
    as (disk & w1 & t1 & E & Hinv1 & Ht1 & Hok1 & Hk1 & Hu & Hpg & Hl & Hd & Hst).
  assert (pages_at (pages w1) r f b (length bufs) = Some disk) as Hat.
  { rewrite Hpg, <-Hl. apply pages_at_write; [done|by rewrite Hl]. }
  destruct (read_ok pk m r t1 f b bufs disk w1 Hinv1 Hr Ht1 Hu Hp Hd Hat) as (w2 & E2 & Hinv2).
  { rewrite Hk1. destruct (key_of w m r); [by destruct Hst|done]. }
  rewrite Hk1 in E2. exists disk, w1, w2. split_and!; try done. unfold stored_as.
  destruct (key_of w m r) as [lk|] eqn:Ek; [|done]. destruct Hst as [Hlk He]. exists (relKey t1).
  split_and!; try done. unfold rel_ok in Hok1. rewrite Hk1 in Hok1. destruct (encryption_status t1); [done| |done]. by destruct Hok1.
Qed.

(** ** One block at a time *)

(** The functions for PostgreSQL 16, which read and write one block, do the
    same as the vectored ones on a vector of one block. *)
Theorem scalar_io_same_as_vector r f b p s w :
  tde_mdwritev r f b [p] s w = tde_mdwrite r f b p s w ∧
  tde_mdreadv r f b 1 w = match tde_mdread r f b w with Ok p w' => Ok [p] w' | Err e w' => Err e w' end.
Proof.
  unfold tde_mdwritev, tde_mdwrite, tde_mdreadv, tde_mdread. split.
  - unfold mbind, M_bind. destruct (tde_smgr_resolve_encryption_status r w) as [[] w1|]; [|done].
    destruct (tdereln r w1) as [t w2|]; [|done]. case_bool_decide; [by rewrite mdwrite_vector|].
    cbn [encrypt_blocks]. unfold mbind, M_bind, mret, M_ret.
    destruct (tde_encrypt_smgr_block (relKey t) f b p w2) as [c w3|]; [|done]. by rewrite mdwrite_vector.
  - unfold mbind, M_bind. rewrite mdread_vector. destruct (mdread r f b w) as [q w1|]; [|done].
    destruct (tde_smgr_resolve_encryption_status r w1) as [[] w2|]; [|done].
    destruct (tdereln r w2) as [t w3|]; [|done]. case_bool_decide; [done|].
    cbn [decrypt_blocks]. unfold mbind, M_bind, mret, M_ret.
    by destruct (tde_decrypt_smgr_block (relKey t) f b q q w3).
Qed.

(** ** Asynchronous reads *)

Definition io_key (w : World) (ioh : Z) : InternalKey := default InternalKey_zero (tde_io_handle_keys (w_smgr w) !! ioh).

Lemma complete_ok ioh f b cs ps w :
  InternalKey_wf (io_key w ioh) → Forall page_ok cs → ctxs_ok w → decrypt_pages (io_key w ioh) f b cs = Some ps →
  let res := mkPgAioResult PGAIO_RS_OK (Z.of_nat (length cs)) in
  ∃ w', tde_readv_complete ioh f b cs res w = Ok (res, ps) w' ∧ io_key w' ioh = InternalKey_zero.
Proof.
  intros Hk Hcs Hw Hps res. unfold tde_readv_complete. rewrite bool_decide_true by done. cbn [negb].
  mstep. fold (io_key w ioh).
  destruct (decrypt_blocks_total (io_key w ioh) f b cs w Hk Hcs Hw) as (ps' & w1 & E & Hps' & _).
  rewrite Hps in Hps'. injection Hps' as <-.
  rewrite <-(complete_blocks_all _ f b 0 (Z.of_nat (length cs))) in E by lia. rewrite (bind_ok _ _ _ _ _ E).
  eexists. split; [done|]. unfold io_key. simpl. by rewrite lookup_insert_eq.
Qed.

(** An asynchronous read gives the pages that a synchronous read gives, in
    whatever process it completes: for an encrypted relation the key is put into
    the slot of the IO handle and the decrypting callback is registered, and the
    callback decrypts the pages and wipes the slot; it wipes the slot without
    touching the pages when the read has failed. For other relations no key is
    stored and no callback is registered. *)
Theorem aio_read_equivalent pk m r t f b n disk ioh w :
  inv pk m w → in_db r → rels w !! r = Some t → pages_at (pages w) r f b n = Some disk → Forall page_ok disk →
  ∃ bufs w', tde_mdreadv r f b n w = Ok bufs w' ∧
  ∀ w1, tde_mdstartreadv ioh r f b n w = Ok tt w1 →
  match key_of w m r with
  | None => bufs = disk ∧ tde_io_callbacks (w_smgr w1) = tde_io_callbacks (w_smgr w) ∧ io_key w1 ioh = io_key w ioh
  | Some _ =>
      ioh ∈ tde_io_callbacks (w_smgr w1) ∧
      ∀ w2, io_key w2 ioh = io_key w1 ioh → ctxs_ok w2 →
        (let res := mkPgAioResult PGAIO_RS_OK (Z.of_nat (length disk)) in
         ∃ w3, tde_readv_complete ioh f b disk res w2 = Ok (res, bufs) w3 ∧ io_key w3 ioh = InternalKey_zero) ∧
        (∀ res, aio_status res ≠ PGAIO_RS_OK →
         ∃ w3, tde_readv_complete ioh f b disk res w2 = Ok (res, disk) w3 ∧ io_key w3 ioh = InternalKey_zero)
  end.
Proof.
  intros Hinv Hr Ht Hat Hd. unfold tde_mdreadv, tde_mdstartreadv.
  rewrite (bind_ok _ _ _ _ _ (mdreadv_ok r f b n w disk Hat Hd)).
  destruct (resolve_ok db me pk m r t w Hinv Hr Ht) as (t' & E & Hinv' & Ht' & Hk).
  rewrite !(bind_ok _ _ _ _ _ E). set (w0 := set_smgr _ w) in *. rewrite !(bind_ok _ _ _ _ _ (tdereln_ok r t' w0 Ht')).
  destruct (key_of w m r) as [lk|].
  - destruct Hk as (Hs & Hwf & Hlk). rewrite Hs, bool_decide_false by done. rewrite bool_decide_true by done.
    destruct (decrypt_blocks_total (relKey t') f b disk w0 Hwf Hd (inv_ctxs _ _ _ _ _ Hinv')) as (ps & w' & E2 & Hps & _).
    exists ps, w'. split; [exact E2|]. intros w1 E1. unfold pgaio_io_register_callbacks in E1.
    rewrite bind_assoc in E1. erewrite bind_ok in E1 by reflexivity. erewrite bind_ok in E1 by reflexivity.
    destruct (always_ok _ _ _ _ _ (mdstartreadv_frame _ _ _ _ _) E1) as [pg ->].
    split; [by apply list_elem_of_here|].
    assert (io_key (set_pages pg (set_smgr (set_io_callbacks (ioh :: tde_io_callbacks (w_smgr w0))
      (set_io_key ioh (relKey t') (w_smgr w0))) w0)) ioh = relKey t') as Hslot.
    { unfold io_key. simpl. by rewrite lookup_insert_eq. }
    intros w2 Hw2 Hc2. unfold io_key in Hw2 at 2. simpl in Hw2. rewrite lookup_insert_eq in Hw2. simpl in Hw2. split.
    + apply complete_ok; by rewrite ?Hw2.
    + intros res Hres. unfold tde_readv_complete. rewrite bool_decide_false by done. cbn [negb]. mstep.
      eexists. split; [done|]. unfold io_key. simpl. by rewrite lookup_insert_eq.
  - rewrite Hk, bool_decide_true by done. exists disk, w0. split; [done|]. intros w1 E1.
    rewrite bool_decide_false in E1 by done. erewrite bind_ok in E1 by reflexivity.
    by destruct (always_ok _ _ _ _ _ (mdstartreadv_frame _ _ _ _ _) E1) as [pg ->].
Qed.

(** ** New files *)

(** What the code decides for a new file. *)
Definition wants_encryption (w : World) (m : gmap Loc LKey) (relold : RelFileLocator) (r : RelFileLocatorBackend)
  (b : bool) : Prop :=
  ∃ mode, currentTdeEncryptModeValidated w = Ok mode w ∧
    b = negb (IsCatalogRelationOid (relNumber (rlb_locator r))) &&
        match mode with
        | TDE_ENCRYPT_MODE_PLAIN => false
        | TDE_ENCRYPT_MODE_ENCRYPT => true
        | TDE_ENCRYPT_MODE_RETAIN =>
            bool_decide (is_Some (key_of w m (mkRelFileLocatorBackend relold (rlb_backend r))))
        end.

Lemma should_encrypt_ok pk m relold r b w :
  inv pk m w → in_db r → in_db (mkRelFileLocatorBackend relold (rlb_backend r)) →
  wants_encryption w m relold r b → tde_smgr_should_encrypt r (Some relold) w = Ok b w.
Proof.
  intros Hinv Hr Ho (mode & Em & ->). unfold tde_smgr_should_encrypt.
  destruct (IsCatalogRelationOid _); [done|]. rewrite (bind_ok _ _ _ _ _ Em).
  destruct mode; [|done|done]. by rewrite (is_encrypted_ok db me pk m).
Qed.

(** The main fork of a relation, created outside of recovery. *)
Lemma mdcreate_ok pk m relold r t b w w0 :
  inv pk m w → in_db r → in_db (mkRelFileLocatorBackend relold (rlb_backend r)) → rels w !! r = Some t →
  settings_ok (w_session w) → IsBinaryUpgrade (w_session w) = false → wants_encryption w m relold r b →
  (RelFileLocatorBackendIsTemp r = true → key_of w m r = None) →
  mdcreate relold r MAIN_FORKNUM false w = Ok tt w0 →
  ∃ w' m' t', tde_mdcreate relold r MAIN_FORKNUM false w = Ok tt w' ∧ inv pk m' w' ∧ rels w' !! r = Some t' ∧
    (∀ r', in_db r' → r' ≠ r → key_of w' m' r' = key_of w m r') ∧
    w_session w' = w_session w ∧ w_ddl w' = w_ddl w ∧ pages w' = pages w0 ∧
    w_xlog w' = w_xlog w ++ (if RelFileLocatorBackendIsTemp r then []
      else [if b then XLOG_TDE_CREATE_RELATION_KEY (rlb_locator r) else XLOG_TDE_DELETE_RELATION_KEY (rlb_locator r)]) ∧
    if b then encryption_status t' = RELATION_ENCRYPTED ∧ InternalKey_wf (relKey t') ∧
              key_of w' m' r = Some (lkey (relKey t')) ∧
              (ik_cipher (relKey t') = CIPHER_AES_128_XTS ∨ ik_cipher (relKey t') = CIPHER_AES_256_XTS)
    else encryption_status t' = RELATION_NOT_ENCRYPTED ∧ key_of w' m' r = None.
Proof.
  intros Hinv Hr Ho Ht Hs Hbu Hb Htemp E. unfold tde_mdcreate. rewrite (bind_ok _ _ _ _ _ E). mstep.
  destruct (always_ok _ _ _ _ _ (mdcreate_frame _ _ _ _) E) as [pg ->]. set (w0 := set_pages pg w) in *.
  assert (inv pk m w0) as Hinv0 by (eapply inv_md_only; [exact Hinv|by eexists]).
  change (IsBinaryUpgrade (w_session w0)) with (IsBinaryUpgrade (w_session w)). rewrite Hbu. cbn [negb Z.eqb MAIN_FORKNUM].
  assert (wants_encryption w0 m relold r b) as Hb0.
  { destruct Hb as (mode & Em & ->). exists mode. split; [|done]. revert Em.
    unfold currentTdeEncryptModeValidated, GetCurrentFullTransactionIdIfAny, currentTdeEncryptMode, mbind, M_bind, gets, mret, M_ret.
    simpl. destruct (negb _); by intros [= <-]. }
  rewrite (bind_ok _ _ _ _ _ (should_encrypt_ok pk m relold r b w0 Hinv0 Hr Ho Hb0)). destruct b; cbn [negb].
  - destruct (smgr_create_key_ok db me pk m r w0 Hinv0 Hr Hs) as (k & w1 & m' & E1 & Hk & Hx & Hku & Hlog).
    rewrite (bind_ok _ _ _ _ _ E1). pose proof (ku_rels _ _ _ _ _ _ _ _ _ Hku) as Hrel.
    assert (rels w1 !! r = Some t) as Ht1 by (rewrite Hrel; exact Ht).
    rewrite (bind_ok _ _ _ _ _ (tdereln_ok r t w1 Ht1)).
    set (t' := mkTDESMgrRelation RELATION_ENCRYPTED k).
    assert (key_of w1 m' r = Some (lkey k)) as Hkey.
    { rewrite (ku_key _ _ _ _ _ _ _ _ _ Hku r Hr). by rewrite decide_True. }
    eexists _, m', t'. split; [done|]. split_and!; try done.
    + by apply (inv_key_update db me r _ t' pk m w0 m' w1 Hinv0 Hr Hku).
    + unfold rels. simpl. apply lookup_insert_eq.
    + intros r' Hr' Hne. rewrite (key_of_temp w1) by done. rewrite (ku_key _ _ _ _ _ _ _ _ _ Hku r' Hr').
      by rewrite decide_False.
    + exact (ku_session _ _ _ _ _ _ _ _ _ Hku).
    + exact (ku_ddl _ _ _ _ _ _ _ _ _ Hku).
    + exact (ku_pages _ _ _ _ _ _ _ _ _ Hku).
  - unfold tde_smgr_delete_leftover_key. destruct (RelFileLocatorBackendIsTemp r) eqn:Htmp; cbn [negb].
    + mstep. rewrite (bind_ok _ _ _ _ _ (tdereln_ok r t w0 Ht)). eexists _, m, _. split; [done|].
      assert (key_of w0 m r = None) as Hnone by (by apply Htemp).
      split_and!; try done.
      * apply inv_set_reln; [done|]. by intros _.
      * unfold rels. simpl. apply lookup_insert_eq.
      * by rewrite app_nil_r.
      * done.
    + destruct (free_key_ok db me pk m r w0 Hinv0 Hr Htmp) as (w1 & m' & E1 & H).
      rewrite bind_assoc, (bind_ok _ _ _ _ _ E1). unfold tde_smgr_log_delete_leftover_key. mstep.
      destruct (H (w_xlog w1 ++ [XLOG_TDE_DELETE_RELATION_KEY (rlb_locator r)])) as [Hku Hlog].
      set (w2 := set_xlog _ w1) in *. pose proof (ku_rels _ _ _ _ _ _ _ _ _ Hku) as Hrel.
      assert (rels w2 !! r = Some t) as Ht1 by (rewrite Hrel; exact Ht).
      rewrite (bind_ok _ _ _ _ _ (tdereln_ok r t w2 Ht1)).
      set (t' := mkTDESMgrRelation RELATION_NOT_ENCRYPTED (relKey t)).
      assert (key_of w2 m' r = None) as Hkey.
      { rewrite (ku_key _ _ _ _ _ _ _ _ _ Hku r Hr). by rewrite decide_True. }
      eexists _, m', t'. split; [done|]. split_and!; try done.
      * by apply (inv_key_update db me r _ t' pk m w0 m' w2 Hinv0 Hr Hku).
      * unfold rels. simpl. apply lookup_insert_eq.
      * intros r' Hr' Hne. rewrite (key_of_temp w2) by done. rewrite (ku_key _ _ _ _ _ _ _ _ _ Hku r' Hr').
        by rewrite decide_False.
      * exact (ku_session _ _ _ _ _ _ _ _ _ Hku).
      * exact (ku_ddl _ _ _ _ _ _ _ _ _ Hku).
      * exact (ku_pages _ _ _ _ _ _ _ _ _ Hku).
      * simpl. by rewrite Hlog.
Qed.

(** The key made for a new relation, permanent or temporary, is well formed
    and of an XTS suite, whatever the settings are; it becomes the key of that
    relation, and no other relation's key changes. *)
Theorem new_relation_key_xts pk m r w :
  inv pk m w → in_db r → settings_ok (w_session w) →
  ∃ k w' m', tde_smgr_create_key r w = Ok k w' ∧ InternalKey_wf k ∧
    (ik_cipher k = CIPHER_AES_128_XTS ∨ ik_cipher k = CIPHER_AES_256_XTS) ∧ db_rep w' db pk m' ∧
    (∀ r', in_db r' → key_of w' m' r' = if decide (r' = r) then Some (lkey k) else key_of w m r').
Proof.
  intros Hinv Hr Hs. destruct (smgr_create_key_ok db me pk m r w Hinv Hr Hs) as (k & w' & m' & E & Hk & Hx & Hku & _).
  exists k, w', m'. split_and!; try done; [exact (ku_rep _ _ _ _ _ _ _ _ _ Hku)|exact (ku_key _ _ _ _ _ _ _ _ _ Hku)].
Qed.

(** ** Steps *)

(** [m] run in [w] ends in [w'], with a result or an error. *)
Definition ends_in {A} (m : M A) (w w' : World) : Prop := (∃ a, m w = Ok a w') ∨ (∃ e, m w = Err e w').

Definition ends_with (P : World → Prop) {A} (m : M A) (w : World) : Prop :=
  match m w with Ok _ w' => P w' | Err _ w' => P w' end.

Lemma ends_in_with {A} P (m : M A) w w' : ends_with P m w → ends_in m w w' → P w'.
Proof. unfold ends_with. by intros H [[a E]|[e E]]; rewrite E in H. Qed.

Lemma ends_with_bind {A B} (P : World → Prop) (m : M A) (f : A → M B) w a w1 :
  m w = Ok a w1 → ends_with P (f a) w1 → ends_with P (m ≫= f) w.
Proof. intros E H. unfold ends_with. by rewrite (bind_ok _ _ _ _ _ E). Qed.

Lemma ends_with_first {A B} (P : World → Prop) (m : M A) (f : A → M B) w :
  ends_with P m w → (∀ a w1, m w = Ok a w1 → P w1 → ends_with P (f a) w1) → ends_with P (m ≫= f) w.
Proof.
  unfold ends_with at 1. intros H Hf. destruct (m w) as [a w1|e w1] eqn:E.
  - eapply ends_with_bind; [exact E|by apply Hf].
  - unfold ends_with. by rewrite (bind_err _ _ _ _ _ E).
Qed.

Lemma ends_md {A} pk m (op : M A) w : always md_only op → inv pk m w → ends_with (inv pk m) op w.
Proof. intros Ho Hinv. specialize (Ho w). unfold ends_with. destruct (op w); by eapply inv_md_only. Qed.

(** Operations that begin by resolving the status. *)
Lemma ends_resolved {A} pk m r (body : TDESMgrRelation → M A) w :
  inv pk m w → in_db r →
  (∀ t w, inv pk m w → rels w !! r = Some t → rel_ok w m r t → encryption_status t ≠ RELATION_ENCRYPTION_UNKNOWN →
          ends_with (inv pk m) (body t) w) →
  ends_with (inv pk m) (tde_smgr_resolve_encryption_status r;; t ← tdereln r; body t) w.
Proof.
  intros Hinv Hr Hb. destruct (rels w !! r) as [t|] eqn:Ht.
  - destruct (resolve_ok db me pk m r t w Hinv Hr Ht) as (t' & E & Hinv' & Ht' & Hk).
    eapply ends_with_bind; [exact E|]. eapply ends_with_bind; [by apply tdereln_ok|]. apply Hb; try done.
    + by apply (inv_rels _ _ _ _ _ Hinv').
    + destruct (key_of w m r); [by destruct Hk as [-> _]|by rewrite Hk].
  - unfold ends_with, tde_smgr_resolve_encryption_status, tdereln, mbind, M_bind, gets. unfold rels in Ht.
    by rewrite Ht.
Qed.

Lemma rel_ok_wf w m r t :
  rel_ok w m r t → encryption_status t ≠ RELATION_ENCRYPTION_UNKNOWN →
  encryption_status t ≠ RELATION_NOT_ENCRYPTED → InternalKey_wf (relKey t).
Proof. unfold rel_ok. destruct (encryption_status t); [done|by intros []|done]. Qed.

Lemma write_inv pk m r f b bufs s w :
  inv pk m w → in_db r → Forall page_ok bufs → ends_with (inv pk m) (tde_mdwritev r f b bufs s) w.
Proof.
  intros Hinv Hr Hp. apply ends_resolved; [done..|]. intros t w1 Hi Ht Hok Hu. case_bool_decide as Hs.
  - apply ends_md; [apply mdwritev_frame|done].
  - destruct (encrypt_blocks_ok (relKey t) f b bufs w1 (rel_ok_wf _ _ _ _ Hok Hu Hs) Hp (inv_ctxs _ _ _ _ _ Hi))
      as (cs & w2 & E & _ & _ & _ & Hc & O).
    eapply ends_with_bind; [exact E|]. apply ends_md; [apply mdwritev_frame|]. by apply (inv_ctx_only _ _ _ _ w1).
Qed.

Lemma extend_inv pk m r f b p s w :
  inv pk m w → in_db r → page_ok p → ends_with (inv pk m) (tde_mdextend r f b p s) w.
Proof.
  intros Hinv Hr Hp. apply ends_resolved; [done..|]. intros t w1 Hi Ht Hok Hu. case_bool_decide as Hs.
  - apply ends_md; [apply mdextend_frame|done].
  - destruct (encrypt_block_ok (relKey t) f b p w1 (rel_ok_wf _ _ _ _ Hok Hu Hs) Hp (inv_ctxs _ _ _ _ _ Hi))
      as (c & w2 & E & _ & _ & Hc & O).
    eapply ends_with_bind; [exact E|]. apply ends_md; [apply mdextend_frame|]. by apply (inv_ctx_only _ _ _ _ w1).
Qed.

Lemma read_inv pk m r f b n w :
  inv pk m w → in_db r → ends_with (inv pk m) (tde_mdreadv r f b n) w.
Proof.
  intros Hinv Hr. apply ends_with_first; [apply ends_md; [apply mdreadv_frame|done]|]. intros cs w1 E Hi.
  apply mdreadv_pages in E. apply ends_resolved; [done..|]. intros t w2 Hi2 Ht Hok Hu. case_bool_decide as Hs; [done|].
  destruct (decrypt_blocks_total (relKey t) f b cs w2 (rel_ok_wf _ _ _ _ Hok Hu Hs) E (inv_ctxs _ _ _ _ _ Hi2))
    as (ps & w3 & E3 & _ & Hc & O).
  unfold ends_with. rewrite E3. by apply (inv_ctx_only _ _ _ _ w2).
Qed.

Lemma startread_inv pk m ioh r f b n w :
  inv pk m w → in_db r → ends_with (inv pk m) (tde_mdstartreadv ioh r f b n) w.
Proof.
  intros Hinv Hr. apply ends_resolved; [done..|]. intros t w1 Hi Ht Hok Hu. case_bool_decide as Hs.
  - unfold pgaio_io_register_callbacks. eapply ends_with_bind; [reflexivity|].
    apply ends_md; [apply mdstartreadv_frame|]. apply (inv_frame _ _ _ _ w1); try done. apply Hi.
  - eapply ends_with_bind; [reflexivity|]. by apply ends_md; [apply mdstartreadv_frame|].
Qed.

Lemma open_inv pk m r w : inv pk m w → ends_with (inv pk m) (tde_mdopen r) w.
Proof.
  intros Hinv. apply ends_with_first; [apply ends_md; [apply mdopen_frame|done]|]. intros [] w1 _ Hi.
  eapply ends_with_bind; [reflexivity|]. destruct (smgr_relations (w_smgr w1) !! r).
  - eapply ends_with_bind; [reflexivity|]. unfold ends_with. simpl. by apply inv_set_reln.
  - destruct (uninit_ok 88 w1) as (bs & E & _). eapply ends_with_bind; [by rewrite (bind_ok _ _ _ _ _ E)|].
    unfold ends_with. simpl. by apply inv_set_reln.
Qed.

Lemma close_inv pk m r f w : inv pk m w → ends_with (inv pk m) (tde_mdclose r f) w.
Proof.
  intros Hinv. apply ends_with_first; [apply ends_md; [apply mdclose_frame|done]|]. intros [] w1 _ Hi.
  destruct (f =? MAIN_FORKNUM); [|done]. destruct (rels w1 !! r) as [t|] eqn:Ht.
  - eapply ends_with_bind; [by apply tdereln_ok|]. unfold ends_with. simpl. by apply inv_set_reln.
  - unfold ends_with, tdereln, mbind, M_bind, gets. unfold rels in Ht. by rewrite Ht.
Qed.

Lemma mode_total w : ∃ md, currentTdeEncryptModeValidated w = Ok md w.
Proof.
  unfold currentTdeEncryptModeValidated, GetCurrentFullTransactionIdIfAny, currentTdeEncryptMode, mbind, M_bind, gets.
  destruct (negb _); by eexists.
Qed.

Definition some_inv (w : World) : Prop := ∃ pk m, inv pk m w.

Lemma ends_some {A} pk m (op : M A) w : ends_with (inv pk m) op w → ends_with some_inv op w.
Proof. unfold ends_with, some_inv. destruct (op w); eauto. Qed.

(** A temporary relation that is created has no key yet. *)
Definition temp_fresh (r : RelFileLocatorBackend) (w : World) : Prop :=
  RelFileLocatorBackendIsTemp r = true → temp_key w (rlb_locator r) = None.

Lemma create_inv pk m relold r t f isRedo w :
  inv pk m w → in_db r → in_db (mkRelFileLocatorBackend relold (rlb_backend r)) → rels w !! r = Some t →
  settings_ok (w_session w) → temp_fresh r w → ends_with some_inv (tde_mdcreate relold r f isRedo) w.
Proof.
  intros Hinv Hr Ho Ht Hs Hf.
  assert (∀ w', md_only w w' → some_inv w') as Hmd by (intros w' H; exists pk, m; by eapply inv_md_only).
  destruct (mdcreate relold r f isRedo w) as [[] w0|e w0] eqn:E.
  2:{ unfold ends_with, tde_mdcreate. rewrite (bind_err _ _ _ _ _ E). apply Hmd.
      exact (always_err _ _ _ _ _ (mdcreate_frame _ _ _ _) E). }
  pose proof (always_ok _ _ _ _ _ (mdcreate_frame _ _ _ _) E) as O.
  assert (tde_mdcreate relold r f isRedo w = Ok tt w0 ∨
          (isRedo = false ∧ IsBinaryUpgrade (w_session w) = false ∧ f = MAIN_FORKNUM)) as [Ec|(-> & Hb & ->)].
  { unfold tde_mdcreate. rewrite (bind_ok _ _ _ _ _ E). mstep. destruct O as [pg ->].
    change (IsBinaryUpgrade (w_session (set_pages pg w))) with (IsBinaryUpgrade (w_session w)).
    destruct isRedo; [by left|]. destruct (IsBinaryUpgrade (w_session w)); [by left|].
    destruct (Z.eqb_spec f MAIN_FORKNUM); [by right|by left]. }
  - unfold ends_with. rewrite Ec. by apply Hmd.
  - destruct (mode_total w) as [md Emd].
    destruct (mdcreate_ok pk m relold r t (negb (IsCatalogRelationOid (relNumber (rlb_locator r))) &&
      match md with TDE_ENCRYPT_MODE_PLAIN => false | TDE_ENCRYPT_MODE_ENCRYPT => true
      | TDE_ENCRYPT_MODE_RETAIN => bool_decide (is_Some (key_of w m (mkRelFileLocatorBackend relold (rlb_backend r)))) end)
      w w0) as (w' & m' & t' & Ec & Hi & _); try done.
    + by exists md.
    + intros Htmp. unfold key_of. rewrite Htmp, (Hf Htmp). done.
    + unfold ends_with. rewrite Ec. by exists pk, m'.
Qed.

Lemma unlink_inv pk m r f isRedo w :
  inv pk m w → in_db r → (∀ t, rels w !! r = Some t → encryption_status t = RELATION_ENCRYPTION_UNKNOWN) →
  ends_with some_inv (tde_mdunlink r f isRedo) w.
Proof.
  intros Hinv Hr Hu. unfold tde_mdunlink. destruct (mdunlink r f isRedo w) as [[] w0|e w0] eqn:E.
  - destruct (always_ok _ _ _ _ _ (mdunlink_frame _ _ _) E) as [pg ->]. eapply ends_with_bind; [exact E|].
    set (w0 := set_pages pg w) in *. assert (inv pk m w0) as Hi by (eapply inv_md_only; [exact Hinv|by eexists]).
    destruct (_ || _); [|by exists pk, m]. eapply ends_with_bind; [by apply (is_encrypted_ok db me pk m)|].
    case_bool_decide as Hk; [|by exists pk, m]. destruct (delete_key_ok db me pk m r w0 Hi Hr Hk) as (w' & m' & E' & Hku).
    unfold ends_with. rewrite E'. exists pk, m'. by apply (inv_key_forgotten db me r None pk m w0).
  - destruct (always_err _ _ _ _ _ (mdunlink_frame _ _ _) E) as [pg ->]. unfold ends_with.
    rewrite (bind_err _ _ _ _ _ E). exists pk, m. eapply inv_md_only; [exact Hinv|by eexists].
Qed.

(** The keys in the file that the process relies on: those of the relations whose
    status it remembers. *)
Definition remembered_kept (w : World) (m m' : gmap Loc LKey) : Prop :=
  ∀ r t, rels w !! r = Some t → in_db r → RelFileLocatorBackendIsTemp r = false →
    encryption_status t ≠ RELATION_ENCRYPTION_UNKNOWN → m' !! rel_loc (rlb_locator r) = m !! rel_loc (rlb_locator r).

(** What happens while a process works with relations of the database: the calls of
    the storage manager, returning or failing, where a file is only removed when the
    process remembers nothing about the relation (the server closes it first); and
    everything that other processes, replay and changes of the principal key do to
    the key file, which may add and remove keys of relations that this process does
    not remember. *)
Inductive smgr_step (w w' : World) : Prop :=
| step_open r : ends_in (tde_mdopen r) w w' → smgr_step w w'
| step_close r f : ends_in (tde_mdclose r f) w w' → smgr_step w w'
| step_create relold r t f isRedo :
    in_db r → in_db (mkRelFileLocatorBackend relold (rlb_backend r)) → rels w !! r = Some t →
    settings_ok (w_session w) → temp_fresh r w →
    ends_in (tde_mdcreate relold r f isRedo) w w' → smgr_step w w'
| step_unlink r f isRedo :
    in_db r → (∀ t, rels w !! r = Some t → encryption_status t = RELATION_ENCRYPTION_UNKNOWN) →
    ends_in (tde_mdunlink r f isRedo) w w' → smgr_step w w'
| step_extend r f b p s : in_db r → page_ok p → ends_in (tde_mdextend r f b p s) w w' → smgr_step w w'
| step_write r f b bufs s :
    in_db r → Forall page_ok bufs → ends_in (tde_mdwritev r f b bufs s) w w' → smgr_step w w'
| step_read r f b n : in_db r → ends_in (tde_mdreadv r f b n) w w' → smgr_step w w'
| step_start_read ioh r f b n : in_db r → ends_in (tde_mdstartreadv ioh r f b n) w w' → smgr_step w w'
| step_other :
    w_smgr w' = w_smgr w → w_enc_lock w' = None → ctxs_ok w' →
    (∀ pk m, db_rep w db pk m → ∃ pk' m', db_rep w' db pk' m' ∧ remembered_kept w m m') → smgr_step w w'.

(** C4: what a process that works on one database remembers about a relation agrees
    with the key file and the table of temporary keys: a relation marked encrypted
    has exactly the remembered key, one marked plain has none. This holds in every
    state that is reached by calls of the storage manager, returning or failing, in
    any order, while other processes, replay and changes of the principal key change
    the key file in any way that leaves the keys of the relations that this process
    remembers alone. No system call on the key file fails, a relation is closed before
    its files are removed (as smgrdounlinkall does), and a temporary relation that is
    created has no key yet. *)
Theorem smgr_state_invariant w w' : some_inv w → rtc smgr_step w w' → some_inv w'.
Proof.
  intros Hinv Hrun. induction Hrun as [|w1 w2 w3 Hstep _ IH]; [done|]. apply IH. clear IH w3.
  destruct Hinv as (pk & m & Hinv).
  destruct Hstep as [r H|r f H|relold r t f isRedo Hr Ho Ht Hs Hf H|r f isRedo Hr Hu H|r f b p s Hr Hp H
    |r f b bufs s Hr Hp H|r f b n Hr H|ioh r f b n Hr H|Es Hl Hc Hrep];
    try (refine (ends_in_with some_inv _ _ _ _ H)).
  - by apply (ends_some pk m), open_inv.
  - by apply (ends_some pk m), close_inv.
  - by eapply create_inv.
  - by eapply unlink_inv.
  - by apply (ends_some pk m), extend_inv.
  - by apply (ends_some pk m), write_inv.
  - by apply (ends_some pk m), read_inv.
  - by apply (ends_some pk m), startread_inv.
  - destruct (Hrep pk m (inv_rep _ _ _ _ _ Hinv)) as (pk' & m' & Hrep' & Hm). exists pk', m'. destruct Hinv as [_ _ H3 _ H5].
    split; try done.
    + unfold temp_key. by rewrite Es.
    + intros r t. unfold rels. rewrite Es. intros Ht Hr. specialize (H5 r t Ht Hr). specialize (Hm r t Ht Hr).
      unfold rel_ok, key_of, temp_key in *. rewrite Es. destruct (encryption_status t), (RelFileLocatorBackendIsTemp r); try done;
        by rewrite Hm.
Qed.

(** The SQL function that reports whether a relation is encrypted answers
    with whether there is a key for it, in the key file or among the keys of
    temporary relations, whatever the storage manager remembers about the
    relation; it answers NULL exactly for relations without storage. *)
Theorem is_encrypted_reports_key kind r t pk m w :
  inv pk m w → in_db r → rels w !! r = Some t →
  open_pg_tde_is_encrypted kind false r true w =
    Ok (if RELKIND_HAS_STORAGE kind then Some (bool_decide (is_Some (key_of w m r))) else None) w.
Proof.
  intros Hinv Hr Ht. unfold open_pg_tde_is_encrypted. destruct (RELKIND_HAS_STORAGE kind); [|done]. cbn [negb].
  unfold tde_smgr_rel_is_encrypted. cbn [negb]. rewrite bind_assoc, (bind_ok _ _ _ _ _ (tdereln_ok r t w Ht)).
  pose proof (inv_rels _ _ _ _ _ Hinv r t Ht Hr) as Hok. unfold rel_ok in Hok.
  case_bool_decide as Hu; [by rewrite (bind_ok _ _ _ _ _ (is_encrypted_ok db me pk m r w Hinv Hr))|].
  destruct (encryption_status t); [..|done].
  - rewrite Hok, bool_decide_eq_false_2 by done. by rewrite bool_decide_eq_false_2 by (by intros []).
  - destruct Hok as [_ ->]. done.
Qed.

End thms.

(** ** From the command to the disk *)

Section command.
Context {SSL : OpenSSL} {Spec : OpenSSLSpec SSL} {K : Kernel} {NF : NoFaults K} {RW : RandWorks SSL}.
Context {PP : PgPort} {NK : NetworkKeyrings} {PR : Providers} {SV : Server} {CAT : Catalog} {PF : ProvidersFrame NK PR}.
Context {PKS : PrincipalKeys} {PKSpec : PrincipalKeysSpec PKS} {MD : Md} {MS : MdSpec MD}.
Context (db me : Z).

Lemma configured_cached pk w :
  w_pk_cache w !! db = Some pk → w_enc_lock w = None → open_pg_tde_principal_key_configured db w = Ok true w.
Proof.
  intros Hc Hl. unfold open_pg_tde_principal_key_configured.
  rewrite (bind_ok _ _ _ _ _ (acquire_enc_ok LW_SHARED w Hl)). set (w1 := set_enc_lock _ w).
  rewrite (bind_ok _ _ _ _ _ (nodefault_cached db LW_SHARED pk w1 Hc)). mstep.
  rewrite (bind_ok _ _ _ _ _ (release_enc_ok LW_SHARED w1 eq_refl)). unfold w1. by rewrite unlock_lock.
Qed.

(** CREATE TABLE of an encrypted table starts with the mode set. *)
Lemma start_create_encrypts ptr am part inh pk m w :
  smgr_inv db me pk m w → MyDatabaseId (w_session w) = db → creates_encrypted w am part inh true →
  ∃ w1, start_create ptr am part inh w = Ok tt w1 ∧ smgr_inv db me pk m w1 ∧ rels w1 = rels w ∧ pages w1 = pages w ∧
    w_session w1 = w_session w ∧ currentTdeEncryptModeValidated w1 = Ok TDE_ENCRYPT_MODE_ENCRYPT w1.
Proof.
  intros Hinv Hdb Hc. rewrite (start_create_pushes ptr am part inh true w Hc).
  set (e := with_mode _ _). set (w1 := set_ddl _ w).
  assert (smgr_inv db me pk m w1) as Hi by (apply (inv_frame db me pk m w); try done; apply Hinv).
  destruct (pushed_mode e w w1 (reflexivity _)) as [Hv Hm]. exists w1. split_and!; try done.
  unfold checkEncryptionStatus. rewrite (bind_ok _ _ _ _ _ Hm). mstep. cbv beta. rewrite bool_decide_true by done.
  unfold checkPrincipalKeyConfigured. mstep. change (MyDatabaseId (w_session w1)) with (MyDatabaseId (w_session w)).
  rewrite Hdb. by rewrite (bind_ok _ _ _ _ _ (configured_cached pk w1 (proj1 (inv_rep _ _ _ _ _ Hi)) (inv_lock _ _ _ _ _ Hi))).
Qed.

(** Adding a block to an encrypted relation. *)
Lemma extend_encrypted pk m r t f b p s w :
  smgr_inv db me pk m w → in_db db me r → rels w !! r = Some t → encryption_status t = RELATION_ENCRYPTED →
  page_ok p → pages w !! (r, f, b) = None →
  ∃ ct w', tde_mdextend r f b p s w = Ok tt w' ∧ smgr_inv db me pk m w' ∧ rels w' = rels w ∧
    key_of w' m r = key_of w m r ∧ pages w' = <[(r, f, b) := ct]> (pages w) ∧
    page_fn (relKey t) true f b p = Some ct ∧ page_ok ct.
Proof.
  intros Hinv Hr Ht Hs Hp Hn. unfold tde_mdextend, tde_smgr_resolve_encryption_status. rewrite bind_assoc.
  rewrite (bind_ok _ _ _ _ _ (tdereln_ok r t w Ht)), Hs. rewrite bool_decide_false by done. cbn [negb]. mstep.
  rewrite (bind_ok _ _ _ _ _ (tdereln_ok r t w Ht)), Hs. rewrite bool_decide_false by done.
  pose proof (inv_rels _ _ _ _ _ Hinv r t Ht Hr) as Hok. unfold rel_ok in Hok. rewrite Hs in Hok. destruct Hok as [Hwf Hk].
  destruct (encrypt_block_ok (relKey t) f b p w Hwf Hp (inv_ctxs _ _ _ _ _ Hinv)) as (ct & w1 & E & Hf & Hct & Hc & O).
  rewrite (bind_ok _ _ _ _ _ E). pose proof (proj1 (ctx_only_facts w w1 O)) as Es.
  rewrite mdextend_ok by (unfold pages; by rewrite Es).
  exists ct, (set_pages (<[(r, f, b) := ct]> (pages w1)) w1). split_and!; try done.
  - eapply inv_md_only; [by apply (inv_ctx_only db me pk m w w1)|by eexists].
  - unfold rels. simpl. by rewrite Es.
  - apply key_of_temp. simpl. by rewrite Es.
  - change (<[(r, f, b) := ct]> (pages w1) = <[(r, f, b) := ct]> (pages w)). unfold pages. by rewrite Es.
Qed.

(** C2: CREATE TABLE with the access method tde_heap, on a database with a
    principal key: the event trigger passes, the new file gets a new key of an
    XTS suite in the key file, its first page is on disk encrypted under that
    key, and is read back as it was written (up to the exception for zero
    pages). *)
Theorem created_table_pages_encrypted ptr am part inh pk m relold r t p s w :
  smgr_inv db me pk m w → MyDatabaseId (w_session w) = db → settings_ok (w_session w) →
  IsBinaryUpgrade (w_session w) = false → creates_encrypted w am part inh true →
  in_db db me r → RelFileLocatorBackendIsTemp r = false → IsCatalogRelationOid (relNumber (rlb_locator r)) = false →
  in_db db me (mkRelFileLocatorBackend relold (rlb_backend r)) → rels w !! r = Some t → page_ok p →
  ∃ w1, start_create ptr am part inh w = Ok tt w1 ∧
  ∀ w0, mdcreate relold r MAIN_FORKNUM false w1 = Ok tt w0 → pages w0 !! (r, MAIN_FORKNUM, 0) = None →
  ∃ w2 w3 w4 m' k ct,
    tde_mdcreate relold r MAIN_FORKNUM false w1 = Ok tt w2 ∧
    tde_mdextend r MAIN_FORKNUM 0 p s w2 = Ok tt w3 ∧
    tde_mdreadv r MAIN_FORKNUM 0 1 w3 = Ok [if all_zero32 ct then ct else p] w4 ∧
    db_rep w4 db pk m' ∧ m' !! rel_loc (rlb_locator r) = Some (lkey k) ∧ InternalKey_wf k ∧
    (ik_cipher k = CIPHER_AES_128_XTS ∨ ik_cipher k = CIPHER_AES_256_XTS) ∧
    pages w3 !! (r, MAIN_FORKNUM, 0) = Some ct ∧ page_fn k true MAIN_FORKNUM 0 p = Some ct.
Proof.
  intros Hinv Hdb Hs Hb Hc Hr Htmp Hcat Ho Ht Hp.
  destruct (start_create_encrypts ptr am part inh pk m w Hinv Hdb Hc) as (w1 & E1 & Hi1 & Hr1 & _ & Hs1 & Hm1).
  exists w1. split; [done|]. intros w0 E0 Hn0. rewrite <-Hr1 in Ht. rewrite <-Hs1 in Hs, Hb.
  destruct (mdcreate_ok db me pk m relold r t true w1 w0 Hi1 Hr Ho Ht Hs Hb)
    as (w2 & m' & t' & E2 & Hi2 & Ht2 & _ & _ & _ & Hp2 & _ & Hst & Hwf & Hk2 & Hx); try done.
  { exists TDE_ENCRYPT_MODE_ENCRYPT. split; [done|]. by rewrite Hcat. }
  { intros H. congruence. }
  rewrite <-Hp2 in Hn0.
  destruct (extend_encrypted pk m' r t' MAIN_FORKNUM 0 p s w2 Hi2 Hr Ht2 Hst Hp Hn0)
    as (ct & w3 & E3 & Hi3 & Hr3 & Hk3 & Hp3 & Hf & Hct).
  assert (pages w3 !! (r, MAIN_FORKNUM, 0) = Some ct) as Hpg by (rewrite Hp3; apply lookup_insert_eq).
  destruct (read_ok db me pk m' r t' MAIN_FORKNUM 0 [p] [ct] w3) as (w4 & E4 & Hi4); try done.
  - by rewrite Hr3.
  - by rewrite Hst.
  - by constructor.
  - by constructor.
  - cbn [pages_at length]. by rewrite Hpg.
  - rewrite Hk3, Hk2. simpl. by rewrite Hf.
  - rewrite Hk3, Hk2 in E4. exists w2, w3, w4, m', (relKey t'), ct. split_and!; try done.
    + apply Hi4.
    + unfold key_of in Hk2. by rewrite Htmp in Hk2.
Qed.

End command.

(** ** Examples *)

(** md.c over the pages. *)
#[local] Instance ToyMd : Md := {|
  mdopen _ := mret tt;
  mdclose _ _ := mret tt;
  mdcreate _ _ _ _ := mret tt;
  mdunlink r f _ := modify (λ w, set_pages (filter (λ x, x.1.1 ≠ (r, f)) (pages w)) w);
  mdextend r f b p _ := λ w,
    match pages w !! (r, f, b) with
    | None => Ok tt (set_pages (<[(r, f, b) := p]> (pages w)) w)
    | Some _ => Err (mkError ERROR "block exists") w
    end;
  mdwritev r f b ps _ := λ w,
    match pages_at (pages w) r f b (length ps) with
    | Some _ => Ok tt (set_pages (write_pages (pages w) r f b ps) w)
    | None => Err (mkError ERROR "could not write blocks") w
    end;
  mdreadv r f b n := λ w,
    match pages_at (pages w) r f b n with
    | Some ps => if decide (Forall page_ok ps) then Ok ps w else Err (mkError ERROR "could not read blocks") w
    | None => Err (mkError ERROR "could not read blocks") w
    end;
  mdwrite r f b p _ := λ w,
    match pages_at (pages w) r f b 1 with
    | Some _ => Ok tt (set_pages (write_pages (pages w) r f b [p]) w)
    | None => Err (mkError ERROR "could not write blocks") w
    end;
  mdread r f b := λ w,
    match pages w !! (r, f, b) with
    | Some p => if decide (Forall page_ok [p]) then Ok p w else Err (mkError ERROR "could not read blocks") w
    | None => Err (mkError ERROR "could not read blocks") w
    end;
  mdstartreadv _ _ _ _ _ := mret tt;
  IsCatalogRelationOid n := n <? 16384;
|}.

Lemma md_only_pages p w : md_only w (set_pages p w).
Proof. by eexists. Qed.

#[local] Instance ToyMdSpec : MdSpec ToyMd.
Proof.
  split; simpl.
  - intros r f b n w ps -> H. by rewrite decide_True.
  - intros r f b n w ps w' E. repeat case_match; by simplify_eq.
  - intros r f b ps s w [x ->]. done.
  - intros r f b p s w ->. done.
  - intros r f b w. destruct (pages w !! (r, f, b)); simpl; [|done]. by case_match.
  - done.
  - intros. apply (always_ret md_only).
  - intros. apply (always_ret md_only).
  - intros. apply (always_ret md_only).
  - intros r f b w. apply md_only_pages.
  - intros r f b p s w. repeat case_match; simplify_eq; (reflexivity || apply md_only_pages).
  - intros r f b ps s w. repeat case_match; simplify_eq; (reflexivity || apply md_only_pages).
  - intros r f b n w. repeat case_match; simplify_eq; reflexivity.
  - intros. apply (always_ret md_only).
Defined.

(** A permanent and a temporary relation are open; the temporary one is
    encrypted and has one page. *)
Definition rp : RelFileLocatorBackend := mkRelFileLocatorBackend rel1 INVALID_PROC_NUMBER.
Definition rt : RelFileLocatorBackend := mkRelFileLocatorBackend rel2 3.
Definition unknown : TDESMgrRelation := mkTDESMgrRelation RELATION_ENCRYPTION_UNKNOWN InternalKey_zero.

Definition world_sm : World :=
  set_pk_cache {[5 := pk5]} (set_smgr (mkSmgrState {[rp := unknown; rt := unknown]} (Some {[rel2 := rel_key_example]})
    ∅ [] {[(rt, MAIN_FORKNUM, 0) := page_example]}) world1).

Lemma world_sm_inv : smgr_inv 5 3 pk5 ∅ world_sm.
Proof.
  split.
  - split; [reflexivity|]. split; [apply pk5_ok|]. left. split; [|done]. left.
    assert (w_fs world1 = ∅) as E by (vm_compute; reflexivity). change (w_fs world_sm) with (w_fs world1). by rewrite E.
  - vm_compute. reflexivity.
  - intros l k. unfold temp_key. simpl. intros [<- <-]%lookup_singleton_Some. apply rel_key_example_wf.
  - exact world1_ok.
  - intros r t. unfold rels. simpl. intros [[_ <-]|[_ [_ <-]%lookup_singleton_Some]]%lookup_insert_Some _; done.
Qed.

Lemma rp_in_db : in_db 5 3 rp.
Proof. unfold in_db, RelFileLocator_wf, is_u32. simpl. unfold INVALID_PROC_NUMBER. lia. Qed.

Lemma rt_in_db : in_db 5 3 rt.
Proof. unfold in_db, RelFileLocator_wf, is_u32. simpl. unfold INVALID_PROC_NUMBER. lia. Qed.

Lemma page_example_page : page_ok page_example.
Proof. apply page_example_ok. Qed.

Lemma smgr_write_then_read_witness : ∃ disk w1 w2,
  tde_mdwritev rt MAIN_FORKNUM 0 [page_example] true world_sm = Ok tt w1 ∧
  tde_mdreadv rt MAIN_FORKNUM 0 1 w1 = Ok (readback [page_example] disk) w2.
Proof.
  destruct (smgr_write_then_read 5 3 pk5 ∅ rt unknown MAIN_FORKNUM 0 [page_example] true world_sm)
    as (disk & w1 & w2 & E1 & _ & _ & E2 & _).
  - exact world_sm_inv.
  - exact rt_in_db.
  - reflexivity.
  - constructor; [exact page_example_page|constructor].
  - lia.
  - simpl. lia.
  - exists [page_example]. reflexivity.
  - exists disk, w1, w2. split; [exact E1|exact E2].
Defined.

Lemma aio_read_equivalent_witness : ∃ bufs w' w1,
  tde_mdreadv rt MAIN_FORKNUM 0 1 world_sm = Ok bufs w' ∧
  tde_mdstartreadv 8 rt MAIN_FORKNUM 0 1 world_sm = Ok tt w1 ∧ 8 ∈ tde_io_callbacks (w_smgr w1).
Proof.
  destruct (aio_read_equivalent 5 3 pk5 ∅ rt unknown MAIN_FORKNUM 0 1 [page_example] 8 world_sm)
    as (bufs & w' & E & H).
  - exact world_sm_inv.
  - exact rt_in_db.
  - reflexivity.
  - reflexivity.
  - constructor; [exact page_example_page|constructor].
  - destruct (tde_mdstartreadv 8 rt MAIN_FORKNUM 0 1 world_sm) as [[] w1|e w1] eqn:E1; [|discriminate E1].
    exists bufs, w', w1. split; [exact E|]. split; [reflexivity|]. exact (proj1 (H w1 eq_refl)).
Defined.

Lemma world_sm_settings : settings_ok (w_session world_sm).
Proof.
  change (w_session world_sm) with (w_session world1).
  assert (w_session world1 = session0) as -> by (vm_compute; reflexivity).
  split_and!; [apply cipher_values; by left|apply data_cipher_values; right; by left|reflexivity].
Qed.

Lemma new_relation_key_xts_witness : ∃ k w',
  tde_smgr_create_key rp world_sm = Ok k w' ∧ (ik_cipher k = CIPHER_AES_128_XTS ∨ ik_cipher k = CIPHER_AES_256_XTS).
Proof.
  destruct (new_relation_key_xts 5 3 pk5 ∅ rp world_sm world_sm_inv rp_in_db world_sm_settings)
    as (k & w' & m' & E & _ & Hx & _).
  exists k, w'. split; [exact E|exact Hx].
Defined.

Lemma smgr_state_invariant_witness : ∃ ps w',
  tde_mdreadv rt MAIN_FORKNUM 0 1 world_sm = Ok ps w' ∧ some_inv 5 3 w'.
Proof.
  destruct (tde_mdreadv rt MAIN_FORKNUM 0 1 world_sm) as [ps w'|e w'] eqn:E; [|discriminate E].
  exists ps, w'. split; [reflexivity|]. apply (smgr_state_invariant 5 3 world_sm w').
  - exists pk5, ∅. exact world_sm_inv.
  - apply rtc_once. apply (step_read 5 3 _ _ rt MAIN_FORKNUM 0 1); [exact rt_in_db|]. left. exists ps. exact E.
Defined.

Lemma scalar_io_same_as_vector_witness :
  tde_mdwritev rt MAIN_FORKNUM 0 [page_example] true world_sm = tde_mdwrite rt MAIN_FORKNUM 0 page_example true world_sm.
Proof. exact (proj1 (scalar_io_same_as_vector rt MAIN_FORKNUM 0 page_example true world_sm)). Defined.

#[local] Existing Instances ToyProviders ToyServer ToyCatalog ToyFrame.

Lemma created_table_pages_encrypted_witness : ∃ w1 w2 w3 w4 k ct,
  start_create 1 (Some "tde_heap"%string) false [] world_sm = Ok tt w1 ∧
  tde_mdcreate rel1 rp MAIN_FORKNUM false w1 = Ok tt w2 ∧ tde_mdextend rp MAIN_FORKNUM 0 page_example true w2 = Ok tt w3 ∧
  tde_mdreadv rp MAIN_FORKNUM 0 1 w3 = Ok [if all_zero32 ct then ct else page_example] w4 ∧
  page_fn k true MAIN_FORKNUM 0 page_example = Some ct.
Proof.
  assert (w_session world_sm = session0) as Es by (vm_compute; reflexivity).
  destruct (created_table_pages_encrypted 5 3 1 (Some "tde_heap"%string) false [] pk5 ∅ rel1 rp unknown page_example true world_sm)
    as (w1 & E1 & H).
  - exact world_sm_inv.
  - by rewrite Es.
  - exact world_sm_settings.
  - by rewrite Es.
  - reflexivity.
  - exact rp_in_db.
  - reflexivity.
  - reflexivity.
  - exact rp_in_db.
  - reflexivity.
  - exact page_example_page.
  - assert (pages w1 !! (rp, MAIN_FORKNUM, 0) = None) as Hn.
    { assert (match start_create 1 (Some "tde_heap"%string) false [] world_sm with
              | Ok _ w => bool_decide (is_Some (pages w !! (rp, MAIN_FORKNUM, 0))) | Err _ _ => true end = false) as Hb
        by (vm_compute; reflexivity).
      rewrite E1 in Hb. apply bool_decide_eq_false_1 in Hb. by apply eq_None_not_Some. }
    destruct (H w1 eq_refl Hn) as (w2 & w3 & w4 & m' & k & ct & E2 & E3 & E4 & _ & _ & _ & _ & _ & Hf).
    exists w1, w2, w3, w4, k, ct. split_and!; [exact E1|exact E2|exact E3|exact E4|exact Hf].
Defined.

Lemma is_encrypted_reports_key_witness :
  open_pg_tde_is_encrypted RELKIND_RELATION false rt true world_sm = Ok (Some true) world_sm.
Proof.
  exact (is_encrypted_reports_key 5 3 RELKIND_RELATION rt unknown pk5 ∅ world_sm world_sm_inv rt_in_db eq_refl).
Defined.
