(* ===== verification/XLogRedo.v ===== *)
(** access/open_pg_tde_xlog.c: the records of the extension in the WAL and their
    replay on a standby or after a crash.

    A record is its info byte and its data, as the resource manager receives
    them; [xlog_info] and [xlog_data] are what [XLogInsert] makes of the records
    that the other files insert. *)
From S2P Require Import Prelude Types Environ Instances Ciphers EncTde KeyringOptions KeyFile KeyMap WalKeys Keyring.
From S2P Require Import KeyProviders PrincipalKey Startup ProviderSql EventCapture Smgr.

Definition XLR_INFO_MASK : Z := 0x0F.

Definition INFO_CREATE_RELATION_KEY : Z := 0x00.
Definition INFO_ADD_PRINCIPAL_KEY : Z := 0x10.
Definition INFO_ROTATE_PRINCIPAL_KEY : Z := 0x20.
Definition INFO_WRITE_KEY_PROVIDER : Z := 0x30.
Definition INFO_INSTALL_EXTENSION : Z := 0x40.
Definition INFO_DELETE_RELATION_KEY : Z := 0x50.
Definition INFO_DELETE_PRINCIPAL_KEY : Z := 0x60.

(** ** Layouts *)

Definition RelFileLocator_encode (r : RelFileLocator) : bytes :=
  enc_u32 (spcOid r) ++ enc_u32 (dbOid r) ++ enc_u32 (relNumber r).
Definition RelFileLocator_decode (bs : bytes) : RelFileLocator :=
  mkRelFileLocator (le_dec (slice 0 4 bs)) (le_dec (slice 4 4 bs)) (le_dec (slice 8 4 bs)).

(** Two [Oid]s and the name. *)
Definition Rotate_encode (r : XLogPrincipalKeyRotate) : bytes :=
  enc_u32 (xlr_databaseId r) ++ enc_u32 (xlr_keyringId r) ++ xlr_keyName r.
Definition Rotate_decode (bs : bytes) : XLogPrincipalKeyRotate :=
  mkXLogPrincipalKeyRotate (le_dec (slice 0 4 bs)) (le_dec (slice 4 4 bs)) (slice 8 256 bs).

(** An [Oid], four bytes of padding, an [off_t], the record. *)
Definition RecordInFile_encode (r : KeyringProviderRecordInFile) : bytes :=
  enc_u32 (kprf_database_id r) ++ zeros 4 ++ enc_u64 (kprf_offset_in_file r) ++
  ProviderRecord_encode (kprf_provider r).
Definition RecordInFile_decode (bs : bytes) : KeyringProviderRecordInFile :=
  mkProviderRecordInFile (le_dec (slice 0 4 bs)) (i64 (le_dec (slice 8 8 bs)))
    (ProviderRecord_decode (slice 16 1160 bs)).

Definition xlog_info (r : XLogRecord) : Z :=
  match r with
  | XLOG_TDE_CREATE_RELATION_KEY _ => INFO_CREATE_RELATION_KEY
  | XLOG_TDE_ADD_PRINCIPAL_KEY _ => INFO_ADD_PRINCIPAL_KEY
  | XLOG_TDE_ROTATE_PRINCIPAL_KEY _ => INFO_ROTATE_PRINCIPAL_KEY
  | XLOG_TDE_WRITE_KEY_PROVIDER _ => INFO_WRITE_KEY_PROVIDER
  | XLOG_TDE_INSTALL_EXTENSION _ => INFO_INSTALL_EXTENSION
  | XLOG_TDE_DELETE_RELATION_KEY _ => INFO_DELETE_RELATION_KEY
  | XLOG_TDE_DELETE_PRINCIPAL_KEY _ => INFO_DELETE_PRINCIPAL_KEY
  end.

Definition xlog_data (r : XLogRecord) : bytes :=
  match r with
  | XLOG_TDE_CREATE_RELATION_KEY rel | XLOG_TDE_DELETE_RELATION_KEY rel => RelFileLocator_encode rel
  | XLOG_TDE_ADD_PRINCIPAL_KEY info => SignedPKInfo_encode info
  | XLOG_TDE_ROTATE_PRINCIPAL_KEY rec => Rotate_encode rec
  | XLOG_TDE_WRITE_KEY_PROVIDER rec => RecordInFile_encode rec
  | XLOG_TDE_INSTALL_EXTENSION db | XLOG_TDE_DELETE_PRINCIPAL_KEY db => enc_u32 db
  end.

(** ** The resource manager *)

Section redo.
Context {SSL : OpenSSL} {K : Kernel} {PP : PgPort} {J : JsonApi} {NK : NetworkKeyrings} {SV : Server}.
Context {PKS : PrincipalKeys} {MD : Md}.

Definition tdeheap_rmgr_redo (record_info : Z) (data : bytes) : M unit :=
  let info := Z.land record_info (Z.lnot XLR_INFO_MASK) in
  if info =? INFO_CREATE_RELATION_KEY then tde_smgr_create_key_redo (RelFileLocator_decode data)
  else if info =? INFO_ADD_PRINCIPAL_KEY then
    let mkey := SignedPKInfo_decode data in
    if pki_databaseId (spki_data mkey) =? GLOBAL_DATA_TDE_OID then open_pg_tde_save_server_key_redo mkey
    else open_pg_tde_save_principal_key_redo mkey
  else if info =? INFO_DELETE_RELATION_KEY then tde_smgr_delete_leftover_key_redo (RelFileLocator_decode data)
  else if info =? INFO_ROTATE_PRINCIPAL_KEY then xl_tde_perform_rotate_key (Rotate_decode data)
  else if info =? INFO_DELETE_PRINCIPAL_KEY then
    open_pg_tde_delete_principal_key_redo (le_dec (slice 0 4 data))
  else if info =? INFO_WRITE_KEY_PROVIDER then redo_key_provider_info (RecordInFile_decode data)
  else if info =? INFO_INSTALL_EXTENSION then extension_install_redo (le_dec (slice 0 4 data))
  else ereport PANIC "open_pg_tde_redo: unknown op code".

(** Replay of the records in order; the recovery process stops at an error. *)
Fixpoint redo_all (rs : list XLogRecord) : M unit :=
  match rs with
  | [] => mret tt
  | r :: rs => tdeheap_rmgr_redo (xlog_info r) (xlog_data r);; redo_all rs
  end.

End redo.

(** [appendStringInfo ("%u")] *)
Definition fmt_u (z : Z) : string := pretty z.

Definition rel_desc (r : RelFileLocator) : string :=
  "rel: " +:+ fmt_u (spcOid r) +:+ "/" +:+ fmt_u (dbOid r) +:+ "/" +:+ fmt_u (relNumber r).

Definition tdeheap_rmgr_desc (record_info : Z) (data : bytes) : string :=
  let info := Z.land record_info (Z.lnot XLR_INFO_MASK) in
  if info =? INFO_CREATE_RELATION_KEY then rel_desc (RelFileLocator_decode data)
  else if info =? INFO_ADD_PRINCIPAL_KEY then "db: " +:+ fmt_u (pki_databaseId (PKInfo_decode data))
  else if info =? INFO_ROTATE_PRINCIPAL_KEY then "db: " +:+ fmt_u (xlr_databaseId (Rotate_decode data))
  else if info =? INFO_DELETE_PRINCIPAL_KEY then "db: " +:+ fmt_u (le_dec (slice 0 4 data))
  else if info =? INFO_DELETE_RELATION_KEY then rel_desc (RelFileLocator_decode data)
  else if info =? INFO_WRITE_KEY_PROVIDER then
    let xlrec := RecordInFile_decode data in
    "db: " +:+ fmt_u (kprf_database_id xlrec) +:+ ", provider id: " +:+ pretty (kpr_provider_id (kprf_provider xlrec))
  else if info =? INFO_INSTALL_EXTENSION then "db: " +:+ fmt_u (le_dec (slice 0 4 data))
  else "".

Definition tdeheap_rmgr_identify (info : Z) : option string :=
  let info := Z.land info (Z.lnot XLR_INFO_MASK) in
  if info =? INFO_CREATE_RELATION_KEY then Some "CREATE_RELATION_KEY"
  else if info =? INFO_ADD_PRINCIPAL_KEY then Some "ADD_PRINCIPAL_KEY"
  else if info =? INFO_ROTATE_PRINCIPAL_KEY then Some "ROTATE_PRINCIPAL_KEY"
  else if info =? INFO_DELETE_RELATION_KEY then Some "DELETE_RELATION_KEY"
  else if info =? INFO_DELETE_PRINCIPAL_KEY then Some "DELETE_PRINCIPAL_KEY"
  else if info =? INFO_WRITE_KEY_PROVIDER then Some "WRITE_KEY_PROVIDER"
  else if info =? INFO_INSTALL_EXTENSION then Some "INSTALL_EXTENSION"
  else None.
