(* ===== verification/XLogRedoThms.v ===== *)
(** Replay of the extension's WAL records: a record is replayed as the
    operation it was written for, a standby's catalogue of key providers follows
    that of the primary, its relations get keys when those of the primary do,
    and what replay leaves out. *)
From S2P Require Import Prelude Types Environ Instances Ciphers EncTde KeyringOptions KeyringOptionsThms KeyFile.
From S2P Require Import KeyMap KeyMapSpec WalKeys WalKeysSpec Keyring KeyringThms KeyProviders ProviderSpec.
From S2P Require Import PrincipalKey PrincipalKeyThms Startup ProviderSql ProviderThms Guc EventCapture Smgr SmgrSpec XLogRedo.

(** ** Layouts *)

Definition Rotate_wf (r : XLogPrincipalKeyRotate) : Prop :=
  is_u32 (xlr_databaseId r) ∧ is_u32 (xlr_keyringId r) ∧ length (xlr_keyName r) = 256%nat.

Definition RecordInFile_wf (r : KeyringProviderRecordInFile) : Prop :=
  is_u32 (kprf_database_id r) ∧ - 2 ^ 63 <= kprf_offset_in_file r < 2 ^ 63 ∧ ProviderRecord_wf (kprf_provider r).

Definition XLogRecord_wf (r : XLogRecord) : Prop :=
  match r with
  | XLOG_TDE_CREATE_RELATION_KEY rel | XLOG_TDE_DELETE_RELATION_KEY rel => RelFileLocator_wf rel
  | XLOG_TDE_ADD_PRINCIPAL_KEY info => SignedPKInfo_wf info
  | XLOG_TDE_ROTATE_PRINCIPAL_KEY rec => Rotate_wf rec
  | XLOG_TDE_WRITE_KEY_PROVIDER rec => RecordInFile_wf rec
  | XLOG_TDE_INSTALL_EXTENSION db | XLOG_TDE_DELETE_PRINCIPAL_KEY db => is_u32 db
  end.

Lemma RelFileLocator_decode_encode r :
  RelFileLocator_wf r → RelFileLocator_decode (RelFileLocator_encode r) = r.
Proof.
  intros (? & ? & ?). unfold RelFileLocator_decode, RelFileLocator_encode. slice_simpl.
  rewrite !dec_enc_u32 by done. by destruct r.
Qed.

Lemma Rotate_decode_encode r : Rotate_wf r → Rotate_decode (Rotate_encode r) = r.
Proof.
  intros (? & ? & ?). unfold Rotate_decode, Rotate_encode. slice_simpl.
  rewrite !dec_enc_u32 by done. by destruct r.
Qed.

Lemma RecordInFile_decode_encode r : RecordInFile_wf r → RecordInFile_decode (RecordInFile_encode r) = r.
Proof.
  intros (? & ? & Hp). unfold RecordInFile_decode, RecordInFile_encode.
  pose proof (ProviderRecord_encode_length _ Hp). slice_simpl.
  rewrite dec_enc_u32, dec_enc_i64, ProviderRecord_decode_encode by done. by destruct r.
Qed.

Lemma slice_u32 z : is_u32 z → le_dec (slice 0 4 (enc_u32 z)) = z.
Proof. intros H. rewrite <-(app_nil_r (enc_u32 z)). slice_simpl. by apply dec_enc_u32. Qed.

Section redo.
Context {SSL : OpenSSL} {K : Kernel} {PP : PgPort} {J : JsonApi} {NK : NetworkKeyrings} {SV : Server}.
Context {PKS : PrincipalKeys} {MD : Md}.

(** The operation a record stands for. *)
Definition redo_record (r : XLogRecord) : M unit :=
  match r with
  | XLOG_TDE_CREATE_RELATION_KEY rel => tde_smgr_create_key_redo rel
  | XLOG_TDE_DELETE_RELATION_KEY rel => tde_smgr_delete_leftover_key_redo rel
  | XLOG_TDE_ADD_PRINCIPAL_KEY info =>
      if pki_databaseId (spki_data info) =? GLOBAL_DATA_TDE_OID then open_pg_tde_save_server_key_redo info
      else open_pg_tde_save_principal_key_redo info
  | XLOG_TDE_ROTATE_PRINCIPAL_KEY rec => xl_tde_perform_rotate_key rec
  | XLOG_TDE_WRITE_KEY_PROVIDER rec => redo_key_provider_info rec
  | XLOG_TDE_INSTALL_EXTENSION db => extension_install_redo db
  | XLOG_TDE_DELETE_PRINCIPAL_KEY db => open_pg_tde_delete_principal_key_redo db
  end.

Lemma info_flags r flags :
  0 <= flags < 16 → Z.land (Z.lor (xlog_info r) flags) (Z.lnot XLR_INFO_MASK) = xlog_info r.
Proof.
  intros H. assert (flags ∈ Z.of_nat <$> seq 0 16) as Hf.
  { apply list_elem_of_fmap. exists (Z.to_nat flags). split; [lia|]. apply elem_of_seq. lia. }
  cbn [seq fmap list_fmap] in Hf. rewrite !elem_of_cons, elem_of_nil in Hf.
  destruct_or! Hf; try done; subst; by destruct r.
Qed.

Lemma redo_record_ok r flags w :
  XLogRecord_wf r → 0 <= flags < 16 →
  tdeheap_rmgr_redo (Z.lor (xlog_info r) flags) (xlog_data r) w = redo_record r w.
Proof.
  intros Hr Hf. unfold tdeheap_rmgr_redo. rewrite info_flags by done.
  destruct r; cbn [xlog_info xlog_data redo_record] in *; cbv zeta.
  - by rewrite RelFileLocator_decode_encode.
  - by rewrite SignedPKInfo_decode_encode.
  - by rewrite Rotate_decode_encode.
  - by rewrite RecordInFile_decode_encode.
  - by rewrite slice_u32.
  - by rewrite RelFileLocator_decode_encode.
  - by rewrite slice_u32.
Qed.

(** Replaying the bytes of a record, with whatever flags the server keeps
    in the low bits of the info byte, runs the operation of that record on the
    values it was written with; the record has a name of its own. *)
Theorem redo_runs_record r flags w :
  XLogRecord_wf r → 0 <= flags < 16 →
  tdeheap_rmgr_redo (Z.lor (xlog_info r) flags) (xlog_data r) w = redo_record r w ∧
  ∀ r', tdeheap_rmgr_identify (Z.lor (xlog_info r) flags) = tdeheap_rmgr_identify (xlog_info r') ↔
        xlog_info r = xlog_info r'.
Proof.
  intros Hr Hf. split; [by apply redo_record_ok|]. intros r'. unfold tdeheap_rmgr_identify.
  rewrite info_flags by done. by destruct r, r'.
Qed.

Lemma redo_all_cons r rs w :
  XLogRecord_wf r → redo_all (r :: rs) w = (redo_record r;; redo_all rs) w.
Proof.
  intros Hr. cbn [redo_all]. unfold mbind, M_bind.
  rewrite <-(redo_record_ok r 0 w Hr) by lia. by rewrite Z.lor_0_r.
Qed.

Lemma redo_all_app rs1 rs2 w : redo_all (rs1 ++ rs2) w = (redo_all rs1;; redo_all rs2) w.
Proof.
  revert w. induction rs1 as [|r rs1 IH]; intros w; [done|]. cbn [app redo_all]. rewrite bind_assoc.
  unfold mbind, M_bind. destruct (tdeheap_rmgr_redo _ _ w); [apply IH|done].
Qed.

End redo.

(** ** Key providers *)

Section catalog.
Context {SSL : OpenSSL} {K : Kernel} {NF : NoFaults K} {PP : PgPort} {J : JsonApi} {NK : NetworkKeyrings}.
Context {SV : Server} {NFi : NetworkFiles NK} {PKS : PrincipalKeys} {MD : Md}.
Implicit Types rs : list KeyringProviderRecord.

(** A step that returns has put one record and logged it; one that raises an
    error has done neither. *)
Definition logged {A} (db : Z) (m : M A) : Prop :=
  ∀ w rs, providers_rep w db rs →
  match m w with
  | Ok _ w' => ∃ i r, (i ≤ length rs)%nat ∧ ProviderRecord_wf r ∧
                 w_xlog w' = w_xlog w ++ [xlog_of db i r] ∧ providers_rep w' db (put_record i r rs)
  | Err _ w' => w_xlog w' = w_xlog w ∧ providers_rep w' db rs
  end.

Lemma logged_bind {A B} db (m : M A) (f : A → M B) :
  always grows m → always quiet m → (∀ a, logged db (f a)) → logged db (m ≫= f).
Proof.
  intros Hg Hq Hf w rs Hrep. specialize (Hg w). specialize (Hq w). unfold mbind, M_bind.
  destruct (m w) as [a w1|e w1]; unfold quiet in Hq.
  - specialize (Hf a w1 rs). rewrite Hq in Hf. apply Hf. by eapply grows_rep.
  - split; [done|]. by eapply grows_rep.
Qed.

Lemma logged_kept {A B} db (m : M A) (f : A → M B) :
  always kept m → (∀ a, logged db (f a)) → logged db (m ≫= f).
Proof. intros H. apply logged_bind; [by apply same_files_grows, kept_files|by apply kept_quiet]. Qed.

Lemma logged_found {A B} db (m : M A) (f : A → M B) :
  always kept m → (∀ w rs a w', providers_rep w db rs → m w = Ok a w' → logged db (f a)) → logged db (m ≫= f).
Proof.
  intros Hm Hf w rs Hrep. specialize (Hm w). unfold mbind, M_bind.
  destruct (m w) as [a w1|e w1] eqn:E; destruct Hm as [[Hm Hx] _].
  - specialize (Hf w rs a w1 Hrep E w1 rs). rewrite Hx in Hf. apply Hf. eapply providers_rep_files; [|done]. by rewrite Hm.
  - split; [done|]. eapply providers_rep_files; [|done]. by rewrite Hm.
Qed.

Lemma logged_err {A} db lvl msg : logged db (ereport (A := A) lvl msg).
Proof. by intros w rs Hrep. Qed.

Lemma quiet_validate kr : always quiet (KeyringValidate kr).
Proof.
  unfold KeyringValidate. destruct (find_key_provider_type _ _) as [kp|] eqn:E; [|always_solve].
  cbn in E. repeat case_match; simplify_eq/=;
    [|apply kept_quiet, kmip_validate_kept|apply kept_quiet, openbao_validate_kept].
  assert (∀ p, always quiet (OpenTransientFile p true false)).
  { intros path w. unfold OpenTransientFile. repeat case_match; simplify_eq; done. }
  unfold validate, kr_file_name, CloseTransientFile. always_solve.
Qed.

Lemma quiet_check r : always quiet (check_provider_record r).
Proof.
  pose proof quiet_validate.
  assert (∀ kr, always quiet (open_pg_tde_verify_provider_keys_in_use kr)) by (intros; apply kept_quiet, kept_verify).
  assert (∀ r, always quiet (load_keyring_provider_from_record r)) by (intros; apply kept_quiet, kept_load).
  unfold check_provider_record. always_solve.
Qed.

Lemma logged_save db r : ProviderRecord_wf r → logged db (save_new_checked r db).
Proof.
  intros Hr w rs Hrep. destruct (w_pi_lock w) as [lk|] eqn:El.
  { unfold save_new_checked. by rewrite (needs_pi_lock _ _ w lk El). }
  pose proof (save_new_checked_ok db rs r w Hrep El Hr) as H. cbv zeta in H.
  destruct (list_find _ rs) as [[i old]|]; [by rewrite H|].
  destruct (Z.eqb_spec (max_id rs) PG_INT32_MAX) as [Em|Em].
  { by destruct H as (e & w' & -> & Hrep' & Hx). }
  assert (ProviderRecord_wf (with_id (new_id db rs) r)).
  { pose proof (max_id_range rs) as Hm. unfold PG_INT32_MAX in Hm, Em. apply with_id_wf; [|done].
    unfold new_id. case_match; lia. }
  rewrite H. eexists _, _. split_and!; [done|done|done|by apply after_put_rep].
Qed.

Lemma logged_modify db r : ProviderRecord_wf r → logged db (modify_checked r db).
Proof.
  intros Hr w rs Hrep. destruct (w_pi_lock w) as [lk|] eqn:El.
  { unfold modify_checked. by rewrite (needs_pi_lock _ _ w lk El). }
  pose proof (modify_checked_ok db rs r w Hrep El Hr) as H.
  destruct (list_find _ rs) as [[i old]|] eqn:Ef; [|by destruct H as [e ->]].
  destruct (_ =? _); [|by rewrite H]. rewrite H. apply list_find_Some in Ef as (Hi%lookup_lt_Some & _).
  eexists _, _. split_and!; [|done|done|by apply after_put_rep]. lia.
Qed.

Lemma logged_delete db name : logged db (delete_key_provider_info name db).
Proof.
  intros w rs Hrep. destruct (w_pi_lock w) as [lk|] eqn:El.
  { unfold delete_key_provider_info. by rewrite (needs_pi_lock _ _ w lk El). }
  pose proof (delete_key_provider_info_ok db rs name w Hrep El) as H.
  destruct (list_find _ rs) as [[i old]|] eqn:Ef; [|by destruct H as [e ->]]. rewrite H.
  apply list_find_Some in Ef as (Hi & _).
  assert (ProviderRecord_wf (deleted_record (kpr_provider_id old)))
    by apply deleted_record_wf, (Forall_lookup_1 _ _ _ _ (proj1 Hrep) Hi).
  apply lookup_lt_Some in Hi. eexists _, _. split_and!; [|done|done|by apply after_put_rep]. lia.
Qed.

Lemma kept_superuser : always kept require_superuser.
Proof. unfold require_superuser. always_solve. Qed.

Lemma logged_required a (f : bytes → M unit) db :
  (∀ v, a = Some v → logged db (f (cstr v))) → logged db (required_text_argument a ≫= f).
Proof. intros H. destruct a as [v|]; [by apply H|]. by intros w rs Hrep. Qed.

Lemma run_call_logged db c : logged db (run_call db c).
Proof.
  destruct c as [t n o|t n o|n]; cbn [run_call].
  - unfold open_pg_tde_add_key_provider_internal, save_new_key_provider_info.
    apply logged_kept; [apply kept_superuser|]. intros _. do 3 (apply logged_required; intros ? ->). cbv zeta.
    repeat (case_match; [apply logged_err|]).
    apply logged_bind; [apply grows_check|apply quiet_check|]. intros _.
    by apply logged_save, call_record_wf.
  - unfold open_pg_tde_change_key_provider_internal, modify_key_provider_info.
    apply logged_kept; [apply kept_superuser|]. intros _. do 3 (apply logged_required; intros ? ->).
    apply logged_found; [apply kept_by_name|]. intros w rs kr w' Hrep Ek. apply (by_name_id db rs) in Ek; [|done].
    repeat (case_match; [apply logged_err|]).
    apply logged_bind; [apply grows_check|apply quiet_check|]. intros _. by apply logged_modify, call_record_wf.
  - unfold open_pg_tde_delete_key_provider_internal.
    apply logged_kept; [apply kept_superuser|]. intros _. apply logged_required. intros ? ->.
    apply logged_kept; [apply kept_by_name|]. intros kr. apply logged_kept; [apply kept_is_used|].
    intros []; [apply logged_err|apply logged_delete].
Qed.

(** Replay of one record. *)
Lemma redo_put db rs i r v :
  providers_rep v db rs → w_pi_lock v = None → (i ≤ length rs)%nat → ProviderRecord_wf r →
  redo_record (xlog_of db i r) v =
    Ok tt (set_fs (<[get_keyring_infofile_path db := rfile ProviderRecord_encode (put_record i r rs)]> (w_fs v)) v).
Proof.
  intros Hrep Hl Hi Hr. cbn [redo_record xlog_of]. unfold redo_key_provider_info.
  rewrite (bind_ok _ _ _ _ _ (acquire_pi_ok LW_EXCLUSIVE v Hl)).
  rewrite (bind_ok _ _ _ _ _ (write_provider_ok db rs i r false (set_pi_lock (Some LW_EXCLUSIVE) v) Hrep Hi Hr)).
  rewrite (release_pi_ok LW_EXCLUSIVE) by done. f_equal. rewrite app_nil_r. destruct v; simpl in *. by subst.
Qed.

(** C17: a standby's catalogue of key providers follows that of the primary.
    Whatever SQL functions the primary runs, with success or with an error of any
    kind except a failing system call on the catalogue's file, starting from the same
    records the replay of the WAL they wrote succeeds and ends with the same records
    as the primary; no other file of the standby changes. *)
Theorem standby_catalog_follows db cs w v rs :
  is_u32 db → providers_rep w db rs → providers_rep v db rs → w_pi_lock v = None →
  rpos (length rs + length cs) < 2 ^ 63 →
  ∃ recs rs' v', w_xlog (run_calls db cs w) = w_xlog w ++ recs ∧ redo_all recs v = Ok tt v' ∧
    providers_rep (run_calls db cs w) db rs' ∧ providers_rep v' db rs' ∧
    touches (get_keyring_infofile_path db) v v'.
Proof.
  intros Hdb. revert w v rs. induction cs as [|c cs IH]; intros w v rs Hw Hv Hl Hb.
  { exists [], rs, v. by rewrite app_nil_r. }
  cbn [run_calls length] in *. pose proof (run_call_logged db c w rs Hw) as H.
  destruct (run_call db c w) as [[] w1|e w1]; cbn [world_after].
  - destruct H as (i & r & Hi & Hr & Hx & Hw1).
    assert (length (put_record i r rs) ≤ S (length rs))%nat as Hlen.
    { unfold put_record. case_decide; rewrite ?length_insert, ?length_app; simpl; lia. }
    pose proof (redo_put db rs i r v Hv Hl Hi Hr) as Er. set (v1 := set_fs _ v) in Er.
    destruct (IH (end_transaction w1) v1 (put_record i r rs)) as (recs & rs' & v' & Hx' & Ev & Hw' & Hv' & Ht).
    { done. }
    { split; [apply Hw1|]. right. apply lookup_insert_eq. }
    { done. }
    { unfold rpos in *. lia. }
    exists (xlog_of db i r :: recs), rs', v'. split_and!; [|  |done|done|].
    + rewrite Hx'. cbn [end_transaction w_xlog set_enc_lock set_pi_lock]. rewrite Hx, <-app_assoc. done.
    + rewrite redo_all_cons; [by rewrite (bind_ok _ _ _ _ _ Er)|]. split_and!; cbn; [done|unfold rpos in *; lia..|done].
    + etrans; [|done]. intros q Hq. unfold v1. cbn. by rewrite lookup_insert_ne.
  - destruct H as [Hx Hw1]. destruct (IH (end_transaction w1) v rs) as (recs & rs' & v' & Hx' & ?); [done..| |].
    { unfold rpos in *. lia. }
    exists recs, rs', v'. split; [|done]. rewrite Hx'. cbn. by rewrite Hx.
Qed.

End catalog.

(** ** Keys of relations *)

Section relation_keys.
Context {SSL : OpenSSL} {Spec : OpenSSLSpec SSL} {RW : RandWorks SSL} {K : Kernel} {NF : NoFaults K}.
Context {PP : PgPort} {J : JsonApi} {NK : NetworkKeyrings} {SV : Server}.
Context {PKS : PrincipalKeys} {PKSp : PrincipalKeysSpec PKS} {MD : Md}.

(** A record about the key of a relation of the database. *)
Definition key_record (db : Z) (r : XLogRecord) : Prop :=
  match r with
  | XLOG_TDE_CREATE_RELATION_KEY rel => RelFileLocator_wf rel ∧ relNumber rel ≠ 0 ∧ dbOid rel = db
  | XLOG_TDE_DELETE_RELATION_KEY rel => RelFileLocator_wf rel ∧ dbOid rel = db
  | _ => False
  end.

(** Which relations have keys after a record. *)
Definition keyed_after (D : gset Loc) (r : XLogRecord) : gset Loc :=
  match r with
  | XLOG_TDE_CREATE_RELATION_KEY rel => {[rel_loc rel]} ∪ D
  | XLOG_TDE_DELETE_RELATION_KEY rel => D ∖ {[rel_loc rel]}
  | _ => D
  end.

Definition deletes (l : Loc) (r : XLogRecord) : Prop :=
  match r with XLOG_TDE_DELETE_RELATION_KEY rel => rel_loc rel = l | _ => False end.

Lemma key_record_wf db r : key_record db r → XLogRecord_wf r.
Proof. destruct r; try done; by intros []. Qed.

#[local] Instance only_file_preorder p : PreOrder (only_file p).
Proof.
  split.
  - intros w. exists (w_fs w), (w_rand w). split; [by destruct w|done].
  - intros w1 w2 w3 (f1 & r1 & -> & H1) (f2 & r2 & -> & H2). exists f2, r2. split; [done|].
    intros q Hq. rewrite H2 by done. by apply H1.
Qed.

Lemma redo_key_record db pk m r v :
  db_rep v db pk m → w_enc_lock v = None → settings_ok (w_session v) → key_record db r →
  ∃ m' v', redo_record r v = Ok tt v' ∧ db_rep v' db pk m' ∧ only_file (open_pg_tde_set_db_file_path db) v v' ∧
    dom m' = keyed_after (dom m) r ∧ ∀ l lk, m !! l = Some lk → ¬ deletes l r → m' !! l = Some lk.
Proof.
  intros Hrep Hlock Hs Hr. destruct r; try done; cbn [redo_record keyed_after].
  - destruct Hr as (Hwf & Hn & <-). unfold tde_smgr_create_key_redo.
    destruct (generated_xts v Hs) as (k & Ek & Hk & _).
    destruct (save_smgr_key_spec rlocator k false pk m (set_rand (S (S (w_rand v))) v)) as (v' & E & Hrep' & Ho); [done..|].
    exists (saved false (rel_loc rlocator) (lkey k) m), v'. split_and!; [|done| | |].
    + by rewrite <-bind_assoc, (bind_ok _ _ _ _ _ Ek).
    + etrans; [|exact Ho]. exists (w_fs v), (S (S (w_rand v))). split; [by destruct v|done].
    + unfold saved. destruct (m !! rel_loc rlocator) eqn:E'; [|apply dom_insert_L].
      apply elem_of_dom_2 in E'. set_solver.
    + intros l lk Hl _. unfold saved. destruct (m !! rel_loc rlocator) eqn:E'; [done|].
      by rewrite lookup_insert_ne by congruence.
  - destruct Hr as (Hwf & <-). unfold tde_smgr_delete_leftover_key_redo.
    destruct (free_key_map_entry_spec rlocator pk m v Hrep Hlock) as (v' & E & Hrep' & Ho).
    exists (delete (rel_loc rlocator) m), v'. split_and!; [done|done|done|apply dom_delete_L|].
    intros l lk Hl Hd. by rewrite lookup_delete_ne.
Qed.

(** Replay of records about the keys of relations succeeds and gives the
    standby keys for exactly the relations that have one on the primary: those
    it had or was told to create, less those it was told to delete since. A key
    that is not deleted is never replaced; only the key file of the database
    changes. *)
Theorem standby_relation_keys_follow db pk m recs v :
  db_rep v db pk m → w_enc_lock v = None → settings_ok (w_session v) → Forall (key_record db) recs →
  ∃ m' v', redo_all recs v = Ok tt v' ∧ db_rep v' db pk m' ∧ only_file (open_pg_tde_set_db_file_path db) v v' ∧
    dom m' = foldl keyed_after (dom m) recs ∧
    ∀ l lk, m !! l = Some lk → Forall (λ r, ¬ deletes l r) recs → m' !! l = Some lk.
Proof.
  intros Hrep Hlock Hs Hr. revert v m Hrep Hlock Hs. induction Hr as [|r recs Hr _ IH]; intros v m Hrep Hlock Hs.
  { exists m, v. split_and!; [done|done|reflexivity|done|done]. }
  destruct (redo_key_record db pk m r v) as (m1 & v1 & E1 & Hrep1 & Ho1 & Hd1 & Hk1); [done..|].
  destruct (IH v1 m1) as (m' & v' & E' & Hrep' & Ho' & Hd' & Hk'); [done| | |].
  { destruct Ho1 as (f & n & -> & _). done. }
  { destruct Ho1 as (f & n & -> & _). done. }
  exists m', v'. split_and!; [| |by etrans| |].
  - rewrite redo_all_cons by (by eapply key_record_wf). by rewrite (bind_ok _ _ _ _ _ E1).
  - done.
  - cbn [foldl]. by rewrite Hd', Hd1.
  - intros l lk Hl [Hn Hns]%Forall_cons. by apply Hk'; [apply Hk1|].
Qed.

End relation_keys.

(** ** What replay leaves out *)

Section server_key.
Context {SSL : OpenSSL} {K : Kernel} {NF : NoFaults K} {PP : PgPort} {J : JsonApi} {NK : NetworkKeyrings}.
Context {SV : Server} {PKS : PrincipalKeys}.

Lemma db_path_not_wal : open_pg_tde_set_db_file_path GLOBAL_DATA_TDE_OID ≠ get_wal_key_file_path.
Proof. vm_compute. discriminate. Qed.

(** Deleting the server key removes the WAL key file on the primary, but
    the replay of its record removes the file of a database with the server's
    id: the WAL key file of the standby stays. *)
Theorem server_key_delete_not_replayed w v bs :
  w_fs w !! get_wal_key_file_path = Some bs → w_fs v !! get_wal_key_file_path = Some bs → w_enc_lock v = None →
  ∃ w' v', open_pg_tde_delete_server_key w = Ok tt w' ∧
    w_xlog w' = w_xlog w ++ [XLOG_TDE_DELETE_PRINCIPAL_KEY GLOBAL_DATA_TDE_OID] ∧
    w_fs w' !! get_wal_key_file_path = None ∧
    redo_all [XLOG_TDE_DELETE_PRINCIPAL_KEY GLOBAL_DATA_TDE_OID] v = Ok tt v' ∧
    w_fs v' !! get_wal_key_file_path = Some bs.
Proof.
  intros Hw Hv Hl. set (r := XLOG_TDE_DELETE_PRINCIPAL_KEY GLOBAL_DATA_TDE_OID).
  set (w1 := set_xlog (w_xlog w ++ [r]) w).
  pose proof (unlink_ok get_wal_key_file_path true w1 bs Hw) as E.
  assert (∃ v', redo_record r v = Ok tt v' ∧ touches (open_pg_tde_set_db_file_path GLOBAL_DATA_TDE_OID) v v')
    as (v' & Ev & Ht).
  { unfold r. cbn [redo_record]. unfold open_pg_tde_delete_principal_key_redo.
    rewrite (bind_ok _ _ _ _ _ (acquire_enc_ok LW_EXCLUSIVE v Hl)).
    unfold durable_unlink. unfold mbind at 1, M_bind. rewrite no_fault.
    destruct (w_fs _ !! open_pg_tde_set_db_file_path _); (eexists; split; [reflexivity|]); intros q Hq; cbn; [|done].
    by rewrite lookup_delete_ne. }
  exists (set_fs (delete get_wal_key_file_path (w_fs w1)) w1), v'. split_and!; [exact E|done|apply lookup_delete_eq| |].
  - rewrite redo_all_cons by (unfold r; cbn [XLogRecord_wf]; unfold is_u32, GLOBAL_DATA_TDE_OID; lia).
    by rewrite (bind_ok _ _ _ _ _ Ev).
  - rewrite Ht; [done|]. intros E'. by apply db_path_not_wal.
Qed.

End server_key.

(** ** A standby with a key in its cache *)

#[local] Existing Instances ToyServer ToyMlock.
#[local] Remove Hints ToyPK : typeclass_instances.

(** A primary on which database 5 gets a provider, the principal key "k", which
    is deleted again, then the principal key "m" and a relation with a key. *)
Definition primary : World :=
  world_after ((
    run_call 5 (add_p "/keys" "p");;
    open_pg_tde_create_principal_key_internal 5 (Some (bytes_of "k")) (Some (bytes_of "p"));;
    open_pg_tde_create_principal_key_internal 5 (Some (bytes_of "m")) (Some (bytes_of "p"));;
    open_pg_tde_set_principal_key_internal 5 5 (Some (bytes_of "k")) (Some (bytes_of "p"));;
    open_pg_tde_delete_key;;
    open_pg_tde_set_principal_key_internal 5 5 (Some (bytes_of "m")) (Some (bytes_of "p"));;
    tde_smgr_create_key (mkRelFileLocatorBackend rel1 INVALID_PROC_NUMBER)) world0).

(** A standby that has the same file of keys replays its WAL; a query may fetch
    the principal key of the database after the second record. Then it is
    restarted with an empty cache, and the key of the relation is read. *)
Definition standby (query : bool) : Res (option InternalKey) :=
  (redo_all (take 2 (w_xlog primary));;
   (if query then
      LWLockAcquire_enc LW_SHARED;; backend_GetPrincipalKey 5 LW_SHARED;; LWLockRelease_enc
    else mret tt);;
   redo_all (drop 2 (w_xlog primary));;
   modify (set_pk_cache ∅);;
   open_pg_tde_get_smgr_key rel1)
  (set_fs {["/keys" := default [] (w_fs primary !! "/keys")]} world0).

Definition raised {A} (r : Res A) : option error := match r with Err e _ => Some e | Ok _ _ => None end.
Definition read_key {A} (r : Res (option A)) : bool := match r with Ok (Some _) _ => true | _ => false end.

(** The replay of the deletion of a principal key leaves the deleted key in
    the standby's cache. If a query had put it there, the keys of relations are
    from then on encrypted with the deleted key, although the file names its
    successor, and cannot be read after a restart; without the query they can. *)
Theorem replayed_delete_keeps_cached_key :
  raised (standby true) =
    Some (mkError ERROR "Failed to decrypt key, incorrect principal key or corrupted key file") ∧
  read_key (standby false) = true.
Proof. vm_compute. split; reflexivity. Qed.

(** ** Examples *)

Lemma redo_runs_record_witness :
  tdeheap_rmgr_redo (Z.lor (xlog_info (XLOG_TDE_CREATE_RELATION_KEY rel1)) 1)
    (xlog_data (XLOG_TDE_CREATE_RELATION_KEY rel1)) world0 = tde_smgr_create_key_redo rel1 world0.
Proof. exact (proj1 (redo_runs_record (XLOG_TDE_CREATE_RELATION_KEY rel1) 1 world0 rel1_wf ltac:(lia))). Defined.

Lemma standby_catalog_follows_witness : ∃ recs rs' v',
  w_xlog (run_calls 5 [add_p "/keys" "p"; CallDelete (Some (bytes_of "p"))] world0) = recs ∧
  redo_all recs world0 = Ok tt v' ∧ providers_rep v' 5 rs'.
Proof.
  destruct (standby_catalog_follows 5 [add_p "/keys" "p"; CallDelete (Some (bytes_of "p"))] world0 world0 [])
    as (recs & rs' & v' & Hx & Ev & _ & Hv & _); [unfold is_u32; lia|exact rep_world0|exact rep_world0|exact eq_refl
    |unfold rpos; cbn; lia|].
  exists recs, rs', v'. split; [exact Hx|]. split; [exact Ev|exact Hv].
Defined.

Lemma session0_ok : settings_ok session0.
Proof.
  split_and!; [apply list_elem_of_fmap; exists ("aes_128", CIPHER_AES_128)
    |apply list_elem_of_fmap; exists ("aes_xts", CIPHER_AES_128_XTS)|reflexivity]; (split; [reflexivity|]).
  all: apply (bool_decide_unpack _); vm_compute; exact I.
Qed.

Lemma standby_relation_keys_follow_witness : ∃ m' v',
  redo_all [XLOG_TDE_DELETE_RELATION_KEY rel1; XLOG_TDE_CREATE_RELATION_KEY rel2] world_key = Ok tt v' ∧
  db_rep v' 5 pk5 m' ∧ dom m' = {[rel_loc rel2]}.
Proof.
  destruct world_key_facts as (Hr & Hl & _).
  assert (w_session world_key = session0) as Es by (vm_compute; reflexivity).
  destruct (standby_relation_keys_follow 5 pk5 keys1
              [XLOG_TDE_DELETE_RELATION_KEY rel1; XLOG_TDE_CREATE_RELATION_KEY rel2] world_key)
    as (m' & v' & E & Hr' & _ & Hd & _); [exact Hr|exact Hl|rewrite Es; exact session0_ok| |].
  - repeat constructor; unfold is_u32; cbn; lia.
  - exists m', v'. split; [exact E|]. split; [exact Hr'|]. rewrite Hd. unfold keys1. vm_compute. reflexivity.
Defined.

(** A server with a WAL key file, whatever is in it. *)
Definition world_wal : World := set_fs {[get_wal_key_file_path := [x00]]} world0.

Lemma server_key_delete_not_replayed_witness : ∃ w' v',
  open_pg_tde_delete_server_key world_wal = Ok tt w' ∧ w_fs w' !! get_wal_key_file_path = None ∧
  redo_all [XLOG_TDE_DELETE_PRINCIPAL_KEY GLOBAL_DATA_TDE_OID] world_wal = Ok tt v' ∧
  w_fs v' !! get_wal_key_file_path = Some [x00].
Proof.
  destruct (server_key_delete_not_replayed world_wal world_wal [x00]) as (w' & v' & E & _ & Hw & Ev & Hv);
    [exact eq_refl|exact eq_refl|exact eq_refl|].
  exists w', v'. split; [exact E|]. split; [exact Hw|]. split; [exact Ev|exact Hv].
Defined.
