(* ===== verification/FileMap.v ===== *)
(** fetools/pg18/pg_rewind/datapagemap.c and filemap.c: the map of the changed
    pages of a file, and the map of the files of two clusters with the action
    that pg_rewind takes for each of them.

    Paths are relative to the data directory. The hash table of files is a finite
    map; its order is lost when the entries are sorted. [pg_fatal] is the left
    side of a sum. The paths of relations are made by [GetRelationPath] of
    PostgreSQL, the class [RelPath] with its format as laws. *)
From Stdlib Require Import Strings.Byte.
From stdpp Require Import sorting.
From S2P Require Import Prelude Types Environ EncTde.

(** ** datapagemap.c *)

(** [bitmap]; [bitmapsize] is its length. *)
Abbreviation datapagemap_t := bytes (only parsing).

Definition set_bit (b : byte) (bitno : Z) : byte := z2b (Z.lor (b2z b) (Z.shiftl 1 bitno)).
Definition get_bit (b : byte) (bitno : Z) : bool := negb (Z.land (b2z b) (Z.shiftl 1 bitno) =? 0).

Definition datapagemap_add (map : datapagemap_t) (blkno : Z) : datapagemap_t :=
  let offset := blkno / 8 in
  let bitno := blkno mod 8 in
  let oldsize := Z.of_nat (length map) in
  let map := if oldsize <=? offset then map ++ zeros (Z.to_nat (offset + 1 + 10 - oldsize)) else map in
  alter (λ b, set_bit b bitno) (Z.to_nat offset) map.

(** [datapagemap_next]: the block and the new [nextblkno]. *)
Fixpoint datapagemap_next (fuel : nat) (map : datapagemap_t) (nextblkno : Z) : option (Z * Z) :=
  match fuel with
  | O => None
  | S fuel =>
      match map !! Z.to_nat (nextblkno / 8) with
      | None => None
      | Some b =>
          if get_bit b (nextblkno mod 8) then Some (nextblkno, nextblkno + 1)
          else datapagemap_next fuel map (nextblkno + 1)
      end
  end.

(** More than the number of bits. *)
Definition map_fuel (map : datapagemap_t) : nat := S (8 * length map).

(** [while (datapagemap_next (iter, &blk))] *)
Fixpoint datapagemap_loop (fuel : nat) (map : datapagemap_t) (nextblkno : Z) : list Z :=
  match fuel with
  | O => []
  | S fuel =>
      match datapagemap_next (map_fuel map) map nextblkno with
      | Some (blk, nextblkno) => blk :: datapagemap_loop fuel map nextblkno
      | None => []
      end
  end.

Definition datapagemap_iterate (map : datapagemap_t) : list Z := datapagemap_loop (map_fuel map) map 0.

(** ** C strings *)

(** Only the sign of the result matters, which is that of the first difference. *)
Fixpoint strcmp (a b : bytes) : Z :=
  match a, b with
  | [], [] => 0
  | [], _ :: _ => -1
  | _ :: _, [] => 1
  | x :: a, y :: b => if b2z x =? b2z y then strcmp a b else b2z x - b2z y
  end.

Definition prefix_of (p s : bytes) : bool := bool_decide (take (length p) s = p).

(** [strncmp (a, b, n) == 0] *)
Definition strncmp_eq (a b : bytes) (n : nat) : bool := bool_decide (take n a = take n b).

(** [strstr (s, p) != NULL] *)
Fixpoint strstr (s p : bytes) : bool :=
  prefix_of p s || match s with [] => false | _ :: s => strstr s p end.

(** [pg_str_endswith (s, e)] *)
Definition pg_str_endswith (s e : bytes) : bool :=
  Nat.leb (length e) (length s) && bool_decide (drop (length s - length e) s = e).

(** What follows [last_dir_separator], or everything. *)
Definition file_name (path : bytes) : bytes :=
  foldl (λ name b, if bool_decide (b = x2f) then [] else name ++ [b]) [] path.

(** ** Scanning numbers *)

Definition is_digit (b : byte) : bool := (48 <=? b2z b) && (b2z b <=? 57).

(** [isspace] *)
Definition is_blank (b : byte) : bool := (b2z b =? 32) || ((9 <=? b2z b) && (b2z b <=? 13)).

Fixpoint skip_white (s : bytes) : bytes :=
  match s with
  | b :: s' => if is_blank b then skip_white s' else s
  | [] => []
  end.

(** The digits in front, as a number with those read before, and the rest. *)
Fixpoint read_digits (v : Z) (s : bytes) : Z * bytes :=
  match s with
  | b :: s' => if is_digit b then read_digits (v * 10 + (b2z b - 48)) s' else (v, s)
  | [] => (v, [])
  end.

(** [%u]: as [strtoul], then cut off to 32 bits. *)
Definition scan_u (s : bytes) : option (Z * bytes) :=
  let s := skip_white s in
  let '(neg, s) := match s with
                   | x2d :: s => (true, s)
                   | x2b :: s => (false, s)
                   | _ => (false, s)
                   end in
  match s with
  | b :: _ =>
      if is_digit b then
        let '(v, s) := read_digits 0 s in
        Some (if 2 ^ 64 <=? v then u32 (-1) else u32 (if neg : bool then - v else v), s)
      else None
  | [] => None
  end.

(** A directive of the format of [sscanf]. *)
Inductive directive := Lit (s : bytes) | Pu.

(** The values that were assigned. *)
Fixpoint sscanf (s : bytes) (format : list directive) : list Z :=
  match format with
  | [] => []
  | Lit l :: format => if prefix_of l s then sscanf (drop (length l) s) format else []
  | Pu :: format =>
      match scan_u s with
      | Some (v, s) => v :: sscanf s format
      | None => []
      end
  end.

(** ** Paths of relations *)

Class RelPath := {
  relpathperm : RelFileLocator → Z → string;
  TABLESPACE_VERSION_DIRECTORY : bytes;
}.

Definition GLOBALTABLESPACE_OID : Z := 1664.
Definition DEFAULTTABLESPACE_OID : Z := 1663.
Definition RELSEG_SIZE : Z := 131072.

Section paths.
Context {RP : RelPath}.

Definition slash : directive := Lit [x2f].
Definition dot : directive := Lit [x2e].

Definition path_rlocator (path : bytes) : option (RelFileLocator * Z) :=
  match sscanf path [Lit (bytes_of "global/"); Pu; dot; Pu] with
  | [rel] => Some (mkRelFileLocator GLOBALTABLESPACE_OID 0 rel, 0)
  | [rel; segNo] => Some (mkRelFileLocator GLOBALTABLESPACE_OID 0 rel, segNo)
  | _ =>
      match sscanf path [Lit (bytes_of "base/"); Pu; slash; Pu; dot; Pu] with
      | [db; rel] => Some (mkRelFileLocator DEFAULTTABLESPACE_OID db rel, 0)
      | [db; rel; segNo] => Some (mkRelFileLocator DEFAULTTABLESPACE_OID db rel, segNo)
      | _ =>
          match sscanf path [Lit (bytes_of "pg_tblspc/"); Pu; Lit (bytes_of "/" ++ TABLESPACE_VERSION_DIRECTORY ++ bytes_of "/");
                             Pu; slash; Pu; dot; Pu] with
          | [spc; db; rel] => Some (mkRelFileLocator spc db rel, 0)
          | [spc; db; rel; segNo] => Some (mkRelFileLocator spc db rel, segNo)
          | _ => None
          end
      end
  end.

Definition datasegpath (rlocator : RelFileLocator) (forknum segno : Z) : string :=
  let path := relpathperm rlocator forknum in
  if 0 <? segno then (path +:+ "." +:+ pretty (Z.to_N segno))%string else path.

Definition isRelDataFile (path : string) : bool :=
  match path_rlocator (bytes_of path) with
  | Some (rlocator, segNo) => bool_decide (datasegpath rlocator MAIN_FORKNUM segNo = path)
  | None => false
  end.

End paths.

(** ** The file map *)

Inductive file_type_t := FILE_TYPE_UNDEFINED | FILE_TYPE_REGULAR | FILE_TYPE_DIRECTORY | FILE_TYPE_SYMLINK.

Inductive file_action_t :=
| FILE_ACTION_UNDECIDED
| FILE_ACTION_CREATE
| FILE_ACTION_COPY
| FILE_ACTION_COPY_TAIL
| FILE_ACTION_NONE
| FILE_ACTION_TRUNCATE
| FILE_ACTION_REMOVE
| FILE_ACTION_ENSURE_TDE_KEY
| FILE_ACTION_ENSURE_WAL_SEG.

#[export] Instance file_type_eq_dec : EqDecision file_type_t.
Proof. solve_decision. Defined.

#[export] Instance file_action_eq_dec : EqDecision file_action_t.
Proof. solve_decision. Defined.

(** The values of the constants. *)
Definition action_no (a : file_action_t) : Z :=
  match a with
  | FILE_ACTION_UNDECIDED => 0
  | FILE_ACTION_CREATE => 1
  | FILE_ACTION_COPY => 2
  | FILE_ACTION_COPY_TAIL => 3
  | FILE_ACTION_NONE => 4
  | FILE_ACTION_TRUNCATE => 5
  | FILE_ACTION_REMOVE => 6
  | FILE_ACTION_ENSURE_TDE_KEY => 7
  | FILE_ACTION_ENSURE_WAL_SEG => 8
  end.

(** What is known about a file in one of the clusters. *)
Record file_side := mkFileSide {
  fs_type : file_type_t;
  fs_size : Z;
  fs_link_target : option string;
}.

(** [target_exists] is whether [fe_target] is there, likewise for the source. *)
Record file_entry_t := mkFileEntry {
  fe_path : string;
  isrelfile : bool;
  fe_target : option file_side;
  target_pages_to_overwrite : datapagemap_t;
  fe_source : option file_side;
  fe_action : file_action_t;
}.

Abbreviation filehash := (gmap string file_entry_t) (only parsing).

Section filemap.
Context {RP : RelPath}.

Definition new_entry (path : string) : file_entry_t :=
  mkFileEntry path (isRelDataFile path) None [] None FILE_ACTION_UNDECIDED.

Definition insert_filehash_entry (hash : filehash) (path : string) : file_entry_t :=
  default (new_entry path) (hash !! path).

Definition wal_dir_type (path : string) (type : file_type_t) : file_type_t :=
  if bool_decide (path = "pg_wal" ∧ type = FILE_TYPE_SYMLINK) then FILE_TYPE_DIRECTORY else type.

Definition process_source_file (hash : filehash) (path : string) (type : file_type_t) (size : Z)
    (link_target : option string) : string + filehash :=
  let type := wal_dir_type path type in
  if negb (bool_decide (type = FILE_TYPE_REGULAR)) && isRelDataFile path
  then inl "data file in source is not a regular file"%string
  else
    let entry := insert_filehash_entry hash path in
    if bool_decide (is_Some (fe_source entry)) then inl "duplicate source file"%string
    else inr (<[path := mkFileEntry path (isrelfile entry) (fe_target entry) (target_pages_to_overwrite entry)
                          (Some (mkFileSide type size link_target)) (fe_action entry)]> hash).

Definition process_target_file (hash : filehash) (path : string) (type : file_type_t) (size : Z)
    (link_target : option string) : string + filehash :=
  let type := wal_dir_type path type in
  let entry := insert_filehash_entry hash path in
  if bool_decide (is_Some (fe_target entry)) then inl "duplicate source file"%string
  else inr (<[path := mkFileEntry path (isrelfile entry) (Some (mkFileSide type size link_target))
                        (target_pages_to_overwrite entry) (fe_source entry) (fe_action entry)]> hash).

Definition with_pages (m : datapagemap_t) (e : file_entry_t) : file_entry_t :=
  mkFileEntry (fe_path e) (isrelfile e) (fe_target e) m (fe_source e) (fe_action e).

(** [rlocator], [forknum] and [blkno] of a block reference. The product is one
    of 32-bit unsigned numbers. *)
Definition process_target_wal_block_change (hash : filehash) (forknum : Z) (rlocator : RelFileLocator) (blkno : Z)
  : string + filehash :=
  let segno := blkno / RELSEG_SIZE in
  let blkno_inseg := blkno mod RELSEG_SIZE in
  let path := datasegpath rlocator forknum segno in
  match hash !! path with
  | None => inr hash
  | Some entry =>
      match fe_target entry with
      | None => inr hash
      | Some target =>
          if negb (bool_decide (fs_type target = FILE_TYPE_REGULAR))
          then inl "unexpected page modification for non-regular file"%string
          else
            match fe_source entry with
            | None => inr hash
            | Some source =>
                let end_offset := u32 ((blkno_inseg + 1) * BLCKSZ) in
                if (end_offset <=? fs_size source) && (end_offset <=? fs_size target)
                then inr (<[path := with_pages (datapagemap_add (target_pages_to_overwrite entry) blkno_inseg) entry]> hash)
                else inr hash
            end
      end
  end.

(** ** Decisions *)

Definition PG_TEMP_FILES_DIR : bytes := bytes_of "pgsql_tmp".
Definition PG_TEMP_FILE_PREFIX : bytes := bytes_of "pgsql_tmp".

Definition excludeDirContents : list bytes :=
  bytes_of <$> ["pg_stat_tmp"; "pg_replslot"; "pg_dynshmem"; "pg_notify"; "pg_serial"; "pg_snapshots"; "pg_subtrans"]%string.

(** The name, and whether it is a prefix. *)
Definition excludeFiles : list (bytes * bool) :=
  prod_map bytes_of id <$>
    [("postgresql.auto.conf.tmp", false); ("current_logfiles.tmp", false); ("pg_internal.init", true);
     ("backup_label", false); ("tablespace_map", false); ("backup_manifest", false);
     ("postmaster.pid", false); ("postmaster.opts", false)]%string.

(** Without [match_prefix] the final zero is compared as well. *)
Definition excluded_name (filename : bytes) (item : bytes * bool) : bool :=
  if item.2 then prefix_of item.1 filename else bool_decide (filename = item.1).

Definition check_file_excluded (path : bytes) : bool :=
  strstr path ([x2f] ++ PG_TEMP_FILE_PREFIX) || strstr path ([x2f] ++ PG_TEMP_FILES_DIR ++ [x2f]) ||
  existsb (excluded_name (file_name path)) excludeFiles ||
  existsb (λ dir, prefix_of (dir ++ [x2f]) path) excludeDirContents.

Definition XLOG_CONTROL_FILE : bytes := bytes_of "global/pg_control".

Definition decide_file_action (keepwal : gset string) (entry : file_entry_t) : string + file_action_t :=
  let path := bytes_of (fe_path entry) in
  if bool_decide (path = XLOG_CONTROL_FILE) then inr FILE_ACTION_NONE
  else if strstr path (bytes_of ".DS_Store") then inr FILE_ACTION_NONE
  else if strncmp_eq path (bytes_of "open_pg_tde/") 7 then inr FILE_ACTION_NONE
  else if check_file_excluded path then
    match fe_target entry with
    | Some _ => inr FILE_ACTION_REMOVE
    | None => inr FILE_ACTION_NONE
    end
  else
    match fe_target entry, fe_source entry with
    | None, Some source =>
        match fs_type source with
        | FILE_TYPE_DIRECTORY | FILE_TYPE_SYMLINK => inr FILE_ACTION_CREATE
        | FILE_TYPE_REGULAR => inr FILE_ACTION_COPY
        | FILE_TYPE_UNDEFINED => inl "unknown file type"%string
        end
    | Some _, None =>
        if bool_decide (fe_path entry ∈ keepwal) then inr FILE_ACTION_ENSURE_WAL_SEG else inr FILE_ACTION_REMOVE
    | None, None => inr FILE_ACTION_NONE
    | Some target, Some source =>
        if negb (bool_decide (fs_type source = fs_type target))
        then inl "file is of different type in source and target"%string
        else if pg_str_endswith path (bytes_of "PG_VERSION") then inr FILE_ACTION_NONE
        else
          match fs_type source with
          | FILE_TYPE_DIRECTORY | FILE_TYPE_SYMLINK => inr FILE_ACTION_NONE
          | FILE_TYPE_REGULAR =>
              if negb (isrelfile entry) then inr FILE_ACTION_COPY
              else if fs_size target <? fs_size source then inr FILE_ACTION_COPY_TAIL
              else if fs_size source <? fs_size target then inr FILE_ACTION_TRUNCATE
              else inr FILE_ACTION_ENSURE_TDE_KEY
          | FILE_TYPE_UNDEFINED => inl "unknown file type"%string
          end
    end.

Definition final_filemap_cmp (fa fb : file_entry_t) : Z :=
  if action_no (fe_action fb) <? action_no (fe_action fa) then 1
  else if action_no (fe_action fa) <? action_no (fe_action fb) then -1
  else if bool_decide (fe_action fa = FILE_ACTION_REMOVE) then strcmp (bytes_of (fe_path fb)) (bytes_of (fe_path fa))
  else strcmp (bytes_of (fe_path fa)) (bytes_of (fe_path fb)).

Definition filemap_le (fa fb : file_entry_t) : Prop := final_filemap_cmp fa fb <= 0.

#[export] Instance filemap_le_dec fa fb : Decision (filemap_le fa fb) := Z_le_dec _ _.

Definition with_action (a : file_action_t) (e : file_entry_t) : file_entry_t :=
  mkFileEntry (fe_path e) (isrelfile e) (fe_target e) (target_pages_to_overwrite e) (fe_source e) a.

(** The first failure stops the program. *)
Fixpoint decide_all (keepwal : gset string) (es : list file_entry_t) : string + list file_entry_t :=
  match es with
  | [] => inr []
  | e :: es =>
      match decide_file_action keepwal e, decide_all keepwal es with
      | inr a, inr es => inr (with_action a e :: es)
      | inl msg, _ | _, inl msg => inl msg
      end
  end.

(** [qsort] with a comparison that is a total order on the entries. *)
Definition decide_file_actions (keepwal : gset string) (hash : filehash) : string + list file_entry_t :=
  match decide_all keepwal (snd <$> map_to_list hash) with
  | inr es => inr (merge_sort filemap_le es)
  | inl msg => inl msg
  end.

(** [filemap->fetch_size] and [filemap->total_size] *)
Definition entry_sizes (e : file_entry_t) : Z * Z :=
  match fe_source e with
  | Some source =>
      if bool_decide (fs_type source = FILE_TYPE_REGULAR) then
        (if bool_decide (fe_action e = FILE_ACTION_COPY) then fs_size source
         else
           (if bool_decide (fe_action e = FILE_ACTION_COPY_TAIL)
            then u64 (fs_size source - default 0 (fs_size <$> fe_target e)) else 0) +
           BLCKSZ * Z.of_nat (length (datapagemap_iterate (target_pages_to_overwrite e))),
         fs_size source)
      else (0, 0)
  | None => (0, 0)
  end.

Definition calculate_totals (filemap : list file_entry_t) : Z * Z :=
  foldl (λ t e, (u64 (t.1 + (entry_sizes e).1), u64 (t.2 + (entry_sizes e).2))) (0, 0) filemap.

End filemap.
