(* ===== verification/FileMapThms.v ===== *)
(** What the map of pages and the map of files of pg_rewind contain: the pages
    that were recorded, each once and in order; exactly the changed pages that
    both clusters have; actions in an order in which directories exist as long as
    their contents do; and as relation files exactly the segments of main forks. *)
From Stdlib Require Import Strings.Byte.
From stdpp Require Import sorting.
From S2P Require Import Prelude Types Environ EncTde FileMap.

Lemma byte_bits b j : 8 <= j → Z.testbit (b2z b) j = false.
Proof.
  intros Hj. pose proof (b2z_range b). replace (b2z b) with (b2z b mod 2 ^ 8) by (apply Z.mod_small; lia).
  by apply Z.mod_pow2_bits_high.
Qed.

Lemma get_bit_testbit b j : 0 <= j → get_bit b j = Z.testbit (b2z b) j.
Proof.
  intros Hj. unfold get_bit. rewrite Z.shiftl_1_l. destruct (Z.testbit (b2z b) j) eqn:E.
  - assert (Z.land (b2z b) (2 ^ j) ≠ 0); [|by rewrite (proj2 (Z.eqb_neq _ _))].
    intros H0. apply (f_equal (λ z, Z.testbit z j)) in H0. by rewrite Z.land_spec, E, Z.pow2_bits_true, Z.bits_0 in H0.
  - replace (Z.land (b2z b) (2 ^ j)) with 0; [done|]. symmetry. apply Z.bits_inj'. intros k Hk.
    rewrite Z.land_spec, Z.pow2_bits_eqb, Z.bits_0 by done. destruct (Z.eqb_spec j k) as [<-|]; [by rewrite E|apply andb_false_r].
Qed.

Lemma get_set_bit b i j : 0 <= i < 8 → 0 <= j < 8 → get_bit (set_bit b i) j = (i =? j) || get_bit b j.
Proof.
  intros Hi Hj. rewrite !get_bit_testbit by lia. unfold set_bit. rewrite b2z_z2b. change 256 with (2 ^ 8). rewrite Z.mod_pow2_bits_low by lia.
  rewrite Z.lor_spec, Z.shiftl_1_l, Z.pow2_bits_eqb by lia. apply orb_comm.
Qed.

(** ** The map of pages *)

Definition has_block (map : datapagemap_t) (blk : Z) : bool :=
  match map !! Z.to_nat (blk / 8) with
  | Some b => get_bit b (blk mod 8)
  | None => false
  end.

Lemma get_bit_zero j : get_bit x00 j = false.
Proof. done. Qed.

Lemma has_block_grow map n blk : has_block (map ++ zeros n) blk = has_block map blk.
Proof.
  unfold has_block. destruct (decide (Z.to_nat (blk / 8) < length map)%nat).
  - by rewrite lookup_app_l.
  - rewrite (lookup_ge_None_2 map) by lia. rewrite lookup_app_r by lia. unfold zeros.
    destruct (replicate n x00 !! _) as [b|] eqn:E; [|done]. apply lookup_replicate in E as [-> _]. done.
Qed.

Lemma add_block map b blk :
  0 <= b → 0 <= blk → has_block (datapagemap_add map b) blk = (b =? blk) || has_block map blk.
Proof.
  intros Hb Hk. unfold datapagemap_add. cbv zeta. assert (0 <= b / 8 ∧ 0 <= blk / 8) by (split; apply Z.div_pos; lia). set (map' := if _ : bool then _ else map).
  assert (has_block map blk = has_block map' blk) as ->.
  { unfold map'. destruct (_ <=? _); [by rewrite has_block_grow|done]. }
  assert (is_Some (map' !! Z.to_nat (b / 8))) as [x Hx].
  { apply lookup_lt_is_Some_2. unfold map'. destruct (Z.leb_spec (Z.of_nat (length map)) (b / 8)); [|lia].
    rewrite length_app, zeros_length. lia. }
  unfold has_block. pose proof (Z.mod_pos_bound b 8). pose proof (Z.mod_pos_bound blk 8).
  pose proof (Z.div_mod b 8). pose proof (Z.div_mod blk 8).
  destruct (decide (b / 8 = blk / 8)) as [E|E].
  - rewrite <-E, list_lookup_alter_eq, Hx. cbn. rewrite get_set_bit by lia.
    f_equal. destruct (Z.eqb_spec (b mod 8) (blk mod 8)), (Z.eqb_spec b blk); lia.
  - rewrite list_lookup_alter_ne by lia. destruct (Z.eqb_spec b blk) as [->|]; [done|]. done.
Qed.

(** The blocks from [n] on. *)
Definition blocks_from (map : datapagemap_t) (n : Z) : list Z :=
  filter (λ b, has_block map b = true) (seqZ n (8 * Z.of_nat (length map) - n)).

Lemma blocks_from_cons map n :
  n < 8 * Z.of_nat (length map) →
  blocks_from map n = if has_block map n then n :: blocks_from map (n + 1) else blocks_from map (n + 1).
Proof.
  intros Hn. unfold blocks_from. rewrite seqZ_cons by lia. rewrite filter_cons.
  replace (Z.pred (8 * Z.of_nat (length map) - n)) with (8 * Z.of_nat (length map) - (n + 1)) by lia.
  replace (Z.succ n) with (n + 1) by lia. destruct (has_block map n); case_decide; done.
Qed.

Lemma blocks_from_end map n : 8 * Z.of_nat (length map) <= n → blocks_from map n = [].
Proof. intros Hn. unfold blocks_from. by rewrite seqZ_nil by lia. Qed.

Lemma next_block fuel map : ∀ n,
  0 <= n → (8 * length map - Z.to_nat n < fuel)%nat →
  datapagemap_next fuel map n =
    match blocks_from map n with
    | b :: _ => Some (b, b + 1)
    | [] => None
    end.
Proof.
  induction fuel as [|fuel IH]; intros n Hn Hf; [lia|]. cbn [datapagemap_next].
  pose proof (Z.div_mod n 8). pose proof (Z.mod_pos_bound n 8).
  destruct (map !! Z.to_nat (n / 8)) as [b|] eqn:E.
  - apply lookup_lt_Some in E as Hlt. rewrite blocks_from_cons by lia. unfold has_block. rewrite E.
    destruct (get_bit b (n mod 8)); [done|]. apply IH; lia.
  - apply lookup_ge_None_1 in E. by rewrite blocks_from_end by lia.
Qed.

Lemma blocks_from_head map n b bs :
  0 <= n → blocks_from map n = b :: bs → n <= b ∧ b < 8 * Z.of_nat (length map) ∧ bs = blocks_from map (b + 1).
Proof.
  remember (Z.to_nat (8 * Z.of_nat (length map) - n)) as k eqn:Hk. revert n Hk.
  induction k as [|k IH]; intros n Hk Hn E.
  { rewrite blocks_from_end in E by lia. done. }
  rewrite blocks_from_cons in E by lia. destruct (has_block map n).
  - injection E as <- <-. split_and!; [lia|lia|done].
  - apply IH in E as (? & ? & ?); lia || split_and!; (done || lia).
Qed.

Lemma loop_blocks fuel map : ∀ n,
  0 <= n → (8 * length map - Z.to_nat n < fuel)%nat → datapagemap_loop fuel map n = blocks_from map n.
Proof.
  induction fuel as [|fuel IH]; intros n Hn Hf; [lia|]. cbn [datapagemap_loop].
  rewrite next_block by (unfold map_fuel; lia). destruct (blocks_from map n) as [|b bs] eqn:E; [done|].
  apply blocks_from_head in E as (? & ? & ->); [|done]. f_equal. apply IH; lia.
Qed.

Lemma iterate_blocks map : datapagemap_iterate map = blocks_from map 0.
Proof. apply loop_blocks; [lia|unfold map_fuel; lia]. Qed.

Lemma has_block_bound map b : has_block map b = true → 0 <= b → b < 8 * Z.of_nat (length map).
Proof.
  unfold has_block. destruct (map !! _) as [x|] eqn:E; [|done]. apply lookup_lt_Some in E. intros _ Hb.
  pose proof (Z.div_mod b 8). pose proof (Z.mod_pos_bound b 8). assert (0 <= b / 8) by (apply Z.div_pos; lia). lia.
Qed.

Lemma elem_of_iterate map b : b ∈ datapagemap_iterate map ↔ 0 <= b ∧ has_block map b = true.
Proof.
  rewrite iterate_blocks. unfold blocks_from. rewrite list_elem_of_filter, elem_of_seqZ. split; [intuition lia|].
  intros [Hb H]. pose proof (has_block_bound _ _ H Hb). split; [done|lia].
Qed.

Lemma seqZ_sorted n k : StronglySorted Z.lt (seqZ n k).
Proof.
  unfold seqZ. generalize (Z.to_nat k) as m, 0%nat as s. induction m as [|m IH]; intros s; cbn; constructor; [apply IH|].
  apply Forall_fmap, Forall_forall. intros x Hx%elem_of_seq. cbn. lia.
Qed.

Lemma StronglySorted_filter {A} (R : relation A) (P : A → Prop) `{∀ x, Decision (P x)} l :
  StronglySorted R l → StronglySorted R (filter P l).
Proof.
  induction 1 as [|x l Hs IH Hx]; [constructor|]. rewrite filter_cons. case_decide; [|done]. constructor; [done|].
  apply Forall_forall. intros y [_ Hy]%list_elem_of_filter. by eapply Forall_forall in Hx.
Qed.

Lemma iterate_sorted map : StronglySorted Z.lt (datapagemap_iterate map).
Proof. rewrite iterate_blocks. apply StronglySorted_filter, seqZ_sorted. Qed.

Lemma added_blocks bs : ∀ map b,
  Forall (Z.le 0) bs → 0 <= b → has_block (foldl datapagemap_add map bs) b = bool_decide (b ∈ bs) || has_block map b.
Proof.
  induction bs as [|x bs IH]; intros map b Hbs Hb; [done|]. apply Forall_cons in Hbs as [Hx Hbs]. cbn [foldl].
  rewrite IH, add_block by done. destruct (Z.eqb_spec x b) as [->|Hne].
  - cbn. rewrite orb_true_r, bool_decide_eq_true_2; [done|left].
  - cbn. f_equal. apply bool_decide_ext. rewrite elem_of_cons. naive_solver.
Qed.

(** Iterating gives each recorded page once, in increasing order. *)
Lemma page_blocks bs :
  Forall (Z.le 0) bs →
  let l := datapagemap_iterate (foldl datapagemap_add [] bs) in
  (∀ b, b ∈ l ↔ b ∈ bs) ∧ StronglySorted Z.lt l.
Proof.
  intros Hbs. split; [|apply iterate_sorted]. intros b. rewrite elem_of_iterate. split.
  - intros [Hb H]. rewrite added_blocks in H by done. apply orb_true_iff in H as [H|H]; [by apply bool_decide_eq_true in H|done].
  - intros Hin. assert (0 <= b) by (by eapply Forall_forall in Hbs). split; [done|]. rewrite added_blocks by done.
    by rewrite bool_decide_eq_true_2.
Qed.

(** ** Recording changes *)

Section changes.
Context {RP : RelPath}.

(** Fork, relation and block of a reference in the WAL of the target. *)
Definition block_ref : Type := Z * RelFileLocator * Z.

Fixpoint process_changes (hash : filehash) (cs : list block_ref) : string + filehash :=
  match cs with
  | [] => inr hash
  | (fork, rl, blkno) :: cs =>
      match process_target_wal_block_change hash fork rl blkno with
      | inr hash => process_changes hash cs
      | inl msg => inl msg
      end
  end.

(** The block is in the file, and in both versions of it. *)
Definition hits (path : string) (e : file_entry_t) (c : block_ref) : bool :=
  let '(fork, rl, blkno) := c in
  bool_decide (datasegpath rl fork (blkno / RELSEG_SIZE) = path) &&
  match fe_source e, fe_target e with
  | Some s, Some t =>
      ((blkno mod RELSEG_SIZE + 1) * BLCKSZ <=? fs_size s) && ((blkno mod RELSEG_SIZE + 1) * BLCKSZ <=? fs_size t)
  | _, _ => false
  end.

Definition in_segment (c : block_ref) : Z := c.2 mod RELSEG_SIZE.

(** The entry with its changed pages. *)
Definition recorded (cs : list block_ref) (path : string) (e : file_entry_t) : file_entry_t :=
  with_pages (foldl datapagemap_add (target_pages_to_overwrite e) (in_segment <$> filter (λ c, hits path e c = true) cs)) e.

(** The reference is to something that is not a regular file of the target. *)
Definition refers_irregular (hash : filehash) (c : block_ref) : Prop :=
  ∃ e t, hash !! datasegpath c.1.2 c.1.1 (c.2 / RELSEG_SIZE) = Some e ∧ fe_target e = Some t ∧ fs_type t ≠ FILE_TYPE_REGULAR.

Lemma one_change hash fork rl blkno :
  0 <= blkno →
  match process_target_wal_block_change hash fork rl blkno with
  | inr hash' => hash' = map_imap (λ p e, Some (recorded [(fork, rl, blkno)] p e)) hash
  | inl _ => refers_irregular hash (fork, rl, blkno)
  end.
Proof.
  intros Hb. unfold process_target_wal_block_change. set (path := datasegpath rl fork _).
  pose proof (Z.mod_pos_bound blkno RELSEG_SIZE ltac:(done)) as Hm.
  assert (u32 ((blkno mod RELSEG_SIZE + 1) * BLCKSZ) = (blkno mod RELSEG_SIZE + 1) * BLCKSZ) as Hu.
  { unfold u32. apply Z.mod_small. unfold RELSEG_SIZE, BLCKSZ in *. lia. }
  assert (∀ e, hits path e (fork, rl, blkno) = false → recorded [(fork, rl, blkno)] path e = e) as Hmiss.
  { intros e He. unfold recorded. rewrite filter_cons, decide_False by (by rewrite He). by destruct e. }
  assert (∀ p e, p ≠ path → recorded [(fork, rl, blkno)] p e = e) as Hother.
  { intros p e Hp. unfold recorded. rewrite filter_cons, decide_False; [by destruct e|].
    unfold hits. fold path. by rewrite bool_decide_eq_false_2. }
  assert (∀ e, hash !! path = Some e → hits path e (fork, rl, blkno) = false →
    hash = map_imap (λ p e, Some (recorded [(fork, rl, blkno)] p e)) hash) as Hsame.
  { intros e He Hh. apply map_eq. intros p. rewrite map_lookup_imap. destruct (hash !! p) as [e'|] eqn:E'; [|done]. cbn. f_equal.
    destruct (decide (p = path)) as [->|]; [|by rewrite Hother]. simplify_eq. by rewrite Hmiss. }
  destruct (hash !! path) as [e|] eqn:E.
  2: { apply map_eq. intros p. rewrite map_lookup_imap. destruct (hash !! p) as [e'|] eqn:E'; [|done]. cbn. f_equal.
       rewrite Hother; [done|]. intros ->. congruence. }
  assert (hits path e (fork, rl, blkno) = match fe_source e, fe_target e with
            | Some s, Some t => ((blkno mod RELSEG_SIZE + 1) * BLCKSZ <=? fs_size s) && ((blkno mod RELSEG_SIZE + 1) * BLCKSZ <=? fs_size t)
            | _, _ => false end) as Hh.
  { unfold hits. fold path. by rewrite bool_decide_eq_true_2. }
  destruct (fe_target e) as [t|] eqn:Et.
  2: { apply (Hsame e); [done|]. rewrite Hh. by destruct (fe_source e). }
  destruct (bool_decide_reflect (fs_type t = FILE_TYPE_REGULAR)) as [_|Hreg]; cbn [negb]; [|by exists e, t].
  destruct (fe_source e) as [s|] eqn:Es; [|by apply (Hsame e)]. rewrite Hu.
  destruct (_ && _) eqn:Efit; [|by apply (Hsame e)]. apply map_eq. intros p.
  rewrite map_lookup_imap. destruct (decide (p = path)) as [->|Hp].
  - rewrite lookup_insert_eq, E. cbn. f_equal. unfold recorded. rewrite filter_cons, decide_True by done. done.
  - rewrite lookup_insert_ne by done. destruct (hash !! p) as [e'|]; [|done]. cbn. by rewrite Hother.
Qed.

Lemma recorded_app cs cs' p e : recorded cs' p (recorded cs p e) = recorded (cs ++ cs') p e.
Proof.
  unfold recorded. rewrite filter_app, fmap_app, foldl_app. destruct e. done.
Qed.

Lemma irregular_recorded hash cs c :
  refers_irregular (map_imap (λ p e, Some (recorded cs p e)) hash) c → refers_irregular hash c.
Proof.
  intros (e & t & H & Ht & Hr). rewrite map_lookup_imap in H. unfold refers_irregular.
  destruct (hash !! _) as [e'|]; [|done]. cbn in H. injection H as <-. by exists e', t.
Qed.

Lemma all_changes cs : ∀ hash,
  Forall (λ c, 0 <= c.2) cs →
  match process_changes hash cs with
  | inr hash' => hash' = map_imap (λ p e, Some (recorded cs p e)) hash
  | inl _ => Exists (refers_irregular hash) cs
  end.
Proof.
  induction cs as [|[[fork rl] blkno] cs IH]; intros hash Hcs; cbn [process_changes].
  - apply map_eq. intros p. rewrite map_lookup_imap. destruct (hash !! p) as [[]|]; done.
  - apply Forall_cons in Hcs as [Hb Hcs]. pose proof (one_change hash fork rl blkno Hb) as H1.
    destruct (process_target_wal_block_change hash fork rl blkno) as [msg|hash1]; [by left|]. subst hash1.
    specialize (IH (map_imap (λ p e, Some (recorded [(fork, rl, blkno)] p e)) hash) Hcs).
    destruct (process_changes _ cs) as [msg|hash2].
    + right. eapply Exists_impl; [exact IH|]. intros c. apply irregular_recorded.
    + rewrite IH. apply map_eq. intros p. rewrite !map_lookup_imap. destruct (hash !! p) as [e|]; [|done]. cbn.
      by rewrite recorded_app.
Qed.

(** C38: after the WAL of the target was read, the pages to overwrite of a file
    are exactly the blocks of it that were changed and that both versions of the
    file still have, each once and in increasing order; nothing else about the
    files changed. Reading fails only if a changed block belongs to something that
    is not a regular file of the target. *)
Theorem changed_pages_recorded hash cs :
  (∀ p e, hash !! p = Some e → target_pages_to_overwrite e = []) → Forall (λ c, 0 <= c.2) cs →
  match process_changes hash cs with
  | inl _ => Exists (refers_irregular hash) cs
  | inr hash' =>
      dom hash' = dom hash ∧
      ∀ p e, hash !! p = Some e → ∃ m, hash' !! p = Some (with_pages m e) ∧ StronglySorted Z.lt (datapagemap_iterate m) ∧
        ∀ b, b ∈ datapagemap_iterate m ↔ ∃ fork rl blkno s t,
          (fork, rl, blkno) ∈ cs ∧ datasegpath rl fork (blkno / RELSEG_SIZE) = p ∧ b = blkno mod RELSEG_SIZE ∧
          fe_source e = Some s ∧ fe_target e = Some t ∧ (b + 1) * BLCKSZ <= fs_size s ∧ (b + 1) * BLCKSZ <= fs_size t
  end.
Proof.
  intros Hnew Hcs. pose proof (all_changes cs hash Hcs) as Hall. destruct (process_changes hash cs) as [msg|hash']; [done|]. subst hash'. split.
  { apply set_eq. intros p. rewrite !elem_of_dom, map_lookup_imap. by destruct (hash !! p). }
  intros p e He. rewrite map_lookup_imap, He. cbn. unfold recorded. eexists. split; [done|]. split; [apply iterate_sorted|].
  rewrite (Hnew p e He). set (bs := in_segment <$> _). intros b.
  assert (Forall (Z.le 0) bs) as Hbs.
  { apply Forall_fmap, Forall_forall. intros c _. cbn. apply Z.mod_pos_bound. done. }
  destruct (page_blocks bs Hbs) as [Hin _]. rewrite Hin. unfold bs. rewrite list_elem_of_fmap. split.
  - intros ([[fork rl] blkno] & -> & [Hh Hc]%list_elem_of_filter). unfold hits in Hh. apply andb_true_iff in Hh as [Hp Hh].
    apply bool_decide_eq_true in Hp. destruct (fe_source e) as [s|], (fe_target e) as [t|]; try done.
    apply andb_true_iff in Hh as [H1%Z.leb_le H2%Z.leb_le]. exists fork, rl, blkno, s, t. split_and!; done.
  - intros (fork & rl & blkno & s & t & Hc & Hp & -> & Hs & Ht & H1 & H2). exists (fork, rl, blkno). split; [done|].
    apply list_elem_of_filter. split; [|done]. unfold hits. rewrite Hs, Ht, bool_decide_eq_true_2 by done.
    apply andb_true_iff. split; [done|]. apply andb_true_iff. split; by apply Z.leb_le.
Qed.

End changes.

Lemma bytes_of_app (s t : string) : bytes_of (s +:+ t) = bytes_of s ++ bytes_of t.
Proof. unfold bytes_of. induction s as [|a s IH]; [done|]. exact (f_equal (cons (Ascii.byte_of_ascii a)) IH). Qed.

Lemma bytes_of_inj s t : bytes_of s = bytes_of t → s = t.
Proof.
  intros Hst. rewrite <-(String.string_of_list_byte_of_string s), <-(String.string_of_list_byte_of_string t).
  by apply (f_equal String.string_of_list_byte) in Hst.
Qed.

(** ** The order of the actions *)

Lemma strcmp_opp a : ∀ b, strcmp b a = - strcmp a b.
Proof.
  induction a as [|x a IH]; intros [|y b]; cbn [strcmp]; try lia.
  rewrite (Z.eqb_sym (b2z y)). destruct (Z.eqb_spec (b2z x) (b2z y)); [apply IH|lia].
Qed.

Lemma strcmp_zero a : ∀ b, strcmp a b = 0 → a = b.
Proof.
  induction a as [|x a IH]; intros [|y b] E; cbn [strcmp] in E; try lia; [done|].
  destruct (Z.eqb_spec (b2z x) (b2z y)) as [Hx|]; [|lia]. apply b2z_inj in Hx as ->. f_equal. by apply IH.
Qed.

Lemma strcmp_trans a : ∀ b c, strcmp a b <= 0 → strcmp b c <= 0 → strcmp a c <= 0.
Proof.
  induction a as [|x a IH]; intros [|y b] [|z c]; cbn [strcmp]; try lia.
  destruct (Z.eqb_spec (b2z x) (b2z y)), (Z.eqb_spec (b2z y) (b2z z)), (Z.eqb_spec (b2z x) (b2z z)); try lia. apply IH.
Qed.

Lemma strcmp_below a b s : strcmp a (a ++ b :: s) < 0.
Proof. induction a as [|x a IH]; cbn [strcmp app]; [lia|]. by rewrite Z.eqb_refl. Qed.

Lemma action_no_inj a b : action_no a = action_no b → a = b.
Proof. by destruct a, b. Qed.

Lemma cmp_opp fa fb : final_filemap_cmp fb fa = - final_filemap_cmp fa fb.
Proof.
  unfold final_filemap_cmp. destruct (Z.ltb_spec (action_no (fe_action fb)) (action_no (fe_action fa))),
    (Z.ltb_spec (action_no (fe_action fa)) (action_no (fe_action fb))); try lia.
  assert (fe_action fa = fe_action fb) as -> by (apply action_no_inj; lia).
  destruct (bool_decide _); apply strcmp_opp.
Qed.

#[export] Instance filemap_le_total : Total filemap_le.
Proof. intros a b. unfold filemap_le. rewrite (cmp_opp a b). lia. Qed.

(** By action, then by path, backwards for removals. *)
Lemma filemap_le_alt a b :
  filemap_le a b ↔ action_no (fe_action a) < action_no (fe_action b) ∨
    fe_action a = fe_action b ∧
      (if bool_decide (fe_action a = FILE_ACTION_REMOVE) then strcmp (bytes_of (fe_path b)) (bytes_of (fe_path a)) <= 0
       else strcmp (bytes_of (fe_path a)) (bytes_of (fe_path b)) <= 0).
Proof.
  unfold filemap_le, final_filemap_cmp. destruct (Z.ltb_spec (action_no (fe_action b)) (action_no (fe_action a))).
  { split; [lia|]. intros [|[E _]]; [lia|]. rewrite E in *. lia. }
  destruct (Z.ltb_spec (action_no (fe_action a)) (action_no (fe_action b))).
  { split; [by left|lia]. }
  assert (fe_action a = fe_action b) as -> by (apply action_no_inj; lia). destruct (bool_decide _); split; try (by right);
    intros [|[_ ?]]; lia.
Qed.

#[export] Instance filemap_le_trans : Transitive filemap_le.
Proof.
  intros a b c. rewrite !filemap_le_alt. intros [H1|[E1 H1]] [H2|[E2 H2]].
  - left. lia.
  - left. by rewrite <-E2.
  - left. by rewrite E1.
  - right. split; [congruence|]. rewrite <-E1 in H2. destruct (bool_decide _); by eapply strcmp_trans.
Qed.

Lemma filemap_le_antisym a b : filemap_le a b → filemap_le b a → fe_path a = fe_path b.
Proof.
  intros H1 H2. unfold filemap_le in *. rewrite (cmp_opp a b) in H2. assert (final_filemap_cmp a b = 0) as E by lia.
  unfold final_filemap_cmp in E. repeat (destruct (_ <? _); [lia|]).
  destruct (bool_decide _); apply strcmp_zero in E; [symmetry|]; by apply bytes_of_inj.
Qed.

(** The second path is inside the directory with the first one. *)
Definition below (dir path : string) : Prop := ∃ s, bytes_of path = bytes_of dir ++ x2f :: s.

Lemma ordered_below a b :
  filemap_le a b → fe_action a = fe_action b →
  if bool_decide (fe_action a = FILE_ACTION_REMOVE) then ¬ below (fe_path a) (fe_path b) else ¬ below (fe_path b) (fe_path a).
Proof.
  intros [H|[_ H]]%filemap_le_alt E; [rewrite E in H; lia|].
  destruct (bool_decide _); intros [s Hs]; rewrite Hs in H.
  - pose proof (strcmp_below (bytes_of (fe_path a)) x2f s) as Hb. rewrite (strcmp_opp (bytes_of (fe_path a))) in H. lia.
  - pose proof (strcmp_below (bytes_of (fe_path b)) x2f s) as Hb. rewrite (strcmp_opp (bytes_of (fe_path b))) in H. lia.
Qed.

Lemma decide_all_Forall2 keep es es' :
  decide_all keep es = inr es' → Forall2 (λ e e', ∃ a, decide_file_action keep e = inr a ∧ e' = with_action a e) es es'.
Proof.
  revert es'. induction es as [|e es IH]; intros es' E; cbn [decide_all] in E; [simplify_eq; constructor|].
  destruct (decide_file_action keep e) as [msg|a] eqn:Ea; [done|]. destruct (decide_all keep es) as [msg|es1]; [done|].
  simplify_eq. constructor; [by exists a|by apply IH].
Qed.

Lemma decided_paths keep (hash : filehash) ds :
  (∀ p e, hash !! p = Some e → fe_path e = p) →
  Forall2 (λ e e', ∃ a, decide_file_action keep e = inr a ∧ e' = with_action a e) (snd <$> map_to_list hash) ds →
  fe_path <$> ds = fst <$> map_to_list hash.
Proof.
  intros Hkeys. assert (∀ pe, pe ∈ map_to_list hash → fe_path pe.2 = pe.1) as Hk.
  { intros [p e] H%elem_of_map_to_list. by apply (Hkeys p e). }
  clear Hkeys. revert ds. induction (map_to_list hash) as [|[p e] l IH]; intros ds Hf.
  - by apply Forall2_nil_inv_l in Hf as ->.
  - apply Forall2_cons_inv_l in Hf as (e' & ds' & (a & _ & ->) & Hf & ->). cbn. f_equal; [apply (Hk (p, e)); left|].
    apply IH; [|done]. intros pe H. apply Hk. by right.
Qed.

Lemma sorted_unique (l1 l2 : list file_entry_t) :
  NoDup (fe_path <$> l1) → l1 ≡ₚ l2 → StronglySorted filemap_le l1 → StronglySorted filemap_le l2 → l1 = l2.
Proof.
  intros Hnd Hp H1 H2. apply (StronglySorted_unique_strong filemap_le); [|done..]. intros x y Hx Hy L1 L2.
  pose proof (filemap_le_antisym x y L1 L2) as E. rewrite <-Hp in Hy.
  apply list_elem_of_lookup in Hx as [i Hi], Hy as [j Hj].
  assert (i = j) as ->; [|congruence]. eapply NoDup_lookup; [done|..]; rewrite list_lookup_fmap; [by rewrite Hi|rewrite Hj; cbn; by rewrite E].
Qed.

Lemma StronglySorted_lookup {A} (R : relation A) l i j x y :
  StronglySorted R l → (i < j)%nat → l !! i = Some x → l !! j = Some y → R x y.
Proof.
  intros Hs. revert i j. induction Hs as [|z l Hs IH Hz]; intros [|i] [|j] Hij Hx Hy; simplify_eq/=; try lia.
  - by eapply Forall_lookup in Hz.
  - apply (IH i j); [lia|done..].
Qed.

(** The plan of pg_rewind has every file once, with the action decided for
    it. Actions of different kinds come in the order of their numbers; a
    directory is created before anything inside it and removed after everything
    inside it; and the order does not depend on the hash table. *)
Theorem actions_ordered keep (hash : filehash) es :
  (∀ p e, hash !! p = Some e → fe_path e = p) → decide_file_actions keep hash = inr es →
  (∀ e, e ∈ es ↔ ∃ p e0 a, hash !! p = Some e0 ∧ decide_file_action keep e0 = inr a ∧ e = with_action a e0) ∧
  NoDup (fe_path <$> es) ∧
  (∀ i j a b, (i < j)%nat → es !! i = Some a → es !! j = Some b →
     action_no (fe_action a) <= action_no (fe_action b) ∧
     (fe_action a = FILE_ACTION_REMOVE → fe_action b = FILE_ACTION_REMOVE → ¬ below (fe_path a) (fe_path b)) ∧
     (fe_action a = FILE_ACTION_CREATE → fe_action b = FILE_ACTION_CREATE → ¬ below (fe_path b) (fe_path a))) ∧
  (∀ es', es' ≡ₚ es → StronglySorted filemap_le es' → es' = es).
Proof.
  intros Hkeys E. unfold decide_file_actions in E. destruct (decide_all _ _) as [msg|ds] eqn:Ed; [done|]. injection E as <-.
  apply decide_all_Forall2 in Ed. pose proof (merge_sort_Permutation filemap_le ds) as Hp.
  pose proof (StronglySorted_merge_sort filemap_le ds) as Hs. set (es := merge_sort filemap_le ds) in *.
  pose proof (decided_paths keep hash ds Hkeys Ed) as Hpaths.
  assert (NoDup (fe_path <$> es)) as Hnd by (rewrite Hp, Hpaths; apply NoDup_fst_map_to_list).
  split_and!; [| done | | intros es' He' Hs'; apply sorted_unique; [by rewrite He'|done..]].
  - intros e. rewrite Hp. split.
    + intros Hin. apply list_elem_of_lookup in Hin as [i Hi].
      destruct (Forall2_lookup_r _ _ _ _ _ Ed Hi) as (e0 & H0 & a & Ha & ->).
      apply list_lookup_fmap_Some in H0 as ([p e0'] & -> & H0). apply list_elem_of_lookup_2, elem_of_map_to_list in H0. by exists p, e0', a.
    + intros (p & e0 & a & H0 & Ha & ->). apply elem_of_map_to_list, list_elem_of_lookup in H0 as [i Hi].
      destruct (Forall2_lookup_l _ _ _ i e0 Ed) as (e1 & H1 & a1 & Ha1 & ->); [by rewrite list_lookup_fmap, Hi|].
      assert (a1 = a) as -> by congruence. by eapply list_elem_of_lookup_2.
  - intros i j a b Hij Hi Hj. assert (filemap_le a b) as Hle.
    { eapply StronglySorted_lookup; eauto. }
    split_and!.
    + apply filemap_le_alt in Hle as [?|[-> _]]; lia.
    + intros Ha Hb. pose proof (ordered_below a b Hle ltac:(congruence)) as H. by rewrite bool_decide_eq_true_2 in H.
    + intros Ha Hb. pose proof (ordered_below a b Hle ltac:(congruence)) as H. rewrite bool_decide_eq_false_2 in H; [done|congruence].
Qed.

(** ** Relation files *)

(** [%u] of [sprintf] *)
Definition print_u (z : Z) : string := pretty (Z.to_N z).

(** The format of [GetRelationPath] for main forks. *)
Class RelPathSpec (RP : RelPath) := {
  relpath_global rl :
    spcOid rl = GLOBALTABLESPACE_OID → relpathperm rl MAIN_FORKNUM = ("global/" +:+ print_u (relNumber rl))%string;
  relpath_base rl :
    spcOid rl = DEFAULTTABLESPACE_OID →
    relpathperm rl MAIN_FORKNUM = ("base/" +:+ print_u (dbOid rl) +:+ "/" +:+ print_u (relNumber rl))%string;
  relpath_tblspc rl :
    spcOid rl ≠ GLOBALTABLESPACE_OID → spcOid rl ≠ DEFAULTTABLESPACE_OID →
    bytes_of (relpathperm rl MAIN_FORKNUM) =
      bytes_of "pg_tblspc/" ++ bytes_of (print_u (spcOid rl)) ++ bytes_of "/" ++ TABLESPACE_VERSION_DIRECTORY ++
      bytes_of "/" ++ bytes_of (print_u (dbOid rl)) ++ bytes_of "/" ++ bytes_of (print_u (relNumber rl));
}.

Lemma digit_char n :
  (n < 10)%N → is_digit (Ascii.byte_of_ascii (pretty_N_char n)) = true ∧ b2z (Ascii.byte_of_ascii (pretty_N_char n)) - 48 = Z.of_N n.
Proof.
  intros Hn. assert (n = 0 ∨ n = 1 ∨ n = 2 ∨ n = 3 ∨ n = 4 ∨ n = 5 ∨ n = 6 ∨ n = 7 ∨ n = 8 ∨ n = 9)%N as H by lia.
  repeat destruct H as [->|H]; try (split; reflexivity). subst. split; reflexivity.
Qed.

Lemma scan_go n : ∀ s r, read_digits 0 (bytes_of (pretty_N_go n s) ++ r) = read_digits (Z.of_N n) (bytes_of s ++ r).
Proof.
  induction n as [n IH] using (well_founded_induction N.lt_wf_0). intros s r.
  destruct (decide (n = 0)%N) as [->|Hn]; [by rewrite pretty_N_go_0|].
  rewrite pretty_N_go_step by lia. rewrite IH by (apply N.div_lt; lia).
  change (bytes_of (String ?a s)) with (Ascii.byte_of_ascii a :: bytes_of s). cbn [app read_digits].
  destruct (digit_char (n `mod` 10)) as [-> Hd]; [by apply N.mod_lt|]. rewrite Hd. f_equal.
  rewrite N2Z.inj_div, N2Z.inj_mod. pose proof (Z.div_mod (Z.of_N n) 10). lia.
Qed.

Lemma go_digit n : ∀ s, (0 < n)%N → ∃ b t, bytes_of (pretty_N_go n s) = b :: t ∧ is_digit b = true.
Proof.
  induction n as [n IH] using (well_founded_induction N.lt_wf_0). intros s Hn.
  rewrite pretty_N_go_step by lia. destruct (decide (n `div` 10 = 0)%N) as [E|E].
  - rewrite E, pretty_N_go_0. change (bytes_of (String ?a s)) with (Ascii.byte_of_ascii a :: bytes_of s).
    eexists _, _. split; [done|]. apply digit_char. by apply N.mod_lt.
  - apply IH; [apply N.div_lt; lia|by apply N.neq_0_lt_0].
Qed.

Lemma pretty_N_digits (n : N) : ∃ b t, bytes_of (pretty n) = b :: t ∧ is_digit b = true.
Proof.
  unfold pretty, pretty_N. destruct (decide (n = 0)%N) as [->|Hn]; [by eexists _, _|]. apply go_digit. lia.
Qed.

Definition no_digit (r : bytes) : Prop := match r with b :: _ => is_digit b = false | [] => True end.

Lemma scan_pretty (n : N) r : no_digit r → read_digits 0 (bytes_of (pretty n) ++ r) = (Z.of_N n, r).
Proof.
  intros Hr. assert (∀ v, read_digits v r = (v, r)) as Hd by (intros v; destruct r as [|b r]; [done|]; cbn in *; by rewrite Hr).
  unfold pretty, pretty_N. destruct (decide (n = 0)%N) as [->|Hn]; [cbn; apply (Hd 0)|].
  rewrite scan_go. apply Hd.
Qed.

Lemma scan_u_fmt z r : is_u32 z → no_digit r → scan_u (bytes_of (print_u z) ++ r) = Some (z, r).
Proof.
  intros Hz Hr. unfold print_u. pose proof (scan_pretty (Z.to_N z) r Hr) as Hs.
  destruct (pretty_N_digits (Z.to_N z)) as (b & t & Hb & Hd). rewrite Hb in *. cbn [app] in *. unfold scan_u.
  assert (is_blank b = false ∧ b ≠ x2d ∧ b ≠ x2b) as (Hsp & Hm & Hp).
  { unfold is_digit, is_blank in *. split_and!; [|intros ->; done..]. lia. }
  cbn [skip_white]. rewrite Hsp.
  replace (match b :: t ++ r with x2d :: s => (true, s) | x2b :: s => (false, s) | _ => (false, b :: t ++ r) end)
    with (false, b :: t ++ r) by (by destruct b).
  rewrite Hd, Hs. unfold is_u32 in Hz. rewrite Z2N.id by lia.
  rewrite (proj2 (Z.leb_gt _ _)) by lia. unfold u32. rewrite Z.mod_small by lia. done.
Qed.

Lemma sscanf_lit l s format : sscanf (l ++ s) (Lit l :: format) = sscanf s format.
Proof.
  cbn [sscanf]. unfold prefix_of. rewrite take_app_length, bool_decide_eq_true_2 by done. by rewrite drop_app_length.
Qed.

Lemma sscanf_miss l s format : take (length l) s ≠ l → sscanf s (Lit l :: format) = [].
Proof. intros H. cbn [sscanf]. unfold prefix_of. by rewrite bool_decide_eq_false_2. Qed.

Lemma sscanf_num z s format : is_u32 z → no_digit s → sscanf (bytes_of (print_u z) ++ s) (Pu :: format) = z :: sscanf s format.
Proof. intros Hz Hs. cbn [sscanf]. by rewrite scan_u_fmt. Qed.

(** What follows the name of the first segment. *)
Definition seg_suffix (seg : Z) : bytes := if 0 <? seg then x2e :: bytes_of (print_u seg) else [].

Lemma sscanf_segment rel seg :
  is_u32 rel → is_u32 seg →
  sscanf (bytes_of (print_u rel) ++ seg_suffix seg) [Pu; dot; Pu] = rel :: (if 0 <? seg then [seg] else []).
Proof.
  intros Hr Hs. unfold seg_suffix. rewrite sscanf_num; [|done|by destruct (0 <? seg)]. f_equal. destruct (0 <? seg); [|done].
  change (x2e :: bytes_of (print_u seg)) with ([x2e] ++ bytes_of (print_u seg)). unfold dot. rewrite sscanf_lit.
  rewrite <-(app_nil_r (bytes_of (print_u seg))). by rewrite sscanf_num.
Qed.

Section relfiles.
Context {RP : RelPath} {RPS : RelPathSpec RP}.

Lemma datasegpath_suffix rl seg :
  bytes_of (datasegpath rl MAIN_FORKNUM seg) = bytes_of (relpathperm rl MAIN_FORKNUM) ++ seg_suffix seg.
Proof.
  unfold datasegpath, seg_suffix. destruct (0 <? seg); [|by rewrite app_nil_r]. by rewrite !bytes_of_app.
Qed.

(** Relations that a cluster can have. *)
Definition relfile_ok (rl : RelFileLocator) (seg : Z) : Prop :=
  is_u32 (spcOid rl) ∧ is_u32 (dbOid rl) ∧ is_u32 (relNumber rl) ∧ is_u32 seg ∧
  (spcOid rl = GLOBALTABLESPACE_OID → dbOid rl = 0).

Lemma path_rlocator_inv rl seg :
  relfile_ok rl seg → path_rlocator (bytes_of (datasegpath rl MAIN_FORKNUM seg)) = Some (rl, seg).
Proof.
  intros (Hspc & Hdb & Hrel & Hseg & Hg). rewrite datasegpath_suffix. unfold path_rlocator.
  assert ((0 <? seg) = false → seg = 0) as H0 by (intros ?%Z.ltb_ge; unfold is_u32 in Hseg; lia).
  destruct (decide (spcOid rl = GLOBALTABLESPACE_OID)) as [E|E].
  { rewrite (relpath_global rl E), bytes_of_app, <-(assoc_L (++)), sscanf_lit, sscanf_segment by done.
    destruct rl as [spc db rel]. cbn in *. rewrite E, (Hg E). destruct (0 <? seg) eqn:Es; [done|by rewrite (H0 eq_refl)]. }
  destruct (decide (spcOid rl = DEFAULTTABLESPACE_OID)) as [E'|E'].
  { rewrite (relpath_base rl E'), !bytes_of_app, <-!(assoc_L (++)). rewrite (sscanf_miss (bytes_of "global/")) by discriminate.
    rewrite sscanf_lit, sscanf_num by done. change (bytes_of "/") with [x2f]. unfold slash. rewrite sscanf_lit, sscanf_segment by done.
    destruct rl as [spc db rel]. cbn in *. rewrite E'. destruct (0 <? seg) eqn:Es; [done|by rewrite (H0 eq_refl)]. }
  rewrite (relpath_tblspc rl E E'), <-!(assoc_L (++)).
  rewrite (sscanf_miss (bytes_of "global/")), (sscanf_miss (bytes_of "base/")) by discriminate.
  rewrite sscanf_lit, sscanf_num by done.
  rewrite (assoc_L (++) TABLESPACE_VERSION_DIRECTORY), (assoc_L (++) (bytes_of "/")), sscanf_lit, sscanf_num by done.
  change (bytes_of "/") with [x2f]. unfold slash. rewrite sscanf_lit, sscanf_segment by done.
  destruct rl as [spc db rel]. cbn in *. destruct (0 <? seg) eqn:Es; [done|by rewrite (H0 eq_refl)].
Qed.

Lemma scan_u_u32 s v r : scan_u s = Some (v, r) → is_u32 v.
Proof.
  unfold scan_u. intros E. repeat case_match; simplify_eq; apply u32_range.
Qed.

Lemma sscanf_u32 format : ∀ s, Forall is_u32 (sscanf s format).
Proof.
  induction format as [|[l|] format IH]; intros s; cbn [sscanf]; [constructor| |].
  - destruct (prefix_of l s); [apply IH|constructor].
  - destruct (scan_u s) as [[v r]|] eqn:E; constructor; [by eapply scan_u_u32|apply IH].
Qed.

(** A path is taken for a relation file exactly if it is the path of a
    segment of the main fork of a relation. *)
Theorem relation_files_recognised path :
  isRelDataFile path = true ↔ ∃ rl seg, relfile_ok rl seg ∧ path = datasegpath rl MAIN_FORKNUM seg.
Proof.
  unfold isRelDataFile. split.
  - destruct (path_rlocator (bytes_of path)) as [[rl seg]|] eqn:E; [|done]. intros Hpath%bool_decide_eq_true.
    exists rl, seg. split; [|done]. unfold path_rlocator in E.
    pose proof (sscanf_u32 [Lit (bytes_of "global/"); Pu; dot; Pu] (bytes_of path)) as F1.
    pose proof (sscanf_u32 [Lit (bytes_of "base/"); Pu; slash; Pu; dot; Pu] (bytes_of path)) as F2.
    set (l3 := Lit (bytes_of "/" ++ TABLESPACE_VERSION_DIRECTORY ++ bytes_of "/")) in *.
    pose proof (sscanf_u32 [Lit (bytes_of "pg_tblspc/"); Pu; l3; Pu; slash; Pu; dot; Pu] (bytes_of path)) as F3.
    assert (is_u32 0 ∧ is_u32 GLOBALTABLESPACE_OID ∧ is_u32 DEFAULTTABLESPACE_OID) as (U0 & U1 & U2) by (unfold is_u32; done).
    remember (sscanf _ (Lit (bytes_of "pg_tblspc/") :: _)) as r3 eqn:E3.
    repeat case_match; simplify_eq; repeat (apply Forall_cons in F1 as [? F1] || apply Forall_cons in F2 as [? F2] || apply Forall_cons in F3 as [? F3]);
      unfold relfile_ok; cbn [spcOid dbOid relNumber]; (split_and!; [assumption..|]); try done.
    all: intros Hg; exfalso; rewrite datasegpath_suffix, relpath_global, bytes_of_app in E3 by done.
    all: rewrite sscanf_miss in E3 by discriminate; discriminate E3.
  - intros (rl & seg & Hok & ->). rewrite path_rlocator_inv by done. by apply bool_decide_eq_true_2.
Qed.

End relfiles.

(** ** Examples *)

(** [GetRelationPath] for permanent relations; forks have a suffix. *)
#[export] Instance PgRelPath : RelPath := {
  relpathperm rl fork :=
    let file := (print_u (relNumber rl) +:+
                 (if (fork =? FSM_FORKNUM)%Z then "_fsm" else if (fork =? VISIBILITYMAP_FORKNUM)%Z then "_vm" else EmptyString))%string in
    if spcOid rl =? GLOBALTABLESPACE_OID then ("global/" +:+ file)%string
    else if spcOid rl =? DEFAULTTABLESPACE_OID then ("base/" +:+ print_u (dbOid rl) +:+ "/" +:+ file)%string
    else ("pg_tblspc/" +:+ print_u (spcOid rl) +:+ "/PG_18_202506291/" +:+ print_u (dbOid rl) +:+ "/" +:+ file)%string;
  TABLESPACE_VERSION_DIRECTORY := bytes_of "PG_18_202506291";
}.

Lemma app_empty_r (s : string) : (s +:+ EmptyString)%string = s.
Proof. induction s as [|a s IH]; [done|]. exact (f_equal (String.String a) IH). Qed.

#[export] Instance PgRelPathSpec : RelPathSpec PgRelPath.
Proof.
  split; intros rl; unfold relpathperm, PgRelPath; change (MAIN_FORKNUM =? FSM_FORKNUM) with false;
    change (MAIN_FORKNUM =? VISIBILITYMAP_FORKNUM) with false; cbv iota zeta; rewrite app_empty_r.
  - intros E. by rewrite (proj2 (Z.eqb_eq _ _) E).
  - intros E. by rewrite E.
  - intros E1 E2. rewrite (proj2 (Z.eqb_neq _ _) E1), (proj2 (Z.eqb_neq _ _) E2). by rewrite !bytes_of_app.
Qed.

Lemma relation_files_recognised_witness :
  isRelDataFile "base/5/16384.1" = true ∧ isRelDataFile "base/5/16384_fsm" = false ∧
  ∃ rl seg, relfile_ok rl seg ∧ "base/5/16384.1"%string = datasegpath rl MAIN_FORKNUM seg.
Proof.
  split; [vm_compute; reflexivity|]. split; [vm_compute; reflexivity|].
  apply (relation_files_recognised "base/5/16384.1"). vm_compute. reflexivity.
Defined.

Definition regular (size : Z) : option file_side := Some (mkFileSide FILE_TYPE_REGULAR size None).

(** A relation with three blocks in the target and two in the source, and its
    directory. *)
Definition hash0 : filehash :=
  <["base/5" := mkFileEntry "base/5" false (Some (mkFileSide FILE_TYPE_DIRECTORY 0 None)) [] (Some (mkFileSide FILE_TYPE_DIRECTORY 0 None))
     FILE_ACTION_UNDECIDED]>
  {["base/5/16384" := mkFileEntry "base/5/16384" true (regular 24576) [] (regular 16384) FILE_ACTION_UNDECIDED]}.

Definition rel0 : RelFileLocator := mkRelFileLocator 1663 5 16384.

Lemma changed_pages_recorded_witness :
  ∃ hash' m e, process_changes hash0 [(0, rel0, 2); (0, rel0, 1); (0, rel0, 0)] = inr hash' ∧
    hash' !! "base/5/16384" = Some (with_pages m e) ∧ 1 ∈ datapagemap_iterate m ∧ 2 ∉ datapagemap_iterate m.
Proof.
  assert (∀ p e, hash0 !! p = Some e → target_pages_to_overwrite e = []) as Hnew.
  { intros p e H. unfold hash0 in H. apply lookup_insert_Some in H as [[_ <-]|[_ H]]; [done|].
    by apply lookup_singleton_Some in H as [<- <-]. }
  assert (hash0 !! "base/5/16384"%string =
    Some (mkFileEntry "base/5/16384" true (regular 24576) [] (regular 16384) FILE_ACTION_UNDECIDED)) as He.
  { unfold hash0. rewrite lookup_insert_ne by done. apply lookup_singleton_eq. }
  pose proof (changed_pages_recorded hash0 [(0, rel0, 2); (0, rel0, 1); (0, rel0, 0)] Hnew ltac:(repeat constructor; cbn; lia)) as H.
  destruct (process_changes hash0 [(0, rel0, 2); (0, rel0, 1); (0, rel0, 0)]) as [msg|hash'] eqn:E; [vm_compute in E; discriminate|].
  destruct H as [_ H]. destruct (H "base/5/16384"%string _ He) as (m & Hm & _ & Hb). exists hash', m. eexists.
  split; [reflexivity|]. split; [exact Hm|]. split.
  - apply Hb. exists 0, rel0, 1, (mkFileSide FILE_TYPE_REGULAR 16384 None), (mkFileSide FILE_TYPE_REGULAR 24576 None).
    split_and!; [right; left|vm_compute; reflexivity|reflexivity|reflexivity|reflexivity|vm_compute; discriminate|vm_compute; discriminate].
  - intros (fork & rl & blkno & s & t & _ & _ & _ & Hs & _ & H1 & _)%Hb. injection Hs as <-. apply H1. reflexivity.
Defined.

(** A directory with a file in it that only the target has, and one that only
    the source has. *)
Definition only_in_target (path : string) (type : file_type_t) : file_entry_t :=
  mkFileEntry path false (Some (mkFileSide type 0 None)) [] None FILE_ACTION_UNDECIDED.
Definition only_in_source (path : string) (type : file_type_t) : file_entry_t :=
  mkFileEntry path false None [] (Some (mkFileSide type 0 None)) FILE_ACTION_UNDECIDED.

Definition hash1 : filehash :=
  list_to_map ((λ e, (fe_path e, e)) <$>
    [only_in_target "old" FILE_TYPE_DIRECTORY; only_in_target "old/x" FILE_TYPE_REGULAR;
     only_in_source "new/y" FILE_TYPE_DIRECTORY; only_in_source "new" FILE_TYPE_DIRECTORY]).

Lemma actions_ordered_witness :
  ∃ es, decide_file_actions ∅ hash1 = inr es ∧ fe_path <$> es = ["new"; "new/y"; "old/x"; "old"]%string ∧
    NoDup (fe_path <$> es).
Proof.
  destruct (decide_file_actions ∅ hash1) as [msg|es] eqn:E; [vm_compute in E; discriminate|].
  exists es. split; [reflexivity|]. split; [vm_compute in E; injection E as <-; reflexivity|].
  refine (proj1 (proj2 (actions_ordered ∅ hash1 es _ E))).
  intros p e H. unfold hash1 in H. apply elem_of_list_to_map_2, list_elem_of_fmap in H as (e' & [= -> ->] & _). reflexivity.
Defined.

(** Everything whose name starts with "open_pg" is taken for the keys. *)
Example open_pg_files_skipped :
  decide_file_action ∅ (only_in_source "open_pg_stat/x" FILE_TYPE_REGULAR) = inr FILE_ACTION_NONE.
Proof. reflexivity. Qed.
