(* ===== verification/Rewind.v ===== *)
(** fetools/pg18/pg_rewind: tde_ops.c, local_source.c, the files of the target
    (file_ops.c) and the execution of the plan in pg_rewind.c. pg_rewind makes the
    data directory of the target a copy of the source's, where most blocks of
    relations stay. The two clusters have different keys for the same relation,
    so blocks that are copied are encrypted again, and the keys that the target
    ends up with are those of a temporary copy of the source's directory in which
    the keys of such relations were replaced by those of the target.

    There are three directories with keys: the one of the target, the one of the
    source and the temporary one. The functions on keys work on the files
    "open_pg_tde/..." of the model; these are the files of the directory that was
    chosen last ([open_pg_tde_set_data_dir]), the other directories are kept in
    the state of the program. With a directory come the principal keys that its
    files and their providers give, which the process asks for again after each
    change. All other files have their full paths. *)
From stdpp Require Import functions.
From S2P Require Import Prelude Types Environ Ciphers EncTde KeyFile KeyMap WalKeys XLogSmgr ArchiveTools FileMap.

(** ** The state *)

Inductive TdeDir := TargetTde | TmpSource | SourceTde.

#[export] Instance TdeDir_eq_dec : EqDecision TdeDir.
Proof. solve_decision. Defined.

Record KeyDir := mkKeyDir {
  dir_files : gmap string bytes;
  dir_keys : gmap Z TDEPrincipalKey;
}.

Record current_file_data := mkCurrentFile {
  source_key : option InternalKey;
  target_key : option InternalKey;
  ctf_path : string;
  ctf_rlocator : RelFileLocator;
  ctf_segNo : Z;
}.

Definition no_current_file : current_file_data :=
  mkCurrentFile None None EmptyString (mkRelFileLocator 0 0 0) 0.

(** A piece of a file that a source over a connection was asked for. *)
Record fetch_range_request := mkRequest {
  rq_path : string;
  rq_offset : Z;
  rq_length : Z;
  rq_encrypt : bool;
}.

(** [dstfd] is the path of the target file that is open. The last two fields belong
    to a source over a connection. *)
Record RewindState := mkRewindState {
  rw_dir : TdeDir;
  rw_dirs : TdeDir → KeyDir;
  source_has_tde : bool;
  current_tde_file : current_file_data;
  dstfd : option string;
  archive_wal_segments : list string;
  keepwal : gset string;
  request_queue : list fetch_range_request;
  num_requests : nat;
}.

Definition with_dirs (d : TdeDir) (ds : TdeDir → KeyDir) (st : RewindState) : RewindState :=
  mkRewindState d ds (source_has_tde st) (current_tde_file st) (dstfd st) (archive_wal_segments st) (keepwal st)
    (request_queue st) (num_requests st).
Definition with_current (c : current_file_data) (st : RewindState) : RewindState :=
  mkRewindState (rw_dir st) (rw_dirs st) (source_has_tde st) c (dstfd st) (archive_wal_segments st) (keepwal st)
    (request_queue st) (num_requests st).
Definition with_dstfd (p : option string) (st : RewindState) : RewindState :=
  mkRewindState (rw_dir st) (rw_dirs st) (source_has_tde st) (current_tde_file st) p (archive_wal_segments st) (keepwal st)
    (request_queue st) (num_requests st).
Definition with_has_tde (b : bool) (st : RewindState) : RewindState :=
  mkRewindState (rw_dir st) (rw_dirs st) b (current_tde_file st) (dstfd st) (archive_wal_segments st) (keepwal st)
    (request_queue st) (num_requests st).

Definition with_queue (q : list fetch_range_request) (n : nat) (st : RewindState) : RewindState :=
  mkRewindState (rw_dir st) (rw_dirs st) (source_has_tde st) (current_tde_file st) (dstfd st) (archive_wal_segments st) (keepwal st) q n.

(** The options of the program and a function of PostgreSQL. *)
Class RewindEnv := {
  datadir_target : string;
  datadir_source : string;
  dry_run : bool;
  WalSegSz : Z;
  path_is_safe_for_extraction : string → bool;
}.

(** ** Directories with keys *)

Definition is_key_file (p : string) : bool := String.prefix "open_pg_tde/" p.
Definition key_files (fs : gmap string bytes) : gmap string bytes := filter (λ f, is_key_file f.1 = true) fs.
Definition other_files (fs : gmap string bytes) : gmap string bytes := filter (λ f, is_key_file f.1 = false) fs.

Section rewind.
Context {SSL : OpenSSL} {K : Kernel} {PKS : PrincipalKeys} {RP : RelPath} {RE : RewindEnv}.

Definition get_dir (st : RewindState) (d : TdeDir) (w : World) : KeyDir :=
  if decide (d = rw_dir st) then mkKeyDir (key_files (w_fs w)) (w_pk_cache w) else rw_dirs st d.

Definition put_dir (st : RewindState) (d : TdeDir) (dir : KeyDir) : M RewindState :=
  if decide (d = rw_dir st) then
    modify (λ w, set_pk_cache (dir_keys dir) (set_fs (dir_files dir ∪ other_files (w_fs w)) w));;
    mret st
  else mret (with_dirs (rw_dir st) (<[d := dir]> (rw_dirs st)) st).

(** [open_pg_tde_set_data_dir] with one of the directories. *)
Definition set_data_dir (st : RewindState) (d : TdeDir) : M RewindState :=
  cur ← gets (get_dir st (rw_dir st));
  let dirs := <[rw_dir st := cur]> (rw_dirs st) in
  modify (λ w, set_pk_cache (dir_keys (dirs d)) (set_fs (dir_files (dirs d) ∪ other_files (w_fs w)) w));;
  open_pg_tde_free_wal_key_cache;;
  mret (with_dirs d dirs st).

(** [slurpFile] and [write_file] of one file. *)
Definition copy_file (st : RewindState) (dst : TdeDir) (file : string * bytes) : M RewindState :=
  fs ← gets w_fs;
  match sys_fault (SysOpen file.1) fs with
  | Some _ => ereport FATAL "could not copy file"
  | None =>
      dir ← gets (get_dir st dst);
      put_dir st dst (mkKeyDir (<[file.1 := file.2]> (dir_files dir)) (dir_keys dir))
  end.

Fixpoint copy_files (st : RewindState) (dst : TdeDir) (files : list (string * bytes)) : M RewindState :=
  match files with
  | [] => mret st
  | file :: files => st ← copy_file st dst file; copy_files st dst files
  end.

(** The principal keys of a directory are given by its files. *)
Definition copy_dir (st : RewindState) (src dst : TdeDir) : M RewindState :=
  from ← gets (get_dir st src);
  st ← copy_files st dst (map_to_list (dir_files from));
  dir ← gets (get_dir st dst);
  put_dir st dst (mkKeyDir (dir_files dir) (dir_keys from)).

(** [init_tde] and [copy_tmp_tde_files]; the temporary directory is new. *)
Definition local_fetch_tde_keys (st : RewindState) (is_dir : bool) : M RewindState :=
  if is_dir then
    let st := with_has_tde true st in
    st ← put_dir st TmpSource (mkKeyDir ∅ ∅);
    copy_dir st SourceTde TmpSource
  else mret st.

Definition fetch_tde_dir (st : RewindState) : M RewindState :=
  if dry_run then mret st
  else if negb (source_has_tde st) then mret st
  else
    st ← put_dir st TargetTde (mkKeyDir ∅ ∅);
    copy_dir st TmpSource TargetTde.

(** ** Files of the target *)

Definition target_path (path : string) : string := (datadir_target +:+ "/" +:+ path)%string.
Definition source_path (path : string) : string := (datadir_source +:+ "/" +:+ path)%string.

Definition open_target_file (st : RewindState) (path : string) (trunc : bool) : M RewindState :=
  if negb (path_is_safe_for_extraction path) then ereport FATAL "target file path is unsafe for open"
  else if dry_run then mret st
  else if bool_decide (dstfd st = Some (target_path path)) && negb trunc then mret st
  else
    r ← OpenTransientFile (target_path path) true trunc;
    match r with
    | Fd fd => mret (with_dstfd (Some fd) st)
    | OpenFailed _ => ereport FATAL "could not open target file"
    end.

Definition close_target_file (st : RewindState) : RewindState := with_dstfd None st.

(** Writes that return 0 again and again would make it loop. *)
Fixpoint write_loop (fuel : nat) (fd : string) (p : bytes) (pos : Z) : M unit :=
  match p with
  | [] => mret tt
  | _ =>
      match fuel with
      | O => out_of_fuel
      | S fuel =>
          writelen ← pg_pwrite fd p pos;
          if writelen <? 0 then ereport FATAL "could not write file"
          else write_loop fuel fd (drop (Z.to_nat writelen) p) (pos + writelen)
      end
  end.

Definition write_target_range (st : RewindState) (buf : bytes) (begin : Z) : M unit :=
  if dry_run then mret tt
  else
    match dstfd st with
    | Some fd => write_loop (length buf) fd buf begin
    | None => ereport FATAL "could not seek in target file"
    end.

Definition remove_target_file (path : string) (missing_ok : bool) : M unit :=
  if negb (path_is_safe_for_extraction path) then ereport FATAL "target file path is unsafe for removal"
  else if dry_run then mret tt
  else
    fs ← gets w_fs;
    match sys_fault (SysUnlink (target_path path)) fs, fs !! target_path path with
    | None, Some _ => modify (set_fs (delete (target_path path) fs))
    | None, None => if missing_ok then mret tt else ereport FATAL "could not remove file"
    | Some _, _ => ereport FATAL "could not remove file"
    end.

Definition truncate_target_file (path : string) (newsize : Z) : M unit :=
  if negb (path_is_safe_for_extraction path) then ereport FATAL "target file path is unsafe for truncation"
  else if dry_run then mret tt
  else
    fd ← open_file (target_path path) false;
    modify (λ w, set_fs (alter (λ bs, take (Z.to_nat newsize) (bs ++ zeros (Z.to_nat newsize))) fd (w_fs w)) w).

(** Only regular files are part of the model. *)
Definition remove_target (e : file_entry_t) : M unit :=
  match fs_type <$> fe_target e with
  | Some FILE_TYPE_REGULAR => remove_target_file (fe_path e) false
  | Some FILE_TYPE_DIRECTORY | Some FILE_TYPE_SYMLINK =>
      if path_is_safe_for_extraction (fe_path e) then mret tt else ereport FATAL "target path is unsafe for removal"
  | _ => ereport FATAL "undefined file type"
  end.

Definition create_target (e : file_entry_t) : M unit :=
  match fs_type <$> fe_source e with
  | Some FILE_TYPE_DIRECTORY | Some FILE_TYPE_SYMLINK =>
      if path_is_safe_for_extraction (fe_path e) then mret tt else ereport FATAL "target path is unsafe for creation"
  | Some FILE_TYPE_REGULAR => ereport FATAL "invalid action (CREATE) for regular file"
  | _ => ereport FATAL "undefined file type"
  end.

(** ** tde_ops.c: blocks of relations *)

(** A target key is needed once there is a source key. *)
Definition tde_reencrypt_block (st : RewindState) (buf : bytes) (file_offset fork : Z) : M bytes :=
  match source_key (current_tde_file st) with
  | None => mret buf
  | Some source_key =>
      let blkno := u32 (file_offset / BLCKSZ + u32 (ctf_segNo (current_tde_file st) * RELSEG_SIZE)) in
      buf ← tde_decrypt_smgr_block source_key fork blkno buf buf;
      match target_key (current_tde_file st) with
      | Some target_key => tde_encrypt_smgr_block target_key fork blkno buf
      | None => ereport PANIC "NULL pointer dereference"
      end
  end.

(** Failures are warnings. *)
Fixpoint reencrypt_fork_loop (fuel : nat) (st : RewindState) (fd : string) (offset fork : Z) : M unit :=
  match fuel with
  | O => out_of_fuel
  | S fuel =>
      r ← pg_pread fd BLCKSZ offset;
      match r with
      | None => mret tt
      | Some buf =>
          if negb (Z.of_nat (length buf) =? BLCKSZ) then mret tt
          else
            buf ← tde_reencrypt_block st buf offset fork;
            n ← pg_pwrite fd buf offset;
            if negb (n =? BLCKSZ) then mret tt
            else reencrypt_fork_loop fuel st fd (offset + BLCKSZ) fork
      end
  end.

Definition reencrypt_fork (st : RewindState) (fork : Z) : M unit :=
  if dry_run then mret tt
  else
    let srcpath := target_path (relpathperm (ctf_rlocator (current_tde_file st)) fork) in
    exists_ ← access_F_OK srcpath;
    if negb exists_ then mret tt
    else
      r ← OpenTransientFile srcpath false false;
      match r with
      | OpenFailed _ => mret tt
      | Fd fd =>
          fuel ← file_fuel fd;
          reencrypt_fork_loop fuel st fd 0 fork
      end.

Definition flush_current_tde_rel_key (st : RewindState) : M RewindState :=
  match source_key (current_tde_file st) with
  | None => mret st
  | Some _ =>
      reencrypt_fork st FSM_FORKNUM;;
      reencrypt_fork st VISIBILITYMAP_FORKNUM;;
      st ← set_data_dir st TmpSource;
      match target_key (current_tde_file st) with
      | Some target_key =>
          open_pg_tde_save_smgr_key (ctf_rlocator (current_tde_file st)) target_key true;;
          mret (with_current no_current_file st)
      | None => ereport PANIC "NULL pointer dereference"
      end
  end.

Definition ensure_tde_keys (st : RewindState) (relpath : string) : M RewindState :=
  if negb (source_has_tde st) then mret st
  else if bool_decide (ctf_path (current_tde_file st) = relpath) then mret st
  else
    st ← flush_current_tde_rel_key st;
    match path_rlocator (bytes_of relpath) with
    | None => mret st
    | Some (rlocator, segNo) =>
        st ← set_data_dir st TmpSource;
        source_key ← open_pg_tde_get_smgr_key rlocator;
        st ← set_data_dir st TargetTde;
        target_key ← open_pg_tde_get_smgr_key rlocator;
        let c := current_tde_file st in
        mret (with_current
                match source_key with
                | Some _ => mkCurrentFile source_key target_key relpath rlocator segNo
                | None => mkCurrentFile source_key target_key (ctf_path c) (ctf_rlocator c) (ctf_segNo c)
                end st)
    end.

(** ** tde_ops.c: WAL segments *)

Fixpoint wal_seg_loop (fuel : nat) (st : RewindState) (fd : string) (offset tli segno : Z) : M RewindState :=
  match fuel with
  | O => out_of_fuel
  | S fuel =>
      r ← pg_pread fd XLOG_BLCKSZ offset;
      match r with
      | None | Some [] => mret st
      | Some buf =>
          let read_len := Z.of_nat (length buf) in
          st ← set_data_dir st TargetTde;
          buf ← TDEXLogCryptBuffer None buf read_len offset tli segno WalSegSz;
          st ← set_data_dir st TmpSource;
          buf ← TDEXLogCryptBuffer None buf read_len offset tli segno WalSegSz;
          n ← pg_pwrite fd buf offset;
          if negb (n =? read_len) then mret st
          else wal_seg_loop fuel st fd (offset + read_len) tli segno
      end
  end.

Definition ensure_tde_wal_seg (st : RewindState) (relpath : string) : M RewindState :=
  if dry_run then mret st
  else
    match XLogFromFileName (file_name (bytes_of relpath)) WalSegSz with
    | None => ereport PANIC "division by zero"
    | Some (tli, segno) =>
        r ← OpenTransientFile (target_path relpath) false false;
        match r with
        | OpenFailed _ => mret st
        | Fd fd =>
            fuel ← file_fuel fd;
            wal_seg_loop fuel st fd 0 tli segno
        end
    end.

Fixpoint archive_wal_loop (st : RewindState) (segs : list string) : M RewindState :=
  match segs with
  | [] => mret st
  | segpath :: segs =>
      if bool_decide (segpath ∈ keepwal st) then archive_wal_loop st segs
      else
        exists_ ← access_F_OK (target_path segpath);
        if negb exists_ then archive_wal_loop st segs
        else
          st ← ensure_tde_wal_seg st segpath;
          archive_wal_loop st segs
  end.

Definition ensure_tde_archive_wal (st : RewindState) : M RewindState := archive_wal_loop st (archive_wal_segments st).

(** ** local_source.c *)

Fixpoint fetch_file_loop (fuel : nat) (st : RewindState) (srcfd : string) (written_len : Z) : M Z :=
  match fuel with
  | O => out_of_fuel
  | S fuel =>
      r ← pg_pread srcfd BLCKSZ written_len;
      match r with
      | None => ereport FATAL "could not read file"
      | Some [] => mret written_len
      | Some buf =>
          write_target_range st buf written_len;;
          fetch_file_loop fuel st srcfd (written_len + Z.of_nat (length buf))
      end
  end.

Definition local_queue_fetch_file (st : RewindState) (path : string) (len : Z) : M RewindState :=
  srcfd ← open_file (source_path path) false;
  st ← open_target_file st path true;
  fuel ← file_fuel srcfd;
  written_len ← fetch_file_loop fuel st srcfd 0;
  if negb (written_len =? len) then ereport FATAL "size of source file changed concurrently" else mret st.

(** The buffer keeps what a short read leaves in it. *)
Fixpoint fetch_range_loop (fuel : nat) (st : RewindState) (srcfd : string) (buf : bytes) (begin end_ : Z) : M unit :=
  if end_ - begin <=? 0 then mret tt
  else
    match fuel with
    | O => out_of_fuel
    | S fuel =>
        let thislen := if BLCKSZ <? end_ - begin then BLCKSZ else end_ - begin in
        r ← pg_pread srcfd thislen begin;
        match r with
        | None => ereport FATAL "could not read file"
        | Some [] => ereport FATAL "unexpected EOF while reading file"
        | Some data =>
            buf ← tde_reencrypt_block st (write_at 0 data buf) begin MAIN_FORKNUM;
            write_target_range st (take (length data) buf) begin;;
            fetch_range_loop fuel st srcfd buf (begin + Z.of_nat (length data)) end_
        end
    end.

Definition local_queue_fetch_range (st : RewindState) (path : string) (off len : Z) : M RewindState :=
  srcfd ← open_file (source_path path) false;
  st ← open_target_file st path false;
  st ← ensure_tde_keys st path;
  buf ← uninit (Z.to_nat BLCKSZ);
  fetch_range_loop (Z.to_nat len) st srcfd buf off (off + len);;
  mret st.

Definition local_finish_fetch (st : RewindState) : M RewindState := flush_current_tde_rel_key st.

(** ** pg_rewind.c *)

(** [rewind_source]: where the files come from. *)
Class RewindSource := {
  queue_fetch_file : RewindState → string → Z → M RewindState;
  queue_fetch_range : RewindState → string → Z → Z → M RewindState;
  finish_fetch : RewindState → M RewindState;
}.

Section plan.
Context {SRC : RewindSource}.

Fixpoint fetch_pages (st : RewindState) (path : string) (blks : list Z) : M RewindState :=
  match blks with
  | [] => mret st
  | blkno :: blks =>
      st ← queue_fetch_range st path (u32 (blkno * BLCKSZ)) BLCKSZ;
      fetch_pages st path blks
  end.

Definition side_size (s : option file_side) : Z := default 0 (fs_size <$> s).

Definition perform_action (st : RewindState) (entry : file_entry_t) : M RewindState :=
  let no_pages := match target_pages_to_overwrite entry with [] => true | _ => false end in
  match fe_action entry with
  | FILE_ACTION_NONE => mret st
  | FILE_ACTION_ENSURE_TDE_KEY => if no_pages then ensure_tde_keys st (fe_path entry) else mret st
  | FILE_ACTION_ENSURE_WAL_SEG => ensure_tde_wal_seg st (fe_path entry)
  | FILE_ACTION_COPY => queue_fetch_file st (fe_path entry) (side_size (fe_source entry))
  | FILE_ACTION_TRUNCATE =>
      truncate_target_file (fe_path entry) (side_size (fe_source entry));;
      if no_pages then ensure_tde_keys st (fe_path entry) else mret st
  | FILE_ACTION_COPY_TAIL =>
      queue_fetch_range st (fe_path entry) (side_size (fe_target entry))
        (u64 (side_size (fe_source entry) - side_size (fe_target entry)))
  | FILE_ACTION_REMOVE => remove_target entry;; mret st
  | FILE_ACTION_CREATE => create_target entry;; mret st
  | FILE_ACTION_UNDECIDED => ereport FATAL "no action decided for file"
  end.

Definition rewind_entry (st : RewindState) (entry : file_entry_t) : M RewindState :=
  st ← fetch_pages st (fe_path entry) (datapagemap_iterate (target_pages_to_overwrite entry));
  perform_action st entry.

Fixpoint rewind_entries (st : RewindState) (filemap : list file_entry_t) : M RewindState :=
  match filemap with
  | [] => mret st
  | entry :: filemap => st ← rewind_entry st entry; rewind_entries st filemap
  end.

(** Up to the control file, which is fetched last. *)
Definition perform_rewind (st : RewindState) (filemap : list file_entry_t) : M RewindState :=
  st ← rewind_entries st filemap;
  st ← finish_fetch st;
  st ← ensure_tde_archive_wal (close_target_file st);
  fetch_tde_dir st.

End plan.

#[export] Instance local_source : RewindSource := {|
  queue_fetch_file := local_queue_fetch_file;
  queue_fetch_range := local_queue_fetch_range;
  finish_fetch := local_finish_fetch;
|}.

End rewind.
