(* ===== verification/RewindThms.v ===== *)
(** What pg_rewind does to one encrypted relation: its file gets the blocks of the
    source under the key of the target, and the target ends up with that key; and
    what goes wrong for relations of more than one segment. *)
From stdpp Require Import functions.
From S2P Require Import Prelude Types Environ Instances Ciphers EncTde KeyFile KeyMap KeyMapSpec WalKeys WalKeysSpec.
From S2P Require Import WalKeysThms XLogSmgr XLogSmgrSpec XLogSmgrThms ArchiveTools ArchiveThms SmgrSpec FileMap FileMapThms Rewind.

(** ** Directories *)

Section dirs.
Context {SSL : OpenSSL} {Spec : OpenSSLSpec SSL} {K : Kernel} {NF : NoFaults K} {PKS : PrincipalKeys} {RP : RelPath} {RE : RewindEnv}.

Definition all_key_files (fs : gmap string bytes) : Prop := ∀ p, is_Some (fs !! p) → is_key_file p = true.

Definition dirs_wf (st : RewindState) : Prop := ∀ d, all_key_files (dir_files (rw_dirs st d)).

Lemma key_files_lookup fs p : key_files fs !! p = if is_key_file p then fs !! p else None.
Proof.
  apply option_eq. intros bs. unfold key_files. rewrite map_lookup_filter_Some. cbn [fst]. destruct (is_key_file p); naive_solver.
Qed.

Lemma other_files_lookup fs p : other_files fs !! p = if is_key_file p then None else fs !! p.
Proof.
  apply option_eq. intros bs. unfold other_files. rewrite map_lookup_filter_Some. cbn [fst]. destruct (is_key_file p); naive_solver.
Qed.

Lemma key_files_all fs : all_key_files (key_files fs).
Proof. intros p [bs H]. rewrite key_files_lookup in H. by destruct (is_key_file p). Qed.

Lemma merged_lookup dir fs p :
  all_key_files dir → (dir ∪ other_files fs) !! p = if is_key_file p then dir !! p else fs !! p.
Proof.
  intros Hd. rewrite lookup_union, other_files_lookup. destruct (is_key_file p) eqn:E.
  - by destruct (dir !! p).
  - destruct (dir !! p) eqn:Ed; [|by destruct (fs !! p)]. rewrite Hd in E; [done|by eexists].
Qed.

Lemma merged_keys dir fs : all_key_files dir → key_files (dir ∪ other_files fs) = dir.
Proof.
  intros Hd. apply map_eq. intros p. rewrite key_files_lookup, merged_lookup by done.
  destruct (is_key_file p) eqn:E; [done|]. destruct (dir !! p) eqn:Ed; [|done]. rewrite Hd in E; [done|by eexists].
Qed.

Lemma get_dir_wf st d w : dirs_wf st → all_key_files (dir_files (get_dir st d w)).
Proof. intros Hd. unfold get_dir. case_decide; [apply key_files_all|apply Hd]. Qed.

(** What the steps below leave alone: the other directories, the files outside
    of the directories, and the rest of the state that matters. *)
Record same_but (P : TdeDir → Prop) (Q : string → Prop) (st : RewindState) (w : World) (st' : RewindState) (w' : World) : Prop := {
  sb_dirs d : ¬ P d → get_dir st' d w' = get_dir st d w;
  sb_files p : is_key_file p = false → ¬ Q p → w_fs w' !! p = w_fs w !! p;
  sb_lock : w_enc_lock w' = w_enc_lock w;
  sb_ctxs : ctxs_ok w → ctxs_ok w';
  sb_wf : dirs_wf st → dirs_wf st';
  sb_tde : source_has_tde st' = source_has_tde st;
  sb_keep : keepwal st' = keepwal st;
  sb_segs : archive_wal_segments st' = archive_wal_segments st;
  sb_queue : request_queue st' = request_queue st;
  sb_count : num_requests st' = num_requests st;
}.

Lemma same_but_refl P Q st w : same_but P Q st w st w.
Proof. by split. Qed.

Lemma same_but_trans P Q st w st1 w1 st2 w2 :
  same_but P Q st w st1 w1 → same_but P Q st1 w1 st2 w2 → same_but P Q st w st2 w2.
Proof.
  intros [A1 A2 A3 A4 A5 A6 A7 A8 A9 A10] [B1 B2 B3 B4 B5 B6 B7 B8 B9 B10]. split; try congruence; auto.
  - intros d Hd. by rewrite B1, A1.
  - intros p Hp Hq. by rewrite B2, A2.
Qed.

Lemma same_but_weaken (P P' : TdeDir → Prop) (Q Q' : string → Prop) st w st' w' :
  (∀ d, P d → P' d) → (∀ p, Q p → Q' p) → same_but P Q st w st' w' → same_but P' Q' st w st' w'.
Proof. intros HP HQ [? ? ? ? ? ? ? ? ? ?]. split; auto. Qed.

Definition nothing {A} : A → Prop := λ _, False.

Lemma rewind_set_data_dir_ok st d w :
  dirs_wf st → ∃ st' w', set_data_dir st d w = Ok st' w' ∧ rw_dir st' = d ∧ same_but nothing nothing st w st' w' ∧
    current_tde_file st' = current_tde_file st ∧ dstfd st' = dstfd st ∧ wal_key_cache (w_wal w') = [] ∧ w_xsmgr w' = w_xsmgr w.
Proof.
  intros Hwf. unfold set_data_dir. rewrite (bind_ok (gets _) _ w _ w eq_refl). cbv zeta.
  set (dirs := <[rw_dir st := _]> (rw_dirs st)).
  assert (∀ d', dirs d' = get_dir st d' w) as Hdirs.
  { intros d'. unfold dirs, get_dir at 2. case_decide; [subst; rewrite fn_lookup_insert; unfold get_dir; by rewrite decide_True|by rewrite fn_lookup_insert_ne]. }
  assert (∀ d', all_key_files (dir_files (dirs d'))) as Hall by (intros d'; rewrite Hdirs; by apply get_dir_wf).
  eexists (with_dirs d dirs st), _. split; [reflexivity|]. split; [done|]. split; [|done]. split; try done.
  - intros d' _. rewrite <-Hdirs. unfold get_dir. cbn [with_dirs rw_dir rw_dirs]. case_decide; [|done]. subst d'.
    cbn. rewrite merged_keys by done. by destruct (dirs d).
  - intros p Hp _. cbn. by rewrite merged_lookup, Hp.
Qed.

(** ** Copying directories *)

Lemma put_dir_ok st d dir w :
  dirs_wf st → all_key_files (dir_files dir) →
  ∃ st' w', put_dir st d dir w = Ok st' w' ∧ same_but (eq d) nothing st w st' w' ∧ get_dir st' d w' = dir ∧
    rw_dir st' = rw_dir st ∧ current_tde_file st' = current_tde_file st ∧ dstfd st' = dstfd st.
Proof.
  intros Hwf Hd. unfold put_dir. destruct (decide (d = rw_dir st)) as [E|E].
  - eexists st, _. split; [reflexivity|]. split; [|split; [|done]].
    + split; try done.
      * intros d' Hd'. unfold get_dir. rewrite decide_False by congruence. by rewrite decide_False by congruence.
      * intros p Hp _. cbn. by rewrite merged_lookup, Hp.
    + unfold get_dir. rewrite decide_True by done. cbn. rewrite merged_keys by done. by destruct dir.
  - eexists _, w. split; [reflexivity|]. split; [|split; [|done]].
    + split; try done.
      * intros d' Hd'. unfold get_dir. cbn. case_decide; [done|]. by rewrite fn_lookup_insert_ne.
      * intros _ d'. cbn. destruct (decide (d' = d)) as [->|]; [by rewrite fn_lookup_insert|rewrite fn_lookup_insert_ne by done; apply Hwf].
    + unfold get_dir. cbn. rewrite decide_False by done. by rewrite fn_lookup_insert.
Qed.

Lemma copy_files_ok d files : ∀ st w,
  dirs_wf st → Forall (λ f, is_key_file f.1 = true) files →
  ∃ st' w', copy_files st d files w = Ok st' w' ∧ same_but (eq d) nothing st w st' w' ∧
    get_dir st' d w' =
      mkKeyDir (foldl (λ m f, <[f.1 := f.2]> m) (dir_files (get_dir st d w)) files) (dir_keys (get_dir st d w)) ∧
    rw_dir st' = rw_dir st ∧ current_tde_file st' = current_tde_file st ∧ dstfd st' = dstfd st.
Proof.
  induction files as [|f files IH]; intros st w Hwf Hf; cbn [copy_files].
  { exists st, w. split; [reflexivity|]. split; [apply same_but_refl|]. split; [by destruct (get_dir st d w)|done]. }
  apply Forall_cons in Hf as [Hf Hfs].
  destruct (put_dir_ok st d (mkKeyDir (<[f.1 := f.2]> (dir_files (get_dir st d w))) (dir_keys (get_dir st d w))) w Hwf)
    as (st1 & w1 & E1 & S1 & G1 & R1 & C1 & D1).
  { intros p. cbn. destruct (decide (p = f.1)) as [->|]; [done|]. rewrite lookup_insert_ne by done. by apply get_dir_wf. }
  assert (copy_file st d f w = Ok st1 w1) as Ec.
  { unfold copy_file. rewrite (bind_ok (gets w_fs) _ w _ w eq_refl), no_fault. by rewrite (bind_ok (gets _) _ w _ w eq_refl). }
  rewrite (bind_ok _ _ _ _ _ Ec). destruct (IH st1 w1 (sb_wf _ _ _ _ _ _ S1 Hwf) Hfs) as (st2 & w2 & E2 & S2 & G2 & R2 & C2 & D2).
  exists st2, w2. split; [done|]. split; [by eapply same_but_trans|]. split; [|by rewrite R2, C2, D2].
  rewrite G2, G1. done.
Qed.

Lemma foldl_insert_map (m : gmap string bytes) :
  foldl (λ m f, <[f.1 := f.2]> m) ∅ (map_to_list m) = m.
Proof.
  assert (∀ l (m0 : gmap string bytes), NoDup l.*1 → foldl (λ m f, <[f.1 := f.2]> m) m0 l = list_to_map l ∪ m0) as H.
  { induction l as [|[p bs] l IH]; intros m0 Hnd; cbn; [by rewrite map_empty_union|].
    apply NoDup_cons in Hnd as [Hn Hnd]. rewrite IH by done. rewrite <-insert_union_r by (by apply not_elem_of_list_to_map_1).
    by rewrite insert_union_l. }
  rewrite H by apply NoDup_fst_map_to_list. by rewrite list_to_map_to_list, map_union_empty.
Qed.

(** Copying into a new directory gives a copy. *)
Lemma copy_dir_ok src dst st w :
  dirs_wf st → src ≠ dst → dir_files (get_dir st dst w) = ∅ →
  ∃ st' w', copy_dir st src dst w = Ok st' w' ∧ same_but (eq dst) nothing st w st' w' ∧
    get_dir st' dst w' = get_dir st src w ∧ current_tde_file st' = current_tde_file st ∧ dstfd st' = dstfd st.
Proof.
  intros Hwf Hne He. unfold copy_dir. rewrite (bind_ok (gets _) _ w _ w eq_refl).
  destruct (copy_files_ok dst (map_to_list (dir_files (get_dir st src w))) st w Hwf) as (st1 & w1 & E1 & S1 & G1 & R1 & C1 & D1).
  { apply Forall_forall. intros [p bs] H%elem_of_map_to_list. apply (get_dir_wf st src w Hwf). by eexists. }
  rewrite He, foldl_insert_map in G1. rewrite (bind_ok _ _ _ _ _ E1), (bind_ok (gets _) _ w1 _ w1 eq_refl).
  destruct (put_dir_ok st1 dst (mkKeyDir (dir_files (get_dir st1 dst w1)) (dir_keys (get_dir st src w))) w1)
    as (st2 & w2 & E2 & S2 & G2 & R2 & C2 & D2).
  { by apply (sb_wf _ _ _ _ _ _ S1). }
  { apply get_dir_wf, (sb_wf _ _ _ _ _ _ S1), Hwf. }
  exists st2, w2. split; [done|]. split; [by eapply same_but_trans|]. split; [|by rewrite C2, D2].
  rewrite G2, G1. cbn. by destruct (get_dir st src w).
Qed.

Lemma fetch_tde_dir_ok st w :
  dry_run = false → source_has_tde st = true → dirs_wf st →
  ∃ st' w', fetch_tde_dir st w = Ok st' w' ∧ same_but (eq TargetTde) nothing st w st' w' ∧
    get_dir st' TargetTde w' = get_dir st TmpSource w ∧ current_tde_file st' = current_tde_file st.
Proof.
  intros Hdry Htde Hwf. unfold fetch_tde_dir. rewrite Hdry, Htde. cbn [negb].
  destruct (put_dir_ok st TargetTde (mkKeyDir ∅ ∅) w Hwf) as (st1 & w1 & E1 & S1 & G1 & R1 & C1 & D1).
  { intros p [bs H]. cbn in H. by rewrite lookup_empty in H. }
  rewrite (bind_ok _ _ _ _ _ E1). destruct (copy_dir_ok TmpSource TargetTde st1 w1) as (st2 & w2 & E2 & S2 & G2 & C2 & D2).
  { by apply (sb_wf _ _ _ _ _ _ S1). } { done. } { by rewrite G1. }
  exists st2, w2. split; [done|]. split; [by eapply same_but_trans|]. split; [|by rewrite C2].
  rewrite G2. by apply (sb_dirs _ _ _ _ _ _ S1).
Qed.

End dirs.

(** ** Blocks *)

Section blocks.
Context {SSL : OpenSSL} {Spec : OpenSSLSpec SSL} {K : Kernel} {NF : NoFaults K} {PKS : PrincipalKeys} {RP : RelPath} {RE : RewindEnv}.

(** A block as it is read and as it is written. *)
Definition open_page (k : InternalKey) (f bn : Z) (c : bytes) : bytes :=
  if all_zero32 c then c else default [] (page_fn k false f bn c).
Definition seal_page (k : InternalKey) (f bn : Z) (p : bytes) : bytes := default [] (page_fn k true f bn p).

Lemma page_fn_lkey k1 k2 enc f bn p : lkey k1 = lkey k2 → page_fn k1 enc f bn p = page_fn k2 enc f bn p.
Proof. unfold lkey. intros [= H1 H2 H3]. unfold page_fn, page_ivec. by rewrite H1, H2, H3. Qed.

Lemma open_page_ok k f bn c w :
  InternalKey_wf k → page_ok c → ctxs_ok w →
  ∃ w', tde_decrypt_smgr_block k f bn c c w = Ok (open_page k f bn c) w' ∧ page_ok (open_page k f bn c) ∧ ctxs_ok w' ∧ ctx_only w w'.
Proof.
  intros Hk Hc Hw. unfold tde_decrypt_smgr_block, open_page. destruct (all_zero32 c); [by exists w|].
  destruct (smgr_block_run_ctx k false f bn c w Hk Hc Hw) as (w' & p & E & Hp & Hl & Hw' & n & cc & ->).
  exists (put_cc n cc w). rewrite Hp. change (default [] (Some p)) with p. split_and!; [exact E|unfold page_ok in *; by rewrite Hl|done|apply put_cc_only].
Qed.

Lemma seal_page_ok k f bn p w :
  InternalKey_wf k → page_ok p → ctxs_ok w →
  ∃ w', tde_encrypt_smgr_block k f bn p w = Ok (seal_page k f bn p) w' ∧ page_ok (seal_page k f bn p) ∧ ctxs_ok w' ∧ ctx_only w w'.
Proof.
  intros Hk Hp Hw. destruct (encrypt_block_ok k f bn p w Hk Hp Hw) as (ct & w' & E & Hf & Hct & Hw' & Ho).
  exists w'. unfold seal_page. rewrite Hf. cbn [default]. done.
Qed.

Lemma open_seal k f bn p w :
  InternalKey_wf k → page_ok p → ctxs_ok w →
  open_page k f bn (seal_page k f bn p) = if all_zero32 (seal_page k f bn p) then seal_page k f bn p else p.
Proof.
  intros Hk Hp Hw. destruct (encrypt_block_ok k f bn p w Hk Hp Hw) as (ct & w' & E & Hf & Hct & Hw' & Ho).
  unfold open_page, seal_page. rewrite Hf. change (default [] (Some ct)) with ct. destruct (all_zero32 ct); [done|].
  by rewrite (page_fn_inv k f f bn p ct).
Qed.

Definition reencrypted (kS kT : InternalKey) (f bn : Z) (c : bytes) : bytes := seal_page kT f bn (open_page kS f bn c).

Lemma ctx_only_same st w w' : ctx_only w w' → ctxs_ok w' → same_but nothing nothing st w st w'.
Proof.
  intros H Hw'. unfold ctx_only, without_ctxs in H. injection H as Hfs _ Hlock _ _ Hpk _ _ _ _ _ _ _. split; try done.
  - intros d _. unfold get_dir. by rewrite Hfs, Hpk.
  - intros p _ _. by rewrite Hfs.
Qed.

(** The number of a block of a segment. *)
Definition block_no (segNo off : Z) : Z := u32 (off / BLCKSZ + u32 (segNo * RELSEG_SIZE)).

Lemma reencrypt_block_ok st c off f kS kT w :
  source_key (current_tde_file st) = Some kS → target_key (current_tde_file st) = Some kT →
  InternalKey_wf kS → InternalKey_wf kT → page_ok c → ctxs_ok w →
  ∃ w', tde_reencrypt_block st c off f w = Ok (reencrypted kS kT f (block_no (ctf_segNo (current_tde_file st)) off) c) w' ∧
    page_ok (reencrypted kS kT f (block_no (ctf_segNo (current_tde_file st)) off) c) ∧ ctxs_ok w' ∧ ctx_only w w'.
Proof.
  intros HS HT WS WT Hc Hw. unfold tde_reencrypt_block. rewrite HS. cbv zeta. fold (block_no (ctf_segNo (current_tde_file st)) off).
  destruct (open_page_ok kS f (block_no (ctf_segNo (current_tde_file st)) off) c w WS Hc Hw) as (w1 & E1 & P1 & C1 & O1).
  rewrite (bind_ok _ _ _ _ _ E1), HT.
  destruct (seal_page_ok kT f (block_no (ctf_segNo (current_tde_file st)) off) _ w1 WT P1 C1) as (w2 & E2 & P2 & C2 & O2).
  exists w2. split_and!; [exact E2|done|done|by etrans].
Qed.

(** ** Fetching blocks *)

(** The size of a block; sealed, as it is a large unary number. *)
Definition blksz_aux : seal (Z.to_nat BLCKSZ).
Proof. by eexists. Qed.
Definition blksz : nat := blksz_aux.(unseal).

Lemma blksz_to_nat : Z.to_nat BLCKSZ = blksz.
Proof. symmetry. apply (seal_eq blksz_aux). Qed.

Lemma blksz_Z : Z.of_nat blksz = BLCKSZ.
Proof. rewrite <-blksz_to_nat. apply (Z2Nat.id BLCKSZ). discriminate. Qed.

Lemma blksz_mul i : Z.to_nat (BLCKSZ * Z.of_nat i) = (blksz * i)%nat.
Proof. by rewrite <-blksz_Z, <-Nat2Z.inj_mul, Nat2Z.id. Qed.

Lemma blksz_nonempty (l : bytes) : length l = blksz → l ≠ [].
Proof. intros H ->. apply (f_equal Z.of_nat) in H. by rewrite blksz_Z in H. Qed.

Definition block (i : nat) (bs : bytes) : bytes := slice (blksz * i) blksz bs.

(** A block of the main fork under the key of the target; without keys, it stays as
    it is. *)
Definition recoded (ks : option (InternalKey * InternalKey)) (segNo : Z) (i : nat) (c : bytes) : bytes :=
  match ks with
  | Some (kS, kT) => reencrypted kS kT MAIN_FORKNUM (block_no segNo (BLCKSZ * Z.of_nat i)) c
  | None => c
  end.

Definition keys_wf (ks : option (InternalKey * InternalKey)) : Prop :=
  match ks with Some (kS, kT) => InternalKey_wf kS ∧ InternalKey_wf kT | None => True end.

(** The program works with these keys. *)
Definition uses (st : RewindState) (segNo : Z) (ks : option (InternalKey * InternalKey)) : Prop :=
  let c := current_tde_file st in
  match ks with
  | Some (kS, kT) => source_key c = Some kS ∧ target_key c = Some kT ∧ ctf_segNo c = segNo
  | None => source_key c = None
  end.

Lemma recoded_ok st segNo ks i c w :
  uses st segNo ks → keys_wf ks → page_ok c → ctxs_ok w →
  ∃ w', tde_reencrypt_block st c (BLCKSZ * Z.of_nat i) MAIN_FORKNUM w = Ok (recoded ks segNo i c) w' ∧
    page_ok (recoded ks segNo i c) ∧ ctxs_ok w' ∧ ctx_only w w'.
Proof.
  destruct ks as [[kS kT]|]; intros Hu Hk Hc Hw.
  - destruct Hu as (HS & HT & <-), Hk. by apply reencrypt_block_ok.
  - exists w. unfold tde_reencrypt_block. by rewrite Hu.
Qed.

(** Block [i] of the target becomes that of the source. *)
Definition put_with (segNo : Z) (ks : option (InternalKey * InternalKey)) (src : bytes) (bs : bytes) (i : nat) : bytes :=
  write_at (blksz * i) (recoded ks segNo i (block i src)) bs.

Lemma write_range_ok st fd d pos bs w :
  dry_run = false → dstfd st = Some fd → w_fs w !! fd = Some bs → 0 <= pos → d ≠ [] →
  write_target_range st d pos w = Ok tt (set_fs (<[fd := write_at (Z.to_nat pos) d bs]> (w_fs w)) w).
Proof.
  intros Hdry Hfd Hbs Hp Hd. unfold write_target_range. rewrite Hdry, Hfd.
  destruct d as [|b d]; [done|]. cbn [length write_loop].
  rewrite (bind_ok _ _ _ _ _ (pwrite_ok fd (b :: d) pos w bs Hbs Hp)). rewrite (proj2 (Z.ltb_ge _ _)) by lia.
  rewrite Nat2Z.id, drop_ge by done. by destruct (length d).
Qed.

Lemma write_same st w fd x : is_key_file fd = false → same_but nothing (eq fd) st w st (set_fs (<[fd := x]> (w_fs w)) w).
Proof.
  intros Hfd. split; try done.
  - intros d _. unfold get_dir. case_decide; [|done]. f_equal. apply map_eq. intros p. cbn. rewrite !key_files_lookup.
    destruct (is_key_file p) eqn:E; [|done]. by rewrite lookup_insert_ne by congruence.
  - intros p _ Hp. cbn. by rewrite lookup_insert_ne.
Qed.

Lemma fetch_range_ok st segNo ks srcfd fd src n : ∀ fuel i buf bs w,
  dry_run = false → dstfd st = Some fd → srcfd ≠ fd → is_key_file fd = false →
  uses st segNo ks → keys_wf ks → ctxs_ok w → length buf = blksz →
  w_fs w !! srcfd = Some src → w_fs w !! fd = Some bs → (blksz * (i + n) ≤ length src)%nat → (n ≤ fuel)%nat →
  ∃ w', fetch_range_loop fuel st srcfd buf (BLCKSZ * Z.of_nat i) (BLCKSZ * Z.of_nat (i + n)) w = Ok tt w' ∧
    same_but nothing (eq fd) st w st w' ∧ w_fs w' !! fd = Some (foldl (put_with segNo ks src) bs (seq i n)).
Proof.
  intros fuel i buf bs w Hdry Hfd Hne Hk Hu Hkw. pose proof blksz_Z as Hsz. assert (0 < BLCKSZ) as Hpos by done. revert fuel i buf bs w.
  induction n as [|n IH]; intros fuel i buf bs w Hw Hbuf Hsrc Hbs Hlen Hfuel.
  - exists w. split; [|split; [apply same_but_refl|done]]. rewrite Nat.add_0_r.
    destruct fuel; cbn [fetch_range_loop]; by rewrite Z.sub_diag.
  - destruct fuel as [|fuel]; [lia|]. cbn [fetch_range_loop]. rewrite (proj2 (Z.leb_gt _ _)) by lia. cbv zeta.
    set (thislen := if _ : bool then BLCKSZ else _). assert (thislen = BLCKSZ) as ->.
    { unfold thislen. destruct (Z.ltb_spec BLCKSZ (BLCKSZ * Z.of_nat (i + S n) - BLCKSZ * Z.of_nat i)); lia. }
    rewrite (bind_ok _ _ _ _ _ (pread_ok srcfd BLCKSZ (BLCKSZ * Z.of_nat i) w src Hsrc ltac:(lia))).
    rewrite blksz_mul. rewrite blksz_to_nat. fold (block i src).
    assert (length (block i src) = blksz) as Hbl by (unfold block; rewrite slice_length; lia).
    pose proof (blksz_nonempty _ Hbl) as Hbn. revert Hbl Hbn.
    destruct (block i src) as [|b0 bl] eqn:Eb; [intros _ Hbn; by destruct Hbn|]. rewrite <-Eb. clear b0 bl Eb. intros Hbl _.
    replace (write_at 0 (block i src) buf) with (block i src).
    2: { unfold overwrite. simpl. rewrite drop_ge by lia. by rewrite app_nil_r. }
    destruct (recoded_ok st segNo ks i (block i src) w Hu Hkw) as (w1 & E1 & P1 & C1 & O1);
      [unfold page_ok; lia|done|].
    rewrite (bind_ok _ _ _ _ _ E1). set (enc := recoded _ _ _ _) in *.
    assert (length enc = blksz) as Hel by (unfold page_ok in P1; lia).
    rewrite (take_ge enc) by lia. pose proof (ctx_only_same st w w1 O1 C1) as S1.
    assert (w_fs w1 = w_fs w) as Hfs by (unfold ctx_only, without_ctxs in O1; congruence).
    rewrite (bind_ok _ _ _ _ _ (write_range_ok st fd enc (BLCKSZ * Z.of_nat i) bs w1 Hdry Hfd ltac:(by rewrite Hfs) ltac:(lia) (blksz_nonempty enc Hel))).
    rewrite blksz_mul. set (w2 := set_fs _ w1).
    replace (BLCKSZ * Z.of_nat i + Z.of_nat (length (block i src))) with (BLCKSZ * Z.of_nat (S i)) by lia.
    replace (i + S n)%nat with (S i + n)%nat by lia.
    destruct (IH fuel (S i) enc (put_with segNo ks src bs i) w2) as (w3 & E3 & S3 & F3); [done|done| | |lia|lia|].
    { unfold w2. cbn. rewrite lookup_insert_ne by done. by rewrite Hfs. }
    { unfold w2. cbn. by rewrite lookup_insert_eq. }
    exists w3. split; [exact E3|]. split; [|exact F3]. eapply same_but_trans; [|exact S3].
    eapply same_but_trans; [eapply same_but_weaken; [..|exact S1]; [by intros d []|by intros p []]|].
    exact (write_same st w1 fd _ Hk).
Qed.

End blocks.

(** With the keys of a relation. *)
Abbreviation put_block segNo kS kT := (put_with segNo (Some (kS, kT))).

(** ** The keys of a relation *)

Section keys.
Context {SSL : OpenSSL} {Spec : OpenSSLSpec SSL} {K : Kernel} {NF : NoFaults K} {RW : RandWorks SSL}.
Context {PKS : PrincipalKeys} {PKSpec : PrincipalKeysSpec PKS} {RP : RelPath} {RE : RewindEnv}.

(** The keys in a fork file are replaced block by block. *)
Definition put_fork (segNo : Z) (kS kT : InternalKey) (fork : Z) (bs : bytes) (i : nat) : bytes :=
  write_at (blksz * i) (reencrypted kS kT fork (block_no segNo (BLCKSZ * Z.of_nat i)) (block i bs)) bs.

Lemma fork_loop_ok st kS kT fd fork n : ∀ fuel i bs w,
  is_key_file fd = false → source_key (current_tde_file st) = Some kS → target_key (current_tde_file st) = Some kT →
  InternalKey_wf kS → InternalKey_wf kT → ctxs_ok w →
  w_fs w !! fd = Some bs → (blksz * (i + n) ≤ length bs < blksz * (i + n + 1))%nat → (n < fuel)%nat →
  ∃ w', reencrypt_fork_loop fuel st fd (BLCKSZ * Z.of_nat i) fork w = Ok tt w' ∧
    same_but nothing (eq fd) st w st w' ∧ w_fs w' !! fd = Some (foldl (put_fork (ctf_segNo (current_tde_file st)) kS kT fork) bs (seq i n)).
Proof.
  intros fuel i bs w Hk HS HT WS WT. pose proof blksz_Z as Hsz. assert (0 < BLCKSZ) as Hpos by done. revert fuel i bs w.
  induction n as [|n IH]; intros fuel i bs w Hw Hbs Hlen Hfuel; (destruct fuel as [|fuel]; [lia|]); cbn [reencrypt_fork_loop].
  all: rewrite (bind_ok _ _ _ _ _ (pread_ok fd BLCKSZ (BLCKSZ * Z.of_nat i) w bs Hbs ltac:(lia))).
  all: rewrite blksz_mul; rewrite blksz_to_nat; fold (block i bs).
  - exists w. split; [|split; [apply same_but_refl|done]]. rewrite (proj2 (Z.eqb_neq _ _)); [done|].
    unfold block. rewrite slice_length. nia.
  - assert (length (block i bs) = blksz) as Hbl by (unfold block; rewrite slice_length; lia).
    rewrite Hbl. rewrite blksz_Z, Z.eqb_refl. cbn [negb].
    destruct (reencrypt_block_ok st (block i bs) (BLCKSZ * Z.of_nat i) fork kS kT w HS HT WS WT) as (w1 & E1 & P1 & C1 & O1);
      [unfold page_ok; lia|done|].
    rewrite (bind_ok _ _ _ _ _ E1). set (enc := reencrypted _ _ _ _ _) in *.
    assert (length enc = blksz) as Hel by (unfold page_ok in P1; lia).
    pose proof (ctx_only_same st w w1 O1 C1) as S1.
    assert (w_fs w1 = w_fs w) as Hfs by (unfold ctx_only, without_ctxs in O1; congruence).
    rewrite (bind_ok _ _ _ _ _ (pwrite_ok fd enc (BLCKSZ * Z.of_nat i) w1 bs ltac:(by rewrite Hfs) ltac:(lia))).
    rewrite Hel. rewrite blksz_Z, Z.eqb_refl. cbn [negb].
    rewrite blksz_mul. set (w2 := set_fs _ w1).
    replace (BLCKSZ * Z.of_nat i + BLCKSZ) with (BLCKSZ * Z.of_nat (S i)) by lia.
    destruct (IH fuel (S i) (put_fork (ctf_segNo (current_tde_file st)) kS kT fork bs i) w2) as (w3 & E3 & S3 & F3); [done| | |lia|].
    { unfold w2. cbn. by rewrite lookup_insert_eq. }
    { unfold put_fork. fold enc. rewrite overwrite_length, Hel. lia. }
    exists w3. split; [exact E3|]. split; [|exact F3]. eapply same_but_trans; [|exact S3].
    eapply same_but_trans; [eapply same_but_weaken; [..|exact S1]; [by intros d []|by intros p []]|].
    exact (write_same st w1 fd _ Hk).
Qed.

Definition fork_path (st : RewindState) (fork : Z) : string :=
  target_path (relpathperm (ctf_rlocator (current_tde_file st)) fork).

(** All whole blocks of the fork. *)
Definition reencrypted_fork (segNo : Z) (kS kT : InternalKey) (fork : Z) (bs : bytes) : bytes :=
  foldl (put_fork segNo kS kT fork) bs (seq 0 (length bs / blksz)).

Lemma fork_ok st kS kT fork w :
  dry_run = false → is_key_file (fork_path st fork) = false →
  source_key (current_tde_file st) = Some kS → target_key (current_tde_file st) = Some kT →
  InternalKey_wf kS → InternalKey_wf kT → ctxs_ok w →
  ∃ w', reencrypt_fork st fork w = Ok tt w' ∧ same_but nothing (eq (fork_path st fork)) st w st w' ∧
    w_fs w' !! fork_path st fork = reencrypted_fork (ctf_segNo (current_tde_file st)) kS kT fork <$> w_fs w !! fork_path st fork.
Proof.
  intros Hdry Hk HS HT WS WT Hw. unfold reencrypt_fork. rewrite Hdry. cbv zeta. fold (fork_path st fork).
  unfold access_F_OK. rewrite (bind_ok (gets _) _ w _ w eq_refl). destruct (w_fs w !! fork_path st fork) as [bs|] eqn:E.
  - rewrite bool_decide_eq_true_2 by done. cbn [negb]. rewrite (bind_ok _ _ _ _ _ (open_existing _ false w bs E)). cbv iota.
    unfold file_fuel. rewrite (bind_ok (gets _) _ w _ w eq_refl), E. change (default [] (Some bs)) with bs.
    assert (blksz ≠ 0)%nat as Hsz by (pose proof blksz_Z as Hz; intros H0; rewrite H0 in Hz; discriminate). pose proof (Nat.div_mod_eq (length bs) blksz) as Hdm.
    pose proof (Nat.mod_upper_bound (length bs) blksz Hsz) as Hmod.
    destruct (fork_loop_ok st kS kT (fork_path st fork) fork (length bs / blksz) (S (length bs)) 0 bs w) as (w' & E' & S' & F'); [done|done|done|done|done|done|done| | |].
    { cbn [Nat.add]. split; nia. }
    { apply Nat.lt_succ_r, Nat.Div0.div_le_upper_bound. nia. }
    exists w'. split; [exact E'|]. split; [done|]. exact F'.
  - rewrite bool_decide_eq_false_2 by (by intros []). cbn [negb]. exists w. split; [done|]. split; [apply same_but_refl|]. by rewrite E.
Qed.

(** ** Looking up and replacing keys *)

Definition dir_rep (dir : KeyDir) (db : Z) (pk : TDEPrincipalKey) (m : gmap Loc LKey) : Prop :=
  dir_keys dir !! db = Some pk ∧ pk_ok pk ∧ file_rep (dir_files dir) (open_pg_tde_set_db_file_path db) pk m.

Lemma db_path_key db : is_key_file (open_pg_tde_set_db_file_path db) = true.
Proof.
  unfold is_key_file, open_pg_tde_set_db_file_path. by destruct (fmt_d db +:+ "_keys")%string.
Qed.

Lemma file_rep_ext fs fs' p pk m : fs !! p = fs' !! p → file_rep fs p pk m → file_rep fs' p pk m.
Proof. intros E. unfold file_rep. by rewrite E. Qed.

Lemma dir_db_rep st w db pk m : dir_rep (get_dir st (rw_dir st) w) db pk m ↔ db_rep w db pk m.
Proof.
  unfold dir_rep, db_rep, get_dir. rewrite decide_True by done. cbn [dir_keys dir_files].
  split; intros (H1 & H2 & H3); split_and!; try done; (eapply file_rep_ext; [|exact H3]); by rewrite key_files_lookup, db_path_key.
Qed.

Lemma get_key_in_dir st rl pk m lk w :
  dir_rep (get_dir st (rw_dir st) w) (dbOid rl) pk m → w_enc_lock w = None → relNumber rl ≠ 0 → m !! rel_loc rl = Some lk →
  ∃ k, open_pg_tde_get_smgr_key rl w = Ok (Some k) w ∧ lkey k = lk ∧ InternalKey_wf k.
Proof.
  intros Hrep%dir_db_rep Hlock Hn Hm. pose proof (get_smgr_key_spec rl pk m w Hrep Hlock Hn) as H. by rewrite Hm in H.
Qed.

(** The keys of both clusters for a relation. *)
Record rel_keys (st : RewindState) (w : World) (rl : RelFileLocator) (pkS pkT : TDEPrincipalKey)
    (mS mT : gmap Loc LKey) : Prop := {
  rk_source : dir_rep (get_dir st TmpSource w) (dbOid rl) pkS mS;
  rk_target : dir_rep (get_dir st TargetTde w) (dbOid rl) pkT mT;
  rk_lock : w_enc_lock w = None;
  rk_ctxs : ctxs_ok w;
  rk_wf : dirs_wf st;
}.

Lemma rel_keys_same st w st' w' Q rl pkS pkT mS mT :
  rel_keys st w rl pkS pkT mS mT → same_but nothing Q st w st' w' → rel_keys st' w' rl pkS pkT mS mT.
Proof.
  intros [H1 H2 H3 H4 H5] S. split.
  - by rewrite (sb_dirs _ _ _ _ _ _ S) by (intros []).
  - by rewrite (sb_dirs _ _ _ _ _ _ S) by (intros []).
  - by rewrite (sb_lock _ _ _ _ _ _ S).
  - by apply (sb_ctxs _ _ _ _ _ _ S).
  - by apply (sb_wf _ _ _ _ _ _ S).
Qed.

Lemma ensure_keys_ok st path rl seg pkS pkT mS mT lkS lkT w :
  rel_keys st w rl pkS pkT mS mT → source_has_tde st = true → source_key (current_tde_file st) = None →
  ctf_path (current_tde_file st) ≠ path → path_rlocator (bytes_of path) = Some (rl, seg) → relNumber rl ≠ 0 →
  mS !! rel_loc rl = Some lkS → mT !! rel_loc rl = Some lkT →
  ∃ st' w' kS kT, ensure_tde_keys st path w = Ok st' w' ∧ same_but nothing nothing st w st' w' ∧ dstfd st' = dstfd st ∧
    current_tde_file st' = mkCurrentFile (Some kS) (Some kT) path rl seg ∧
    lkey kS = lkS ∧ InternalKey_wf kS ∧ lkey kT = lkT ∧ InternalKey_wf kT.
Proof.
  intros Hrk Htde Hnone Hpath Hloc Hn HS HT. unfold ensure_tde_keys. rewrite Htde, bool_decide_eq_false_2 by done. cbn [negb].
  assert (flush_current_tde_rel_key st w = Ok st w) as Ef by (unfold flush_current_tde_rel_key; by rewrite Hnone).
  rewrite (bind_ok _ _ _ _ _ Ef), Hloc.
  destruct (rewind_set_data_dir_ok st TmpSource w (rk_wf _ _ _ _ _ _ _ Hrk)) as (st1 & w1 & E1 & D1 & S1 & C1 & F1 & _).
  rewrite (bind_ok _ _ _ _ _ E1). pose proof (rel_keys_same _ _ _ _ _ _ _ _ _ _ Hrk S1) as Hrk1.
  destruct (get_key_in_dir st1 rl pkS mS lkS w1) as (kS & EkS & HkS & WkS); [rewrite D1; apply Hrk1|apply Hrk1|done|done|].
  rewrite (bind_ok _ _ _ _ _ EkS).
  destruct (rewind_set_data_dir_ok st1 TargetTde w1 (rk_wf _ _ _ _ _ _ _ Hrk1)) as (st2 & w2 & E2 & D2 & S2 & C2 & F2 & _).
  rewrite (bind_ok _ _ _ _ _ E2). pose proof (rel_keys_same _ _ _ _ _ _ _ _ _ _ Hrk1 S2) as Hrk2.
  destruct (get_key_in_dir st2 rl pkT mT lkT w2) as (kT & EkT & HkT & WkT); [rewrite D2; apply Hrk2|apply Hrk2|done|done|].
  rewrite (bind_ok _ _ _ _ _ EkT).
  eexists _, w2, kS, kT. split; [reflexivity|]. split; [|by rewrite <-F1, <-F2].
  pose proof (same_but_trans _ _ _ _ _ _ _ _ S1 S2) as [A1 A2 A3 A4 A5 A6 A7 A8]. by split.
Qed.

Lemma only_file_same st db w w' :
  only_file (open_pg_tde_set_db_file_path db) w w' → same_but (eq (rw_dir st)) nothing st w st w'.
Proof.
  intros (f & r & -> & Hf). split; try done.
  - intros d Hd. unfold get_dir. by rewrite !decide_False by congruence.
  - intros p Hp _. cbn. apply Hf. intros ->. by rewrite db_path_key in Hp.
Qed.

(** The key of the target replaces the key of the source in the copy. *)
Lemma flush_ok st kS kT path rl seg pkS pkT mS mT w :
  rel_keys st w rl pkS pkT mS mT → dry_run = false →
  current_tde_file st = mkCurrentFile (Some kS) (Some kT) path rl seg → InternalKey_wf kS → InternalKey_wf kT →
  RelFileLocator_wf rl → relNumber rl ≠ 0 →
  is_key_file (fork_path st FSM_FORKNUM) = false → is_key_file (fork_path st VISIBILITYMAP_FORKNUM) = false →
  fork_path st FSM_FORKNUM ≠ fork_path st VISIBILITYMAP_FORKNUM →
  ∃ st' w', flush_current_tde_rel_key st w = Ok st' w' ∧
    same_but (eq TmpSource) (λ p, p = fork_path st FSM_FORKNUM ∨ p = fork_path st VISIBILITYMAP_FORKNUM) st w st' w' ∧
    rel_keys st' w' rl pkS pkT (<[rel_loc rl := lkey kT]> mS) mT ∧ current_tde_file st' = no_current_file ∧ dstfd st' = dstfd st ∧
    (∀ fork, fork = FSM_FORKNUM ∨ fork = VISIBILITYMAP_FORKNUM →
      w_fs w' !! fork_path st fork = reencrypted_fork seg kS kT fork <$> w_fs w !! fork_path st fork) ∧
    dir_keys (get_dir st' TmpSource w') = dir_keys (get_dir st TmpSource w) ∧
    ∀ p, p ≠ open_pg_tde_set_db_file_path (dbOid rl) →
      dir_files (get_dir st' TmpSource w') !! p = dir_files (get_dir st TmpSource w) !! p.
Proof.
  intros Hrk Hdry Hc WS WT Hwf Hn Hk1 Hk2 Hne. unfold flush_current_tde_rel_key. rewrite Hc. cbn [source_key].
  assert (source_key (current_tde_file st) = Some kS ∧ target_key (current_tde_file st) = Some kT) as [HS HT] by (by rewrite Hc).
  destruct (fork_ok st kS kT FSM_FORKNUM w) as (w1 & E1 & S1 & F1); try done; [apply Hrk|]. rewrite (bind_ok _ _ _ _ _ E1).
  pose proof (rel_keys_same _ _ _ _ _ _ _ _ _ _ Hrk S1) as Hrk1.
  destruct (fork_ok st kS kT VISIBILITYMAP_FORKNUM w1) as (w2 & E2 & S2 & F2); try done; [apply Hrk1|]. rewrite (bind_ok _ _ _ _ _ E2).
  pose proof (rel_keys_same _ _ _ _ _ _ _ _ _ _ Hrk1 S2) as Hrk2.
  destruct (rewind_set_data_dir_ok st TmpSource w2 (rk_wf _ _ _ _ _ _ _ Hrk2)) as (st3 & w3 & E3 & D3 & S3 & C3 & F3 & _).
  rewrite (bind_ok _ _ _ _ _ E3). pose proof (rel_keys_same _ _ _ _ _ _ _ _ _ _ Hrk2 S3) as Hrk3.
  rewrite C3, Hc. cbn [target_key ctf_rlocator].
  destruct (save_smgr_key_spec rl kT true pkS mS w3) as (w4 & E4 & R4 & O4); try done.
  { apply (dir_db_rep st3). rewrite D3. apply Hrk3. }
  { apply Hrk3. }
  rewrite Hc in F1, F2. cbn [ctf_segNo] in F1, F2.
  rewrite (bind_ok _ _ _ _ _ E4). eexists _, w4. split; [reflexivity|].
  pose proof (only_file_same st3 (dbOid rl) w3 w4 O4) as S4. rewrite D3 in S4.
  set (Q := λ p, p = fork_path st FSM_FORKNUM ∨ p = fork_path st VISIBILITYMAP_FORKNUM).
  assert (same_but nothing Q st w st3 w3) as S03.
  { eapply same_but_trans; [|eapply same_but_trans; [|eapply same_but_weaken; [..|exact S3]; [done|by intros p []]]].
    - eapply same_but_weaken; [..|exact S1]; [done|by left].
    - eapply same_but_weaken; [..|exact S2]; [done|by right]. }
  assert (same_but (eq TmpSource) Q st w st3 w4) as S04.
  { eapply same_but_trans; [eapply same_but_weaken; [..|exact S03]; [by intros d []|done]|].
    eapply same_but_weaken; [..|exact S4]; [done|by intros p []]. }
  split; [by destruct S04; split|]. split; [|split; [done|split; [exact F3|split]]].
  - pose proof (proj2 (dir_db_rep st3 w4 (dbOid rl) pkS _) R4) as R4'. rewrite D3 in R4'.
    split; [exact R4'| | | |].
    + change (get_dir (with_current no_current_file st3) TargetTde w4) with (get_dir st3 TargetTde w4).
      rewrite (sb_dirs _ _ _ _ _ _ S04) by done. apply Hrk.
    + rewrite (sb_lock _ _ _ _ _ _ S04). apply Hrk.
    + apply (sb_ctxs _ _ _ _ _ _ S04), Hrk.
    + apply (sb_wf _ _ _ _ _ _ S04), Hrk.
  - assert (∀ p, is_key_file p = false → w_fs w4 !! p = w_fs w2 !! p) as H42.
    { intros p Hp. rewrite (sb_files _ _ _ _ _ _ S4), (sb_files _ _ _ _ _ _ S3); [done|done|by intros []|done|by intros []]. }
    intros fork [->| ->]; rewrite H42 by done.
    + rewrite (sb_files _ _ _ _ _ _ S2 _ Hk1 (not_eq_sym Hne)). exact F1.
    + rewrite F2, (sb_files _ _ _ _ _ _ S1 _ Hk2 Hne). reflexivity.
  - rewrite <-(sb_dirs _ _ _ _ _ _ S03 TmpSource) by (intros []). destruct O4 as (f & r & -> & Hfs). unfold get_dir.
    cbn [with_current rw_dir rw_dirs]. rewrite !D3, !decide_True by done. cbn [dir_keys dir_files w_fs set_fs w_pk_cache set_rand]. split; [done|].
    intros p Hp. rewrite !key_files_lookup. destruct (is_key_file p); [|done]. by apply Hfs.
Qed.
End keys.

(** ** One relation *)

Section relation.
Context {SSL : OpenSSL} {Spec : OpenSSLSpec SSL} {K : Kernel} {NF : NoFaults K} {RW : RandWorks SSL}.
Context {PKS : PrincipalKeys} {PKSpec : PrincipalKeysSpec PKS} {RP : RelPath} {RE : RewindEnv}.

Lemma reencrypted_lkey kS kT kS' kT' f bn c :
  lkey kS = lkey kS' → lkey kT = lkey kT' → reencrypted kS kT f bn c = reencrypted kS' kT' f bn c.
Proof.
  intros HS HT. unfold reencrypted, open_page, seal_page. rewrite (page_fn_lkey kS kS' false f bn c HS).
  by rewrite (page_fn_lkey kT kT' true f bn _ HT).
Qed.

Lemma put_block_lkey seg kS kT kS' kT' src l : lkey kS = lkey kS' → lkey kT = lkey kT' →
  ∀ bs, foldl (put_block seg kS kT src) bs l = foldl (put_block seg kS' kT' src) bs l.
Proof.
  intros HS HT. induction l as [|i l IH]; intros bs; [done|]. cbn [foldl]. rewrite IH. f_equal. unfold put_with, recoded.
  by rewrite (reencrypted_lkey kS kT kS' kT').
Qed.

(** The program remembers these keys for the file. *)
Definition loaded (st : RewindState) (path : string) (rl : RelFileLocator) (seg : Z) (kS kT : InternalKey) : Prop :=
  ∃ k1 k2, current_tde_file st = mkCurrentFile (Some k1) (Some k2) path rl seg ∧
    lkey k1 = lkey kS ∧ InternalKey_wf k1 ∧ lkey k2 = lkey kT ∧ InternalKey_wf k2.

Definition fresh (st : RewindState) (path : string) : Prop :=
  source_key (current_tde_file st) = None ∧ ctf_path (current_tde_file st) ≠ path.

(** A relation with keys in both clusters, and its file. *)
Record rel_files (path : string) (rl : RelFileLocator) (seg : Z) (mS mT : gmap Loc LKey) (kS kT : InternalKey) : Prop := {
  rf_dry : dry_run = false;
  rf_safe : path_is_safe_for_extraction path = true;
  rf_loc : path_rlocator (bytes_of path) = Some (rl, seg);
  rf_rel : relNumber rl ≠ 0;
  rf_wf : RelFileLocator_wf rl;
  rf_source : mS !! rel_loc rl = Some (lkey kS);
  rf_target : mT !! rel_loc rl = Some (lkey kT);
  rf_ne : source_path path ≠ target_path path;
  rf_key : is_key_file (target_path path) = false;
}.

Lemma ensure_loaded st path rl seg pkS pkT mS mT kS kT w :
  rel_keys st w rl pkS pkT mS mT → source_has_tde st = true → rel_files path rl seg mS mT kS kT →
  fresh st path ∨ loaded st path rl seg kS kT →
  ∃ st' w', ensure_tde_keys st path w = Ok st' w' ∧ same_but nothing nothing st w st' w' ∧ dstfd st' = dstfd st ∧
    loaded st' path rl seg kS kT.
Proof.
  intros Hrk Htde Hf [[H1 H2]|Hl].
  - destruct (ensure_keys_ok st path rl seg pkS pkT mS mT (lkey kS) (lkey kT) w) as (st' & w' & k1 & k2 & E & S & D & C & L);
      try done; [apply Hf..|].
    exists st', w'. split_and!; try done. exists k1, k2. by split.
  - exists st, w. split_and!; [|apply same_but_refl|done|done]. destruct Hl as (k1 & k2 & C & _).
    unfold ensure_tde_keys. rewrite Htde, C. cbn [negb ctf_path]. by rewrite bool_decide_eq_true_2.
Qed.

Lemma open_target_ok st path bs w :
  dry_run = false → path_is_safe_for_extraction path = true → w_fs w !! target_path path = Some bs →
  open_target_file st path false w = Ok (with_dstfd (Some (target_path path)) st) w.
Proof.
  intros Hdry Hsafe Hbs. unfold open_target_file. rewrite Hsafe, Hdry. cbn [negb]. rewrite andb_true_r.
  destruct (bool_decide_reflect (dstfd st = Some (target_path path))) as [E|_].
  - unfold mret, M_ret. f_equal. destruct st. cbn in *. by subst.
  - by rewrite (bind_ok _ _ _ _ _ (open_existing _ true w bs Hbs)).
Qed.

Lemma dstfd_same st w x : same_but nothing nothing st w (with_dstfd x st) w.
Proof. by split. Qed.

(** Once the keys of the file are known. *)
Lemma queue_range_loaded st path rl seg mS mT kS kT src tgt i n w P Q st2 w2 :
  rel_files path rl seg mS mT kS kT → ctxs_ok w →
  w_fs w !! source_path path = Some src → w_fs w !! target_path path = Some tgt → (blksz * (i + n) ≤ length src)%nat →
  is_key_file (source_path path) = false → ¬ Q (source_path path) → ¬ Q (target_path path) →
  ensure_tde_keys (with_dstfd (Some (target_path path)) st) path w = Ok st2 w2 →
  same_but P Q (with_dstfd (Some (target_path path)) st) w st2 w2 → dstfd st2 = Some (target_path path) → loaded st2 path rl seg kS kT →
  ∃ w', local_queue_fetch_range st path (BLCKSZ * Z.of_nat i) (BLCKSZ * Z.of_nat n) w = Ok st2 w' ∧
    same_but nothing (eq (target_path path)) st2 w2 st2 w' ∧
    w_fs w' !! target_path path = Some (foldl (put_block seg kS kT src) tgt (seq i n)).
Proof.
  intros Hf Hw Hsrc Htgt Hlen Hks HQs HQt E2 S2 D2 L2. unfold local_queue_fetch_range.
  assert (open_file (source_path path) false w = Ok (source_path path) w) as Eo.
  { unfold open_file. by rewrite (bind_ok _ _ _ _ _ (open_existing _ false w src Hsrc)). }
  rewrite (bind_ok _ _ _ _ _ Eo).
  rewrite (bind_ok _ _ _ _ _ (open_target_ok st path tgt w (rf_dry _ _ _ _ _ _ _ Hf) (rf_safe _ _ _ _ _ _ _ Hf) Htgt)).
  rewrite (bind_ok _ _ _ _ _ E2).
  assert (∃ buf, uninit (Z.to_nat BLCKSZ) w2 = Ok buf w2 ∧ length buf = blksz) as (buf & Eb & Hbuf).
  { eexists. split; [reflexivity|]. rewrite blksz_to_nat, length_take, length_app, zeros_length. lia. }
  rewrite (bind_ok _ _ _ _ _ Eb). pose proof L2 as (k1 & k2 & C2 & K1 & W1 & K2 & W2).
  pose proof (sb_files _ _ _ _ _ _ S2) as Hfs.
  replace (BLCKSZ * Z.of_nat i + BLCKSZ * Z.of_nat n) with (BLCKSZ * Z.of_nat (i + n)) by lia.
  destruct (fetch_range_ok st2 seg (Some (k1, k2)) (source_path path) (target_path path) src n (Z.to_nat (BLCKSZ * Z.of_nat n)) i buf tgt w2)
    as (w3 & E3 & S3 & F3).
  { apply Hf. } { done. } { apply Hf. } { apply Hf. } { unfold uses. by rewrite C2. } { done. }
  { apply (sb_ctxs _ _ _ _ _ _ S2), Hw. } { done. }
  { rewrite (Hfs _ Hks HQs). done. } { rewrite (Hfs _ (rf_key _ _ _ _ _ _ _ Hf) HQt). done. } { done. }
  { rewrite blksz_mul. pose proof blksz_Z. assert (0 < BLCKSZ) by done. nia. }
  rewrite (bind_ok _ _ _ _ _ E3). exists w3. split; [reflexivity|]. split; [done|].
  rewrite F3. f_equal. by apply put_block_lkey.
Qed.

Lemma queue_range_ok st path rl seg pkS pkT mS mT kS kT src tgt i n w :
  rel_keys st w rl pkS pkT mS mT → source_has_tde st = true → rel_files path rl seg mS mT kS kT →
  fresh st path ∨ loaded st path rl seg kS kT →
  w_fs w !! source_path path = Some src → w_fs w !! target_path path = Some tgt → (blksz * (i + n) ≤ length src)%nat →
  is_key_file (source_path path) = false →
  ∃ st' w', local_queue_fetch_range st path (BLCKSZ * Z.of_nat i) (BLCKSZ * Z.of_nat n) w = Ok st' w' ∧
    same_but nothing (eq (target_path path)) st w st' w' ∧ loaded st' path rl seg kS kT ∧
    w_fs w' !! target_path path = Some (foldl (put_block seg kS kT src) tgt (seq i n)).
Proof.
  intros Hrk Htde Hf Hcur Hsrc Htgt Hlen Hks. set (st1 := with_dstfd (Some (target_path path)) st).
  destruct (ensure_loaded st1 path rl seg pkS pkT mS mT kS kT w) as (st2 & w2 & E2 & S2 & D2 & L2); try done.
  { exact (rel_keys_same _ _ _ _ _ _ _ _ _ _ Hrk (dstfd_same st w _)). }
  destruct (queue_range_loaded st path rl seg mS mT kS kT src tgt i n w nothing nothing st2 w2) as (w3 & E3 & S3 & F3); try done.
  { apply Hrk. } { intros []. } { intros []. }
  exists st2, w3. split; [exact E3|]. split; [|done].
  eapply same_but_trans; [eapply same_but_weaken; [..|exact (dstfd_same st w (Some (target_path path)))]; [done|by intros p []]|].
  eapply same_but_trans; [|exact S3]. eapply same_but_weaken; [..|exact S2]; [done|by intros p []].
Qed.

Lemma put_block_length seg ks src bs i w :
  keys_wf ks → ctxs_ok w → (blksz * (i + 1) ≤ length src)%nat →
  length (recoded ks seg i (block i src)) = blksz ∧ length (put_with seg ks src bs i) = Nat.max (length bs) (blksz * (i + 1)).
Proof.
  intros Hk Hw Hlen. assert (length (recoded ks seg i (block i src)) = blksz) as Hr.
  { assert (page_ok (block i src)) as Hp.
    { unfold page_ok, block. rewrite slice_length. pose proof blksz_Z. lia. }
    unfold page_ok in Hp. pose proof blksz_Z. destruct ks as [[kS kT]|]; [|cbn; lia]. destruct Hk as [WS WT]. cbn [recoded].
    destruct (open_page_ok kS MAIN_FORKNUM (block_no seg (BLCKSZ * Z.of_nat i)) _ w WS Hp Hw) as (w1 & _ & P1 & C1 & _).
    destruct (seal_page_ok kT MAIN_FORKNUM (block_no seg (BLCKSZ * Z.of_nat i)) _ w1 WT P1 C1) as (w2 & _ & P2 & _).
    unfold page_ok in P2. unfold reencrypted. lia. }
  split; [done|]. unfold put_with. rewrite overwrite_length, Hr. lia.
Qed.

Section pure.
Context (seg : Z) (ks : option (InternalKey * InternalKey)) (src : bytes) (w : World) (Hks : keys_wf ks) (Hw : ctxs_ok w).
Abbreviation put := (put_with seg ks src).
Abbreviation new i := (recoded ks seg i (block i src)).

Lemma block_put bs i j :
  (blksz * (i + 1) ≤ length src)%nat → (blksz * (j + 1) ≤ length bs ∨ i < j ∨ i = j)%nat →
  block j (put bs i) = if decide (i = j) then new j else block j bs.
Proof.
  intros Hi Hj. destruct (put_block_length seg ks src bs i w Hks Hw Hi) as [Hn _]. unfold put_with, block at 1.
  case_decide as E.
  - subst j. rewrite <-Hn at 2. apply slice_overwrite_same.
  - destruct (decide (j < i)%nat).
    + apply slice_overwrite_before; nia.
    + apply slice_overwrite_after. rewrite Hn. nia.
Qed.

(** Blocks that are already there. *)
Lemma blocks_replaced l : ∀ bs,
  Forall (λ i, blksz * (i + 1) ≤ length src ∧ blksz * (i + 1) ≤ length bs)%nat l →
  length (foldl put bs l) = length bs ∧
  ∀ j, (blksz * (j + 1) ≤ length bs)%nat → block j (foldl put bs l) = if decide (j ∈ l) then new j else block j bs.
Proof.
  induction l as [|i l IH]; intros bs Hl; [split; [done|]; intros j _; by rewrite decide_False by (by intros ?%elem_of_nil)|].
  apply Forall_cons in Hl as [[H1 H2] Hl]. cbn [foldl].
  destruct (put_block_length seg ks src bs i w Hks Hw H1) as [_ Hpl].
  assert (length (put bs i) = length bs) as Hpl' by lia.
  destruct (IH (put bs i)) as [L B]; [by rewrite Hpl'|]. rewrite L, Hpl'. split; [done|]. intros j Hj.
  rewrite B by (by rewrite Hpl'). rewrite (block_put bs i j H1 (or_introl Hj)).
  destruct (decide (j ∈ l)) as [Hin|Hnin].
  - rewrite decide_True; [done|by right].
  - destruct (decide (i = j)) as [->|Hne]; [rewrite decide_True; [done|left]|rewrite decide_False; [done|]].
    intros [->|]%elem_of_cons; done.
Qed.

(** Blocks that are appended. *)
Lemma blocks_appended n : ∀ i bs,
  length bs = (blksz * i)%nat → (blksz * (i + n) ≤ length src)%nat →
  length (foldl put bs (seq i n)) = (blksz * (i + n))%nat ∧
  ∀ j, (j < i + n)%nat → block j (foldl put bs (seq i n)) = if decide (i ≤ j)%nat then new j else block j bs.
Proof.
  induction n as [|n IH]; intros i bs Hb Hs; cbn [seq foldl].
  { rewrite Nat.add_0_r in *. split; [done|]. intros j Hj. by rewrite decide_False by lia. }
  destruct (put_block_length seg ks src bs i w Hks Hw) as [_ Hpl]; [nia|].
  destruct (IH (S i) (put bs i)) as [L B]; [rewrite Hpl; nia|nia|]. split; [rewrite L; nia|]. intros j Hj.
  rewrite B by lia. destruct (decide (S i ≤ j)%nat).
  - by rewrite decide_True by lia.
  - rewrite block_put; [|nia|nia]. destruct (decide (i = j)) as [->|]; [by rewrite decide_True by lia|by rewrite decide_False by lia].
Qed.

End pure.

Lemma page_offset b : 0 <= b < RELSEG_SIZE → BLCKSZ * Z.of_nat (Z.to_nat b) = u32 (b * BLCKSZ).
Proof.
  intros Hb. unfold u32. rewrite Z.mod_small; [rewrite Z2Nat.id by lia; apply Z.mul_comm|]. unfold RELSEG_SIZE, BLCKSZ in *. lia.
Qed.

Lemma fetch_pages_ok path rl seg pkS pkT mS mT kS kT src blks : ∀ st tgt w,
  rel_keys st w rl pkS pkT mS mT → source_has_tde st = true → rel_files path rl seg mS mT kS kT →
  fresh st path ∨ loaded st path rl seg kS kT → is_key_file (source_path path) = false →
  w_fs w !! source_path path = Some src → w_fs w !! target_path path = Some tgt →
  Forall (λ b, 0 <= b < RELSEG_SIZE ∧ (blksz * (Z.to_nat b + 1) ≤ length src)%nat) blks →
  ∃ st' w', fetch_pages st path blks w = Ok st' w' ∧ same_but nothing (eq (target_path path)) st w st' w' ∧
    (blks = [] ∧ st' = st ∨ loaded st' path rl seg kS kT) ∧
    w_fs w' !! target_path path = Some (foldl (put_block seg kS kT src) tgt (Z.to_nat <$> blks)).
Proof.
  induction blks as [|b blks IH]; intros st tgt w Hrk Htde Hf Hcur Hks Hsrc Htgt Hb; cbn [fetch_pages].
  { exists st, w. split; [done|]. split; [apply same_but_refl|]. split; [by left|done]. }
  apply Forall_cons in Hb as [[Hb Hlen] Hbs].
  replace (u32 (b * BLCKSZ)) with (BLCKSZ * Z.of_nat (Z.to_nat b)) by (by apply page_offset).
  destruct (queue_range_ok st path rl seg pkS pkT mS mT kS kT src tgt (Z.to_nat b) 1 w) as (st1 & w1 & E1 & S1 & L1 & F1); try done.
  change (BLCKSZ * Z.of_nat 1) with BLCKSZ in E1.
  assert (queue_fetch_range st path (BLCKSZ * Z.of_nat (Z.to_nat b)) BLCKSZ w = Ok st1 w1) as E1' by exact E1.
  rewrite (bind_ok _ _ _ _ _ E1').
  destruct (IH st1 (put_block seg kS kT src tgt (Z.to_nat b)) w1) as (st2 & w2 & E2 & S2 & L2 & F2); try done.
  { exact (rel_keys_same _ _ _ _ _ _ _ _ _ _ Hrk S1). }
  { by rewrite (sb_tde _ _ _ _ _ _ S1). }
  { by right. }
  { rewrite (sb_files _ _ _ _ _ _ S1); [done|done|]. intros E. by apply (rf_ne _ _ _ _ _ _ _ Hf). }
  exists st2, w2. split; [done|]. split; [by eapply same_but_trans|]. split; [|done]. right.
  destruct L2 as [[-> ->]|]; done.
Qed.

(** ** Executing the plan for a relation *)

(** The entry of a relation file that both clusters have, with [S] blocks in the
    source, [T] in the target, and the pages that were changed. *)
Record relation_entry (e : file_entry_t) (path : string) (src tgt : bytes) (S T : nat) (blks : list Z) : Prop := {
  re_path : fe_path e = path;
  re_src : side_size (fe_source e) = Z.of_nat (length src);
  re_tgt : side_size (fe_target e) = Z.of_nat (length tgt);
  re_slen : length src = (blksz * S)%nat;
  re_tlen : length tgt = (blksz * T)%nat;
  re_max : (Z.of_nat S <= RELSEG_SIZE);
  re_pages : target_pages_to_overwrite e = foldl datapagemap_add [] blks;
  re_blks : Forall (λ b, 0 <= b ∧ (Z.to_nat b < S ∧ Z.to_nat b < T)%nat) blks;
  re_action : fe_action e =
    if decide (T < S)%nat then FILE_ACTION_COPY_TAIL
    else if decide (S < T)%nat then FILE_ACTION_TRUNCATE else FILE_ACTION_ENSURE_TDE_KEY;
}.

(** The file of the target afterwards: as long as the source's; changed and
    missing blocks are those of the source, under the key of the target; the
    others are as they were. *)
Definition rewound_with (seg : Z) (ks : option (InternalKey * InternalKey)) (src tgt : bytes) (S T : nat) (blks : list Z) (new : bytes) : Prop :=
  length new = (blksz * S)%nat ∧
  ∀ j, (j < S)%nat →
    block j new =
      if decide (Z.of_nat j ∈ blks ∨ (T ≤ j)%nat)
      then recoded ks seg j (block j src)
      else block j tgt.

Abbreviation rewound seg kS kT := (rewound_with seg (Some (kS, kT))).

Lemma pages_nonempty b blks : Forall (Z.le 0) (b :: blks) → foldl datapagemap_add [] (b :: blks) ≠ [].
Proof.
  intros H E. pose proof (added_blocks (b :: blks) [] b H) as Ha. apply Forall_cons in H as [H _]. specialize (Ha H).
  rewrite E, bool_decide_eq_true_2 in Ha by left. done.
Qed.

Lemma truncate_ok path n bs w :
  dry_run = false → path_is_safe_for_extraction path = true → w_fs w !! target_path path = Some bs → (n ≤ length bs)%nat →
  truncate_target_file path (Z.of_nat n) w = Ok tt (set_fs (<[target_path path := take n bs]> (w_fs w)) w).
Proof.
  intros Hdry Hsafe Hbs Hn. unfold truncate_target_file. rewrite Hsafe, Hdry. cbn [negb].
  assert (open_file (target_path path) false w = Ok (target_path path) w) as Eo.
  { unfold open_file. by rewrite (bind_ok _ _ _ _ _ (open_existing _ false w bs Hbs)). }
  rewrite (bind_ok _ _ _ _ _ Eo). unfold modify. f_equal. f_equal. rewrite Nat2Z.id. apply map_eq. intros p.
  destruct (decide (p = target_path path)) as [->|Hp].
  - rewrite lookup_alter_eq, lookup_insert_eq, Hbs. cbn. f_equal. apply take_app_le. done.
  - by rewrite lookup_alter_ne, lookup_insert_ne.
Qed.

Lemma block_take n j bs : (blksz * (j + 1) ≤ n)%nat → block j (take n bs) = block j bs.
Proof.
  intros H. unfold block, slice. rewrite !take_drop_commute, take_take. by rewrite Nat.min_l by nia.
Qed.

(** The target's file with the blocks that were changed taken from the source. *)
Definition pages_replaced (seg : Z) (ks : option (InternalKey * InternalKey)) (src tgt : bytes) (T : nat) (blks : list Z) (tgt1 : bytes) : Prop :=
  length tgt1 = length tgt ∧
  ∀ j, (j < T)%nat → block j tgt1 = if decide (Z.of_nat j ∈ blks)
    then recoded ks seg j (block j src) else block j tgt.

Lemma pages_put e path seg ks src tgt S T blks w :
  keys_wf ks → ctxs_ok w → relation_entry e path src tgt S T blks →
  let l := datapagemap_iterate (foldl datapagemap_add [] blks) in
  Forall (λ b, 0 <= b < RELSEG_SIZE ∧ (Z.to_nat b < S)%nat) l ∧ (l = [] → blks = []) ∧
  pages_replaced seg ks src tgt T blks (foldl (put_with seg ks src) tgt (Z.to_nat <$> l)).
Proof.
  intros Hks Hw He l. destruct He as [Hp Hss Hst Hsl Htl Hmax Hpg Hbl Ha].
  assert (Forall (Z.le 0) blks) as Hb0 by (eapply Forall_impl; [exact Hbl|]; by intros b [? _]).
  destruct (page_blocks blks Hb0) as [Hin _]. fold l in Hin.
  destruct (blocks_replaced seg ks src w Hks Hw (Z.to_nat <$> l) tgt) as [Hl1 Hb1].
  { apply Forall_fmap, Forall_forall. intros b Hb%Hin. eapply Forall_forall in Hbl as (H0 & H1 & H2); [|exact Hb]. cbn. nia. }
  split; [|split; [|split; [done|]]].
  - apply Forall_forall. intros b Hb%Hin. eapply Forall_forall in Hbl as (H0 & H1 & H2); [|exact Hb]. unfold RELSEG_SIZE in *. lia.
  - intros Hnil. destruct blks as [|b blks]; [done|]. assert (b ∈ l) as Hb by (apply Hin; left). rewrite Hnil in Hb. by apply elem_of_nil in Hb.
  - intros j Hj. rewrite Hb1 by nia. assert (j ∈ Z.to_nat <$> l ↔ Z.of_nat j ∈ blks) as Hiff.
    { rewrite list_elem_of_fmap. setoid_rewrite Hin. split.
      - intros (b & -> & Hb). eapply Forall_forall in Hbl as (H0 & _); [|exact Hb]. by rewrite Z2Nat.id by lia.
      - intros Hb. exists (Z.of_nat j). by rewrite Nat2Z.id. }
    destruct (decide (j ∈ Z.to_nat <$> l)), (decide (Z.of_nat j ∈ blks)); naive_solver.
Qed.

(** The blocks that were changed. *)
Lemma pages_fetched e path rl seg pkS pkT mS mT kS kT src tgt S T blks st w :
  rel_keys st w rl pkS pkT mS mT → source_has_tde st = true → rel_files path rl seg mS mT kS kT →
  InternalKey_wf kS → InternalKey_wf kT → fresh st path → is_key_file (source_path path) = false →
  w_fs w !! source_path path = Some src → w_fs w !! target_path path = Some tgt → relation_entry e path src tgt S T blks →
  ∃ st1 w1 tgt1, fetch_pages st path (datapagemap_iterate (foldl datapagemap_add [] blks)) w = Ok st1 w1 ∧
    same_but nothing (eq (target_path path)) st w st1 w1 ∧ (blks = [] ∧ st1 = st ∨ loaded st1 path rl seg kS kT) ∧
    w_fs w1 !! target_path path = Some tgt1 ∧ pages_replaced seg (Some (kS, kT)) src tgt T blks tgt1.
Proof.
  intros Hrk Htde Hf WS WT Hfresh Hks Hsrc Htgt He. pose proof (rk_ctxs _ _ _ _ _ _ _ Hrk) as Hw.
  destruct (pages_put e path seg (Some (kS, kT)) src tgt S T blks w (conj WS WT) Hw He) as (Hl & Hnil & Hput). set (l := datapagemap_iterate _) in *.
  destruct (fetch_pages_ok path rl seg pkS pkT mS mT kS kT src l st tgt w) as (st1 & w1 & E1 & S1 & L1 & F1); try done.
  { by left. }
  { eapply Forall_impl; [exact Hl|]. intros b [Hb HbS]. split; [done|]. rewrite (re_slen _ _ _ _ _ _ _ He). nia. }
  exists st1, w1, (foldl (put_block seg kS kT src) tgt (Z.to_nat <$> l)). split_and!; [done|done| |done|done].
  destruct L1 as [[? ->]|]; [left; split; [by apply Hnil|done]|by right].
Qed.

(** The keys are looked up even if no page was changed. *)
Lemma ensure_without_pages path rl seg pkS pkT mS mT kS kT blks st w :
  rel_keys st w rl pkS pkT mS mT → source_has_tde st = true → rel_files path rl seg mS mT kS kT →
  Forall (Z.le 0) blks → (blks = [] ∧ fresh st path ∨ loaded st path rl seg kS kT) →
  ∃ st' w', (if match foldl datapagemap_add [] blks with [] => true | _ => false end
             then ensure_tde_keys st path else mret st) w = Ok st' w' ∧
    same_but nothing nothing st w st' w' ∧ loaded st' path rl seg kS kT.
Proof.
  intros Hrk Htde Hf Hb0 Hcur. destruct blks as [|b blks].
  - destruct (ensure_loaded st path rl seg pkS pkT mS mT kS kT w) as (st3 & w3 & E3 & S3 & _ & L3); try done.
    { destruct Hcur as [[_ ?]|]; [by left|by right]. }
    exists st3, w3. split; [exact E3|done].
  - pose proof (pages_nonempty b blks Hb0) as Hne. exists st, w. split; [by destruct (foldl _ _ _)|].
    split; [apply same_but_refl|]. by destruct Hcur as [[? _]|].
Qed.

(** Nothing is appended to a file that is not shorter than the source's. *)
Lemma rewound_prefix seg ks src tgt S T blks tgt1 :
  (S ≤ T)%nat → length tgt = (blksz * T)%nat → pages_replaced seg ks src tgt T blks tgt1 →
  rewound_with seg ks src tgt S T blks (take (blksz * S) tgt1).
Proof.
  intros Hle Htl [Hl Hb]. split; [rewrite length_take; nia|]. intros j Hj. rewrite block_take by nia. rewrite Hb by lia.
  destruct (decide (Z.of_nat j ∈ blks)); [by rewrite decide_True by (by left)|]. by rewrite decide_False by (intros [|]; [done|lia]).
Qed.

Lemma rewound_appended seg ks src tgt S T blks tgt1 w :
  keys_wf ks → ctxs_ok w →
  (T ≤ S)%nat → length src = (blksz * S)%nat → length tgt = (blksz * T)%nat → pages_replaced seg ks src tgt T blks tgt1 →
  rewound_with seg ks src tgt S T blks (foldl (put_with seg ks src) tgt1 (seq T (S - T))).
Proof.
  intros Hks Hw Hle Hsl Htl [Hl Hb].
  destruct (blocks_appended seg ks src w Hks Hw (S - T) T tgt1) as [L B]; [lia|nia|]. split; [rewrite L; f_equal; lia|].
  intros j Hj. rewrite B by lia. destruct (decide (T ≤ j)%nat) as [Hj2|Hj2]; [by rewrite decide_True by (by right)|].
  rewrite Hb by lia. destruct (decide (Z.of_nat j ∈ blks)); [by rewrite decide_True by (by left)|].
  by rewrite decide_False by (intros [|]; [done|lia]).
Qed.

Lemma tail_size (src tgt : bytes) S T :
  length src = (blksz * S)%nat → length tgt = (blksz * T)%nat → (T ≤ S)%nat → Z.of_nat S <= RELSEG_SIZE →
  u64 (Z.of_nat (length src) - Z.of_nat (length tgt)) = BLCKSZ * Z.of_nat (S - T) ∧ Z.of_nat (length tgt) = BLCKSZ * Z.of_nat T.
Proof.
  intros -> -> Hle Hmax. unfold u64. rewrite !Nat2Z.inj_mul, blksz_Z. split; [|done].
  rewrite Z.mod_small; unfold RELSEG_SIZE, BLCKSZ in *; lia.
Qed.

Lemma rewind_entry_ok e path rl seg pkS pkT mS mT kS kT src tgt S T blks st w :
  rel_keys st w rl pkS pkT mS mT → source_has_tde st = true → rel_files path rl seg mS mT kS kT →
  InternalKey_wf kS → InternalKey_wf kT → fresh st path → is_key_file (source_path path) = false →
  w_fs w !! source_path path = Some src → w_fs w !! target_path path = Some tgt → relation_entry e path src tgt S T blks →
  ∃ st' w' new, rewind_entry st e w = Ok st' w' ∧ same_but nothing (eq (target_path path)) st w st' w' ∧
    loaded st' path rl seg kS kT ∧ w_fs w' !! target_path path = Some new ∧ rewound seg kS kT src tgt S T blks new.
Proof.
  intros Hrk Htde Hf WS WT Hfresh Hks Hsrc Htgt He. pose proof (rk_ctxs _ _ _ _ _ _ _ Hrk) as Hw.
  destruct (pages_fetched e path rl seg pkS pkT mS mT kS kT src tgt S T blks st w) as (st1 & w1 & tgt1 & E1 & S1 & L1 & F1 & Hput); try done.
  pose proof (proj1 Hput) as Hl1. destruct He as [Hp Hss Hst Hsl Htl Hmax Hpg Hbl Ha]. unfold rewind_entry. rewrite Hp, Hpg, (bind_ok _ _ _ _ _ E1).
  assert (Forall (Z.le 0) blks) as Hb0 by (eapply Forall_impl; [exact Hbl|]; by intros b [? _]).
  pose proof (rel_keys_same _ _ _ _ _ _ _ _ _ _ Hrk S1) as Hrk1.
  assert (source_has_tde st1 = true) as Htde1 by (by rewrite (sb_tde _ _ _ _ _ _ S1)).
  assert (blks = [] ∧ fresh st1 path ∨ loaded st1 path rl seg kS kT) as Hcur by (destruct L1 as [[? ->]|]; [by left|by right]).
  unfold perform_action. rewrite Hp, Hpg, Ha, Hss, Hst. destruct (decide (T < S)%nat) as [Hlt|Hge].
  - destruct (tail_size src tgt S T) as [-> ->]; try done; [lia|].
    destruct (queue_range_ok st1 path rl seg pkS pkT mS mT kS kT src tgt1 T (S - T) w1) as (st2 & w2 & E2 & S2 & L2 & F2); try done.
    { destruct Hcur as [[_ ?]|]; [by left|by right]. }
    { rewrite (sb_files _ _ _ _ _ _ S1); [done|done|]. intros E. by apply (rf_ne _ _ _ _ _ _ _ Hf). }
    { nia. }
    eexists st2, w2, _. split; [exact E2|]. split; [by eapply same_but_trans|]. split; [done|]. split; [exact F2|].
    apply (rewound_appended _ _ _ _ _ _ _ _ w); try done. lia.
  - destruct (decide (S < T)%nat) as [Hlt|Hge2].
    + rewrite (bind_ok _ _ _ _ _ (truncate_ok path (length src) tgt1 w1 (rf_dry _ _ _ _ _ _ _ Hf) (rf_safe _ _ _ _ _ _ _ Hf) F1 ltac:(nia))).
      pose proof (write_same st1 w1 (target_path path) (take (length src) tgt1) (rf_key _ _ _ _ _ _ _ Hf)) as S2. set (w2 := set_fs _ w1) in *.
      destruct (ensure_without_pages path rl seg pkS pkT mS mT kS kT blks st1 w2) as (st3 & w3 & E3 & S3 & L3); try done.
      { exact (rel_keys_same _ _ _ _ _ _ _ _ _ _ Hrk1 S2). }
      exists st3, w3, (take (length src) tgt1). split; [exact E3|]. split; [|split; [done|split]].
      * eapply same_but_trans; [exact S1|]. eapply same_but_trans; [exact S2|]. eapply same_but_weaken; [..|exact S3]; [done|by intros p []].
      * rewrite (sb_files _ _ _ _ _ _ S3); [unfold w2; cbn; by rewrite lookup_insert_eq|apply Hf|by intros []].
      * rewrite Hsl. apply rewound_prefix; [lia|done|done].
    + destruct (ensure_without_pages path rl seg pkS pkT mS mT kS kT blks st1 w1) as (st3 & w3 & E3 & S3 & L3); try done.
      exists st3, w3, tgt1. split; [exact E3|]. split; [|split; [done|split]].
      * eapply same_but_trans; [exact S1|]. eapply same_but_weaken; [..|exact S3]; [done|by intros p []].
      * rewrite (sb_files _ _ _ _ _ _ S3); [done|apply Hf|by intros []].
      * assert (S = T) as -> by lia. rewrite <-(take_ge tgt1 (blksz * T)) by lia. apply rewound_prefix; [lia|done|done].
Qed.

(** ** The whole run *)

(** What a run for one relation starts from: the program has just started, the
    files of the relation are where the two clusters keep them, no WAL segment was
    taken from the archive. *)
Record rewind_input (st : RewindState) (w : World) (path : string) (rl : RelFileLocator) (src tgt : bytes) : Prop := {
  ri_tde : source_has_tde st = true;
  ri_fresh : fresh st path;
  ri_segs : archive_wal_segments st = [];
  ri_src : w_fs w !! source_path path = Some src;
  ri_tgt : w_fs w !! target_path path = Some tgt;
  ri_src_key : is_key_file (source_path path) = false;
  ri_fork_key fork : fork = FSM_FORKNUM ∨ fork = VISIBILITYMAP_FORKNUM → is_key_file (target_path (relpathperm rl fork)) = false;
  ri_fork_main fork : fork = FSM_FORKNUM ∨ fork = VISIBILITYMAP_FORKNUM → target_path (relpathperm rl fork) ≠ target_path path;
  ri_forks : target_path (relpathperm rl FSM_FORKNUM) ≠ target_path (relpathperm rl VISIBILITYMAP_FORKNUM);
}.

(** From the keys in memory to the keys in the files of the target. *)
Lemma finish_ok st path rl seg pkS pkT mS mT kS kT src tgt st0 w0 w :
  rel_keys st w rl pkS pkT mS mT → rel_files path rl seg mS mT kS kT → rewind_input st0 w0 path rl src tgt →
  loaded st path rl seg kS kT → source_has_tde st = true → archive_wal_segments st = [] →
  ∃ st' w', (st ← finish_fetch st; st ← ensure_tde_archive_wal (close_target_file st); fetch_tde_dir st) w = Ok st' w' ∧
    dir_rep (get_dir st' TargetTde w') (dbOid rl) pkS (<[rel_loc rl := lkey kT]> mS) ∧
    w_fs w' !! target_path path = w_fs w !! target_path path ∧ ctxs_ok w'.
Proof.
  intros Hrk Hf Hi (k1 & k2 & C & K1 & W1 & K2 & W2) Htde Hsegs.
  assert (∀ fork, fork_path st fork = target_path (relpathperm rl fork)) as Hfp by (intros fork; unfold fork_path; by rewrite C).
  destruct (flush_ok st k1 k2 path rl seg pkS pkT mS mT w) as (st1 & w1 & E1 & S1 & Hrk1 & C1 & D1 & _); try done; try apply Hf.
  { rewrite Hfp. apply (ri_fork_key _ _ _ _ _ _ Hi). by left. }
  { rewrite Hfp. apply (ri_fork_key _ _ _ _ _ _ Hi). by right. }
  { rewrite !Hfp. apply Hi. }
  assert (finish_fetch st w = Ok st1 w1) as E1' by exact E1. rewrite (bind_ok _ _ _ _ _ E1').
  assert (ensure_tde_archive_wal (close_target_file st1) w1 = Ok (close_target_file st1) w1) as E2.
  { unfold ensure_tde_archive_wal, close_target_file, with_dstfd. cbn [archive_wal_segments]. by rewrite (sb_segs _ _ _ _ _ _ S1), Hsegs. }
  rewrite (bind_ok _ _ _ _ _ E2). pose proof (rel_keys_same _ _ _ _ _ _ _ _ _ _ Hrk1 (dstfd_same st1 w1 None)) as Hrk2.
  destruct (fetch_tde_dir_ok (close_target_file st1) w1) as (st3 & w3 & E3 & S3 & G3 & C3).
  { apply Hf. } { cbn. by rewrite (sb_tde _ _ _ _ _ _ S1). } { apply Hrk2. }
  exists st3, w3. split; [exact E3|]. split; [|split].
  - rewrite G3, <-K2. apply Hrk2.
  - rewrite (sb_files _ _ _ _ _ _ S3 _ (rf_key _ _ _ _ _ _ _ Hf) ltac:(intros [])).
    apply (sb_files _ _ _ _ _ _ S1 _ (rf_key _ _ _ _ _ _ _ Hf)). rewrite !Hfp.
    intros [E|E]; symmetry in E; revert E; apply (ri_fork_main _ _ _ _ _ _ Hi); [by left|by right].
  - apply (sb_ctxs _ _ _ _ _ _ S3), Hrk1.
Qed.

Lemma block_page_ok j S bs : length bs = (blksz * S)%nat → (j < S)%nat → page_ok (block j bs).
Proof. intros Hl Hj. unfold page_ok, block. rewrite slice_length. pose proof blksz_Z. nia. Qed.

(** What is read from a block that was encrypted again. *)
Lemma open_reencrypted kS kT f bn c w :
  InternalKey_wf kS → InternalKey_wf kT → page_ok c → ctxs_ok w → all_zero32 (reencrypted kS kT f bn c) = false →
  open_page kT f bn (reencrypted kS kT f bn c) = open_page kS f bn c.
Proof.
  intros WS WT Hc Hw Hz. destruct (open_page_ok kS f bn c w WS Hc Hw) as (w1 & _ & P1 & C1 & _).
  unfold reencrypted in *. rewrite (open_seal kT f bn _ w1 WT P1 C1). by rewrite Hz.
Qed.

Lemma rewound_reads seg kS kT src tgt S T blks new w :
  InternalKey_wf kS → InternalKey_wf kT → ctxs_ok w → length src = (blksz * S)%nat → rewound seg kS kT src tgt S T blks new →
  ∀ j, (j < S)%nat → all_zero32 (block j new) = false →
    let bn := block_no seg (BLCKSZ * Z.of_nat j) in
    open_page kT MAIN_FORKNUM bn (block j new) =
      if decide (Z.of_nat j ∈ blks ∨ (T ≤ j)%nat)
      then open_page kS MAIN_FORKNUM bn (block j src)
      else open_page kT MAIN_FORKNUM bn (block j tgt).
Proof.
  intros WS WT Hw Hsl [_ Hnew] j Hj Hz. rewrite (Hnew j Hj) in *. destruct (decide _) as [_|_]; [|done].
  apply (open_reencrypted _ _ _ _ _ w); try done. by eapply block_page_ok.
Qed.

(** The blocks of a file determine it. *)
Lemma blocks_ext (a b : bytes) S :
  length a = (blksz * S)%nat → length b = (blksz * S)%nat → (∀ j, (j < S)%nat → block j a = block j b) → a = b.
Proof.
  intros Ha Hb H. assert (0 < blksz)%nat as Hpos by (pose proof blksz_Z; assert (0 < BLCKSZ) by done; lia).
  apply list_eq. intros i. destruct (decide (i < blksz * S)%nat) as [Hi|Hi]; [|by rewrite !lookup_ge_None_2 by lia].
  pose proof (Nat.div_mod_eq i blksz) as Hdm. pose proof (Nat.mod_upper_bound i blksz ltac:(lia)) as Hm.
  assert (i / blksz < S)%nat as Hj by (apply Nat.Div0.div_lt_upper_bound; lia).
  rewrite Hdm, <-!(slice_lookup _ blksz) by done. by apply (f_equal (lookup _) (H _ Hj)).
Qed.

Lemma rewound_unique seg ks src tgt S T blks a b :
  rewound_with seg ks src tgt S T blks a → rewound_with seg ks src tgt S T blks b → a = b.
Proof. intros [La Ha] [Lb Hb]. apply (blocks_ext a b S); [done..|]. intros j Hj. by rewrite Ha, Hb. Qed.

Lemma perform_rewind_ok e path rl seg pkS pkT mS mT kS kT src tgt S T blks st w :
  rel_keys st w rl pkS pkT mS mT → rel_files path rl seg mS mT kS kT → rewind_input st w path rl src tgt →
  InternalKey_wf kS → InternalKey_wf kT → relation_entry e path src tgt S T blks →
  ∃ st' w' new, perform_rewind st [e] w = Ok st' w' ∧
    dir_rep (get_dir st' TargetTde w') (dbOid rl) pkS (<[rel_loc rl := lkey kT]> mS) ∧
    w_fs w' !! target_path path = Some new ∧ rewound seg kS kT src tgt S T blks new.
Proof.
  intros Hrk Hf Hi WS WT He.
  destruct (rewind_entry_ok e path rl seg pkS pkT mS mT kS kT src tgt S T blks st w) as (st1 & w1 & new & E1 & S1 & L1 & F1 & Hnew);
    try done; try apply Hi.
  unfold perform_rewind. cbn [rewind_entries].
  assert ((st ← rewind_entry st e; mret st) w = Ok st1 w1) as E1' by (by rewrite (bind_ok _ _ _ _ _ E1)).
  rewrite (bind_ok _ _ _ _ _ E1').
  destruct (finish_ok st1 path rl seg pkS pkT mS mT kS kT src tgt st w w1) as (st2 & w2 & E2 & R2 & F2 & _); try done.
  { exact (rel_keys_same _ _ _ _ _ _ _ _ _ _ Hrk S1). }
  { rewrite (sb_tde _ _ _ _ _ _ S1). apply Hi. }
  { rewrite (sb_segs _ _ _ _ _ _ S1). apply Hi. }
  exists st2, w2, new. split; [exact E2|]. split; [exact R2|]. by rewrite F2.
Qed.

(** ** Relations of more than one segment *)

Definition is_fork (rl : RelFileLocator) (p : string) : Prop :=
  p = target_path (relpathperm rl FSM_FORKNUM) ∨ p = target_path (relpathperm rl VISIBILITYMAP_FORKNUM).

(** The keys of the next segment of the same relation are looked up after those
    of this one were written. *)
Lemma ensure_next_segment st p0 p1 rl seg0 seg1 pkS pkT mS mT kS kT src0 tgt0 w0 st0 w :
  rel_keys st w rl pkS pkT mS mT → rel_files p1 rl seg1 mS mT kS kT → rewind_input st0 w0 p0 rl src0 tgt0 →
  source_has_tde st = true → loaded st p0 rl seg0 kS kT → p0 ≠ p1 → p1 ≠ EmptyString →
  ∃ st' w', ensure_tde_keys st p1 w = Ok st' w' ∧ same_but (eq TmpSource) (is_fork rl) st w st' w' ∧
    rel_keys st' w' rl pkS pkT (<[rel_loc rl := lkey kT]> mS) mT ∧ dstfd st' = dstfd st ∧ loaded st' p1 rl seg1 kT kT.
Proof.
  intros Hrk Hf Hi Htde (k1 & k2 & C & K1 & W1 & K2 & W2) Hne Hp1.
  assert (∀ fork, fork_path st fork = target_path (relpathperm rl fork)) as Hfp by (intros fork; unfold fork_path; by rewrite C).
  destruct (flush_ok st k1 k2 p0 rl seg0 pkS pkT mS mT w) as (st1 & w1 & E1 & S1 & Hrk1 & C1 & D1 & _); try done; try apply Hf.
  { rewrite Hfp. apply (ri_fork_key _ _ _ _ _ _ Hi). by left. }
  { rewrite Hfp. apply (ri_fork_key _ _ _ _ _ _ Hi). by right. }
  { rewrite !Hfp. apply Hi. }
  rewrite !Hfp in S1. fold (is_fork rl) in S1. rewrite K2 in Hrk1.
  assert (source_has_tde st1 = true) as Htde1 by (by rewrite (sb_tde _ _ _ _ _ _ S1)).
  assert (ensure_tde_keys st p1 w = ensure_tde_keys st1 p1 w1) as ->.
  { unfold ensure_tde_keys. rewrite Htde, Htde1, C, C1. cbn [negb ctf_path no_current_file].
    rewrite !bool_decide_eq_false_2 by congruence.
    assert (flush_current_tde_rel_key st1 w1 = Ok st1 w1) as E2 by (unfold flush_current_tde_rel_key; by rewrite C1).
    by rewrite (bind_ok _ _ _ _ _ E1), (bind_ok _ _ _ _ _ E2). }
  destruct (ensure_keys_ok st1 p1 rl seg1 pkS pkT (<[rel_loc rl := lkey kT]> mS) mT (lkey kT) (lkey kT) w1)
    as (st2 & w2 & q1 & q2 & E2 & S2 & D2 & C2 & L1 & Q1 & L2 & Q2); try done; try apply Hf.
  { by rewrite C1. } { rewrite C1. cbn. congruence. } { apply lookup_insert_eq. }
  exists st2, w2. split; [done|]. split; [|split; [|split; [by rewrite D2|by exists q1, q2]]].
  - eapply same_but_trans; [exact S1|]. eapply same_but_weaken; [..|exact S2]; [by intros d []|by intros p []].
  - exact (rel_keys_same _ _ _ _ _ _ _ _ _ _ Hrk1 S2).
Qed.

(** The pages of the segment, from the one for which the keys are looked up. *)
Lemma next_segment_pages path rl seg pkS pkT mS mT k src tgt b blks st w st2 w2 :
  rel_files path rl seg mS mT k k → is_key_file (source_path path) = false → ctxs_ok w →
  w_fs w !! source_path path = Some src → w_fs w !! target_path path = Some tgt →
  Forall (λ b, 0 <= b < RELSEG_SIZE ∧ (blksz * (Z.to_nat b + 1) ≤ length src)%nat ∧ (blksz * (Z.to_nat b + 1) ≤ length tgt)%nat) (b :: blks) →
  ensure_tde_keys (with_dstfd (Some (target_path path)) st) path w = Ok st2 w2 →
  same_but (eq TmpSource) (is_fork rl) (with_dstfd (Some (target_path path)) st) w st2 w2 → dstfd st2 = Some (target_path path) →
  ¬ is_fork rl (source_path path) → ¬ is_fork rl (target_path path) →
  loaded st2 path rl seg k k → rel_keys st2 w2 rl pkS pkT mS mT → source_has_tde st2 = true →
  ∃ st' w', fetch_pages st path (b :: blks) w = Ok st' w' ∧
    w_fs w' !! target_path path = Some (foldl (put_block seg k k src) tgt (Z.to_nat <$> b :: blks)).
Proof.
  intros Hf Hks Hw Hsrc Htgt Hb E2 S2 D2 HQs HQt L2 Hrk2 Htde2. apply Forall_cons in Hb as [(Hb & Hbs & Hbt) Hbl].
  cbn [fetch_pages]. replace (u32 (b * BLCKSZ)) with (BLCKSZ * Z.of_nat (Z.to_nat b)) by (by apply page_offset).
  destruct (queue_range_loaded st path rl seg mS mT k k src tgt (Z.to_nat b) 1 w (eq TmpSource) (is_fork rl) st2 w2)
    as (w3 & E3 & S3 & F3); try done.
  change (BLCKSZ * Z.of_nat 1) with BLCKSZ in E3.
  assert (queue_fetch_range st path (BLCKSZ * Z.of_nat (Z.to_nat b)) BLCKSZ w = Ok st2 w3) as E3' by exact E3.
  rewrite (bind_ok _ _ _ _ _ E3').
  destruct (fetch_pages_ok path rl seg pkS pkT mS mT k k src blks st2 (put_block seg k k src tgt (Z.to_nat b)) w3)
    as (st4 & w4 & E4 & S4 & _ & F4); try done.
  { exact (rel_keys_same _ _ _ _ _ _ _ _ _ _ Hrk2 S3). }
  { by right. }
  { rewrite (sb_files _ _ _ _ _ _ S3 _ Hks (not_eq_sym (rf_ne _ _ _ _ _ _ _ Hf))).
    rewrite (sb_files _ _ _ _ _ _ S2 _ Hks HQs). done. }
  { eapply Forall_impl; [exact Hbl|]. cbn. tauto. }
  exists st4, w4. split; [exact E4|exact F4].
Qed.

(** C39: of a relation of more than one segment only the first that is processed is
    handled right: writing its key replaces the source's key of the whole relation
    in the program's copy of the keys, so that for the next segment the key of the
    target is taken for that of the source; its blocks, which are encrypted with the
    key of the source, are decrypted with the key of the target, and what the
    target then reads from them is this, not the data of the source. *)
Theorem second_segment_garbled e0 p0 p1 rl seg0 seg1 pkS pkT mS mT kS kT src0 tgt0 src1 tgt1 S T blks0 blks1 st w :
  rel_keys st w rl pkS pkT mS mT →
  rel_files p0 rl seg0 mS mT kS kT → rewind_input st w p0 rl src0 tgt0 → relation_entry e0 p0 src0 tgt0 S T blks0 →
  rel_files p1 rl seg1 mS mT kS kT → rewind_input st w p1 rl src1 tgt1 →
  p0 ≠ p1 → p1 ≠ EmptyString → target_path p0 ≠ target_path p1 → target_path p0 ≠ source_path p1 → ¬ is_fork rl (source_path p1) →
  InternalKey_wf kS → InternalKey_wf kT →
  Forall (λ b, 0 <= b < RELSEG_SIZE ∧ (blksz * (Z.to_nat b + 1) ≤ length src1)%nat ∧ (blksz * (Z.to_nat b + 1) ≤ length tgt1)%nat) blks1 →
  ∃ st' w' new, (st ← rewind_entry st e0; fetch_pages st p1 blks1) w = Ok st' w' ∧
    w_fs w' !! target_path p1 = Some new ∧
    Forall (λ b, let bn := block_no seg1 (BLCKSZ * b) in
      all_zero32 (block (Z.to_nat b) new) = false →
      open_page kT MAIN_FORKNUM bn (block (Z.to_nat b) new) = open_page kT MAIN_FORKNUM bn (block (Z.to_nat b) src1)) blks1.
Proof.
  intros Hrk Hf0 Hi0 He0 Hf1 Hi1 Hne Hp1 Ht01 Hts Hfs WS WT Hb.
  destruct (rewind_entry_ok e0 p0 rl seg0 pkS pkT mS mT kS kT src0 tgt0 S T blks0 st w) as (st1 & w1 & new0 & E1 & S1 & L1 & _);
    try done; try apply Hi0.
  rewrite (bind_ok _ _ _ _ _ E1). pose proof (rel_keys_same _ _ _ _ _ _ _ _ _ _ Hrk S1) as Hrk1.
  assert (w_fs w1 !! source_path p1 = Some src1) as Hsrc.
  { rewrite (sb_files _ _ _ _ _ _ S1 _ (ri_src_key _ _ _ _ _ _ Hi1) Hts). apply Hi1. }
  assert (w_fs w1 !! target_path p1 = Some tgt1) as Htgt.
  { rewrite (sb_files _ _ _ _ _ _ S1 _ (rf_key _ _ _ _ _ _ _ Hf1) Ht01). apply Hi1. }
  assert (source_has_tde st1 = true) as Htde1 by (rewrite (sb_tde _ _ _ _ _ _ S1); apply Hi0).
  destruct blks1 as [|b blks]; [exists st1, w1, tgt1; by split_and!|].
  set (st1' := with_dstfd (Some (target_path p1)) st1).
  destruct (ensure_next_segment st1' p0 p1 rl seg0 seg1 pkS pkT mS mT kS kT src0 tgt0 w st w1) as (st2 & w2 & E2 & S2 & Hrk2 & D2 & L2); try done.
  { exact (rel_keys_same _ _ _ _ _ _ _ _ _ _ Hrk1 (dstfd_same st1 w1 _)). }
  assert (rel_files p1 rl seg1 (<[rel_loc rl := lkey kT]> mS) mT kT kT) as Hf2.
  { destruct Hf1. split; try done. apply lookup_insert_eq. }
  assert (¬ is_fork rl (target_path p1)) as Hft.
  { intros [E|E]; symmetry in E; revert E; apply (ri_fork_main _ _ _ _ _ _ Hi1); [by left|by right]. }
  destruct (next_segment_pages p1 rl seg1 pkS pkT (<[rel_loc rl := lkey kT]> mS) mT kT src1 tgt1 b blks st1 w1 st2 w2)
    as (st3 & w3 & E3 & F3); try done; [apply Hi1|apply Hrk1|by rewrite (sb_tde _ _ _ _ _ _ S2)|].
  exists st3, w3, (foldl (put_block seg1 kT kT src1) tgt1 (Z.to_nat <$> b :: blks)). split; [exact E3|]. split; [exact F3|].
  pose proof (rk_ctxs _ _ _ _ _ _ _ Hrk1) as Hw1.
  destruct (blocks_replaced seg1 (Some (kT, kT)) src1 w1 (conj WT WT) Hw1 (Z.to_nat <$> b :: blks) tgt1) as [_ Hnew].
  { apply Forall_fmap. eapply Forall_impl; [exact Hb|]. cbn. tauto. }
  apply Forall_forall. intros c Hc. eapply Forall_forall in Hb as (Hc0 & Hcs & Hct); [|exact Hc]. cbv zeta.
  rewrite (Hnew _ Hct), decide_True by (by apply list_elem_of_fmap_2). cbn [recoded]. rewrite Z2Nat.id by lia.
  apply (open_reencrypted _ _ _ _ _ w1); try done. unfold page_ok, block. rewrite slice_length. pose proof blksz_Z. lia.
Qed.

End relation.

(** ** Example *)

#[local] Instance example_env : RewindEnv := {|
  datadir_target := "/t"; datadir_source := "/s"; dry_run := false; WalSegSz := 2 ^ 24; path_is_safe_for_extraction _ := true
|}.

Definition seg_path (n : nat) : string := match n with O => "base/5/16384" | _ => "base/5/16384.1" end.
Definition source_seg : bytes := replicate (blksz * 2) x01.
Definition target_seg : bytes := replicate (blksz * 1) x02.
Definition other_key : InternalKey := mkInternalKey 16 CIPHER_AES_128 iv_example key_example.

Definition example_entry : file_entry_t :=
  mkFileEntry (seg_path 0) true (Some (mkFileSide FILE_TYPE_REGULAR (Z.of_nat (length target_seg)) None))
    (foldl datapagemap_add [] [0]) (Some (mkFileSide FILE_TYPE_REGULAR (Z.of_nat (length source_seg)) None)) FILE_ACTION_COPY_TAIL.

Definition with_segments (fs : gmap string bytes) : gmap string bytes :=
  <[source_path (seg_path 0) := source_seg]> (<[source_path (seg_path 1) := source_seg]>
    (<[target_path (seg_path 0) := target_seg]> (<[target_path (seg_path 1) := target_seg]> fs))).

Lemma with_segments_keys fs : key_files (with_segments fs) = key_files fs.
Proof.
  apply map_eq. intros p. rewrite !key_files_lookup. destruct (is_key_file p) eqn:E; [|done]. unfold with_segments.
  rewrite !lookup_insert_ne; [done|..]; intros <-; vm_compute in E; discriminate.
Qed.

Lemma with_segments_lookup fs n :
  (n < 2)%nat → with_segments fs !! source_path (seg_path n) = Some source_seg ∧ with_segments fs !! target_path (seg_path n) = Some target_seg.
Proof.
  intros Hn. unfold with_segments. destruct n as [|[|n]]; [| |lia]; split;
    rewrite ?lookup_insert_eq, ?lookup_insert_ne, ?lookup_insert_eq by discriminate; try done;
    rewrite lookup_insert_ne by discriminate; rewrite ?lookup_insert_ne by discriminate; apply lookup_insert_eq.
Qed.

Lemma db_rep_dir w db pk m : db_rep w db pk m → dir_rep (mkKeyDir (key_files (w_fs w)) (w_pk_cache w)) db pk m.
Proof.
  intros H. pose proof (proj2 (dir_db_rep (mkRewindState TargetTde (λ _, mkKeyDir ∅ ∅) false no_current_file None [] ∅ [] 0) w db pk m) H) as H'.
  unfold get_dir in H'. by rewrite decide_True in H'.
Qed.

(** A process that has set up its ciphers. *)
Definition rewind_world : World := set_pk_cache {[5 := pk5]} world1.

Lemma rewind_world_rep : db_rep rewind_world 5 pk5 ∅.
Proof. split; [done|]. split; [apply pk5_ok|]. left. split; [|done]. left. vm_compute. reflexivity. Qed.

Lemma rewind_example : ∃ st w mS mT,
  rel_keys st w rel1 pk5 pk5 mS mT ∧ num_requests st = 0%nat ∧
  (∀ n, (n < 2)%nat → rel_files (seg_path n) rel1 (Z.of_nat n) mS mT other_key rel_key_example ∧
     rewind_input st w (seg_path n) rel1 source_seg target_seg).
Proof.
  destruct (save_smgr_key_spec rel1 other_key true pk5 ∅ world_db) as (wS & _ & HS & OS);
    [apply world_db_rep|done|apply rel1_wf|done|by split_and!|].
  destruct (save_smgr_key_spec rel1 rel_key_example true pk5 ∅ rewind_world) as (wT & _ & HT & OT);
    [apply rewind_world_rep|done|apply rel1_wf|done|apply rel_key_example_wf|].
  exists (mkRewindState TargetTde (λ _, mkKeyDir (key_files (w_fs wS)) (w_pk_cache wS)) true no_current_file None [] ∅ [] 0),
    (set_fs (with_segments (w_fs wT)) wT), (<[rel_loc rel1 := lkey other_key]> ∅), (<[rel_loc rel1 := lkey rel_key_example]> ∅).
  split; [|split; [done|]].
  - split.
    + unfold get_dir. rewrite decide_False by discriminate. apply db_rep_dir, HS.
    + unfold get_dir. rewrite decide_True by done. cbn [w_fs set_fs w_pk_cache]. rewrite with_segments_keys. apply db_rep_dir, HT.
    + by destruct OT as (f & r & -> & _).
    + destruct OT as (f & r & -> & _). exact world1_ok.
    + intros d. apply key_files_all.
  - intros n Hn. destruct (with_segments_lookup (w_fs wT) n Hn) as [L1 L2]. split.
    + split; try done; try apply rel1_wf; try apply lookup_insert_eq; destruct n as [|[|n]]; try lia; vm_compute; done.
    + split; try done; [split; [done|]|..]; destruct n as [|[|n]]; try lia; try discriminate; try done; intros fork [->| ->]; done.
Qed.

Lemma second_segment_garbled_witness : ∃ st w st' w' new,
  (st ← rewind_entry st example_entry; fetch_pages st (seg_path 1) [0]) w = Ok st' w' ∧ w_fs w' !! target_path (seg_path 1) = Some new ∧
  (all_zero32 (block 0 new) = false →
   open_page rel_key_example MAIN_FORKNUM RELSEG_SIZE (block 0 new) = open_page rel_key_example MAIN_FORKNUM RELSEG_SIZE (block 0 source_seg)).
Proof.
  destruct rewind_example as (st & w & mS & mT & Hrk & _ & Hseg). destruct (Hseg 0%nat ltac:(lia)) as [Hf0 Hi0].
  destruct (Hseg 1%nat ltac:(lia)) as [Hf1 Hi1].
  destruct (second_segment_garbled example_entry (seg_path 0) (seg_path 1) rel1 0 1 pk5 pk5 mS mT other_key rel_key_example
              source_seg target_seg source_seg target_seg 2 1 [0] [0] st w) as (st' & w' & new & E & F & B); try done.
  - split; try done; [apply length_replicate|apply length_replicate|]. repeat constructor; lia.
  - intros [E|E]; discriminate.
  - constructor; [|done]. unfold source_seg, target_seg. rewrite !length_replicate. split; [done|lia].
  - exists st, w, st', w', new. split; [done|]. split; [done|]. exact (proj1 (proj1 (Forall_cons _ _ _) B)).
Defined.
