(* ===== verification/RewindWalThms.v ===== *)
(** WAL segments that pg_rewind keeps in the target: they are encrypted with the
    WAL keys of the target, which are replaced by those of the source, and are
    encrypted again for these. *)
From S2P Require Import Prelude Types Environ Instances Ciphers EncTde KeyFile KeyMap KeyMapSpec WalKeys WalKeysSpec WalKeysThms.
From S2P Require Import XLogSmgr XLogSmgrSpec XLogSmgrThms ArchiveTools ArchiveThms FileMap Rewind RewindThms.

Section wal.
Context {SSL : OpenSSL} {Spec : OpenSSLSpec SSL} {K : Kernel} {NF : NoFaults K} {RW : RandWorks SSL}.
Context {PKS : PrincipalKeys} {PKSpec : PrincipalKeysSpec PKS} {RP : RelPath} {RE : RewindEnv}.

(** ** Directories with WAL keys *)

(** What a directory says about WAL: its principal key and its ranges. *)
Definition wal_dir (dir : KeyDir) (pk : TDEPrincipalKey) (vs : list WRange) : Prop :=
  dir_keys dir !! GLOBAL_DATA_TDE_OID = Some pk ∧ pk_ok pk ∧ wal_file_rep (dir_files dir) pk vs ∧ ranges_ok vs.

(** The process does not write WAL of its own. *)
Definition only_reads (w : World) : Prop := w_enc_lock w = None ∧ enc_key_lsn (w_xsmgr w) = 0.

Lemma wal_dir_rep st w pk vs : wal_dir (get_dir st (rw_dir st) w) pk vs → wal_rep w pk vs.
Proof.
  unfold get_dir. rewrite decide_True by done. intros (H1 & H2 & (h & es & Hf & Hrest) & _). cbn in H1, Hf.
  rewrite key_files_lookup in Hf. split_and!; [done|done|]. exists h, es. by split.
Qed.

Lemma cache_same c b1 b2 st w : same_but nothing nothing st w st (with_cache c b1 b2 w).
Proof. by split. Qed.

(** After a directory was chosen its ranges are used. *)
Lemma choose_dir d pk vs st w :
  dirs_wf st → only_reads w → wal_dir (get_dir st d w) pk vs →
  ∃ st' w', set_data_dir st d w = Ok st' w' ∧ same_but nothing nothing st w st' w' ∧ only_reads w' ∧ rw_dir st' = d ∧ tool_ok pk vs w'.
Proof.
  intros Hwf [Hl Hx] Hdir. destruct (rewind_set_data_dir_ok st d w Hwf) as (st1 & w1 & E1 & R1 & S1 & _ & _ & C1 & X1).
  assert (wal_dir (get_dir st1 (rw_dir st1) w1) pk vs) as Hd1 by (rewrite R1, (sb_dirs _ _ _ _ _ _ S1); [done|by intros []]).
  assert (only_reads w1) as Hr by (split; [by rewrite (sb_lock _ _ _ _ _ _ S1)|by rewrite X1]).
  exists st1, w1. split_and!; try done. split; [by apply (wal_dir_rep st1)|]. split; [apply Hr|]. split; [by left|left; apply Hr].
Qed.

(** One pass over a buffer with the keys of a directory. *)
Lemma crypt_with d pk vs p orig st w :
  dirs_wf st → only_reads w → wal_dir (get_dir st d w) pk vs → piece_ok p → Z.of_nat (length orig) = p_count p →
  ∃ st' w1 w', set_data_dir st d w = Ok st' w1 ∧
    TDEXLogCryptBuffer None orig (p_count p) (p_offset p) (p_tli p) (p_segno p) (p_segSize p) w1 =
      Ok (imap (λ i, segment_byte vs (p_tli p) (p_segno p) (p_segSize p) (Z.to_nat (p_offset p) + i)) orig) w' ∧
    same_but nothing nothing st w st' w' ∧ only_reads w' ∧ rw_dir st' = d ∧ tool_ok pk vs w'.
Proof.
  intros Hwf Hr Hdir Hp Hlen. destruct (choose_dir d pk vs st w Hwf Hr Hdir) as (st1 & w1 & E1 & S1 & R1 & D1 & T1).
  destruct (tool_crypt pk vs (proj2 (proj2 (proj2 Hdir))) p orig true w1 T1 Hp Hlen) as (c & b1 & b2 & E2 & T2).
  exists st1, w1, (with_cache c b1 b2 w1). split_and!; [done|exact E2| |exact R1|done|done].
  eapply same_but_trans; [exact S1|apply cache_same].
Qed.

(** ** Segments *)

Context (tli segno : Z) (Hseg : segment_ok tli segno WalSegSz).
Context (pkT pkS : TDEPrincipalKey) (vT vS : list WRange).

Abbreviation crypt_T := (segment_crypt vT tli segno WalSegSz).
Abbreviation crypt_S := (segment_crypt vS tli segno WalSegSz).
Abbreviation BLK := (Z.to_nat XLOG_BLCKSZ).

(** [fd] is encrypted anew up to [pos]. *)
Record seg_state (fd : string) (seg : bytes) (pos : Z) (st : RewindState) (w : World) : Prop := {
  ss_wf : dirs_wf st;
  ss_reads : only_reads w;
  ss_target : wal_dir (get_dir st TargetTde w) pkT vT;
  ss_source : wal_dir (get_dir st TmpSource w) pkS vS;
  ss_file : w_fs w !! fd = Some (take (Z.to_nat pos) (crypt_S (crypt_T seg)) ++ drop (Z.to_nat pos) seg);
}.

Lemma same_write st fd d w : is_key_file fd = false → same_but nothing (eq fd) st w st (set_fs (<[fd := d]> (w_fs w)) w).
Proof.
  intros Hk. split; try done.
  - intros d' _. unfold get_dir. case_decide; [|done]. cbn. f_equal. apply map_eq. intros p. rewrite !key_files_lookup.
    destruct (is_key_file p) eqn:E; [|done]. by rewrite lookup_insert_ne by congruence.
  - intros p _ Hp. cbn. by rewrite lookup_insert_ne.
Qed.

Lemma block_replaced (new old : bytes) n k :
  length new = length old → (n + k ≤ length old)%nat →
  write_at n (slice n k new) (take n new ++ drop n old) = take (n + k) new ++ drop (n + k) old.
Proof.
  intros Hl Hle. assert (length (take n new) = n) as Hn by (rewrite length_take; lia).
  rewrite <-(take_drop k (drop n old)), drop_drop. rewrite <-Hn at 1.
  rewrite overwrite_middle by (rewrite slice_length, length_take, length_drop; lia).
  rewrite app_assoc. f_equal. unfold slice. by rewrite take_take_drop.
Qed.

Lemma seg_state_step fd seg pos st w st' w' d :
  seg_state fd seg pos st w → same_but nothing nothing st w st' w' → only_reads w' → is_key_file fd = false → 0 <= pos →
  Z.of_nat (length seg) = WalSegSz → pos + 8192 <= WalSegSz →
  d = slice (Z.to_nat pos) BLK (crypt_S (crypt_T seg)) →
  seg_state fd seg (pos + 8192) st' (set_fs (<[fd := write_at (Z.to_nat pos) d (default [] (w_fs w' !! fd))]> (w_fs w')) w').
Proof.
  intros [H1 H2 H3 H4 H5] S Hr Hk Hp Hl Hle ->. pose proof (same_write st' fd
    (write_at (Z.to_nat pos) (slice (Z.to_nat pos) BLK (crypt_S (crypt_T seg))) (default [] (w_fs w' !! fd))) w' Hk) as S2.
  set (w2 := set_fs _ w') in *. split.
  - by apply (sb_wf _ _ _ _ _ _ S2), (sb_wf _ _ _ _ _ _ S).
  - done.
  - rewrite (sb_dirs _ _ _ _ _ _ S2), (sb_dirs _ _ _ _ _ _ S); [done|by intros []..].
  - rewrite (sb_dirs _ _ _ _ _ _ S2), (sb_dirs _ _ _ _ _ _ S); [done|by intros []..].
  - unfold w2. cbn. rewrite lookup_insert_eq. f_equal. rewrite (sb_files _ _ _ _ _ _ S fd Hk) by (by intros []). rewrite H5. cbn [default].
    set (new := crypt_S (crypt_T seg)). assert (length new = length seg) as Hln by (unfold new; by rewrite !segment_crypt_length).
    replace (Z.to_nat (pos + 8192)) with (Z.to_nat pos + BLK)%nat by (unfold XLOG_BLCKSZ; lia). apply block_replaced; [done|].
    unfold XLOG_BLCKSZ. lia.
Qed.

Lemma wal_seg_loop_ok fd seg n : ∀ pos fuel st w,
  is_key_file fd = false → Z.of_nat (length seg) = WalSegSz → WalSegSz = pos + 8192 * Z.of_nat n → 0 <= pos → (n < fuel)%nat →
  seg_state fd seg pos st w → (n = 0%nat → rw_dir st = TmpSource ∧ tool_ok pkS vS w) →
  ∃ st' w', wal_seg_loop fuel st fd pos tli segno w = Ok st' w' ∧ seg_state fd seg WalSegSz st' w' ∧
    same_but nothing (eq fd) st w st' w' ∧ rw_dir st' = TmpSource ∧ tool_ok pkS vS w'.
Proof.
  induction n as [|n IH]; intros pos fuel st w Hk Hl Hs Hp Hfuel Hst Ht; (destruct fuel as [|fuel]; [lia|]); cbn [wal_seg_loop];
    rewrite (bind_ok _ _ _ _ _ (pread_ok fd XLOG_BLCKSZ pos w _ (ss_file _ _ _ _ _ Hst) Hp)).
  - assert (pos = WalSegSz) as -> by lia. exists st, w. destruct (Ht eq_refl) as [Hd Htool]. split_and!; [|done|apply same_but_refl|done|done].
    unfold slice. rewrite drop_ge; [by rewrite take_nil|]. rewrite length_app, length_take, length_drop, !segment_crypt_length. lia.
  - set (new := crypt_S (crypt_T seg)). assert (length new = length seg) as Hln by (unfold new; by rewrite !segment_crypt_length).
    set (blk := slice _ BLK _).
    assert (blk = slice (Z.to_nat pos) BLK seg) as Eblk.
    { unfold blk, slice. fold new. by rewrite drop_app_length' by (rewrite length_take; lia). }
    assert (Z.of_nat (length blk) = XLOG_BLCKSZ) as Hlen by (rewrite Eblk, slice_length; unfold XLOG_BLCKSZ; lia).
    clearbody blk. destruct blk as [|b0 blk0] eqn:Eb; [done|]. rewrite <-Eb in *. cbv zeta iota. clear Eb b0 blk0. rewrite Hlen.
    pose proof (block_ok tli segno WalSegSz Hseg pos Hp ltac:(lia)) as Hpiece.
    destruct (crypt_with TargetTde pkT vT (block_at tli segno WalSegSz pos) blk st w) as (st1 & w1 & w2 & E1 & E2 & S1 & R1 & _);
      [apply Hst|apply Hst|apply Hst|done|exact Hlen|]. rewrite (bind_ok _ _ _ _ _ E1). cbn [block_at p_count p_offset p_tli p_segno p_segSize] in E2.
    rewrite (bind_ok _ _ _ _ _ E2). rewrite Eblk, crypted_slice in *.
    assert (Z.of_nat (length (slice (Z.to_nat pos) BLK (crypt_T seg))) = XLOG_BLCKSZ) as Hlen2.
    { rewrite slice_length, segment_crypt_length. unfold XLOG_BLCKSZ. lia. }
    destruct (crypt_with TmpSource pkS vS (block_at tli segno WalSegSz pos) (slice (Z.to_nat pos) BLK (crypt_T seg)) st1 w2)
      as (st2 & w3 & w4 & E3 & E4 & S2 & R2 & D2 & T2); [apply (sb_wf _ _ _ _ _ _ S1), Hst|done| |done|exact Hlen2|].
    { rewrite (sb_dirs _ _ _ _ _ _ S1) by (by intros []). apply Hst. }
    rewrite (bind_ok _ _ _ _ _ E3). cbn [block_at p_count p_offset p_tli p_segno p_segSize] in E4.
    rewrite (bind_ok _ _ _ _ _ E4). rewrite crypted_slice. fold new.
    pose proof (same_but_trans _ _ _ _ _ _ _ _ S1 S2) as S12.
    destruct (w_fs w4 !! fd) as [bs|] eqn:Hbs.
    2: { rewrite (sb_files _ _ _ _ _ _ S12 fd Hk), (ss_file _ _ _ _ _ Hst) in Hbs by (by intros []). done. }
    assert (Z.of_nat (length (slice (Z.to_nat pos) BLK new)) = XLOG_BLCKSZ) as Hlen3 by (rewrite slice_length; unfold XLOG_BLCKSZ; lia).
    rewrite (bind_ok _ _ _ _ _ (pwrite_ok fd _ pos w4 bs Hbs Hp)), Hlen3, Z.eqb_refl. cbn [negb]. change (pos + XLOG_BLCKSZ) with (pos + 8192).
    pose proof (seg_state_step fd seg pos st w st2 w4 _ Hst S12 R2 Hk Hp Hl ltac:(lia) eq_refl) as Hst2. rewrite Hbs in Hst2. cbn [default] in Hst2.
    fold new in Hst2. set (w5 := set_fs _ w4) in *. pose proof (same_write st2 fd (write_at (Z.to_nat pos) (slice (Z.to_nat pos) BLK new) bs) w4 Hk) as S5.
    fold w5 in S5.
    destruct (IH (pos + 8192) fuel st2 w5 Hk Hl ltac:(lia) ltac:(lia) ltac:(lia) Hst2) as (st' & w' & E' & Hst' & S' & D' & T').
    { intros _. split; [done|]. apply tool_ok_write; [|done]. by intros ->. }
    exists st', w'. split_and!; [exact E'|done| |done|done].
    eapply same_but_trans; [|eapply same_but_trans; [exact S5|exact S']].
    by apply (same_but_weaken nothing nothing nothing (eq fd)); [|intros ? []|exact S12].
Qed.

(** What the block at [pos] of a segment reads as, with the keys of a directory. *)
Definition block_reads (d : TdeDir) (st : RewindState) (w : World) (path : string) (pos : Z) (data : bytes) : Prop :=
  ∃ st1 w1 w2, set_data_dir st d w = Ok st1 w1 ∧
    tdeheap_xlog_seg_read path (zeros BLK) XLOG_BLCKSZ pos tli segno WalSegSz w1 = Ok (XLOG_BLCKSZ, data) w2.

Lemma block_reads_ok d pk vs st w path seg pos :
  dirs_wf st → only_reads w → wal_dir (get_dir st d w) pk vs → is_key_file path = false → w_fs w !! path = Some seg →
  Z.of_nat (length seg) = WalSegSz → 0 <= pos → pos + XLOG_BLCKSZ <= WalSegSz →
  block_reads d st w path pos (slice (Z.to_nat pos) BLK (segment_crypt vs tli segno WalSegSz seg)).
Proof.
  intros Hwf Hr Hdir Hk Hf Hl Hp Hle. destruct (choose_dir d pk vs st w Hwf Hr Hdir) as (st1 & w1 & E1 & S1 & R1 & D1 & T1).
  assert (w_fs w1 !! path = Some seg) as Hf1 by (by rewrite (sb_files _ _ _ _ _ _ S1 path Hk) by (by intros [])).
  destruct (read_block pk vs (proj2 (proj2 (proj2 Hdir))) tli segno WalSegSz Hseg path seg (zeros BLK) pos w1 T1 Hf1 Hl)
    as (c & b1 & b2 & E & _); [by rewrite zeros_length|done|done|]. by exists st1, w1, (with_cache c b1 b2 w1).
Qed.

(** C12: a WAL segment of the target that pg_rewind keeps, or that came from an
    archive: after the program has processed it, every block of it reads with the
    WAL keys that the cluster gets, those of the source, as it did before with the
    keys of the target; the key directories and all other files stay as they were. *)
Theorem kept_segment_readable relpath seg st w :
  dry_run = false → XLogFromFileName (file_name (bytes_of relpath)) WalSegSz = Some (tli, segno) →
  dirs_wf st → only_reads w → wal_dir (get_dir st TargetTde w) pkT vT → wal_dir (get_dir st TmpSource w) pkS vS →
  is_key_file (target_path relpath) = false → w_fs w !! target_path relpath = Some seg → Z.of_nat (length seg) = WalSegSz →
  ∃ st' w', ensure_tde_wal_seg st relpath w = Ok st' w' ∧
    (∀ pos, 0 <= pos → pos + XLOG_BLCKSZ <= WalSegSz →
      ∃ data, block_reads TargetTde st w (target_path relpath) pos data ∧ block_reads TmpSource st' w' (target_path relpath) pos data) ∧
    (∀ d, get_dir st' d w' = get_dir st d w) ∧
    ∀ p, is_key_file p = false → p ≠ target_path relpath → w_fs w' !! p = w_fs w !! p.
Proof.
  intros Hdry Hname Hwf Hr HT HS Hk Hf Hl. set (fd := target_path relpath) in *.
  destruct (size_blocks tli segno WalSegSz Hseg) as [_ [k Hk8]].
  assert (seg_state fd seg 0 st w) as Hst by (by split).
  assert (file_fuel fd w = Ok (S (length seg)) w) as Ef by (unfold file_fuel, gets; by rewrite Hf).
  destruct (wal_seg_loop_ok fd seg (S k) 0 (S (length seg)) st w Hk Hl) as (st' & w' & E & Hst' & S & _ & _); [lia|lia|lia|done|done|].
  exists st', w'. split_and!.
  - unfold ensure_tde_wal_seg. rewrite Hdry, Hname. fold fd. by rewrite (bind_ok _ _ _ _ _ (open_existing fd false w seg Hf)), (bind_ok _ _ _ _ _ Ef).
  - intros pos Hp Hle. exists (slice (Z.to_nat pos) BLK (crypt_T seg)). split; [by apply (block_reads_ok TargetTde pkT)|].
    assert (w_fs w' !! fd = Some (crypt_S (crypt_T seg))) as Hf'.
    { rewrite (ss_file _ _ _ _ _ Hst'). f_equal. rewrite take_ge, drop_ge by (rewrite ?segment_crypt_length; lia). apply app_nil_r. }
    rewrite <-(segment_crypt_involutive vS tli segno WalSegSz (crypt_T seg)).
    apply (block_reads_ok TmpSource pkS); try done; [apply Hst'|apply Hst'|apply Hst'|]. by rewrite !segment_crypt_length.
  - intros d. rewrite (sb_dirs _ _ _ _ _ _ S); [done|by intros []].
  - intros p Hp Hne. rewrite (sb_files _ _ _ _ _ _ S p Hp); [done|congruence].
Qed.

End wal.

(** ** Example *)

#[local] Instance wal_env : RewindEnv := {|
  datadir_target := "/t"; datadir_source := "/s"; dry_run := false; WalSegSz := 2 ^ 20; path_is_safe_for_extraction _ := true
|}.

Definition kept_path : string := "pg_wal/000000010000000000000001".

Lemma kept_segment_readable_witness : ∃ st w st' w', ensure_tde_wal_seg st kept_path w = Ok st' w' ∧
  ∃ data, block_reads 1 1 TargetTde st w (target_path kept_path) 8192 data ∧
          block_reads 1 1 TmpSource st' w' (target_path kept_path) 8192 data.
Proof.
  destruct tool_example as (w & vs & Hw & Hr & Hc).
  set (st := mkRewindState TargetTde (λ _, mkKeyDir (key_files (w_fs w)) (w_pk_cache w)) true no_current_file None [] ∅ [] 0).
  set (w0 := set_fs (<[target_path kept_path := plain0]> (w_fs w)) (set_xsmgr (mkXLogSmgrState dummy_range None 0 0) w)).
  destruct plain0_facts as [Hl _]. exists st, w0.
  assert (wal_dir (mkKeyDir (key_files (w_fs w)) (w_pk_cache w)) pkg vs) as Hd.
  { destruct Hw as ((H1 & H2 & h & es & Hf & Hrest) & _). split_and!; [done|done| |apply Hr..]. exists h, es. split; [|done].
    cbn [dir_files]. by rewrite key_files_lookup. }
  assert (key_files (w_fs w0) = key_files (w_fs w)) as Hk.
  { apply map_eq. intros p. rewrite !key_files_lookup. destruct (is_key_file p) eqn:E; [|done]. unfold w0. cbn [w_fs set_fs].
    rewrite lookup_insert_ne; [done|]. intros <-. discriminate E. }
  destruct (kept_segment_readable 1 1 ltac:(split_and!; [vm_compute; reflexivity|unfold is_u32; lia|lia|cbn; lia])
    pkg pkg vs vs kept_path plain0 st w0) as (st' & w' & E & Hb & _).
  - reflexivity.
  - vm_compute. reflexivity.
  - intros d. apply key_files_all.
  - split; [|reflexivity]. exact (proj1 (proj2 Hw)).
  - unfold get_dir. rewrite decide_True by reflexivity. rewrite Hk. exact Hd.
  - unfold get_dir. rewrite decide_False by discriminate. exact Hd.
  - vm_compute. reflexivity.
  - unfold w0. cbn [w_fs set_fs]. apply lookup_insert_eq.
  - exact Hl.
  - exists st', w'. split; [exact E|]. apply Hb; [lia|]. cbn. unfold XLOG_BLCKSZ. lia.
Defined.
