(* ===== verification/RewindPlanThms.v ===== *)
(** pg_rewind over a whole plan: relations of all databases, encrypted or not, next
    to the files that are copied, removed or left. The program remembers the keys of
    one relation at a time and writes them when the next relation needs its own. *)
From stdpp Require Import functions sorting.
From S2P Require Import Prelude Types Environ Instances Ciphers EncTde KeyFile KeyMap KeyMapSpec ProviderSpec SmgrSpec.
From S2P Require Import ArchiveTools ArchiveThms FileMap FileMapThms Rewind RewindThms.

(** ** The keys of all databases *)

(** The principal key and the keys of the relations, for each database that has a
    key file. *)
Abbreviation Keys := (gmap Z (TDEPrincipalKey * gmap Loc LKey)).

Definition stored_key (ks : Keys) (rl : RelFileLocator) : option LKey :=
  match ks !! dbOid rl with Some (_, m) => m !! rel_loc rl | None => None end.

Definition set_key (rl : RelFileLocator) (k : LKey) (ks : Keys) : Keys :=
  alter (λ x, (x.1, <[rel_loc rl := k]> x.2)) (dbOid rl) ks.

Lemma stored_key_set rl rl' k ks :
  is_Some (stored_key ks rl) → stored_key (set_key rl k ks) rl' = if decide (rl' = rl) then Some k else stored_key ks rl'.
Proof.
  unfold stored_key, set_key. intros [k0 Hk]. destruct (ks !! dbOid rl) as [[pk m]|] eqn:E; [|done].
  destruct (decide (dbOid rl' = dbOid rl)) as [Ed|Ed].
  - rewrite Ed, lookup_alter_eq, E. cbn. case_decide as Er; [subst; apply lookup_insert_eq|].
    apply lookup_insert_ne. intros [= H1 H2]. apply Er. destruct rl, rl'. cbn in *. by subst.
  - rewrite lookup_alter_ne by done. rewrite decide_False; [done|]. by intros ->.
Qed.

Lemma set_key_principal rl k ks db : fst <$> set_key rl k ks !! db = fst <$> ks !! db.
Proof.
  unfold set_key. destruct (decide (db = dbOid rl)) as [->|]; [rewrite lookup_alter_eq|by rewrite lookup_alter_ne].
  by destruct (ks !! dbOid rl).
Qed.

Lemma db_path_inj a b :
  is_u32 a → is_u32 b → open_pg_tde_set_db_file_path a = open_pg_tde_set_db_file_path b → a = b.
Proof.
  intros Ha Hb E. unfold open_pg_tde_set_db_file_path, OPEN_PG_TDE_DATA_DIR in E. cbn in E. injection E as E.
  apply (string_app_inj_r (fmt_d a) (fmt_d b) "_keys") in E. by apply fmt_d_inj.
Qed.

Section keys_of_dirs.
Context {SSL : OpenSSL} {Spec : OpenSSLSpec SSL} {K : Kernel} {NF : NoFaults K} {RW : RandWorks SSL}.
Context {PKS : PrincipalKeys} {PKSpec : PrincipalKeysSpec PKS} {RP : RelPath} {RE : RewindEnv}.

(** The directory holds these keys and no other. *)
Definition dir_all (dir : KeyDir) (ks : Keys) : Prop := ∀ db, is_u32 db →
  match ks !! db with
  | Some (pk, m) => dir_rep dir db pk m
  | None => dir_files dir !! open_pg_tde_set_db_file_path db = None
  end.

Lemma dir_all_lookup dir ks rl k :
  dir_all dir ks → RelFileLocator_wf rl → stored_key ks rl = Some k →
  ∃ pk m, ks !! dbOid rl = Some (pk, m) ∧ m !! rel_loc rl = Some k ∧ dir_rep dir (dbOid rl) pk m.
Proof.
  intros Hd (_ & Hu & _) Hk. specialize (Hd (dbOid rl) Hu). unfold stored_key in Hk.
  destruct (ks !! dbOid rl) as [[pk m]|]; [|done]. by exists pk, m.
Qed.

Lemma get_key_all st rl ks w :
  dir_all (get_dir st (rw_dir st) w) ks → w_enc_lock w = None → RelFileLocator_wf rl → relNumber rl ≠ 0 →
  ∃ o, open_pg_tde_get_smgr_key rl w = Ok o w ∧ lkey <$> o = stored_key ks rl ∧ (∀ k, o = Some k → InternalKey_wf k).
Proof.
  intros Hd Hl (_ & Hu & _) Hn. specialize (Hd (dbOid rl) Hu). unfold stored_key. destruct (ks !! dbOid rl) as [[pk m]|].
  - apply dir_db_rep in Hd. pose proof (get_smgr_key_spec rl pk m w Hd Hl Hn) as H. destruct (m !! rel_loc rl).
    + destruct H as (k & E & Hk & Wk). exists (Some k). split_and!; [done|by rewrite <-Hk|]. by intros ? [= <-].
    + by exists None.
  - exists None. split_and!; [|done|done]. unfold open_pg_tde_get_smgr_key, access_F_OK. cbv zeta.
    rewrite (bind_ok (gets _) _ w _ w eq_refl). rewrite bool_decide_eq_false_2; [done|].
    unfold get_dir in Hd. rewrite decide_True in Hd by done. cbn in Hd. rewrite key_files_lookup, db_path_key in Hd.
    rewrite Hd. by intros [? ?].
Qed.

(** One database got another key. *)
Lemma dir_all_set dir dir' ks rl k pk m :
  dir_all dir ks → RelFileLocator_wf rl → ks !! dbOid rl = Some (pk, m) → dir_rep dir' (dbOid rl) pk (<[rel_loc rl := k]> m) →
  dir_keys dir' = dir_keys dir →
  (∀ p, p ≠ open_pg_tde_set_db_file_path (dbOid rl) → dir_files dir' !! p = dir_files dir !! p) →
  dir_all dir' (set_key rl k ks).
Proof.
  intros Hd (_ & Hu & _) Hl Hr Hk Hf db Hdb. unfold set_key. destruct (decide (db = dbOid rl)) as [->|Hne].
  - rewrite lookup_alter_eq, Hl. exact Hr.
  - rewrite lookup_alter_ne by done. specialize (Hd db Hdb).
    assert (open_pg_tde_set_db_file_path db ≠ open_pg_tde_set_db_file_path (dbOid rl)) as Hp by (intros E; by apply Hne, db_path_inj).
    destruct (ks !! db) as [[pk' m']|]; [|by rewrite Hf]. destruct Hd as (H1 & H2 & H3). unfold dir_rep. rewrite Hk.
    split_and!; [done|done|]. eapply file_rep_ext; [|exact H3]. by rewrite Hf.
Qed.

End keys_of_dirs.

(** ** One relation at a time *)

(** The two clusters are in different places, neither within a directory of keys. *)
Class RewindDirs (RE : RewindEnv) : Prop := {
  rd_dry : dry_run = false;
  rd_apart p q : source_path p ≠ target_path q;
  rd_source p : is_key_file (source_path p) = false;
  rd_target p : is_key_file (target_path p) = false;
}.

(** A file of an encrypted relation, with the keys of both clusters. *)
Record enc_rel := mkEncRel {
  er_path : string;
  er_rl : RelFileLocator;
  er_seg : Z;
  er_kS : InternalKey;
  er_kT : InternalKey;
}.

(** The keys of the copy once the keys that the program remembers are written. *)
Definition flushed (cur : option enc_rel) (ks : Keys) : Keys :=
  match cur with Some j => set_key (er_rl j) (lkey (er_kT j)) ks | None => ks end.

Section steps.
Context {SSL : OpenSSL} {Spec : OpenSSLSpec SSL} {K : Kernel} {NF : NoFaults K} {RW : RandWorks SSL}.
Context {PKS : PrincipalKeys} {PKSpec : PrincipalKeysSpec PKS} {RP : RelPath} {RE : RewindEnv} {RD : RewindDirs RE}.

Definition fork_of (j : enc_rel) (fork : Z) : string := target_path (relpathperm (er_rl j) fork).

(** What becomes of a file when the keys are written: the forks of the relation are
    encrypted again. *)
Definition fork_file (cur : option enc_rel) (p : string) (o : option bytes) : option bytes :=
  match cur with
  | Some j =>
      if decide (p = fork_of j FSM_FORKNUM) then reencrypted_fork (er_seg j) (er_kS j) (er_kT j) FSM_FORKNUM <$> o
      else if decide (p = fork_of j VISIBILITYMAP_FORKNUM)
      then reencrypted_fork (er_seg j) (er_kS j) (er_kT j) VISIBILITYMAP_FORKNUM <$> o
      else o
  | None => o
  end.

Definition is_fork_of (cur : option enc_rel) (p : string) : Prop :=
  ∃ j, cur = Some j ∧ (p = fork_of j FSM_FORKNUM ∨ p = fork_of j VISIBILITYMAP_FORKNUM).

Lemma fork_file_other cur p o : ¬ is_fork_of cur p → fork_file cur p o = o.
Proof.
  intros H. unfold fork_file. destruct cur as [j|]; [|done].
  rewrite !decide_False; [done|..]; intros E; apply H; exists j; auto.
Qed.

Lemma fork_file_Some cur p o : is_Some (fork_file cur p o) ↔ is_Some o.
Proof. unfold fork_file. destruct cur as [j|]; [|done]. repeat case_decide; [..|done]; apply fmap_is_Some. Qed.

Lemma source_not_fork cur p : ¬ is_fork_of cur (source_path p).
Proof. intros (j & _ & [E|E]); revert E; apply rd_apart. Qed.

Record job_ok (KS KT : Keys) (j : enc_rel) : Prop := {
  jo_rel : relNumber (er_rl j) ≠ 0;
  jo_wf : RelFileLocator_wf (er_rl j);
  jo_source : stored_key KS (er_rl j) = Some (lkey (er_kS j));
  jo_target : stored_key KT (er_rl j) = Some (lkey (er_kT j));
  jo_kS : InternalKey_wf (er_kS j);
  jo_kT : InternalKey_wf (er_kT j);
  jo_forks : fork_of j FSM_FORKNUM ≠ fork_of j VISIBILITYMAP_FORKNUM;
}.

(** Where the program is: the keys in the copy of the source's directory and in
    that of the target, and the relation it remembers. *)
Record plan_state (KS KT : Keys) (cur : option enc_rel) (st : RewindState) (w : World) : Prop := {
  ps_source : dir_all (get_dir st TmpSource w) KS;
  ps_target : dir_all (get_dir st TargetTde w) KT;
  ps_lock : w_enc_lock w = None;
  ps_ctxs : ctxs_ok w;
  ps_wf : dirs_wf st;
  ps_tde : source_has_tde st = true;
  ps_segs : archive_wal_segments st = [];
  ps_cur : match cur with
           | Some j => loaded st (er_path j) (er_rl j) (er_seg j) (er_kS j) (er_kT j) ∧ job_ok KS KT j
           | None => source_key (current_tde_file st) = None ∧ ctf_path (current_tde_file st) = EmptyString
           end;
}.

Lemma plan_state_same KS KT cur Q st w st' w' :
  plan_state KS KT cur st w → same_but nothing Q st w st' w' → current_tde_file st' = current_tde_file st →
  plan_state KS KT cur st' w'.
Proof.
  intros [H1 H2 H3 H4 H5 H6 H7 H8] S Hc. split.
  - by rewrite (sb_dirs _ _ _ _ _ _ S) by (intros []).
  - by rewrite (sb_dirs _ _ _ _ _ _ S) by (intros []).
  - by rewrite (sb_lock _ _ _ _ _ _ S).
  - by apply (sb_ctxs _ _ _ _ _ _ S).
  - by apply (sb_wf _ _ _ _ _ _ S).
  - by rewrite (sb_tde _ _ _ _ _ _ S).
  - by rewrite (sb_segs _ _ _ _ _ _ S).
  - unfold loaded in *. by rewrite Hc.
Qed.

(** What a step does to the files other than its own. *)
Definition moved (Q : string → Prop) (cur : option enc_rel) (w w' : World) : Prop :=
  ∀ p, is_key_file p = false → ¬ Q p → w_fs w' !! p = fork_file cur p (w_fs w !! p).

Lemma same_moved P Q Q' cur st w st' w' :
  same_but P Q st w st' w' → (∀ p, Q p → Q' p ∨ is_fork_of cur p) →
  (∀ p, is_fork_of cur p → ¬ Q' p → w_fs w' !! p = fork_file cur p (w_fs w !! p)) → moved Q' cur w w'.
Proof.
  intros S HQ Hf p Hp Hn. destruct (decide (fork_file cur p (w_fs w !! p) = w_fs w' !! p)) as [E|E]; [done|].
  assert (is_fork_of cur p ∨ ¬ is_fork_of cur p) as [H|H].
  { unfold is_fork_of. destruct cur as [j|]; [|right; by intros (? & ? & _)].
    destruct (decide (p = fork_of j FSM_FORKNUM)); [left; eauto|].
    destruct (decide (p = fork_of j VISIBILITYMAP_FORKNUM)); [left; eauto|]. right. intros (? & [= <-] & [?|?]); done. }
  - by apply Hf.
  - rewrite fork_file_other by done. apply (sb_files _ _ _ _ _ _ S); [done|]. intros HQp. by destruct (HQ p HQp).
Qed.

Lemma same_moved_none P Q st w st' w' : same_but P Q st w st' w' → moved Q None w w'.
Proof. intros S p Hp Hn. apply (sb_files _ _ _ _ _ _ S); done. Qed.

Lemma moved_trans Q cur w w1 w2 : moved Q cur w w1 → moved Q None w1 w2 → moved Q cur w w2.
Proof. intros H1 H2 p Hp Hn. rewrite H2, H1 by done. done. Qed.

Lemma moved_weaken (Q Q' : string → Prop) cur w w' : (∀ p, Q p → Q' p) → moved Q cur w w' → moved Q' cur w w'.
Proof. intros HQ H p Hp Hn. apply H; auto. Qed.

Lemma reencrypted_fork_lkey seg kS kT kS' kT' fork bs :
  lkey kS = lkey kS' → lkey kT = lkey kT' → reencrypted_fork seg kS kT fork bs = reencrypted_fork seg kS' kT' fork bs.
Proof.
  intros HS HT. unfold reencrypted_fork. generalize (seq 0 (length bs / blksz)). intros l. revert bs.
  induction l as [|i l IH]; intros bs; [done|]. cbn [foldl]. rewrite IH. f_equal. unfold put_fork.
  by rewrite (reencrypted_lkey kS kT kS' kT').
Qed.

Lemma flush_plan KS KT cur st w :
  plan_state KS KT cur st w →
  ∃ st' w', flush_current_tde_rel_key st w = Ok st' w' ∧ plan_state (flushed cur KS) KT None st' w' ∧
    moved nothing cur w w' ∧ dstfd st' = dstfd st.
Proof.
  intros H. destruct cur as [j|]; cycle 1.
  { exists st, w. split; [|split; [done|by split]]. unfold flush_current_tde_rel_key. by rewrite (proj1 (ps_cur _ _ _ _ _ H)). }
  destruct (ps_cur _ _ _ _ _ H) as [(k1 & k2 & C & K1 & W1 & K2 & W2) Hj].
  destruct (dir_all_lookup _ _ _ _ (ps_source _ _ _ _ _ H) (jo_wf _ _ _ Hj) (jo_source _ _ _ Hj)) as (pkS & mS & LS & _ & RS).
  destruct (dir_all_lookup _ _ _ _ (ps_target _ _ _ _ _ H) (jo_wf _ _ _ Hj) (jo_target _ _ _ Hj)) as (pkT & mT & LT & _ & RT).
  assert (rel_keys st w (er_rl j) pkS pkT mS mT) as Hrk by (split; try done; apply H).
  assert (∀ fork, fork_path st fork = fork_of j fork) as Hfp by (intros fork; unfold fork_path; by rewrite C).
  destruct (flush_ok st k1 k2 (er_path j) (er_rl j) (er_seg j) pkS pkT mS mT w) as (st1 & w1 & E1 & S1 & Hrk1 & C1 & D1 & F1 & Hd & Hp);
    try done; try apply Hj; try apply rd_dry; [rewrite Hfp; apply rd_target..|rewrite !Hfp; apply Hj|].
  exists st1, w1. split; [done|]. split; [|split; [|done]].
  - split; try apply Hrk1.
    + eapply (dir_all_set (get_dir st TmpSource w)); [apply H|apply Hj|exact LS| |done|done]. rewrite <-K2. apply Hrk1.
    + rewrite (sb_dirs _ _ _ _ _ _ S1) by done. apply H.
    + rewrite (sb_tde _ _ _ _ _ _ S1). apply H.
    + rewrite (sb_segs _ _ _ _ _ _ S1). apply H.
    + by rewrite C1.
  - rewrite !Hfp in S1. eapply same_moved; [exact S1|intros p Hq; right; by exists j|].
    intros p (j' & [= <-] & Hq) _. unfold fork_file.
    pose proof (F1 FSM_FORKNUM (or_introl eq_refl)) as Ff. pose proof (F1 VISIBILITYMAP_FORKNUM (or_intror eq_refl)) as Fv. rewrite !Hfp in Ff, Fv.
    destruct Hq as [->| ->].
    + rewrite decide_True by done. rewrite Ff. destruct (w_fs w !! _); [|done]. cbn. f_equal. by apply reencrypted_fork_lkey.
    + rewrite decide_False by (apply not_eq_sym, Hj). rewrite decide_True by done. rewrite Fv.
      destruct (w_fs w !! fork_of j VISIBILITYMAP_FORKNUM); [|done]. cbn. f_equal. by apply reencrypted_fork_lkey.
Qed.

(** ** Relations *)

(** A relation file that both clusters have: what [relation_entry] says, its place
    and, if the source encrypts the relation, the keys of both. *)
Record rel_item := mkRelItem {
  rj_entry : file_entry_t;
  rj_rl : RelFileLocator;
  rj_seg : Z;
  rj_src : bytes;
  rj_tgt : bytes;
  rj_S : nat;
  rj_T : nat;
  rj_blks : list Z;
  rj_keys : option (InternalKey * InternalKey);
}.

Definition rj_path (it : rel_item) : string := fe_path (rj_entry it).

Definition job_of (it : rel_item) : option enc_rel :=
  match rj_keys it with Some (kS, kT) => Some (mkEncRel (rj_path it) (rj_rl it) (rj_seg it) kS kT) | None => None end.

Record rel_item_ok (KS KT : Keys) (it : rel_item) : Prop := {
  ro_safe : path_is_safe_for_extraction (rj_path it) = true;
  ro_loc : path_rlocator (bytes_of (rj_path it)) = Some (rj_rl it, rj_seg it);
  ro_rel : relNumber (rj_rl it) ≠ 0;
  ro_wf : RelFileLocator_wf (rj_rl it);
  ro_keys : match rj_keys it with
            | Some (kS, kT) => stored_key KS (rj_rl it) = Some (lkey kS) ∧ stored_key KT (rj_rl it) = Some (lkey kT)
            | None => stored_key KS (rj_rl it) = None
            end;
  ro_kwf : keys_wf (rj_keys it);
  ro_forks : relpathperm (rj_rl it) FSM_FORKNUM ≠ relpathperm (rj_rl it) VISIBILITYMAP_FORKNUM;
  ro_entry : relation_entry (rj_entry it) (rj_path it) (rj_src it) (rj_tgt it) (rj_S it) (rj_T it) (rj_blks it);
}.

Lemma target_path_inj p q : target_path p = target_path q → p = q.
Proof. unfold target_path. by intros ?%(inj _)%(inj _). Qed.

Lemma job_of_ok KS KT it j : rel_item_ok KS KT it → job_of it = Some j → job_ok KS KT j.
Proof.
  intros H. unfold job_of. destruct (rj_keys it) as [[kS kT]|] eqn:E; [|done]. intros [= <-].
  pose proof (ro_keys _ _ _ H) as Hk. pose proof (ro_kwf _ _ _ H) as Hw. rewrite E in Hk, Hw. split; cbn; try apply H; try apply Hk; try apply Hw.
  unfold fork_of. cbn. intros ?%target_path_inj. by apply (ro_forks _ _ _ H).
Qed.

Lemma path_not_empty s r : path_rlocator (bytes_of s) = Some r → s ≠ EmptyString.
Proof. intros H ->. revert H. vm_compute. done. Qed.

Lemma set_data_dir_plan KS KT cur d st w :
  plan_state KS KT cur st w →
  ∃ st' w', set_data_dir st d w = Ok st' w' ∧ plan_state KS KT cur st' w' ∧ rw_dir st' = d ∧ moved nothing None w w' ∧
    dstfd st' = dstfd st.
Proof.
  intros H. destruct (rewind_set_data_dir_ok st d w (ps_wf _ _ _ _ _ H)) as (st' & w' & E & D & S & C & F & _).
  exists st', w'. split; [done|]. split; [by eapply plan_state_same|]. split; [done|]. split; [by eapply same_moved_none|done].
Qed.

(** The keys of another relation are needed. *)
Lemma ensure_new KS KT cur it st w :
  plan_state KS KT cur st w → (∀ j, cur = Some j → er_path j ≠ rj_path it) → rel_item_ok (flushed cur KS) KT it →
  ∃ st' w', ensure_tde_keys st (rj_path it) w = Ok st' w' ∧ plan_state (flushed cur KS) KT (job_of it) st' w' ∧
    moved nothing cur w w' ∧ dstfd st' = dstfd st.
Proof.
  intros H Hne Hit. unfold ensure_tde_keys. rewrite (ps_tde _ _ _ _ _ H). cbn [negb].
  rewrite bool_decide_eq_false_2.
  2: { pose proof (ps_cur _ _ _ _ _ H) as Hc. destruct cur as [j|].
       - destruct Hc as [(k1 & k2 & -> & _) _]. by apply Hne.
       - destruct Hc as [_ ->]. apply not_eq_sym. exact (path_not_empty _ _ (ro_loc _ _ _ Hit)). }
  destruct (flush_plan KS KT cur st w H) as (st1 & w1 & E1 & H1 & M1 & D1). rewrite (bind_ok _ _ _ _ _ E1), (ro_loc _ _ _ Hit).
  destruct (set_data_dir_plan _ _ _ TmpSource _ _ H1) as (st2 & w2 & E2 & H2 & R2 & M2 & D2). rewrite (bind_ok _ _ _ _ _ E2).
  destruct (get_key_all st2 (rj_rl it) (flushed cur KS) w2) as (oS & ES & KS' & WS); [rewrite R2; apply H2|apply H2|apply Hit..|].
  rewrite (bind_ok _ _ _ _ _ ES).
  destruct (set_data_dir_plan _ _ _ TargetTde _ _ H2) as (st3 & w3 & E3 & H3 & R3 & M3 & D3). rewrite (bind_ok _ _ _ _ _ E3).
  destruct (get_key_all st3 (rj_rl it) KT w3) as (oT & ET & KT' & WT); [rewrite R3; apply H3|apply H3|apply Hit..|].
  rewrite (bind_ok _ _ _ _ _ ET). eexists _, w3. split; [reflexivity|]. split; [|split; [|cbn; congruence]].
  - pose proof (λ j, job_of_ok _ _ it j Hit) as Hj. destruct H3 as [A1 A2 A3 A4 A5 A6 A7 [A8 A9]].
    pose proof (ro_keys _ _ _ Hit) as Hk. unfold job_of in *. split; try done. destruct (rj_keys it) as [[kS kT]|].
    + destruct Hk as [Hk1 Hk2]. rewrite Hk1 in KS'. rewrite Hk2 in KT'.
      destruct oS as [k1|]; [|done]. destruct oT as [k2|]; [|done]. apply (inj Some) in KS'. apply (inj Some) in KT'.
      split; [|by apply Hj]. exists k1, k2. cbn. split; [done|]. split; [done|]. split; [by apply WS|]. split; [done|by apply WT].
    + rewrite Hk in KS'. destruct oS; [done|]. cbn. done.
  - eapply moved_trans; [exact M1|]. eapply moved_trans; [exact M2|exact M3].
Qed.

(** The program turns to the relation, or is there already. *)
Definition arrives (it : rel_item) (KS : Keys) (cur c : option enc_rel) (KS1 : Keys) : Prop :=
  (c = cur ∧ KS1 = flushed cur KS ∧ ∀ j, cur = Some j → er_path j ≠ rj_path it) ∨ (c = None ∧ KS1 = KS ∧ cur = job_of it).

Lemma arrived it KS : arrives it KS (job_of it) None KS.
Proof. by right. Qed.

Lemma ensure_item KS KT cur c KS1 it st w :
  plan_state KS KT cur st w → arrives it KS cur c KS1 → rel_item_ok KS1 KT it →
  ∃ st' w', ensure_tde_keys st (rj_path it) w = Ok st' w' ∧ plan_state KS1 KT (job_of it) st' w' ∧
    moved nothing c w w' ∧ dstfd st' = dstfd st.
Proof.
  intros H [(-> & -> & Hne)|(-> & -> & ->)] Hit; [by apply ensure_new|].
  pose proof (ensure_new KS KT (job_of it) it st w H) as Hnew. pose proof (ps_cur _ _ _ _ _ H) as Hc.
  destruct (job_of it) as [j|] eqn:E; [|by apply Hnew].
  exists st, w. split; [|by split_and!]. destruct Hc as [(k1 & k2 & C & _) _]. unfold ensure_tde_keys.
  rewrite (ps_tde _ _ _ _ _ H), C. cbn [negb ctf_path]. unfold job_of in E. destruct (rj_keys it) as [[kS kT]|]; [|done].
  injection E as <-. cbn [er_path]. by rewrite bool_decide_eq_true_2.
Qed.

(** The program works with the keys of the relation. *)
Lemma plan_uses KS KT it st w :
  plan_state KS KT (job_of it) st w →
  ∃ ks, uses st (rj_seg it) ks ∧ keys_wf ks ∧
    ∀ src bs l, foldl (put_with (rj_seg it) ks src) bs l = foldl (put_with (rj_seg it) (rj_keys it) src) bs l.
Proof.
  intros H. pose proof (ps_cur _ _ _ _ _ H) as Hc. unfold job_of in Hc. destruct (rj_keys it) as [[kS kT]|]; cbn in Hc.
  - destruct Hc as [(k1 & k2 & C & K1 & W1 & K2 & W2) _]. exists (Some (k1, k2)). split; [unfold uses; by rewrite C|]. split; [done|].
    intros src bs l. by apply put_block_lkey.
  - exists None. split; [apply Hc|done].
Qed.

Lemma moved_pre Q cur w w1 w2 : moved Q None w w1 → moved Q cur w1 w2 → moved Q cur w w2.
Proof. intros H1 H2 p Hp Hn. rewrite H2, H1 by done. done. Qed.

(** Blocks of the source replace those of the target. *)
Lemma range_item KS KT cur c KS1 it tg i n st w :
  plan_state KS KT cur st w → arrives it KS cur c KS1 → rel_item_ok KS1 KT it →
  w_fs w !! source_path (rj_path it) = Some (rj_src it) → w_fs w !! target_path (rj_path it) = Some tg →
  ¬ is_fork_of c (target_path (rj_path it)) → (blksz * (i + n) ≤ length (rj_src it))%nat →
  ∃ st' w', queue_fetch_range st (rj_path it) (BLCKSZ * Z.of_nat i) (BLCKSZ * Z.of_nat n) w = Ok st' w' ∧
    plan_state KS1 KT (job_of it) st' w' ∧ moved (eq (target_path (rj_path it))) c w w' ∧
    w_fs w' !! target_path (rj_path it) = Some (foldl (put_with (rj_seg it) (rj_keys it) (rj_src it)) tg (seq i n)).
Proof.
  intros H Ha Hit Hsrc Htgt Hnf Hlen. set (path := rj_path it) in *. change (queue_fetch_range st) with (local_queue_fetch_range st).
  unfold local_queue_fetch_range.
  assert (open_file (source_path path) false w = Ok (source_path path) w) as Eo.
  { unfold open_file. by rewrite (bind_ok _ _ _ _ _ (open_existing _ false w _ Hsrc)). }
  rewrite (bind_ok _ _ _ _ _ Eo), (bind_ok _ _ _ _ _ (open_target_ok st path tg w rd_dry (ro_safe _ _ _ Hit) Htgt)).
  set (st1 := with_dstfd (Some (target_path path)) st).
  assert (plan_state KS KT cur st1 w) as H1 by exact (plan_state_same _ _ _ _ _ _ _ _ H (dstfd_same st w _) eq_refl).
  destruct (ensure_item KS KT cur c KS1 it st1 w H1 Ha Hit) as (st2 & w2 & E2 & H2 & M2 & D2). fold path in E2. rewrite (bind_ok _ _ _ _ _ E2).
  assert (∃ buf, uninit (Z.to_nat BLCKSZ) w2 = Ok buf w2 ∧ length buf = blksz) as (buf & Eb & Hbuf).
  { eexists. split; [reflexivity|]. rewrite blksz_to_nat, length_take, length_app, zeros_length. lia. }
  rewrite (bind_ok _ _ _ _ _ Eb). destruct (plan_uses _ _ _ _ _ H2) as (ks & Hu & Hkw & Hput).
  replace (BLCKSZ * Z.of_nat i + BLCKSZ * Z.of_nat n) with (BLCKSZ * Z.of_nat (i + n)) by lia.
  destruct (fetch_range_ok st2 (rj_seg it) ks (source_path path) (target_path path) (rj_src it) n (Z.to_nat (BLCKSZ * Z.of_nat n)) i buf tg w2)
    as (w3 & E3 & S3 & F3).
  { apply rd_dry. } { by rewrite D2. } { apply rd_apart. } { apply rd_target. } { done. } { done. } { apply H2. } { done. }
  { rewrite M2, fork_file_other; [done|apply source_not_fork|apply rd_source|by intros []]. }
  { rewrite M2, fork_file_other; [done|done|apply rd_target|by intros []]. }
  { done. } { rewrite blksz_mul. pose proof blksz_Z. assert (0 < BLCKSZ) by done. nia. }
  rewrite (bind_ok _ _ _ _ _ E3). exists st2, w3. split; [reflexivity|]. split; [by eapply plan_state_same|]. split.
  - eapply moved_trans; [eapply moved_weaken; [|exact M2]; by intros p []|by eapply same_moved_none].
  - by rewrite F3, Hput.
Qed.

(** How far the program is with a relation: at the relation, unless there was no
    page to fetch. *)
Definition partly KT it c KS1 (b : bool) w st1 w1 : Prop := ∃ KS' cur' c',
  plan_state KS' KT cur' st1 w1 ∧ arrives it KS' cur' c' KS1 ∧ (c' = c ∨ c' = None) ∧
  (∀ w2, moved (eq (target_path (rj_path it))) c' w1 w2 → moved (eq (target_path (rj_path it))) c w w2) ∧
  (b = true → KS' = KS1 ∧ cur' = job_of it ∧ c' = None).

Lemma partly_at KT it c KS1 b w st1 w1 :
  plan_state KS1 KT (job_of it) st1 w1 → moved (eq (target_path (rj_path it))) c w w1 → partly KT it c KS1 b w st1 w1.
Proof.
  intros H M. exists KS1, (job_of it), None. split_and!; [done|apply arrived|by right| |done].
  intros w2 M2. by eapply moved_trans.
Qed.

Lemma pages_here KT KS1 it blks : ∀ tg st w,
  plan_state KS1 KT (job_of it) st w → rel_item_ok KS1 KT it →
  w_fs w !! source_path (rj_path it) = Some (rj_src it) → w_fs w !! target_path (rj_path it) = Some tg →
  Forall (λ b, 0 <= b < RELSEG_SIZE ∧ (blksz * (Z.to_nat b + 1) ≤ length (rj_src it))%nat) blks →
  ∃ st' w', fetch_pages st (rj_path it) blks w = Ok st' w' ∧ plan_state KS1 KT (job_of it) st' w' ∧
    moved (eq (target_path (rj_path it))) None w w' ∧
    w_fs w' !! target_path (rj_path it) = Some (foldl (put_with (rj_seg it) (rj_keys it) (rj_src it)) tg (Z.to_nat <$> blks)).
Proof.
  induction blks as [|b blks IH]; intros tg st w H Hit Hsrc Htgt Hb; cbn [fetch_pages]; [by exists st, w|].
  apply Forall_cons in Hb as [[Hb Hlen] Hbs].
  replace (u32 (b * BLCKSZ)) with (BLCKSZ * Z.of_nat (Z.to_nat b)) by (by apply page_offset).
  destruct (range_item KS1 KT (job_of it) None KS1 it tg (Z.to_nat b) 1 st w) as (st1 & w1 & E1 & H1 & M1 & F1); try done.
  { apply arrived. } { by intros (? & ? & _). }
  change (BLCKSZ * Z.of_nat 1) with BLCKSZ in E1. rewrite (bind_ok _ _ _ _ _ E1).
  destruct (IH (put_with (rj_seg it) (rj_keys it) (rj_src it) tg (Z.to_nat b)) st1 w1) as (st2 & w2 & E2 & H2 & M2 & F2); try done.
  { rewrite M1; [done|apply rd_source|apply not_eq_sym, rd_apart]. }
  exists st2, w2. split_and!; [done|done|by eapply moved_trans|done].
Qed.

Lemma pages_item KT c KS1 it blks KS cur tg st w :
  plan_state KS KT cur st w → arrives it KS cur c KS1 → rel_item_ok KS1 KT it →
  w_fs w !! source_path (rj_path it) = Some (rj_src it) → w_fs w !! target_path (rj_path it) = Some tg →
  ¬ is_fork_of c (target_path (rj_path it)) →
  Forall (λ b, 0 <= b < RELSEG_SIZE ∧ (blksz * (Z.to_nat b + 1) ≤ length (rj_src it))%nat) blks →
  ∃ st' w', fetch_pages st (rj_path it) blks w = Ok st' w' ∧ partly KT it c KS1 (negb (bool_decide (blks = []))) w st' w' ∧
    w_fs w' !! source_path (rj_path it) = Some (rj_src it) ∧
    w_fs w' !! target_path (rj_path it) = Some (foldl (put_with (rj_seg it) (rj_keys it) (rj_src it)) tg (Z.to_nat <$> blks)).
Proof.
  intros H Ha Hit Hsrc Htgt Hnf Hb. destruct blks as [|b blks]; cbn [fetch_pages].
  { exists st, w. split; [done|]. split; [|done]. exists KS, cur, c. split_and!; [done|done|by left|done|]. by rewrite bool_decide_eq_true_2. }
  apply Forall_cons in Hb as [[Hb Hlen] Hbs].
  replace (u32 (b * BLCKSZ)) with (BLCKSZ * Z.of_nat (Z.to_nat b)) by (by apply page_offset).
  destruct (range_item KS KT cur c KS1 it tg (Z.to_nat b) 1 st w) as (st1 & w1 & E1 & H1 & M1 & F1); try done.
  change (BLCKSZ * Z.of_nat 1) with BLCKSZ in E1. rewrite (bind_ok _ _ _ _ _ E1).
  assert (∀ w', moved (eq (target_path (rj_path it))) c w w' → w_fs w' !! source_path (rj_path it) = Some (rj_src it)) as Hs.
  { intros w' M. rewrite M, fork_file_other; [done|apply source_not_fork|apply rd_source|apply not_eq_sym, rd_apart]. }
  destruct (pages_here KT KS1 it blks (put_with (rj_seg it) (rj_keys it) (rj_src it) tg (Z.to_nat b)) st1 w1)
    as (st2 & w2 & E2 & H2 & M2 & F2); try done; [by apply Hs|].
  pose proof (moved_trans _ _ _ _ _ M1 M2) as M. exists st2, w2. split_and!; [done|by apply partly_at|by apply Hs|done].
Qed.

(** The keys are looked up even if no page was changed. *)
Lemma ensure_partly KT it c KS1 blks w st1 w1 :
  partly KT it c KS1 (negb (bool_decide (blks = []))) w st1 w1 → rel_item_ok KS1 KT it → Forall (Z.le 0) blks →
  ∃ st' w', (if match foldl datapagemap_add [] blks with [] => true | _ => false end
             then ensure_tde_keys st1 (rj_path it) else mret st1) w1 = Ok st' w' ∧
    plan_state KS1 KT (job_of it) st' w' ∧ moved (eq (target_path (rj_path it))) c w w' ∧
    (¬ is_fork_of c (target_path (rj_path it)) → w_fs w' !! target_path (rj_path it) = w_fs w1 !! target_path (rj_path it)).
Proof.
  intros (KS' & cur' & c' & H & Ha & Hc & Hm & Hb) Hit Hb0. destruct blks as [|b blks].
  - destruct (ensure_item KS' KT cur' c' KS1 it st1 w1 H Ha Hit) as (st2 & w2 & E2 & H2 & M2 & _).
    exists st2, w2. split_and!; [exact E2|done|apply Hm; eapply moved_weaken; [|exact M2]; by intros p []|].
    intros Hnf. rewrite M2, fork_file_other; [done| |apply rd_target|by intros []].
    destruct Hc as [->| ->]; [done|by intros (? & ? & _)].
  - destruct Hb as (-> & -> & ->); [by rewrite bool_decide_eq_false_2|]. pose proof (pages_nonempty b blks Hb0) as Hne.
    exists st1, w1. split; [by destruct (foldl _ _ _)|]. split_and!; [done| |done]. apply Hm. by intros p _ _.
Qed.

(** The entry of a relation: its file is rewound and its keys are remembered; those
    that were remembered before are written. *)
Lemma entry_item KS KT cur it st w :
  plan_state KS KT cur st w → (∀ j, cur = Some j → er_path j ≠ rj_path it) → rel_item_ok (flushed cur KS) KT it →
  w_fs w !! source_path (rj_path it) = Some (rj_src it) → w_fs w !! target_path (rj_path it) = Some (rj_tgt it) →
  ¬ is_fork_of cur (target_path (rj_path it)) →
  ∃ st' w' new, rewind_entry st (rj_entry it) w = Ok st' w' ∧ plan_state (flushed cur KS) KT (job_of it) st' w' ∧
    moved (eq (target_path (rj_path it))) cur w w' ∧ w_fs w' !! target_path (rj_path it) = Some new ∧
    rewound_with (rj_seg it) (rj_keys it) (rj_src it) (rj_tgt it) (rj_S it) (rj_T it) (rj_blks it) new.
Proof.
  intros H Hne Hit Hsrc Htgt Hnf. pose proof (ro_entry _ _ _ Hit) as He. pose proof (ps_ctxs _ _ _ _ _ H) as Hw.
  pose proof (ro_kwf _ _ _ Hit) as Hkw.
  destruct (pages_put _ _ (rj_seg it) (rj_keys it) _ _ _ _ _ w Hkw Hw He) as (Hl & Hnil & Hput). set (l := datapagemap_iterate _) in *.
  destruct (pages_item KT cur (flushed cur KS) it l KS cur (rj_tgt it) st w) as (st1 & w1 & E1 & P1 & F1s & F1); try done.
  { by left. }
  { eapply Forall_impl; [exact Hl|]. intros b [Hb HbS]. split; [done|]. rewrite (re_slen _ _ _ _ _ _ _ He). nia. }
  set (tgt1 := foldl _ _ _) in F1, Hput. pose proof (proj1 Hput) as Hl1.
  destruct He as [_ Hss Hst Hsl Htl Hmax Hpg Hbl Hact]. unfold rewind_entry. rewrite Hpg. fold l. fold (rj_path it).
  rewrite (bind_ok _ _ _ _ _ E1).
  assert (Forall (Z.le 0) (rj_blks it)) as Hb0 by (eapply Forall_impl; [exact Hbl|]; by intros b [? _]).
  assert (partly KT it cur (flushed cur KS) (negb (bool_decide (rj_blks it = []))) w st1 w1) as P.
  { destruct P1 as (KS' & cur' & c' & A1 & A2 & A3 & A4 & A5). exists KS', cur', c'. split_and!; try done.
    intros Hb. apply A5. rewrite negb_true_iff in *. apply bool_decide_eq_false in Hb. apply bool_decide_eq_false. auto. }
  unfold perform_action. rewrite Hpg, Hact, Hss, Hst. fold (rj_path it). destruct (decide (rj_T it < rj_S it)%nat) as [Hlt|Hge].
  - destruct (tail_size (rj_src it) (rj_tgt it) (rj_S it) (rj_T it)) as [-> ->]; try done; [lia|].
    destruct P as (KS' & cur' & c' & A1 & A2 & A3 & A4 & _).
    destruct (range_item KS' KT cur' c' (flushed cur KS) it tgt1 (rj_T it) (rj_S it - rj_T it) st1 w1) as (st2 & w2 & E2 & H2 & M2 & F2); try done.
    { destruct A3 as [->| ->]; [done|by intros (? & ? & _)]. } { nia. }
    eexists st2, w2, _. split_and!; [exact E2|done|by apply A4|exact F2|].
    apply (rewound_appended _ _ _ _ _ _ _ _ w); try done. lia.
  - destruct (decide (rj_S it < rj_T it)%nat) as [Hlt|Hge2].
    + rewrite (bind_ok _ _ _ _ _ (truncate_ok (rj_path it) (length (rj_src it)) tgt1 w1 rd_dry (ro_safe _ _ _ Hit) F1 ltac:(nia))).
      pose proof (write_same st1 w1 (target_path (rj_path it)) (take (length (rj_src it)) tgt1) (rd_target _)) as S2. set (w2 := set_fs _ w1) in *.
      destruct (ensure_partly KT it cur (flushed cur KS) (rj_blks it) w st1 w2) as (st3 & w3 & E3 & H3 & M3 & F3); try done.
      { destruct P as (KS' & cur' & c' & A1 & A2 & A3 & A4 & A5). exists KS', cur', c'. split_and!; try done; [by eapply plan_state_same|].
        intros w4 M4. apply A4. eapply moved_pre; [by eapply same_moved_none|done]. }
      exists st3, w3, (take (length (rj_src it)) tgt1). split_and!; [exact E3|done|done| |].
      * rewrite (F3 Hnf). unfold w2. cbn. by rewrite lookup_insert_eq.
      * rewrite Hsl. apply rewound_prefix; [lia|done|done].
    + destruct (ensure_partly KT it cur (flushed cur KS) (rj_blks it) w st1 w1) as (st3 & w3 & E3 & H3 & M3 & F3); try done.
      exists st3, w3, tgt1. split_and!; [exact E3|done|done|by rewrite (F3 Hnf)|].
      assert (rj_S it = rj_T it) as HST by lia. rewrite <-(take_ge tgt1 (blksz * rj_S it)) by nia. apply rewound_prefix; [lia|done|done].
Qed.

(** ** Other files *)

Lemma fetch_file_ok st srcfd fd src : ∀ fuel k w,
  dry_run = false → dstfd st = Some fd → srcfd ≠ fd → is_key_file fd = false →
  w_fs w !! srcfd = Some src → w_fs w !! fd = Some (take k src) → (k ≤ length src)%nat → (length src - k < fuel)%nat →
  ∃ w', fetch_file_loop fuel st srcfd (Z.of_nat k) w = Ok (Z.of_nat (length src)) w' ∧ same_but nothing (eq fd) st w st w' ∧
    w_fs w' !! fd = Some src.
Proof.
  intros fuel k w Hdry Hfd Hne Hk. revert k w. induction fuel as [|fuel IH]; intros k w Hsrc Htgt Hle Hfuel; [lia|].
  cbn [fetch_file_loop]. rewrite (bind_ok _ _ _ _ _ (pread_ok srcfd BLCKSZ (Z.of_nat k) w src Hsrc ltac:(lia))).
  rewrite Nat2Z.id, blksz_to_nat.
  assert (length (slice k blksz src) = blksz `min` (length src - k))%nat as Hlen by apply slice_length.
  destruct (slice k blksz src) as [|b0 bl] eqn:Eb.
  - assert (k = length src) as -> by (cbn in Hlen; pose proof blksz_Z; assert (0 < BLCKSZ) by done; lia).
    exists w. split; [done|]. split; [apply same_but_refl|]. by rewrite Htgt, take_ge.
  - rewrite <-Eb in *. assert (slice k blksz src ≠ []) as Hn by (by rewrite Eb). clear Eb b0 bl.
    rewrite (bind_ok _ _ _ _ _ (write_range_ok st fd (slice k blksz src) (Z.of_nat k) (take k src) w Hdry Hfd Htgt ltac:(lia) Hn)).
    rewrite Nat2Z.id. set (d := slice k blksz src) in *.
    assert (write_at k d (take k src) = take (k + length d) src) as Hwr.
    { assert (length (take k src) = k) as Hl by (rewrite length_take; lia).
      unfold overwrite. rewrite take_app_le, take_ge by lia. rewrite drop_ge by lia. rewrite app_nil_r.
      rewrite <-take_take_drop. f_equal. unfold d, slice. rewrite length_take. destruct (decide (blksz ≤ length (drop k src))%nat).
      - by rewrite Nat.min_l.
      - rewrite Nat.min_r by lia. by rewrite !take_ge by lia. }
    rewrite Hwr. replace (Z.of_nat k + Z.of_nat (length d)) with (Z.of_nat (k + length d)) by lia.
    pose proof (write_same st w fd (take (k + length d) src) Hk) as S1. set (w1 := set_fs _ w) in *.
    assert (0 < length d)%nat by (destruct d; [done|cbn; lia]).
    destruct (IH (k + length d)%nat w1) as (w2 & E2 & S2 & F2).
    { unfold w1. cbn. by rewrite lookup_insert_ne. } { unfold w1. cbn. apply lookup_insert_eq. } { lia. } { lia. }
    exists w2. split; [exact E2|]. split; [by eapply same_but_trans|done].
Qed.

(** Entries of files that are not processed by blocks. *)
Definition plain_ok (w : World) (e : file_entry_t) : Prop :=
  target_pages_to_overwrite e = [] ∧
  match fe_action e with
  | FILE_ACTION_NONE => True
  | FILE_ACTION_CREATE =>
      path_is_safe_for_extraction (fe_path e) = true ∧
      (fs_type <$> fe_source e = Some FILE_TYPE_DIRECTORY ∨ fs_type <$> fe_source e = Some FILE_TYPE_SYMLINK)
  | FILE_ACTION_COPY =>
      path_is_safe_for_extraction (fe_path e) = true ∧
      Z.of_nat <$> (length <$> w_fs w !! source_path (fe_path e)) = Some (side_size (fe_source e))
  | FILE_ACTION_REMOVE =>
      path_is_safe_for_extraction (fe_path e) = true ∧
      match fs_type <$> fe_target e with
      | Some FILE_TYPE_REGULAR => is_Some (w_fs w !! target_path (fe_path e))
      | Some FILE_TYPE_DIRECTORY | Some FILE_TYPE_SYMLINK => True
      | _ => False
      end
  | _ => False
  end.

(** What becomes of the file at [p]. *)
Definition plain_file (fs : gmap string bytes) (e : file_entry_t) (p : string) (o : option bytes) : option bytes :=
  if decide (p = target_path (fe_path e)) then
    match fe_action e with
    | FILE_ACTION_COPY => fs !! source_path (fe_path e)
    | FILE_ACTION_REMOVE => if decide (fs_type <$> fe_target e = Some FILE_TYPE_REGULAR) then None else o
    | _ => o
    end
  else o.

Lemma copied_file KS KT cur path src st w :
  plan_state KS KT cur st w → path_is_safe_for_extraction path = true → w_fs w !! source_path path = Some src →
  ∃ st' w', queue_fetch_file st path (Z.of_nat (length src)) w = Ok st' w' ∧ plan_state KS KT cur st' w' ∧
    moved (eq (target_path path)) None w w' ∧ w_fs w' !! target_path path = Some src.
Proof.
  intros H Hsafe Hsrc. change (queue_fetch_file st) with (local_queue_fetch_file st). unfold local_queue_fetch_file.
  assert (open_file (source_path path) false w = Ok (source_path path) w) as Eo.
  { unfold open_file. by rewrite (bind_ok _ _ _ _ _ (open_existing _ false w _ Hsrc)). }
  rewrite (bind_ok _ _ _ _ _ Eo). set (w1 := set_fs (<[target_path path := []]> (w_fs w)) w).
  set (st1 := with_dstfd (Some (target_path path)) st).
  assert (open_target_file st path true w = Ok st1 w1) as Et.
  { unfold open_target_file. rewrite Hsafe, rd_dry. cbn [negb]. rewrite andb_false_r.
    assert (OpenTransientFile (target_path path) true true w = Ok (Fd (target_path path)) w1) as E.
    { unfold OpenTransientFile. rewrite no_fault. by destruct (w_fs w !! target_path path). }
    by rewrite (bind_ok _ _ _ _ _ E). }
  rewrite (bind_ok _ _ _ _ _ Et).
  assert (same_but nothing (eq (target_path path)) st w st1 w1) as S1.
  { eapply same_but_trans; [exact (write_same st w (target_path path) [] (rd_target _))|].
    eapply same_but_weaken; [..|exact (dstfd_same st w1 (Some (target_path path)))]; [done|by intros p []]. }
  assert (w_fs w1 !! source_path path = Some src) as Hsrc1 by (unfold w1; cbn; rewrite lookup_insert_ne by apply not_eq_sym, rd_apart; done).
  unfold file_fuel. rewrite (bind_ok (gets _) _ w1 _ w1 eq_refl), Hsrc1. change (default [] (Some src)) with src.
  destruct (fetch_file_ok st1 (source_path path) (target_path path) src (S (length src)) 0 w1) as (w2 & E2 & S2 & F2); try done.
  { apply rd_dry. } { apply rd_apart. } { apply rd_target. } { unfold w1. cbn. apply lookup_insert_eq. } { lia. } { lia. }
  change (Z.of_nat 0) with 0 in E2. rewrite (bind_ok _ _ _ _ _ E2), Z.eqb_refl. cbn [negb].
  exists st1, w2. pose proof (same_but_trans _ _ _ _ _ _ _ _ S1 S2) as S. split_and!; [done|by eapply plan_state_same|by eapply same_moved_none|done].
Qed.

Lemma entry_plain KS KT cur e st w :
  plan_state KS KT cur st w → plain_ok w e →
  ∃ st' w', rewind_entry st e w = Ok st' w' ∧ plan_state KS KT cur st' w' ∧
    ∀ p, is_key_file p = false → w_fs w' !! p = plain_file (w_fs w) e p (w_fs w !! p).
Proof.
  intros H [Hpg He]. unfold rewind_entry. rewrite Hpg. change (datapagemap_iterate []) with (@nil Z). cbn [fetch_pages].
  change ((st ← mret st; perform_action st e) w) with (perform_action st e w). unfold perform_action, plain_file. rewrite Hpg.
  destruct (fe_action e) eqn:Ha; try done.
  - destruct He as [Hs Ht]. exists st, w. split; [|split; [done|]; intros p _; by case_decide].
    unfold create_target. by destruct Ht as [-> | ->]; rewrite Hs.
  - destruct He as [Hs Hz]. destruct (w_fs w !! source_path (fe_path e)) as [src|] eqn:Hsrc; [|done]. injection Hz as <-.
    destruct (copied_file KS KT cur (fe_path e) src st w H Hs Hsrc) as (st1 & w1 & E1 & H1 & M1 & F1).
    exists st1, w1. split; [done|]. split; [done|]. intros p Hp. case_decide as Ep; [by subst|]. by rewrite M1 by congruence.
  - exists st, w. split; [done|]. split; [done|]. intros p _. by case_decide.
  - destruct He as [Hs Ht]. unfold remove_target. destruct (fs_type <$> fe_target e) as [t|] eqn:Et; [|done]. destruct t; try done.
    + destruct Ht as [bs Hbs]. unfold remove_target_file. rewrite Hs, rd_dry. cbn [negb].
      set (w1 := set_fs (delete (target_path (fe_path e)) (w_fs w)) w). exists st, w1. split.
      { unfold mbind, M_bind, gets. rewrite no_fault, Hbs. reflexivity. }
      split.
      * eapply (plan_state_same _ _ _ (eq (target_path (fe_path e)))); [exact H| |done]. split; try done.
        -- intros d _. unfold get_dir. case_decide; [|done]. f_equal. apply map_eq. intros p. cbn. rewrite !key_files_lookup.
           destruct (is_key_file p) eqn:E; [|done]. rewrite lookup_delete_ne; [done|]. intros <-. by rewrite rd_target in E.
        -- intros p _ Hp. cbn. by rewrite lookup_delete_ne.
      * intros p Hp. unfold w1. cbn. case_decide as Ep; [subst; rewrite lookup_delete_eq; done|]. by rewrite lookup_delete_ne by congruence.
    + exists st, w. rewrite Hs. split; [done|]. split; [done|]. intros p _. by repeat case_decide.
    + exists st, w. rewrite Hs. split; [done|]. split; [done|]. intros p _. by repeat case_decide.
Qed.

(** ** The plan *)

Inductive item :=
| Rel (it : rel_item)
| Plain (e : file_entry_t).

Definition entry_of (i : item) : file_entry_t := match i with Rel it => rj_entry it | Plain e => e end.
Definition item_path (i : item) : string := fe_path (entry_of i).
Definition item_job (i : item) : option enc_rel := match i with Rel it => job_of it | Plain _ => None end.
Definition jobs (items : list item) : list enc_rel := omap item_job items.
Definition cur_jobs (cur : option enc_rel) (items : list item) : list enc_rel :=
  match cur with Some j => j :: jobs items | None => jobs items end.

(** The keys at the end of the plan, with those that the last relation needs. *)
Fixpoint plan_end (KS : Keys) (cur : option enc_rel) (items : list item) : Keys :=
  match items with
  | [] => flushed cur KS
  | Rel it :: items => plan_end (flushed cur KS) (job_of it) items
  | Plain _ :: items => plan_end KS cur items
  end.

(** What becomes of a file that is not processed by blocks. *)
Fixpoint file_end (fs : gmap string bytes) (cur : option enc_rel) (items : list item) (p : string) (o : option bytes) : option bytes :=
  match items with
  | [] => fork_file cur p o
  | Rel it :: items => file_end fs (job_of it) items p (fork_file cur p o)
  | Plain e :: items => file_end fs cur items p (plain_file fs e p o)
  end.

Record items_ok (KS KT : Keys) (cur : option enc_rel) (items : list item) (w : World) : Prop := {
  io_rel it : Rel it ∈ items →
    rel_item_ok KS KT it ∧ w_fs w !! source_path (rj_path it) = Some (rj_src it) ∧ w_fs w !! target_path (rj_path it) = Some (rj_tgt it);
  io_plain e : Plain e ∈ items → plain_ok w e;
  io_paths : NoDup (item_path <$> items);
  io_cur j : cur = Some j → er_path j ∉ item_path <$> items;
  io_rels : NoDup (er_rl <$> cur_jobs cur items);
  io_forks j it : j ∈ cur_jobs cur items → Rel it ∈ items → ¬ is_fork_of (Some j) (target_path (rj_path it));
}.

Lemma cur_in j items : j ∈ cur_jobs (Some j) items.
Proof. left. Qed.

Lemma jobs_in cur j items : j ∈ jobs items → j ∈ cur_jobs cur items.
Proof. intros H. destruct cur; [by right|done]. Qed.

Lemma cur_jobs_rel cur it items j : j ∈ cur_jobs (job_of it) items → j ∈ cur_jobs cur (Rel it :: items).
Proof. intros H. apply jobs_in. unfold jobs. cbn. destruct (job_of it); done. Qed.

Lemma file_end_ext fs fs' items : ∀ cur p o,
  (∀ q, fs !! source_path q = fs' !! source_path q) → file_end fs cur items p o = file_end fs' cur items p o.
Proof.
  induction items as [|[it|e] items IH]; intros cur p o H; cbn [file_end]; [done|by apply IH|].
  rewrite (IH cur) by done. unfold plain_file. by rewrite H.
Qed.

(** A file that no entry and no fork is about. *)
Lemma file_end_same fs items p : ∀ cur o,
  (∀ j, j ∈ cur_jobs cur items → ¬ is_fork_of (Some j) p) → (∀ e, Plain e ∈ items → p ≠ target_path (fe_path e)) →
  file_end fs cur items p o = o.
Proof.
  assert (∀ cur items o, (∀ j, j ∈ cur_jobs cur items → ¬ is_fork_of (Some j) p) → fork_file cur p o = o) as Hf.
  { intros [j|] l o H; [|done]. apply fork_file_other, H, cur_in. }
  induction items as [|[it|e] items IH]; intros cur o Hj Hp; cbn [file_end].
  - by apply (Hf cur []).
  - rewrite (Hf cur (Rel it :: items)) by done. apply IH; [|intros e He; apply Hp; by right].
    intros j H. apply Hj. by apply cur_jobs_rel.
  - unfold plain_file. rewrite decide_False by (apply Hp; left). apply IH; [done|]. intros e' He. apply Hp. by right.
Qed.

(** The keys of a relation are not those that are written. *)
Lemma rel_item_flushed KS KT cur it items w st :
  plan_state KS KT cur st w → items_ok KS KT cur items w → Rel it ∈ items → rel_item_ok (flushed cur KS) KT it.
Proof.
  intros H Hi Hin. destruct (io_rel _ _ _ _ _ Hi it Hin) as [Hit _]. destruct cur as [j|]; [|done].
  pose proof (proj2 (ps_cur _ _ _ _ _ H)) as Hj. destruct Hit as [A1 A2 A3 A4 A5 A6 A7 A8]. split; try done.
  cbn [flushed]. rewrite stored_key_set by (by rewrite (jo_source _ _ _ Hj)). rewrite decide_False; [done|].
  intros E. pose proof (jo_source _ _ _ Hj) as Hs. rewrite <-E in Hs.
  destruct (rj_keys it) as [[kS kT]|] eqn:Ek; [|congruence].
  pose proof (io_rels _ _ _ _ _ Hi) as Hnd. cbn in Hnd. apply NoDup_cons in Hnd as [Hnd _]. apply Hnd. rewrite <-E.
  change (rj_rl it) with (er_rl (mkEncRel (rj_path it) (rj_rl it) (rj_seg it) kS kT)). apply list_elem_of_fmap_2.
  unfold jobs. apply list_elem_of_omap. exists (Rel it). split; [done|]. cbn. unfold job_of. by rewrite Ek.
Qed.

Lemma item_path_in i (items : list item) : i ∈ items → item_path i ∈ item_path <$> items.
Proof. apply list_elem_of_fmap_2. Qed.

(** After the entry of a relation. *)
Lemma items_ok_rel KS KT cur it items st w w1 :
  plan_state KS KT cur st w → items_ok KS KT cur (Rel it :: items) w → moved (eq (target_path (rj_path it))) cur w w1 →
  items_ok (flushed cur KS) KT (job_of it) items w1.
Proof.
  intros H Hi M. pose proof (io_paths _ _ _ _ _ Hi) as Hnd. cbn in Hnd. apply NoDup_cons in Hnd as [Hnin Hnd]. split.
  - intros it' Hin. assert (Rel it' ∈ Rel it :: items) as Hin' by (by right). destruct (io_rel _ _ _ _ _ Hi it' Hin') as (_ & Hs & Ht).
    split_and!; [by eapply rel_item_flushed| |].
    + rewrite M, fork_file_other; [done|apply source_not_fork|apply rd_source|apply not_eq_sym, rd_apart].
    + rewrite M, fork_file_other; [done| |apply rd_target|].
      * destruct cur as [j|]; [apply (io_forks _ _ _ _ _ Hi j it' (cur_in _ _) Hin')|by intros (? & ? & _)].
      * intros E%target_path_inj. apply Hnin. change (item_path (Rel it)) with (rj_path it). rewrite E. by apply (item_path_in (Rel it')).
  - intros e Hin. pose proof (io_plain _ _ _ _ _ Hi e ltac:(by right)) as [Hpg He]. split; [done|].
    assert (w_fs w1 !! source_path (fe_path e) = w_fs w !! source_path (fe_path e)) as ->.
    { rewrite M, fork_file_other; [done|apply source_not_fork|apply rd_source|apply not_eq_sym, rd_apart]. }
    assert (is_Some (w_fs w1 !! target_path (fe_path e)) ↔ is_Some (w_fs w !! target_path (fe_path e))) as Hiff.
    { rewrite M; [apply fork_file_Some|apply rd_target|]. intros E%target_path_inj. apply Hnin.
      change (item_path (Rel it)) with (rj_path it). rewrite E. by apply (item_path_in (Plain e)). }
    destruct (fe_action e); try done. destruct He as [Hs Ht]. split; [done|]. destruct (fs_type <$> fe_target e) as [[]|]; try done. by apply Hiff.
  - done.
  - intros j Hj Hin. apply Hnin. unfold job_of in Hj. destruct (rj_keys it) as [[kS kT]|]; [|done]. by injection Hj as <-.
  - pose proof (io_rels _ _ _ _ _ Hi) as Hr. unfold cur_jobs, jobs in *. cbn in Hr.
    destruct cur; [apply NoDup_cons in Hr as [_ Hr]|]; by destruct (job_of it).
  - intros j it' Hj Hin. apply (io_forks _ _ _ _ _ Hi); [by apply cur_jobs_rel|by right].
Qed.

Lemma items_ok_plain KS KT cur e items w w1 :
  items_ok KS KT cur (Plain e :: items) w → (∀ p, is_key_file p = false → w_fs w1 !! p = plain_file (w_fs w) e p (w_fs w !! p)) →
  items_ok KS KT cur items w1.
Proof.
  intros Hi Hw. pose proof (io_paths _ _ _ _ _ Hi) as Hnd. cbn in Hnd. apply NoDup_cons in Hnd as [Hnin Hnd].
  assert (∀ q, w_fs w1 !! source_path q = w_fs w !! source_path q) as Hs.
  { intros q. rewrite Hw by apply rd_source. unfold plain_file. by rewrite decide_False by apply rd_apart. }
  assert (∀ i, i ∈ items → w_fs w1 !! target_path (item_path i) = w_fs w !! target_path (item_path i)) as Ht.
  { intros i Hin. rewrite Hw by apply rd_target. unfold plain_file. rewrite decide_False; [done|].
    intros E%target_path_inj. apply Hnin. change (item_path (Plain e)) with (fe_path e). rewrite <-E. by apply item_path_in. }
  split.
  - intros it Hin. destruct (io_rel _ _ _ _ _ Hi it ltac:(by right)) as (Hit & H1 & H2). rewrite Hs.
    split_and!; [done|done|]. by rewrite (Ht (Rel it) Hin : w_fs w1 !! target_path (rj_path it) = _).
  - intros e' Hin. pose proof (io_plain _ _ _ _ _ Hi e' ltac:(by right)) as He. unfold plain_ok in *. rewrite Hs.
    by rewrite (Ht (Plain e') Hin : w_fs w1 !! target_path (fe_path e') = _).
  - done.
  - intros j Hj Hin. apply (io_cur _ _ _ _ _ Hi j Hj). by right.
  - apply Hi.
  - intros j it Hj Hin. apply (io_forks _ _ _ _ _ Hi); [done|by right].
Qed.

(** Every entry of the plan, in any order. *)
Lemma entries_ok KT items : ∀ KS cur st w,
  plan_state KS KT cur st w → items_ok KS KT cur items w →
  ∃ st' w' KS' cur', rewind_entries st (entry_of <$> items) w = Ok st' w' ∧ plan_state KS' KT cur' st' w' ∧
    flushed cur' KS' = plan_end KS cur items ∧
    (∀ p, is_key_file p = false → (∀ it, Rel it ∈ items → p ≠ target_path (rj_path it)) →
      fork_file cur' p (w_fs w' !! p) = file_end (w_fs w) cur items p (w_fs w !! p)) ∧
    (∀ it, Rel it ∈ items → ∃ new, fork_file cur' (target_path (rj_path it)) (w_fs w' !! target_path (rj_path it)) = Some new ∧
      rewound_with (rj_seg it) (rj_keys it) (rj_src it) (rj_tgt it) (rj_S it) (rj_T it) (rj_blks it) new).
Proof.
  induction items as [|[it|e] items IH]; intros KS cur st w H Hi.
  { exists st, w, KS, cur. split_and!; try done. intros it Hin. by apply elem_of_nil in Hin. }
  - destruct (io_rel _ _ _ _ _ Hi it ltac:(left)) as (_ & Hsrc & Htgt).
    assert (¬ is_fork_of cur (target_path (rj_path it))) as Hnf.
    { destruct cur as [j|]; [apply (io_forks _ _ _ _ _ Hi j it (cur_in _ _)); left|by intros (? & ? & _)]. }
    destruct (entry_item KS KT cur it st w H) as (st1 & w1 & new & E1 & H1 & M1 & F1 & R1); try done.
    { intros j -> E. apply (io_cur _ _ _ _ _ Hi j eq_refl). rewrite E. by left. }
    { eapply rel_item_flushed; [done|done|left]. }
    pose proof (items_ok_rel _ _ _ _ _ _ _ _ H Hi M1) as Hi1.
    pose proof (io_paths _ _ _ _ _ Hi) as Hnd. cbn in Hnd. apply NoDup_cons in Hnd as [Hnin _].
    assert (∀ i, i ∈ items → target_path (rj_path it) ≠ target_path (item_path i)) as Hdiff.
    { intros i Hin E%target_path_inj. apply Hnin. change (item_path (Rel it)) with (rj_path it). rewrite E. by apply item_path_in. }
    destruct (IH _ _ st1 w1 H1 Hi1) as (st2 & w2 & KS2 & cur2 & E2 & H2 & K2 & F2 & R2).
    assert (∀ q, w_fs w1 !! source_path q = w_fs w !! source_path q) as Hs.
    { intros q. rewrite M1, fork_file_other; [done|apply source_not_fork|apply rd_source|apply not_eq_sym, rd_apart]. }
    exists st2, w2, KS2, cur2. split_and!; [|done|done| |].
    + cbn [rewind_entries fmap list_fmap entry_of]. by rewrite (bind_ok _ _ _ _ _ E1).
    + intros p Hp Hne. rewrite F2; [|done|intros it' Hin; apply Hne; by right]. cbn [file_end].
      rewrite M1 by (done || apply not_eq_sym, Hne; left). by apply file_end_ext.
    + intros it' [[= ->]|Hin]%elem_of_cons; [|by apply R2]. exists new. split; [|done].
      rewrite F2; [|apply rd_target|intros it' Hin; exact (Hdiff (Rel it') Hin)]. rewrite F1. apply file_end_same.
      * intros j Hj. apply (io_forks _ _ _ _ _ Hi); [by apply cur_jobs_rel|left].
      * intros e Hin. exact (Hdiff (Plain e) Hin).
  - destruct (entry_plain KS KT cur e st w H) as (st1 & w1 & E1 & H1 & F1); [apply (io_plain _ _ _ _ _ Hi); left|].
    destruct (IH _ _ st1 w1 H1 (items_ok_plain _ _ _ _ _ _ _ Hi F1)) as (st2 & w2 & KS2 & cur2 & E2 & H2 & K2 & F2 & R2).
    exists st2, w2, KS2, cur2. split_and!; [|done|done| |].
    + cbn [rewind_entries fmap list_fmap entry_of]. by rewrite (bind_ok _ _ _ _ _ E1).
    + intros p Hp Hne. rewrite F2; [|done|intros it' Hin; apply Hne; by right]. cbn [file_end]. rewrite F1 by done. apply file_end_ext.
      intros q. rewrite F1 by apply rd_source. unfold plain_file. by rewrite decide_False by apply rd_apart.
    + intros it' [[=]|Hin]%elem_of_cons. by apply R2.
Qed.

(** ** The end of the plan *)

Lemma plan_end_keys KT items : ∀ KS cur,
  (∀ j, j ∈ cur_jobs cur items → is_Some (stored_key KS (er_rl j)) ∧ stored_key KT (er_rl j) = Some (lkey (er_kT j))) →
  (∀ rl, stored_key (plan_end KS cur items) rl = if decide (rl ∈ er_rl <$> cur_jobs cur items) then stored_key KT rl else stored_key KS rl) ∧
  ∀ db, fst <$> plan_end KS cur items !! db = fst <$> KS !! db.
Proof.
  assert (∀ KS cur l, (∀ j, j ∈ cur_jobs cur l → is_Some (stored_key KS (er_rl j)) ∧ stored_key KT (er_rl j) = Some (lkey (er_kT j))) →
    (∀ rl, stored_key (flushed cur KS) rl = if decide (rl ∈ er_rl <$> cur_jobs cur []) then stored_key KT rl else stored_key KS rl) ∧
    ∀ db, fst <$> flushed cur KS !! db = fst <$> KS !! db) as Hf.
  { intros KS [j|] l H; cbn [flushed].
    - destruct (H j (cur_in _ _)) as [Hk HT]. split; [|intros db; apply set_key_principal]. intros rl. rewrite stored_key_set by done.
      unfold cur_jobs. cbn. destruct (decide (rl = er_rl j)) as [->|Hne].
      + by rewrite decide_True by (by apply list_elem_of_singleton).
      + by rewrite decide_False by (by rewrite list_elem_of_singleton).
    - split; [|done]. intros rl. rewrite decide_False; [done|]. cbn. by intros ?%elem_of_nil. }
  induction items as [|[it|e] items IH]; intros KS cur H; cbn [plan_end]; [exact (Hf KS cur [] H)| |by apply IH].
  destruct (Hf KS cur (Rel it :: items) H) as [F1 F2]. destruct (IH (flushed cur KS) (job_of it)) as [I1 I2].
  { intros j Hj. destruct (H j (cur_jobs_rel _ _ _ _ Hj)) as [[k Hk] HT]. split; [|done]. rewrite F1, Hk, HT. by case_decide. }
  split; [|intros db; by rewrite I2, F2]. intros rl. rewrite I1, F1.
  assert (rl ∈ er_rl <$> cur_jobs cur (Rel it :: items) ↔ rl ∈ er_rl <$> cur_jobs (job_of it) items ∨ rl ∈ er_rl <$> cur_jobs cur []) as Hiff.
  { assert (jobs (Rel it :: items) = cur_jobs (job_of it) items) as Ej by (unfold jobs, cur_jobs; cbn; by destruct (job_of it)).
    destruct cur as [j|]; cbn [cur_jobs]; rewrite Ej; cbn.
    - rewrite elem_of_cons, list_elem_of_singleton. tauto.
    - split; [by left|]. intros [?|?%elem_of_nil]; done. }
  repeat case_decide; tauto || done.
Qed.

(** A fork of a relation is encrypted again once. *)
Lemma file_end_fork fs items p j : ∀ cur o,
  j ∈ cur_jobs cur items → (∀ j', j' ∈ cur_jobs cur items → is_fork_of (Some j') p → j' = j) →
  NoDup (er_rl <$> cur_jobs cur items) → (∀ e, Plain e ∈ items → p ≠ target_path (fe_path e)) →
  file_end fs cur items p o = fork_file (Some j) p o.
Proof.
  induction items as [|[it|e] items IH]; intros cur o Hj Hu Hnd Hp; cbn [file_end].
  - destruct cur; cbn in Hj; [by apply list_elem_of_singleton in Hj as ->|by apply elem_of_nil in Hj].
  - assert (jobs (Rel it :: items) = cur_jobs (job_of it) items) as Ej by (unfold jobs, cur_jobs; cbn; by destruct (job_of it)).
    assert (∀ e, Plain e ∈ items → p ≠ target_path (fe_path e)) as Hp' by (intros e He; apply Hp; by right).
    destruct cur as [j0|]; cbn [cur_jobs] in *; rewrite Ej in *; [|by apply IH].
    cbn in Hnd. apply NoDup_cons in Hnd as [Hnin Hnd]. apply elem_of_cons in Hj as [<-|Hj].
    + apply file_end_same; [|done]. intros j' Hj' Hf. assert (j' = j) as -> by (apply Hu; [by right|done]).
      apply Hnin. by apply list_elem_of_fmap_2.
    + rewrite (fork_file_other (Some j0)).
      * apply IH; [done| |done|done]. intros j' Hj' Hf. apply Hu; [by right|done].
      * intros Hf. assert (j0 = j) as -> by (apply Hu; [left|done]). apply Hnin. by apply list_elem_of_fmap_2.
  - unfold plain_file. rewrite decide_False by (apply Hp; left). apply IH; try done. intros e' He. apply Hp. by right.
Qed.

Lemma file_end_none fs items p : ∀ cur,
  (∀ e, Plain e ∈ items → p ≠ target_path (fe_path e)) → file_end fs cur items p None = None.
Proof.
  assert (∀ cur, fork_file cur p None = None) as Hf by (intros [j|]; cbn; by repeat case_decide).
  induction items as [|[it|e] items IH]; intros cur Hp; cbn [file_end]; rewrite ?Hf; [done|apply IH; intros e He; apply Hp; by right|].
  unfold plain_file. rewrite decide_False by (apply Hp; left). apply IH. intros e' He. apply Hp. by right.
Qed.

Lemma file_end_app fs l1 l2 p : ∀ cur o, ∃ cur' o',
  file_end fs cur (l1 ++ l2) p o = file_end fs cur' l2 p o' ∧ ((∀ it, Rel it ∉ l1) → cur' = cur).
Proof.
  induction l1 as [|[it|e] l1 IH]; intros cur o; cbn [app file_end]; [by exists cur, o| |].
  - destruct (IH (job_of it) (fork_file cur p o)) as (c & o' & E & _). exists c, o'. split; [done|]. intros H. destruct (H it). left.
  - destruct (IH cur (plain_file fs e p o)) as (c & o' & E & Hc). exists c, o'. split; [done|]. intros H. apply Hc. intros it Hin.
    apply (H it). by right.
Qed.

Lemma fork_blocks seg kS kT fork n w : ∀ i bs,
  InternalKey_wf kS → InternalKey_wf kT → ctxs_ok w → (blksz * (i + n) ≤ length bs)%nat →
  length (foldl (put_fork seg kS kT fork) bs (seq i n)) = length bs ∧
  ∀ j, (blksz * (j + 1) ≤ length bs)%nat → block j (foldl (put_fork seg kS kT fork) bs (seq i n)) =
    if decide (i ≤ j < i + n)%nat then reencrypted kS kT fork (block_no seg (BLCKSZ * Z.of_nat j)) (block j bs) else block j bs.
Proof.
  intros i bs WS WT Hw. revert i bs. induction n as [|n IH]; intros i bs Hl; cbn [seq foldl].
  { split; [done|]. intros j _. by rewrite decide_False by lia. }
  set (bs1 := put_fork seg kS kT fork bs i).
  set (enc := reencrypted kS kT fork (block_no seg (BLCKSZ * Z.of_nat i)) (block i bs)).
  assert (length enc = blksz) as He.
  { assert (page_ok (block i bs)) as Hp by (unfold page_ok, block; rewrite slice_length; pose proof blksz_Z; lia).
    destruct (open_page_ok kS fork (block_no seg (BLCKSZ * Z.of_nat i)) _ w WS Hp Hw) as (w1 & _ & P1 & C1 & _).
    destruct (seal_page_ok kT fork (block_no seg (BLCKSZ * Z.of_nat i)) _ w1 WT P1 C1) as (w2 & _ & P2 & _).
    unfold page_ok in P2. pose proof blksz_Z. unfold enc, reencrypted. lia. }
  assert (length bs1 = length bs) as H1 by (unfold bs1, put_fork; fold enc; rewrite overwrite_length, He; lia).
  destruct (IH (S i) bs1) as [L B]; [lia|]. split; [lia|]. intros j Hj. rewrite B by lia. unfold bs1, put_fork. fold enc.
  destruct (decide (j = i)) as [->|Hne].
  - rewrite decide_False, decide_True by lia. unfold block at 1. rewrite <-He at 2. by rewrite slice_overwrite_same.
  - assert (block j (write_at (blksz * i) enc bs) = block j bs) as ->.
    { destruct (decide (j < i)%nat); [apply slice_overwrite_before; nia|apply slice_overwrite_after; rewrite He; nia]. }
    destruct (decide (S i ≤ j < S i + n)%nat); [by rewrite decide_True by lia|by rewrite decide_False by lia].
Qed.

(** ** The whole run *)

(** The plan is ordered as the program orders it, and the forks of different
    relations are different files. *)
Record rewind_plan (KS KT : Keys) (items : list item) (st : RewindState) (w : World) : Prop := {
  rp_state : plan_state KS KT None st w;
  rp_items : items_ok KS KT None items w;
  rp_order : StronglySorted filemap_le (entry_of <$> items);
  rp_forks j j' p : j ∈ jobs items → j' ∈ jobs items → is_fork_of (Some j) p → is_fork_of (Some j') p → j' = j;
}.

(** From the keys in memory to the keys in the files of the target. *)
Lemma finish_plan KS KT cur st w :
  plan_state KS KT cur st w →
  ∃ st' w', (st ← finish_fetch st; st ← ensure_tde_archive_wal (close_target_file st); fetch_tde_dir st) w = Ok st' w' ∧
    dir_all (get_dir st' TargetTde w') (flushed cur KS) ∧ moved nothing cur w w'.
Proof.
  intros H. destruct (flush_plan KS KT cur st w H) as (st1 & w1 & E1 & H1 & M1 & _).
  assert (finish_fetch st w = Ok st1 w1) as E1' by exact E1. rewrite (bind_ok _ _ _ _ _ E1').
  assert (ensure_tde_archive_wal (close_target_file st1) w1 = Ok (close_target_file st1) w1) as E2.
  { unfold ensure_tde_archive_wal, close_target_file, with_dstfd. cbn [archive_wal_segments]. by rewrite (ps_segs _ _ _ _ _ H1). }
  rewrite (bind_ok _ _ _ _ _ E2).
  assert (plan_state (flushed cur KS) KT None (close_target_file st1) w1) as H2 by
    exact (plan_state_same _ _ _ _ _ _ _ _ H1 (dstfd_same st1 w1 None) eq_refl).
  destruct (fetch_tde_dir_ok (close_target_file st1) w1 rd_dry (ps_tde _ _ _ _ _ H2) (ps_wf _ _ _ _ _ H2)) as (st3 & w3 & E3 & S3 & G3 & _).
  exists st3, w3. split; [exact E3|]. split; [rewrite G3; apply H2|].
  eapply moved_trans; [exact M1|by eapply same_moved_none].
Qed.

(** What is read from the file of a relation afterwards: blocks that were changed or
    that were missing are the source's, all others are as before. *)
Definition rel_reads (it : rel_item) (new : bytes) : Prop :=
  length new = length (rj_src it) ∧
  ∀ j, (j < rj_S it)%nat →
    let bn := block_no (rj_seg it) (BLCKSZ * Z.of_nat j) in
    match rj_keys it with
    | Some (kS, kT) =>
        all_zero32 (block j new) = false →
        open_page kT MAIN_FORKNUM bn (block j new) =
          if decide (Z.of_nat j ∈ rj_blks it ∨ (rj_T it ≤ j)%nat)
          then open_page kS MAIN_FORKNUM bn (block j (rj_src it)) else open_page kT MAIN_FORKNUM bn (block j (rj_tgt it))
    | None =>
        block j new = if decide (Z.of_nat j ∈ rj_blks it ∨ (rj_T it ≤ j)%nat) then block j (rj_src it) else block j (rj_tgt it)
    end.

Lemma rewound_rel_reads KS KT it new w :
  rel_item_ok KS KT it → ctxs_ok w →
  rewound_with (rj_seg it) (rj_keys it) (rj_src it) (rj_tgt it) (rj_S it) (rj_T it) (rj_blks it) new → rel_reads it new.
Proof.
  intros Hit Hw Hnew. pose proof (re_slen _ _ _ _ _ _ _ (ro_entry _ _ _ Hit)) as Hsl. split; [by rewrite (proj1 Hnew)|].
  intros j Hj. pose proof (ro_kwf _ _ _ Hit) as Hk. destruct (rj_keys it) as [[kS kT]|]; [|exact (proj2 Hnew j Hj)].
  destruct Hk. by apply (rewound_reads _ kS kT _ _ (rj_S it) _ _ _ w).
Qed.

(** A copied file: as in the source, but for the forks of encrypted relations,
    which read as in the source. *)
Definition copy_reads (js : list enc_rel) (path : string) (src new : bytes) : Prop :=
  ((∀ j, j ∈ js → ¬ is_fork_of (Some j) (target_path path)) → new = src) ∧
  ∀ j fork b, j ∈ js → fork = FSM_FORKNUM ∨ fork = VISIBILITYMAP_FORKNUM → path = relpathperm (er_rl j) fork → er_seg j = 0 →
    (b < length src / blksz)%nat → all_zero32 (block b new) = false →
    let bn := block_no 0 (BLCKSZ * Z.of_nat b) in
    open_page (er_kT j) fork bn (block b new) = open_page (er_kS j) fork bn (block b src).

Lemma fork_file_reads KS KT j fork src w :
  job_ok KS KT j → ctxs_ok w → fork = FSM_FORKNUM ∨ fork = VISIBILITYMAP_FORKNUM →
  ∃ new, fork_file (Some j) (fork_of j fork) (Some src) = Some new ∧
    ∀ b, (b < length src / blksz)%nat → all_zero32 (block b new) = false →
      let bn := block_no (er_seg j) (BLCKSZ * Z.of_nat b) in
      open_page (er_kT j) fork bn (block b new) = open_page (er_kS j) fork bn (block b src).
Proof.
  intros Hj Hw Hf. exists (reencrypted_fork (er_seg j) (er_kS j) (er_kT j) fork src). split.
  - unfold fork_file. destruct Hf as [->| ->]; [by rewrite decide_True|].
    rewrite decide_False by (apply not_eq_sym, Hj). by rewrite decide_True.
  - intros b Hb. assert (blksz ≠ 0)%nat as Hsz by (pose proof blksz_Z as Hz; intros H0; rewrite H0 in Hz; discriminate).
    pose proof (Nat.Div0.mul_div_le (length src) blksz) as Hd.
    destruct (fork_blocks (er_seg j) (er_kS j) (er_kT j) fork (length src / blksz) w 0 src) as [_ B]; try apply Hj; [done|lia|].
    unfold reencrypted_fork. rewrite B by nia. rewrite decide_True by lia. intros Hz. cbv zeta.
    apply (open_reencrypted _ _ _ _ _ w); try apply Hj; try done. unfold page_ok, block. rewrite slice_length. pose proof blksz_Z. nia.
Qed.

(** No relation is processed before the last file is copied. *)
Lemma copies_first items l1 l2 e it :
  StronglySorted filemap_le (entry_of <$> items) → items = l1 ++ Plain e :: l2 → fe_action e = FILE_ACTION_COPY →
  (∃ KS KT, rel_item_ok KS KT it) → Rel it ∉ l1.
Proof.
  intros Hs -> He (KS & KT & Hit) Hin. rewrite fmap_app in Hs.
  assert (filemap_le (rj_entry it) e) as Hle.
  { apply list_elem_of_split in Hin as (a & b & ->). rewrite fmap_app in Hs. cbn in Hs. rewrite <-app_assoc in Hs.
    induction a as [|x a IH]; cbn in Hs; apply StronglySorted_inv in Hs as [Hs H].
    - eapply Forall_forall; [exact H|]. apply elem_of_app. right. left.
    - by apply IH. }
  apply filemap_le_alt in Hle. pose proof (re_action _ _ _ _ _ _ _ (ro_entry _ _ _ Hit)) as Ha. rewrite He, Ha in Hle.
  repeat case_decide; cbn in Hle; destruct Hle as [?|[? _]]; done || lia.
Qed.

Lemma plain_split items e :
  NoDup (item_path <$> items) → Plain e ∈ items →
  ∃ l1 l2, items = l1 ++ Plain e :: l2 ∧ ∀ i, i ∈ l2 → target_path (fe_path e) ≠ target_path (item_path i).
Proof.
  intros Hnd (l1 & l2 & ->)%list_elem_of_split. exists l1, l2. split; [done|]. intros i Hin E%target_path_inj.
  rewrite fmap_app in Hnd. apply NoDup_app in Hnd as (_ & _ & Hnd). cbn in Hnd. apply NoDup_cons in Hnd as [Hnd _].
  apply Hnd. change (item_path (Plain e)) with (fe_path e). rewrite E. by apply item_path_in.
Qed.

Lemma plain_not_rel items e it :
  NoDup (item_path <$> items) → Plain e ∈ items → Rel it ∈ items → target_path (fe_path e) ≠ target_path (rj_path it).
Proof.
  intros Hnd He Hin E%target_path_inj. apply list_elem_of_lookup in He as [i Hi]. apply list_elem_of_lookup in Hin as [k Hk].
  assert (i = k) as ->; [|congruence]. apply (NoDup_lookup _ _ _ (fe_path e) Hnd); rewrite list_lookup_fmap; [by rewrite Hi|].
  rewrite Hk. cbn. by rewrite E.
Qed.

Lemma jobs_after l1 l2 : (∀ it, Rel it ∉ l1) → jobs (l1 ++ l2) = jobs l2.
Proof.
  intros Hno. unfold jobs. rewrite omap_app. replace (omap item_job l1) with (@nil enc_rel); [done|]. symmetry.
  induction l1 as [|[it|e'] l1 IH]; [done|destruct (Hno it); left|]. cbn. apply IH. intros it Hin. apply (Hno it). by right.
Qed.

Lemma jobs_ok KS KT cur items w j : items_ok KS KT cur items w → j ∈ jobs items → job_ok KS KT j.
Proof.
  intros Hi Hj. unfold jobs in Hj. apply list_elem_of_omap in Hj as ([it|e'] & Hit & Hjt); [|done].
  eapply job_of_ok; [|exact Hjt]. by apply (io_rel _ _ _ _ _ Hi).
Qed.

Lemma copy_end KS KT items st w e src :
  rewind_plan KS KT items st w → Plain e ∈ items → fe_action e = FILE_ACTION_COPY → w_fs w !! source_path (fe_path e) = Some src →
  ∃ new, file_end (w_fs w) None items (target_path (fe_path e)) (w_fs w !! target_path (fe_path e)) = Some new ∧
    copy_reads (jobs items) (fe_path e) src new.
Proof.
  intros [Hst Hi Hord Hfk] Hin Ha Hsrc. pose proof (io_rels _ _ _ _ _ Hi) as Hrels. cbn [cur_jobs] in Hrels.
  destruct (plain_split items e (io_paths _ _ _ _ _ Hi) Hin) as (l1 & l2 & El & Hl2).
  assert (∀ it, Rel it ∉ l1) as Hno.
  { intros it Hit. apply (copies_first items l1 l2 e it Hord El Ha); [|done]. exists KS, KT. apply (io_rel _ _ _ _ _ Hi). rewrite El.
    apply elem_of_app. by left. }
  assert (jobs items = jobs l2) as Hjobs by (rewrite El; exact (jobs_after l1 (Plain e :: l2) Hno)).
  assert (∀ e', Plain e' ∈ l2 → target_path (fe_path e) ≠ target_path (fe_path e')) as Hp by (intros e' He'; exact (Hl2 (Plain e') He')).
  destruct (file_end_app (w_fs w) l1 (Plain e :: l2) (target_path (fe_path e)) None (w_fs w !! target_path (fe_path e))) as (c & o & E & Hc).
  rewrite (Hc Hno) in E. rewrite El, E. cbn [file_end]. unfold plain_file. rewrite decide_True, Ha, Hsrc by done. rewrite <-El, Hjobs in *.
  destruct (decide (Exists (λ j, target_path (fe_path e) = fork_of j FSM_FORKNUM ∨ target_path (fe_path e) = fork_of j VISIBILITYMAP_FORKNUM) (jobs l2)))
    as [(j & Hj & Hf)%Exists_exists|Hn].
  - assert (is_fork_of (Some j) (target_path (fe_path e))) as Hf' by (by exists j).
    rewrite (file_end_fork _ l2 _ j None) by (done || intros j' Hj' Hf2; by eapply Hfk).
    assert (job_ok KS KT j) as Hjo by (eapply jobs_ok; [exact Hi|by rewrite Hjobs]).
    assert (∃ f, (f = FSM_FORKNUM ∨ f = VISIBILITYMAP_FORKNUM) ∧ target_path (fe_path e) = fork_of j f) as (f & Hff & Ef).
    { destruct Hf as [Hf|Hf]; eauto. }
    rewrite Ef. destruct (fork_file_reads KS KT j f src w Hjo (ps_ctxs _ _ _ _ _ Hst) Hff) as (new & Enew & Hr).
    exists new. split; [done|]. split; [intros Hnone; by destruct (Hnone j Hj)|].
    intros j' f' b Hj' Hf2 Ep Hseg Hb Hz. assert (j' = j) as ->.
    { eapply Hfk; [done|done|done|]. exists j'. split; [done|]. unfold fork_of. rewrite Ep. destruct Hf2 as [->| ->]; auto. }
    assert (f' = f) as ->.
    { rewrite Ep in Ef. fold (fork_of j f') in Ef. pose proof (jo_forks _ _ _ Hjo) as Hne.
      destruct Hff as [->| ->], Hf2 as [->| ->]; done || (by rewrite Ef in Hne). }
    specialize (Hr b Hb Hz). by rewrite Hseg in Hr.
  - assert (∀ j, j ∈ jobs l2 → ¬ is_fork_of (Some j) (target_path (fe_path e))) as Hn'.
    { intros j Hj (j' & [= <-] & Hf). apply Hn, Exists_exists. by exists j. }
    rewrite file_end_same by done. exists src. split; [done|]. split; [done|]. intros j f b Hj Hf Ep. exfalso. apply (Hn' j Hj). exists j. split; [done|].
    unfold fork_of. rewrite Ep. destruct Hf as [->| ->]; auto.
Qed.

Lemma remove_end KS KT items st w e :
  rewind_plan KS KT items st w → Plain e ∈ items → fe_action e = FILE_ACTION_REMOVE → fs_type <$> fe_target e = Some FILE_TYPE_REGULAR →
  file_end (w_fs w) None items (target_path (fe_path e)) (w_fs w !! target_path (fe_path e)) = None.
Proof.
  intros [_ Hi _ _] Hin Ha Ht. destruct (plain_split items e (io_paths _ _ _ _ _ Hi) Hin) as (l1 & l2 & El & Hl2).
  destruct (file_end_app (w_fs w) l1 (Plain e :: l2) (target_path (fe_path e)) None (w_fs w !! target_path (fe_path e))) as (c & o & E & _).
  rewrite El, E. cbn [file_end]. unfold plain_file. rewrite decide_True, Ha, decide_True by done. apply file_end_none.
  intros e' He'. exact (Hl2 (Plain e') He').
Qed.

(** C10: pg_rewind with local files over a whole plan, ordered as the program orders
    it, of relation files that both clusters have, encrypted or not, and of files
    that are copied, removed or left, in any number of databases; each encrypted
    relation that both clusters have is one file (the program goes wrong for those
    of more segments), no WAL segment is to be encrypted again, no system call
    fails. The run succeeds. The key files of the target hold the target's key for
    each encrypted relation that both clusters have and the source's keys for all
    others, under the source's principal keys. The file of a relation that both have
    is as long as the source's, whether it was longer, shorter or of the same
    length; each block that was changed or missing reads under these keys as it does
    in the source, and each other block as before (unless its ciphertext starts with
    the zeros that mark blocks as not encrypted). Copied files are as in the source,
    except for the free space and visibility maps of these encrypted relations,
    which are encrypted again and read under the new keys as in the source. Removed
    files are gone, and all other files stay as they were. *)
Theorem rewound_plan KS KT items st w :
  rewind_plan KS KT items st w →
  ∃ st' w' KE, perform_rewind st (entry_of <$> items) w = Ok st' w' ∧
    dir_all (get_dir st' TargetTde w') KE ∧
    (∀ rl, stored_key KE rl = if decide (rl ∈ er_rl <$> jobs items) then stored_key KT rl else stored_key KS rl) ∧
    (∀ db, fst <$> KE !! db = fst <$> KS !! db) ∧
    (∀ it, Rel it ∈ items → ∃ new, w_fs w' !! target_path (rj_path it) = Some new ∧ rel_reads it new) ∧
    (∀ e src, Plain e ∈ items → fe_action e = FILE_ACTION_COPY → w_fs w !! source_path (fe_path e) = Some src →
      ∃ new, w_fs w' !! target_path (fe_path e) = Some new ∧ copy_reads (jobs items) (fe_path e) src new) ∧
    (∀ e, Plain e ∈ items → fe_action e = FILE_ACTION_REMOVE → fs_type <$> fe_target e = Some FILE_TYPE_REGULAR →
      w_fs w' !! target_path (fe_path e) = None) ∧
    (∀ p, is_key_file p = false → (∀ i, i ∈ items → p ≠ target_path (item_path i)) →
      (∀ j, j ∈ jobs items → ¬ is_fork_of (Some j) p) → w_fs w' !! p = w_fs w !! p).
Proof.
  intros H. pose proof H as [Hst Hi _ _]. pose proof (io_paths _ _ _ _ _ Hi) as Hnd.
  destruct (entries_ok KT items KS None st w Hst Hi) as (st1 & w1 & KS1 & cur1 & E1 & H1 & K1 & F1 & R1).
  destruct (finish_plan KS1 KT cur1 st1 w1 H1) as (st2 & w2 & E2 & D2 & M2).
  assert (∀ p, is_key_file p = false → w_fs w2 !! p = fork_file cur1 p (w_fs w1 !! p)) as F2 by (intros p Hp; apply M2; [done|by intros []]).
  destruct (plan_end_keys KT items KS None) as [Hk1 Hk2].
  { intros j Hj%(jobs_ok _ _ _ _ _ _ Hi). rewrite (jo_source _ _ _ Hj). split; [done|apply Hj]. }
  exists st2, w2, (plan_end KS None items). split_and!.
  - unfold perform_rewind. by rewrite (bind_ok _ _ _ _ _ E1).
  - by rewrite <-K1.
  - exact Hk1.
  - exact Hk2.
  - intros it Hin. destruct (R1 it Hin) as (new & Fn & Hn). exists new. rewrite F2 by apply rd_target. split; [done|].
    eapply rewound_rel_reads; [exact (proj1 (io_rel _ _ _ _ _ Hi it Hin))|exact (ps_ctxs _ _ _ _ _ Hst)|done].
  - intros e src Hin Ha Hsrc. rewrite F2, F1; [by eapply copy_end|apply rd_target| |apply rd_target].
    intros it Hit. by apply (plain_not_rel items).
  - intros e Hin Ha Ht. rewrite F2, F1; [by eapply remove_end|apply rd_target| |apply rd_target].
    intros it Hit. by apply (plain_not_rel items).
  - intros p Hp Hne Hf. rewrite F2, F1 by (done || intros it Hit; exact (Hne (Rel it) Hit)). apply file_end_same; [done|].
    intros e Hin. exact (Hne (Plain e) Hin).
Qed.

End steps.

(** ** Example *)

#[local] Existing Instance example_env.

#[local] Instance example_dirs : RewindDirs example_env.
Proof. split; [done|intros p q; done|done|done]. Qed.

Definition side (bs : bytes) : option file_side := Some (mkFileSide FILE_TYPE_REGULAR (Z.of_nat (length bs)) None).

(** A free space map is copied, an encrypted relation grows and one of its pages was
    changed, there is a directory, a file is removed, and a page of a relation that
    is not encrypted was changed. *)
Definition example_fsm : file_entry_t := mkFileEntry "base/5/16384_fsm" false None [] (side target_seg) FILE_ACTION_COPY.
Definition example_dir : file_entry_t := mkFileEntry "base/5" false (Some (mkFileSide FILE_TYPE_DIRECTORY 0 None)) []
  (Some (mkFileSide FILE_TYPE_DIRECTORY 0 None)) FILE_ACTION_NONE.
Definition example_gone : file_entry_t := mkFileEntry "base/5/17000" true (side target_seg) [] None FILE_ACTION_REMOVE.
Definition example_other : file_entry_t := mkFileEntry "base/5/16385" true (side target_seg) (foldl datapagemap_add [] [0])
  (side target_seg) FILE_ACTION_ENSURE_TDE_KEY.

Definition example_rel : rel_item := mkRelItem example_entry rel1 0 source_seg target_seg 2 1 [0] (Some (other_key, rel_key_example)).
Definition example_rel2 : rel_item := mkRelItem example_other (mkRelFileLocator 1663 5 16385) 0 target_seg target_seg 1 1 [0] None.

Definition example_plan : list item := [Plain example_fsm; Rel example_rel; Plain example_dir; Plain example_gone; Rel example_rel2].

Definition plan_files (fs : gmap string bytes) : gmap string bytes :=
  <["/s/base/5/16384" := source_seg]> (<["/t/base/5/16384" := target_seg]> (<["/s/base/5/16384_fsm" := target_seg]>
    (<["/t/base/5/17000" := target_seg]> (<["/s/base/5/16385" := target_seg]> (<["/t/base/5/16385" := target_seg]> fs))))).

Lemma plan_files_keys fs : key_files (plan_files fs) = key_files fs.
Proof.
  apply map_eq. intros p. rewrite !key_files_lookup. destruct (is_key_file p) eqn:E; [|done]. unfold plan_files.
  rewrite !lookup_insert_ne; [done|..]; intros <-; vm_compute in E; discriminate.
Qed.

Ltac find_file := unfold plan_files; repeat (rewrite lookup_insert_ne by discriminate); apply lookup_insert_eq.

(** A directory with the keys of one database. *)
Lemma one_db_dir w w' m :
  w_fs w = ∅ → db_rep w' 5 pk5 m → only_file (open_pg_tde_set_db_file_path 5) w w' →
  dir_all (mkKeyDir (key_files (w_fs w')) (w_pk_cache w')) {[5 := (pk5, m)]}.
Proof.
  intros He Hr (f & r & -> & Hf) db Hdb. destruct (decide (db = 5)) as [->|Hne].
  - rewrite lookup_singleton_eq. by apply db_rep_dir.
  - rewrite lookup_singleton_ne by congruence. cbn [dir_files]. rewrite key_files_lookup, db_path_key. cbn [w_fs set_fs set_rand].
    rewrite Hf, He; [apply lookup_empty|]. intros E. apply Hne, db_path_inj; [done|unfold is_u32; lia|done].
Qed.

Definition keys_with (k : InternalKey) : gmap Loc LKey := <[rel_loc rel1 := lkey k]> ∅.

Lemma plan_example : ∃ st w, rewind_plan {[5 := (pk5, keys_with other_key)]} {[5 := (pk5, keys_with rel_key_example)]} example_plan st w ∧
  w_fs w !! "/s/base/5/16384_fsm" = Some target_seg.
Proof.
  destruct (save_smgr_key_spec rel1 other_key true pk5 ∅ world_db) as (wS & _ & HS & OS);
    [apply world_db_rep|done|apply rel1_wf|done|by split_and!|].
  destruct (save_smgr_key_spec rel1 rel_key_example true pk5 ∅ rewind_world) as (wT & _ & HT & OT);
    [apply rewind_world_rep|done|apply rel1_wf|done|apply rel_key_example_wf|].
  exists (mkRewindState TargetTde (λ _, mkKeyDir (key_files (w_fs wS)) (w_pk_cache wS)) true no_current_file None [] ∅ [] 0),
    (set_fs (plan_files (w_fs wT)) wT). split; [|cbn [w_fs set_fs]; find_file]. split.
  - split; try done.
    + unfold get_dir. rewrite decide_False by discriminate. apply (one_db_dir world_db); [done|exact HS|exact OS].
    + unfold get_dir. rewrite decide_True by done. cbn [w_fs set_fs w_pk_cache]. rewrite plan_files_keys.
      apply (one_db_dir rewind_world); [vm_compute; reflexivity|exact HT|exact OT].
    + by destruct OT as (f & r & -> & _).
    + destruct OT as (f & r & -> & _). exact world1_ok.
    + intros d. apply key_files_all.
  - split.
    + intros it Hin. repeat (apply elem_of_cons in Hin as [[=]|Hin]); try (by apply elem_of_nil in Hin).
      all: subst it; cbn [w_fs set_fs]; split; [|split; find_file].
      * split; try done.
        split; try done; [apply length_replicate|apply length_replicate|]. repeat constructor; lia.
      * split; try done. split; try done; [apply length_replicate..|]. repeat constructor; lia.
    + intros e Hin. repeat (apply elem_of_cons in Hin as [[=]|Hin]); try (by apply elem_of_nil in Hin); subst e.
      * split; [done|]. split; [done|]. cbn [w_fs set_fs]. replace (plan_files _ !! _) with (Some target_seg); [done|]. symmetry. find_file.
      * done.
      * split; [done|]. split; [done|]. cbn. exists target_seg. find_file.
    + cbn. repeat (apply NoDup_cons; split; [vm_compute; intros H; repeat (apply elem_of_cons in H as [H|H]; [discriminate|]); by apply elem_of_nil in H|]).
      constructor.
    + done.
    + apply NoDup_singleton.
    + intros j it Hj Hin. apply list_elem_of_singleton in Hj as ->. intros (? & [= <-] & H).
      repeat (apply elem_of_cons in Hin as [[=]|Hin]); try (by apply elem_of_nil in Hin); subst it; destruct H as [H|H]; discriminate.
  - repeat (apply SSorted_cons; [|repeat constructor; apply filemap_le_alt; left; cbn; lia]). constructor.
  - intros j j' p Hj%list_elem_of_singleton Hj'%list_elem_of_singleton _ _. congruence.
Qed.

Lemma rewound_plan_witness : ∃ st w st' w' new fsm,
  perform_rewind st (entry_of <$> example_plan) w = Ok st' w' ∧
  w_fs w' !! "/t/base/5/16384" = Some new ∧ length new = length source_seg ∧
  (all_zero32 (block 1 new) = false →
   open_page rel_key_example MAIN_FORKNUM (block_no 0 (BLCKSZ * 1)) (block 1 new) =
   open_page other_key MAIN_FORKNUM (block_no 0 (BLCKSZ * 1)) (block 1 source_seg)) ∧
  w_fs w' !! "/t/base/5/16384_fsm" = Some fsm ∧ w_fs w' !! "/t/base/5/17000" = None.
Proof.
  destruct plan_example as (st & w & H & Hs).
  destruct (rewound_plan _ _ example_plan st w H) as (st' & w' & KE & E & _ & _ & _ & Hr & Hc & Hg & _).
  destruct (Hr example_rel ltac:(right; left)) as (new & F & L & B).
  destruct (Hc example_fsm target_seg ltac:(left) eq_refl Hs) as (fsm & Ff & _).
  exists st, w, st', w', new, fsm. split; [exact E|]. split; [exact F|]. split; [exact L|].
  split; [exact (B 1%nat ltac:(cbn; lia))|]. split; [exact Ff|]. apply (Hg example_gone); [|done|done]. do 3 right. left.
Defined.
