(* ===== verification/LibpqSource.v ===== *)
(** fetools/pg18/pg_rewind/libpq_source.c: the source of a rewind is a running
    server. Requests are queued, neighbouring pieces are merged, long ones are cut,
    and a query fetches all that is in the queue.

    The two queries and the listing of a directory are the class [SourceServer]. A
    row of a result is what the checks of its format leave of it; [BadResult] is all
    that they refuse. Pointers to paths are compared as the paths are, since the
    program has one string for each path. *)
From S2P Require Import Prelude Types Environ Ciphers EncTde KeyFile KeyMap FileMap Rewind.

Definition MAX_CHUNK_SIZE : Z := 1024 * 1024.
Definition MAX_CHUNKS_PER_QUERY : nat := 1000.

(** What [PQgetResult] gives: a row with path, offset and contents, which are null if
    the file is gone; the final result without rows. *)
Inductive PGresult :=
| SingleTuple (filename : string) (chunkoff : Z) (chunk : option bytes)
| TuplesOk
| BadResult.

(** [fetch_chunks_stmt] for paths, offsets and lengths; [pg_read_binary_file];
    [pg_ls_dir] of the directory of keys, with null for a file that is gone. The
    answers depend on the files at that time. *)
Class SourceServer := {
  fetch_chunks : gmap string bytes → list (string * Z * Z) → option (list PGresult);
  pg_read_binary_file : KeyDir → string → option bytes;
  pg_ls_dir : KeyDir → option (list (option string));
}.

Section libpq.
Context {SSL : OpenSSL} {K : Kernel} {PKS : PrincipalKeys} {RP : RelPath} {RE : RewindEnv} {SS : SourceServer}.

(** ** Fetching *)

(** [for (int i = 0; i < chunksize / BLCKSZ; i++)] *)
Fixpoint reencrypt_blocks (n : nat) (i : Z) (st : RewindState) (chunk : bytes) (chunkoff : Z) : M bytes :=
  match n with
  | O => mret chunk
  | S n =>
      data ← tde_reencrypt_block st (slice (Z.to_nat (BLCKSZ * i)) (Z.to_nat BLCKSZ) chunk) (chunkoff + BLCKSZ * i) MAIN_FORKNUM;
      reencrypt_blocks n (i + 1) st (write_at (Z.to_nat (BLCKSZ * i)) data chunk) chunkoff
  end.

(** One row; [rq] is the entry of the queue that it should belong to. An entry that
    was never written has no path. *)
Definition process_chunk (st : RewindState) (rq : option fetch_range_request) (filename : string) (chunkoff : Z)
    (chunk : option bytes) : M RewindState :=
  match chunk with
  | None => remove_target_file filename true;; mret st
  | Some chunk =>
      match rq with
      | None => ereport PANIC "NULL pointer dereference"
      | Some rq =>
          let chunksize := Z.of_nat (length chunk) in
          if negb (bool_decide (filename = rq_path rq)) then ereport FATAL "received data for another file"
          else if negb (chunkoff =? rq_offset rq) then ereport FATAL "received data at another offset"
          else if rq_length rq <? chunksize then ereport FATAL "received more than requested"
          else
            st ← open_target_file st filename false;
            if rq_encrypt rq then
              st ← ensure_tde_keys st filename;
              chunk ← reencrypt_blocks (Z.to_nat (chunksize / BLCKSZ)) 0 st chunk chunkoff;
              write_target_range st chunk chunkoff;;
              mret st
            else
              write_target_range st chunk chunkoff;;
              mret st
      end
  end.

(** [while ((res = PQgetResult (src->conn)) != NULL)]: the number of chunks. Entries of
    the queue behind [num_requests] are those of earlier queries. *)
Fixpoint process_results (st : RewindState) (chunkno : nat) (results : list PGresult) : M (nat * RewindState) :=
  match results with
  | [] => mret (chunkno, st)
  | TuplesOk :: results => process_results st chunkno results
  | BadResult :: _ => ereport FATAL "unexpected result while fetching remote files"
  | SingleTuple filename chunkoff chunk :: results =>
      if (num_requests st <? chunkno)%nat then ereport FATAL "received more data chunks than requested"
      else
        st ← process_chunk st (request_queue st !! chunkno) filename chunkoff chunk;
        process_results st (S chunkno) results
  end.

Definition request_params (rq : fetch_range_request) : string * Z * Z := (rq_path rq, rq_offset rq, rq_length rq).

Definition process_queued_fetch_requests (st : RewindState) : M RewindState :=
  if (num_requests st =? 0)%nat then mret st
  else
    fs ← gets w_fs;
    match fetch_chunks fs (request_params <$> take (num_requests st) (request_queue st)) with
    | None => ereport FATAL "could not send query"
    | Some results =>
        '(chunkno, st) ← process_results st 0 results;
        if negb (chunkno =? num_requests st)%nat then ereport FATAL "unexpected number of data chunks received"
        else mret (with_queue (request_queue st) 0 st)
    end.

(** ** Queueing *)

(** [src->request_queue[src->num_requests++] = rq] *)
Definition append_request (rq : fetch_range_request) (st : RewindState) : RewindState :=
  let n := num_requests st in
  with_queue (take n (request_queue st) ++ rq :: drop (S n) (request_queue st)) (S n) st.

Fixpoint queue_pieces (fuel : nat) (st : RewindState) (path : string) (needs_encrypt : bool) (off len : Z) : M RewindState :=
  if len <=? 0 then mret st
  else
    match fuel with
    | O => out_of_fuel
    | S fuel =>
        st ← (if (num_requests st =? MAX_CHUNKS_PER_QUERY)%nat then process_queued_fetch_requests st else mret st);
        let thislen := Z.min len MAX_CHUNK_SIZE in
        queue_pieces fuel (append_request (mkRequest path off thislen needs_encrypt) st) path needs_encrypt
          (off + thislen) (len - thislen)
    end.

(** The last request is extended by what follows it; what was merged. *)
Definition merge_request (st : RewindState) (path : string) (off len : Z) : RewindState * Z :=
  match num_requests st with
  | O => (st, 0)
  | S n =>
      match request_queue st !! n with
      | None => (st, 0)
      | Some prev =>
          if (rq_offset prev + rq_length prev =? off) && (rq_length prev <? MAX_CHUNK_SIZE) && bool_decide (rq_path prev = path) then
            let thislen := Z.min len (MAX_CHUNK_SIZE - rq_length prev) in
            (with_queue (<[n := mkRequest (rq_path prev) (rq_offset prev) (rq_length prev + thislen) (rq_encrypt prev)]> (request_queue st))
               (S n) st, thislen)
          else (st, 0)
      end
  end.

Definition libpq_queue_process_fetch_range (st : RewindState) (path : string) (needs_encrypt : bool) (off len : Z) : M RewindState :=
  let '(st, thislen) := merge_request st path off len in
  queue_pieces (Z.to_nat len) st path needs_encrypt (off + thislen) (len - thislen).

Definition libpq_queue_fetch_file (st : RewindState) (path : string) (len : Z) : M RewindState :=
  st ← open_target_file st path true;
  libpq_queue_process_fetch_range st path false 0 (Z.max len MAX_CHUNK_SIZE).

Definition libpq_queue_fetch_range (st : RewindState) (path : string) (off len : Z) : M RewindState :=
  libpq_queue_process_fetch_range st path true off len.

Definition libpq_finish_fetch (st : RewindState) : M RewindState :=
  st ← process_queued_fetch_requests st;
  flush_current_tde_rel_key st.

(** ** Keys of the source *)

Fixpoint fetch_key_files (st : RewindState) (dir : KeyDir) (names : list (option string)) : M RewindState :=
  match names with
  | [] => mret st
  | None :: names => fetch_key_files st dir names
  | Some name :: names =>
      let path := ("open_pg_tde/" +:+ name)%string in
      match pg_read_binary_file dir path with
      | None => ereport FATAL "could not fetch remote file"
      | Some buf =>
          st ← copy_file st TmpSource (path, buf);
          fetch_key_files st dir names
      end
  end.

(** The principal keys of the new directory are given by its files. *)
Definition libpq_fetch_tde_keys (st : RewindState) : M RewindState :=
  dir ← gets (get_dir st SourceTde);
  match pg_ls_dir dir with
  | None => ereport FATAL "could not fetch file list"
  | Some [] => mret st
  | Some names =>
      let st := with_has_tde true st in
      st ← put_dir st TmpSource (mkKeyDir ∅ ∅);
      st ← fetch_key_files st dir names;
      copied ← gets (get_dir st TmpSource);
      put_dir st TmpSource (mkKeyDir (dir_files copied) (dir_keys dir))
  end.

Definition libpq_source : RewindSource := {|
  queue_fetch_file := libpq_queue_fetch_file;
  queue_fetch_range := libpq_queue_fetch_range;
  finish_fetch := libpq_finish_fetch;
|}.

End libpq.
