(* ===== verification/LibpqSourceThms.v ===== *)
(** A rewind of one relation file from a running server: whatever is queued, merged
    and cut on the way, the file ends up as it does with a local source. *)
From S2P Require Import Prelude Types Environ Instances Ciphers EncTde KeyFile KeyMap KeyMapSpec SmgrSpec FileMap FileMapThms Rewind RewindThms LibpqSource.

(** ** The server *)

(** A server that answers with what its files hold, row by row in the order of the
    request; a file that is gone is null. *)
Definition chunk_row {RE : RewindEnv} (fs : gmap string bytes) (p : string * Z * Z) : PGresult :=
  let '(path, off, len) := p in
  SingleTuple path off (slice (Z.to_nat off) (Z.to_nat len) <$> fs !! source_path path).

Class TruthfulServer {RE : RewindEnv} (SS : SourceServer) : Prop := {
  truthful_chunks fs params : fetch_chunks fs params = Some ((chunk_row fs <$> params) ++ [TuplesOk]);
}.

Section libpq_thms.
Context {SSL : OpenSSL} {Spec : OpenSSLSpec SSL} {K : Kernel} {NF : NoFaults K} {RW : RandWorks SSL}.
Context {PKS : PrincipalKeys} {PKSpec : PrincipalKeysSpec PKS} {RP : RelPath} {RE : RewindEnv}.
Context {SS : SourceServer} {TS : TruthfulServer SS}.

(** A relation with [S] blocks in the source. *)
Context (path : string) (rl : RelFileLocator) (seg : Z) (pkS pkT : TDEPrincipalKey) (mS mT : gmap Loc LKey).
Context (kS kT : InternalKey) (src : bytes) (S : nat).
Context (Hf : rel_files path rl seg mS mT kS kT) (WS : InternalKey_wf kS) (WT : InternalKey_wf kT).
Context (Hks : is_key_file (source_path path) = false) (Hsl : length src = (blksz * S)%nat).

Abbreviation new k1 k2 j := (reencrypted k1 k2 MAIN_FORKNUM (block_no seg (BLCKSZ * Z.of_nat j)) (block j src)).
Abbreviation put := (put_block seg kS kT src).

(** ** Writing a chunk *)

Lemma new_length k1 k2 j w :
  InternalKey_wf k1 → InternalKey_wf k2 → ctxs_ok w → (j < S)%nat → length (new k1 k2 j) = blksz.
Proof. intros W1 W2 Hw Hj. apply (put_block_length seg (Some (k1, k2)) src [] j w); try done. rewrite Hsl. nia. Qed.

Lemma blocks_written k1 k2 n : ∀ i cur w,
  InternalKey_wf k1 → InternalKey_wf k2 → ctxs_ok w → (0 < n)%nat → (i + n ≤ S)%nat →
  write_at (blksz * i) (concat ((λ j, new k1 k2 j) <$> seq i n)) cur = foldl (put_block seg k1 k2 src) cur (seq i n).
Proof.
  intros i cur w W1 W2 Hw. revert i cur. induction n as [|n IH]; intros i cur Hn HS; [lia|].
  cbn [seq foldl fmap list_fmap concat]. destruct (decide (n = 0)%nat) as [->|Hn0].
  { cbn [seq fmap list_fmap concat foldl]. by rewrite app_nil_r. }
  rewrite <-IH by lia. rewrite <-overwrite_next. unfold put_with at 1. f_equal.
  rewrite (new_length k1 k2 i w) by (done || lia). lia.
Qed.

Lemma reencrypt_blocks_ok st k1 k2 i n : ∀ k pre w,
  source_key (current_tde_file st) = Some k1 → target_key (current_tde_file st) = Some k2 → ctf_segNo (current_tde_file st) = seg →
  InternalKey_wf k1 → InternalKey_wf k2 → ctxs_ok w → length pre = (blksz * k)%nat → (i + k + n ≤ S)%nat →
  ∃ w', reencrypt_blocks n (Z.of_nat k) st (pre ++ slice (blksz * (i + k)) (blksz * n) src) (BLCKSZ * Z.of_nat i) w =
      Ok (pre ++ concat ((λ j, new k1 k2 j) <$> seq (i + k) n)) w' ∧ ctxs_ok w' ∧ ctx_only w w'.
Proof.
  intros k pre w H1 H2 Hseg W1 W2. revert k pre w. induction n as [|n IH]; intros k pre w Hw Hpre HS; cbn [reencrypt_blocks].
  { exists w. split; [|done]. rewrite Nat.mul_0_r. done. }
  rewrite blksz_mul, blksz_to_nat. rewrite <-Hpre.
  rewrite slice_app_r, Nat.sub_diag by lia.
  assert (slice (blksz * (i + k)) (blksz * Datatypes.S n) src =
          block (i + k) src ++ slice (blksz * (i + (k + 1))) (blksz * n) src) as Hsp.
  { replace (blksz * Datatypes.S n)%nat with (blksz + blksz * n)%nat by lia. rewrite slice_split. unfold block. do 2 f_equal. lia. }
  assert (length (block (i + k) src) = blksz) as Hbl by (unfold block; rewrite slice_length; nia).
  rewrite Hsp, slice_here by done.
  replace (BLCKSZ * Z.of_nat i + BLCKSZ * Z.of_nat k) with (BLCKSZ * Z.of_nat (i + k)) by lia.
  destruct (reencrypt_block_ok st (block (i + k) src) (BLCKSZ * Z.of_nat (i + k)) MAIN_FORKNUM k1 k2 w H1 H2 W1 W2) as (w1 & E1 & P1 & C1 & O1);
    [unfold page_ok; pose proof blksz_Z; lia|done|].
  rewrite Hseg in *. rewrite (bind_ok _ _ _ _ _ E1).
  assert (length (new k1 k2 (i + k)) = blksz) as Hnl by (apply (new_length k1 k2 _ w); done || lia).
  rewrite overwrite_middle by lia. rewrite app_assoc.
  replace (Z.of_nat k + 1) with (Z.of_nat (k + 1)) by lia.
  destruct (IH (k + 1)%nat (pre ++ new k1 k2 (i + k)) w1) as (w2 & E2 & C2 & O2); [done|rewrite length_app; lia|lia|].
  exists w2. rewrite E2. split; [|split; [done|by etrans]]. f_equal. cbn [seq fmap list_fmap concat]. rewrite <-app_assoc.
  by replace (i + (k + 1))%nat with (Datatypes.S (i + k)) by lia.
Qed.

Definition req (r : nat * nat) : fetch_range_request := mkRequest path (BLCKSZ * Z.of_nat r.1) (BLCKSZ * Z.of_nat r.2) true.

Lemma process_chunk_ok st i n cur w :
  rel_keys st w rl pkS pkT mS mT → source_has_tde st = true → fresh st path ∨ loaded st path rl seg kS kT →
  w_fs w !! target_path path = Some cur → (0 < n)%nat → (i + n ≤ S)%nat →
  ∃ st' w', process_chunk st (Some (req (i, n))) path (BLCKSZ * Z.of_nat i) (Some (slice (blksz * i) (blksz * n) src)) w = Ok st' w' ∧
    same_but nothing (eq (target_path path)) st w st' w' ∧ loaded st' path rl seg kS kT ∧
    w_fs w' !! target_path path = Some (foldl put cur (seq i n)).
Proof.
  intros Hrk Htde Hcur Htgt Hn HS. pose proof blksz_Z as Hsz. assert (0 < BLCKSZ) as Hpos by done.
  assert (length (slice (blksz * i) (blksz * n) src) = (blksz * n)%nat) as Hlen by (rewrite slice_length; nia).
  unfold process_chunk. cbv zeta. rewrite Hlen. cbn [req rq_path rq_offset rq_length rq_encrypt fst snd].
  rewrite bool_decide_eq_true_2, Z.eqb_refl by done. cbn [negb].
  rewrite Nat2Z.inj_mul, Hsz. rewrite (proj2 (Z.ltb_ge _ _)) by lia.
  rewrite (bind_ok _ _ _ _ _ (open_target_ok st path cur w (rf_dry _ _ _ _ _ _ _ Hf) (rf_safe _ _ _ _ _ _ _ Hf) Htgt)).
  set (st1 := with_dstfd (Some (target_path path)) st).
  destruct (ensure_loaded st1 path rl seg pkS pkT mS mT kS kT w) as (st2 & w2 & E2 & S2 & D2 & L2); try done.
  { exact (rel_keys_same _ _ _ _ _ _ _ _ _ _ Hrk (dstfd_same st w _)). }
  rewrite (bind_ok _ _ _ _ _ E2). pose proof L2 as (k1 & k2 & C2 & K1 & W1 & K2 & W2).
  rewrite (Z.mul_comm BLCKSZ (Z.of_nat n)), Z.div_mul, Nat2Z.id by lia.
  assert (ctxs_ok w2) as Hw2 by (apply (sb_ctxs _ _ _ _ _ _ S2), Hrk).
  destruct (reencrypt_blocks_ok st2 k1 k2 i n 0 [] w2) as (w3 & E3 & C3 & O3); [by rewrite C2..|done|done|done|by rewrite Nat.mul_0_r|lia|].
  rewrite Nat.add_0_r in E3. cbn [app] in E3. change (Z.of_nat 0) with 0 in E3. rewrite (bind_ok _ _ _ _ _ E3).
  set (d := concat _) in *.
  assert (w_fs w3 = w_fs w2) as Hfs by (unfold ctx_only, without_ctxs in O3; congruence).
  assert (w_fs w2 !! target_path path = Some cur) as Htgt2.
  { rewrite (sb_files _ _ _ _ _ _ S2); [done|apply Hf|by intros []]. }
  assert (d ≠ []) as Hd.
  { unfold d. destruct n as [|n]; [lia|]. cbn [seq fmap list_fmap concat].
    pose proof (blksz_nonempty _ (new_length k1 k2 i w2 W1 W2 Hw2 ltac:(lia))) as H. intros [? _]%app_nil. done. }
  assert (dstfd st2 = Some (target_path path)) as D2' by (by rewrite D2).
  assert (w_fs w3 !! target_path path = Some cur) as Htgt3 by (by rewrite Hfs).
  rewrite (bind_ok _ _ _ _ _ (write_range_ok st2 (target_path path) d (BLCKSZ * Z.of_nat i) cur w3 (rf_dry _ _ _ _ _ _ _ Hf) D2' Htgt3 ltac:(lia) Hd)).
  eexists st2, _. split; [reflexivity|]. split; [|split; [done|]].
  - eapply same_but_trans; [eapply same_but_weaken; [..|exact (dstfd_same st w (Some (target_path path)))]; [done|by intros p []]|].
    eapply same_but_trans; [eapply same_but_weaken; [..|exact S2]; [done|by intros p []]|].
    eapply same_but_trans; [eapply same_but_weaken; [..|exact (ctx_only_same st2 w2 w3 O3 C3)]; [done|by intros p []]|].
    exact (write_same st2 w3 (target_path path) _ (rf_key _ _ _ _ _ _ _ Hf)).
  - cbn [w_fs set_fs]. rewrite lookup_insert_eq. f_equal. rewrite blksz_mul.
    unfold d. rewrite (blocks_written k1 k2 n i cur w2) by done. by apply put_block_lkey.
Qed.

(** ** Working off the queue *)

Definition blocks (q : list (nat * nat)) : list nat := q ≫= λ r, seq r.1 r.2.
Definition req_ok (r : nat * nat) : Prop := (0 < r.2 ≤ 128)%nat ∧ (r.1 + r.2 ≤ S)%nat.

Lemma row_of_request fs r :
  fs !! source_path path = Some src →
  chunk_row fs (request_params (req r)) = SingleTuple path (BLCKSZ * Z.of_nat r.1) (Some (slice (blksz * r.1) (blksz * r.2) src)).
Proof. intros E. cbn. by rewrite E, !blksz_mul. Qed.

Lemma request_lookup q1 r q2 rest : ((req <$> q1 ++ r :: q2) ++ rest) !! length q1 = Some (req r).
Proof. rewrite fmap_app, <-app_assoc, lookup_app_r by (by rewrite length_fmap). by rewrite length_fmap, Nat.sub_diag. Qed.

Lemma process_results_ok fs rest q2 : ∀ q1 st cur w,
  fs !! source_path path = Some src → rel_keys st w rl pkS pkT mS mT → source_has_tde st = true →
  fresh st path ∨ loaded st path rl seg kS kT → w_fs w !! target_path path = Some cur → Forall req_ok q2 →
  request_queue st = (req <$> q1 ++ q2) ++ rest → num_requests st = length (q1 ++ q2) →
  ∃ st' w', process_results st (length q1) ((chunk_row fs <$> (request_params <$> (req <$> q2))) ++ [TuplesOk]) w =
      Ok (length (q1 ++ q2), st') w' ∧
    same_but nothing (eq (target_path path)) st w st' w' ∧ (q2 = [] ∧ st' = st ∨ loaded st' path rl seg kS kT) ∧
    w_fs w' !! target_path path = Some (foldl put cur (blocks q2)).
Proof.
  induction q2 as [|r q2 IH]; intros q1 st cur w Hfs Hrk Htde Hcur Htgt Hq Hqueue Hnum.
  { exists st, w. rewrite app_nil_r. split; [reflexivity|]. split; [apply same_but_refl|]. split; [by left|done]. }
  apply Forall_cons in Hq as [[Hr HrS] Hq]. cbn [fmap list_fmap app]. fold (@fmap list _ _ _ req q2).
  rewrite row_of_request by done. cbn [process_results].
  rewrite (proj2 (Nat.ltb_ge _ _)) by (rewrite Hnum, length_app; lia).
  assert (request_queue st !! length q1 = Some (req r)) as ->.
  { rewrite Hqueue. apply request_lookup. }
  destruct (process_chunk_ok st r.1 r.2 cur w) as (st1 & w1 & E1 & S1 & L1 & F1); try done; [lia|].
  rewrite <-surjective_pairing in E1. rewrite (bind_ok _ _ _ _ _ E1).
  replace (Datatypes.S (length q1)) with (length (q1 ++ [r])) by (rewrite length_app; cbn; lia).
  replace (q1 ++ r :: q2) with ((q1 ++ [r]) ++ q2) in * by (by rewrite <-app_assoc).
  destruct (IH (q1 ++ [r]) st1 (foldl put cur (seq r.1 r.2)) w1) as (st2 & w2 & E2 & S2 & L2 & F2); try done.
  { exact (rel_keys_same _ _ _ _ _ _ _ _ _ _ Hrk S1). }
  { by rewrite (sb_tde _ _ _ _ _ _ S1). }
  { by right. }
  { by rewrite (sb_queue _ _ _ _ _ _ S1). }
  { by rewrite (sb_count _ _ _ _ _ _ S1). }
  exists st2, w2. split; [exact E2|]. split; [by eapply same_but_trans|]. split.
  - right. by destruct L2 as [[_ ->]|].
  - rewrite F2. unfold blocks. cbn [mbind list_bind]. by rewrite foldl_app.
Qed.

(** The requests [q] wait; once they are worked off the target's file is [E]. *)
Record waiting (q : list (nat * nat)) (E : bytes) (st : RewindState) (w : World) : Prop := {
  wt_keys : rel_keys st w rl pkS pkT mS mT;
  wt_tde : source_has_tde st = true;
  wt_segs : archive_wal_segments st = [];
  wt_cur : fresh st path ∨ loaded st path rl seg kS kT;
  wt_src : w_fs w !! source_path path = Some src;
  wt_file : ∃ cur, w_fs w !! target_path path = Some cur ∧ E = foldl put cur (blocks q);
  wt_queue : ∃ rest, request_queue st = (req <$> q) ++ rest;
  wt_num : num_requests st = length q;
  wt_max : (length q ≤ MAX_CHUNKS_PER_QUERY)%nat;
  wt_ok : Forall req_ok q;
}.

Lemma process_queue_ok q E st w :
  waiting q E st w →
  ∃ st' w', process_queued_fetch_requests st w = Ok st' w' ∧ waiting [] E st' w' ∧
    (q ≠ [] ∨ loaded st path rl seg kS kT → loaded st' path rl seg kS kT).
Proof.
  intros [Hrk Htde Hsegs Hcur Hsrc (cur & Htgt & HE) (rest & Hqueue) Hnum Hmax Hok]. unfold process_queued_fetch_requests. rewrite Hnum.
  destruct q as [|r q].
  { exists st, w. split; [done|]. split; [|by intros []]. split; try done; [by exists cur|by exists rest]. }
  change (length (r :: q) =? 0)%nat with false. cbv iota. rewrite (bind_ok (gets w_fs) _ w _ w eq_refl).
  rewrite Hqueue, take_app_length' by (by rewrite length_fmap). rewrite truthful_chunks.
  destruct (process_results_ok (w_fs w) rest (r :: q) [] st cur w) as (st1 & w1 & E1 & S1 & L1 & F1); try done.
  change (length (@nil (nat * nat))) with 0%nat in E1. rewrite (bind_ok _ _ _ _ _ E1). cbn [app].
  rewrite (sb_count _ _ _ _ _ _ S1), Hnum, Nat.eqb_refl. cbn [negb].
  assert (loaded st1 path rl seg kS kT) as Hl by (by destruct L1 as [[? _]|]).
  eexists _, w1. split; [reflexivity|]. split; [|done]. split; try done.
  - destruct (rel_keys_same _ _ _ _ _ _ _ _ _ _ Hrk S1). by split.
  - cbn. by rewrite (sb_tde _ _ _ _ _ _ S1).
  - cbn. by rewrite (sb_segs _ _ _ _ _ _ S1).
  - by right.
  - rewrite (sb_files _ _ _ _ _ _ S1); [done|done|]. intros H. by apply (rf_ne _ _ _ _ _ _ _ Hf).
  - exists (foldl put cur (blocks (r :: q))). done.
  - by eexists.
  - cbn. unfold MAX_CHUNKS_PER_QUERY. lia.
Qed.

(** ** Filling the queue *)

Lemma max_chunk : MAX_CHUNK_SIZE = BLCKSZ * Z.of_nat 128.
Proof. done. Qed.

(** Offsets of blocks. *)
Lemma off_add i n : BLCKSZ * Z.of_nat i + BLCKSZ * Z.of_nat n = BLCKSZ * Z.of_nat (i + n).
Proof. lia. Qed.

Lemma off_sub i n : (n ≤ i)%nat → BLCKSZ * Z.of_nat i - BLCKSZ * Z.of_nat n = BLCKSZ * Z.of_nat (i - n).
Proof. intros H. rewrite Nat2Z.inj_sub by done. lia. Qed.

Lemma off_min i n : Z.min (BLCKSZ * Z.of_nat i) (BLCKSZ * Z.of_nat n) = BLCKSZ * Z.of_nat (i `min` n).
Proof. by rewrite Z.mul_min_distr_nonneg_l, <-Nat2Z.inj_min. Qed.

Lemma append_ok q E st w r :
  waiting q E st w → (length q < MAX_CHUNKS_PER_QUERY)%nat → req_ok r →
  waiting (q ++ [r]) (foldl put E (seq r.1 r.2)) (append_request (req r) st) w.
Proof.
  intros [Hrk Htde Hsegs Hcur Hsrc (cur & Htgt & HE) (rest & Hqueue) Hnum Hmax Hok] Hlt Hr. split; try done.
  - destruct Hrk. by split.
  - exists cur. split; [done|]. rewrite HE, <-foldl_app. f_equal. unfold blocks. rewrite bind_app. cbn. by rewrite app_nil_r.
  - eexists. cbn [append_request with_queue request_queue]. rewrite Hnum, Hqueue, take_app_length' by (by rewrite length_fmap).
    rewrite fmap_app, <-app_assoc. reflexivity.
  - cbn. rewrite Hnum, length_app. cbn. lia.
  - rewrite length_app. cbn. lia.
  - apply Forall_app. split; [done|]. by constructor.
Qed.

Lemma extend_ok q r m E st w :
  waiting (q ++ [r]) E st w → (r.2 + m ≤ 128)%nat → (r.1 + r.2 + m ≤ S)%nat →
  waiting (q ++ [(r.1, (r.2 + m)%nat)]) (foldl put E (seq (r.1 + r.2) m))
    (with_queue (<[length q := req (r.1, (r.2 + m)%nat)]> (request_queue st)) (length (q ++ [r])) st) w.
Proof.
  intros [Hrk Htde Hsegs Hcur Hsrc (cur & Htgt & HE) (rest & Hqueue) Hnum Hmax Hok] Hm HS. apply Forall_app in Hok as [Hok Hr].
  apply Forall_cons in Hr as [[Hr _] _]. split; try done.
  - destruct Hrk. by split.
  - exists cur. split; [done|]. rewrite HE, <-foldl_app. f_equal. unfold blocks. rewrite !bind_app. cbn.
    by rewrite !app_nil_r, seq_app, app_assoc.
  - exists rest. cbn [with_queue request_queue]. rewrite Hqueue, !fmap_app, <-!app_assoc.
    rewrite insert_app_r_alt by (by rewrite length_fmap). by rewrite length_fmap, Nat.sub_diag.
  - cbn. by rewrite !length_app.
  - rewrite length_app in *. done.
  - apply Forall_app. split; [done|]. constructor; [|done]. unfold req_ok. cbn. lia.
Qed.

Definition touched (q : list (nat * nat)) (st : RewindState) : Prop := q ≠ [] ∨ loaded st path rl seg kS kT.

Lemma queue_pieces_ok fuel : ∀ n i q E st w,
  waiting q E st w → (i + n ≤ S)%nat → (n ≤ fuel)%nat →
  ∃ st' w' q', queue_pieces fuel st path true (BLCKSZ * Z.of_nat i) (BLCKSZ * Z.of_nat n) w = Ok st' w' ∧
    waiting q' (foldl put E (seq i n)) st' w' ∧ ((0 < n)%nat ∨ touched q st → touched q' st').
Proof.
  assert (0 < BLCKSZ) as Hpos by done. induction fuel as [|fuel IH]; intros n i q E st w Hwt HS Hfuel; cbn [queue_pieces].
  all: destruct (decide (n = 0)%nat) as [->|Hn]; [|try lia].
  1,2: exists st, w, q; split; [done|]; split; [done|]; intros [?|?]; [lia|done].
  rewrite (proj2 (Z.leb_gt _ _)) by lia.
  assert (∃ st1 w1 q1, (if (num_requests st =? MAX_CHUNKS_PER_QUERY)%nat then process_queued_fetch_requests st else mret st) w = Ok st1 w1 ∧
    waiting q1 E st1 w1 ∧ (length q1 < MAX_CHUNKS_PER_QUERY)%nat) as (st1 & w1 & q1 & E1 & Hwt1 & Hlt).
  { rewrite (wt_num _ _ _ _ Hwt). destruct (Nat.eqb_spec (length q) MAX_CHUNKS_PER_QUERY) as [_|Hne].
    - destruct (process_queue_ok q E st w Hwt) as (st1 & w1 & E1 & H1 & _). exists st1, w1, [].
      split_and!; [done|done|]. cbn. unfold MAX_CHUNKS_PER_QUERY. lia.
    - exists st, w, q. pose proof (wt_max _ _ _ _ Hwt). split_and!; [done|done|lia]. }
  rewrite (bind_ok _ _ _ _ _ E1). cbv zeta. rewrite max_chunk.
  rewrite off_min, off_add, off_sub by lia.
  change (mkRequest path (BLCKSZ * Z.of_nat i) (BLCKSZ * Z.of_nat (n `min` 128)) true) with (req (i, n `min` 128)%nat).
  pose proof (append_ok q1 E st1 w1 (i, n `min` 128)%nat Hwt1 Hlt) as Hwt2.
  destruct (IH (n - n `min` 128)%nat (i + n `min` 128)%nat _ _ _ w1 (Hwt2 ltac:(unfold req_ok; cbn; lia))) as (st3 & w3 & q3 & E3 & Hwt3 & Ht3);
    [lia|lia|].
  exists st3, w3, q3. split; [exact E3|]. split.
  - cbn [fst snd] in Hwt3. rewrite <-foldl_app, <-seq_app in Hwt3. by replace (n `min` 128 + (n - n `min` 128))%nat with n in Hwt3 by lia.
  - intros _. apply Ht3. right. left. by destruct q1.
Qed.

(** A range is merged with the last request as far as that may grow. *)
Lemma merge_ok q E st w i n :
  waiting q E st w → (0 < n)%nat → (i + n ≤ S)%nat →
  ∃ m q' st', merge_request st path (BLCKSZ * Z.of_nat i) (BLCKSZ * Z.of_nat n) = (st', BLCKSZ * Z.of_nat m) ∧
    (m ≤ n)%nat ∧ waiting q' (foldl put E (seq i m)) st' w ∧ ((0 < m)%nat ∨ touched q st → touched q' st').
Proof.
  intros Hwt Hn HS. assert (0 < BLCKSZ) as Hpos by done.
  unfold merge_request. rewrite (wt_num _ _ _ _ Hwt). destruct q as [|r q _] using rev_ind.
  { exists 0%nat, [], st. split; [done|]. split; [lia|]. split; [done|]. intros [?|?]; [lia|done]. }
  destruct (wt_queue _ _ _ _ Hwt) as [rest Hqueue]. pose proof (wt_ok _ _ _ _ Hwt) as Hok.
  apply Forall_app in Hok as [_ Hr]. apply Forall_cons in Hr as [[Hr HrS] _].
  assert (length (q ++ [r]) = Datatypes.S (length q)) as Hl by (rewrite length_app; cbn; lia).
  rewrite Hl. assert (request_queue st !! length q = Some (req r)) as ->.
  { rewrite Hqueue. by apply request_lookup. }
  cbn [req rq_path rq_offset rq_length rq_encrypt].
  rewrite bool_decide_eq_true_2, andb_true_r by done. rewrite max_chunk. cbv zeta.
  destruct (Z.eqb_spec (BLCKSZ * Z.of_nat r.1 + BLCKSZ * Z.of_nat r.2) (BLCKSZ * Z.of_nat i)) as [Hi|_],
           (Z.ltb_spec (BLCKSZ * Z.of_nat r.2) (BLCKSZ * Z.of_nat 128)) as [H128|_]; cbn [andb].
  2-4: exists 0%nat, (q ++ [r]), st; split; [done|]; split; [lia|]; split; [done|]; intros [?|?]; [lia|done].
  assert (i = r.1 + r.2)%nat as -> by nia. set (m := (n `min` (128 - r.2))%nat).
  rewrite off_sub, off_min by lia. fold m. rewrite off_add.
  pose proof (extend_ok q r m E st w Hwt ltac:(unfold m; nia) ltac:(unfold m; lia)) as He. rewrite Hl in He.
  eexists m, _, _. split; [reflexivity|]. split; [unfold m; lia|]. split; [exact He|]. intros _. left. by destruct q.
Qed.

Lemma enqueue_ok q E st w i n :
  waiting q E st w → (0 < n)%nat → (i + n ≤ S)%nat →
  ∃ st' w' q', libpq_queue_fetch_range st path (BLCKSZ * Z.of_nat i) (BLCKSZ * Z.of_nat n) w = Ok st' w' ∧
    waiting q' (foldl put E (seq i n)) st' w' ∧ touched q' st'.
Proof.
  intros Hwt Hn HS. assert (0 < BLCKSZ) as Hpos by done. unfold libpq_queue_fetch_range, libpq_queue_process_fetch_range.
  destruct (merge_ok q E st w i n Hwt Hn HS) as (m & q1 & st1 & -> & Hm & Hwt1 & Ht1).
  rewrite off_add, off_sub by lia.
  destruct (queue_pieces_ok (Z.to_nat (BLCKSZ * Z.of_nat n)) (n - m) (i + m) q1 _ st1 w Hwt1) as (st2 & w2 & q2 & E2 & Hwt2 & Ht2).
  { lia. } { rewrite blksz_mul. pose proof blksz_Z. nia. }
  exists st2, w2, q2. split; [exact E2|]. split.
  - rewrite <-foldl_app, <-seq_app in Hwt2. by replace (m + (n - m))%nat with n in Hwt2 by lia.
  - apply Ht2. destruct (decide (m = n)); [right; apply Ht1; left; lia|left; lia].
Qed.

Lemma libpq_fetch_pages_ok blks : ∀ q E st w,
  waiting q E st w → Forall (λ b, 0 <= b < RELSEG_SIZE ∧ (Z.to_nat b < S)%nat) blks →
  ∃ st' w' q', fetch_pages (SRC := libpq_source) st path blks w = Ok st' w' ∧
    waiting q' (foldl put E (Z.to_nat <$> blks)) st' w' ∧ (blks = [] ∧ q' = q ∧ st' = st ∧ w' = w ∨ touched q' st').
Proof.
  induction blks as [|b blks IH]; intros q E st w Hwt Hb; cbn [fetch_pages].
  { exists st, w, q. split; [done|]. split; [done|]. by left. }
  apply Forall_cons in Hb as [[Hb HS] Hbs].
  replace (u32 (b * BLCKSZ)) with (BLCKSZ * Z.of_nat (Z.to_nat b)) by (by apply page_offset).
  destruct (enqueue_ok q E st w (Z.to_nat b) 1 Hwt) as (st1 & w1 & q1 & E1 & Hwt1 & Ht1); [lia|lia|].
  change (BLCKSZ * Z.of_nat 1) with BLCKSZ in E1.
  assert (queue_fetch_range (RewindSource := libpq_source) st path (BLCKSZ * Z.of_nat (Z.to_nat b)) BLCKSZ w = Ok st1 w1) as E1' by exact E1.
  rewrite (bind_ok _ _ _ _ _ E1'). destruct (IH q1 _ st1 w1 Hwt1 Hbs) as (st2 & w2 & q2 & E2 & Hwt2 & Ht2).
  exists st2, w2, q2. split; [exact E2|]. split; [exact Hwt2|]. right. by destruct Ht2 as [(_ & -> & -> & _)|].
Qed.

(** ** Executing the plan *)

Lemma blocks_below q : Forall req_ok q → Forall (λ j, j < S)%nat (blocks q).
Proof.
  unfold blocks. induction 1 as [|r q [_ Hr] _ IH]; [constructor|]. cbn [mbind list_bind]. apply Forall_app. split; [|done].
  apply Forall_seq. lia.
Qed.

Lemma puts_length w l : ∀ cur,
  ctxs_ok w → Forall (λ j, j < S)%nat l → (length cur ≤ length (foldl put cur l) ≤ length cur `max` (blksz * S))%nat.
Proof.
  intros cur Hw Hl. revert cur. induction Hl as [|j l Hj _ IH]; intros cur; cbn [foldl]; [lia|].
  destruct (put_block_length seg (Some (kS, kT)) src cur j w (conj WS WT) Hw) as [_ Hpl]; [rewrite Hsl; nia|].
  specialize (IH (put cur j)). nia.
Qed.

(** What is cut off is not what is written. *)
Lemma take_puts w l : ∀ cur,
  ctxs_ok w → Forall (λ j, j < S)%nat l → (blksz * S ≤ length cur)%nat →
  take (blksz * S) (foldl put cur l) = foldl put (take (blksz * S) cur) l.
Proof.
  intros cur Hw Hl. revert cur. induction Hl as [|j l Hj _ IH]; intros cur Hc; cbn [foldl]; [done|].
  destruct (put_block_length seg (Some (kS, kT)) src cur j w (conj WS WT) Hw) as [Hnl Hpl]; [rewrite Hsl; nia|].
  rewrite IH by lia. f_equal. unfold put_with. apply overwrite_take; [rewrite Hnl; nia|done].
Qed.

Lemma waiting_same q E st w st' w' :
  waiting q E st w → same_but nothing nothing st w st' w' → fresh st' path ∨ loaded st' path rl seg kS kT → waiting q E st' w'.
Proof.
  intros [Hrk Htde Hsegs Hcur Hsrc (cur & Htgt & HE) (rest & Hqueue) Hnum Hmax Hok] Sb Hcur'. split; try done.
  - exact (rel_keys_same _ _ _ _ _ _ _ _ _ _ Hrk Sb).
  - by rewrite (sb_tde _ _ _ _ _ _ Sb).
  - by rewrite (sb_segs _ _ _ _ _ _ Sb).
  - by rewrite (sb_files _ _ _ _ _ _ Sb _ Hks ltac:(intros [])).
  - exists cur. split; [|done]. by rewrite (sb_files _ _ _ _ _ _ Sb _ (rf_key _ _ _ _ _ _ _ Hf) ltac:(intros [])).
  - exists rest. by rewrite (sb_queue _ _ _ _ _ _ Sb).
  - by rewrite (sb_count _ _ _ _ _ _ Sb).
Qed.

Lemma truncate_waiting q E st w :
  waiting q E st w → (blksz * S < length E)%nat →
  ∃ w', truncate_target_file path (Z.of_nat (length src)) w = Ok tt w' ∧ waiting q (take (blksz * S) E) st w'.
Proof.
  intros [Hrk Htde Hsegs Hcur Hsrc (cur & Htgt & HE) (rest & Hqueue) Hnum Hmax Hok] Hlen. pose proof (blocks_below q Hok) as Hb.
  pose proof (rk_ctxs _ _ _ _ _ _ _ Hrk) as Hw. pose proof (puts_length w (blocks q) cur Hw Hb) as Hpl. rewrite HE in Hlen.
  eexists. split; [apply (truncate_ok path (length src) cur); [apply Hf|apply Hf|done|lia]|].
  pose proof (write_same st w (target_path path) (take (length src) cur) (rf_key _ _ _ _ _ _ _ Hf)) as Sb. split; try done.
  - exact (rel_keys_same _ _ _ _ _ _ _ _ _ _ Hrk Sb).
  - rewrite (sb_files _ _ _ _ _ _ Sb); [done|done|]. intros H. by apply (rf_ne _ _ _ _ _ _ _ Hf).
  - exists (take (length src) cur). split; [cbn; by rewrite lookup_insert_eq|]. rewrite HE, Hsl. apply (take_puts w); [done|done|lia].
  - by exists rest.
Qed.

Lemma ensure_waiting q E st w blks :
  waiting q E st w → Forall (Z.le 0) blks → blks = [] ∨ touched q st →
  ∃ st' w', (if match foldl datapagemap_add [] blks with [] => true | _ => false end
             then ensure_tde_keys st path else mret st) w = Ok st' w' ∧ waiting q E st' w' ∧ touched q st'.
Proof.
  intros Hwt Hb0 Ht. destruct blks as [|b blks].
  - destruct (ensure_loaded st path rl seg pkS pkT mS mT kS kT w) as (st' & w' & E' & Sb & _ & L'); [apply Hwt|apply Hwt|done|apply Hwt|].
    exists st', w'. split; [exact E'|]. split; [apply (waiting_same q E st w); [done|done|by right]|by right].
  - pose proof (pages_nonempty b blks Hb0) as Hne. exists st, w. split; [by destruct (foldl _ _ _)|]. split; [done|]. by destruct Ht.
Qed.

Lemma libpq_entry_ok e tgt T blks st w :
  waiting [] tgt st w → relation_entry e path src tgt S T blks →
  ∃ st' w' q E, rewind_entry (SRC := libpq_source) st e w = Ok st' w' ∧ waiting q E st' w' ∧ touched q st' ∧
    rewound_with seg (Some (kS, kT)) src tgt S T blks E.
Proof.
  intros Hwt He. pose proof (rk_ctxs _ _ _ _ _ _ _ (wt_keys _ _ _ _ Hwt)) as Hw.
  destruct (pages_put e path seg (Some (kS, kT)) src tgt S T blks w (conj WS WT) Hw He) as (Hl & Hnil & Hput).
  set (l := datapagemap_iterate _) in *. set (tgt1 := foldl put tgt (Z.to_nat <$> l)) in *.
  destruct (libpq_fetch_pages_ok l [] tgt st w Hwt Hl) as (st1 & w1 & q1 & E1 & Hwt1 & Ht1). fold tgt1 in Hwt1.
  destruct He as [Hp Hss Hst Hsl' Htl Hmax Hpg Hbl Ha]. unfold rewind_entry. rewrite Hp, Hpg. fold l. rewrite (bind_ok _ _ _ _ _ E1).
  assert (Forall (Z.le 0) blks) as Hb0 by (eapply Forall_impl; [exact Hbl|]; by intros b [? _]).
  assert (blks = [] ∨ touched q1 st1) as Ht by (destruct Ht1 as [(? & _)|]; [left; by apply Hnil|by right]).
  pose proof (proj1 Hput) as Hl1. unfold perform_action. rewrite Hp, Hpg, Ha, Hss, Hst. destruct (decide (T < S)%nat) as [Hlt|Hge].
  - destruct (tail_size src tgt S T) as [-> ->]; try done; [lia|].
    destruct (enqueue_ok q1 tgt1 st1 w1 T (S - T) Hwt1) as (st2 & w2 & q2 & E2 & Hwt2 & Ht2); [lia|lia|].
    eexists st2, w2, q2, _. split; [exact E2|]. split; [exact Hwt2|]. split; [done|].
    apply (rewound_appended _ _ _ _ _ _ _ _ w); try done. lia.
  - destruct (decide (S < T)%nat) as [Hlt|Hge2].
    + destruct (truncate_waiting q1 tgt1 st1 w1 Hwt1) as (w2 & E2 & Hwt2); [pose proof blksz_Z; assert (0 < BLCKSZ) by done; nia|].
      rewrite (bind_ok _ _ _ _ _ E2). destruct (ensure_waiting q1 _ st1 w2 blks Hwt2 Hb0 Ht) as (st3 & w3 & E3 & Hwt3 & Ht3).
      eexists st3, w3, q1, _. split; [exact E3|]. split; [exact Hwt3|]. split; [done|]. apply rewound_prefix; [lia|done|done].
    + destruct (ensure_waiting q1 _ st1 w1 blks Hwt1 Hb0 Ht) as (st3 & w3 & E3 & Hwt3 & Ht3).
      exists st3, w3, q1, tgt1. split; [exact E3|]. split; [exact Hwt3|]. split; [done|].
      assert (S = T) as HST by lia. rewrite <-(take_ge tgt1 (blksz * S)) by (rewrite HST; lia). apply rewound_prefix; [lia|done|done].
Qed.

End libpq_thms.

Section libpq_run.
Context {SSL : OpenSSL} {Spec : OpenSSLSpec SSL} {K : Kernel} {NF : NoFaults K} {RW : RandWorks SSL}.
Context {PKS : PrincipalKeys} {PKSpec : PrincipalKeysSpec PKS} {RP : RelPath} {RE : RewindEnv}.
Context {SS : SourceServer} {TS : TruthfulServer SS}.

Lemma bind_same {A B} (m m' : M A) (f : A → M B) w w' : m w = m' w' → (m ≫= f) w = (m' ≫= f) w'.
Proof. intros H. unfold mbind, M_bind. by rewrite H. Qed.

Lemma libpq_rewind_ok e path rl seg pkS pkT mS mT kS kT src tgt S T blks st w :
  rel_keys st w rl pkS pkT mS mT → rel_files path rl seg mS mT kS kT → rewind_input st w path rl src tgt →
  InternalKey_wf kS → InternalKey_wf kT → relation_entry e path src tgt S T blks → num_requests st = 0%nat →
  ∃ st' w' new, perform_rewind (SRC := libpq_source) st [e] w = Ok st' w' ∧
    dir_rep (get_dir st' TargetTde w') (dbOid rl) pkS (<[rel_loc rl := lkey kT]> mS) ∧
    w_fs w' !! target_path path = Some new ∧ rewound_with seg (Some (kS, kT)) src tgt S T blks new.
Proof.
  intros Hrk Hf Hi WS WT He Hnum. pose proof (re_slen _ _ _ _ _ _ _ He) as Hsl.
  assert (waiting path rl seg pkS pkT mS mT kS kT src S [] tgt st w) as Hwt.
  { split; try done; try apply Hi; [left; apply Hi|by exists tgt; split; [apply Hi|]|by eexists|cbn; unfold MAX_CHUNKS_PER_QUERY; lia]. }
  destruct (libpq_entry_ok path rl seg pkS pkT mS mT kS kT src S Hf WS WT (ri_src_key _ _ _ _ _ _ Hi) Hsl e tgt T blks st w Hwt He)
    as (st1 & w1 & q & new & E1 & Hwt1 & Ht1 & Hnew).
  destruct (process_queue_ok path rl seg pkS pkT mS mT kS kT src S Hf (ri_src_key _ _ _ _ _ _ Hi) Hsl q new st1 w1 Hwt1) as (st2 & w2 & E2 & Hwt2 & L2).
  specialize (L2 Ht1). destruct Hwt2 as [Hrk2 Htde2 Hsegs2 _ _ (cur & Htgt2 & ->) _ _ _ _]. cbn [blocks mbind list_bind foldl] in *.
  unfold perform_rewind. cbn [rewind_entries].
  assert ((st ← rewind_entry (SRC := libpq_source) st e; mret st) w = Ok st1 w1) as E1' by (by rewrite (bind_ok _ _ _ _ _ E1)).
  rewrite (bind_ok _ _ _ _ _ E1').
  assert (finish_fetch (RewindSource := libpq_source) st1 w1 = finish_fetch (RewindSource := local_source) st2 w2) as E3.
  { change (libpq_finish_fetch st1 w1 = local_finish_fetch st2 w2). unfold libpq_finish_fetch. by rewrite (bind_ok _ _ _ _ _ E2). }
  rewrite (bind_same _ _ _ _ _ E3).
  destruct (finish_ok st2 path rl seg pkS pkT mS mT kS kT src tgt st w w2) as (st3 & w3 & E4 & R4 & F4 & _); try done.
  exists st3, w3, cur. split; [exact E4|]. split; [exact R4|]. by rewrite F4.
Qed.

(** A rewind from a running server whose plan is one file of an encrypted relation
    does what a rewind from local files does: although the changed blocks and the
    missing ones are only queued, neighbours merged and long ranges cut into chunks
    of 1 MB, up to a thousand of which are fetched at once, and although the file is
    truncated before any of them is written, both runs succeed, leave the same bytes
    in the file of the target and the same keys in its key file; each block of the
    file reads, under these keys, as the source's does if it was changed or missing
    and as before otherwise (unless its ciphertext starts with the zeros that mark
    blocks as not encrypted). The server answers each query with what its files
    hold. With more files in the plan the keys may be looked up for another relation
    before the queued blocks arrive, and the two runs can differ. *)
Theorem libpq_rewound_relation e path rl seg pkS pkT mS mT kS kT src tgt S T blks st w :
  rel_keys st w rl pkS pkT mS mT → rel_files path rl seg mS mT kS kT → rewind_input st w path rl src tgt →
  InternalKey_wf kS → InternalKey_wf kT → relation_entry e path src tgt S T blks → num_requests st = 0%nat →
  ∃ st1 w1 st2 w2 new,
    perform_rewind (SRC := local_source) st [e] w = Ok st1 w1 ∧ perform_rewind (SRC := libpq_source) st [e] w = Ok st2 w2 ∧
    w_fs w1 !! target_path path = Some new ∧ w_fs w2 !! target_path path = Some new ∧
    dir_rep (get_dir st1 TargetTde w1) (dbOid rl) pkS (<[rel_loc rl := lkey kT]> mS) ∧
    dir_rep (get_dir st2 TargetTde w2) (dbOid rl) pkS (<[rel_loc rl := lkey kT]> mS) ∧
    length new = length src ∧
    ∀ j, (j < S)%nat → all_zero32 (block j new) = false →
      let bn := block_no seg (BLCKSZ * Z.of_nat j) in
      open_page kT MAIN_FORKNUM bn (block j new) =
        if decide (Z.of_nat j ∈ blks ∨ (T ≤ j)%nat)
        then open_page kS MAIN_FORKNUM bn (block j src)
        else open_page kT MAIN_FORKNUM bn (block j tgt).
Proof.
  intros Hrk Hf Hi WS WT He Hnum. pose proof (re_slen _ _ _ _ _ _ _ He) as Hsl.
  destruct (perform_rewind_ok e path rl seg pkS pkT mS mT kS kT src tgt S T blks st w) as (st1 & w1 & new & E1 & R1 & F1 & Hnew); try done.
  destruct (libpq_rewind_ok e path rl seg pkS pkT mS mT kS kT src tgt S T blks st w) as (st2 & w2 & new' & E2 & R2 & F2 & Hnew'); try done.
  pose proof (rewound_unique _ _ _ _ _ _ _ _ _ Hnew' Hnew) as ->. exists st1, w1, st2, w2, new.
  split_and!; [done..|by rewrite (proj1 Hnew)|]. apply (rewound_reads _ _ _ _ _ _ _ _ _ w); try done. apply Hrk.
Qed.

End libpq_run.

(** ** Example *)

#[local] Existing Instance example_env.

#[local] Instance example_server : SourceServer := {|
  fetch_chunks fs params := Some ((chunk_row fs <$> params) ++ [TuplesOk]);
  pg_read_binary_file dir p := dir_files dir !! p;
  pg_ls_dir dir := Some []
|}.

Lemma example_server_truthful : TruthfulServer example_server.
Proof. by split. Qed.

Lemma libpq_rewound_relation_witness : ∃ st w st1 w1 st2 w2 new,
  perform_rewind (SRC := local_source) st [example_entry] w = Ok st1 w1 ∧
  perform_rewind (SRC := libpq_source) st [example_entry] w = Ok st2 w2 ∧
  w_fs w1 !! target_path (seg_path 0) = Some new ∧ w_fs w2 !! target_path (seg_path 0) = Some new ∧
  length new = length source_seg.
Proof.
  destruct rewind_example as (st & w & mS & mT & Hrk & Hnum & Hseg). destruct (Hseg 0%nat ltac:(lia)) as [Hf Hi].
  destruct (libpq_rewound_relation (TS := example_server_truthful) example_entry (seg_path 0) rel1 0 pk5 pk5 mS mT other_key rel_key_example
              source_seg target_seg 2 1 [0] st w) as (st1 & w1 & st2 & w2 & new & E1 & E2 & F1 & F2 & _ & _ & L & _); try done.
  - split; try done; [apply length_replicate|apply length_replicate|]. repeat constructor; lia.
  - by exists st, w, st1, w1, st2, w2, new.
Defined.
