(* ===== verification/Checksums.v ===== *)
(** fetools/pg18/pg_checksums/pg_checksums.c: verifies the checksums of all pages of
    a cluster that is shut down, or computes them; pages of encrypted relations are
    decrypted first and encrypted again when they were changed.

    The data directory is a tree of directory entries beside the files of the model
    ([lstat] of a file looks at the latter); what [readdir] gives twice for one name
    is not excluded. The descriptor's position is an argument. Display of progress
    and messages are left out. *)
From S2P Require Import Prelude Types Environ Ciphers EncTde KeyFile KeyMap ArchiveTools ChangeProvider FileMap.

Inductive PgChecksumMode := PG_MODE_CHECK | PG_MODE_DISABLE | PG_MODE_ENABLE.

#[export] Instance PgChecksumMode_eq_dec : EqDecision PgChecksumMode.
Proof. solve_decision. Defined.

(** The counters of the program. *)
Record ScanCounters := mkCounters {
  files_scanned : Z;
  files_written : Z;
  blocks_scanned : Z;
  blocks_written : Z;
  badblocks : Z;
}.

Definition counters0 : ScanCounters := mkCounters 0 0 0 0 0.

Definition count_file (c : ScanCounters) : ScanCounters :=
  mkCounters (files_scanned c + 1) (files_written c) (blocks_scanned c) (blocks_written c) (badblocks c).
Definition count_block (c : ScanCounters) : ScanCounters :=
  mkCounters (files_scanned c) (files_written c) (blocks_scanned c + 1) (blocks_written c) (badblocks c).
Definition count_bad (c : ScanCounters) : ScanCounters :=
  mkCounters (files_scanned c) (files_written c) (blocks_scanned c) (blocks_written c) (badblocks c + 1).
Definition count_written (n : Z) (c : ScanCounters) : ScanCounters :=
  if 0 <? n then mkCounters (files_scanned c) (files_written c + 1) (blocks_scanned c) (blocks_written c + n) (badblocks c) else c.

(** Pages and fork names of PostgreSQL: [PageIsNew], the field [pd_checksum], the
    checksum of a page at a block number. *)
Class PageFormat := {
  PageIsNew : bytes → bool;
  pd_checksum : bytes → Z;
  set_pd_checksum : bytes → Z → bytes;
  pg_checksum_page : bytes → Z → Z;
  forkname_to_number : bytes → Z;
}.

Definition InvalidForkNumber : Z := -1.

(** ** Names of files *)

(** [skip]: the name and whether it is a prefix. *)
Definition skip : list (bytes * bool) :=
  [(bytes_of "pg_control", false); (bytes_of "pg_filenode.map", false); (bytes_of "pg_internal.init", true);
   (bytes_of "PG_VERSION", false)].

Definition skipfile (fn : bytes) : bool :=
  existsb (λ '(name, match_prefix), if match_prefix : bool then prefix_of name fn else bool_decide (name = fn)) skip.

(** [strchr]: what precedes the character and what follows it. *)
Fixpoint split_at (c : byte) (s : bytes) : bytes * option bytes :=
  match s with
  | [] => ([], None)
  | b :: s => if bool_decide (b = c) then ([], Some s) else let '(before, after) := split_at c s in (b :: before, after)
  end.

(** [atooid] *)
Definition atooid (s : bytes) : Z := default 0 (fst <$> scan_u s).

(** [atoi]: [strtol], then cut off to 32 bits. *)
Definition s32 (z : Z) : Z := (z + 2 ^ 31) mod 2 ^ 32 - 2 ^ 31.
Definition atoi (s : bytes) : Z :=
  let s := skip_white s in
  let '(neg, s) := match s with
                   | x2d :: s => (true, s)
                   | x2b :: s => (false, s)
                   | _ => (false, s)
                   end in
  let v := if neg : bool then - fst (read_digits 0 s) else fst (read_digits 0 s) in
  s32 (Z.max (- 2 ^ 63) (Z.min v (2 ^ 63 - 1))).

(** What is done with a regular file. *)
Inductive FilePlan := SkipFile | BadSegment | ScanFile (relNumber forknum segmentno : Z).

Section checksums.
Context {SSL : OpenSSL} {K : Kernel} {PKS : PrincipalKeys} {RP : RelPath} {PF : PageFormat}.

Definition file_plan (only_filenode : option bytes) (name : bytes) : FilePlan :=
  if skipfile name then SkipFile
  else
    let '(fnonly, segmentpath) := split_at x2e name in
    let segmentno := match segmentpath with Some s => atoi s | None => 0 end in
    if bool_decide (is_Some segmentpath) && (segmentno =? 0) then BadSegment
    else
      let '(fnonly, forkpath) := split_at x5f fnonly in
      if match only_filenode with Some f => negb (bool_decide (f = fnonly)) | None => false end then SkipFile
      else
        let forknum := match forkpath with Some f => forkname_to_number f | None => MAIN_FORKNUM end in
        ScanFile (atooid fnonly) forknum segmentno.

(** Names that are passed over in each directory. *)
Definition skip_entry (name : bytes) : bool :=
  bool_decide (name = bytes_of ".") || bool_decide (name = bytes_of "..") ||
  prefix_of PG_TEMP_FILE_PREFIX name || prefix_of PG_TEMP_FILES_DIR name || bool_decide (name = bytes_of ".DS_Store").

(** ** One file *)

Definition checksum_blkno (blockno segmentno : Z) : Z := u32 (blockno + segmentno * RELSEG_SIZE).

Fixpoint scan_blocks (fuel : nat) (mode : PgChecksumMode) (f : string) (key : option InternalKey) (forknum segmentno : Z)
    (blockno blocks_written_in_file : Z) (c : ScanCounters) : M (Z * ScanCounters) :=
  match fuel with
  | O => out_of_fuel
  | S fuel =>
      r ← pg_pread f BLCKSZ (blockno * BLCKSZ);
      match r with
      | None => ereport FATAL "could not read block"
      | Some [] => mret (blocks_written_in_file, c)
      | Some buf =>
          if negb (Z.of_nat (length buf) =? BLCKSZ) then ereport FATAL "could not read block"
          else
            let c := count_block c in
            let blkno := checksum_blkno blockno segmentno in
            buf ← match key with
                  | Some key => tde_decrypt_smgr_block key forknum blkno buf buf
                  | None => mret buf
                  end;
            if PageIsNew buf then scan_blocks fuel mode f key forknum segmentno (blockno + 1) blocks_written_in_file c
            else
              let csum := pg_checksum_page buf blkno in
              if bool_decide (mode = PG_MODE_CHECK) then
                scan_blocks fuel mode f key forknum segmentno (blockno + 1) blocks_written_in_file
                  (if csum =? pd_checksum buf then c else count_bad c)
              else if pd_checksum buf =? csum then
                scan_blocks fuel mode f key forknum segmentno (blockno + 1) blocks_written_in_file c
              else
                let buf := set_pd_checksum buf csum in
                buf ← match key with
                      | Some key => tde_encrypt_smgr_block key forknum blkno buf
                      | None => mret buf
                      end;
                w ← pg_pwrite f buf (blockno * BLCKSZ);
                if negb (w =? BLCKSZ) then ereport FATAL "could not write block"
                else scan_blocks fuel mode f key forknum segmentno (blockno + 1) (blocks_written_in_file + 1) c
      end
  end.

Definition scan_file (mode : PgChecksumMode) (fn : string) (locator : RelFileLocator) (forknum segmentno : Z)
    (c : ScanCounters) : M ScanCounters :=
  f ← open_file fn false;
  let c := count_file c in
  key ← (if forknum =? InvalidForkNumber then mret None else open_pg_tde_get_smgr_key locator);
  fuel ← file_fuel f;
  '(blocks_written_in_file, c) ← scan_blocks fuel mode f key forknum segmentno 0 0 c;
  mret (count_written blocks_written_in_file c).

(** ** Directories *)

Inductive DirEntry :=
| DirFile (name : string)
| DirDir (name : string) (entries : list DirEntry)
| DirOther (name : string).

Definition entry_name (e : DirEntry) : string :=
  match e with DirFile name | DirDir name _ | DirOther name => name end.

Definition join (a b : string) : string := (a +:+ "/" +:+ b)%string.

Definition PG_TBLSPC_DIR : bytes := bytes_of "pg_tblspc".

(** The size of the files and the counters. *)
Definition scan_regular (mode : PgChecksumMode) (only_filenode : option bytes) (path subdir : string) (tablespace : Z)
    (sizeonly : bool) (name : string) (c : ScanCounters) : M (Z * ScanCounters) :=
  let fn := join path name in
  fs ← gets w_fs;
  match fs !! fn with
  | None => ereport FATAL "could not stat file"
  | Some data =>
      match file_plan only_filenode (bytes_of name) with
      | SkipFile => mret (0, c)
      | BadSegment => ereport FATAL "invalid segment number"
      | ScanFile relNumber forknum segmentno =>
          let st_size := Z.of_nat (length data) in
          if sizeonly then mret (st_size, c)
          else
            c ← scan_file mode fn (mkRelFileLocator tablespace (atooid (bytes_of subdir)) relNumber) forknum segmentno c;
            mret (st_size, c)
      end
  end.

Section all.
Context (scan : DirEntry → ScanCounters → M (Z * ScanCounters)).

Fixpoint scan_all (entries : list DirEntry) (dirsize : Z) (c : ScanCounters) : M (Z * ScanCounters) :=
  match entries with
  | [] => mret (dirsize, c)
  | e :: entries =>
      '(n, c) ← scan e c;
      scan_all entries (dirsize + n) c
  end.
End all.

(** One entry of the directory [basedir/subdir]. *)
Fixpoint scan_entry (mode : PgChecksumMode) (only_filenode : option bytes) (sizeonly : bool) (basedir subdir : string)
    (tablespace : Z) (e : DirEntry) (c : ScanCounters) {struct e} : M (Z * ScanCounters) :=
  let path := join basedir subdir in
  if skip_entry (bytes_of (entry_name e)) then mret (0, c)
  else
    match e with
    | DirFile name => scan_regular mode only_filenode path subdir tablespace sizeonly name c
    | DirDir name entries =>
        if prefix_of PG_TBLSPC_DIR (bytes_of subdir) then
          (fix version (l : list DirEntry) : M (Z * ScanCounters) :=
             match l with
             | [] => ereport FATAL "could not stat file"
             | DirDir d entries :: l =>
                 if bool_decide (bytes_of d = TABLESPACE_VERSION_DIRECTORY) then
                   scan_all (scan_entry mode only_filenode sizeonly (join path name) d (atooid (bytes_of name))) entries 0 c
                 else version l
             | DirFile d :: l | DirOther d :: l =>
                 if bool_decide (bytes_of d = TABLESPACE_VERSION_DIRECTORY) then ereport FATAL "could not open directory"
                 else version l
             end) entries
        else scan_all (scan_entry mode only_filenode sizeonly path name tablespace) entries 0 c
    | DirOther _ => mret (0, c)
    end.

Definition scan_directory (mode : PgChecksumMode) (only_filenode : option bytes) (basedir subdir : string) (tablespace : Z)
    (sizeonly : bool) (entries : list DirEntry) (c : ScanCounters) : M (Z * ScanCounters) :=
  scan_all (scan_entry mode only_filenode sizeonly basedir subdir tablespace) entries 0 c.

(** ** The program *)

Record ControlFileData := mkControlFile {
  crc_ok : bool;
  pg_control_version : Z;
  cf_blcksz : Z;
  cf_state : DBState;
  data_checksum_version : Z;
}.

Definition PG_DATA_CHECKSUM_VERSION : Z := 1.

Definition scan_cluster (mode : PgChecksumMode) (only_filenode : option bytes) (DataDir : string)
    (global base pg_tblspc : list DirEntry) : M ScanCounters :=
  '(_, c) ← scan_directory mode only_filenode DataDir "global" GLOBALTABLESPACE_OID false global counters0;
  '(_, c) ← scan_directory mode only_filenode DataDir "base" DEFAULTTABLESPACE_OID false base c;
  '(_, c) ← scan_directory mode only_filenode DataDir "pg_tblspc" InvalidOid false pg_tblspc c;
  mret c.

(** After the options were read, up to the new contents of the control file; the
    directories are those of the data directory. *)
Definition checksums_main (PG_CONTROL_VERSION : Z) (mode : PgChecksumMode) (only_filenode : option bytes) (DataDir : string)
    (global base pg_tblspc : list DirEntry) (ControlFile : ControlFileData) : M (ScanCounters * ControlFileData) :=
  if negb (bool_decide (mode = PG_MODE_CHECK)) && bool_decide (is_Some only_filenode)
  then ereport FATAL "option -f/--filenode can only be used with --check"
  else if negb (crc_ok ControlFile) then ereport FATAL "pg_control CRC value is incorrect"
  else if negb (pg_control_version ControlFile =? PG_CONTROL_VERSION) then ereport FATAL "cluster is not compatible with this version"
  else if negb (cf_blcksz ControlFile =? BLCKSZ) then ereport FATAL "database cluster is not compatible"
  else match cf_state ControlFile with
  | DB_OTHER_STATE => ereport FATAL "cluster must be shut down"
  | DB_SHUTDOWNED | DB_SHUTDOWNED_IN_RECOVERY =>
      if (data_checksum_version ControlFile =? 0) && bool_decide (mode = PG_MODE_CHECK)
      then ereport FATAL "data checksums are not enabled in cluster"
      else if (data_checksum_version ControlFile =? 0) && bool_decide (mode = PG_MODE_DISABLE)
      then ereport FATAL "data checksums are already disabled in cluster"
      else if (0 <? data_checksum_version ControlFile) && bool_decide (mode = PG_MODE_ENABLE)
      then ereport FATAL "data checksums are already enabled in cluster"
      else
        c ← (if bool_decide (mode = PG_MODE_CHECK) || bool_decide (mode = PG_MODE_ENABLE)
             then scan_cluster mode only_filenode DataDir global base pg_tblspc else mret counters0);
        if bool_decide (mode = PG_MODE_CHECK) then
          if 0 <? badblocks c then ereport FATAL "bad checksums" else mret (c, ControlFile)
        else
          let v := if bool_decide (mode = PG_MODE_ENABLE) then PG_DATA_CHECKSUM_VERSION else 0 in
          mret (c, mkControlFile (crc_ok ControlFile) (pg_control_version ControlFile) (cf_blcksz ControlFile) (cf_state ControlFile) v)
  end.

End checksums.
