(* ===== verification/ChecksumsThms.v ===== *)
(** What pg_checksums does to a cluster with encrypted relations: after checksums
    were enabled, every page reads as before but for its checksum, and the check
    finds no bad block. *)
From S2P Require Import Prelude Types Environ Instances Ciphers EncTde KeyFile KeyMap KeyMapSpec ArchiveTools ChangeProvider.
From S2P Require Import FileMap FileMapThms Rewind RewindThms WalKeysSpec WalKeysThms XLogSmgrSpec SmgrSpec Checksums.

(** What is known of PostgreSQL's pages: the checksum does not depend on the field
    that holds it, and a page whose header is zero is new. *)
Class PageFormatSpec (PF : PageFormat) := {
  checksum_range p bn : 0 <= pg_checksum_page p bn < 2 ^ 16;
  checksum_stored p c : page_ok p → 0 <= c < 2 ^ 16 → pd_checksum (set_pd_checksum p c) = c;
  checksum_ignores_field p c bn : page_ok p → pg_checksum_page (set_pd_checksum p c) bn = pg_checksum_page p bn;
  set_checksum_page p c : page_ok p → page_ok (set_pd_checksum p c);
  set_checksum_new p c : page_ok p → PageIsNew (set_pd_checksum p c) = PageIsNew p;
  zero_header_new p : page_ok p → all_zero32 p = true → PageIsNew p = true;
}.

(** ** Pages *)

Section pages.
Context {SSL : OpenSSL} {Spec : OpenSSLSpec SSL} {PF : PageFormat} {PFS : PageFormatSpec PF}.

Definition read_page (k : option InternalKey) (f bn : Z) (c : bytes) : bytes :=
  match k with Some k => open_page k f bn c | None => c end.
Definition write_page (k : option InternalKey) (f bn : Z) (p : bytes) : bytes :=
  match k with Some k => seal_page k f bn p | None => p end.

Definition good_page (k : option InternalKey) (f bn : Z) (c : bytes) : bool :=
  let p := read_page k f bn c in PageIsNew p || (pg_checksum_page p bn =? pd_checksum p).

(** What enabling makes of a block of a file. *)
Definition enabled_page (k : option InternalKey) (f bn : Z) (c : bytes) : bytes :=
  if good_page k f bn c then c
  else let p := read_page k f bn c in write_page k f bn (set_pd_checksum p (pg_checksum_page p bn)).

Lemma enabled_page_good k f bn c : good_page k f bn c = true → enabled_page k f bn c = c.
Proof. intros H. unfold enabled_page. by rewrite H. Qed.

Definition key_ok (k : option InternalKey) : Prop := ∀ k', k = Some k' → InternalKey_wf k'.

Lemma read_page_ok k f bn c w :
  key_ok k → page_ok c → ctxs_ok w →
  ∃ w', match k with Some k => tde_decrypt_smgr_block k f bn c c | None => mret c end w = Ok (read_page k f bn c) w' ∧
    page_ok (read_page k f bn c) ∧ ctxs_ok w' ∧ ctx_only w w'.
Proof.
  intros Hk Hc Hw. destruct k as [k|]; [by apply open_page_ok, Hw; [apply Hk|]|]. by exists w.
Qed.

Lemma write_page_ok k f bn p w :
  key_ok k → page_ok p → ctxs_ok w →
  ∃ w', match k with Some k => tde_encrypt_smgr_block k f bn p | None => mret p end w = Ok (write_page k f bn p) w' ∧
    page_ok (write_page k f bn p) ∧ ctxs_ok w' ∧ ctx_only w w'.
Proof.
  intros Hk Hc Hw. destruct k as [k|]; [by apply seal_page_ok, Hw; [apply Hk|]|]. by exists w.
Qed.

Lemma read_write k f bn p w :
  key_ok k → page_ok p → ctxs_ok w →
  read_page k f bn (write_page k f bn p) = p ∨ all_zero32 (read_page k f bn (write_page k f bn p)) = true.
Proof.
  intros Hk Hp Hw. destruct k as [k|]; [|by left]. cbn [read_page write_page].
  rewrite (open_seal k f bn p w (Hk k eq_refl) Hp Hw). destruct (all_zero32 (seal_page k f bn p)) eqn:E; [by right|by left].
Qed.

(** The page that is read afterwards: the same, or the same with its checksum, or
    one that is taken for a new page. *)
Lemma enabled_page_ok k f bn c w :
  key_ok k → page_ok c → ctxs_ok w →
  page_ok (enabled_page k f bn c) ∧ good_page k f bn (enabled_page k f bn c) = true ∧
  let p := read_page k f bn c in let p' := read_page k f bn (enabled_page k f bn c) in
  p' = p ∨ p' = set_pd_checksum p (pg_checksum_page p bn) ∨ all_zero32 p' = true.
Proof.
  intros Hk Hc Hw. unfold enabled_page. destruct (good_page k f bn c) eqn:E; [by split_and!; [..|left]|]. cbv zeta.
  destruct (read_page_ok k f bn c w Hk Hc Hw) as (w1 & _ & P1 & _). set (p := read_page k f bn c) in *.
  pose proof (set_checksum_page p (pg_checksum_page p bn) P1) as P2. set (p2 := set_pd_checksum _ _) in *.
  destruct (write_page_ok k f bn p2 w Hk P2 Hw) as (w2 & _ & P3 & _). split; [done|].
  destruct (read_page_ok k f bn _ w Hk P3 Hw) as (w3 & _ & P4 & _).
  destruct (read_write k f bn p2 w Hk P2 Hw) as [R|R].
  - split; [|rewrite R; by right; left]. unfold good_page. rewrite R. unfold p2.
    rewrite checksum_stored, checksum_ignores_field, Z.eqb_refl by (done || apply checksum_range). apply orb_true_r.
  - split; [|by right; right]. unfold good_page. by rewrite (zero_header_new _ P4 R).
Qed.

End pages.

(** ** Blocks of a file *)

Lemma block_write bs i j d :
  length d = blksz → (blksz * (i + 1) ≤ length bs)%nat → (blksz * (j + 1) ≤ length bs)%nat →
  block j (write_at (blksz * i) d bs) = if decide (i = j) then d else block j bs.
Proof.
  intros Hd Hi Hj. unfold block at 1. case_decide as E.
  - subst j. rewrite <-Hd at 2. apply slice_overwrite_same.
  - destruct (decide (j < i)%nat).
    + apply slice_overwrite_before; nia.
    + apply slice_overwrite_after. rewrite Hd. nia.
Qed.

Section scan.
Context {SSL : OpenSSL} {Spec : OpenSSLSpec SSL} {K : Kernel} {NF : NoFaults K} {PF : PageFormat} {PFS : PageFormatSpec PF}.

(** What a scan leaves alone. *)
Record file_changed (fd : string) (w w' : World) : Prop := {
  fc_files p : p ≠ fd → w_fs w' !! p = w_fs w !! p;
  fc_pk : w_pk_cache w' = w_pk_cache w;
  fc_lock : w_enc_lock w' = w_enc_lock w;
  fc_ctxs : ctxs_ok w → ctxs_ok w';
}.

Lemma file_changed_refl fd w : file_changed fd w w.
Proof. by split. Qed.

Lemma file_changed_trans fd w w1 w2 : file_changed fd w w1 → file_changed fd w1 w2 → file_changed fd w w2.
Proof.
  intros [A1 A2 A3 A4] [B1 B2 B3 B4]. split; try congruence; [|by auto]. intros p Hp. by rewrite B1, A1.
Qed.

Lemma ctx_only_fs w w' : ctx_only w w' → w_fs w' = w_fs w.
Proof. unfold ctx_only, without_ctxs. congruence. Qed.

Lemma ctx_only_changed fd w w' : ctx_only w w' → ctxs_ok w' → file_changed fd w w'.
Proof.
  intros H Hw'. unfold ctx_only, without_ctxs in H. injection H as Hfs _ Hlock _ _ Hpk _ _ _ _ _ _ _. split; try done.
  intros p _. by rewrite Hfs.
Qed.

Abbreviation bno i seg := (checksum_blkno (Z.of_nat i) seg).

Lemma block_pos i : 0 <= Z.of_nat i * BLCKSZ.
Proof. assert (0 < BLCKSZ) by done. lia. Qed.

Lemma write_changed fd x w : file_changed fd w (set_fs (<[fd := x]> (w_fs w)) w).
Proof. split; try done. intros p Hp. cbn. by rewrite lookup_insert_ne. Qed.

(** Reading block [i]. *)
Lemma read_block_ok fd i bs w n :
  w_fs w !! fd = Some bs → length bs = (blksz * n)%nat → (i < n)%nat →
  pg_pread fd BLCKSZ (Z.of_nat i * BLCKSZ) w = Ok (Some (block i bs)) w ∧ page_ok (block i bs).
Proof.
  intros Hbs Hl Hi. split.
  - rewrite (pread_ok fd BLCKSZ (Z.of_nat i * BLCKSZ) w bs Hbs (block_pos i)). rewrite (Z.mul_comm (Z.of_nat i)), blksz_mul.
    by rewrite blksz_to_nat.
  - unfold page_ok, block. rewrite slice_length. pose proof blksz_Z. nia.
Qed.

Lemma read_end_ok fd bs w n :
  w_fs w !! fd = Some bs → length bs = (blksz * n)%nat → pg_pread fd BLCKSZ (Z.of_nat n * BLCKSZ) w = Ok (Some []) w.
Proof.
  intros Hbs Hl. rewrite (pread_ok fd BLCKSZ (Z.of_nat n * BLCKSZ) w bs Hbs (block_pos n)). rewrite (Z.mul_comm (Z.of_nat n)), blksz_mul.
  unfold slice. by rewrite drop_ge, take_nil by lia.
Qed.

Lemma page_nonempty (l : bytes) : page_ok l → ∃ b l', l = b :: l'.
Proof. intros H. destruct l as [|b l]; [done|by exists b, l]. Qed.

Lemma page_length (l : bytes) : page_ok l → (Z.of_nat (length l) =? BLCKSZ) = true.
Proof. intros H. apply Z.eqb_eq, H. Qed.

(** Checking counts the bad blocks and changes nothing. *)
Lemma check_loop_ok fd k f seg bs n m : ∀ i fuel wr c w,
  (i + m = n)%nat → w_fs w !! fd = Some bs → length bs = (blksz * n)%nat → key_ok k → ctxs_ok w → (m < fuel)%nat →
  ∃ w' c', scan_blocks fuel PG_MODE_CHECK fd k f seg (Z.of_nat i) wr c w = Ok (wr, c') w' ∧ ctx_only w w' ∧ ctxs_ok w' ∧
    badblocks c' = badblocks c + Z.of_nat (length (filter (λ j, good_page k f (bno j seg) (block j bs) = false) (seq i m))).
Proof.
  induction m as [|m IH]; intros i fuel wr c w Him Hbs Hl Hk Hw Hfuel; (destruct fuel as [|fuel]; [lia|]); cbn [scan_blocks].
  { assert (i = n) as -> by lia. rewrite (bind_ok _ _ _ _ _ (read_end_ok fd bs w n Hbs Hl)). exists w, c.
    split; [reflexivity|]. split; [reflexivity|]. split; [done|]. cbn. lia. }
  destruct (read_block_ok fd i bs w n Hbs Hl ltac:(lia)) as [Er Hp]. rewrite (bind_ok _ _ _ _ _ Er).
  destruct (page_nonempty _ Hp) as (b0 & l0 & Eb). rewrite Eb. cbv iota. rewrite <-Eb. rewrite (page_length _ Hp). cbn [negb].
  destruct (read_page_ok k f (bno i seg) (block i bs) w Hk Hp Hw) as (w1 & E1 & P1 & C1 & O1).
  cbv zeta. rewrite (bind_ok _ _ _ _ _ E1). replace (Z.of_nat i + 1) with (Z.of_nat (S i)) by lia.
  assert (w_fs w1 !! fd = Some bs) as Hbs1 by (by rewrite (ctx_only_fs _ _ O1)).
  cbn [seq]. rewrite filter_cons. set (p := read_page k f (bno i seg) (block i bs)) in *.
  assert (good_page k f (bno i seg) (block i bs) = PageIsNew p || (pg_checksum_page p (bno i seg) =? pd_checksum p)) as Hg by reflexivity.
  destruct (PageIsNew p) eqn:En; cbn [orb] in Hg.
  - destruct (IH (S i) fuel wr (count_block c) w1) as (w' & c' & E & O & C & B); try done; [lia..|].
    exists w', c'. split; [exact E|]. split; [by etrans|]. split; [done|]. rewrite decide_False by congruence. exact B.
  - rewrite (bool_decide_eq_true_2 (PG_MODE_CHECK = PG_MODE_CHECK)) by done.
    destruct (pg_checksum_page p (bno i seg) =? pd_checksum p).
    + destruct (IH (S i) fuel wr (count_block c) w1) as (w' & c' & E & O & C & B); try done; [lia..|].
      exists w', c'. split; [exact E|]. split; [by etrans|]. split; [done|]. rewrite decide_False by congruence. exact B.
    + destruct (IH (S i) fuel wr (count_bad (count_block c)) w1) as (w' & c' & E & O & C & B); try done; [lia..|].
      exists w', c'. split; [exact E|]. split; [by etrans|]. split; [done|]. rewrite decide_True by done. cbn [length].
      rewrite B. cbn [badblocks count_bad count_block]. lia.
Qed.

(** Enabling replaces the blocks one by one. *)
Lemma enable_loop_ok fd k f seg n m : ∀ i fuel wr c bs w,
  (i + m = n)%nat → w_fs w !! fd = Some bs → length bs = (blksz * n)%nat → key_ok k → ctxs_ok w → (m < fuel)%nat →
  ∃ w' wr' c' bs', scan_blocks fuel PG_MODE_ENABLE fd k f seg (Z.of_nat i) wr c w = Ok (wr', c') w' ∧ file_changed fd w w' ∧
    badblocks c' = badblocks c ∧ w_fs w' !! fd = Some bs' ∧ length bs' = length bs ∧
    ∀ j, (j < n)%nat → block j bs' = if decide (i ≤ j)%nat then enabled_page k f (bno j seg) (block j bs) else block j bs.
Proof.
  induction m as [|m IH]; intros i fuel wr c bs w Him Hbs Hl Hk Hw Hfuel; (destruct fuel as [|fuel]; [lia|]); cbn [scan_blocks].
  { assert (i = n) as -> by lia. rewrite (bind_ok _ _ _ _ _ (read_end_ok fd bs w n Hbs Hl)). exists w, wr, c, bs.
    split; [reflexivity|]. split; [apply file_changed_refl|]. split_and!; try done. intros j Hj. by rewrite decide_False by lia. }
  destruct (read_block_ok fd i bs w n Hbs Hl ltac:(lia)) as [Er Hp]. rewrite (bind_ok _ _ _ _ _ Er).
  destruct (page_nonempty _ Hp) as (b0 & l0 & Eb). rewrite Eb. cbv iota. rewrite <-Eb. rewrite (page_length _ Hp). cbn [negb].
  destruct (read_page_ok k f (bno i seg) (block i bs) w Hk Hp Hw) as (w1 & E1 & P1 & C1 & O1).
  cbv zeta. rewrite (bind_ok _ _ _ _ _ E1). replace (Z.of_nat i + 1) with (Z.of_nat (S i)) by lia.
  pose proof (ctx_only_changed fd w w1 O1 C1) as F1.
  assert (w_fs w1 !! fd = Some bs) as Hbs1 by (by rewrite (ctx_only_fs _ _ O1)).
  set (p := read_page k f (bno i seg) (block i bs)) in *.
  assert (good_page k f (bno i seg) (block i bs) = PageIsNew p || (pg_checksum_page p (bno i seg) =? pd_checksum p)) as Hg by reflexivity.
  assert (∀ wr1 w2 bs1, file_changed fd w w2 → w_fs w2 !! fd = Some bs1 → length bs1 = length bs →
    (∀ j, (j < n)%nat → block j bs1 = if decide (i = j) then enabled_page k f (bno j seg) (block j bs) else block j bs) →
    ∃ w' wr' c' bs', scan_blocks fuel PG_MODE_ENABLE fd k f seg (Z.of_nat (S i)) wr1 (count_block c) w2 = Ok (wr', c') w' ∧ file_changed fd w w' ∧
      badblocks c' = badblocks c ∧ w_fs w' !! fd = Some bs' ∧ length bs' = length bs ∧
      ∀ j, (j < n)%nat → block j bs' = if decide (i ≤ j)%nat then enabled_page k f (bno j seg) (block j bs) else block j bs) as Hstep.
  { intros wr1 w2 bs1 F2 Hbs2 Hl2 Hblk.
    destruct (IH (S i) fuel wr1 (count_block c) bs1 w2) as (w' & wr' & c' & bs' & E & F & B & Hb & Hl' & Hj);
      [lia|done|lia|done|by apply (fc_ctxs _ _ _ F2)|lia|].
    exists w', wr', c', bs'. split_and!; try done; [by eapply file_changed_trans|lia|]. intros j Hjn. rewrite Hj, Hblk by done.
    destruct (decide (S i ≤ j)%nat), (decide (i ≤ j)%nat), (decide (i = j)); done || lia. }
  assert (good_page k f (bno i seg) (block i bs) = true → ∀ j, (j < n)%nat →
    block j bs = if decide (i = j) then enabled_page k f (bno j seg) (block j bs) else block j bs) as Hsame.
  { intros Hgood j _. case_decide; [subst j|done]. unfold enabled_page. by rewrite Hgood. }
  destruct (PageIsNew p) eqn:En; [by apply (Hstep wr w1 bs F1 Hbs1 eq_refl), Hsame|].
  rewrite (bool_decide_eq_false_2 (PG_MODE_ENABLE = PG_MODE_CHECK)) by done. rewrite (Z.eqb_sym (pd_checksum p)).
  destruct (pg_checksum_page p (bno i seg) =? pd_checksum p) eqn:Ec; [by apply (Hstep wr w1 bs F1 Hbs1 eq_refl), Hsame|].
  destruct (write_page_ok k f (bno i seg) (set_pd_checksum p (pg_checksum_page p (bno i seg))) w1 Hk (set_checksum_page _ _ P1) C1)
    as (w2 & E2 & P2 & C2 & O2).
  rewrite (bind_ok _ _ _ _ _ E2). set (enc := write_page _ _ _ _) in *.
  assert (enc = enabled_page k f (bno i seg) (block i bs)) as Henc by (unfold enabled_page; by rewrite Hg).
  assert (w_fs w2 !! fd = Some bs) as Hbs2 by (by rewrite (ctx_only_fs _ _ O2)).
  rewrite (bind_ok _ _ _ _ _ (pwrite_ok fd enc (Z.of_nat i * BLCKSZ) w2 bs Hbs2 (block_pos i))).
  rewrite (page_length _ P2). cbn [negb]. rewrite (Z.mul_comm (Z.of_nat i)), blksz_mul.
  assert (length enc = blksz) as Hel by (unfold page_ok in P2; pose proof blksz_Z; lia).
  apply (Hstep (wr + 1) _ (write_at (blksz * i) enc bs)).
  - eapply file_changed_trans; [exact F1|]. eapply file_changed_trans; [exact (ctx_only_changed fd w1 w2 O2 C2)|apply write_changed].
  - cbn. apply lookup_insert_eq.
  - rewrite overwrite_length, Hel. nia.
  - intros j Hj. rewrite block_write by (done || nia). case_decide; [by subst j|done].
Qed.

End scan.

(** ** Files *)

Section files.
Context {SSL : OpenSSL} {Spec : OpenSSLSpec SSL} {K : Kernel} {NF : NoFaults K} {RW : RandWorks SSL}.
Context {PKS : PrincipalKeys} {PKSpec : PrincipalKeysSpec PKS} {PF : PageFormat} {PFS : PageFormatSpec PF}.

(** The key files have this key for the relation. *)
Definition rel_key_known (w : World) (rl : RelFileLocator) (k : option InternalKey) : Prop :=
  w_fs w !! open_pg_tde_set_db_file_path (dbOid rl) = None ∧ k = None ∨
  ∃ pk m, db_rep w (dbOid rl) pk m ∧ relNumber rl ≠ 0 ∧ m !! rel_loc rl = lkey <$> k.

Lemma known_key w rl k :
  rel_key_known w rl k → w_enc_lock w = None →
  ∃ k', open_pg_tde_get_smgr_key rl w = Ok k' w ∧ lkey <$> k' = lkey <$> k ∧ key_ok k'.
Proof.
  intros [[Hf ->]|(pk & m & Hrep & Hn & Hm)] Hlock.
  - exists None. split; [|done]. unfold open_pg_tde_get_smgr_key, access_F_OK. rewrite (bind_ok (gets _) _ w _ w eq_refl), Hf. done.
  - pose proof (get_smgr_key_spec rl pk m w Hrep Hlock Hn) as H. rewrite Hm in H. destruct k as [k|]; cbn [fmap option_fmap option_map] in H.
    + destruct H as (k' & E & L & W). exists (Some k'). split; [done|]. split; [by cbn; rewrite L|]. by intros ? [= <-].
    + by exists None.
Qed.

Lemma known_key_stable fd w w' rl k : is_key_file fd = false → file_changed fd w w' → rel_key_known w rl k → rel_key_known w' rl k.
Proof.
  intros Hfd F H. assert (open_pg_tde_set_db_file_path (dbOid rl) ≠ fd) as Hne by (intros <-; by rewrite db_path_key in Hfd).
  pose proof (fc_files _ _ _ F _ Hne) as Hf. destruct H as [[H ->]|(pk & m & (H1 & H2 & H3) & Hn & Hm)].
  - left. by rewrite Hf.
  - right. exists pk, m. split; [|done]. split; [by rewrite (fc_pk _ _ _ F)|]. split; [done|]. by eapply file_rep_ext.
Qed.

Lemma read_page_lkey k k' f bn c : lkey <$> k = lkey <$> k' → read_page k f bn c = read_page k' f bn c.
Proof.
  destruct k as [k|], k' as [k'|]; intros E; try done. assert (lkey k = lkey k') as H by (cbn in E; congruence).
  cbn [read_page]. unfold open_page. by rewrite (page_fn_lkey k k').
Qed.

Lemma good_page_lkey k k' f bn c : lkey <$> k = lkey <$> k' → good_page k f bn c = good_page k' f bn c.
Proof. intros E. unfold good_page. by rewrite (read_page_lkey k k'). Qed.

Lemma enabled_page_lkey k k' f bn c : lkey <$> k = lkey <$> k' → enabled_page k f bn c = enabled_page k' f bn c.
Proof.
  intros E. unfold enabled_page. rewrite (good_page_lkey k k'), (read_page_lkey k k') by done. destruct (good_page k' f bn c); [done|].
  cbv zeta. destruct k as [k|], k' as [k'|]; try done. assert (lkey k = lkey k') as H by (cbn in E; congruence).
  cbn [write_page]. unfold seal_page. by rewrite (page_fn_lkey k k').
Qed.

(** A file that is scanned. *)
Record Job := mkJob { job_fn : string; job_loc : RelFileLocator; job_fork : Z; job_seg : Z }.

Definition job_key (keyof : RelFileLocator → option InternalKey) (j : Job) : option InternalKey :=
  if job_fork j =? InvalidForkNumber then None else keyof (job_loc j).

Definition run_job (mode : PgChecksumMode) (j : Job) (c : ScanCounters) : M ScanCounters :=
  scan_file mode (job_fn j) (job_loc j) (job_fork j) (job_seg j) c.

Lemma job_key_ok keyof j w :
  rel_key_known w (job_loc j) (keyof (job_loc j)) → w_enc_lock w = None →
  ∃ k', (if job_fork j =? InvalidForkNumber then mret None else open_pg_tde_get_smgr_key (job_loc j)) w = Ok k' w ∧
    lkey <$> k' = lkey <$> job_key keyof j ∧ key_ok k'.
Proof.
  intros Hk Hlock. unfold job_key. destruct (job_fork j =? InvalidForkNumber); [by exists None|]. by apply known_key.
Qed.

Lemma scan_fuel (bs : bytes) n : length bs = (blksz * n)%nat → (n < S (length bs))%nat.
Proof. intros ->. pose proof blksz_Z. assert (0 < BLCKSZ) by done. nia. Qed.

Definition job_good (keyof : RelFileLocator → option InternalKey) (j : Job) (bs : bytes) (n : nat) : Prop :=
  ∀ i, (i < n)%nat → good_page (job_key keyof j) (job_fork j) (checksum_blkno (Z.of_nat i) (job_seg j)) (block i bs) = true.

Lemma enable_file_ok keyof j bs n c w :
  rel_key_known w (job_loc j) (keyof (job_loc j)) → w_enc_lock w = None → ctxs_ok w →
  w_fs w !! job_fn j = Some bs → length bs = (blksz * n)%nat →
  ∃ c' w' bs', run_job PG_MODE_ENABLE j c w = Ok c' w' ∧ file_changed (job_fn j) w w' ∧ badblocks c' = badblocks c ∧
    w_fs w' !! job_fn j = Some bs' ∧ length bs' = length bs ∧
    ∀ i, (i < n)%nat → block i bs' = enabled_page (job_key keyof j) (job_fork j) (checksum_blkno (Z.of_nat i) (job_seg j)) (block i bs).
Proof.
  intros Hk Hlock Hw Hbs Hl. unfold run_job, scan_file.
  assert (open_file (job_fn j) false w = Ok (job_fn j) w) as Eo.
  { unfold open_file. by rewrite (bind_ok _ _ _ _ _ (open_existing _ false w bs Hbs)). }
  rewrite (bind_ok _ _ _ _ _ Eo). cbv zeta. destruct (job_key_ok keyof j w Hk Hlock) as (k' & Ek & Lk & Wk). rewrite (bind_ok _ _ _ _ _ Ek).
  unfold file_fuel. rewrite (bind_ok (gets _) _ w _ w eq_refl), Hbs. change (default [] (Some bs)) with bs.
  destruct (enable_loop_ok (job_fn j) k' (job_fork j) (job_seg j) n n 0 (S (length bs)) 0 (count_file c) bs w)
    as (w1 & wr & c1 & bs1 & E & F & B & Hb & Hl' & Hj); try done; [by apply scan_fuel|].
  change (Z.of_nat 0) with 0 in E. rewrite (bind_ok _ _ _ _ _ E). cbv beta iota. eexists _, w1, bs1. split; [reflexivity|].
  split_and!; try done.
  - unfold count_written. by destruct (0 <? wr).
  - intros i Hi. rewrite Hj, decide_True by (done || lia). by apply enabled_page_lkey.
Qed.

Lemma check_file_ok keyof j bs n c w :
  rel_key_known w (job_loc j) (keyof (job_loc j)) → w_enc_lock w = None → ctxs_ok w →
  w_fs w !! job_fn j = Some bs → length bs = (blksz * n)%nat → job_good keyof j bs n →
  ∃ c' w', run_job PG_MODE_CHECK j c w = Ok c' w' ∧ ctx_only w w' ∧ ctxs_ok w' ∧ badblocks c' = badblocks c.
Proof.
  intros Hk Hlock Hw Hbs Hl Hgood. unfold run_job, scan_file.
  assert (open_file (job_fn j) false w = Ok (job_fn j) w) as Eo.
  { unfold open_file. by rewrite (bind_ok _ _ _ _ _ (open_existing _ false w bs Hbs)). }
  rewrite (bind_ok _ _ _ _ _ Eo). cbv zeta. destruct (job_key_ok keyof j w Hk Hlock) as (k' & Ek & Lk & Wk). rewrite (bind_ok _ _ _ _ _ Ek).
  unfold file_fuel. rewrite (bind_ok (gets _) _ w _ w eq_refl), Hbs. change (default [] (Some bs)) with bs.
  destruct (check_loop_ok (job_fn j) k' (job_fork j) (job_seg j) bs n n 0 (S (length bs)) 0 (count_file c) w)
    as (w1 & c1 & E & O & C & B); try done; [by apply scan_fuel|].
  change (Z.of_nat 0) with 0 in E. rewrite (bind_ok _ _ _ _ _ E). cbv beta iota. eexists _, w1. split; [reflexivity|].
  split_and!; try done. cbn [count_written]. change (badblocks c1 = badblocks c). rewrite B.
  assert (filter (λ i, good_page k' (job_fork j) (checksum_blkno (Z.of_nat i) (job_seg j)) (block i bs) = false) (seq 0 n) = []) as ->.
  { apply elem_of_nil_inv. intros i [Hb Hi%elem_of_seq]%list_elem_of_filter. rewrite (good_page_lkey k' (job_key keyof j)) in Hb by done.
    rewrite Hgood in Hb by lia. done. }
  cbn. lia.
Qed.

End files.

(** ** Directories *)

Section trees.
Context {SSL : OpenSSL} {K : Kernel} {PKS : PrincipalKeys} {RP : RelPath} {PF : PageFormat}.

(** The files that a scan looks at, and which of them it reads; [None] if it stops
    with an error. *)
Definition file_visit (only : option bytes) (path subdir : string) (tablespace : Z) (name : string) : option (list (string * option Job)) :=
  let fn := join path name in
  match file_plan only (bytes_of name) with
  | SkipFile => Some [(fn, None)]
  | BadSegment => None
  | ScanFile rel fork seg => Some [(fn, Some (mkJob fn (mkRelFileLocator tablespace (atooid (bytes_of subdir)) rel) fork seg))]
  end.

Fixpoint entry_visits (only : option bytes) (basedir subdir : string) (tablespace : Z) (e : DirEntry) : option (list (string * option Job)) :=
  let path := join basedir subdir in
  if skip_entry (bytes_of (entry_name e)) then Some []
  else
    match e with
    | DirFile name => file_visit only path subdir tablespace name
    | DirDir name entries =>
        if prefix_of PG_TBLSPC_DIR (bytes_of subdir) then
          (fix version (l : list DirEntry) : option (list (string * option Job)) :=
             match l with
             | [] => None
             | DirDir d entries :: l =>
                 if bool_decide (bytes_of d = TABLESPACE_VERSION_DIRECTORY) then
                   mjoin <$> mapM (entry_visits only (join path name) d (atooid (bytes_of name))) entries
                 else version l
             | DirFile d :: l | DirOther d :: l =>
                 if bool_decide (bytes_of d = TABLESPACE_VERSION_DIRECTORY) then None else version l
             end) entries
        else mjoin <$> mapM (entry_visits only path name tablespace) entries
    | DirOther _ => Some []
    end.

Definition cluster_visits (only : option bytes) (DataDir : string) (global base pg_tblspc : list DirEntry) : option (list (string * option Job)) :=
  v1 ← mapM (entry_visits only DataDir "global" GLOBALTABLESPACE_OID) global;
  v2 ← mapM (entry_visits only DataDir "base" DEFAULTTABLESPACE_OID) base;
  v3 ← mapM (entry_visits only DataDir "pg_tblspc" InvalidOid) pg_tblspc;
  Some (mjoin v1 ++ mjoin v2 ++ mjoin v3).

(** Trees have lists of trees. *)
Section tree_ind.
Context (P : DirEntry → Prop) (Hfile : ∀ n, P (DirFile n)) (Hother : ∀ n, P (DirOther n)) (Hdir : ∀ n es, Forall P es → P (DirDir n es)).

Fixpoint tree_ind (e : DirEntry) : P e :=
  match e with
  | DirFile n => Hfile n
  | DirOther n => Hother n
  | DirDir n es => Hdir n es ((fix all l : Forall P l := match l with [] => Forall_nil_2 P | e :: l => Forall_cons_2 P e l (tree_ind e) (all l) end) es)
  end.
End tree_ind.

(** ** What holds of each file holds of the scan *)

Section scan_inv.
Context (mode : PgChecksumMode) (only : option bytes) (V : string * option Job → Prop) (I : list Job → World → Prop).
Context (Hstat : ∀ done fn o w, I done w → V (fn, o) → is_Some (w_fs w !! fn)).
Context (Hjob : ∀ done fn j c w, I done w → V (fn, Some j) →
  ∃ c' w', run_job mode j c w = Ok c' w' ∧ I (done ++ [j]) w' ∧ badblocks c' = badblocks c).

(** A part of the scan that reads these files. *)
Definition scans (m : ScanCounters → M (Z * ScanCounters)) (vs : list (string * option Job)) : Prop :=
  ∀ done c w, Forall V vs → I done w →
    ∃ n c' w', m c w = Ok (n, c') w' ∧ I (done ++ omap snd vs) w' ∧ badblocks c' = badblocks c.

Lemma scan_all_scans (f : DirEntry → ScanCounters → M (Z * ScanCounters)) g : ∀ es vss n0,
  Forall (λ e, ∀ vs, g e = Some vs → scans (f e) vs) es → mapM g es = Some vss → scans (scan_all f es n0) (mjoin vss).
Proof.
  induction es as [|e es IH]; intros vss n0 Hes Hm%mapM_Some done c w HV HI.
  - apply Forall2_nil_inv_l in Hm as ->. exists n0, c, w. split; [done|]. by rewrite app_nil_r.
  - apply Forall_cons in Hes as [He Hes]. apply Forall2_cons_inv_l in Hm as (vs & vss' & Hg & Hm & ->).
    apply Forall_app in HV as [HV1 HV2]. destruct (He vs Hg done c w HV1 HI) as (n & c1 & w1 & E1 & I1 & B1).
    cbn [scan_all]. rewrite (bind_ok _ _ _ _ _ E1). cbv beta iota.
    destruct (IH vss' (n0 + n) Hes (proj2 (mapM_Some _ _ _) Hm) _ c1 w1 HV2 I1) as (n2 & c2 & w2 & E2 & I2 & B2).
    exists n2, c2, w2. split; [done|]. split; [|congruence].
    rewrite <-app_assoc in I2. replace (omap snd (mjoin (vs :: vss'))) with (omap snd vs ++ omap snd (mjoin vss')); [done|].
    symmetry. apply omap_app.
Qed.

Lemma regular_scans path subdir tablespace name vs :
  file_visit only path subdir tablespace name = Some vs → scans (scan_regular mode only path subdir tablespace false name) vs.
Proof.
  intros Hv done c w HV HI. unfold file_visit in Hv. unfold scan_regular. cbv zeta in *. rewrite (bind_ok (gets _) _ w _ w eq_refl).
  destruct (file_plan only (bytes_of name)) as [| |rel fork seg]; [|done|]; injection Hv as <-; apply Forall_cons in HV as [HV _].
  - destruct (Hstat done _ _ w HI HV) as [bs ->]. exists 0, c, w. split; [done|]. by rewrite app_nil_r.
  - destruct (Hstat done _ _ w HI HV) as [bs ->]. destruct (Hjob done _ _ c w HI HV) as (c' & w' & E & I' & B).
    unfold run_job in E. cbn [job_fn job_loc job_fork job_seg] in E. rewrite (bind_ok _ _ _ _ _ E). by eexists _, c', w'.
Qed.

Definition entry_scans (e : DirEntry) : Prop := ∀ basedir subdir tablespace vs,
  entry_visits only basedir subdir tablespace e = Some vs → scans (scan_entry mode only false basedir subdir tablespace e) vs.

Lemma nothing_scans : scans (λ c, mret (0, c)) [].
Proof. intros done c w _ HI. exists 0, c, w. split; [done|]. by rewrite app_nil_r. Qed.

Lemma entry_scans_all e : entry_scans e ∧ match e with DirDir _ es => Forall entry_scans es | _ => True end.
Proof.
  induction e as [name|name|name es IH] using tree_ind.
  - split; [|done]. intros basedir subdir tablespace vs Hv. cbn [entry_visits scan_entry entry_name] in *.
    destruct (skip_entry (bytes_of name)); [injection Hv as <-; apply nothing_scans|]. by apply regular_scans.
  - split; [|done]. intros basedir subdir tablespace vs Hv. cbn [entry_visits scan_entry entry_name] in *.
    destruct (skip_entry (bytes_of name)); injection Hv as <-; apply nothing_scans.
  - assert (Forall entry_scans es) as Hes by (eapply Forall_impl; [exact IH|]; by intros ? []).
    split; [|done]. intros basedir subdir tablespace vs Hv. cbn [entry_visits scan_entry entry_name] in *. cbv zeta in *.
    destruct (skip_entry (bytes_of name)); [injection Hv as <-; apply nothing_scans|].
    destruct (prefix_of PG_TBLSPC_DIR (bytes_of subdir)).
    + clear Hes. induction es as [|e es IHes]; [done|]. apply Forall_cons in IH as [[_ He] IH]. specialize (IHes IH).
      destruct e as [d|d es'|d]; destruct (bool_decide (bytes_of d = TABLESPACE_VERSION_DIRECTORY)); try done; try by apply IHes.
      apply fmap_Some in Hv as (vss & Hm & ->). eapply scan_all_scans; [|exact Hm]. eapply Forall_impl; [exact He|]. intros e Hse vs. apply Hse.
    + apply fmap_Some in Hv as (vss & Hm & ->). eapply scan_all_scans; [|exact Hm]. eapply Forall_impl; [exact Hes|]. intros e Hse vs. apply Hse.
Qed.

Lemma directory_scans basedir subdir tablespace es vss :
  mapM (entry_visits only basedir subdir tablespace) es = Some vss →
  scans (scan_directory mode only basedir subdir tablespace false es) (mjoin vss).
Proof.
  intros Hm. eapply scan_all_scans; [|exact Hm]. apply Forall_forall. intros e _ vs. apply entry_scans_all.
Qed.

Lemma cluster_scanned DataDir global base pg_tblspc vs w :
  cluster_visits only DataDir global base pg_tblspc = Some vs → Forall V vs → I [] w →
  ∃ c w', scan_cluster mode only DataDir global base pg_tblspc w = Ok c w' ∧ I (omap snd vs) w' ∧ badblocks c = 0.
Proof.
  intros Hv HV HI. unfold cluster_visits in Hv.
  apply bind_Some in Hv as (v1 & H1 & Hv). apply bind_Some in Hv as (v2 & H2 & Hv). apply bind_Some in Hv as (v3 & H3 & [= <-]).
  apply Forall_app in HV as [HV1 HV]. apply Forall_app in HV as [HV2 HV3]. unfold scan_cluster.
  destruct (directory_scans _ _ _ _ _ H1 [] counters0 w HV1 HI) as (n1 & c1 & w1 & E1 & I1 & B1). rewrite (bind_ok _ _ _ _ _ E1). cbv beta iota.
  destruct (directory_scans _ _ _ _ _ H2 _ c1 w1 HV2 I1) as (n2 & c2 & w2 & E2 & I2 & B2). rewrite (bind_ok _ _ _ _ _ E2). cbv beta iota.
  destruct (directory_scans _ _ _ _ _ H3 _ c2 w2 HV3 I2) as (n3 & c3 & w3 & E3 & I3 & B3). rewrite (bind_ok _ _ _ _ _ E3). cbv beta iota.
  exists c3, w3. split; [reflexivity|]. split; [|by rewrite B3, B2, B1]. rewrite !omap_app. by rewrite app_nil_l, <-app_assoc in I3.
Qed.

End scan_inv.
End trees.

(** ** The cluster *)

Section cluster.
Context {SSL : OpenSSL} {Spec : OpenSSLSpec SSL} {K : Kernel} {NF : NoFaults K} {RW : RandWorks SSL}.
Context {PKS : PrincipalKeys} {PKSpec : PrincipalKeysSpec PKS} {RP : RelPath} {PF : PageFormat} {PFS : PageFormatSpec PF}.
Context (keyof : RelFileLocator → option InternalKey).

(** A cluster that is shut down: all files are there, those of relations have whole
    blocks, and the keys are in the key files. *)
Record cluster_ok (w : World) (vs : list (string * option Job)) : Prop := {
  co_lock : w_enc_lock w = None;
  co_ctxs : ctxs_ok w;
  co_stat : Forall (λ v, is_Some (w_fs w !! v.1)) vs;
  co_inj j j' : j ∈ omap snd vs → j' ∈ omap snd vs → job_fn j = job_fn j' → j = j';
  co_name j : j ∈ omap snd vs → is_key_file (job_fn j) = false;
  co_key j : j ∈ omap snd vs → rel_key_known w (job_loc j) (keyof (job_loc j)) ∧ key_ok (keyof (job_loc j));
  co_blocks j : j ∈ omap snd vs → ∃ bs n, w_fs w !! job_fn j = Some bs ∧ length bs = (blksz * n)%nat;
}.

Abbreviation bn i j := (checksum_blkno (Z.of_nat i) (job_seg j)).

(** The state while checksums are enabled: files are as they were or done. *)
Record enabling (w : World) (vs : list (string * option Job)) (done : list Job) (w' : World) : Prop := {
  en_lock : w_enc_lock w' = None;
  en_ctxs : ctxs_ok w';
  en_stat p : is_Some (w_fs w !! p) → is_Some (w_fs w' !! p);
  en_key j : j ∈ omap snd vs → rel_key_known w' (job_loc j) (keyof (job_loc j));
  en_files j bs n : j ∈ omap snd vs → w_fs w !! job_fn j = Some bs → length bs = (blksz * n)%nat →
    ∃ bs', w_fs w' !! job_fn j = Some bs' ∧ length bs' = length bs ∧
      ∀ i, (i < n)%nat →
        block i bs' = enabled_page (job_key keyof j) (job_fork j) (bn i j) (block i bs) ∨ (j ∉ done ∧ block i bs' = block i bs);
}.

Lemma job_key_wf w vs j : cluster_ok w vs → j ∈ omap snd vs → key_ok (job_key keyof j).
Proof. intros Hc Hj. unfold job_key. destruct (_ =? _); [done|]. by apply (co_key _ _ Hc). Qed.

Lemma enabling_start w vs : cluster_ok w vs → enabling w vs [] w.
Proof.
  intros Hc. split; try apply Hc; [done|]. intros j bs n Hj Hbs Hl. exists bs. split_and!; try done. intros i _. right. split; [apply not_elem_of_nil|done].
Qed.

Lemma enabled_again w vs j bs n i :
  cluster_ok w vs → j ∈ omap snd vs → length bs = (blksz * n)%nat → (i < n)%nat →
  let e := enabled_page (job_key keyof j) (job_fork j) (bn i j) in e (e (block i bs)) = e (block i bs).
Proof.
  intros Hc Hj Hl Hi e. destruct (enabled_page_ok (job_key keyof j) (job_fork j) (bn i j) (block i bs) w) as (_ & G & _).
  { by eapply job_key_wf. } { by eapply block_page_ok. } { apply Hc. }
  unfold e. by rewrite (enabled_page_good _ _ _ _ G).
Qed.

Lemma enabling_step w vs done fn j c w' :
  cluster_ok w vs → enabling w vs done w' → (fn, Some j) ∈ vs →
  ∃ c' w'', run_job PG_MODE_ENABLE j c w' = Ok c' w'' ∧ enabling w vs (done ++ [j]) w'' ∧ badblocks c' = badblocks c.
Proof.
  intros Hc He Hv. assert (j ∈ omap snd vs) as Hj by (apply list_elem_of_omap; by eexists).
  destruct (co_blocks _ _ Hc j Hj) as (bs & n & Hbs & Hl). destruct (en_files _ _ _ _ He j bs n Hj Hbs Hl) as (bs1 & Hbs1 & Hl1 & Hb1).
  destruct (enable_file_ok keyof j bs1 n c w') as (c' & w'' & bs2 & E & F & B & Hbs2 & Hl2 & Hb2);
    [by apply He|apply He|apply He|done|lia|].
  exists c', w''. split; [done|]. split; [|done]. split.
  - by rewrite (fc_lock _ _ _ F), (en_lock _ _ _ _ He).
  - apply (fc_ctxs _ _ _ F), He.
  - intros p Hp. destruct (decide (p = job_fn j)) as [->|Hne]; [by rewrite Hbs2|]. rewrite (fc_files _ _ _ F _ Hne). by apply He.
  - intros j' Hj'. eapply known_key_stable; [|exact F|by apply He]. by apply (co_name _ _ Hc).
  - intros j' bs' n' Hj' Hbs' Hl'. destruct (decide (job_fn j' = job_fn j)) as [Efn|Hne].
    + apply (co_inj _ _ Hc) in Efn as ->; [|done|done]. simplify_eq. exists bs2. split_and!; [done|lia|].
      assert (n' = n) as -> by (pose proof blksz_Z; assert (0 < BLCKSZ) by done; nia).
      intros i Hi. left. rewrite Hb2 by done. destruct (Hb1 i Hi) as [->|[_ ->]]; [|done]. by eapply enabled_again.
    + destruct (en_files _ _ _ _ He j' bs' n' Hj' Hbs' Hl') as (bs3 & Hbs3 & Hl3 & Hb3). exists bs3.
      rewrite (fc_files _ _ _ F _ Hne). split_and!; try done. intros i Hi. destruct (Hb3 i Hi) as [|[Hn ?]]; [by left|right].
      split; [|done]. intros [|Hin]%elem_of_app; [done|]. apply list_elem_of_singleton in Hin as ->. done.
Qed.

(** While they are checked nothing changes. *)
Lemma checking_step w0 vs w1 fn j c w' :
  cluster_ok w0 vs → enabling w0 vs (omap snd vs) w1 → ctx_only w1 w' ∧ ctxs_ok w' → (fn, Some j) ∈ vs →
  ∃ c' w'', run_job PG_MODE_CHECK j c w' = Ok c' w'' ∧ (ctx_only w1 w'' ∧ ctxs_ok w'') ∧ badblocks c' = badblocks c.
Proof.
  intros Hc He [Ho Hw'] Hv. assert (j ∈ omap snd vs) as Hj by (apply list_elem_of_omap; by eexists).
  destruct (co_blocks _ _ Hc j Hj) as (bs & n & Hbs & Hl). destruct (en_files _ _ _ _ He j bs n Hj Hbs Hl) as (bs1 & Hbs1 & Hl1 & Hb1).
  pose proof (ctx_only_changed (job_fn j) w1 w' Ho Hw') as F.
  destruct (check_file_ok keyof j bs1 n c w') as (c' & w'' & E & O & C & B).
  - eapply known_key_stable; [|exact F|by apply He]. by apply (co_name _ _ Hc).
  - by rewrite (fc_lock _ _ _ F), (en_lock _ _ _ _ He).
  - done.
  - by rewrite (ctx_only_fs _ _ Ho).
  - lia.
  - intros i Hi. destruct (Hb1 i Hi) as [->|[Hn _]]; [|done].
    apply (enabled_page_ok (job_key keyof j) (job_fork j) (bn i j) (block i bs) w0); [by eapply job_key_wf|by eapply block_page_ok|apply Hc].
  - exists c', w''. split; [done|]. split; [|done]. split; [by etrans|done].
Qed.

Ltac decide_modes :=
  repeat match goal with
  | |- context [bool_decide (?a = ?a :> PgChecksumMode)] => rewrite (bool_decide_eq_true_2 (a = a)) by reflexivity
  | |- context [bool_decide (?a = ?b :> PgChecksumMode)] => rewrite (bool_decide_eq_false_2 (a = b)) by discriminate
  | |- context [bool_decide (is_Some None)] => rewrite (bool_decide_eq_false_2 (is_Some _)) by (by intros [])
  end; rewrite ?Z.ltb_irrefl; change (PG_DATA_CHECKSUM_VERSION =? 0) with false; rewrite ?andb_false_r; cbn [negb andb orb].

(** C13: pg_checksums --enable on a cluster that is shut down and has no checksums
    succeeds, with whole directory trees of encrypted and other relations, and
    pg_checksums --check then finds no bad block and changes nothing; every page of
    every file reads as before, or as before but for its checksum (or its ciphertext
    starts with the zeros that mark pages as not encrypted). *)
Theorem checksums_enabled version DataDir global base pg_tblspc vs state w :
  cluster_visits None DataDir global base pg_tblspc = Some vs → cluster_ok w vs → state ≠ DB_OTHER_STATE →
  let cf v := mkControlFile true version BLCKSZ state v in
  ∃ c1 w1 c2 w2,
    checksums_main version PG_MODE_ENABLE None DataDir global base pg_tblspc (cf 0) w = Ok (c1, cf PG_DATA_CHECKSUM_VERSION) w1 ∧
    checksums_main version PG_MODE_CHECK None DataDir global base pg_tblspc (cf PG_DATA_CHECKSUM_VERSION) w1 =
      Ok (c2, cf PG_DATA_CHECKSUM_VERSION) w2 ∧ badblocks c2 = 0 ∧ w_fs w2 = w_fs w1 ∧
    ∀ j bs n, j ∈ omap snd vs → w_fs w !! job_fn j = Some bs → length bs = (blksz * n)%nat →
      ∃ bs', w_fs w1 !! job_fn j = Some bs' ∧ length bs' = length bs ∧
        ∀ i, (i < n)%nat →
          let p := read_page (job_key keyof j) (job_fork j) (bn i j) (block i bs) in
          let p' := read_page (job_key keyof j) (job_fork j) (bn i j) (block i bs') in
          p' = p ∨ p' = set_pd_checksum p (pg_checksum_page p (bn i j)) ∨ all_zero32 p' = true.
Proof.
  intros Hv Hc Hst cf.
  destruct (cluster_scanned PG_MODE_ENABLE None (λ v, v ∈ vs) (enabling w vs)
    ltac:(intros done fn o w' He Hin; apply (en_stat _ _ _ _ He); exact (proj1 (Forall_forall _ _) (co_stat _ _ Hc) _ Hin))
    ltac:(intros done fn j c w'; by apply enabling_step)
    DataDir global base pg_tblspc vs w Hv ltac:(by apply Forall_forall) (enabling_start w vs Hc)) as (c1 & w1 & E1 & I1 & _).
  destruct (cluster_scanned PG_MODE_CHECK None (λ v, v ∈ vs) (λ _ w', ctx_only w1 w' ∧ ctxs_ok w')
    ltac:(intros done fn o w' [Ho _] Hin; rewrite (ctx_only_fs _ _ Ho); apply (en_stat _ _ _ _ I1); exact (proj1 (Forall_forall _ _) (co_stat _ _ Hc) _ Hin))
    ltac:(intros done fn j c w'; by apply (checking_step w vs))
    DataDir global base pg_tblspc vs w1 Hv ltac:(by apply Forall_forall) ltac:(split; [done|apply I1])) as (c2 & w2 & E2 & [O2 _] & B2).
  exists c1, w1, c2, w2. split_and!; [..|exact B2|exact (ctx_only_fs _ _ O2)|].
  - unfold checksums_main, cf. cbn [crc_ok pg_control_version cf_blcksz cf_state data_checksum_version]. rewrite !Z.eqb_refl.
    destruct state; [..|done]; decide_modes; by rewrite (bind_ok _ _ _ _ _ E1).
  - unfold checksums_main, cf. cbn [crc_ok pg_control_version cf_blcksz cf_state data_checksum_version]. rewrite !Z.eqb_refl.
    destruct state; [..|done]; decide_modes; rewrite (bind_ok _ _ _ _ _ E2); by rewrite B2.
  - intros j bs n Hj Hbs Hl. destruct (en_files _ _ _ _ I1 j bs n Hj Hbs Hl) as (bs' & Hbs' & Hl' & Hb). exists bs'. split_and!; try done.
    intros i Hi. cbv zeta. destruct (Hb i Hi) as [->|[Hn _]]; [|done].
    apply (enabled_page_ok (job_key keyof j) (job_fork j) (bn i j) (block i bs) w); [by eapply job_key_wf|by eapply block_page_ok|apply Hc].
Qed.

End cluster.

(** ** Example *)

(** The header of a page: the checksum is at offset 8, [pd_upper] at offset 14; the
    checksum here depends on the latter and on the block number. *)
#[export] Instance ToyPages : PageFormat := {
  PageIsNew p := le_dec (slice 14 2 p) =? 0;
  pd_checksum p := le_dec (slice 8 2 p);
  set_pd_checksum p c := write_at 8 (le_enc 2 c) p;
  pg_checksum_page p bn := (le_dec (slice 14 2 p) + bn) mod 65535 + 1;
  forkname_to_number f :=
    if bool_decide (f = bytes_of "fsm") then FSM_FORKNUM else if bool_decide (f = bytes_of "vm") then VISIBILITYMAP_FORKNUM
    else if bool_decide (f = bytes_of "init") then INIT_FORKNUM else InvalidForkNumber;
}.

#[export] Instance ToyPagesSpec : PageFormatSpec ToyPages.
Proof.
  split; unfold pg_checksum_page, pd_checksum, set_pd_checksum, PageIsNew, ToyPages.
  - intros p bn. pose proof (Z.mod_pos_bound (le_dec (slice 14 2 p) + bn) 65535 ltac:(lia)). lia.
  - intros p c _ Hc. rewrite (slice_overwrite_same x00 8 (le_enc 2 c) p : slice 8 2 _ = _). apply le_dec_enc_small. exact Hc.
  - intros p c bn _. rewrite slice_overwrite_after; [done|]. rewrite le_enc_length. lia.
  - intros p c Hp. unfold page_ok in *. rewrite overwrite_length, le_enc_length. unfold BLCKSZ in *. lia.
  - intros p c _. rewrite slice_overwrite_after; [done|]. rewrite le_enc_length. lia.
  - intros p Hp Hz. assert (slice 14 2 p = slice 14 2 (take 32 p)) as ->.
    { unfold slice. by rewrite !take_drop_commute, take_take. }
    assert (take 32 p = replicate 32 x00) as ->; [|done]. symmetry. apply replicate_as_Forall_2.
    { rewrite length_take. unfold page_ok, BLCKSZ in Hp. lia. }
    apply Forall_forall. intros b Hb. unfold all_zero32 in Hz.
    apply forallb_forall with (x := b) in Hz; [by apply bool_decide_eq_true in Hz|by apply list_elem_of_In].
Qed.

Definition example_base : list DirEntry :=
  [DirDir "5" [DirFile "16384"; DirFile "16385_vm"; DirFile "pg_filenode.map"; DirDir "pgsql_tmp" []]].

Definition example_visits : list (string * option Job) :=
  [("/d/base/5/16384"%string, Some (mkJob "/d/base/5/16384" rel1 MAIN_FORKNUM 0));
   ("/d/base/5/16385_vm"%string, Some (mkJob "/d/base/5/16385_vm" rel2 VISIBILITYMAP_FORKNUM 0));
   ("/d/base/5/pg_filenode.map"%string, None)].

Definition with_relations (fs : gmap string bytes) : gmap string bytes :=
  <["/d/base/5/16384" := source_seg]> (<["/d/base/5/16385_vm" := target_seg]> (<["/d/base/5/pg_filenode.map" := []]> fs)).

Definition example_key (rl : RelFileLocator) : option InternalKey :=
  if bool_decide (relNumber rl = relNumber rel1) then Some rel_key_example else None.

Lemma example_visits_ok : cluster_visits None "/d" [] example_base [] = Some example_visits.
Proof. vm_compute. reflexivity. Qed.

Lemma example_jobs j :
  j ∈ omap snd example_visits →
  j = mkJob "/d/base/5/16384" rel1 MAIN_FORKNUM 0 ∨ j = mkJob "/d/base/5/16385_vm" rel2 VISIBILITYMAP_FORKNUM 0.
Proof. intros [?|[?|[]%elem_of_nil]%elem_of_cons]%elem_of_cons; [by left|by right]. Qed.

Lemma cluster_example : ∃ w, cluster_ok example_key w example_visits.
Proof.
  destruct (save_smgr_key_spec rel1 rel_key_example true pk5 ∅ rewind_world) as (wT & _ & HT & OT);
    [apply rewind_world_rep|done|apply rel1_wf|done|apply rel_key_example_wf|].
  exists (set_fs (with_relations (w_fs wT)) wT).
  assert (∀ rl k, dbOid rl = 5 → rel_key_known wT rl k → rel_key_known (set_fs (with_relations (w_fs wT)) wT) rl k) as Hkey.
  { intros rl k Hdb Hk. assert (with_relations (w_fs wT) !! open_pg_tde_set_db_file_path 5 = w_fs wT !! open_pg_tde_set_db_file_path 5) as Hf.
    { unfold with_relations. by rewrite !lookup_insert_ne by discriminate. }
    destruct Hk as [[H ->]|(pk & m & (H1 & H2 & H3) & Hn & Hm)]; rewrite Hdb in *.
    - left. rewrite Hdb. cbn [w_fs set_fs]. by rewrite Hf.
    - right. exists pk, m. rewrite Hdb. split; [|done]. split; [exact H1|]. split; [done|]. eapply file_rep_ext; [|exact H3]. by rewrite <-Hf. }
  split.
  - by destruct OT as (f & r & -> & _).
  - destruct OT as (f & r & -> & _). exact world1_ok.
  - repeat constructor; cbn [fst w_fs set_fs]; unfold with_relations; eexists;
      rewrite ?lookup_insert_eq; rewrite ?lookup_insert_ne, ?lookup_insert_eq by discriminate;
      rewrite ?lookup_insert_ne, ?lookup_insert_eq by discriminate; try reflexivity; apply lookup_insert_eq.
  - intros j j' Hj Hj'. apply example_jobs in Hj as [->| ->], Hj' as [->| ->]; done.
  - intros j [->| ->]%example_jobs; done.
  - intros j [->| ->]%example_jobs; (split; [apply Hkey; [done|]|]).
    + right. exists pk5, (<[rel_loc rel1 := lkey rel_key_example]> ∅). split; [exact HT|]. split; [done|]. apply lookup_insert_eq.
    + intros k [= <-]. apply rel_key_example_wf.
    + right. exists pk5, (<[rel_loc rel1 := lkey rel_key_example]> ∅). split; [exact HT|]. split; [done|]. by rewrite lookup_insert_ne.
    + done.
  - intros j [->| ->]%example_jobs; cbn [job_fn w_fs set_fs]; unfold with_relations.
    + exists source_seg, 2%nat. split; [apply lookup_insert_eq|apply length_replicate].
    + exists target_seg, 1%nat. split; [|apply length_replicate]. rewrite lookup_insert_ne by discriminate. apply lookup_insert_eq.
Qed.

Lemma checksums_enabled_witness : ∃ w c1 w1 c2 w2,
  checksums_main 1 PG_MODE_ENABLE None "/d" [] example_base [] (mkControlFile true 1 BLCKSZ DB_SHUTDOWNED 0) w =
    Ok (c1, mkControlFile true 1 BLCKSZ DB_SHUTDOWNED PG_DATA_CHECKSUM_VERSION) w1 ∧
  checksums_main 1 PG_MODE_CHECK None "/d" [] example_base [] (mkControlFile true 1 BLCKSZ DB_SHUTDOWNED PG_DATA_CHECKSUM_VERSION) w1 =
    Ok (c2, mkControlFile true 1 BLCKSZ DB_SHUTDOWNED PG_DATA_CHECKSUM_VERSION) w2 ∧ badblocks c2 = 0.
Proof.
  destruct cluster_example as (w & Hw).
  destruct (checksums_enabled example_key 1 "/d" [] example_base [] example_visits DB_SHUTDOWNED w example_visits_ok Hw ltac:(discriminate))
    as (c1 & w1 & c2 & w2 & E1 & E2 & B & _).
  by exists w, c1, w1, c2, w2.
Defined.
