(* ===== verification/ReceiveWal.v ===== *)
(** fetools/pg18/pg_basebackup: the part of pg_basebackup that receives WAL while
    the backup runs and encrypts it (receivelog.c, walmethods.c, the start of the
    process in pg_basebackup.c).

    WAL is written by the method for directories, without compression; a file that
    is open is known by its path. [pg_pwrite_zeros] writes all zeros or fails. The
    connection, the end position of the backup and the names of WAL segments are
    parameters. *)
From S2P Require Import Prelude Types Environ Ciphers EncTde KeyFile KeyMap WalKeys XLogSmgr.

(** ** walmethods.c: files in a directory *)

Record WalWriteMethod := mkWalWriteMethod { ww_basedir : string; ww_sync : bool }.

(** [wf_fullpath] is also the descriptor. *)
Record Walfile := mkWalfile {
  wf_pathname : string;
  wf_fullpath : string;
  wf_temp_suffix : option string;
  wf_currpos : Z;
}.

Inductive WalCloseMethod := CLOSE_NORMAL | CLOSE_UNLINK | CLOSE_NO_RENAME.

(** The messages of the server are answered by the program; [stream_stop] says
    whether enough was received, given whether a segment was finished. *)
Class RecvEnv := {
  stream_stop : Z → Z → bool → bool;
  put_copy_end : bool;
  XLogFileName : Z → Z → string;
  recv_WalSegSz : Z;
}.

Section walmethods.
Context {SSL : OpenSSL} {K : Kernel}.

Definition dir_get_file_name (pathname : string) (temp_suffix : option string) : string :=
  (pathname +:+ default EmptyString temp_suffix)%string.

Definition dir_path (wwmethod : WalWriteMethod) (filename : string) : string :=
  (ww_basedir wwmethod +:+ "/" +:+ filename)%string.

(** [fsync_fname], [fsync_parent_path] *)
Definition fsync_file (wwmethod : WalWriteMethod) (path : string) : M Z :=
  if ww_sync wwmethod then pg_fsync path else mret 0.

Definition dir_open_for_write (wwmethod : WalWriteMethod) (pathname : string) (temp_suffix : option string) (pad_to_size : Z)
  : M (option Walfile) :=
  let tmppath := dir_path wwmethod (dir_get_file_name pathname temp_suffix) in
  r ← OpenTransientFile tmppath true false;
  match r with
  | OpenFailed _ => mret None
  | Fd fd =>
      padded ← (if pad_to_size =? 0 then mret true
                else n ← pg_pwrite fd (zeros (Z.to_nat pad_to_size)) 0; mret (n =? pad_to_size));
      if negb padded then mret None
      else
        s ← fsync_file wwmethod tmppath;
        if negb (s =? 0) then mret None else mret (Some (mkWalfile pathname fd temp_suffix 0))
  end.

(** What was written and the file with its new position. *)
Definition dir_write (f : Walfile) (buf : bytes) : M (Z * Walfile) :=
  r ← pg_pwrite (wf_fullpath f) buf (wf_currpos f);
  mret (r, if 0 <? r then mkWalfile (wf_pathname f) (wf_fullpath f) (wf_temp_suffix f) (wf_currpos f + r) else f).

(** [durable_rename] or, without syncing, [rename]. *)
Definition rename_file (src dst : string) : M Z := λ w,
  match sys_fault (SysRename src dst) (w_fs w), w_fs w !! src with
  | None, Some bs => Ok 0 (renamed src dst bs w)
  | Some n, Some bs => Ok (-1) (if n <? 0 then w else renamed src dst bs w)
  | _, None => Ok (-1) w
  end.

Definition unlink_file (path : string) : M Z := λ w,
  match sys_fault (SysUnlink path) (w_fs w), w_fs w !! path with
  | None, Some _ => Ok 0 (set_fs (delete path (w_fs w)) w)
  | _, _ => Ok (-1) w
  end.

Definition dir_close (wwmethod : WalWriteMethod) (f : Walfile) (method : WalCloseMethod) : M Z :=
  match method, wf_temp_suffix f with
  | CLOSE_NORMAL, Some temp_suffix =>
      rename_file (dir_path wwmethod (dir_get_file_name (wf_pathname f) (Some temp_suffix)))
        (dir_path wwmethod (dir_get_file_name (wf_pathname f) None))
  | CLOSE_UNLINK, temp_suffix => unlink_file (dir_path wwmethod (dir_get_file_name (wf_pathname f) temp_suffix))
  | _, _ => fsync_file wwmethod (wf_fullpath f)
  end.

Definition dir_sync (wwmethod : WalWriteMethod) (f : Walfile) : M Z := fsync_file wwmethod (wf_fullpath f).

Definition dir_get_file_size (wwmethod : WalWriteMethod) (pathname : string) : M Z :=
  lseek_end (dir_path wwmethod pathname).

Definition dir_existsfile (wwmethod : WalWriteMethod) (pathname : string) : M bool :=
  r ← OpenTransientFile (dir_path wwmethod pathname) false false;
  match r with Fd _ => mret true | OpenFailed _ => mret false end.

End walmethods.

(** ** receivelog.c *)

Record StreamCtl := mkStreamCtl {
  sc_timeline : Z;
  sc_walmethod : WalWriteMethod;
  partial_suffix : option string;
  mark_done : bool;
  sc_encrypt : bool;
}.

Record RecvState := mkRecvState {
  walfile : option Walfile;
  still_sending : bool;
  lastFlushPosition : Z;
}.

Definition with_walfile (f : option Walfile) (st : RecvState) : RecvState :=
  mkRecvState f (still_sending st) (lastFlushPosition st).

Section receive.
Context {SSL : OpenSSL} {K : Kernel} {PKS : PrincipalKeys} {RV : RecvEnv}.

Definition mark_file_as_archived (stream : StreamCtl) (fname : string) : M bool :=
  f ← dir_open_for_write (sc_walmethod stream) ("archive_status/" +:+ fname +:+ ".done")%string None 0;
  match f with
  | None => mret false
  | Some f => r ← dir_close (sc_walmethod stream) f CLOSE_NORMAL; mret (r =? 0)
  end.

(** [XLByteToSeg] *)
Definition XLByteToSeg (pos segSize : Z) : Z := pos / segSize.

Definition open_walfile (stream : StreamCtl) (startpoint : Z) (st : RecvState) : M (bool * RecvState) :=
  let m := sc_walmethod stream in
  let walfile_name := XLogFileName (sc_timeline stream) (XLByteToSeg startpoint recv_WalSegSz) in
  let fn := dir_get_file_name walfile_name (partial_suffix stream) in
  let create :=
    f ← dir_open_for_write m walfile_name (partial_suffix stream) recv_WalSegSz;
    match f with
    | None => mret (false, st)
    | Some f => mret (true, with_walfile (Some f) st)
    end in
  exists_ ← dir_existsfile m fn;
  if exists_ : bool then
    size ← dir_get_file_size m fn;
    if size <? 0 then mret (false, st)
    else if size =? recv_WalSegSz then
      f ← dir_open_for_write m walfile_name (partial_suffix stream) 0;
      match f with
      | None => mret (false, st)
      | Some f =>
          r ← dir_sync m f;
          if negb (r =? 0) then
            dir_close m f CLOSE_UNLINK;;
            ereport FATAL "could not fsync existing write-ahead log file"
          else mret (true, with_walfile (Some f) st)
      end
    else if negb (size =? 0) then mret (false, st)
    else create
  else create.

Definition close_walfile (stream : StreamCtl) (pos : Z) (st : RecvState) : M (bool * RecvState) :=
  match walfile st with
  | None => mret (true, st)
  | Some f =>
      let complete := wf_currpos f =? recv_WalSegSz in
      r ← dir_close (sc_walmethod stream) f
            match partial_suffix stream with
            | Some _ => if complete then CLOSE_NORMAL else CLOSE_NO_RENAME
            | None => CLOSE_NORMAL
            end;
      let st := with_walfile None st in
      if negb (r =? 0) then mret (false, st)
      else
        ok ← (if complete && mark_done stream then mark_file_as_archived stream (wf_pathname f) else mret true);
        if negb ok then mret (false, st)
        else mret (true, mkRecvState (walfile st) (still_sending st) pos)
  end.

(** [fe_recvint64] *)
Definition fe_recvint64 (buf : bytes) : Z := le_dec (rev (take 8 buf)).

Definition hdr_len : nat := 1 + 8 + 8 + 8.

(** The loop of [ProcessXLogDataMsg]; [data] is what is left of the message. *)
Fixpoint xlog_data_loop (fuel : nat) (stream : StreamCtl) (segno : Z) (data : bytes) (xlogoff blockpos : Z) (st : RecvState)
  : M (bool * Z * RecvState) :=
  match data with
  | [] => mret (true, blockpos, st)
  | _ =>
      match fuel with
      | O => out_of_fuel
      | S fuel =>
          let bytes_left := Z.of_nat (length data) in
          let bytes_to_write := if recv_WalSegSz <? xlogoff + bytes_left then recv_WalSegSz - xlogoff else bytes_left in
          '(opened, st) ← match walfile st with
                          | None => open_walfile stream blockpos st
                          | Some _ => mret (true, st)
                          end;
          if negb opened then mret (false, blockpos, st)
          else
            let enc_buf := take (Z.to_nat bytes_to_write) data in
            enc_buf ←
              (if sc_encrypt stream then
                 let loc := mkWalLocation (XLogSegNoOffsetToRecPtr segno xlogoff recv_WalSegSz) (sc_timeline stream) in
                 tde_ensure_xlog_key_location loc;;
                 TDEXLogCryptBuffer None enc_buf bytes_to_write xlogoff (sc_timeline stream) segno recv_WalSegSz
               else mret enc_buf);
            match walfile st with
            | None => ereport PANIC "NULL pointer dereference"
            | Some f =>
                '(r, f) ← dir_write f enc_buf;
                let st := with_walfile (Some f) st in
                if negb (r =? bytes_to_write) then mret (false, blockpos, st)
                else
                  let blockpos := blockpos + bytes_to_write in
                  let data := drop (Z.to_nat bytes_to_write) data in
                  if XLogSegmentOffset blockpos recv_WalSegSz =? 0 then
                    '(closed, st) ← close_walfile stream blockpos st;
                    if negb closed then mret (false, blockpos, st)
                    else if still_sending st && stream_stop blockpos (sc_timeline stream) true then
                      if negb put_copy_end then mret (false, blockpos, st)
                      else mret (true, blockpos, mkRecvState (walfile st) false (lastFlushPosition st))
                    else xlog_data_loop fuel stream segno data 0 blockpos st
                  else xlog_data_loop fuel stream segno data (xlogoff + bytes_to_write) blockpos st
            end
      end
  end.

(** Whether to go on, the new position and state. *)
Definition ProcessXLogDataMsg (stream : StreamCtl) (copybuf : bytes) (blockpos : Z) (st : RecvState) : M (bool * Z * RecvState) :=
  if negb (still_sending st) then mret (true, blockpos, st)
  else if (length copybuf <? hdr_len)%nat then mret (false, blockpos, st)
  else
    let blockpos := fe_recvint64 (drop 1 copybuf) in
    let xlogoff := XLogSegmentOffset blockpos recv_WalSegSz in
    let segno := XLByteToSeg blockpos recv_WalSegSz in
    let expected := match walfile st with Some f => wf_currpos f =? xlogoff | None => xlogoff =? 0 end in
    if negb expected then mret (false, blockpos, st)
    else
      let data := drop hdr_len copybuf in
      xlog_data_loop (length data) stream segno data xlogoff blockpos st.

(** [CheckCopyStreamStop] *)
Definition CheckCopyStreamStop (stream : StreamCtl) (blockpos : Z) (st : RecvState) : M (bool * RecvState) :=
  if still_sending st && stream_stop blockpos (sc_timeline stream) false then
    '(closed, st) ← close_walfile stream blockpos st;
    if negb closed then mret (false, st)
    else if negb put_copy_end then mret (false, st)
    else mret (true, mkRecvState (walfile st) false (lastFlushPosition st))
  else mret (true, st).

(** ** pg_basebackup.c *)

Definition KEY_DATA_SIZE_DEFAULT : Z := 1.

(** Before WAL is received: the server key of the copied directory is stored and a
    new range is made; [encrypt_wal_key_len] is 0 when WAL is not encrypted. *)
Definition start_log_encryption (encrypt_wal_key_len : Z) : M unit :=
  if encrypt_wal_key_len =? 0 then mret tt
  else
    pk ← GetPrincipalKey GLOBAL_DATA_TDE_OID LW_SHARED;
    match pk with
    | None => ereport FATAL "could not find server principal key"
    | Some principalKey =>
        open_pg_tde_save_server_key principalKey false;;
        TDEXLogSmgrInitWrite true
          (if negb (encrypt_wal_key_len =? KEY_DATA_SIZE_DEFAULT) then encrypt_wal_key_len
           else if (pk_keyLength principalKey =? 16) || (pk_keyLength principalKey =? 32) then pk_keyLength principalKey
           else 16)
    end.

End receive.
