(* ===== verification/ReceiveWalThms.v ===== *)
(** WAL that pg_basebackup receives and encrypts: a reader of the backup gets what
    the server sent, as long as no message of the server goes beyond the end of a
    segment. *)
From S2P Require Import Prelude Types Environ Instances Ciphers EncTde KeyFile KeyMap KeyMapSpec WalKeys WalKeysSpec.
From S2P Require Import WalKeysThms XLogSmgr XLogSmgrSpec XLogSmgrThms ReceiveWal.

Section recv.
Context {SSL : OpenSSL} {Spec : OpenSSLSpec SSL} {K : Kernel} {NF : NoFaults K} {RW : RandWorks SSL}.
Context {PKS : PrincipalKeys} {PKSpec : PrincipalKeysSpec PKS} {RV : RecvEnv}.
Context (pk : TDEPrincipalKey) (vs : list WRange) (v : WRange) (loc : WalLocation) (lk : LKey) (Hnr : new_range vs v loc lk).

(** ** The key for new WAL *)

(** Nothing was received yet, or the first location was recorded. *)
Definition starting (w : World) : Prop := fresh_writer w pk vs v ∧ wal_key_cache (w_wal w) = [].
Definition receiving (w : World) : Prop := ∃ k, written pk vs v k loc w.

Lemma receiving_write w p d : p ≠ wal_path → receiving w → receiving (set_fs (<[p := d]> (w_fs w)) w).
Proof.
  intros Hp [k [(Hc & Hpk & h & es & Hf & Hrest) H2 H3 H4 H5]]. exists k. split; try done. split_and!; [done|done|].
  exists h, es. split; [|done]. cbn. by rewrite lookup_insert_ne.
Qed.

Lemma ensure_ok loc' w :
  (starting w ∧ loc' = loc) ∨ receiving w →
  ∃ b w1, tde_ensure_xlog_key_location loc' w = Ok b w1 ∧ receiving w1 ∧ ∀ q, q ≠ wal_path → w_fs w1 !! q = w_fs w !! q.
Proof.
  intros [[[Hfw Hc] ->]|[k Hw]].
  - destruct (ensure_location_spec loc w pk vs v Hfw) as (k & f & n & E & Hrep & Hother); [apply Hnr..| |].
    { intros c rec. rewrite Hc. by destruct c. }
    eexists true, _. split; [exact E|]. split; [|done]. exists k. split; try done; [apply Hfw|by left].
  - exists (negb (wl_lsn loc =? 0) && (wal_location_cmp loc loc' <=? 0)), w. split; [|by split; [exists k|]].
    unfold tde_ensure_xlog_key_location, TDEXLogGetEncKeyLsn, TDEXLogGetEncKeyTli. do 4 mstep.
    rewrite (wn_lsn _ _ _ _ _ _ Hw), (wn_tli _ _ _ _ _ _ Hw).
    assert (wl_lsn loc =? 0 = false) as ->.
    { pose proof (nr_valid _ _ _ _ Hnr) as Hv. unfold wal_location_valid in Hv. apply andb_true_iff in Hv as [_ Hv].
      by apply negb_true_iff in Hv. }
    cbn [negb andb]. rewrite andb_false_r. cbn [andb]. destruct loc. by mstep.
Qed.

(** [d] at a place of a segment, encrypted. *)
Lemma encrypt_ok p d w :
  piece_ok p → Z.of_nat (length d) = p_count p → wl_le loc (piece_loc p 0) → wl_tli (piece_loc p 0) < MaxTimeLineID →
  (starting w ∧ piece_loc p 0 = loc) ∨ receiving w →
  ∃ key w1, (tde_ensure_xlog_key_location (piece_loc p 0);;
             TDEXLogCryptBuffer None d (p_count p) (p_offset p) (p_tli p) (p_segno p) (p_segSize p)) w =
      Ok (segment_stream key p d) w1 ∧ lkey key = lk ∧ receiving w1 ∧ ∀ q, q ≠ wal_path → w_fs w1 !! q = w_fs w !! q.
Proof.
  intros Hp Hl Hle Hmax Hw. destruct (ensure_ok (piece_loc p 0) w Hw) as (b & w1 & E1 & [k W1] & F1). rewrite (bind_ok _ _ _ _ _ E1).
  destruct (written_crypt pk vs v k loc lk p d true w1 Hnr W1 Hp Hle Hmax Hl) as (key & c & b1 & b2 & E2 & Hkey & W2).
  exists key, (with_cache c b1 b2 w1). split_and!; [exact E2|done|by exists k|done].
Qed.

Lemma segment_stream_lkey k1 k2 p d : lkey k1 = lkey k2 → segment_stream k1 p d = segment_stream k2 p d.
Proof. unfold segment_stream. intros H. injection H as _ -> ->. done. Qed.

(** ** Files of WAL *)

Lemma fsync_file_ok m p w : fsync_file m p w = Ok 0 w.
Proof. unfold fsync_file. destruct (ww_sync m); [|done]. unfold pg_fsync. by rewrite no_fault. Qed.

Lemma dir_create_ok m name suffix size w :
  let path := dir_path m (dir_get_file_name name suffix) in
  w_fs w !! path = None → 0 < size →
  dir_open_for_write m name suffix size w =
    Ok (Some (mkWalfile name path suffix 0)) (set_fs (<[path := zeros (Z.to_nat size)]> (w_fs w)) w).
Proof.
  intros path Hn Hs. unfold dir_open_for_write. fold path. cbv zeta.
  assert (OpenTransientFile path true false w = Ok (Fd path) (set_fs (<[path := []]> (w_fs w)) w)) as Eo.
  { unfold OpenTransientFile. by rewrite no_fault, Hn. }
  rewrite (bind_ok _ _ _ _ _ Eo). rewrite (proj2 (Z.eqb_neq size 0)) by lia. rewrite bind_assoc.
  assert (w_fs (set_fs (<[path := []]> (w_fs w)) w) !! path = Some []) as Hf by apply lookup_insert_eq.
  rewrite (bind_ok _ _ _ _ _ (pwrite_ok path (zeros (Z.to_nat size)) 0 _ [] Hf ltac:(lia))). mstep.
  rewrite zeros_length, Z2Nat.id, Z.eqb_refl by lia. cbn [negb].
  rewrite (bind_ok _ _ _ _ _ (fsync_file_ok m path _)). cbn [negb Z.eqb]. unfold mret, M_ret. f_equal.
  cbn [w_fs set_fs]. rewrite insert_insert_eq. unfold overwrite. cbn. by rewrite drop_nil, app_nil_r.
Qed.


(** ** One write *)

Context (Hsz : ∃ n, 0 <= n <= 30 ∧ recv_WalSegSz = 2 ^ n).
Context (stream : StreamCtl) (Henc : sc_encrypt stream = true) (Htli : is_u32 (sc_timeline stream)) (Hmax : sc_timeline stream < MaxTimeLineID).
Context (key0 : InternalKey) (Hkey0 : lkey key0 = lk).

Abbreviation segsz := recv_WalSegSz.
Abbreviation tli := (sc_timeline stream).

Lemma segsz_range : 0 < segsz <= 2 ^ 30.
Proof.
  destruct Hsz as (n & Hn & ->). split; [apply Z.pow_pos_nonneg; lia|apply Z.pow_le_mono_r; lia].
Qed.

(** What is left to do after a part of the message was written. *)
Definition after_write (fuel : nat) (segno : Z) (data : bytes) (xlogoff blockpos cnt : Z) (st : RecvState) : M (bool * Z * RecvState) :=
  if XLogSegmentOffset (blockpos + cnt) segsz =? 0 then
    '(closed, st) ← close_walfile stream (blockpos + cnt) st;
    if negb closed then mret (false, blockpos + cnt, st)
    else if still_sending st && stream_stop (blockpos + cnt) tli true then
      if negb put_copy_end then mret (false, blockpos + cnt, st)
      else mret (true, blockpos + cnt, mkRecvState (walfile st) false (lastFlushPosition st))
    else xlog_data_loop fuel stream segno (drop (Z.to_nat cnt) data) 0 (blockpos + cnt) st
  else xlog_data_loop fuel stream segno (drop (Z.to_nat cnt) data) (xlogoff + cnt) (blockpos + cnt) st.

Definition advance (f : Walfile) (n : Z) : Walfile := mkWalfile (wf_pathname f) (wf_fullpath f) (wf_temp_suffix f) (wf_currpos f + n).

Definition piece_at (cnt off segno : Z) : Piece := mkPiece cnt off tli segno segsz.

Lemma loop_step fuel segno data off b st f bs w cnt :
  walfile st = Some f → wf_currpos f = off → wf_fullpath f ≠ wal_path → w_fs w !! wf_fullpath f = Some bs → data ≠ [] →
  cnt = Z.min (Z.of_nat (length data)) (segsz - off) →
  piece_ok (piece_at cnt off segno) → wl_le loc (piece_loc (piece_at cnt off segno) 0) →
  (starting w ∧ piece_loc (piece_at cnt off segno) 0 = loc) ∨ receiving w →
  ∃ w1, receiving w1 ∧
    w_fs w1 !! wf_fullpath f = Some (write_at (Z.to_nat off) (segment_stream key0 (piece_at cnt off segno) (take (Z.to_nat cnt) data)) bs) ∧
    (∀ q, q ≠ wal_path → q ≠ wf_fullpath f → w_fs w1 !! q = w_fs w !! q) ∧
    xlog_data_loop (S fuel) stream segno data off b st w =
      after_write fuel segno data off b cnt (with_walfile (Some (advance f cnt)) st) w1.
Proof.
  intros Hf Hpos Hne Hbs Hd Hcnt Hp Hle Hw. pose proof Hp as (_ & Ho & Hc & Hend & _ & Hs & Hms). cbn [piece_at p_offset p_count p_segSize p_segno] in *.
  destruct data as [|b0 data0]; [done|]. cbn [xlog_data_loop]. set (data := b0 :: data0) in *. cbv zeta.
  replace (if segsz <? off + Z.of_nat (length data) then segsz - off else Z.of_nat (length data)) with cnt.
  2: { destruct (Z.ltb_spec segsz (off + Z.of_nat (length data))); lia. }
  rewrite Hf. cbv iota. rewrite (bind_ok _ _ _ _ _ (ret_ok (true, st) w)). cbn [negb]. rewrite Henc.
  assert (Z.of_nat (length (take (Z.to_nat cnt) data)) = cnt) as Hl by (rewrite length_take; lia).
  destruct (encrypt_ok (piece_at cnt off segno) (take (Z.to_nat cnt) data) w Hp) as (key & w1 & E1 & Hkey & R1 & F1); try done.
  assert (mkWalLocation (XLogSegNoOffsetToRecPtr segno off segsz) tli = piece_loc (piece_at cnt off segno) 0) as ->.
  { apply (piece_start_eq _ Hp). }
  cbn [piece_at p_count p_offset p_tli p_segno p_segSize] in E1. fold (piece_at cnt off segno) in E1. rewrite (bind_ok _ _ _ _ _ E1).
  assert (w_fs w1 !! wf_fullpath f = Some bs) as Hbs1 by (by rewrite F1).
  set (enc := segment_stream key _ _).
  assert (enc = segment_stream key0 (piece_at cnt off segno) (take (Z.to_nat cnt) data)) as He by (apply segment_stream_lkey; congruence).
  assert (Z.of_nat (length enc) = cnt) as Hel by (unfold enc, segment_stream; by rewrite stream_ref_length).
  rewrite Hf. cbv iota. unfold dir_write. rewrite bind_assoc, Hpos. rewrite (bind_ok _ _ _ _ _ (pwrite_ok (wf_fullpath f) enc off w1 bs Hbs1 Ho)).
  mstep. rewrite Hel. rewrite (proj2 (Z.ltb_lt 0 cnt)) by lia. rewrite Z.eqb_refl. cbn [negb].
  eexists. split; [by apply receiving_write|]. split; [|split]; [| |unfold after_write, advance; rewrite Hpos; reflexivity].
  - cbn. rewrite lookup_insert_eq. by rewrite He.
  - intros q Hq1 Hq2. cbn. rewrite lookup_insert_ne by done. by apply F1.
Qed.

(** ** Messages *)

(** A message with WAL data; the other fields of its header are not looked at. *)
Definition xlog_message (pos : Z) (d : bytes) : bytes := x77 :: rev (le_enc 8 pos) ++ zeros 16 ++ d.

Lemma message_fields pos d :
  is_u64 pos →
  fe_recvint64 (drop 1 (xlog_message pos d)) = pos ∧ drop hdr_len (xlog_message pos d) = d ∧
  (length (xlog_message pos d) <? hdr_len)%nat = false.
Proof.
  intros Hp. assert (length (rev (le_enc 8 pos)) = 8%nat) as Hl by (rewrite length_rev; apply le_enc_length). split_and!.
  - unfold fe_recvint64, xlog_message. rewrite skipn_cons, drop_0, take_app_length' by done. rewrite rev_involutive. apply le_dec_enc_small.
    destruct Hp. split; [done|]. exact H0.
  - unfold xlog_message, hdr_len. cbn [Nat.add]. rewrite skipn_cons, drop_app_ge by lia. rewrite Hl. cbn [Nat.sub].
    rewrite drop_app_length'; [done|]. by rewrite zeros_length.
  - apply Nat.ltb_ge. unfold xlog_message, hdr_len. cbn [length]. rewrite !length_app, Hl, zeros_length. lia.
Qed.

Lemma recv_segment_offset pos : 0 <= pos → XLogSegmentOffset pos segsz = pos mod segsz.
Proof.
  intros Hp. destruct Hsz as (n & Hn & E). unfold XLogSegmentOffset. rewrite E. rewrite <-Z.land_ones by lia. f_equal.
  rewrite Z.ones_equiv. lia.
Qed.

Lemma segment_place segno off :
  0 <= segno → 0 <= off < segsz → XLogSegmentOffset (segno * segsz + off) segsz = off ∧ XLByteToSeg (segno * segsz + off) segsz = segno.
Proof.
  intros Hs Ho. pose proof segsz_range. rewrite recv_segment_offset by nia. unfold XLByteToSeg. split.
  - rewrite Z.add_comm, Z.mod_add, Z.mod_small by lia. done.
  - rewrite Z.add_comm, Z.div_add, Z.div_small by lia. lia.
Qed.

Lemma recv_segment_end segno : 0 <= segno → XLogSegmentOffset (segno * segsz + segsz) segsz = 0.
Proof.
  intros Hs. pose proof segsz_range. replace (segno * segsz + segsz) with ((segno + 1) * segsz + 0) by lia. apply segment_place; lia.
Qed.

(** The file is opened when the first data for it comes. *)
Lemma loop_opens fuel segno data off b st w st1 w1 f :
  data ≠ [] → walfile st = None → open_walfile stream b st w = Ok (true, st1) w1 → walfile st1 = Some f →
  xlog_data_loop (S fuel) stream segno data off b st w = xlog_data_loop (S fuel) stream segno data off b st1 w1.
Proof.
  intros Hd Hn E Hf. destruct data as [|b0 data]; [done|]. cbn [xlog_data_loop]. rewrite Hn, Hf. cbv zeta iota.
  by rewrite (bind_ok _ _ _ _ _ E), (bind_ok _ _ _ _ _ (ret_ok (true, st1) w1)).
Qed.

Definition wal_file_path (segno : Z) : string := dir_path (sc_walmethod stream) (dir_get_file_name (XLogFileName tli segno) (partial_suffix stream)).

Definition new_walfile (segno : Z) : Walfile := mkWalfile (XLogFileName tli segno) (wal_file_path segno) (partial_suffix stream) 0.

Lemma open_walfile_ok b st segno w :
  XLByteToSeg b segsz = segno → w_fs w !! wal_file_path segno = None →
  open_walfile stream b st w =
    Ok (true, with_walfile (Some (new_walfile segno)) st) (set_fs (<[wal_file_path segno := zeros (Z.to_nat segsz)]> (w_fs w)) w).
Proof.
  intros Hs Hn. unfold open_walfile. rewrite Hs. cbv zeta.
  assert (dir_existsfile (sc_walmethod stream) (dir_get_file_name (XLogFileName tli segno) (partial_suffix stream)) w = Ok false w) as Ee.
  { unfold dir_existsfile, OpenTransientFile. fold (wal_file_path segno). unfold mbind, M_bind. rewrite no_fault, Hn. done. }
  rewrite (bind_ok _ _ _ _ _ Ee). cbv iota.
  by rewrite (bind_ok _ _ _ _ _ (dir_create_ok (sc_walmethod stream) _ _ segsz w Hn (proj1 segsz_range))).
Qed.

Lemma starting_write w p d : p ≠ wal_path → starting w → starting (set_fs (<[p := d]> (w_fs w)) w).
Proof.
  intros Hp [((Hc & Hpk & h & es & Hf & Hrest) & Hfw) H2]. split; [|done]. split; [|exact Hfw]. split_and!; [done|done|].
  exists h, es. split; [|done]. cbn. by rewrite lookup_insert_ne.
Qed.

(** ** A segment in parts *)

Lemma take_overwrite (bs d : bytes) off : (off ≤ length bs)%nat → take (off + length d) (write_at off d bs) = take off bs ++ d.
Proof.
  intros H. unfold overwrite. rewrite app_assoc. rewrite take_app_length'.
  - f_equal. by rewrite take_app_le.
  - rewrite length_app, length_take, length_app, length_replicate. lia.
Qed.

Definition Len (d : bytes) : Z := Z.of_nat (length d).

(** The place of a segment in the WAL. *)
Record recv_segment_ok (segno : Z) : Prop := {
  sg_pos : 0 <= segno;
  sg_end : (segno + 1) * segsz < 2 ^ 64;
  sg_loc : wl_le loc (mkWalLocation (segno * segsz) tli);
  sg_path : wal_file_path segno ≠ wal_path;
}.

(** [done] was received of the segment. *)
Record streaming (segno : Z) (done : bytes) (st : RecvState) (w : World) : Prop := {
  str_send : still_sending st = true;
  str_file : walfile st = Some (advance (new_walfile segno) (Len done));
  str_data : ∃ bs, w_fs w !! wal_file_path segno = Some bs ∧ length bs = Z.to_nat segsz ∧
    take (length done) bs = segment_stream key0 (piece_at 0 0 segno) done;
  str_key : (starting w ∧ done = [] ∧ loc = mkWalLocation (segno * segsz) tli) ∨ receiving w;
}.

Lemma place_ok segno off cnt :
  recv_segment_ok segno → 0 <= off → 0 < cnt → off + cnt <= segsz →
  piece_ok (piece_at cnt off segno) ∧ wl_le loc (piece_loc (piece_at cnt off segno) 0).
Proof.
  intros [H1 H2 H3 _] Ho Hc He. split; [by split_and!|]. destruct H3 as [H3|H3].
  - left. unfold wl_lt, piece_loc, piece_at in *. cbn in *. lia.
  - unfold piece_loc, piece_at. cbn. rewrite H3. destruct (decide (off = 0)) as [->|]; [right; f_equal; lia|].
    left. unfold wl_lt. cbn. lia.
Qed.

Lemma advance_advance f a b : advance (advance f a) b = advance f (a + b).
Proof. unfold advance. cbn. f_equal. lia. Qed.

(** One write at the end of what was received. *)
Lemma streaming_write fuel segno done data b st w cnt :
  recv_segment_ok segno → streaming segno done st w → data ≠ [] → Len done < segsz → cnt = Z.min (Len data) (segsz - Len done) →
  ∃ w1, let d := take (Z.to_nat cnt) data in let st1 := with_walfile (Some (advance (new_walfile segno) (Len (done ++ d)))) st in
    streaming segno (done ++ d) st1 w1 ∧ receiving w1 ∧ (∀ q, q ≠ wal_path → q ≠ wal_file_path segno → w_fs w1 !! q = w_fs w !! q) ∧
    xlog_data_loop (S fuel) stream segno data (Len done) b st w = after_write fuel segno data (Len done) b cnt st1 w1.
Proof.
  intros Hs [Hsend Hfile (bs & Hbs & Hl & Htake) Hkey] Hd Hlt Hcnt.
  assert (0 < Len data) by (unfold Len; destruct data; [done|cbn; lia]). assert (0 <= Len done) by (unfold Len; lia).
  destruct (place_ok segno (Len done) cnt Hs) as [Hp Hle]; [lia..|].
  destruct (loop_step fuel segno data (Len done) b st (advance (new_walfile segno) (Len done)) bs w cnt Hfile) as (w1 & R1 & F1 & O1 & E1);
    try done; [apply (sg_path _ Hs)| |].
  { destruct Hkey as [(Hk & -> & ->)|]; [left|by right]. split; [done|]. unfold piece_loc, piece_at, Len. cbn. f_equal. lia. }
  set (d := take (Z.to_nat cnt) data) in *. assert (Len d = cnt) as Hld by (unfold Len, d in *; rewrite length_take; lia).
  assert (Len (done ++ d) = Len done + cnt) as Hla by (unfold Len in *; rewrite length_app; lia).
  exists w1. cbv zeta. rewrite advance_advance in E1. rewrite Hla. split_and!; [|done|exact O1|exact E1]. split; [done|by rewrite Hla| |by right].
  eexists. split; [exact F1|]. set (enc := segment_stream _ _ _).
  assert (length enc = length d) as Hle2 by (unfold enc, segment_stream; apply stream_ref_length).
  unfold Len in *. split.
  - rewrite overwrite_length, Hle2, Nat2Z.id. lia.
  - rewrite Nat2Z.id, length_app, <-Hle2, take_overwrite by lia. rewrite Htake. unfold enc, segment_stream. cbn [piece_at p_tli p_segno p_offset].
    rewrite stream_ref_app. done.
Qed.

(** A message that ends before the end of the segment. *)
Lemma message_inside segno done d b st w :
  recv_segment_ok segno → streaming segno done st w → d ≠ [] → Len done + Len d < segsz →
  ∃ st' w', ProcessXLogDataMsg stream (xlog_message (segno * segsz + Len done) d) b st w =
      Ok (true, segno * segsz + Len (done ++ d), st') w' ∧ streaming segno (done ++ d) st' w' ∧ receiving w' ∧
    ∀ q, q ≠ wal_path → q ≠ wal_file_path segno → w_fs w' !! q = w_fs w !! q.
Proof.
  intros Hs Hstr Hd Hlt. pose proof (sg_pos _ Hs). pose proof (sg_end _ Hs). assert (0 <= Len done ∧ 0 < Len d) as [??].
  { unfold Len. destruct d; [done|cbn; lia]. }
  destruct (message_fields (segno * segsz + Len done) d) as (M1 & M2 & M3); [unfold is_u64; nia|].
  destruct (segment_place segno (Len done)) as [P1 P2]; [lia..|].
  unfold ProcessXLogDataMsg. rewrite (str_send _ _ _ _ Hstr), M3, M1, M2, P1, P2, (str_file _ _ _ _ Hstr). cbn [negb advance wf_currpos new_walfile].
  rewrite (proj2 (Z.eqb_eq _ _)) by lia. cbn [negb].
  destruct (length d) as [|n] eqn:Hn; [by destruct d|].
  destruct (streaming_write n segno done d (segno * segsz + Len done) st w (Len d) Hs Hstr Hd) as (w1 & S1 & R1 & F1 & E1); [lia|lia|].
  rewrite E1. unfold Len in *. rewrite Nat2Z.id, take_ge in * by lia. set (st1 := with_walfile _ st) in *. exists st1, w1. split; [|done].
  unfold after_write. rewrite <-Z.add_assoc. destruct (segment_place segno (Z.of_nat (length done) + Z.of_nat (length d))) as [P3 _]; [lia..|].
  rewrite P3. rewrite (proj2 (Z.eqb_neq _ _)) by lia. rewrite Nat2Z.id, drop_ge by lia. rewrite length_app, Nat2Z.inj_add. by destruct n.
Qed.

(** ** Streams of messages *)

Fixpoint xlog_messages (pos : Z) (ds : list bytes) : list bytes :=
  match ds with
  | [] => []
  | d :: ds => xlog_message pos d :: xlog_messages (pos + Len d) ds
  end.

Fixpoint receive_all (msgs : list bytes) (blockpos : Z) (st : RecvState) : M (bool * Z * RecvState) :=
  match msgs with
  | [] => mret (true, blockpos, st)
  | msg :: msgs =>
      '(ok, blockpos, st) ← ProcessXLogDataMsg stream msg blockpos st;
      if negb ok then mret (false, blockpos, st) else receive_all msgs blockpos st
  end.

Lemma receive_inside segno ds : ∀ done st w,
  recv_segment_ok segno → streaming segno done st w → Forall (λ d, d ≠ []) ds → Len done + Len (concat ds) < segsz →
  ∃ st' w', receive_all (xlog_messages (segno * segsz + Len done) ds) (segno * segsz + Len done) st w =
      Ok (true, segno * segsz + Len (done ++ concat ds), st') w' ∧ streaming segno (done ++ concat ds) st' w' ∧
    (receiving w ∨ ds ≠ [] → receiving w') ∧
    ∀ q, q ≠ wal_path → q ≠ wal_file_path segno → w_fs w' !! q = w_fs w !! q.
Proof.
  induction ds as [|d ds IH]; intros done st w Hs Hstr Hne Hlt.
  { exists st, w. cbn. rewrite app_nil_r. split_and!; [done|done|by intros [?|?]|done]. }
  apply Forall_cons in Hne as [Hd Hds]. cbn [concat xlog_messages receive_all] in *. unfold Len in Hlt. rewrite length_app in Hlt.
  destruct (message_inside segno done d (segno * segsz + Len done) st w Hs Hstr Hd) as (st1 & w1 & E1 & S1 & R1 & F1); [unfold Len; lia|].
  rewrite (bind_ok _ _ _ _ _ E1). cbn [negb].
  assert (segno * segsz + Len done + Len d = segno * segsz + Len (done ++ d)) as -> by (unfold Len; rewrite length_app; lia).
  destruct (IH (done ++ d) st1 w1 Hs S1 Hds) as (st2 & w2 & E2 & S2 & R2 & F2); [unfold Len; rewrite length_app; lia|].
  rewrite <-app_assoc in *. exists st2, w2. split_and!; [done|done|auto|]. intros q Hq1 Hq2. by rewrite F2, F1.
Qed.

(** What a process that starts later reads. *)
Lemma read_received segno p n bs enc b1 b2 buf0 w :
  recv_segment_ok segno → receiving w → p = piece_at (Z.of_nat n) 0 segno → (0 < n)%nat → Z.of_nat n <= segsz → length buf0 = n →
  w_fs w !! wal_file_path segno = Some bs → take n bs = enc → length enc = n →
  ∃ w', tdeheap_xlog_seg_read (wal_file_path segno) buf0 (Z.of_nat n) 0 tli segno segsz (with_cache [] b1 b2 w) =
    Ok (Z.of_nat n, segment_stream key0 p enc) w'.
Proof.
  intros Hs [k Hw] -> Hn Hle Hb Hbs He Hl. destruct (place_ok segno 0 (Z.of_nat n) Hs) as [Hp Hloc]; [lia..|].
  assert (written pk vs v k loc (with_cache [] b1 b2 w)) as Hw' by (destruct Hw; split; try done; by left).
  destruct (seg_read_spec (wal_file_path segno) buf0 enc (piece_at (Z.of_nat n) 0 segno) (with_cache [] b1 b2 w) pk vs v k loc lk Hnr Hw' Hp Hloc)
    as (key & w2 & Hkey & Er); [exact Hmax| |cbn; lia|lia|].
  { cbn [piece_at p_count p_offset]. rewrite (pread_ok _ (Z.of_nat n) 0 (with_cache [] b1 b2 w) bs Hbs ltac:(lia)). unfold slice.
    rewrite Nat2Z.id. change (Z.to_nat 0) with 0%nat. by rewrite drop_0, He. }
  exists w2. cbn [piece_at p_count p_offset p_tli p_segno p_segSize] in Er. rewrite Er. do 2 f_equal.
  apply segment_stream_lkey. congruence.
Qed.

(** ** The end of a segment *)

Definition done_path (segno : Z) : string :=
  dir_path (sc_walmethod stream) (dir_get_file_name ("archive_status/" +:+ XLogFileName tli segno +:+ ".done") None).

Lemma mark_done_ok segno w :
  done_path segno ≠ wal_path → receiving w →
  ∃ w', mark_file_as_archived stream (XLogFileName tli segno) w = Ok true w' ∧ receiving w' ∧
    ∀ q, q ≠ done_path segno → w_fs w' !! q = w_fs w !! q.
Proof.
  intros Hne Hr. unfold mark_file_as_archived, dir_open_for_write. cbv zeta. fold (done_path segno).
  assert (∃ w', OpenTransientFile (done_path segno) true false w = Ok (Fd (done_path segno)) w' ∧ receiving w' ∧
    ∀ q, q ≠ done_path segno → w_fs w' !! q = w_fs w !! q) as (w' & Eo & Hr' & Hf).
  { unfold OpenTransientFile. rewrite no_fault. destruct (w_fs w !! done_path segno); [by exists w|].
    eexists. split; [reflexivity|]. split; [by apply receiving_write|]. intros q Hq. cbn. by rewrite lookup_insert_ne. }
  exists w'. split; [|done]. rewrite bind_assoc, (bind_ok _ _ _ _ _ Eo). cbn [Z.eqb]. rewrite bind_assoc.
  rewrite (bind_ok _ _ _ _ _ (ret_ok true w')). cbn [negb]. rewrite bind_assoc, (bind_ok _ _ _ _ _ (fsync_file_ok _ _ w')). cbn [negb Z.eqb].
  rewrite (bind_ok _ _ _ _ _ (ret_ok _ w')). unfold dir_close. cbn [wf_temp_suffix wf_fullpath].
  by rewrite (bind_ok _ _ _ _ _ (fsync_file_ok _ _ w')).
Qed.

Lemma close_complete_ok segno pos st w :
  partial_suffix stream = None → walfile st = Some (advance (new_walfile segno) segsz) → done_path segno ≠ wal_path → receiving w →
  ∃ w', close_walfile stream pos st w = Ok (true, mkRecvState None (still_sending st) pos) w' ∧ receiving w' ∧
    ∀ q, q ≠ done_path segno → w_fs w' !! q = w_fs w !! q.
Proof.
  intros Hps Hf Hne Hr. unfold close_walfile. rewrite Hf. unfold advance, new_walfile, dir_close. rewrite Hps. cbn [wf_currpos wf_pathname wf_temp_suffix wf_fullpath]. rewrite Z.add_0_l, Z.eqb_refl.
  rewrite (bind_ok _ _ _ _ _ (fsync_file_ok _ _ w)). cbn [negb Z.eqb andb].
  destruct (mark_done stream).
  - destruct (mark_done_ok segno w Hne Hr) as (w' & E & Hr' & Hf'). exists w'. split; [|done]. by rewrite (bind_ok _ _ _ _ _ E).
  - exists w. split; [|done]. done.
Qed.

(** No file is open and the next data is that of [segno]. *)
Record boundary (segno : Z) (st : RecvState) (w : World) : Prop := {
  bd_send : still_sending st = true;
  bd_none : walfile st = None;
  bd_key : (starting w ∧ loc = mkWalLocation (segno * segsz) tli) ∨ receiving w;
}.

(** The file of a segment begins with [d], encrypted. *)
Definition holds (segno : Z) (d : bytes) (w : World) : Prop :=
  ∃ bs, w_fs w !! wal_file_path segno = Some bs ∧ take (length d) bs = segment_stream key0 (piece_at 0 0 segno) d.

(** A message that ends with the segment. *)
Lemma message_last segno done d b st w :
  recv_segment_ok segno → streaming segno done st w → d ≠ [] → Len done + Len d = segsz →
  partial_suffix stream = None → stream_stop ((segno + 1) * segsz) tli true = false →
  done_path segno ≠ wal_path → wal_file_path segno ≠ done_path segno →
  ∃ st' w', ProcessXLogDataMsg stream (xlog_message (segno * segsz + Len done) d) b st w = Ok (true, (segno + 1) * segsz, st') w' ∧
    boundary (segno + 1) st' w' ∧ receiving w' ∧ holds segno (done ++ d) w' ∧
    ∀ q, q ≠ wal_path → q ≠ wal_file_path segno → q ≠ done_path segno → w_fs w' !! q = w_fs w !! q.
Proof.
  intros Hs Hstr Hd Hlen Hps Hstop Hne1 Hne2. pose proof (sg_pos _ Hs). pose proof (sg_end _ Hs). pose proof segsz_range.
  assert (0 <= Len done ∧ 0 < Len d) as [??] by (unfold Len; destruct d; [done|cbn; lia]).
  destruct (message_fields (segno * segsz + Len done) d) as (M1 & M2 & M3); [unfold is_u64; nia|].
  destruct (segment_place segno (Len done)) as [P1 P2]; [lia..|].
  unfold ProcessXLogDataMsg. rewrite (str_send _ _ _ _ Hstr), M3, M1, M2, P1, P2, (str_file _ _ _ _ Hstr). cbn [negb advance wf_currpos new_walfile].
  rewrite (proj2 (Z.eqb_eq (0 + Len done) _)) by lia. cbn [negb]. destruct (length d) as [|n] eqn:Hn; [by destruct d|].
  destruct (streaming_write n segno done d (segno * segsz + Len done) st w (Len d) Hs Hstr Hd) as (w1 & S1 & R1 & F1 & E1); [lia|lia|].
  rewrite E1. clear E1. assert (take (Z.to_nat (Len d)) d = d) as Ht by (apply take_ge; unfold Len; lia). rewrite Ht in S1. rewrite Ht.
  set (st1 := with_walfile _ st) in *. unfold after_write. assert (segno * segsz + Len done + Len d = (segno + 1) * segsz) as -> by lia.
  assert (XLogSegmentOffset ((segno + 1) * segsz) segsz = 0) as ->.
  { rewrite <-(recv_segment_end segno) by lia. f_equal. lia. }
  cbn [Z.eqb]. destruct (close_complete_ok segno ((segno + 1) * segsz) st1 w1 Hps) as (w2 & E2 & R2 & F2); [|done|done|].
  { unfold st1. cbn. do 2 f_equal. unfold Len in *. rewrite length_app. lia. }
  rewrite (bind_ok _ _ _ _ _ E2). cbn [negb still_sending]. rewrite Hstop, andb_false_r.
  assert (drop (Z.to_nat (Len d)) d = []) as -> by (apply drop_ge; unfold Len; lia).
  eexists _, w2. split; [by destruct n|]. split_and!.
  - split; [exact (str_send _ _ _ _ Hstr)|done|by right].
  - done.
  - destruct (str_data _ _ _ _ S1) as (bs & Hbs & _ & Htk). exists bs. split; [by rewrite F2|done].
  - intros q Hq1 Hq2 Hq3. by rewrite F2, F1.
Qed.

(** The file of a segment is made by the first message for it. *)
Lemma first_message segno ds b st w :
  recv_segment_ok segno → boundary segno st w → w_fs w !! wal_file_path segno = None → ds ≠ [] → Forall (λ d, d ≠ []) ds →
  ∃ st1 w1, streaming segno [] st1 w1 ∧ (∀ q, q ≠ wal_file_path segno → w_fs w1 !! q = w_fs w !! q) ∧
    receive_all (xlog_messages (segno * segsz) ds) b st w = receive_all (xlog_messages (segno * segsz) ds) b st1 w1.
Proof.
  intros Hs [Hsend Hnone Hkey] Hfile Hne Hds. pose proof (sg_pos _ Hs). pose proof (sg_end _ Hs). pose proof segsz_range.
  set (st1 := with_walfile (Some (new_walfile segno)) st). set (w1 := set_fs (<[wal_file_path segno := zeros (Z.to_nat segsz)]> (w_fs w)) w).
  exists st1, w1. split_and!.
  - split; [done|done| |].
    + exists (zeros (Z.to_nat segsz)). split; [apply lookup_insert_eq|]. split; [apply zeros_length|done].
    + destruct Hkey as [[Hst Hloc]|Hr]; [left|right; by apply receiving_write; [apply (sg_path _ Hs)|]].
      split; [by apply starting_write; [apply (sg_path _ Hs)|]|done].
  - intros q Hq. unfold w1. cbn. by rewrite lookup_insert_ne.
  - destruct ds as [|d ds]; [done|]. apply Forall_cons in Hds as [Hd _]. cbn [xlog_messages receive_all].
    assert (ProcessXLogDataMsg stream (xlog_message (segno * segsz) d) b st w =
            ProcessXLogDataMsg stream (xlog_message (segno * segsz) d) b st1 w1) as Ep; [|by unfold mbind, M_bind; rewrite Ep].
    destruct (message_fields (segno * segsz) d) as (M1 & M2 & M3); [unfold is_u64; nia|].
    destruct (segment_place segno 0) as [P1 P2]; [lia..|]. rewrite Z.add_0_r in P1, P2.
    unfold ProcessXLogDataMsg. rewrite M3, M1, M2, P1, P2, Hsend, Hnone.
    cbn [st1 with_walfile still_sending negb walfile new_walfile wf_currpos Z.eqb]. rewrite Hsend. cbn [negb].
    destruct (length d) as [|n] eqn:Hn; [by destruct d|]. fold st1.
    eapply loop_opens; [done|done|by apply open_walfile_ok|done].
Qed.

Lemma xlog_messages_app pos ds es : xlog_messages pos (ds ++ es) = xlog_messages pos ds ++ xlog_messages (pos + Len (concat ds)) es.
Proof.
  revert pos. induction ds as [|d ds IH]; intros pos; cbn; [by rewrite Z.add_0_r|]. rewrite IH. do 3 f_equal. unfold Len. rewrite length_app. lia.
Qed.

Lemma receive_app m1 m2 b b1 st st1 w w1 :
  receive_all m1 b st w = Ok (true, b1, st1) w1 → receive_all (m1 ++ m2) b st w = receive_all m2 b1 st1 w1.
Proof.
  revert b st w. induction m1 as [|m m1 IH]; intros b st w E; cbn [receive_all app] in *.
  - unfold mret, M_ret in E. by simplify_eq.
  - unfold mbind, M_bind in *. destruct (ProcessXLogDataMsg stream m b st w) as [[[ok b'] st'] w'|]; [|done].
    destruct ok; cbn [negb] in *; [by apply IH|]. unfold mret, M_ret in E. by simplify_eq.
Qed.

(** ** Whole segments *)

Definition parts_ok (ds : list bytes) : Prop := ds ≠ [] ∧ Forall (λ d, d ≠ []) ds.

Lemma parts_length ds : parts_ok ds → 0 < Len (concat ds).
Proof.
  intros [Hne Hds]. destruct ds as [|d ds]; [done|]. apply Forall_cons in Hds as [Hd _]. unfold Len. cbn. rewrite length_app.
  destruct d; [done|cbn; lia].
Qed.

Lemma receive_partial segno ds st w :
  recv_segment_ok segno → boundary segno st w → w_fs w !! wal_file_path segno = None → parts_ok ds → Len (concat ds) < segsz →
  ∃ st' w', receive_all (xlog_messages (segno * segsz) ds) (segno * segsz) st w =
      Ok (true, segno * segsz + Len (concat ds), st') w' ∧ receiving w' ∧ holds segno (concat ds) w' ∧
    ∀ q, q ≠ wal_path → q ≠ wal_file_path segno → w_fs w' !! q = w_fs w !! q.
Proof.
  intros Hs Hb Hnone [Hne Hds] Hlt. destruct (first_message segno ds (segno * segsz) st w Hs Hb Hnone Hne Hds) as (st1 & w1 & S1 & F1 & E1).
  destruct (receive_inside segno ds [] st1 w1 Hs S1 Hds) as (st2 & w2 & E2 & S2 & R2 & F2); [cbn; exact Hlt|].
  exists st2, w2. unfold Len at 1 2 in E2. cbn [app length] in *. rewrite Z.add_0_r in E2. rewrite E1. split_and!; [exact E2|auto| |].
  - destruct (str_data _ _ _ _ S2) as (bs & Hbs & _ & Htk). by exists bs.
  - intros q Hq1 Hq2. by rewrite F2, F1.
Qed.

Lemma receive_segment segno ds st w :
  recv_segment_ok segno → boundary segno st w → w_fs w !! wal_file_path segno = None → parts_ok ds → Len (concat ds) = segsz →
  partial_suffix stream = None → stream_stop ((segno + 1) * segsz) tli true = false →
  done_path segno ≠ wal_path → wal_file_path segno ≠ done_path segno →
  ∃ st' w', receive_all (xlog_messages (segno * segsz) ds) (segno * segsz) st w = Ok (true, (segno + 1) * segsz, st') w' ∧
    boundary (segno + 1) st' w' ∧ holds segno (concat ds) w' ∧
    ∀ q, q ≠ wal_path → q ≠ wal_file_path segno → q ≠ done_path segno → w_fs w' !! q = w_fs w !! q.
Proof.
  intros Hs Hb Hnone [Hne Hds] Hlen Hps Hstop Hne1 Hne2.
  destruct (first_message segno ds (segno * segsz) st w Hs Hb Hnone Hne Hds) as (st1 & w1 & S1 & F1 & E1). rewrite E1.
  destruct ds as [|d ds _] using rev_ind; [done|]. apply Forall_app in Hds as [Hds [Hd _]%Forall_cons].
  rewrite concat_app in *. cbn [concat] in *. rewrite app_nil_r in *.
  assert (Len (concat ds) + Len d = segsz ∧ 0 < Len d) as [Hl Hpos] by (unfold Len in *; rewrite length_app in Hlen; destruct d; [done|cbn [length] in *; lia]).
  destruct (receive_inside segno ds [] st1 w1 Hs S1 Hds) as (st2 & w2 & E2 & S2 & _ & F2); [change (Len []) with 0; lia|].
  unfold Len at 1 2 in E2. cbn [app length] in *. rewrite Z.add_0_r in E2.
  rewrite xlog_messages_app, (receive_app _ _ _ _ _ _ _ _ E2). cbn [xlog_messages receive_all].
  destruct (message_last segno (concat ds) d (segno * segsz + Len (concat ds)) st2 w2 Hs S2 Hd Hl Hps Hstop Hne1 Hne2)
    as (st3 & w3 & E3 & B3 & R3 & H3 & F3).
  rewrite (bind_ok _ _ _ _ _ E3). exists st3, w3. split_and!; [done|done|done|]. intros q Hq1 Hq2 Hq3. by rewrite F3, F2, F1.
Qed.

(** The places and files of [n] segments and one more. *)
Record stream_ok (segno : Z) (n : nat) (w : World) : Prop := {
  so_suffix : partial_suffix stream = None;
  so_segment i : (i ≤ n)%nat → recv_segment_ok (segno + Z.of_nat i);
  so_new i : (i ≤ n)%nat → w_fs w !! wal_file_path (segno + Z.of_nat i) = None;
  so_done i : (i < n)%nat → done_path (segno + Z.of_nat i) ≠ wal_path;
  so_done_wal i j : (i < n)%nat → (j ≤ n)%nat → wal_file_path (segno + Z.of_nat j) ≠ done_path (segno + Z.of_nat i);
  so_distinct i j : (i < j ≤ n)%nat → wal_file_path (segno + Z.of_nat i) ≠ wal_file_path (segno + Z.of_nat j);
  so_stop i : (i < n)%nat → stream_stop ((segno + Z.of_nat i + 1) * segsz) tli true = false;
}.

Lemma stream_ok_next segno n w w' :
  stream_ok segno (S n) w →
  (∀ q, q ≠ wal_path → q ≠ wal_file_path segno → q ≠ done_path segno → w_fs w' !! q = w_fs w !! q) →
  stream_ok (segno + 1) n w'.
Proof.
  intros [H1 H2 H3 H4 H5 H6 H7] Hf.
  assert (∀ i : nat, segno + 1 + Z.of_nat i = segno + Z.of_nat (S i)) as Hi by lia.
  split; [done| | | | | |]; intros i; rewrite ?Hi.
  - intros Hle. apply H2. lia.
  - intros Hle. rewrite Hf; [apply H3; lia|apply (sg_path _ (H2 (S i) ltac:(lia)))| |].
    + pose proof (H6 0%nat (S i) ltac:(lia)) as Hd. rewrite Z.add_0_r in Hd. congruence.
    + pose proof (H5 0%nat (S i) ltac:(lia) ltac:(lia)) as Hd. rewrite Z.add_0_r in Hd. congruence.
  - intros Hlt. apply H4. lia.
  - intros j Hlt Hle. rewrite Hi. apply H5; lia.
  - intros j Hlt. rewrite Hi. apply H6. lia.
  - intros Hlt. apply H7. lia.
Qed.

Lemma receive_segments dss ds : ∀ segno st w,
  stream_ok segno (length dss) w → boundary segno st w →
  Forall (λ ps, parts_ok ps ∧ Len (concat ps) = segsz) dss → parts_ok ds → Len (concat ds) < segsz →
  ∃ st' w', receive_all (xlog_messages (segno * segsz) (concat dss ++ ds)) (segno * segsz) st w =
      Ok (true, segno * segsz + Len (concat (concat dss ++ ds)), st') w' ∧ receiving w' ∧
    (∀ i ps, (dss ++ [ds]) !! i = Some ps → holds (segno + Z.of_nat i) (concat ps) w') ∧
    ∀ q, q ≠ wal_path → (∀ i, (i ≤ length dss)%nat → q ≠ wal_file_path (segno + Z.of_nat i)) →
      (∀ i, (i < length dss)%nat → q ≠ done_path (segno + Z.of_nat i)) → w_fs w' !! q = w_fs w !! q.
Proof.
  induction dss as [|ps dss IH]; intros segno st w Hok Hb Hdss Hds Hlt; pose proof (so_segment _ _ _ Hok 0%nat ltac:(lia)) as Hs;
    pose proof (so_new _ _ _ Hok 0%nat ltac:(lia)) as Hnew; rewrite Z.add_0_r in Hs, Hnew.
  - destruct (receive_partial segno ds st w Hs Hb Hnew Hds Hlt) as (st' & w' & E & R & H & F). exists st', w'. cbn [concat app length].
    split_and!; [done|done| |].
    + intros [|i] ps Hi; cbn in Hi; [|done]. injection Hi as <-. by rewrite Z.add_0_r.
    + intros q Hq1 Hq2 _. apply F; [done|]. by specialize (Hq2 0%nat ltac:(lia)); rewrite Z.add_0_r in Hq2.
  - apply Forall_cons in Hdss as [[Hps Hl] Hdss]. cbn [length] in Hok.
    pose proof (so_done _ _ _ Hok 0%nat ltac:(lia)) as Hd1. pose proof (so_stop _ _ _ Hok 0%nat ltac:(lia)) as Hstop.
    pose proof (so_done_wal _ _ _ Hok 0%nat 0%nat ltac:(lia) ltac:(lia)) as Hd2. rewrite Z.add_0_r in Hd1, Hd2, Hstop.
    destruct (receive_segment segno ps st w Hs Hb Hnew Hps Hl (so_suffix _ _ _ Hok) Hstop Hd1 Hd2) as (st1 & w1 & E1 & B1 & H1 & F1).
    pose proof (stream_ok_next _ _ _ w1 Hok F1) as Hok1. destruct (IH (segno + 1) st1 w1 Hok1 B1 Hdss Hds Hlt) as (st2 & w2 & E2 & R2 & H2 & F2).
    assert (∀ i : nat, segno + 1 + Z.of_nat i = segno + Z.of_nat (S i)) as Hi by lia.
    exists st2, w2. cbn [concat]. rewrite <-app_assoc, xlog_messages_app, Hl.
    replace (segno * segsz + segsz) with ((segno + 1) * segsz) by lia. rewrite (receive_app _ _ _ _ _ _ _ _ E1), E2. split_and!.
    + do 3 f_equal. rewrite (concat_app ps). unfold Len in *. rewrite length_app. lia.
    + done.
    + intros [|i] qs Hq; cbn in Hq; [|rewrite <-Hi; by apply H2]. injection Hq as <-. rewrite Z.add_0_r.
      destruct H1 as (bs & Hbs & Htk). exists bs. split; [|done]. rewrite F2; [done|apply (sg_path _ Hs)| |]; intros i Hle; rewrite Hi.
      * pose proof (so_distinct _ _ _ Hok 0%nat (S i) ltac:(lia)) as Hd. by rewrite Z.add_0_r in Hd.
      * pose proof (so_done_wal _ _ _ Hok (S i) 0%nat ltac:(lia) ltac:(lia)) as Hd. by rewrite Z.add_0_r in Hd.
    + intros q Hq1 Hq2 Hq3. pose proof (Hq2 0%nat ltac:(lia)) as Hq4. pose proof (Hq3 0%nat ltac:(cbn; lia)) as Hq5. rewrite Z.add_0_r in Hq4, Hq5.
      rewrite F2; [by apply F1|done| |]; intros i Hle; rewrite Hi; [apply Hq2|apply Hq3]; cbn; lia.
Qed.

(** C11: the WAL that pg_basebackup receives over any number of segments, each in any
    number of messages that end with the segment at the latest, and encrypts with
    the range that it made for the backup is read back by a process that starts
    later: the receiver records where the range begins, makes the file of a segment
    with the first message for it, encrypts each part by its place in the segment,
    and closes and marks the file at the end of the segment; whoever reads one of the
    files finds the key in the key file. *)
Theorem streamed_wal_readable segno dss ds lastFlush b1 b2 w :
  stream_ok segno (length dss) w → loc = mkWalLocation (segno * segsz) tli → starting w →
  Forall (λ ps, parts_ok ps ∧ Len (concat ps) = segsz) dss → parts_ok ds → Len (concat ds) < segsz →
  ∃ st' w1,
    receive_all (xlog_messages (segno * segsz) (concat dss ++ ds)) (segno * segsz) (mkRecvState None true lastFlush) w =
      Ok (true, segno * segsz + Len (concat (concat dss ++ ds)), st') w1 ∧
    ∀ i ps buf0, (dss ++ [ds]) !! i = Some ps → length buf0 = length (concat ps) →
      ∃ w2, tdeheap_xlog_seg_read (wal_file_path (segno + Z.of_nat i)) buf0 (Len (concat ps)) 0 tli (segno + Z.of_nat i) segsz
              (with_cache [] b1 b2 w1) = Ok (Len (concat ps), concat ps) w2.
Proof.
  intros Hok Hloc Hst Hdss Hds Hlt.
  destruct (receive_segments dss ds segno (mkRecvState None true lastFlush) w Hok) as (st' & w1 & E & R1 & H1 & _); try done.
  { split; [done|done|by left]. }
  exists st', w1. split; [exact E|]. intros i ps buf0 Hi Hbuf. destruct (H1 i ps Hi) as (bs & Hbs & Htk).
  pose proof (so_segment _ _ _ Hok i) as Hs. pose proof (lookup_lt_Some _ _ _ Hi) as Hle. rewrite length_app in Hle. cbn in Hle.
  assert (parts_ok ps ∧ Len (concat ps) <= segsz) as [Hps Hl].
  { assert (Forall (λ ps, parts_ok ps ∧ Len (concat ps) <= segsz) (dss ++ [ds])) as Hall; [|by apply (Forall_lookup_1 _ _ _ _ Hall Hi)].
    apply Forall_app. split; [|apply Forall_singleton; split; [done|lia]].
    apply (Forall_impl _ _ _ Hdss). intros p [Hp1 Hp2]. split; [done|lia]. }
  destruct (read_received (segno + Z.of_nat i) _ (length (concat ps)) bs (segment_stream key0 (piece_at 0 0 (segno + Z.of_nat i)) (concat ps))
    b1 b2 buf0 w1 (Hs ltac:(lia)) R1 eq_refl) as (w2 & Er);
    [pose proof (parts_length ps Hps); unfold Len in *; lia|exact Hl|done|done|exact Htk|unfold segment_stream; apply stream_ref_length|].
  exists w2. fold (Len (concat ps)) in Er. rewrite Er. do 2 f_equal. apply stream_ref_involutive.
Qed.

(** ** Messages that go beyond a segment *)

(** C40: a message that goes beyond the end of a segment: the number of the segment is
    computed once for the message, so that its rest is encrypted as if it were the
    start of the old segment, but written into the file of the next one; who reads
    that file gets the rest of the message combined with two different key streams. *)
Theorem crossing_message_garbled segno done d b st b1 b2 buf0 w :
  recv_segment_ok segno → recv_segment_ok (segno + 1) → streaming segno done st w → receiving w →
  partial_suffix stream = None → stream_stop ((segno + 1) * segsz) tli true = false →
  done_path segno ≠ wal_path → wal_file_path (segno + 1) ≠ done_path segno → wal_file_path (segno + 1) ≠ wal_file_path segno →
  w_fs w !! wal_file_path (segno + 1) = None →
  Len done < segsz → segsz < Len done + Len d → Len done + Len d < 2 * segsz →
  let rest := drop (Z.to_nat (segsz - Len done)) d in
  length buf0 = length rest →
  ∃ st' w1 w2,
    ProcessXLogDataMsg stream (xlog_message (segno * segsz + Len done) d) b st w =
      Ok (true, segno * segsz + Len done + Len d, st') w1 ∧
    tdeheap_xlog_seg_read (wal_file_path (segno + 1)) buf0 (Len rest) 0 tli (segno + 1) segsz (with_cache [] b1 b2 w1) =
      Ok (Len rest, segment_stream key0 (piece_at (Len rest) 0 (segno + 1)) (segment_stream key0 (piece_at (Len rest) 0 segno) rest)) w2.
Proof.
  intros Hs Hs' Hstr Hr Hps Hstop Hne1 Hne2 Hne3 Hnone H1 H2 H3 rest Hbuf. pose proof (sg_pos _ Hs). pose proof (sg_end _ Hs). pose proof segsz_range.
  assert (0 <= Len done) by (unfold Len; lia). set (cut := segsz - Len done) in *.
  assert (cut = segsz - Len done) as Hcut by reflexivity.
  assert (Len rest = Len d - cut) as Hlr by (unfold Len, rest in *; rewrite length_drop; lia).
  destruct (message_fields (segno * segsz + Len done) d) as (M1 & M2 & M3); [unfold is_u64; nia|].
  destruct (segment_place segno (Len done)) as [P1 P2]; [lia..|].
  unfold ProcessXLogDataMsg. rewrite (str_send _ _ _ _ Hstr), M3, M1, M2, P1, P2, (str_file _ _ _ _ Hstr). cbn [negb advance wf_currpos new_walfile].
  rewrite (proj2 (Z.eqb_eq (0 + Len done) _)) by lia. cbn [negb].
  destruct (length d) as [|[|n]] eqn:Hn; [unfold Len in *; lia..|].
  destruct (streaming_write (S n) segno done d (segno * segsz + Len done) st w cut Hs Hstr) as (w1 & S1 & R1 & F1 & E1); [by intros ->|lia|lia|].
  rewrite E1. clear E1. set (st1 := with_walfile _ st) in *. unfold after_write.
  assert (segno * segsz + Len done + cut = (segno + 1) * segsz) as -> by lia.
  assert (XLogSegmentOffset ((segno + 1) * segsz) segsz = 0) as ->.
  { rewrite <-(recv_segment_end segno) by lia. f_equal. lia. }
  cbn [Z.eqb].
  destruct (close_complete_ok segno ((segno + 1) * segsz) st1 w1 Hps) as (w2 & E2 & R2 & F2); [|done|done|].
  { unfold st1. cbn. do 2 f_equal. unfold Len in *. rewrite length_app, length_take. lia. }
  rewrite (bind_ok _ _ _ _ _ E2). cbn [negb still_sending]. rewrite Hstop, andb_false_r. fold cut rest.
  assert (w_fs w2 !! wal_file_path (segno + 1) = None) as Hn2.
  { rewrite F2 by done. rewrite F1; [done|apply (sg_path _ Hs')|done]. }
  destruct (segment_place (segno + 1) 0) as [_ Q2]; [lia..|]. rewrite Z.add_0_r in Q2.
  assert (rest ≠ []) as Hrn by (intros E; unfold Len in Hlr; rewrite E in Hlr; cbn in Hlr; unfold Len in *; lia).
  set (st2 := mkRecvState None (still_sending st1) ((segno + 1) * segsz)).
  rewrite (loop_opens n segno rest 0 _ st2 w2 _ _ (new_walfile (segno + 1)) Hrn eq_refl (open_walfile_ok _ st2 (segno + 1) w2 Q2 Hn2) eq_refl).
  set (w3 := set_fs _ w2). set (st3 := with_walfile (Some (new_walfile (segno + 1))) st2).
  destruct (place_ok segno 0 (Len rest) Hs) as [Hp Hle]; [lia..|].
  destruct (loop_step n segno rest 0 ((segno + 1) * segsz) st3 (new_walfile (segno + 1)) (zeros (Z.to_nat segsz)) w3 (Len rest))
    as (w4 & R4 & F4 & _ & E4); try done.
  { apply (sg_path _ Hs'). } { apply lookup_insert_eq. } { unfold Len in *; lia. } { right. apply receiving_write; [apply (sg_path _ Hs')|done]. }
  rewrite E4. clear E4. unfold after_write. destruct (segment_place (segno + 1) (Len rest)) as [Q3 _]; [lia..|]. rewrite Q3.
  rewrite (proj2 (Z.eqb_neq (Len rest) 0)) by lia. assert (drop (Z.to_nat (Len rest)) rest = []) as -> by (apply drop_ge; unfold Len; lia).
  set (st4 := with_walfile _ st3). set (enc := segment_stream key0 (piece_at (Len rest) 0 segno) rest).
  assert (take (Z.to_nat (Len rest)) rest = rest) as Ht by (apply take_ge; unfold Len; lia). rewrite Ht in F4. fold enc in F4.
  assert (length enc = length rest) as Hel by (unfold enc, segment_stream; apply stream_ref_length).
  destruct (read_received (segno + 1) (piece_at (Len rest) 0 (segno + 1)) (length rest) (write_at (Z.to_nat 0) enc (zeros (Z.to_nat segsz))) enc b1 b2 buf0 w4 Hs' R4 eq_refl) as (w5 & Er);
    [unfold Len in *; lia..|done|exact F4| |done|].
  { change (Z.to_nat 0) with 0%nat. rewrite <-Hel at 1. rewrite <-(Nat.add_0_l (length enc)), take_overwrite by lia. done. }
  exists st4, w4, w5. split; [|exact Er]. rewrite Hlr. replace ((segno + 1) * segsz + (Len d - cut)) with (segno * segsz + Len done + Len d) by lia.
  by destruct n.
Qed.

End recv.

(** ** The start *)

Section start.
Context {SSL : OpenSSL} {Spec : OpenSSLSpec SSL} {K : Kernel} {NF : NoFaults K} {RW : RandWorks SSL}.
Context {PKS : PrincipalKeys} {PKSpec : PrincipalKeysSpec PKS}.

(** Before it receives WAL, pg_basebackup makes the state that receiving starts from:
    a key file with the server's principal key and one range, which nobody has
    written with, as the current one; nothing is cached. *)
Theorem log_encryption_started len cur pk w :
  w_pk_cache w !! GLOBAL_DATA_TDE_OID = Some pk → pk_ok pk → w_enc_lock w = None → IsUnderPostmaster (w_session w) = false →
  InCrashRecovery (w_session w) = false → w_xsmgr w = mkXLogSmgrState cur None 0 0 → len = KEY_DATA_SIZE_DEFAULT ∨ len = 16 ∨ len = 32 →
  ∃ k w', start_log_encryption len w = Ok tt w' ∧ wal_key_wf k ∧
    starting pk [] (mkWRange WAL_ENCRYPTION_RANGE_ENCRYPTED loc_unset (Some (lkey k))) w'.
Proof.
  intros Hc Hpk Hlock Hup Hcr Hx Hlen. unfold start_log_encryption. rewrite (proj2 (Z.eqb_neq _ _)) by (unfold KEY_DATA_SIZE_DEFAULT in *; lia).
  rewrite (bind_ok _ _ _ _ _ (GetPrincipalKey_cached _ LW_SHARED _ w Hc)). set (kl := if negb (len =? KEY_DATA_SIZE_DEFAULT) then _ else _).
  assert (kl = 16 ∨ kl = 32) as Hkl.
  { unfold kl, KEY_DATA_SIZE_DEFAULT in *. destruct (Z.eqb_spec len 1); cbn [negb]; [|lia].
    destruct (Z.eqb_spec (pk_keyLength pk) 16); [by left|]. destruct (Z.eqb_spec (pk_keyLength pk) 32); [by right|by left]. }
  destruct (save_server_key_spec pk false w Hpk) as (w1 & E1 & Hrep & Hc1 & Hl1 & Hw1 & Hs1 & Hx1 & _). rewrite (bind_ok _ _ _ _ _ E1).
  unfold TDEXLogSmgrInitWrite, open_pg_tde_free_wal_key_cache. rewrite (bind_ok (modify _) _ w1 _ _ eq_refl). set (w2 := set_wal _ w1).
  assert (wal_rep w2 pk []) as Hrep2 by (split_and!; [by rewrite <-Hc1 in Hc|done|done]).
  assert (w_enc_lock w2 = None) as Hl2 by (by rewrite <-Hlock).
  rewrite (bind_ok _ _ _ _ _ (read_last_wal_range_spec pk [] w2 Hrep2 Hl2)). rewrite (bind_ok (gets _) _ w2 _ w2 eq_refl).
  change (w_session w2) with (w_session w1). rewrite Hs1, Hup. cbv iota.
  destruct (create_wal_range_spec WAL_ENCRYPTION_RANGE_ENCRYPTED kl pk [] w2 Hrep2 Hl2 Hkl)
    as (r & w3 & E3 & Hrep3 & Hty & _ & _ & Hkey & _ & (f & n & -> & _)); [unfold is_u32, WAL_ENCRYPTION_RANGE_ENCRYPTED; lia|cbn; lia|].
  set (w3 := set_fs f (set_rand n w2)) in *. set (w4 := set_xsmgr (mkXLogSmgrState r None 0 0) w3).
  assert ((r ← open_pg_tde_create_wal_range WAL_ENCRYPTION_RANGE_ENCRYPTED kl; set_current_range r) w2 = Ok tt w4) as E4.
  { rewrite (bind_ok _ _ _ _ _ E3). unfold set_current_range, modify. change (w_xsmgr w3) with (w_xsmgr w1). by rewrite Hx1, Hx. }
  rewrite (bind_ok _ _ _ _ _ E4). rewrite (bind_ok open_pg_tde_get_wal_cache_keys _ w4 None w4 eq_refl).
  destruct (fetch_wal_keys_spec first_location pk _ w4 Hrep3) as (rs & b1 & b2 & Hfe & E5); [done|apply Forall_singleton; by eexists|].
  assert (rs = []) as -> by exact (Forall2_nil_inv_r _ _ Hfe). rewrite (bind_ok _ _ _ _ _ E5).
  exists (wr_key r). eexists. split; [reflexivity|]. split; [done|]. split; [|done].
  split_and!; [exact Hrep3|apply Forall_singleton; by eexists|done| |done|exact Hty|exact Hkey|done|done].
  change (InCrashRecovery (w_session w1) = false). by rewrite Hs1.
Qed.

End start.

(** ** Example *)

#[local] Instance example_recv : RecvEnv := {|
  stream_stop _ _ _ := false; put_copy_end := true; recv_WalSegSz := 1024;
  XLogFileName tli segno := if segno =? 1 then "000000010000000000000001"%string else "000000010000000000000002"%string;
|}.

Definition example_stream : StreamCtl := mkStreamCtl 1 (mkWalWriteMethod "/b/pg_wal" true) None true true.
Definition example_loc : WalLocation := mkWalLocation (1 * 1024) 1.

Lemma recv_example : ∃ v key w,
  new_range [] v example_loc (lkey key) ∧ starting pkg [] v w ∧
  w_fs w !! wal_file_path example_stream 1 = None ∧ w_fs w !! wal_file_path example_stream 2 = None.
Proof.
  destruct fresh_writer_example as (r & w & Hfw & Hc). cbv zeta in Hfw. set (v := mkWRange _ _ _) in *.
  set (w0 := writer_of r w) in *.
  exists v, (wr_key r), (set_fs (delete (wal_file_path example_stream 1) (delete (wal_file_path example_stream 2) (w_fs w0))) w0).
  split_and!.
  - split; try done.
    apply Forall_singleton. by eexists.
  - split; [|exact Hc]. destruct Hfw as ((Hc1 & Hpk & h & es & Hf & Hrest) & Hfw). split; [|exact Hfw]. split_and!; [done|done|].
    exists h, es. split; [|done]. cbn [w_fs set_fs]. rewrite !lookup_delete_ne by (vm_compute; discriminate). exact Hf.
  - cbn [w_fs set_fs]. apply lookup_delete_eq.
  - cbn [w_fs set_fs]. rewrite lookup_delete_ne by (vm_compute; discriminate). apply lookup_delete_eq.
Qed.

Lemma example_sz : ∃ n, 0 <= n <= 30 ∧ recv_WalSegSz = 2 ^ n.
Proof. by exists 10. Qed.

Lemma example_segment segno : segno = 1 ∨ segno = 2 → recv_segment_ok example_loc example_stream segno.
Proof.
  intros Hs. split.
  - lia.
  - cbn. lia.
  - destruct Hs as [->| ->]; [by right|left; right; cbn; lia].
  - destruct Hs as [->| ->]; vm_compute; discriminate.
Qed.

Definition part1 : bytes := replicate 100 x41.
Definition part2 : bytes := replicate 50 x42.

Definition long_part : bytes := replicate 1000 x43.
Definition rest_part : bytes := replicate 24 x44.

Lemma example_stream_ok w :
  w_fs w !! wal_file_path example_stream 1 = None → w_fs w !! wal_file_path example_stream 2 = None →
  stream_ok example_loc example_stream 1 1 w.
Proof.
  intros H1 H2. split; [done| | | | | |]; intros i.
  - intros Hi. apply example_segment. lia.
  - intros Hi. destruct i as [|[|i]]; [exact H1|exact H2|lia].
  - intros Hi. destruct i as [|i]; [vm_compute; discriminate|lia].
  - intros j Hi Hj. destruct i as [|i]; [|lia]. destruct j as [|[|j]]; [vm_compute; discriminate..|lia].
  - intros j Hj. destruct i as [|i]; [|lia]. destruct j as [|[|j]]; [lia|vm_compute; discriminate|lia].
  - done.
Qed.

Lemma streamed_wal_readable_witness : ∃ w st' w1,
  receive_all example_stream (xlog_messages 1024 [long_part; rest_part; part1; part2]) 1024 (mkRecvState None true 0) w =
    Ok (true, 1024 + 1174, st') w1 ∧
  (∃ w2, tdeheap_xlog_seg_read (wal_file_path example_stream 1) (zeros 1024) 1024 0 1 1 1024 (with_cache [] false false w1) =
    Ok (1024, long_part ++ rest_part) w2) ∧
  (∃ w2, tdeheap_xlog_seg_read (wal_file_path example_stream 2) (zeros 150) 150 0 1 2 1024 (with_cache [] false false w1) =
    Ok (150, part1 ++ part2) w2).
Proof.
  destruct recv_example as (v & key & w & Hn & Hst & Hf1 & Hf2). exists w.
  assert (Forall (λ ps, parts_ok ps ∧ Len (concat ps) = 1024) [[long_part; rest_part]]) as Hdss.
  { repeat constructor; try discriminate. }
  assert (parts_ok [part1; part2]) as Hds by (split; [discriminate|repeat constructor; discriminate]).
  assert (Len (concat [part1; part2]) < 1024) as Hlt by (vm_compute; reflexivity).
  destruct (streamed_wal_readable pkg [] v example_loc (lkey key) Hn example_sz example_stream eq_refl ltac:(unfold is_u32; cbn; lia) ltac:(done)
    key eq_refl 1 [[long_part; rest_part]] [part1; part2] 0 false false w (example_stream_ok w Hf1 Hf2) eq_refl Hst Hdss Hds Hlt)
    as (st' & w1 & E & Hr).
  exists st', w1. split; [exact E|]. split.
  - exact (Hr 0%nat [long_part; rest_part] (zeros 1024) eq_refl eq_refl).
  - exact (Hr 1%nat [part1; part2] (zeros 150) eq_refl eq_refl).
Defined.

Lemma crossing_message_garbled_witness : ∃ key w st st' w1 w2,
  ProcessXLogDataMsg example_stream (xlog_message (1 * 1024 + Len (part1 ++ part2)) long_part) 0 st w = Ok (true, 1024 + 150 + 1000, st') w1 ∧
  tdeheap_xlog_seg_read (wal_file_path example_stream 2) (zeros 126) 126 0 1 2 1024 (with_cache [] false false w1) =
    Ok (126, segment_stream key (mkPiece 126 0 1 2 1024) (segment_stream key (mkPiece 126 0 1 1 1024) (replicate 126 x43))) w2.
Proof.
  destruct recv_example as (v & key & w & Hn & Hst & Hf1 & Hf2). exists key.
  set (st0 := with_walfile (Some (new_walfile example_stream 1)) (mkRecvState None true 0)).
  set (w0 := set_fs (<[wal_file_path example_stream 1 := zeros (Z.to_nat 1024)]> (w_fs w)) w).
  assert (streaming pkg [] v example_loc example_stream key 1 [] st0 w0) as Hstr.
  { split; [done|done| |left; split; [by apply starting_write; [vm_compute; discriminate|]|done]].
    exists (zeros (Z.to_nat 1024)). split; [apply lookup_insert_eq|]. split; [apply zeros_length|done]. }
  assert (Forall (λ d : bytes, d ≠ []) [part1; part2]) as Hne by (repeat constructor; discriminate).
  assert (Len [] + Len (concat [part1; part2]) < 1024) as Hlen by (vm_compute; reflexivity).
  assert ([part1; part2] ≠ []) as Hnn by discriminate.
  pose proof (example_segment 1 (or_introl eq_refl)) as Hs1. assert (is_u32 1) as Hu by (unfold is_u32; lia).
  assert (1 < MaxTimeLineID) as Hmax by done.
  destruct (receive_inside pkg [] v example_loc (lkey key) Hn example_sz example_stream eq_refl Hu Hmax key eq_refl
    1 [part1; part2] [] st0 w0 Hs1 Hstr Hne Hlen) as (st & w1 & _ & S1 & R1 & F1).
  destruct (crossing_message_garbled pkg [] v example_loc (lkey key) Hn example_sz example_stream eq_refl ltac:(unfold is_u32; cbn; lia) ltac:(done)
    key eq_refl 1 (part1 ++ part2) long_part 0 st false false (zeros 126) w1 (example_segment 1 (or_introl eq_refl))
    (example_segment 2 (or_intror eq_refl)) S1 (R1 (or_intror Hnn)) eq_refl eq_refl) as (st' & w2 & w3 & E1 & E2).
  { vm_compute. discriminate. } { vm_compute. discriminate. } { vm_compute. discriminate. }
  { change (1 + 1) with 2. rewrite F1; [|vm_compute; discriminate..]. unfold w0. cbn [w_fs set_fs].
    by rewrite lookup_insert_ne by (vm_compute; discriminate). }
  { done. } { done. } { done. } { done. }
  change (1 + 1) with 2 in E2. change recv_WalSegSz with 1024 in E1, E2. change (sc_timeline example_stream) with 1 in E2.
  unfold piece_at in E2. change recv_WalSegSz with 1024 in E2. change (sc_timeline example_stream) with 1 in E2.
  assert (drop (Z.to_nat (1024 - Len (part1 ++ part2))) long_part = replicate 126 x43) as Hd by (vm_compute; reflexivity).
  rewrite Hd in E2. change (Len (replicate 126 x43)) with 126 in E2.
  change (1 * 1024 + Len (part1 ++ part2) + Len long_part) with (1024 + 150 + 1000) in E1.
  by exists w1, st, st', w2, w3.
Defined.
