(* ===== verification/AStreamer.v ===== *)
(** fetools/pg18/pg_basebackup/astreamer_inject.c: the two edits that pg_basebackup
    makes to the archive of a backup while it passes through: settings for recovery
    are added, and the WAL keys of the source are left out when the backup has its
    own. An archive is a list of chunks; a streamer takes one chunk and gives its new
    state and the chunks it sends on. *)
From S2P Require Import Prelude Types Environ.

Inductive astreamer_archive_context :=
| ASTREAMER_UNKNOWN
| ASTREAMER_MEMBER_HEADER
| ASTREAMER_MEMBER_CONTENTS
| ASTREAMER_MEMBER_TRAILER
| ASTREAMER_ARCHIVE_TRAILER.

Record astreamer_member := mkMember {
  am_pathname : string;
  am_size : Z;
  am_mode : Z;
  am_uid : Z;
  am_gid : Z;
  is_regular : bool;
  is_directory : bool;
  is_symlink : bool;
  am_linktarget : string;
}.

Record Chunk := mkChunk {
  ch_member : option astreamer_member;
  ch_data : bytes;
  ch_context : astreamer_archive_context;
}.

Definition with_size (m : astreamer_member) (n : Z) : astreamer_member :=
  mkMember (am_pathname m) n (am_mode m) (am_uid m) (am_gid m) (is_regular m) (is_directory m) (is_symlink m) (am_linktarget m).

(** ** Recovery settings *)

(** The state of the streamer; its member is zero before the first header. *)
Record astreamer_recovery_injector := mkRecoveryInjector {
  ri_skip_file : bool;
  ri_guc_supported : bool;
  is_postgresql_auto_conf : bool;
  found_postgresql_auto_conf : bool;
  recoveryconfcontents : bytes;
  ri_member : astreamer_member;
}.

Definition zero_member : astreamer_member := mkMember EmptyString 0 0 0 0 false false false EmptyString.

Definition astreamer_recovery_injector_new (is_recovery_guc_supported : bool) (contents : bytes) : astreamer_recovery_injector :=
  mkRecoveryInjector false is_recovery_guc_supported false false contents zero_member.

Section inject.
Context (pg_file_create_mode : Z).

Definition injected_member (pathname : string) (len : Z) : astreamer_member :=
  mkMember pathname len pg_file_create_mode 2048 1024 true false false EmptyString.

Definition astreamer_inject_file (pathname : string) (data : bytes) : list Chunk :=
  let m := Some (injected_member pathname (Z.of_nat (length data))) in
  [mkChunk m [] ASTREAMER_MEMBER_HEADER; mkChunk m data ASTREAMER_MEMBER_CONTENTS; mkChunk m [] ASTREAMER_MEMBER_TRAILER].

(** [None] for a chunk that has no type, and for a header without member. *)
Definition astreamer_recovery_injector_content (st : astreamer_recovery_injector) (c : Chunk)
  : option (astreamer_recovery_injector * list Chunk) :=
  let conf := recoveryconfcontents st in
  match ch_context c with
  | ASTREAMER_MEMBER_HEADER =>
      match ch_member c with
      | None => None
      | Some member =>
          if ri_guc_supported st then
            let skip := bool_decide (am_pathname member = "standby.signal"%string) in
            let auto := bool_decide (am_pathname member = "postgresql.auto.conf"%string) in
            let st := mkRecoveryInjector skip true auto (auto || found_postgresql_auto_conf st) conf
                        (if auto then with_size member (am_size member + Z.of_nat (length conf)) else member) in
            if skip then Some (st, [])
            else Some (st, [mkChunk (Some (ri_member st)) (if auto then [] else ch_data c) ASTREAMER_MEMBER_HEADER])
          else
            let skip := bool_decide (am_pathname member = "recovery.conf"%string) in
            let st := mkRecoveryInjector skip false (is_postgresql_auto_conf st) (found_postgresql_auto_conf st) conf member in
            if skip then Some (st, []) else Some (st, [mkChunk (Some member) (ch_data c) ASTREAMER_MEMBER_HEADER])
      end
  | ASTREAMER_MEMBER_CONTENTS =>
      if ri_skip_file st then Some (st, [])
      else Some (st, [mkChunk (Some (ri_member st)) (ch_data c) ASTREAMER_MEMBER_CONTENTS])
  | ASTREAMER_MEMBER_TRAILER =>
      if ri_skip_file st then Some (st, [])
      else
        Some (st, (if is_postgresql_auto_conf st then [mkChunk (ch_member c) conf ASTREAMER_MEMBER_CONTENTS] else []) ++
                  [mkChunk (Some (ri_member st)) (ch_data c) ASTREAMER_MEMBER_TRAILER])
  | ASTREAMER_ARCHIVE_TRAILER =>
      Some (st,
        (if ri_guc_supported st then
           (if found_postgresql_auto_conf st then [] else astreamer_inject_file "postgresql.auto.conf" conf) ++
           astreamer_inject_file "standby.signal" []
         else astreamer_inject_file "recovery.conf" conf) ++
        [mkChunk (Some (ri_member st)) (ch_data c) ASTREAMER_ARCHIVE_TRAILER])
  | ASTREAMER_UNKNOWN => None
  end.

End inject.

(** ** WAL keys *)

Record astreamer_open_pg_tde_injector := mkTdeInjector { ti_skip_file : bool; encrypted_wal : bool }.

Definition astreamer_open_pg_tde_injector_new (encrypted : bool) : astreamer_open_pg_tde_injector := mkTdeInjector false encrypted.

(** Warnings are not part of the model. *)
Definition astreamer_open_pg_tde_injector_content (st : astreamer_open_pg_tde_injector) (c : Chunk)
  : option (astreamer_open_pg_tde_injector * list Chunk) :=
  let skipped := mkTdeInjector true (encrypted_wal st) in
  match ch_context c with
  | ASTREAMER_MEMBER_HEADER =>
      match ch_member c with
      | None => None
      | Some member =>
          let name := am_pathname member in
          if bool_decide (name = "open_pg_tde/wal_keys"%string) && encrypted_wal st then Some (skipped, [])
          else if (bool_decide (name = "open_pg_tde"%string) || bool_decide (name = "open_pg_tde/"%string)) && encrypted_wal st
          then Some (skipped, [])
          else Some (mkTdeInjector false (encrypted_wal st), [c])
      end
  | ASTREAMER_MEMBER_CONTENTS | ASTREAMER_MEMBER_TRAILER =>
      if ti_skip_file st then Some (st, []) else Some (st, [c])
  | _ => Some (st, [c])
  end.

(** ** Pipelines *)

Section run.
Context {S : Type} (content : S → Chunk → option (S * list Chunk)).

(** A whole archive; [None] as soon as one chunk is refused. *)
Fixpoint run_streamer (st : S) (cs : list Chunk) : option (S * list Chunk) :=
  match cs with
  | [] => Some (st, [])
  | c :: cs =>
      '(st, out1) ← content st c;
      '(st, out2) ← run_streamer st cs;
      Some (st, out1 ++ out2)
  end.
End run.

(** [CreateBackupStreamer] puts the recovery settings before the WAL keys. *)
Definition backup_streamer (pg_file_create_mode : Z) (writerecoveryconf is_recovery_guc_supported encrypt : bool) (conf : bytes)
    (cs : list Chunk) : option (list Chunk) :=
  cs ← (if writerecoveryconf
        then snd <$> run_streamer (astreamer_recovery_injector_content pg_file_create_mode)
                       (astreamer_recovery_injector_new is_recovery_guc_supported conf) cs
        else Some cs);
  snd <$> run_streamer astreamer_open_pg_tde_injector_content (astreamer_open_pg_tde_injector_new encrypt) cs.
