(* ===== verification/AStreamerThms.v ===== *)
(** The edits of astreamer_inject.c as one function on the files of an archive: what
    an archive holds is read off its chunks by a grammar, and the pipeline of a
    backup gives an archive of the edited files. *)
From S2P Require Import Prelude Types Environ AStreamer.

(** ** What an archive holds *)

Record ArFile := mkArFile { af_member : astreamer_member; af_header : bytes; af_data : bytes }.

(** The chunks from the header of a member to its trailer. *)
Inductive member_body : list Chunk → bytes → Prop :=
| body_end mo d : member_body [mkChunk mo d ASTREAMER_MEMBER_TRAILER] []
| body_more mo d cs b :
    member_body cs b → member_body (mkChunk mo d ASTREAMER_MEMBER_CONTENTS :: cs) (d ++ b).

Inductive archive : list Chunk → list ArFile → Prop :=
| archive_end mo d : archive [mkChunk mo d ASTREAMER_ARCHIVE_TRAILER] []
| archive_member m h cs b rest fs :
    member_body cs b → archive rest fs →
    archive (mkChunk (Some m) h ASTREAMER_MEMBER_HEADER :: cs ++ rest) (mkArFile m h b :: fs).

Lemma member_body_functional cs b rest cs' b' rest' :
  member_body cs b → member_body cs' b' → cs ++ rest = cs' ++ rest' → b = b' ∧ rest = rest'.
Proof.
  intros Hb. revert cs' b'. induction Hb as [mo d|mo d cs b Hb IH]; intros cs' b' Hb' E;
    destruct Hb' as [mo' d'|mo' d' cs1 b1 Hb']; cbn in E; simplify_eq; [done|].
  by destruct (IH _ _ Hb' ltac:(eassumption)) as [-> ->].
Qed.

(** The chunks determine the files. *)
Lemma archive_functional cs fs gs : archive cs fs → archive cs gs → fs = gs.
Proof.
  intros Ha. revert gs. induction Ha as [mo d|m h cs b rest fs Hb Ha IH]; intros gs Hg.
  - by inversion Hg.
  - inversion Hg as [|m' h' cs' b' rest' gs' Hb' Hg' E]; subst.
    destruct (member_body_functional _ _ _ _ _ _ Hb' Hb ltac:(eassumption)) as [-> ->]. f_equal. by apply IH.
Qed.

Lemma body_single mo mo' d d' :
  member_body [mkChunk mo d ASTREAMER_MEMBER_CONTENTS; mkChunk mo' d' ASTREAMER_MEMBER_TRAILER] d.
Proof. pose proof (body_more mo d _ _ (body_end mo' d')) as H. by rewrite app_nil_r in H. Qed.

(** Every regular file announces the length of its data. *)
Definition sized (f : ArFile) : Prop :=
  is_regular (af_member f) = true → am_size (af_member f) = Z.of_nat (length (af_data f)).

(** ** The edits *)

Definition has_name (s : string) (f : ArFile) : bool := bool_decide (am_pathname (af_member f) = s).

Definition injected (mode : Z) (name : string) (data : bytes) : ArFile :=
  mkArFile (injected_member mode name (Z.of_nat (length data))) [] data.

(** The settings go behind the contents of postgresql.auto.conf, whose header is left
    to be made anew. *)
Definition extend_conf (conf : bytes) (f : ArFile) : ArFile :=
  if has_name "postgresql.auto.conf" f
  then mkArFile (with_size (af_member f) (am_size (af_member f) + Z.of_nat (length conf))) [] (af_data f ++ conf)
  else f.

Definition recovery_files (mode : Z) (guc : bool) (conf : bytes) (fs : list ArFile) : list ArFile :=
  if guc then
    (extend_conf conf <$> List.filter (λ f, negb (has_name "standby.signal" f)) fs) ++
    (if existsb (has_name "postgresql.auto.conf") fs then [] else [injected mode "postgresql.auto.conf" conf]) ++
    [injected mode "standby.signal" []]
  else
    List.filter (λ f, negb (has_name "recovery.conf" f)) fs ++ [injected mode "recovery.conf" conf].

Definition source_wal_keys (f : ArFile) : bool :=
  has_name "open_pg_tde/wal_keys" f || has_name "open_pg_tde" f || has_name "open_pg_tde/" f.

Definition tde_files (encrypt : bool) (fs : list ArFile) : list ArFile :=
  if encrypt then List.filter (λ f, negb (source_wal_keys f)) fs else fs.

Definition backup_files (mode : Z) (writerecoveryconf guc encrypt : bool) (conf : bytes) (fs : list ArFile) : list ArFile :=
  tde_files encrypt (if writerecoveryconf then recovery_files mode guc conf fs else fs).

(** ** Running a streamer *)

Section run_lemmas.
Context {S : Type} (content : S → Chunk → option (S * list Chunk)).

Lemma run_streamer_app s s1 s2 cs1 cs2 o1 o2 :
  run_streamer content s cs1 = Some (s1, o1) →
  run_streamer content s1 cs2 = Some (s2, o2) →
  run_streamer content s (cs1 ++ cs2) = Some (s2, o1 ++ o2).
Proof.
  revert s o1. induction cs1 as [|c cs1 IH]; intros s o1 H1 H2; cbn [run_streamer app] in *.
  - by simplify_eq.
  - destruct (content s c) as [[s' oc]|]; [|done]. cbn [mbind option_bind] in *.
    destruct (run_streamer content s' cs1) as [[s'' o']|] eqn:E; [|done]. simplify_eq/=.
    rewrite (IH s' o' E H2). cbn [mbind option_bind]. by rewrite app_assoc.
Qed.

Lemma run_streamer_cons s s1 s2 c cs o1 o2 :
  content s c = Some (s1, o1) →
  run_streamer content s1 cs = Some (s2, o2) →
  run_streamer content s (c :: cs) = Some (s2, o1 ++ o2).
Proof. intros H1 H2. cbn [run_streamer]. rewrite H1. cbn [mbind option_bind]. by rewrite H2. Qed.

(** A streamer that drops the chunks of a body in the state [s]. *)
Lemma run_body_dropped s cs b :
  (∀ c, ch_context c = ASTREAMER_MEMBER_CONTENTS ∨ ch_context c = ASTREAMER_MEMBER_TRAILER → content s c = Some (s, [])) →
  member_body cs b → run_streamer content s cs = Some (s, []).
Proof.
  intros Hc. induction 1 as [mo d|mo d cs b Hb IH]; cbn [run_streamer].
  - rewrite Hc; cbn; auto.
  - rewrite Hc; [cbn [mbind option_bind]; by rewrite IH|cbn; auto].
Qed.

(** A streamer that keeps the data of the chunks and adds [tail] before the trailer. *)
Lemma run_body_kept s cs b tail :
  (∀ c, ch_context c = ASTREAMER_MEMBER_CONTENTS → ∃ mo, content s c = Some (s, [mkChunk mo (ch_data c) ASTREAMER_MEMBER_CONTENTS])) →
  (∀ c, ch_context c = ASTREAMER_MEMBER_TRAILER → ∃ o, content s c = Some (s, o) ∧ member_body o tail) →
  member_body cs b →
  ∃ o, run_streamer content s cs = Some (s, o) ∧ member_body o (b ++ tail).
Proof.
  intros Hc Ht. induction 1 as [mo d|mo d cs b Hb IH].
  - destruct (Ht (mkChunk mo d ASTREAMER_MEMBER_TRAILER) eq_refl) as (o & E & Ho).
    exists (o ++ []). split; [by apply (run_streamer_cons _ s)|by rewrite app_nil_r].
  - destruct (Hc (mkChunk mo d ASTREAMER_MEMBER_CONTENTS) eq_refl) as (mo' & E).
    destruct IH as (o & Eo & Ho). eexists. split; [by apply (run_streamer_cons _ _ _ _ _ _ _ E Eo)|].
    rewrite <-app_assoc. by constructor.
Qed.

Lemma run_member_dropped s s' m h cs b :
  content s (mkChunk (Some m) h ASTREAMER_MEMBER_HEADER) = Some (s', []) →
  (∀ c, ch_context c = ASTREAMER_MEMBER_CONTENTS ∨ ch_context c = ASTREAMER_MEMBER_TRAILER → content s' c = Some (s', [])) →
  member_body cs b →
  run_streamer content s (mkChunk (Some m) h ASTREAMER_MEMBER_HEADER :: cs) = Some (s', []).
Proof. intros Hh Hc Hb. apply (run_streamer_cons _ s' _ _ _ [] []); [done|]. by eapply run_body_dropped. Qed.

Lemma run_member_kept s s' m m' h h' cs b tail :
  content s (mkChunk (Some m) h ASTREAMER_MEMBER_HEADER) = Some (s', [mkChunk (Some m') h' ASTREAMER_MEMBER_HEADER]) →
  (∀ c, ch_context c = ASTREAMER_MEMBER_CONTENTS → ∃ mo, content s' c = Some (s', [mkChunk mo (ch_data c) ASTREAMER_MEMBER_CONTENTS])) →
  (∀ c, ch_context c = ASTREAMER_MEMBER_TRAILER → ∃ o, content s' c = Some (s', o) ∧ member_body o tail) →
  member_body cs b →
  ∃ o, run_streamer content s (mkChunk (Some m) h ASTREAMER_MEMBER_HEADER :: cs) = Some (s', o)
    ∧ ∀ rest fs, archive rest fs → archive (o ++ rest) (mkArFile m' h' (b ++ tail) :: fs).
Proof.
  intros Hh Hc Ht Hb. destruct (run_body_kept s' cs b tail Hc Ht Hb) as (o & Eo & Ho).
  eexists. split; [by apply (run_streamer_cons _ _ _ _ _ _ _ Hh Eo)|]. intros rest fs Ha. by constructor.
Qed.

End run_lemmas.

(** ** The recovery settings *)

Section recovery.
Context (mode : Z).
Notation rcontent := (astreamer_recovery_injector_content mode).

Lemma injected_files fs n d cs : archive cs fs → archive (astreamer_inject_file mode n d ++ cs) (injected mode n d :: fs).
Proof.
  intros Ha. unfold astreamer_inject_file, injected. cbn [app].
  change (archive (mkChunk (Some (injected_member mode n (Z.of_nat (length d)))) [] ASTREAMER_MEMBER_HEADER ::
    [mkChunk (Some (injected_member mode n (Z.of_nat (length d)))) d ASTREAMER_MEMBER_CONTENTS;
     mkChunk (Some (injected_member mode n (Z.of_nat (length d)))) [] ASTREAMER_MEMBER_TRAILER] ++ cs)
    (mkArFile (injected_member mode n (Z.of_nat (length d))) [] d :: fs)).
  constructor; [apply body_single|done].
Qed.

(** The files that one member becomes, and whether it is the settings file. *)
Definition edit_one (guc : bool) (conf : bytes) (f : ArFile) : list ArFile :=
  if has_name (if guc then "standby.signal" else "recovery.conf") f then []
  else [if guc then extend_conf conf f else f].

Lemma run_recovery_member st m h cs b :
  (ri_guc_supported st = false → is_postgresql_auto_conf st = false) →
  member_body cs b →
  ∃ st' o, run_streamer rcontent st (mkChunk (Some m) h ASTREAMER_MEMBER_HEADER :: cs) = Some (st', o)
    ∧ (∀ rest fs, archive rest fs →
        archive (o ++ rest) (edit_one (ri_guc_supported st) (recoveryconfcontents st) (mkArFile m h b) ++ fs))
    ∧ ri_guc_supported st' = ri_guc_supported st
    ∧ recoveryconfcontents st' = recoveryconfcontents st
    ∧ (ri_guc_supported st = false → is_postgresql_auto_conf st' = false)
    ∧ (ri_guc_supported st = true →
        found_postgresql_auto_conf st' = has_name "postgresql.auto.conf" (mkArFile m h b) || found_postgresql_auto_conf st).
Proof.
  intros Hg Hb. destruct st as [sk [|] au fo conf mem]; cbn [ri_guc_supported is_postgresql_auto_conf recoveryconfcontents found_postgresql_auto_conf] in *.
  - destruct (has_name "standby.signal" (mkArFile m h b)) eqn:Hs.
    + exists (mkRecoveryInjector true true (has_name "postgresql.auto.conf" (mkArFile m h b))
                (has_name "postgresql.auto.conf" (mkArFile m h b) || fo) conf
                (if has_name "postgresql.auto.conf" (mkArFile m h b) then with_size m (am_size m + Z.of_nat (length conf)) else m)), [].
      split_and!; [|by unfold edit_one; rewrite Hs|done..].
      eapply run_member_dropped; [|intros [? ? cx]; cbn; by intros [->| ->]|done].
      cbn. unfold has_name in Hs. cbn in Hs. rewrite Hs. reflexivity.
    + set (auto := bool_decide (am_pathname m = "postgresql.auto.conf"%string)).
      destruct (run_member_kept rcontent (mkRecoveryInjector sk true au fo conf mem)
        (mkRecoveryInjector false true auto (auto || fo) conf (if auto then with_size m (am_size m + Z.of_nat (length conf)) else m))
        m (if auto then with_size m (am_size m + Z.of_nat (length conf)) else m) h (if auto then [] else h) cs b
        (if auto then conf else [])) as (o & Eo & Ho); [| | |done|].
      { cbn. unfold has_name in Hs. cbn in Hs. by rewrite Hs. }
      { intros [? ? cx]; cbn. intros ->. eauto. }
      { intros [mo d cx]; cbn. intros ->. eexists. split; [reflexivity|]. destruct auto; cbn; [apply body_single|constructor]. }
      eexists _, _. split_and!; [exact Eo| |done..]. intros rest fs Ha. specialize (Ho rest fs Ha).
      unfold edit_one. rewrite Hs. unfold extend_conf, has_name. cbn [af_member af_data app]. fold auto.
      destruct auto; [done|]. by rewrite app_nil_r in Ho.
  - specialize (Hg eq_refl). subst au. destruct (has_name "recovery.conf" (mkArFile m h b)) eqn:Hs.
    + exists (mkRecoveryInjector true false false fo conf m), []. split_and!; [|by unfold edit_one; rewrite Hs|done..].
      eapply run_member_dropped; [|intros [? ? cx]; cbn; by intros [->| ->]|done].
      cbn. unfold has_name in Hs. cbn in Hs. rewrite Hs. reflexivity.
    + destruct (run_member_kept rcontent (mkRecoveryInjector sk false false fo conf mem)
        (mkRecoveryInjector false false false fo conf m) m m h h cs b []) as (o & Eo & Ho); [| | |done|].
      { cbn. unfold has_name in Hs. cbn in Hs. by rewrite Hs. }
      { intros [? ? cx]; cbn. intros ->. eauto. }
      { intros [mo d cx]; cbn. intros ->. eexists. split; [reflexivity|]. constructor. }
      rewrite app_nil_r in Ho. eexists _, _. split_and!; [exact Eo|by unfold edit_one; rewrite Hs|done..].
Qed.

Definition tail_files (guc : bool) (conf : bytes) (found : bool) : list ArFile :=
  if guc then (if found then [] else [injected mode "postgresql.auto.conf" conf]) ++ [injected mode "standby.signal" []]
  else [injected mode "recovery.conf" conf].

Lemma run_recovery cs fs st :
  (ri_guc_supported st = false → is_postgresql_auto_conf st = false) →
  archive cs fs →
  ∃ st' o, run_streamer rcontent st cs = Some (st', o)
    ∧ archive o ((fs ≫= edit_one (ri_guc_supported st) (recoveryconfcontents st)) ++
                 tail_files (ri_guc_supported st) (recoveryconfcontents st)
                   (existsb (has_name "postgresql.auto.conf") fs || found_postgresql_auto_conf st)).
Proof.
  intros Hg Ha. revert st Hg. induction Ha as [mo d|m h cs b rest fs Hb Ha IH]; intros st Hg.
  - eexists _, _. split; [cbn; reflexivity|]. rewrite app_nil_r. cbn [mbind list_bind existsb orb app]. unfold tail_files.
    destruct (ri_guc_supported st); [destruct (found_postgresql_auto_conf st)|]; rewrite ?app_nil_l, <-?app_assoc;
      repeat apply injected_files; constructor.
  - destruct (run_recovery_member st m h cs b Hg Hb) as (st1 & o1 & E1 & H1 & Eg & Ec & Hg1 & Hf).
    destruct (IH st1) as (st2 & o2 & E2 & H2); [by rewrite Eg|].
    exists st2, (o1 ++ o2). split; [exact (run_streamer_app rcontent _ _ _ (_ :: cs) rest _ _ E1 E2)|].
    rewrite Eg, Ec in H2. rewrite bind_cons, <-app_assoc. apply H1.
    enough (tail_files (ri_guc_supported st) (recoveryconfcontents st)
              (existsb (has_name "postgresql.auto.conf") (mkArFile m h b :: fs) || found_postgresql_auto_conf st) =
            tail_files (ri_guc_supported st) (recoveryconfcontents st)
              (existsb (has_name "postgresql.auto.conf") fs || found_postgresql_auto_conf st1)) as -> by done.
    unfold tail_files. destruct (ri_guc_supported st); [|done]. rewrite (Hf eq_refl). cbn [existsb].
    by destruct (has_name _ _), (existsb _ fs), (found_postgresql_auto_conf st).
Qed.

Lemma recovery_files_edit guc conf fs :
  recovery_files mode guc conf fs =
  (fs ≫= edit_one guc conf) ++ tail_files guc conf (existsb (has_name "postgresql.auto.conf") fs).
Proof.
  unfold recovery_files, tail_files, edit_one. destruct guc; f_equal.
  - induction fs as [|f fs IH]; [done|]. cbn [List.filter]. rewrite bind_cons, <-IH. by destruct (has_name _ f).
  - induction fs as [|f fs IH]; [done|]. cbn [List.filter]. rewrite bind_cons, <-IH. by destruct (has_name _ f).
Qed.

Lemma recovery_injected guc conf cs fs :
  archive cs fs →
  ∃ st o, run_streamer rcontent (astreamer_recovery_injector_new guc conf) cs = Some (st, o)
    ∧ archive o (recovery_files mode guc conf fs).
Proof.
  intros Ha. destruct (run_recovery cs fs (astreamer_recovery_injector_new guc conf)) as (st & o & E & Ho); [done..|].
  exists st, o. split; [done|]. rewrite recovery_files_edit. cbn in Ho. by rewrite orb_false_r in Ho.
Qed.

Lemma recovery_files_sized guc conf fs : Forall sized fs → Forall sized (recovery_files mode guc conf fs).
Proof.
  intros Hf. rewrite recovery_files_edit. apply Forall_app. split.
  - apply Forall_bind. apply (Forall_impl _ _ _ Hf). intros f Hs.  unfold compose, edit_one.
    destruct (has_name _ f); [constructor|]. apply Forall_singleton. destruct guc; [|done]. unfold extend_conf. destruct (has_name "postgresql.auto.conf" f); [|done].
    intros Hr. cbn. rewrite length_app, Nat2Z.inj_add. f_equal. by apply Hs.
  - unfold tail_files. destruct guc; [destruct (existsb _ fs)|]; by repeat constructor.
Qed.

End recovery.

(** ** The WAL keys *)

Lemma run_tde_member st m h cs b :
  member_body cs b →
  ∃ st' o, run_streamer astreamer_open_pg_tde_injector_content st (mkChunk (Some m) h ASTREAMER_MEMBER_HEADER :: cs) = Some (st', o)
    ∧ (∀ rest fs, archive rest fs → archive (o ++ rest) (tde_files (encrypted_wal st) [mkArFile m h b] ++ fs))
    ∧ encrypted_wal st' = encrypted_wal st.
Proof.
  intros Hb. destruct (encrypted_wal st && source_wal_keys (mkArFile m h b)) eqn:E.
  - apply andb_true_iff in E as [Ee Es]. exists (mkTdeInjector true (encrypted_wal st)), [].
    split_and!; [|intros rest fs Ha; rewrite Ee; cbn [tde_files List.filter]; by rewrite Es|done].
    eapply run_member_dropped; [|intros [? ? cx]; cbn; by intros [->| ->]|done].
    cbn. rewrite Ee. unfold source_wal_keys, has_name in Es. cbn [af_member] in Es.
    by destruct (bool_decide (_ = "open_pg_tde/wal_keys"%string)), (bool_decide (_ = "open_pg_tde"%string)),
      (bool_decide (_ = "open_pg_tde/"%string)).
  - destruct (run_member_kept astreamer_open_pg_tde_injector_content st (mkTdeInjector false (encrypted_wal st)) m m h h cs b [])
      as (o & Eo & Ho); [| | |done|].
    { cbn. unfold source_wal_keys, has_name in E. cbn [af_member] in E.
      by destruct (encrypted_wal st), (bool_decide (_ = "open_pg_tde/wal_keys"%string)),
        (bool_decide (_ = "open_pg_tde"%string)), (bool_decide (_ = "open_pg_tde/"%string)). }
    { intros [? ? cx]; cbn. intros ->. eauto. }
    { intros [mo d cx]; cbn. intros ->. eexists. split; [reflexivity|]. constructor. }
    rewrite app_nil_r in Ho. eexists _, _. split_and!; [exact Eo| |done].
    unfold tde_files. destruct (encrypted_wal st); [|done]. cbn in E. cbn [List.filter]. by rewrite E.
Qed.

Lemma tde_files_cons e f fs : tde_files e (f :: fs) = tde_files e [f] ++ tde_files e fs.
Proof. destruct e; [|done]. cbn. by destruct (source_wal_keys f). Qed.

Lemma wal_keys_injected cs fs st :
  archive cs fs →
  ∃ st' o, run_streamer astreamer_open_pg_tde_injector_content st cs = Some (st', o)
    ∧ archive o (tde_files (encrypted_wal st) fs).
Proof.
  intros Ha. revert st. induction Ha as [mo d|m h cs b rest fs Hb Ha IH]; intros st.
  - eexists _, _. split; [cbn; reflexivity|]. destruct (encrypted_wal st); constructor.
  - destruct (run_tde_member st m h cs b Hb) as (st1 & o1 & E1 & H1 & Ee).
    destruct (IH st1) as (st2 & o2 & E2 & H2). exists st2, (o1 ++ o2).
    split; [exact (run_streamer_app _ _ _ _ (_ :: cs) rest _ _ E1 E2)|].
    rewrite tde_files_cons. apply H1. by rewrite <-Ee.
Qed.

Lemma tde_files_sized e fs : Forall sized fs → Forall sized (tde_files e fs).
Proof.
  destruct e; [|done]. rewrite !Forall_forall. intros Hf f Hin. apply Hf.
  apply list_elem_of_In in Hin. apply list_elem_of_In. by apply filter_In in Hin as [Hin _].
Qed.

(** ** The pipeline of a backup *)

Lemma backup_streamed mode writerecoveryconf guc encrypt conf cs fs :
  archive cs fs →
  ∃ out, backup_streamer mode writerecoveryconf guc encrypt conf cs = Some out
    ∧ archive out (backup_files mode writerecoveryconf guc encrypt conf fs).
Proof.
  intros Ha. unfold backup_streamer, backup_files. destruct writerecoveryconf.
  - destruct (recovery_injected mode guc conf cs fs Ha) as (st & o & E & Ho). rewrite E. cbn.
    destruct (wal_keys_injected o _ (astreamer_open_pg_tde_injector_new encrypt) Ho) as (st' & o' & E' & Ho').
    rewrite E'. cbn. by eexists.
  - cbn. destruct (wal_keys_injected cs fs (astreamer_open_pg_tde_injector_new encrypt) Ha) as (st' & o' & E' & Ho').
    rewrite E'. cbn. by eexists.
Qed.

(** C20: the two edits of pg_basebackup do to the files of an archive what their
    specification says, in whatever chunks the archive arrives, and refuse no
    archive: with -R the file standby.signal is replaced by an empty one and
    postgresql.auto.conf is extended by the settings, or made if there was none
    (recovery.conf is replaced for servers before version 12); with -E exactly the
    WAL key file of the source and the entry of its directory are left out; every
    other file keeps its place, its header and its data. What is sent on can be read
    as the edited files only. *)
Theorem backup_archive_edited mode writerecoveryconf guc encrypt conf cs fs :
  archive cs fs →
  ∃ out, backup_streamer mode writerecoveryconf guc encrypt conf cs = Some out
    ∧ ∀ gs, archive out gs ↔ gs = backup_files mode writerecoveryconf guc encrypt conf fs.
Proof.
  intros Ha. destruct (backup_streamed mode writerecoveryconf guc encrypt conf cs fs Ha) as (out & E & Ho).
  exists out. split; [done|]. intros gs. split; [|by intros ->]. intros Hg. by apply (archive_functional out).
Qed.

(** C37: the edits keep an archive well formed: when every regular file has the size
    that its member announces, the same holds for all that is sent on, for the
    extended and the new files as well. *)
Theorem backup_archive_sized mode writerecoveryconf guc encrypt conf cs fs out gs :
  archive cs fs → Forall sized fs →
  backup_streamer mode writerecoveryconf guc encrypt conf cs = Some out → archive out gs → Forall sized gs.
Proof.
  intros Ha Hs E Hg. destruct (backup_streamed mode writerecoveryconf guc encrypt conf cs fs Ha) as (out' & E' & Ho).
  rewrite E in E'. injection E' as <-. rewrite (archive_functional out gs _ Hg Ho).
  apply tde_files_sized. destruct writerecoveryconf; [by apply recovery_files_sized|done].
Qed.

(** A backup with settings and keys: the directory and the keys go, the settings are
    appended in a new chunk, and standby.signal comes last. *)
Definition demo_member (name : string) (n : Z) (dir : bool) : astreamer_member :=
  mkMember name n 384 0 0 (negb dir) dir false EmptyString.

Definition demo_entry (m : astreamer_member) (hdr : bytes) (data : list bytes) : list Chunk :=
  mkChunk (Some m) hdr ASTREAMER_MEMBER_HEADER ::
  ((λ d, mkChunk (Some m) d ASTREAMER_MEMBER_CONTENTS) <$> data) ++ [mkChunk (Some m) [] ASTREAMER_MEMBER_TRAILER].

Definition demo_archive : list Chunk :=
  demo_entry (demo_member "PG_VERSION" 2 false) [z2b 1] [[z2b 49]; [z2b 56]] ++
  demo_entry (demo_member "open_pg_tde/" 0 true) [z2b 2] [] ++
  demo_entry (demo_member "open_pg_tde/wal_keys" 1 false) [z2b 3] [[z2b 7]] ++
  demo_entry (demo_member "postgresql.auto.conf" 1 false) [z2b 4] [[z2b 10]] ++
  [mkChunk None [z2b 0] ASTREAMER_ARCHIVE_TRAILER].

Definition demo_files : list ArFile :=
  [mkArFile (demo_member "PG_VERSION" 2 false) [z2b 1] [z2b 49; z2b 56];
   mkArFile (demo_member "open_pg_tde/" 0 true) [z2b 2] [];
   mkArFile (demo_member "open_pg_tde/wal_keys" 1 false) [z2b 3] [z2b 7];
   mkArFile (demo_member "postgresql.auto.conf" 1 false) [z2b 4] [z2b 10]].

Lemma demo_entry_archive m hdr ds rest fs :
  archive rest fs → archive (demo_entry m hdr ds ++ rest) (mkArFile m hdr (concat ds) :: fs).
Proof.
  intros Ha. unfold demo_entry. rewrite <-app_comm_cons. constructor; [|done].
  induction ds as [|d ds IH]; cbn; constructor. exact IH.
Qed.

Lemma demo_archive_files : archive demo_archive demo_files.
Proof. unfold demo_archive, demo_files. do 4 apply demo_entry_archive. constructor. Qed.

Lemma backup_archive_edited_witness :
  ∃ out, backup_streamer 384 true true true [z2b 112] demo_archive = Some out
    ∧ ∀ gs, archive out gs ↔
        gs = [mkArFile (demo_member "PG_VERSION" 2 false) [z2b 1] [z2b 49; z2b 56];
              mkArFile (demo_member "postgresql.auto.conf" 2 false) [] [z2b 10; z2b 112];
              mkArFile (mkMember "standby.signal" 0 384 2048 1024 true false false EmptyString) [] []].
Proof. exact (backup_archive_edited 384 true true true [z2b 112] demo_archive demo_files demo_archive_files). Defined.

Lemma backup_archive_sized_witness :
  match backup_streamer 384 true false true [z2b 112] demo_archive with
  | Some out => ∀ gs, archive out gs → Forall sized gs
  | None => False
  end.
Proof.
  destruct (backup_streamer 384 true false true [z2b 112] demo_archive) as [out|] eqn:E; [|vm_compute in E; discriminate E].
  intros gs Hg. apply (backup_archive_sized 384 true false true [z2b 112] demo_archive demo_files out gs demo_archive_files); [|exact E|exact Hg].
  by repeat constructor.
Defined.
